(* ===== verification/_CoqProject ===== *)
-Q . S2P
Prelude.v
GoStrings.v
GoBase64.v
GoTime.v
GoJson.v
AutoGraph.v
Errors.v
AutoEngine.v
Concrete.v
AutoGraphFacts.v
AutoEngineFacts.v
AutoStore.v
AutoStepper.v
AutoService.v
AutoStoreFacts.v
AutoEvents.v
AutoDemo.v
AutoSystem.v
AutoSafety.v
AutoEventFacts.v
Keyset.v
AutoListing.v
WorkFields.v
WorkFieldsFacts.v
WorkKeyFacts.v
WorkBoard.v
WorkSync.v
WorkFacts.v
WorkOps.v
WorkSafety.v
WorkPull.v
WorkChecks.v
WorkTheorems.v
MfClient.v
MfFacts.v
MfLocal.v
MfConverge.v
MfDemo.v
TenantModel.v
TenantService.v
TenantTree.v
TenantFacts.v
TenantOps.v
TenantMembers.v
AuthTokens.v
AccountService.v
TenantApi.v
TenantFootprint.v
TenantSafety.v
SessionFacts.v
SessionSafety.v
TenantDemo.v
TenantTheorems.v
TenantListing.v
TenantAccess.v
AccountTheorems.v
TenantWitness.v
MailToken.v
MailProvider.v
MailCache.v
MailStore.v
MailFeedback.v
MailService.v
MailFacts.v
MailOps.v
MailFanout.v
MailRequests.v
MailWorker.v
MailSafety.v
MailRollup.v
MailSend.v
MailWebhook.v
MailJoint.v
MailTheorems.v
MailWitness.v
MailConsent.v
MailLists.v
MailConsentFacts.v
MailConsentOps.v
MailConsentSafety.v
