(* ===== verification/Prelude.v ===== *)
(** * Manyforge: verification of its services, its work board and its client

    Manyforge is a business platform written in Go over PostgreSQL.  This
    library models the parts of it that carry most of its own logic, from the
    Go code and from the SQL the Go code calls, and proves what makes them correct.

    ** The parts and how they interact

    - Automations ([internal/automations]): workflows of nodes (trigger, send,
      wait, condition, tag, exit) that subscribers of mailing lists walk through.
      The API edits and activates versions of a graph; events and list changes
      enroll subscribers through the outbox; stepper replicas claim due
      enrollments under a lease and a generation, and the engine advances each in
      a transaction of its own.  SQL functions fence every write by the generation.
    - Mailing ([internal/mailing]): campaigns to the subscribers of a list.  The
      send worker starts due campaigns, fans them out into deliveries, claims
      deliveries (of campaigns and of automations) under a lease and a generation,
      sends them through a provider and rolls up counters; links in the mail and
      webhooks of the providers record consent, opens, clicks and bounces.  People
      join a list through its public form, a signed API or a manager, and confirm by
      a link.  The automations and mailing share the deliveries, lists and subscribers.
    - The work board ([internal/work]): projects, tasks and tokens, and the sync
      protocol by which command line clients push operations and pull changes.
    - The client [mf] ([cmd/mf]): a cache, a cursor and an outbox of operations
      applied locally, sent in batches.
    - Tenancy and accounts ([internal/tenancy], [internal/authz],
      [internal/account], [internal/invitations], [internal/platform/auth]): a
      tree of businesses per tenant with its closure table, members and roles,
      permissions inherited down the tree, row-level security, invitations,
      passwords, refresh sessions and one-time tokens.  The other services ask it
      whether a principal may act on a business.

    ** Files

    Shared: [Prelude] (results, notations, tactics, generic lemmas), [GoStrings],
    [GoBase64], [GoTime], [GoJson] (what the code uses of Go's strings, base64,
    time and encoding/json), [Errors] (error values and [errors.Is]), [Keyset]
    (pages by the key of the last row), [Concrete] (concrete instances of the
    library parameters, used by witnesses).

    Automations: [AutoGraph] (graph.go: [Validate] and its searches),
    [AutoEngine] (ports.go and engine.go: [Advance]), [AutoStore] (the tables of
    migration 0128 as finite maps and the SQL functions of migrations 0129, 0130
    and 0135 on them, transactions), [AutoStepper] (stepper.go, and the ports of
    internal/mailing/ports014.go), [AutoService] (service.go, enrollments.go,
    types.go), [AutoListing] (their listings and cursors), [AutoEvents]
    (events.go, trigger.go, and the outbox of
    internal/platform/events).  Properties: [AutoGraphFacts], [AutoEngineFacts],
    [AutoStoreFacts] (claiming), [AutoSystem] (every operation keeps the database
    invariant and moves rows forward only), [AutoSafety] (the transition system of
    replicas, API, outbox and environment, and what a tick of a replica does among
    the others),
    [AutoEventFacts]; [AutoDemo] is a concrete run.

    Work board: [WorkFields] (validate.go), [WorkBoard] (types.go, service.go, the
    statements of db/query/work.sql, the tables and CHECK constraints of migration
    0145), [WorkSync] (sync.go).  Properties: [WorkFieldsFacts], [WorkKeyFacts],
    [WorkFacts] (the invariant [board_ok] and the relation [history]), [WorkOps]
    and [WorkSafety] (every statement and operation keeps them), [WorkPull] (pages),
    [WorkChecks] (validation against the constraints), [WorkTheorems].

    Client: [MfClient] (store.go, sync.go, commands.go, views.go), [MfFacts]
    (batches, rounds, the wire format), [MfLocal] (updates, keys, views),
    [MfConverge] (client and server together), [MfDemo].

    Tenancy and accounts: [TenantModel] (the tables, row-level security, triggers,
    the statements of dbgen and the SQL functions, transactions as a state and
    error monad), [TenantService] (tenancy/service.go, members.go, ownership.go,
    authz/resolver.go, role.go, and the creation of an agent in agents/agent.go), [AuthTokens] (platform/auth: passwords, access
    and refresh tokens), [AccountService] (account/*.go, invitations/service.go),
    [TenantApi] (every operation as a value, histories, which tables an operation writes).  Properties:
    [TenantTree] (forests and their closure), [TenantFacts] (what policies show;
    the invariant [tenancy_inv]), [TenantOps], [TenantMembers] and [TenantSafety]
    (every operation keeps it; the database the migrations leave),
    [TenantFootprint], [SessionFacts] and [SessionSafety] (refresh families,
    one-time tokens, invitations), [TenantTheorems], [TenantListing],
    [TenantAccess], [AccountTheorems]; [TenantDemo] and [TenantWitness] are a
    concrete run and the defects the model shows.

    Mailing: [MailToken] (token/codec.go), [MailProvider] (provider/deliverer.go,
    cache.go), [MailCache] (the cache of compiled content of sendworker.go),
    [MailStore] (the tables and the SQL functions of the delivery queue,
    migrations 0126, 0132 and 0136), [MailFeedback] (consent, tracking, webhooks:
    0125, 0133, 0134), [MailService] (campaigns.go, suppressions.go, track.go,
    lists.go, types.go), [MailWorker] (sendworker.go).  Properties: [MailFacts] (the
    invariant [mail_ok] and the lawful changes of deliveries and campaigns),
    [MailOps], [MailFanout] and [MailRequests] (every operation makes lawful
    changes), [MailSafety] (the transition system of requests, workers, links,
    webhooks and the outside), [MailRollup], [MailSend], [MailWebhook],
    [MailJoint] (automations and mailing on one database), [MailTheorems];
    [MailWitness] is a concrete run with the defects the model shows.

    Consent: [MailConsent] (public.go, the links of track.go, the functions of
    migrations 0125 and 0133 that sign up, confirm and unsubscribe, with the columns
    of consent beside the tables of [MailStore]), [MailLists] (lists.go,
    subscribers.go, keys.go).  Properties: [MailConsentFacts] (which rows each
    function writes; the invariant [consent_ok] and the lawful changes [fine]),
    [MailConsentOps] (managers and the other operations of mailing respect them),
    [MailConsentSafety] (the transition system, its theorems, a run).

    ** How the code is represented

    A Go function that can fail returns [result E A]; a function that changes state
    takes and returns it.  An automation transaction is a state [tx] with an
    aborted flag, as in PostgreSQL, and [WithTx] commits or rolls back.  A work
    board statement returns the tables also when it fails, because a sequence
    keeps the values it drew.  A tenancy transaction is a monad [txm]; constraint
    triggers run at commit and see what the session's policies show.  Rows that
    the code locks before it writes make
    transactions on them serial, so a transaction is one step; which rows other
    transactions hold locked at a claim is an argument, and so is the older
    database in which a tenancy operation read what it reads before it takes the
    tenant lock.  The transactions on refresh tokens lock the token presented and
    nothing else: a statement that revokes a family, or the tokens of a principal,
    has a snapshot of its own, an older database again, and passes by the tokens
    inserted since ([missed]).  A statement that sees two sets of rows before it writes either
    (the cancelled and the suppressed deliveries of a claim) takes which of the two
    writes a shared row as an argument.  Between the transactions of a stepper's
    tick, of the send worker and of its rollup pass come arbitrary changes by
    others that the respective system allows.  Times are nanoseconds
    since the epoch as integers; 64-bit ranges are checked where Go decodes into
    them; generations and attempt counters, which are SQL integers, are unbounded;
    SQL timestamps are truncated to microseconds.  JSON is a tree of values,
    with Go's field matching.

    Code outside the repository is a class parameter with the laws that are used:
    the Unicode tables, the UUID library, the time zone database, URL parsing,
    name-based UUIDs, SHA-256, HMAC and HKDF, argon2, token signatures, address parsing, the
    textual form of JSON and of timestamps, PostgreSQL's text comparison.  For
    automations and the work board so is authorization ([Authz]); [TenantAccess]
    gives the instance the tenancy tables decide.  Random values, clocks and the
    server a client talks to are arguments.

    ** What the theorems show

    C1 and C2: validation of graphs accepts exactly the well-formed ones, and its
    cycle check is right.  C3: the engine on validated graphs never fails for a
    reason validation excludes.  C4 and C5: whatever replicas, API calls, outbox
    workers and other subsystems do in any order, the tables keep their invariant and
    at most one claim on an enrollment is alive.  C6: what a tick does while others
    interfere: it advances all it claims, in order, ends at the first batch that is
    not full, and answers the first error that is no lost fence.  C7: a drain of the
    outbox settles each event it claimed by what its handlers say: processed,
    retried later, or dropped as one that can never succeed.  C8: following the cursors of a listing reads
    every row once and ends.  C9 to C15: the mailing tables keep their invariant,
    every mail was authorized when it was sent, the life of a delivery,
    unsubscribing stops mail, the fan-out reaches exactly the addressable
    subscribers, no change of a delivery counter is lost between the rollup passes of any
    number of workers (the count of unsubscribes, which no rollup follows, is not
    among them) and webhooks count once.  C16: automations
    and mailing together keep both invariants.  C17 to C23: consent is recorded and
    addresses stay unique under every interleaving, strangers make nobody a
    subscriber without the link of that person, signing up, the mail and confirming work
    together, a link works once, signed requests are authentic and mean what their
    body says, a revoked key is
    dead, and nobody is mailed who did not confirm, sign up where no confirmation is
    asked, or was attested by a key or a manager.  C24 to C26: signed links and the retry
    schedule.  C27 to C30: the board's invariant and history, completeness of a pull,
    isolation of a sync, and validation that leaves no work for the constraints of
    the database.  C31 to C33: termination and no loss of
    operations, and convergence of the client with the server.  C34 to C39: tenancy
    under every interleaving, agents and fences included, the Owners of a tenant, the
    meaning of resolved permissions, no escalation by membership changes, refusals
    that do not tell whether a business exists, and the move of a subtree.  C40:
    rotation of refresh tokens with detection of reuse.
    Further theorems (reachability, walks of the engine, immutable steps, inert and
    stopped claims, triggers delivered twice, ended campaigns, the cache of compiled
    content, the wire format, one-time tokens, batches, revoked tokens and members, the access list, ended sessions,
    invitations, password hashes, the cache of provider clients, waits, retries,
    activation, idempotency keys, fields, notes, keys and client views) are stated
    in the files of their components.

    ** Fuel

    Loops that are not structural take fuel and return [None] (or are shown never
    to run out): the searches of [AutoGraph] take as much as there are nodes or
    edges, which the proofs of C2 and of [reachableFrom_correct] show to be enough; the engine's loop is
    bounded by the node limit as in the code; [syncRounds] is shown to end within
    the length of the outbox plus twenty requests (C31); reading a listing ends
    within one page more than it has rows (C8); the fan-out ends once its
    batches add up to the number of addressable subscribers (C13); [Tick] may claim for ever
    when work keeps falling due: C6 says what it has done when it ends, and that each
    round of one that has not ended claimed a full batch.

    ** Not modelled

    HTTP handlers, request decoding and rate limits; statistics of automations and
    campaigns; polling loops and logging; the client's files, locks, flags,
    credentials and printing, and its import of other trackers; tenant merges,
    beyond the fences they put up and take down; agents, beyond their creation as
    principals and members; of mailing templates, brands and profiles,
    import, rendering and the signature checks of webhooks; the rest of the platform (connectors,
    inbox, ticketing, CRM, feedback).

    ** Plan

    Next: templates and sending profiles, the listings and state
    machines of ticketing and feedback, request decoding in the handlers, the
    client's import. *)

From stdpp Require Export base tactics list strings gmap sets fin_maps relations.
From Stdlib Require Export ZArith Lia.

(** ** Results of fallible Go functions

    A Go function returning [(T, error)] is modelled by [result E T]; the
    sequencing notation below is the [if err != nil { return ..., err }] idiom. *)

Inductive result (E A : Type) : Type :=
| Ok (a : A)
| Err (e : E).
Arguments Ok {E A} a.
Arguments Err {E A} e.

Definition result_bind {E A B : Type} (m : result E A) (k : A -> result E B) : result E B :=
  match m with
  | Ok a => k a
  | Err e => Err e
  end.

Declare Scope go_scope.
Delimit Scope go_scope with go.

Notation "'let?' x ':=' m 'in' k" := (result_bind m (fun x => k))
  (at level 10, x pattern, m at level 100, k at level 200) : go_scope.

Definition is_ok {E A : Type} (m : result E A) : bool :=
  match m with Ok _ => true | Err _ => false end.

(** ** Machine integers

    Go's [int] and [int64] are 64 bits wide on every platform the project
    builds for; [wrap64] is the value a 64-bit two's complement register keeps. *)

Definition wrap64 (z : Z) : Z := ((z + 2 ^ 63) mod 2 ^ 64 - 2 ^ 63)%Z.

Definition in_int64 (z : Z) : bool := ((- 2 ^ 63 <=? z) && (z <=? 2 ^ 63 - 1))%Z.

Lemma wrap64_id (z : Z) : (- 2 ^ 63 <= z < 2 ^ 63)%Z -> wrap64 z = z.
Proof. intros Hz. unfold wrap64. rewrite Z.mod_small; lia. Qed.

(** ** Tactics and hint databases *)

Create HintDb manyforge.
Create Rewrite HintDb manyforge.

(** Case analysis on every boolean test and option scrutinised in the goal. *)
Ltac case_tests :=
  repeat match goal with
  | |- context [if ?b then _ else _] => destruct b eqn:?
  | |- context [match ?o with Some _ => _ | None => _ end] => destruct o eqn:?
  end.

(** The same for a hypothesis. *)
Ltac case_tests_in H :=
  repeat match type of H with
  | context [if ?b then _ else _] => destruct b eqn:?
  | context [match ?o with Some _ => _ | None => _ end] => destruct o eqn:?
  end.

(** Proves a decidable closed proposition by evaluating its decision. *)
Ltac vm_decide := refine (bool_decide_unpack _ _); vm_compute; exact I.

(** Turns boolean hypotheses into propositions. *)
Ltac to_prop :=
  repeat match goal with
  | H : (_ && _) = true |- _ => apply andb_true_iff in H; destruct H
  | H : (_ || _) = false |- _ => apply orb_false_iff in H; destruct H
  | H : negb _ = true |- _ => apply negb_true_iff in H
  | H : negb _ = false |- _ => apply negb_false_iff in H
  | H : (_ =? _)%Z = true |- _ => apply Z.eqb_eq in H
  | H : (_ =? _)%Z = false |- _ => apply Z.eqb_neq in H
  | H : (_ <=? _)%Z = true |- _ => apply Z.leb_le in H
  | H : (_ <=? _)%Z = false |- _ => apply Z.leb_gt in H
  | H : (_ <? _)%Z = true |- _ => apply Z.ltb_lt in H
  | H : (_ <? _)%Z = false |- _ => apply Z.ltb_ge in H
  | H : bool_decide _ = true |- _ => apply bool_decide_eq_true in H
  | H : bool_decide _ = false |- _ => apply bool_decide_eq_false in H
  end.

(** The same for tests on identifiers and texts. *)
Ltac to_ids :=
  to_prop;
  repeat match goal with
  | H : (_ =? _)%N = true |- _ => apply N.eqb_eq in H
  | H : (_ =? _)%N = false |- _ => apply N.eqb_neq in H
  | H : String.eqb _ _ = true |- _ => apply String.eqb_eq in H
  | H : String.eqb _ _ = false |- _ => apply String.eqb_neq in H
  end.

(** ** Lists *)

Section ListFacts.
Context {A : Type}.
Implicit Types (l : list A) (P : A -> Prop).

Lemma filter_none l P `{!forall x, Decision (P x)} :
  (forall x, x ∈ l -> ~ P x) -> filter P l = [].
Proof.
  induction l as [|a l IH]; intros Hl; [done|].
  rewrite filter_cons_False by (apply Hl; left). apply IH. intros x Hx. apply Hl. by right.
Qed.

Lemma filter_nil_iff l P `{!forall x, Decision (P x)} :
  filter P l = [] <-> (forall x, x ∈ l -> ~ P x).
Proof.
  split; [|apply filter_none]. intros Hf x Hx HP.
  by apply (filter_nil_not_elem_of P l x Hf HP).
Qed.

Lemma filter_all l P `{!forall x, Decision (P x)} :
  (forall x, x ∈ l -> P x) -> filter P l = l.
Proof.
  induction l as [|a l IH]; intros Hl; [done|].
  rewrite filter_cons_True by (apply Hl; left). f_equal. apply IH. intros x Hx. apply Hl. by right.
Qed.

Lemma length_filter_split l P `{!forall x, Decision (P x)} :
  length l = length (filter P l) + length (filter (fun x => ~ P x) l).
Proof.
  induction l as [|a l IH]; [done|]. destruct (decide (P a)).
  - rewrite filter_cons_True by done. rewrite (filter_cons_False (fun x => ~ P x)) by naive_solver.
    simpl. lia.
  - rewrite filter_cons_False by done. rewrite (filter_cons_True (fun x => ~ P x)) by done.
    simpl. lia.
Qed.

Lemma flat_map_nil {B : Type} (f : A -> list B) l :
  flat_map f l = [] <-> (forall x, x ∈ l -> f x = []).
Proof.
  induction l as [|a l IH]; simpl.
  - split; [|done]. intros _ x Hx. by apply not_elem_of_nil in Hx.
  - rewrite app_nil, IH. setoid_rewrite elem_of_cons. naive_solver.
Qed.

Lemma nodup_length_le l (k : list A) : NoDup l -> (forall x, x ∈ l -> x ∈ k) -> length l <= length k.
Proof. intros Hnd Hsub. by apply submseteq_length, NoDup_submseteq. Qed.

Lemma NoDup_map_inj {B : Type} (f : A -> B) l (x y : A) :
  NoDup (map f l) -> x ∈ l -> y ∈ l -> f x = f y -> x = y.
Proof.
  induction l as [|a l IH]; simpl; intros Hnd Hx Hy Hf; [by apply not_elem_of_nil in Hx|].
  apply NoDup_cons in Hnd as [Hn Hnd]. apply elem_of_cons in Hx as [->|Hx], Hy as [->|Hy];
    [done| | |by apply IH]; exfalso; apply Hn.
  - rewrite Hf. by apply list_elem_of_fmap_2.
  - rewrite <- Hf. by apply list_elem_of_fmap_2.
Qed.

Lemma not_elem_of_dec `{!EqDecision A} l (x : A) : ~ (x ∉ l) <-> x ∈ l.
Proof. split; [apply dec_stable|naive_solver]. Qed.
End ListFacts.

(** ** Relations *)

Lemma tc_first_step {A : Type} (R : relation A) (x y : A) :
  tc R x y -> exists z, R x z /\ rtc R z y.
Proof.
  intros H. induction H as [x y H|x y z H H' IH]; [by exists y; split; [|apply rtc_refl]|].
  exists y. split; [done|]. by apply tc_rtc.
Qed.

(** ** Tables

    A table is a finite map from its key to its row.  These are the shapes of
    SQL statements on one: a test for a row, a count, a row found by a column
    that is not the key, and an update of every row a condition selects. *)

Section Tables.
Context {K : Type} `{Countable K} {A : Type}.
Implicit Types (m : gmap K A) (f : K -> A -> bool) (g : A -> A).

Definition mexists f m : bool := existsb (fun x => f (fst x) (snd x)) (map_to_list m).
Definition mselect f m : list (K * A) := List.filter (fun x => f (fst x) (snd x)) (map_to_list m).
Definition mcount f m : nat := length (mselect f m).
Definition mfind f m : option (K * A) := List.find (fun x => f (fst x) (snd x)) (map_to_list m).
Definition mupdate f g m : gmap K A := map_imap (fun k a => Some (if f k a then g a else a)) m.
Definition mdelete f m : gmap K A := filter (fun x => f (fst x) (snd x) = false) m.

Lemma mexists_true f m : mexists f m = true <-> exists k a, m !! k = Some a /\ f k a = true.
Proof.
  unfold mexists. rewrite existsb_exists. split.
  - intros ([k a] & Hin & Hf). exists k, a. split; [|done].
    by apply elem_of_map_to_list, list_elem_of_In.
  - intros (k & a & Hk & Hf). exists (k, a). split; [|done].
    by apply list_elem_of_In, elem_of_map_to_list.
Qed.

Lemma mexists_false f m : mexists f m = false <-> (forall k a, m !! k = Some a -> f k a = false).
Proof.
  split.
  - intros Hf k a Hk. destruct (f k a) eqn:Hfk; [|done]. exfalso.
    assert (mexists f m = true) by (apply mexists_true; eauto). congruence.
  - intros Hall. destruct (mexists f m) eqn:Hm; [|done]. exfalso.
    apply mexists_true in Hm as (k & a & Hk & Hf). rewrite (Hall _ _ Hk) in Hf. done.
Qed.

Lemma elem_of_mselect f m k a : (k, a) ∈ mselect f m <-> m !! k = Some a /\ f k a = true.
Proof.
  unfold mselect. rewrite list_elem_of_In, List.filter_In, <- list_elem_of_In, elem_of_map_to_list. done.
Qed.

Lemma mcount_zero f m : mcount f m = 0 <-> mexists f m = false.
Proof.
  unfold mcount. rewrite length_zero_iff_nil, mexists_false. split.
  - intros Hn k a Hk. destruct (f k a) eqn:Hf; [|done]. exfalso.
    assert ((k, a) ∈ mselect f m) as Hin by by apply elem_of_mselect.
    rewrite Hn in Hin. by apply not_elem_of_nil in Hin.
  - intros Hall. destruct (mselect f m) as [|[k a] l] eqn:Hm; [done|]. exfalso.
    assert ((k, a) ∈ mselect f m) as [Hk Hf]%elem_of_mselect by (rewrite Hm; left).
    rewrite (Hall _ _ Hk) in Hf. done.
Qed.

Lemma mcount_pos f m k a : m !! k = Some a -> f k a = true -> 1 <= mcount f m.
Proof.
  intros Hk Hf. destruct (mcount f m) eqn:Hc; [|lia]. apply mcount_zero in Hc.
  rewrite mexists_false in Hc. rewrite (Hc _ _ Hk) in Hf. done.
Qed.

(** Two rows counted leave another one when one of them is taken out. *)
Lemma mcount_other f m k : 2 <= mcount f m -> exists k' a, k' <> k /\ m !! k' = Some a /\ f k' a = true.
Proof.
  intros Hc. unfold mcount in Hc.
  assert (NoDup (mselect f m)) as Hnd.
  { apply NoDup_ListNoDup, List.NoDup_filter, NoDup_ListNoDup, NoDup_map_to_list. }
  destruct (mselect f m) as [|[k1 a1] [|[k2 a2] l]] eqn:Hm; simpl in Hc; [lia|lia|].
  assert ((k1, a1) ∈ mselect f m) as [Hk1 Hf1]%elem_of_mselect by (rewrite Hm; left).
  assert ((k2, a2) ∈ mselect f m) as [Hk2 Hf2]%elem_of_mselect by (rewrite Hm; right; left).
  destruct (decide (k1 = k)) as [->|]; [|by eauto 10].
  destruct (decide (k2 = k)) as [->|]; [|by eauto 10].
  exfalso. apply NoDup_cons in Hnd as [Hn _]. apply Hn. rewrite Hk1 in Hk2. simplify_eq. left.
Qed.

Lemma mfind_some f m k a : mfind f m = Some (k, a) -> m !! k = Some a /\ f k a = true.
Proof.
  intros Hf. apply List.find_some in Hf as [Hin Hf]. split; [|done].
  by apply elem_of_map_to_list, list_elem_of_In.
Qed.

Lemma mfind_none f m : mfind f m = None <-> mexists f m = false.
Proof.
  rewrite mexists_false. split.
  - intros Hf k a Hk. apply (List.find_none _ _ Hf (k, a)). by apply list_elem_of_In, elem_of_map_to_list.
  - intros Hall. unfold mfind. destruct (List.find _ _) as [[k a]|] eqn:He; [|done]. exfalso.
    apply List.find_some in He as [Hin Hf]. simpl in Hf.
    apply list_elem_of_In, elem_of_map_to_list in Hin. rewrite (Hall _ _ Hin) in Hf. done.
Qed.

(** A row that is the only one with its property is the one found. *)
Lemma mfind_unique f m k a :
  m !! k = Some a -> f k a = true ->
  (forall k' a', m !! k' = Some a' -> f k' a' = true -> k' = k) -> mfind f m = Some (k, a).
Proof.
  intros Hk Hf Hu. destruct (mfind f m) as [[k' a']|] eqn:He.
  - apply mfind_some in He as [Hk' Hf']. pose proof (Hu _ _ Hk' Hf') as ->. by rewrite Hk in Hk'; simplify_eq.
  - apply mfind_none in He. rewrite mexists_false in He. rewrite (He _ _ Hk) in Hf. done.
Qed.

Lemma lookup_mupdate f g m k : mupdate f g m !! k = (fun a => if f k a then g a else a) <$> m !! k.
Proof. unfold mupdate. rewrite map_lookup_imap. by destruct (m !! k). Qed.

Lemma lookup_mdelete f m k : mdelete f m !! k = m !! k ≫= (fun a => if f k a then None else Some a).
Proof.
  unfold mdelete. rewrite map_lookup_filter. destruct (m !! k) as [a|]; [|done]. simpl.
  destruct (f k a); by case_guard.
Qed.

Lemma lookup_mdelete_Some f m k a : mdelete f m !! k = Some a <-> m !! k = Some a /\ f k a = false.
Proof.
  rewrite lookup_mdelete. destruct (m !! k) as [b|]; simpl; [|naive_solver].
  destruct (f k b) eqn:Hf; naive_solver congruence.
Qed.
End Tables.
