(* ===== verification/GoStrings.v ===== *)
(** * Go strings

    What the modelled packages use of Go's [strings], [strconv], [regexp] and
    [unicode/utf8].  A Go string is a sequence of bytes, here Rocq's [string];
    the functions below work on its list of bytes and follow Go on non-ASCII
    input: [strings.TrimSpace] removes the UTF-8 encodings of the Unicode white
    space runes and [utf8.RuneCountInString] counts ill-formed bytes as one
    rune each.  The Unicode case tables are the one thing not written out: the
    ASCII fast path of [strings.ToLower] and [strings.EqualFold] is, and the
    tables that decide the rest are the class [UnicodeTables]. *)

From S2P Require Import Prelude.
From Stdlib Require Export Ascii.
From Stdlib Require String.
Export String.StringSyntax.
#[global] Open Scope string_scope.
#[global] Open Scope list_scope.

Abbreviation bytes := String.list_ascii_of_string.
Abbreviation of_bytes := String.string_of_list_ascii.

Definition byte_of (n : N) : ascii := ascii_of_N n.

Lemma bytes_of_bytes (l : list ascii) : bytes (of_bytes l) = l.
Proof. apply String.list_ascii_of_string_of_list_ascii. Qed.

Lemma of_bytes_bytes (s : string) : of_bytes (bytes s) = s.
Proof. apply String.string_of_list_ascii_of_string. Qed.

#[export] Hint Rewrite bytes_of_bytes of_bytes_bytes : manyforge.

(** [len(s)]: the number of bytes. *)
Definition len (s : string) : Z := Z.of_nat (String.length s).

Lemma length_bytes (s : string) : length (bytes s) = String.length s.
Proof. induction s; simpl; congruence. Qed.

(** Byte classes. *)
Definition in_range (lo hi : N) (c : ascii) : bool :=
  (N.leb lo (N_of_ascii c) && N.leb (N_of_ascii c) hi)%bool.
Definition is_lower (c : ascii) : bool := in_range 97 122 c.
Definition is_upper (c : ascii) : bool := in_range 65 90 c.
Definition is_digit (c : ascii) : bool := in_range 48 57 c.
Definition is_ascii (c : ascii) : bool := in_range 0 127 c.

(** ** strings.TrimSpace *)

(** The UTF-8 encodings of the runes [unicode.IsSpace] accepts. *)
Definition space_runes : list (list ascii) :=
  map (map byte_of)
    ([[9]; [10]; [11]; [12]; [13]; [32]; [194; 133]; [194; 160]; [225; 154; 128];
      [226; 128; 128]; [226; 128; 129]; [226; 128; 130]; [226; 128; 131];
      [226; 128; 132]; [226; 128; 133]; [226; 128; 134]; [226; 128; 135];
      [226; 128; 136]; [226; 128; 137]; [226; 128; 138]; [226; 128; 168];
      [226; 128; 169]; [226; 128; 175]; [226; 129; 159]; [227; 128; 128]])%N.

(** Is [p] a prefix of [l]? *)
Fixpoint prefixb (p l : list ascii) : bool :=
  match p, l with
  | [], _ => true
  | _, [] => false
  | a :: p', b :: l' => Ascii.eqb a b && prefixb p' l'
  end.

(** Removes leading occurrences of the patterns; [fuel] bounds the number of
    removals and the length of the list is always enough. *)
Fixpoint strip (pats : list (list ascii)) (fuel : nat) (l : list ascii) : list ascii :=
  match fuel with
  | O => l
  | S fuel' =>
      match List.find (fun p => prefixb p l) pats with
      | Some p => strip pats fuel' (drop (length p) l)
      | None => l
      end
  end.

Definition trim_left (l : list ascii) : list ascii := strip space_runes (length l) l.
Definition trim_right (l : list ascii) : list ascii :=
  rev (strip (map (@rev ascii) space_runes) (length l) (rev l)).

Definition TrimSpace (s : string) : string := of_bytes (trim_right (trim_left (bytes s))).

(** ** strings.ToLower and strings.EqualFold *)

Class UnicodeTables := {
  (** [strings.Map(unicode.ToLower, s)] for a string that is not all ASCII *)
  unicode_lower : string -> string;
  (** the [unicode.SimpleFold] comparison for strings not both ASCII *)
  unicode_fold_eq : string -> string -> bool;
  (** [strconv.Quote] of a string that is not all ASCII *)
  unicode_quote : string -> string
}.

Definition lower_byte (c : ascii) : ascii :=
  if is_upper c then ascii_of_N (N_of_ascii c + 32) else c.

Definition all_ascii (s : string) : bool := forallb is_ascii (bytes s).

(** A NUL byte, which PostgreSQL rejects in text (SQLSTATE 22021). *)
Definition has_nul (s : string) : bool := existsb (fun c => Ascii.eqb c (byte_of 0)) (bytes s).

Definition ToLower `{UnicodeTables} (s : string) : string :=
  if all_ascii s then of_bytes (map lower_byte (bytes s)) else unicode_lower s.

Definition EqualFold `{UnicodeTables} (s t : string) : bool :=
  if all_ascii s && all_ascii t
  then String.eqb (of_bytes (map lower_byte (bytes s))) (of_bytes (map lower_byte (bytes t)))
  else unicode_fold_eq s t.

(** ** strconv.Quote (the [%q] verb)

    A double quote and a backslash are escaped, the control characters take
    their letter or hexadecimal escapes, other ASCII bytes stand for themselves. *)
Definition quote_mark : ascii := byte_of 34.
Definition hex_digit (n : N) : ascii := byte_of (if (n <? 10)%N then n + 48 else n + 87)%N.
Definition quote_byte (c : ascii) : list ascii :=
  let n := N_of_ascii c in
  if (N.eqb n 34 || N.eqb n 92)%bool then [byte_of 92; c]
  else match List.find (fun p => N.eqb (fst p) n)
               [(7, 97); (8, 98); (12, 102); (10, 110); (13, 114); (9, 116); (11, 118)]%N with
       | Some (_, letter) => [byte_of 92; byte_of letter]
       | None => if (N.ltb n 32 || N.eqb n 127)%bool
                 then [byte_of 92; byte_of 120; hex_digit (n / 16); hex_digit (n mod 16)]
                 else [c]
       end.
Definition Quote `{UnicodeTables} (s : string) : string :=
  if all_ascii s
  then of_bytes (quote_mark :: flat_map quote_byte (bytes s) ++ [quote_mark])
  else unicode_quote s.

(** ** Prefix, suffix, split *)

Definition HasPrefix (s p : string) : bool := prefixb (bytes p) (bytes s).
Definition HasSuffix (s p : string) : bool := prefixb (rev (bytes p)) (rev (bytes s)).

(** [strings.Split(s, sep)] for a one-byte separator. *)
Fixpoint split_bytes (sep : ascii) (l : list ascii) : list (list ascii) :=
  match l with
  | [] => [[]]
  | c :: l' =>
      if Ascii.eqb c sep then [] :: split_bytes sep l'
      else match split_bytes sep l' with
           | [] => [[c]]
           | w :: ws => (c :: w) :: ws
           end
  end.
Definition Split (s : string) (sep : ascii) : list string :=
  map of_bytes (split_bytes sep (bytes s)).

(** ** strconv.Atoi: an optional sign, at least one decimal digit, 64-bit range. *)
Definition digit_val (c : ascii) : Z := (Z.of_N (N_of_ascii c) - 48)%Z.
Definition digits_val (l : list ascii) : Z :=
  fold_left (fun acc c => (acc * 10 + digit_val c)%Z) l 0%Z.

Definition Atoi (s : string) : option Z :=
  let '(neg, ds) :=
    match bytes s with
    | c :: r => if Ascii.eqb c "-" then (true, r)
                else if Ascii.eqb c "+" then (false, r) else (false, c :: r)
    | [] => (false, [])
    end in
  if (bool_decide (ds <> []) && forallb is_digit ds)%bool
  then let v := digits_val ds in
       let z := if neg then Z.opp v else v in
       if in_int64 z then Some z else None
  else None.

(** The text of the [*NumError] of [Atoi]: a literal of the right form is out of
    range, any other is a syntax error. *)
Definition Atoi_error `{UnicodeTables} (s : string) : string :=
  let ds := match bytes s with
            | c :: r => if Ascii.eqb c "-" || Ascii.eqb c "+" then r else c :: r
            | [] => []
            end in
  "strconv.Atoi: parsing " +:+ Quote s +:+
  (if bool_decide (ds <> []) && forallb is_digit ds
   then ": value out of range" else ": invalid syntax").

(** Decimal rendering of a non-negative integer ([%d]). *)
Fixpoint itoa_aux (fuel : nat) (z : Z) : list ascii :=
  match fuel with
  | O => []
  | S f => let d := byte_of (Z.to_N (z mod 10) + 48) in
           if (z <? 10)%Z then [d] else itoa_aux f (z / 10)%Z ++ [d]
  end.
Definition itoa (z : Z) : string := of_bytes (itoa_aux 20 z).

(** ** utf8.RuneCountInString

    [rune_len] is the width [utf8.DecodeRune] reports at the front of a
    non-empty byte list: the length of a well-formed encoding, else 1. *)
Definition cont (lo hi : N) (c : ascii) : bool := in_range lo hi c.

Definition rune_len (l : list ascii) : nat :=
  match l with
  | [] => 0
  | c0 :: r =>
      if is_ascii c0 then 1 else
      match r with
      | c1 :: r1 =>
          if in_range 194 223 c0 && cont 128 191 c1 then 2 else
          match r1 with
          | c2 :: r2 =>
              if cont 128 191 c2 &&
                 ((in_range 224 224 c0 && cont 160 191 c1) ||
                  (in_range 225 236 c0 && cont 128 191 c1) ||
                  (in_range 237 237 c0 && cont 128 159 c1) ||
                  (in_range 238 239 c0 && cont 128 191 c1)) then 3 else
              match r2 with
              | c3 :: _ =>
                  if cont 128 191 c2 && cont 128 191 c3 &&
                     ((in_range 240 240 c0 && cont 144 191 c1) ||
                      (in_range 241 243 c0 && cont 128 191 c1) ||
                      (in_range 244 244 c0 && cont 128 143 c1)) then 4 else 1
              | [] => 1
              end
          | [] => 1
          end
      | [] => 1
      end
  end.

Fixpoint rune_count_aux (fuel : nat) (l : list ascii) : nat :=
  match fuel, l with
  | O, _ | _, [] => 0
  | S f, _ => S (rune_count_aux f (drop (rune_len l) l))
  end.
Definition RuneCountInString (s : string) : Z :=
  Z.of_nat (rune_count_aux (String.length s) (bytes s)).

(** The first [n] runes, as PostgreSQL's [left(text, n)]. *)
Fixpoint take_runes (n : nat) (l : list ascii) : list ascii :=
  match n, l with
  | S n', _ :: _ => take (rune_len l) l ++ take_runes n' (drop (rune_len l) l)
  | _, _ => []
  end.
Definition left_runes (n : Z) (s : string) : string := of_bytes (take_runes (Z.to_nat n) (bytes s)).

(** PostgreSQL's [btrim(text)]: removes blanks only. *)
Definition btrim (s : string) : string :=
  let blank := [[" "%char]] in
  let l := strip blank (String.length s) (bytes s) in
  of_bytes (rev (strip blank (length l) (rev l))).

(** ** Lemmas *)

Lemma prefixb_prefix (p l : list ascii) : prefixb p l = true <-> p `prefix_of` l.
Proof.
  revert l. induction p as [|a p IH]; intros [|b l]; simpl.
  - split; [intros _; apply prefix_nil|done].
  - split; [intros _; apply prefix_nil|done].
  - split; [done|]. intros Hp. by apply prefix_nil_not in Hp.
  - rewrite andb_true_iff, Ascii.eqb_eq, IH. split.
    + intros [-> H]. by apply prefix_cons.
    + intros H. split; [by apply prefix_cons_inv_1 in H|by apply prefix_cons_inv_2 in H].
Qed.

Lemma bytes_app (s t : string) : bytes (s +:+ t) = bytes s ++ bytes t.
Proof. induction s as [|a s IH]; [done|]. change (a :: bytes (s +:+ t) = a :: (bytes s ++ bytes t)). by rewrite IH. Qed.

Lemma of_bytes_app (l k : list ascii) : of_bytes (l ++ k) = of_bytes l +:+ of_bytes k.
Proof. induction l as [|a l IH]; [done|]. simpl. by rewrite IH. Qed.

#[export] Hint Rewrite bytes_app of_bytes_app : manyforge.

Lemma HasPrefix_spec (s p : string) : HasPrefix s p = true <-> exists r, s = p +:+ r.
Proof.
  unfold HasPrefix. rewrite prefixb_prefix. split.
  - intros [k Hk]. exists (of_bytes k).
    by rewrite <- (of_bytes_bytes s), Hk, of_bytes_app, of_bytes_bytes.
  - intros [r ->]. rewrite bytes_app. by apply prefix_app_r.
Qed.

(** *** Trimming *)

Section Strip.
Context (pats : list (list ascii)).
Hypothesis pats_nonempty : Forall (fun p => p <> []) pats.

Definition stripped (l : list ascii) : Prop := Forall (fun p => prefixb p l = false) pats.

Lemma strip_suffix (fuel : nat) (l : list ascii) : strip pats fuel l `suffix_of` l.
Proof.
  revert l. induction fuel as [|f IH]; intros l; simpl; [done|].
  destruct (List.find _ _) as [p|]; [|done].
  etrans; [apply IH|]. apply suffix_drop.
Qed.

Lemma find_stripped (l : list ascii) :
  List.find (fun p => prefixb p l) pats = None <-> stripped l.
Proof.
  unfold stripped. rewrite List.Forall_forall. split.
  - intros Hn p Hp. by apply (List.find_none _ _ Hn).
  - intros Hs. destruct (List.find _ _) as [p|] eqn:Hf; [|done].
    apply List.find_some in Hf as [Hin Hp]. by rewrite (Hs p Hin) in Hp.
Qed.

Lemma strip_stripped (fuel : nat) (l : list ascii) :
  length l <= fuel -> stripped (strip pats fuel l).
Proof.
  revert l. induction fuel as [|f IH]; intros l Hl; simpl.
  - destruct l; [|simpl in Hl; lia].
    apply find_stripped. destruct (List.find _ _) as [p|] eqn:Hf; [|done].
    apply List.find_some in Hf as [Hin Hp].
    eapply List.Forall_forall in pats_nonempty; [|done]. by destruct p.
  - destruct (List.find _ _) as [p|] eqn:Hf; [|by apply find_stripped].
    apply IH. apply List.find_some in Hf as [Hin Hp].
    eapply List.Forall_forall in pats_nonempty; [|done].
    apply prefixb_prefix in Hp as [k ->]. rewrite drop_app_length, length_app in *.
    destruct p; [done|]. simpl in Hl. lia.
Qed.

Lemma strip_id (fuel : nat) (l : list ascii) : stripped l -> strip pats fuel l = l.
Proof. intros Hs. destruct fuel; simpl; [done|]. by rewrite (proj2 (find_stripped l) Hs). Qed.

(** Cutting the end of a stripped list leaves it stripped. *)
Lemma stripped_prefix (k l : list ascii) : k `prefix_of` l -> stripped l -> stripped k.
Proof.
  unfold stripped. rewrite !List.Forall_forall. intros Hk Hs p Hp.
  destruct (prefixb p k) eqn:E; [|done].
  apply prefixb_prefix in E. specialize (Hs p Hp).
  rewrite <- Hs. symmetry. apply prefixb_prefix. by etrans.
Qed.
End Strip.

Lemma space_runes_nonempty : Forall (fun p => p <> []) space_runes.
Proof. by repeat constructor. Qed.

Lemma rev_space_runes_nonempty : Forall (fun p => p <> []) (map (@rev ascii) space_runes).
Proof. by repeat constructor. Qed.

(** A byte list with no white space at either end. *)
Definition trimmed (l : list ascii) : Prop :=
  stripped space_runes l /\ stripped (map (@rev ascii) space_runes) (rev l).

Lemma trim_right_prefix (l : list ascii) : trim_right l `prefix_of` l.
Proof.
  unfold trim_right. destruct (strip_suffix (map (@rev ascii) space_runes) (length l) (rev l)) as [k Hk].
  exists (rev k). rewrite <- rev_app_distr, <- Hk. by rewrite rev_involutive.
Qed.

Lemma trim_trimmed (l : list ascii) : trimmed (trim_right (trim_left l)).
Proof.
  split.
  - eapply stripped_prefix; [apply trim_right_prefix|].
    apply strip_stripped; [apply space_runes_nonempty|done].
  - unfold trim_right. rewrite rev_involutive.
    apply strip_stripped; [apply rev_space_runes_nonempty|]. by rewrite length_rev.
Qed.

Lemma trim_id (l : list ascii) : trimmed l -> trim_right (trim_left l) = l.
Proof.
  intros [Hl Hr]. unfold trim_left. rewrite (strip_id _ _ _ Hl).
  unfold trim_right. rewrite (strip_id _ _ _ Hr). apply rev_involutive.
Qed.

Lemma TrimSpace_trimmed (s : string) : trimmed (bytes (TrimSpace s)).
Proof. unfold TrimSpace. rewrite bytes_of_bytes. apply trim_trimmed. Qed.

(** [strings.TrimSpace] is idempotent. *)
Lemma TrimSpace_idem (s : string) : TrimSpace (TrimSpace s) = TrimSpace s.
Proof.
  unfold TrimSpace at 1. rewrite (trim_id _ (TrimSpace_trimmed s)). apply of_bytes_bytes.
Qed.

Lemma TrimSpace_len (s : string) : (len (TrimSpace s) <= len s)%Z.
Proof.
  unfold len, TrimSpace. rewrite <- !length_bytes, bytes_of_bytes.
  assert (length (trim_right (trim_left (bytes s))) <= length (trim_left (bytes s)))
    by apply prefix_length, trim_right_prefix.
  assert (length (trim_left (bytes s)) <= length (bytes s)) by apply suffix_length, strip_suffix.
  lia.
Qed.

#[export] Hint Rewrite TrimSpace_idem : manyforge.

(** ** Byte order of strings: [<] on Go strings, [sort.Strings] and the C collation *)

Fixpoint bytes_le (a b : list ascii) : bool :=
  match a, b with
  | [], _ => true
  | _ :: _, [] => false
  | x :: a', y :: b' => (N_of_ascii x <? N_of_ascii y)%N || (Ascii.eqb x y && bytes_le a' b')
  end.

Lemma bytes_le_refl (a : list ascii) : bytes_le a a = true.
Proof. induction a as [|x a IH]; simpl; [done|]. by rewrite Ascii.eqb_refl, IH, orb_true_r. Qed.

Lemma bytes_le_total (a b : list ascii) : bytes_le a b = true \/ bytes_le b a = true.
Proof.
  revert b. induction a as [|x a IH]; intros [|y b]; simpl; try (by left); try (by right).
  destruct (N.lt_trichotomy (N_of_ascii x) (N_of_ascii y)) as [Hl|[He|Hl]].
  - left. by rewrite (proj2 (N.ltb_lt _ _)).
  - assert (x = y) as ->. { rewrite <- (ascii_N_embedding x), He. apply ascii_N_embedding. }
    rewrite Ascii.eqb_refl. destruct (IH b) as [->| ->]; [left|right]; by rewrite orb_true_r.
  - right. by rewrite (proj2 (N.ltb_lt _ _)).
Qed.

Lemma bytes_le_trans (a b c : list ascii) : bytes_le a b = true -> bytes_le b c = true -> bytes_le a c = true.
Proof.
  revert b c. induction a as [|x a IH]; intros [|y b] [|z c]; simpl; try done.
  rewrite !orb_true_iff, !andb_true_iff, !N.ltb_lt, !Ascii.eqb_eq.
  intros [Hxy|[-> Hab]] [Hyz|[-> Hbc]].
  - left. lia.
  - by left.
  - by left.
  - right. split; [done|]. by eapply IH.
Qed.

Definition text_le (a b : string) : Prop := bytes_le (bytes a) (bytes b) = true.
#[export] Instance text_le_dec (a b : string) : Decision (text_le a b).
Proof. unfold text_le. apply _. Defined.

#[export] Instance text_le_total : Total text_le.
Proof. intros a b. apply bytes_le_total. Qed.
#[export] Instance text_le_trans : Transitive text_le.
Proof. intros a b c. apply bytes_le_trans. Qed.

(** ** Splitting at a separator *)

Lemma split_no_sep (sep : ascii) (a b : list ascii) :
  sep ∉ a -> split_bytes sep (a ++ b) = match split_bytes sep b with
                                        | w :: ws => (a ++ w) :: ws
                                        | [] => [a]
                                        end.
Proof.
  induction a as [|c a IH]; simpl.
  - intros _. by destruct b as [|d b]; simpl; repeat case_match.
  - rewrite not_elem_of_cons. intros [Hc Ha]. rewrite IH by done.
    destruct (Ascii.eqb_spec c sep) as [->|_]; [done|]. by destruct (split_bytes sep b).
Qed.

Lemma split_plain (sep : ascii) (l : list ascii) : sep ∉ l -> split_bytes sep l = [l].
Proof. intros Hs. rewrite <- (app_nil_r l) at 1. rewrite split_no_sep by done. simpl. by rewrite app_nil_r. Qed.

Lemma split_sep (sep : ascii) (a b : list ascii) : sep ∉ a -> split_bytes sep (a ++ sep :: b) = a :: split_bytes sep b.
Proof. intros Ha. rewrite split_no_sep by done. simpl. by rewrite Ascii.eqb_refl, app_nil_r. Qed.

(** ** Decimal numerals read back *)

Lemma itoa_digits (fuel : nat) (z : Z) : forallb is_digit (itoa_aux fuel z) = true.
Proof.
  revert z. induction fuel as [|f IH]; intros z; simpl; [done|].
  assert (Hd : is_digit (byte_of (Z.to_N (z mod 10) + 48)) = true).
  { assert (Hm : (0 <= z mod 10 < 10)%Z) by (apply Z.mod_pos_bound; lia). unfold is_digit, in_range, byte_of.
    rewrite N_ascii_embedding by lia. apply andb_true_iff. split; apply N.leb_le; lia. }
  destruct (z <? 10)%Z; simpl; [by rewrite Hd|]. rewrite forallb_app, IH. simpl. by rewrite Hd.
Qed.

Lemma digits_val_snoc (l : list ascii) (c : ascii) : digits_val (l ++ [c]) = (digits_val l * 10 + digit_val c)%Z.
Proof. unfold digits_val. by rewrite fold_left_app. Qed.

Lemma digit_val_of (z : Z) : (0 <= z < 10)%Z -> digit_val (byte_of (Z.to_N z + 48)) = z.
Proof. intros Hz. unfold digit_val, byte_of. rewrite N_ascii_embedding by lia. lia. Qed.

Lemma digits_val_itoa (fuel : nat) (z : Z) : (0 <= z < 10 ^ Z.of_nat fuel)%Z -> digits_val (itoa_aux fuel z) = z.
Proof.
  revert z. induction fuel as [|fuel IH]; intros z Hz; [change (10 ^ Z.of_nat 0)%Z with 1%Z in Hz; change (0 = z)%Z; lia|]. cbn [itoa_aux].
  assert (0 <= z mod 10 < 10)%Z as Hm by (apply Z.mod_pos_bound; lia).
  destruct (Z.ltb_spec z 10) as [Hlt|Hge].
  - rewrite <- (app_nil_l [_]), digits_val_snoc, digit_val_of by done. rewrite Z.mod_small by lia. done.
  - rewrite digits_val_snoc, digit_val_of by done. pose proof (Z.div_mod z 10 ltac:(lia)) as He. rewrite IH; [lia|].
    rewrite Nat2Z.inj_succ, Z.pow_succ_r in Hz by lia. split; [apply Z.div_pos; lia|apply Z.div_lt_upper_bound; lia].
Qed.

Lemma itoa_nonempty (fuel : nat) (z : Z) : itoa_aux (S fuel) z <> [].
Proof. cbn [itoa_aux]. destruct (_ <? _)%Z; [done|]. intros He. by apply app_nil in He as [_ ?]. Qed.

Lemma Atoi_itoa (z : Z) : (0 <= z < 2 ^ 63)%Z -> Atoi (itoa z) = Some z.
Proof.
  intros Hz. unfold Atoi, itoa. rewrite bytes_of_bytes. pose proof (itoa_digits 20 z) as Hd.
  pose proof (itoa_nonempty 19 z) as Hne. pose proof (digits_val_itoa 20 z ltac:(lia)) as Hv.
  destruct (itoa_aux 20 z) as [|c r]; [done|].
  assert (is_digit c = true) as Hc by (simpl in Hd; by apply andb_true_iff in Hd as [? _]).
  rewrite (proj2 (Ascii.eqb_neq c "-")) by (intros ->; done). rewrite (proj2 (Ascii.eqb_neq c "+")) by (intros ->; done).
  rewrite bool_decide_eq_true_2, Hd, Hv by done. simpl. unfold in_int64.
  rewrite (proj2 (andb_true_iff _ _)); [done|]. split; apply Z.leb_le; lia.
Qed.
