(* ===== verification/GoBase64.v ===== *)
(** * encoding/hex and encoding/base64 without padding

    An alphabet differs from another in its last two digits: [45] and [95] for
    [RawURLEncoding], [43] and [47] for [RawStdEncoding].  Decoding skips line
    breaks, ignores the unused bits of the last digit and rejects a digit left
    over, as the library does. *)

From S2P Require Import Prelude GoStrings.

Definition hex_text (l : list ascii) : string :=
  of_bytes (flat_map (fun c => [hex_digit (N_of_ascii c / 16); hex_digit (N_of_ascii c mod 16)]) l).

Section Alphabet.
Context (c62 c63 : N).

Definition b64_digit (n : N) : ascii :=
  byte_of (if n <? 26 then n + 65 else if n <? 52 then n + 71 else if n <? 62 then n - 4
           else if n =? 62 then c62 else c63)%N.
Definition b64_value (c : ascii) : option N :=
  let n := N_of_ascii c in
  (if (65 <=? n) && (n <=? 90) then Some (n - 65) else
   if (97 <=? n) && (n <=? 122) then Some (n - 71) else
   if (48 <=? n) && (n <=? 57) then Some (n + 4) else
   if n =? c62 then Some 62 else if n =? c63 then Some 63 else None)%N.

Fixpoint b64_encode (l : list ascii) : list ascii :=
  match l with
  | a :: b :: c :: r =>
      let '(x, y, z) := (N_of_ascii a, N_of_ascii b, N_of_ascii c) in
      b64_digit (x / 4) :: b64_digit (x mod 4 * 16 + y / 16) :: b64_digit (y mod 16 * 4 + z / 64) ::
      b64_digit (z mod 64) :: b64_encode r
  | [a; b] =>
      let '(x, y) := (N_of_ascii a, N_of_ascii b) in
      [b64_digit (x / 4); b64_digit (x mod 4 * 16 + y / 16); b64_digit (y mod 16 * 4)]
  | [a] => let x := N_of_ascii a in [b64_digit (x / 4); b64_digit (x mod 4 * 16)]
  | [] => []
  end.

Fixpoint b64_bytes (l : list N) : option (list ascii) :=
  match l with
  | p :: q :: s :: t :: r =>
      match b64_bytes r with
      | Some rest => Some (byte_of (p * 4 + q / 16) :: byte_of (q mod 16 * 16 + s / 4) :: byte_of (s mod 4 * 64 + t) :: rest)%N
      | None => None
      end
  | [p; q; s] => Some [byte_of (p * 4 + q / 16); byte_of (q mod 16 * 16 + s / 4)]%N
  | [p; q] => Some [byte_of (p * 4 + q / 16)]%N
  | [_] => None
  | [] => Some []
  end.

Definition line_break (c : ascii) : bool := Ascii.eqb c (byte_of 10) || Ascii.eqb c (byte_of 13).
Definition b64_decode (l : list ascii) : option (list ascii) :=
  match mapM b64_value (List.filter (fun c => negb (line_break c)) l) with
  | Some vs => b64_bytes vs
  | None => None
  end.

(** The digits are distinct from each other and from line breaks. *)
Definition alphabet_ok : bool :=
  forallb (fun k => bool_decide (b64_value (b64_digit (N.of_nat k)) = Some (N.of_nat k)) &&
                    negb (line_break (b64_digit (N.of_nat k)))) (seq 0 64).

Context (Halpha : alphabet_ok = true).

Lemma b64_digit_ok (n : N) : (n < 64)%N -> b64_value (b64_digit n) = Some n /\ line_break (b64_digit n) = false.
Proof.
  intros Hn. pose proof (proj1 (forallb_forall _ _) Halpha (N.to_nat n)) as Hf.
  assert (In (N.to_nat n) (seq 0 64)) as Hin by (apply in_seq; lia). specialize (Hf Hin). cbv beta in Hf. rewrite N2Nat.id in Hf.
  to_prop. done.
Qed.

Lemma byte_bound (c : ascii) : (N_of_ascii c < 256)%N.
Proof. apply N_ascii_bounded. Qed.

Lemma digit_split (a b r : N) : (r < b -> (a * b + r) / b = a /\ (a * b + r) mod b = r)%N.
Proof.
  intros Hr. split; symmetry; [apply (N.div_unique _ _ _ r)|apply (N.mod_unique _ _ a)]; lia.
Qed.

Lemma digits_of (x b : N) : (b <> 0 -> exists q r, x / b = q /\ x mod b = r /\ x = b * q + r /\ r < b)%N.
Proof. intros Hb. exists (x / b)%N, (x mod b)%N. split_and!; [done..|apply N.div_mod'|by apply N.mod_lt]. Qed.

Lemma b64_quad (x y z : N) : (x < 256)%N -> (y < 256)%N -> (z < 256)%N ->
  (x / 4 < 64 /\ x mod 4 * 16 + y / 16 < 64 /\ y mod 16 * 4 + z / 64 < 64 /\ z mod 64 < 64 /\
   x / 4 * 4 + (x mod 4 * 16 + y / 16) / 16 = x /\
   (x mod 4 * 16 + y / 16) mod 16 * 16 + (y mod 16 * 4 + z / 64) / 4 = y /\
   (y mod 16 * 4 + z / 64) mod 4 * 64 + z mod 64 = z)%N.
Proof.
  intros Hx Hy Hz.
  destruct (digits_of x 4) as (u & v & -> & -> & Hu & Hv); [done|].
  destruct (digits_of y 16) as (q & r & -> & -> & Hq & Hr); [done|].
  destruct (digits_of z 64) as (w & t & -> & -> & Hw & Ht); [done|].
  destruct (digit_split v 16 q) as [-> ->]; [lia|]. destruct (digit_split r 4 w) as [-> ->]; [lia|].
  split_and!; lia.
Qed.

Lemma b64_digits (n : nat) (l : list ascii) :
  length l <= n -> exists vs, mapM b64_value (b64_encode l) = Some vs /\ b64_bytes vs = Some l /\
    forallb (fun c => negb (line_break c)) (b64_encode l) = true.
Proof.
  revert l. induction n as [|n IH]; intros l Hl; [by destruct l; [exists []|simpl in Hl; lia]|].
  destruct l as [|a [|b [|c l]]]; [by exists []| | |].
  - destruct (b64_quad _ 0 0 (byte_bound a) eq_refl eq_refl) as (H1 & H2 & _ & _ & He & _).
    simpl in H2. rewrite N.add_0_r in H2, He. apply b64_digit_ok in H1 as [E1 L1]. apply b64_digit_ok in H2 as [E2 L2].
    exists [(N_of_ascii a / 4)%N; (N_of_ascii a mod 4 * 16)%N]. cbn [b64_encode mapM forallb b64_bytes].
    rewrite E1, E2, L1, L2. simpl. split_and!; [done| |done]. rewrite He. unfold byte_of. by rewrite ascii_N_embedding.
  - destruct (b64_quad _ _ 0 (byte_bound a) (byte_bound b) eq_refl) as (H1 & H2 & H3 & _ & He1 & He2 & _).
    simpl in H3. rewrite N.add_0_r in H3, He2. apply b64_digit_ok in H1 as [E1 L1]. apply b64_digit_ok in H2 as [E2 L2].
    apply b64_digit_ok in H3 as [E3 L3]. eexists. cbn [b64_encode mapM forallb].
    rewrite E1, E2, E3, L1, L2, L3. simpl. split_and!; [done| |done]. cbn [b64_bytes].
    rewrite He1, He2. unfold byte_of. by rewrite !ascii_N_embedding.
  - destruct (b64_quad _ _ _ (byte_bound a) (byte_bound b) (byte_bound c)) as (H1 & H2 & H3 & H4 & He1 & He2 & He3).
    apply b64_digit_ok in H1 as [E1 L1]. apply b64_digit_ok in H2 as [E2 L2].
    apply b64_digit_ok in H3 as [E3 L3]. apply b64_digit_ok in H4 as [E4 L4].
    destruct (IH l) as (vs & Hvs & Hb & Hbr); [simpl in Hl; lia|].
    eexists. cbn [b64_encode mapM forallb]. rewrite E1, E2, E3, E4, L1, L2, L3, L4, Hvs.
    split_and!; [reflexivity| |by simpl]. cbn [b64_bytes]. rewrite Hb, He1, He2, He3. unfold byte_of. by rewrite !ascii_N_embedding.
Qed.

Lemma b64_roundtrip (l : list ascii) : b64_decode (b64_encode l) = Some l.
Proof.
  destruct (b64_digits (length l) l) as (vs & Hvs & Hb & Hbr); [done|]. unfold b64_decode.
  replace (List.filter _ (b64_encode l)) with (b64_encode l); [by rewrite Hvs|].
  clear -Hbr. induction (b64_encode l) as [|c r IH]; simpl in *; [done|]. to_prop.
  rewrite H. simpl. f_equal. by apply IH.
Qed.

Lemma length_b64_encode_lt (n : nat) (l : list ascii) : length l <= n -> length (b64_encode l) = (length l * 8 + 5) / 6.
Proof.
  revert l. induction n as [|n IH]; intros l Hl; [by destruct l; [|simpl in Hl; lia]|].
  destruct l as [|a [|b [|c l]]]; try done. cbn [b64_encode length]. rewrite IH by (simpl in Hl; lia).
  replace (S (S (S (length l))) * 8 + 5) with (length l * 8 + 5 + 4 * 6) by lia. rewrite Nat.div_add by lia. lia.
Qed.

(** Encoded text has digits only. *)
Lemma b64_encode_digits (l : list ascii) c : c ∈ b64_encode l -> is_Some (b64_value c).
Proof.
  destruct (b64_digits (length l) l) as (vs & Hvs & _); [done|]. intros Hc.
  pose proof (mapM_is_Some_1 b64_value (b64_encode l) ltac:(rewrite Hvs; eauto)) as Hall. by eapply Forall_forall in Hall.
Qed.

(** [EncodedLen] *)
Lemma length_b64_encode (l : list ascii) : length (b64_encode l) = (length l * 8 + 5) / 6.
Proof. by apply (length_b64_encode_lt (length l)). Qed.
End Alphabet.

(** [base64.RawURLEncoding] and [base64.RawStdEncoding] *)
Definition base64url (l : list ascii) : list ascii := b64_encode 45 95 l.
Definition base64url_decode (l : list ascii) : option (list ascii) := b64_decode 45 95 l.
Definition base64std (l : list ascii) : list ascii := b64_encode 43 47 l.
Definition base64std_decode (l : list ascii) : option (list ascii) := b64_decode 43 47 l.

Lemma base64url_roundtrip (l : list ascii) : base64url_decode (base64url l) = Some l.
Proof. apply b64_roundtrip. vm_compute. reflexivity. Qed.
Lemma base64std_roundtrip (l : list ascii) : base64std_decode (base64std l) = Some l.
Proof. apply b64_roundtrip. vm_compute. reflexivity. Qed.
Lemma base64std_no_dollar (l : list ascii) : "$"%char ∉ base64std l.
Proof. intros Hin. apply b64_encode_digits in Hin as [n Hn]; [|vm_compute; reflexivity]. by vm_compute in Hn. Qed.
