(* ===== verification/GoTime.v ===== *)
(** * Go times

    What the modelled packages use of Go's [time]: instants, durations, time
    zones, local clock and weekday, [time.Date] and [Time.AddDate].

    An instant is an integer number of nanoseconds since the Unix epoch and a
    duration an integer number of nanoseconds.  A calendar date is represented
    by its day number (days since 1970-01-01): [Time.Date] and [time.Date]
    convert between (year, month, day) and that number in both directions, so
    [Date(t.Year(), t.Month(), t.Day()+n, ...)] is addition on day numbers.  A
    location is the lookup function of its zone table, as [Location.lookup]:
    the offset in force at a Unix second and the interval it is in force for. *)

From S2P Require Import Prelude.
#[local] Open Scope Z_scope.

Abbreviation time := Z.
Abbreviation duration := Z.

Definition Nanosecond : duration := 1.
Definition Second : duration := 1000000000.
Definition Minute : duration := 60 * Second.
Definition Hour : duration := 60 * Minute.

(** [t.Add(d)], [t.After(u)], [t.Before(u)]. *)
Definition Add (t : time) (d : duration) : time := t + d.
Definition After (t u : time) : bool := u <? t.
Definition Before (t u : time) : bool := t <? u.

Record zone := Zone { zone_offset : Z; zone_start : Z; zone_end : Z }.
Abbreviation location := (Z -> zone).

(** A location with one zone. *)
Definition fixed_zone (offset : Z) : location :=
  fun _ => Zone offset (- 2 ^ 63) (2 ^ 63 - 1).
Definition UTC : location := fixed_zone 0.

Definition unix (t : time) : Z := t / Second.
Definition nanosecond (t : time) : Z := t mod Second.

(** Seconds on the local clock since 1970-01-01 00:00 local time. *)
Definition local_seconds (loc : location) (t : time) : Z :=
  unix t + zone_offset (loc (unix t)).
Definition day_number (loc : location) (t : time) : Z := local_seconds loc t / 86400.
Definition day_seconds (loc : location) (t : time) : Z := local_seconds loc t mod 86400.
Definition hour_of (loc : location) (t : time) : Z := day_seconds loc t / 3600.
Definition minute_of (loc : location) (t : time) : Z := day_seconds loc t mod 3600 / 60.
Definition second_of (loc : location) (t : time) : Z := day_seconds loc t mod 60.

(** [t.Weekday()]: 0 is Sunday; 1970-01-01 was a Thursday. *)
Definition Weekday (loc : location) (t : time) : Z := (day_number loc t + 4) mod 7.

(** [time.Date] with the date given by its day number: the offset is first
    looked up as if the local time were UTC and looked up again when the
    resulting instant falls outside the interval of that zone. *)
Definition Date (loc : location) (day hour minute sec nsec : Z) : time :=
  let u := day * 86400 + hour * 3600 + minute * 60 + sec in
  let z := loc u in
  let u' :=
    if zone_offset z =? 0 then u
    else
      let utc := u - zone_offset z in
      if (utc <? zone_start z) || (zone_end z <=? utc)
      then u - zone_offset (loc utc)
      else utc in
  u' * Second + nsec.

(** [t.AddDate(0, 0, days)] *)
Definition AddDays (loc : location) (t : time) (days : Z) : time :=
  Date loc (day_number loc t + days) (hour_of loc t) (minute_of loc t) (second_of loc t)
       (nanosecond t).

(** ** Lemmas *)

(** [loc] keeps the one offset [off] on the Unix seconds from [lo] to [hi], and
    the zone's interval covers them: no transition happens in the window. *)
Definition steady (loc : location) (off lo hi : Z) : Prop :=
  forall u, lo <= u <= hi ->
    zone_offset (loc u) = off /\ zone_start (loc u) <= lo /\ hi < zone_end (loc u).

Lemma steady_fixed (off lo hi : Z) :
  - 2 ^ 63 <= lo -> hi < 2 ^ 63 - 1 -> steady (fixed_zone off) off lo hi.
Proof. intros Hlo Hhi u Hu. simpl. lia. Qed.

Lemma Date_steady (loc : location) (off lo hi day h m s ns : Z) :
  steady loc off lo hi ->
  let u := day * 86400 + h * 3600 + m * 60 + s in
  lo <= u <= hi -> lo <= u - off <= hi ->
  Date loc day h m s ns = (u - off) * Second + ns.
Proof.
  intros Hst u Hu Hu'. unfold Date. fold u.
  destruct (Hst u Hu) as (-> & Hs & He).
  destruct (Z.eqb_spec off 0) as [->|Hne]; [f_equal; lia|].
  rewrite (proj2 (Z.ltb_ge _ _)) by lia. rewrite (proj2 (Z.leb_gt _ _)) by lia. done.
Qed.

Lemma unix_Date (u ns : Z) : 0 <= ns < Second -> unix (u * Second + ns) = u.
Proof.
  intros Hns. unfold unix. symmetry. apply (Z.div_unique _ _ _ ns); unfold Second in *; lia.
Qed.

Lemma day_seconds_bound (loc : location) (t : time) : 0 <= day_seconds loc t < 86400.
Proof. unfold day_seconds. apply Z.mod_pos_bound. lia. Qed.

Lemma local_split (loc : location) (t : time) :
  local_seconds loc t = day_number loc t * 86400 + day_seconds loc t.
Proof. unfold day_number, day_seconds. pose proof (Z.div_mod (local_seconds loc t) 86400). lia. Qed.

(** The local date and clock of a [Date] result inside a steady window. *)
Lemma Date_local (loc : location) (off lo hi day h m : Z) :
  steady loc off lo hi ->
  let u := day * 86400 + h * 3600 + m * 60 in
  lo <= u <= hi -> lo <= u - off <= hi -> 0 <= h <= 23 -> 0 <= m <= 59 ->
  let t := Date loc day h m 0 0 in
  t = (u - off) * Second /\ local_seconds loc t = u /\ day_number loc t = day /\
  hour_of loc t = h /\ minute_of loc t = m /\ second_of loc t = 0 /\ nanosecond t = 0.
Proof.
  intros Hst u Hu Hu' Hh Hm t.
  assert (Ht : t = (u - off) * Second).
  { unfold t. rewrite (Date_steady loc off lo hi); fold u; try lia; try done;
      replace (day * 86400 + h * 3600 + m * 60 + 0) with u by (unfold u; lia); try lia. }
  assert (Hls : local_seconds loc t = u).
  { unfold local_seconds. rewrite Ht. replace ((u - off) * Second) with ((u - off) * Second + 0) by lia.
    rewrite unix_Date by (unfold Second; lia). destruct (Hst (u - off)) as (-> & _); lia. }
  assert (Hday : day_number loc t = day)
    by (unfold day_number; rewrite Hls; symmetry; apply (Z.div_unique _ _ _ (h * 3600 + m * 60)); lia).
  assert (Hsec : day_seconds loc t = h * 3600 + m * 60)
    by (pose proof (local_split loc t); lia).
  repeat split; try done.
  - unfold hour_of. rewrite Hsec. symmetry. apply (Z.div_unique _ _ _ (m * 60)); lia.
  - unfold minute_of. rewrite Hsec.
    replace ((h * 3600 + m * 60) mod 3600) with (m * 60).
    + apply Z.div_mul. lia.
    + apply (Z.mod_unique _ _ h); lia.
  - unfold second_of. rewrite Hsec. symmetry. apply (Z.mod_unique _ _ (h * 60 + m)); lia.
  - unfold nanosecond. rewrite Ht. apply Z.mod_mul. unfold Second. lia.
Qed.
