(* ===== verification/GoJson.v ===== *)
(** * JSON values and Go's struct decoding

    A [json.RawMessage] that came out of a JSON document holds one complete
    JSON value, or is empty when the member was absent; it is modelled by
    [option json] (so "trailing data after the value" cannot occur).  A number
    keeps what [strconv.ParseInt] can see of its literal: [JInt] for a literal
    without fraction and exponent, [JFrac] for any other.

    [decode_struct] is [encoding/json] decoding an object into a struct: members
    are visited in order, a key selects the field with that exact name or else
    the first whose name folds to the key, a later member overwrites an earlier
    one, [null] leaves a non-pointer field as it is and clears a pointer field,
    a value of the wrong type is an error, and an unknown key is an error for a
    decoder with [DisallowUnknownFields]. *)

From S2P Require Import Prelude GoStrings.

Inductive json : Type :=
| JNull
| JBool (b : bool)
| JInt (z : Z)
| JFrac (literal : string)
| JStr (s : string)
| JArr (l : list json)
| JObj (members : list (string * json)).

Abbreviation raw := (option json).

(** github.com/google/uuid, which is not part of the repository: a UUID is a
    128-bit number, with [uuid.Parse] and [UUID.String] as parameters. *)
Abbreviation uuid := N.
Definition uuid_Nil : uuid := 0%N.

Class UUIDLib := {
  uuid_Parse : string -> option uuid;
  uuid_String : uuid -> string;
  (** every UUID's textual form parses back to it *)
  uuid_Parse_String : forall u, uuid_Parse (uuid_String u) = Some u
}.

(** The key comparison of [encoding/json]: ASCII letters compare without case,
    and the two non-ASCII runes that fold to an ASCII letter (U+017F to s and
    U+212A to k) do too.  It is applied to ASCII field names only. *)
Fixpoint fold_key (l : list ascii) : list ascii :=
  match l with
  | [] => []
  | c :: r =>
      match r with
      | c1 :: r1 =>
          if Ascii.eqb c (byte_of 197) && Ascii.eqb c1 (byte_of 191) then byte_of 115 :: fold_key r1
          else match r1 with
               | c2 :: r2 =>
                   if Ascii.eqb c (byte_of 226) && Ascii.eqb c1 (byte_of 132) && Ascii.eqb c2 (byte_of 170)
                   then byte_of 107 :: fold_key r2
                   else lower_byte c :: fold_key r
               | [] => lower_byte c :: fold_key r
               end
      | [] => [lower_byte c]
      end
  end.
Definition key_folds_to (key name : string) : bool :=
  bool_decide (fold_key (bytes key) = map lower_byte (bytes name)).

(** A struct field: its JSON name and how a value is stored into it. *)
Record field (S : Type) := Field { field_name : string; field_set : json -> S -> option S }.
Arguments Field {S} _ _.
Arguments field_name {S} _.
Arguments field_set {S} _ _ _.

Definition find_field {S : Type} (fs : list (field S)) (key : string) : option (field S) :=
  match List.find (fun f => String.eqb (field_name f) key) fs with
  | Some f => Some f
  | None => List.find (fun f => key_folds_to key (field_name f)) fs
  end.

Fixpoint decode_members {S : Type} (strict : bool) (fs : list (field S))
    (ms : list (string * json)) (s : S) : option S :=
  match ms with
  | [] => Some s
  | (k, v) :: ms' =>
      match find_field fs k with
      | Some f => match field_set f v s with
                  | Some s' => decode_members strict fs ms' s'
                  | None => None
                  end
      | None => if strict then None else decode_members strict fs ms' s
      end
  end.

(** [json.Unmarshal(raw, &dst)]: unknown members are ignored, [null] is a no-op. *)
Definition Unmarshal {S : Type} (fs : list (field S)) (r : raw) (zero : S) : option S :=
  match r with
  | Some (JObj ms) => decode_members false fs ms zero
  | Some JNull => Some zero
  | _ => None
  end.

(** Value decoders: what each Go field type accepts. *)
Definition as_string {S : Type} (set : string -> S -> S) (v : json) (s : S) : option S :=
  match v with JStr x => Some (set x s) | JNull => Some s | _ => None end.
Definition as_string_ptr {S : Type} (set : option string -> S -> S) (v : json) (s : S) : option S :=
  match v with JStr x => Some (set (Some x) s) | JNull => Some (set None s) | _ => None end.
Definition as_bool_ptr {S : Type} (set : option bool -> S -> S) (v : json) (s : S) : option S :=
  match v with JBool x => Some (set (Some x) s) | JNull => Some (set None s) | _ => None end.
Definition as_int64_ptr {S : Type} (set : option Z -> S -> S) (v : json) (s : S) : option S :=
  match v with
  | JInt z => if in_int64 z then Some (set (Some z) s) else None
  | JNull => Some (set None s)
  | _ => None
  end.
Definition as_uuid `{UUIDLib} {S : Type} (set : uuid -> S -> S) (v : json) (s : S) : option S :=
  match v with
  | JStr x => match uuid_Parse x with Some u => Some (set u s) | None => None end
  | JNull => Some s
  | _ => None
  end.
Definition as_raw {S : Type} (set : raw -> S -> S) (v : json) (s : S) : option S :=
  Some (set (Some v) s).
