(* ===== verification/AutoGraph.v ===== *)
(** * Automation graphs: [internal/automations/graph.go]

    The graph data model, [Validate] with its node, edge, degree, cycle,
    reachability and engagement checks, [validateConfig] for every node kind,
    and the two graph searches [graphHasCycle] (Kahn's algorithm) and
    [reachableFrom] (breadth-first search).  Go's maps are [gmap]s; the loops
    that drain a queue take fuel and report running out of it. *)

From S2P Require Import Prelude GoStrings GoTime GoJson.

Definition MaxNodes : Z := 200.

Record Node := { node_ID : string; node_Kind : string; node_Name : string; node_Config : raw }.
Record Edge := { edge_ID : string; edge_From : string; edge_To : string; edge_Branch : option string }.
Record Graph := { graph_Nodes : list Node; graph_Edges : list Edge }.
Record Issue := { issue_Code : string; issue_NodeID : string; issue_EdgeID : string; issue_Message : string }.

(** A nil map ([None]) skips that class of references. *)
Record References := { ref_Lists : option (gset uuid); ref_Templates : option (gset uuid) }.

Record conditionReference := { conditionID : string; sendNodeID : string }.

(** The time-zone database and the URL parser, which live outside the repository. *)
Class ZoneDB := { LoadLocation : string -> option location }.
Class URLLib := { ParseRequestURI : string -> option (string * string) }.

Definition nodeIssue (code id message : string) : Issue :=
  {| issue_Code := code; issue_NodeID := id; issue_EdgeID := ""; issue_Message := message |}.
Definition edgeIssue (code id message : string) : Issue :=
  {| issue_Code := code; issue_NodeID := ""; issue_EdgeID := id; issue_Message := message |}.

(** [^[a-z0-9_-]{1,64}$] *)
Definition graph_id_byte (c : ascii) : bool :=
  is_lower c || is_digit c || Ascii.eqb c "_" || Ascii.eqb c "-".
Definition graphIDPattern (s : string) : bool :=
  forallb graph_id_byte (bytes s) && (1 <=? len s)%Z && (len s <=? 64)%Z.

Definition validLabel (value : string) (max : Z) : bool :=
  let v := TrimSpace value in negb (String.eqb v "") && (len v <=? max)%Z.

(** [time.Parse("15:04", value)] succeeds and the value has five bytes. *)
Definition validClock (value : string) : bool :=
  match bytes value with
  | [h1; h2; c; m1; m2] =>
      is_digit h1 && is_digit h2 && Ascii.eqb c ":" && is_digit m1 && is_digit m2 &&
      (digits_val [h1; h2] <? 24)%Z && (digits_val [m1; m2] <? 60)%Z
  | _ => false
  end.

Section Config.
Context `{UUIDLib, ZoneDB, URLLib}.

Definition validHTTPURL (value : string) : bool :=
  match ParseRequestURI value with
  | Some (scheme, host) =>
      (String.eqb scheme "http" || String.eqb scheme "https") && negb (String.eqb host "")
  | None => false
  end.

(** ** The config structs *)

Record triggerConfig := { tc_Type : string; tc_ListID : uuid; tc_Tag : string; tc_Name : string }.
Definition triggerConfig_zero : triggerConfig := Build_triggerConfig "" uuid_Nil "" "".
Definition triggerConfig_fields : list (field triggerConfig) :=
  [ Field "type" (as_string (fun x s => Build_triggerConfig x (tc_ListID s) (tc_Tag s) (tc_Name s)));
    Field "list_id" (as_uuid (fun x s => Build_triggerConfig (tc_Type s) x (tc_Tag s) (tc_Name s)));
    Field "tag" (as_string (fun x s => Build_triggerConfig (tc_Type s) (tc_ListID s) x (tc_Name s)));
    Field "name" (as_string (fun x s => Build_triggerConfig (tc_Type s) (tc_ListID s) (tc_Tag s) x)) ].

Record sendConfig := { sc_TemplateID : uuid; sc_TrackOpens : option bool; sc_TrackClicks : option bool }.
Definition sendConfig_zero : sendConfig := Build_sendConfig uuid_Nil None None.
Definition sendConfig_fields : list (field sendConfig) :=
  [ Field "template_id" (as_uuid (fun x s => Build_sendConfig x (sc_TrackOpens s) (sc_TrackClicks s)));
    Field "track_opens" (as_bool_ptr (fun x s => Build_sendConfig (sc_TemplateID s) x (sc_TrackClicks s)));
    Field "track_clicks" (as_bool_ptr (fun x s => Build_sendConfig (sc_TemplateID s) (sc_TrackOpens s) x)) ].

Record waitConfig := { wc_Mode : string; wc_Seconds : option Z; wc_Weekday : option Z;
                       wc_Time : string; wc_Timezone : string }.
Definition waitConfig_zero : waitConfig := Build_waitConfig "" None None "" "".
Definition waitConfig_fields : list (field waitConfig) :=
  [ Field "mode" (as_string (fun x s => Build_waitConfig x (wc_Seconds s) (wc_Weekday s) (wc_Time s) (wc_Timezone s)));
    Field "seconds" (as_int64_ptr (fun x s => Build_waitConfig (wc_Mode s) x (wc_Weekday s) (wc_Time s) (wc_Timezone s)));
    Field "weekday" (as_int64_ptr (fun x s => Build_waitConfig (wc_Mode s) (wc_Seconds s) x (wc_Time s) (wc_Timezone s)));
    Field "time" (as_string (fun x s => Build_waitConfig (wc_Mode s) (wc_Seconds s) (wc_Weekday s) x (wc_Timezone s)));
    Field "timezone" (as_string (fun x s => Build_waitConfig (wc_Mode s) (wc_Seconds s) (wc_Weekday s) (wc_Time s) x)) ].

(** The one-field structs: the condition wrapper, a predicate's discriminator
    and the tag nodes. *)
Definition conditionConfig_fields : list (field raw) := [ Field "predicate" (as_raw (fun x _ => x)) ].
Definition kind_fields : list (field string) := [ Field "type" (as_string (fun x _ => x)) ].
Definition tagConfig_fields : list (field string) := [ Field "tag" (as_string (fun x _ => x)) ].

Record engagementPredicate := { ep_Type : string; ep_NodeID : string; ep_URL : option string }.
Definition engagementPredicate_zero : engagementPredicate := Build_engagementPredicate "" "" None.
Definition openedPredicate_fields : list (field engagementPredicate) :=
  [ Field "type" (as_string (fun x s => Build_engagementPredicate x (ep_NodeID s) (ep_URL s)));
    Field "node_id" (as_string (fun x s => Build_engagementPredicate (ep_Type s) x (ep_URL s))) ].
Definition clickedPredicate_fields : list (field engagementPredicate) :=
  openedPredicate_fields ++
  [ Field "url" (as_string_ptr (fun x s => Build_engagementPredicate (ep_Type s) (ep_NodeID s) x)) ].

Record tagPredicate := { tp_Type : string; tp_Tag : string }.
Definition tagPredicate_fields : list (field tagPredicate) :=
  [ Field "Type" (as_string (fun x s => Build_tagPredicate x (tp_Tag s)));
    Field "Tag" (as_string (fun x s => Build_tagPredicate (tp_Type s) x)) ].
Definition tagPredicate_zero : tagPredicate := Build_tagPredicate "" "".

Record listPredicate := { lp_Type : string; lp_ListID : uuid }.
Definition listPredicate_fields : list (field listPredicate) :=
  [ Field "type" (as_string (fun x s => Build_listPredicate x (lp_ListID s)));
    Field "list_id" (as_uuid (fun x s => Build_listPredicate (lp_Type s) x)) ].
Definition listPredicate_zero : listPredicate := Build_listPredicate "" uuid_Nil.

Record eventPredicate := { evp_Type : string; evp_Name : string; evp_WithinSeconds : option Z }.
Definition eventPredicate_fields : list (field eventPredicate) :=
  [ Field "type" (as_string (fun x s => Build_eventPredicate x (evp_Name s) (evp_WithinSeconds s)));
    Field "name" (as_string (fun x s => Build_eventPredicate (evp_Type s) x (evp_WithinSeconds s)));
    Field "within_seconds" (as_int64_ptr (fun x s => Build_eventPredicate (evp_Type s) (evp_Name s) x)) ].
Definition eventPredicate_zero : eventPredicate := Build_eventPredicate "" "" None.

(** [decodeConfig]: strict decoding of a non-null object; [None] is any error. *)
Definition decodeConfig {S : Type} (fs : list (field S)) (r : raw) (zero : S) : option S :=
  match r with
  | None | Some JNull => None
  | Some (JObj ms) => decode_members true fs ms zero
  | Some _ => None
  end.

(** ** validateConfig

    One function per case of the switch; each returns the issues and, for an
    engagement predicate, the referenced send node ([""] otherwise). *)

Definition bad (node : Node) (message : string) : list Issue * string :=
  ([nodeIssue "invalid_config" (node_ID node) message], "").

(** [refs != nil && !refs[id]] *)
Definition missing (refs : option (gset uuid)) (id : uuid) : bool :=
  match refs with Some known => negb (bool_decide (id ∈ known)) | None => false end.

Definition out_of_range (o : option Z) (lo hi : Z) : bool :=
  match o with Some z => (z <? lo)%Z || (hi <? z)%Z | None => false end.

Definition validateTrigger (node : Node) (refs : References) : list Issue * string :=
  match decodeConfig triggerConfig_fields (node_Config node) triggerConfig_zero with
  | None => bad node "trigger config is malformed"
  | Some cfg =>
      if N.eqb (tc_ListID cfg) uuid_Nil then bad node "trigger config is malformed" else
      let rest :=
        if missing (ref_Lists refs) (tc_ListID cfg)
        then ([nodeIssue "list_not_found" (node_ID node) "referenced mailing list was not found"], "")
        else ([], "") in
      if String.eqb (tc_Type cfg) "list_joined" then
        if negb (String.eqb (tc_Tag cfg) "") || negb (String.eqb (tc_Name cfg) "")
        then bad node "list_joined trigger only accepts list_id" else rest
      else if String.eqb (tc_Type cfg) "tag_added" then
        if negb (validLabel (tc_Tag cfg) 64) || negb (String.eqb (tc_Name cfg) "")
        then bad node "tag_added trigger requires a valid tag" else rest
      else if String.eqb (tc_Type cfg) "event" then
        if negb (validLabel (tc_Name cfg) 128) || negb (String.eqb (tc_Tag cfg) "")
        then bad node "event trigger requires a valid name" else rest
      else bad node "trigger type must be list_joined, tag_added, or event"
  end.

Definition validateSend (node : Node) (refs : References) : list Issue * string :=
  match decodeConfig sendConfig_fields (node_Config node) sendConfig_zero with
  | None => bad node "send_email requires template_id, track_opens, and track_clicks"
  | Some cfg =>
      if N.eqb (sc_TemplateID cfg) uuid_Nil || bool_decide (sc_TrackOpens cfg = None)
         || bool_decide (sc_TrackClicks cfg = None)
      then bad node "send_email requires template_id, track_opens, and track_clicks"
      else if missing (ref_Templates refs) (sc_TemplateID cfg)
      then ([nodeIssue "template_not_found" (node_ID node) "referenced mailing template was not found"], "")
      else ([], "")
  end.

(** The condition shared by validation and execution of a duration wait. *)
Definition duration_wait_bad (cfg : waitConfig) : bool :=
  match wc_Seconds cfg with None => true | Some s => (s <? 60)%Z || (31536000 <? s)%Z end
  || bool_decide (wc_Weekday cfg <> None)
  || negb (String.eqb (wc_Time cfg) "") || negb (String.eqb (wc_Timezone cfg) "").

Definition validateWait (node : Node) : list Issue * string :=
  match decodeConfig waitConfig_fields (node_Config node) waitConfig_zero with
  | None => bad node "wait config is malformed"
  | Some cfg =>
      if String.eqb (wc_Mode cfg) "duration" then
        if duration_wait_bad cfg
        then bad node "duration wait requires seconds between 60 and 31536000" else ([], "")
      else if String.eqb (wc_Mode cfg) "until" then
        if bool_decide (wc_Seconds cfg <> None) || out_of_range (wc_Weekday cfg) 1 7
           || negb (validClock (wc_Time cfg))
        then bad node "until wait requires an optional weekday 1-7 and time HH:MM"
        else match LoadLocation (wc_Timezone cfg) with
             | None => bad node "until wait requires a valid IANA timezone"
             | Some _ => ([], "")
             end
      else bad node "wait mode must be duration or until"
  end.

Definition validatePredicate (node : Node) (refs : References) (pred : raw) (kind : string)
  : list Issue * string :=
  if String.eqb kind "opened_email" then
    match decodeConfig openedPredicate_fields pred engagementPredicate_zero with
    | Some p => if graphIDPattern (ep_NodeID p) then ([], ep_NodeID p)
                else bad node "opened_email predicate requires node_id"
    | None => bad node "opened_email predicate requires node_id"
    end
  else if String.eqb kind "clicked_link" then
    match decodeConfig clickedPredicate_fields pred engagementPredicate_zero with
    | Some p =>
        if negb (graphIDPattern (ep_NodeID p)) ||
           match ep_URL p with Some u => negb (validHTTPURL u) | None => false end
        then bad node "clicked_link predicate requires node_id and an optional HTTP URL"
        else ([], ep_NodeID p)
    | None => bad node "clicked_link predicate requires node_id and an optional HTTP URL"
    end
  else if String.eqb kind "has_tag" then
    match decodeConfig tagPredicate_fields pred tagPredicate_zero with
    | Some p => if validLabel (tp_Tag p) 64 then ([], "")
                else bad node "has_tag predicate requires a valid tag"
    | None => bad node "has_tag predicate requires a valid tag"
    end
  else if String.eqb kind "on_list" then
    match decodeConfig listPredicate_fields pred listPredicate_zero with
    | Some p =>
        if N.eqb (lp_ListID p) uuid_Nil then bad node "on_list predicate requires list_id"
        else if missing (ref_Lists refs) (lp_ListID p)
        then ([nodeIssue "list_not_found" (node_ID node) "referenced mailing list was not found"], "")
        else ([], "")
    | None => bad node "on_list predicate requires list_id"
    end
  else if String.eqb kind "event_received" then
    match decodeConfig eventPredicate_fields pred eventPredicate_zero with
    | Some p =>
        if negb (validLabel (evp_Name p) 128) || out_of_range (evp_WithinSeconds p) 1 31536000
        then bad node "event_received requires a valid name and optional within_seconds"
        else ([], "")
    | None => bad node "event_received requires a valid name and optional within_seconds"
    end
  else bad node "unknown condition predicate type".

Definition validateCondition (node : Node) (refs : References) : list Issue * string :=
  match decodeConfig conditionConfig_fields (node_Config node) None with
  | None | Some None => bad node "condition requires one predicate"
  | Some pred =>
      match Unmarshal kind_fields pred "" with
      | None => bad node "condition predicate is malformed"
      | Some kind => validatePredicate node refs pred kind
      end
  end.

Definition validateConfig (node : Node) (refs : References) : list Issue * string :=
  let kind := node_Kind node in
  if String.eqb kind "trigger" then validateTrigger node refs
  else if String.eqb kind "send_email" then validateSend node refs
  else if String.eqb kind "wait" then validateWait node
  else if String.eqb kind "condition" then validateCondition node refs
  else if String.eqb kind "add_tag" || String.eqb kind "remove_tag" then
    match decodeConfig tagConfig_fields (node_Config node) "" with
    | Some tag => if validLabel tag 64 then ([], "")
                  else bad node (kind +:+ " requires a valid tag")
    | None => bad node (kind +:+ " requires a valid tag")
    end
  else if String.eqb kind "exit" then
    match decodeConfig [] (node_Config node) tt with
    | Some _ => ([], "")
    | None => bad node "exit config must be empty"
    end
  else ([nodeIssue "unknown_node_kind" (node_ID node) "unknown node kind"], "").
End Config.

(** ** Graph searches *)

Abbreviation adjacency := (gmap string (list Edge)).

(** [m[id]] for a [map[string][]Edge]: a missing key reads as the empty slice. *)
Definition edges_at (m : adjacency) (id : string) : list Edge := default [] (m !! id).

(** [m[k] = append(m[k], e)] *)
Definition push_edge (m : adjacency) (k : string) (e : Edge) : adjacency :=
  <[k := edges_at m k ++ [e]]> m.

(** One pass over the edges leaving a dequeued node: decrement the degree of
    each target and enqueue it when the degree reaches zero. *)
Fixpoint relax (es : list Edge) (degree : gmap string Z) (queue : list string)
  : gmap string Z * list string :=
  match es with
  | [] => (degree, queue)
  | e :: es' =>
      let d := (default 0 (degree !! edge_To e) - 1)%Z in
      let degree' := <[edge_To e := d]> degree in
      relax es' degree' (if (d =? 0)%Z then queue ++ [edge_To e] else queue)
  end.

(** The queue loop of [graphHasCycle]; the result is [seen], [None] when the
    fuel runs out. *)
Fixpoint kahn_loop (fuel : nat) (outgoing : adjacency) (degree : gmap string Z)
    (queue : list string) (seen : Z) : option Z :=
  match queue with
  | [] => Some seen
  | id :: queue' =>
      match fuel with
      | O => None
      | S fuel' =>
          let '(degree', queue'') := relax (edges_at outgoing id) degree queue' in
          kahn_loop fuel' outgoing degree' queue'' (seen + 1)%Z
      end
  end.

Definition in_degree (incoming : adjacency) (id : string) : Z := Z.of_nat (length (edges_at incoming id)).

(** [graphHasCycle], with the order in which Go iterates over the node map as
    an argument: Go leaves it unspecified. *)
Definition graphHasCycle_in_order (order : list string) (outgoing incoming : adjacency) : bool :=
  let degree := list_to_map (map (fun id => (id, in_degree incoming id)) order) in
  let queue := List.filter (fun id => (in_degree incoming id =? 0)%Z) order in
  match kahn_loop (length order) outgoing degree queue 0%Z with
  | Some seen => negb (seen =? Z.of_nat (length order))%Z
  | None => true
  end.

Definition graphHasCycle (nodes : gmap string Node) (outgoing incoming : adjacency) : bool :=
  graphHasCycle_in_order (map fst (map_to_list nodes)) outgoing incoming.

(** The edges leaving a node in [reachableFrom]. *)
Fixpoint visit (es : list Edge) (seen : gset string) (queue : list string)
  : gset string * list string :=
  match es with
  | [] => (seen, queue)
  | e :: es' =>
      if bool_decide (edge_To e ∈ seen) then visit es' seen queue
      else visit es' ({[edge_To e]} ∪ seen) (queue ++ [edge_To e])
  end.

Fixpoint bfs_loop (fuel : nat) (outgoing : adjacency) (seen : gset string) (queue : list string)
  : option (gset string) :=
  match queue with
  | [] => Some seen
  | id :: queue' =>
      match fuel with
      | O => None
      | S fuel' =>
          let '(seen', queue'') := visit (edges_at outgoing id) seen queue' in
          bfs_loop fuel' outgoing seen' queue''
      end
  end.

(** Every queued node other than the root is the target of an edge, and no node
    is queued twice, so the number of edges bounds the number of rounds. *)
Definition bfs_fuel (outgoing : adjacency) : nat :=
  S (length (List.concat (map snd (map_to_list outgoing)))).

Definition reachableFrom (root : string) (outgoing : adjacency) : gset string :=
  default ∅ (bfs_loop (bfs_fuel outgoing) outgoing {[root]} [root]).

Definition isAncestor (from to : string) (outgoing : adjacency) : bool :=
  if String.eqb from to then false else bool_decide (to ∈ reachableFrom from outgoing).

(** ** Validate *)

Section Validate.
Context `{UUIDLib, ZoneDB, URLLib}.

(** What the first loop of [Validate] accumulates. *)
Record nodePass := {
  np_issues : list Issue;
  np_nodes : gmap string Node;
  np_triggerIDs : list string;
  np_conditions : list conditionReference
}.

Definition node_pass_step (refs : References) (st : nodePass) (node : Node) : nodePass :=
  let i1 := if graphIDPattern (node_ID node) then []
            else [nodeIssue "invalid_node_id" (node_ID node) "node id must match ^[a-z0-9_-]{1,64}$"] in
  let '(i2, nodes') :=
    match np_nodes st !! node_ID node with
    | Some _ => ([nodeIssue "duplicate_node_id" (node_ID node) "node id must be unique"], np_nodes st)
    | None => ([], <[node_ID node := node]> (np_nodes st))
    end in
  let i3 := if (200 <? len (node_Name node))%Z
            then [nodeIssue "invalid_node_name" (node_ID node) "node name must not exceed 200 characters"]
            else [] in
  let '(i4, conditionRef) := validateConfig node refs in
  {| np_issues := np_issues st ++ i1 ++ i2 ++ i3 ++ i4;
     np_nodes := nodes';
     np_triggerIDs := if String.eqb (node_Kind node) "trigger"
                      then np_triggerIDs st ++ [node_ID node] else np_triggerIDs st;
     np_conditions := if String.eqb conditionRef "" then np_conditions st
                      else np_conditions st ++
                           [{| conditionID := node_ID node; sendNodeID := conditionRef |}] |}.

Definition node_pass (refs : References) (nodes : list Node) : nodePass :=
  fold_left (node_pass_step refs) nodes
    {| np_issues := []; np_nodes := ∅; np_triggerIDs := []; np_conditions := [] |}.

(** What the loop over the edges accumulates. *)
Record edgePass := {
  ep_issues : list Issue;
  ep_outgoing : adjacency;
  ep_incoming : adjacency;
  ep_edgeIDs : gset string
}.

Definition edge_pass_step (nodes : gmap string Node) (st : edgePass) (edge : Edge) : edgePass :=
  let i1 := if graphIDPattern (edge_ID edge) then []
            else [edgeIssue "invalid_edge_id" (edge_ID edge) "edge id must match ^[a-z0-9_-]{1,64}$"] in
  let i2 := if bool_decide (edge_ID edge ∈ ep_edgeIDs st)
            then [edgeIssue "duplicate_edge_id" (edge_ID edge) "edge id must be unique"] else [] in
  let ids := {[edge_ID edge]} ∪ ep_edgeIDs st in
  if bool_decide (nodes !! edge_From edge = None) || bool_decide (nodes !! edge_To edge = None) then
    {| ep_issues := ep_issues st ++ i1 ++ i2 ++
         [edgeIssue "edge_unknown_node" (edge_ID edge) "edge endpoints must reference existing nodes"];
       ep_outgoing := ep_outgoing st; ep_incoming := ep_incoming st; ep_edgeIDs := ids |}
  else
    let i3 := if String.eqb (edge_From edge) (edge_To edge)
              then [edgeIssue "self_loop" (edge_ID edge) "self-loop edges are not allowed"] else [] in
    {| ep_issues := ep_issues st ++ i1 ++ i2 ++ i3;
       ep_outgoing := push_edge (ep_outgoing st) (edge_From edge) edge;
       ep_incoming := push_edge (ep_incoming st) (edge_To edge) edge;
       ep_edgeIDs := ids |}.

Definition edge_pass (nodes : gmap string Node) (edges : list Edge) : edgePass :=
  fold_left (edge_pass_step nodes) edges
    {| ep_issues := []; ep_outgoing := ∅; ep_incoming := ∅; ep_edgeIDs := ∅ |}.

(** The branch labels of a condition's outgoing edges: issues and the number of
    yes and no edges. *)
Fixpoint branch_pass (outs : list Edge) : list Issue * Z * Z :=
  match outs with
  | [] => ([], 0%Z, 0%Z)
  | edge :: outs' =>
      let '(issues, yes, no) := branch_pass outs' in
      match edge_Branch edge with
      | None => (edgeIssue "condition_branch_required" (edge_ID edge)
                   "condition edges require a yes or no branch" :: issues, yes, no)
      | Some b =>
          if String.eqb b "yes" then (issues, (yes + 1)%Z, no)
          else if String.eqb b "no" then (issues, yes, (no + 1)%Z)
          else (edgeIssue "invalid_edge_branch" (edge_ID edge) "edge branch must be yes or no" :: issues, yes, no)
      end
  end.

Definition degree_issues (outgoing : adjacency) (node : Node) : list Issue :=
  let outs := edges_at outgoing (node_ID node) in
  if String.eqb (node_Kind node) "condition" then
    let '(issues, yes, no) := branch_pass outs in
    issues ++
    (if negb (yes =? 1)%Z || negb (no =? 1)%Z || negb (Z.of_nat (length outs) =? 2)%Z
     then [nodeIssue "condition_branches" (node_ID node)
             "condition must have exactly one yes edge and one no edge"] else [])
  else
    (if (1 <? Z.of_nat (length outs))%Z
     then [nodeIssue "invalid_out_degree" (node_ID node)
             "non-condition nodes may have at most one outgoing edge"] else []) ++
    flat_map (fun edge => match edge_Branch edge with
                          | Some _ => [edgeIssue "unexpected_edge_branch" (edge_ID edge)
                                         "only condition edges may have a branch"]
                          | None => []
                          end) outs.

Definition trigger_issues (incoming : adjacency) (triggerID : string) : list Issue :=
  match edges_at incoming triggerID with
  | [] => []
  | _ => [nodeIssue "trigger_indegree" triggerID "trigger must have no incoming edges"]
  end.

Definition reachability_issues (nodes : list Node) (triggerIDs : list string) (outgoing : adjacency)
  : list Issue :=
  match triggerIDs with
  | [trigger] =>
      let reachable := reachableFrom trigger outgoing in
      flat_map (fun node => if bool_decide (node_ID node ∈ reachable) then []
                            else [nodeIssue "unreachable_node" (node_ID node)
                                    "node must be reachable from the trigger"]) nodes
  | _ => []
  end.

Definition engagement_issues (nodes : gmap string Node) (outgoing : adjacency)
    (ref : conditionReference) : list Issue :=
  let ok := match nodes !! sendNodeID ref with
            | Some node => String.eqb (node_Kind node) "send_email"
                           && isAncestor (sendNodeID ref) (conditionID ref) outgoing
            | None => false
            end in
  if ok then [] else [nodeIssue "invalid_engagement_ancestor" (conditionID ref)
                        "engagement predicate must reference an ancestor send_email node"].

Definition Validate (graph : Graph) (refs : References) : list Issue :=
  let n := Z.of_nat (length (graph_Nodes graph)) in
  let np := node_pass refs (graph_Nodes graph) in
  let ep := edge_pass (np_nodes np) (graph_Edges graph) in
  (if (MaxNodes <? n)%Z
   then [{| issue_Code := "too_many_nodes"; issue_NodeID := ""; issue_EdgeID := "";
            issue_Message := "graph has " +:+ itoa n +:+ " nodes; maximum is " +:+ itoa MaxNodes |}]
   else []) ++
  np_issues np ++
  (if negb (Z.of_nat (length (np_triggerIDs np)) =? 1)%Z
   then [{| issue_Code := "trigger_count"; issue_NodeID := ""; issue_EdgeID := "";
            issue_Message := "graph must contain exactly one trigger" |}]
   else []) ++
  ep_issues ep ++
  flat_map (degree_issues (ep_outgoing ep)) (graph_Nodes graph) ++
  flat_map (trigger_issues (ep_incoming ep)) (np_triggerIDs np) ++
  (if graphHasCycle (np_nodes np) (ep_outgoing ep) (ep_incoming ep)
   then [{| issue_Code := "cycle"; issue_NodeID := ""; issue_EdgeID := "";
            issue_Message := "graph must be acyclic" |}]
   else []) ++
  reachability_issues (graph_Nodes graph) (np_triggerIDs np) (ep_outgoing ep) ++
  flat_map (engagement_issues (np_nodes np) (ep_outgoing ep)) (np_conditions np).
End Validate.
