(* ===== verification/Errors.v ===== *)
(** * Go error values

    The error values the modelled packages create and inspect: the sentinels of
    [internal/automations/ports.go] and [internal/platform/errs], the errors of
    the pgx driver, [InvalidGraphError], ad hoc [errors.New] values and the
    [%w] wrapping chain that [errors.Is] and [errors.As] walk. *)

From S2P Require Import Prelude GoStrings GoTime GoJson AutoGraph.

Inductive error : Type :=
| ErrInvalidReference
| ErrLostFence
| ErrNotFound
| ErrForbidden
| ErrValidation
| ErrConflict
| ErrTenantMaintenance
| ErrNoRows                                  (* pgx.ErrNoRows *)
| ErrTxCommitRollback                        (* pgx.ErrTxCommitRollback *)
| PgError (code msg : string)                (* *pgconn.PgError *)
| InvalidGraphError (issues : list Issue)
| NewError (msg : string)
| Wrap (msg : string) (inner : error).       (* fmt.Errorf("...: %w", inner); [msg] is the text before *)

Fixpoint Error (e : error) : string :=
  match e with
  | ErrInvalidReference => "automation invalid reference"
  | ErrLostFence => "automation execution fence lost"
  | ErrNotFound => "not found"
  | ErrForbidden => "forbidden"
  | ErrValidation => "validation"
  | ErrConflict => "conflict"
  | ErrTenantMaintenance => "tenant maintenance"
  | ErrNoRows => "no rows in result set"
  | ErrTxCommitRollback => "commit unexpectedly resulted in rollback"
  | PgError code msg => "ERROR: " +:+ msg +:+ " (SQLSTATE " +:+ code +:+ ")"
  | InvalidGraphError _ => "automation graph is invalid"
  | NewError m => m
  | Wrap m inner => m +:+ ": " +:+ Error inner
  end.

(** The innermost error of the chain; [errors.Is] and [errors.As] find what
    they look for there, since no modelled sentinel wraps another error. *)
Fixpoint unwrap (e : error) : error :=
  match e with Wrap _ i => unwrap i | _ => e end.

(** [errors.Is(e, target)] for the sentinels. *)
Definition is_invalid_reference (e : error) : bool :=
  match unwrap e with ErrInvalidReference => true | _ => false end.
Definition is_lost_fence (e : error) : bool :=
  match unwrap e with ErrLostFence => true | _ => false end.
Definition is_no_rows (e : error) : bool :=
  match unwrap e with ErrNoRows => true | _ => false end.
Definition is_not_found (e : error) : bool :=
  match unwrap e with ErrNotFound => true | _ => false end.
Definition is_validation (e : error) : bool :=
  match unwrap e with ErrValidation => true | _ => false end.
Definition is_conflict (e : error) : bool :=
  match unwrap e with ErrConflict => true | _ => false end.

(** [errors.As(e, &pgErr)]: the SQLSTATE. *)
Definition pg_code (e : error) : option string :=
  match unwrap e with PgError code _ => Some code | _ => None end.

(** [mapTxError] of [internal/platform/db]. *)
Definition mapTxError (err : error) : error :=
  match pg_code err with
  | Some code => if String.eqb code "TM503" then Wrap "tenant merge in progress" ErrTenantMaintenance else err
  | None => err
  end.
