(* ===== verification/AutoEngine.v ===== *)
(** * The automation engine: [internal/automations/ports.go] and [engine.go]

    The engine advances one enrollment through its graph inside a transaction.
    Its dependencies are the Go interfaces of [ports.go], here classes and
    records of functions over a transaction state [Tx]; a nil interface is
    [None].  The texts
    of errors made by [encoding/json] and [time.LoadLocation] inside [waitUntil]
    are fixed strings here: only whether they occur matters to the engine. *)

From S2P Require Import Prelude GoStrings GoTime GoJson AutoGraph Errors.

(** ** Data of ports.go and engine.go *)

Record SubscriberSnapshot := {
  snap_ID : uuid; snap_BusinessID : uuid; snap_TenantRootID : uuid; snap_ListID : uuid;
  snap_Email : string; snap_Status : string; snap_Tags : list string
}.

Record MessageSpec := {
  msg_BusinessID : uuid; msg_TenantRootID : uuid; msg_SubscriberID : uuid; msg_TemplateID : uuid;
  msg_EnrollmentID : uuid; msg_ClaimGeneration : Z; msg_TrackOpens : bool; msg_TrackClicks : bool;
  msg_SourceKind : string; msg_SourceID : uuid; msg_NotBefore : time
}.

Record EngagementData := { eng_Opened : bool; eng_ClickedURLs : list string }.

(** The detail map of a step record holds at most one of these two entries. *)
Inductive stepDetail : Type :=
| NoDetail
| ReasonDetail (reason : string)
| WakeDetail (wake_at : time).

Record StepRecord := {
  rec_EnrollmentID : uuid; rec_ClaimGeneration : Z; rec_NodeID : string; rec_NodeKind : string;
  rec_Outcome : string; rec_NextNodeID : option string; rec_WakeAt : option time;
  rec_Status : string; rec_DeliveryID : option uuid; rec_Detail : stepDetail; rec_RecordedAt : time
}.

Record StepFailure := {
  fail_EnrollmentID : uuid; fail_ClaimGeneration : Z; fail_Error : string;
  fail_Terminal : bool; fail_RetryAt : time
}.

(** ** The port interfaces, over a transaction state *)

Section Ports.
Context (Tx : Type).

Abbreviation action A := (Tx -> Tx * result error A).

Record SubscriberReader := {
  Snapshot : uuid -> action SubscriberSnapshot;
  ActiveOnList : uuid -> string -> uuid -> action bool;
  ResolveForList : uuid -> string -> uuid -> action uuid
}.
Record MessageSender := { Enqueue : MessageSpec -> action uuid }.
Record EngagementReader := { Engagement : uuid -> action EngagementData }.
Record Tagger := {
  AddTag : uuid -> uuid -> uuid -> uuid -> Z -> string -> action unit;
  RemoveTag : uuid -> uuid -> uuid -> uuid -> Z -> string -> action unit
}.
Record StepStore := {
  store_Record : StepRecord -> action bool;
  store_Fail : StepFailure -> action bool;
  store_Waiting : uuid -> string -> action bool;
  store_Delivery : uuid -> string -> action (option uuid);
  store_EventExists : uuid -> uuid -> string -> string -> time -> time -> option duration -> action bool
}.
Record Deps := {
  dep_Subscribers : option SubscriberReader;
  dep_Sender : option MessageSender;
  dep_Engagement : option EngagementReader;
  dep_Tagger : option Tagger;
  dep_Steps : option StepStore
}.
End Ports.
Arguments Snapshot {Tx}. Arguments ActiveOnList {Tx}. Arguments ResolveForList {Tx}.
Arguments Enqueue {Tx}. Arguments Engagement {Tx}. Arguments AddTag {Tx}. Arguments RemoveTag {Tx}.
Arguments store_Record {Tx}. Arguments store_Fail {Tx}. Arguments store_Waiting {Tx}.
Arguments store_Delivery {Tx}. Arguments store_EventExists {Tx}.
Arguments dep_Subscribers {Tx}. Arguments dep_Sender {Tx}. Arguments dep_Engagement {Tx}.
Arguments dep_Tagger {Tx}. Arguments dep_Steps {Tx}.

Definition DefaultMaxNodesPerTick : Z := 25.
Definition DefaultMaxNodeAttempts : Z := 5.

Record Enrollment := {
  enr_ID : uuid; enr_BusinessID : uuid; enr_TenantRootID : uuid; enr_AutomationID : uuid;
  enr_VersionID : uuid; enr_SubscriberID : uuid; enr_CurrentNodeID : string;
  enr_WakeAt : time; enr_EnrolledAt : time; enr_NodeAttempts : Z; enr_ClaimGeneration : Z
}.
Definition with_attempts (e : Enrollment) (n : Z) : Enrollment :=
  {| enr_ID := enr_ID e; enr_BusinessID := enr_BusinessID e; enr_TenantRootID := enr_TenantRootID e;
     enr_AutomationID := enr_AutomationID e; enr_VersionID := enr_VersionID e;
     enr_SubscriberID := enr_SubscriberID e; enr_CurrentNodeID := enr_CurrentNodeID e;
     enr_WakeAt := enr_WakeAt e; enr_EnrolledAt := enr_EnrolledAt e; enr_NodeAttempts := n;
     enr_ClaimGeneration := enr_ClaimGeneration e |}.

Record AdvanceOutcome := {
  out_NodesProcessed : Z; out_Status : string; out_Parked : bool; out_LeaseLost : bool; out_LastError : string
}.
Definition set_lease_lost (o : AdvanceOutcome) : AdvanceOutcome :=
  {| out_NodesProcessed := out_NodesProcessed o; out_Status := out_Status o;
     out_Parked := out_Parked o; out_LeaseLost := true; out_LastError := out_LastError o |}.
Definition set_status (s : string) (o : AdvanceOutcome) : AdvanceOutcome :=
  {| out_NodesProcessed := out_NodesProcessed o; out_Status := s;
     out_Parked := out_Parked o; out_LeaseLost := out_LeaseLost o; out_LastError := out_LastError o |}.
Definition set_last_error (s : string) (o : AdvanceOutcome) : AdvanceOutcome :=
  {| out_NodesProcessed := out_NodesProcessed o; out_Status := out_Status o;
     out_Parked := out_Parked o; out_LeaseLost := out_LeaseLost o; out_LastError := s |}.
Definition set_parked (b : bool) (o : AdvanceOutcome) : AdvanceOutcome :=
  {| out_NodesProcessed := out_NodesProcessed o; out_Status := out_Status o;
     out_Parked := b; out_LeaseLost := out_LeaseLost o; out_LastError := out_LastError o |}.
Definition count_node (o : AdvanceOutcome) : AdvanceOutcome :=
  {| out_NodesProcessed := (out_NodesProcessed o + 1)%Z; out_Status := out_Status o;
     out_Parked := out_Parked o; out_LeaseLost := out_LeaseLost o; out_LastError := out_LastError o |}.

Record Engine (Tx : Type) := {
  eng_Deps : Deps Tx; eng_MaxNodesPerTick : Z; eng_MaxNodeAttempts : Z
}.
Arguments eng_Deps {Tx}. Arguments eng_MaxNodesPerTick {Tx}. Arguments eng_MaxNodeAttempts {Tx}.

(** ** Pure helpers *)

Fixpoint nextNode (edges : list Edge) (branch : string) : string :=
  match edges with
  | [] => ""
  | e :: es =>
      if String.eqb branch "" && bool_decide (edge_Branch e = None) then edge_To e
      else match edge_Branch e with
           | Some b => if String.eqb b branch then edge_To e else nextNode es branch
           | None => nextNode es branch
           end
  end.

Definition stringPointer (value : string) : option string :=
  if String.eqb value "" then None else Some value.

(** [30 * time.Second * time.Duration(1<<priorAttempts)], in 64-bit arithmetic. *)
Definition retryDelay (priorAttempts : Z) : duration :=
  let p := if (priorAttempts <? 0)%Z then 0%Z else priorAttempts in
  let p := if (7 <? p)%Z then 7%Z else p in
  let delay := wrap64 (wrap64 (30 * Second) * wrap64 (Z.shiftl 1 p)) in
  if (Hour <? delay)%Z then Hour else delay.

Section Wait.
Context `{UnicodeTables, ZoneDB}.

Definition invalid_wait {A : Type} (msg : string) : result error A := Err (NewError msg).

(** The clock fields of an until wait: [strings.Split] on the colon and two [Atoi]s. *)
Definition parse_clock (value : string) : result error (Z * Z) :=
  match Split value ":" with
  | [h; m] =>
      match Atoi h with
      | None => invalid_wait (Atoi_error h)
      | Some hour =>
          match Atoi m with
          | None => invalid_wait (Atoi_error m)
          | Some minute =>
              if (hour <? 0)%Z || (23 <? hour)%Z || (minute <? 0)%Z || (59 <? minute)%Z
              then invalid_wait "invalid clock time" else Ok (hour, minute)
          end
      end
  | _ => invalid_wait "invalid clock time"
  end.

(** The next instant, strictly after [now], with the given local clock and weekday. *)
Definition until_target (loc : location) (now : time) (hour minute : Z) (weekday : option Z) : time :=
  let target := Date loc (day_number loc now) hour minute 0 0 in
  match weekday with
  | None => if After target now then target else AddDays loc target 1
  | Some w =>
      let desired := (w mod 7)%Z in
      let days := ((desired - Weekday loc now + 7) mod 7)%Z in
      let target := AddDays loc target days in
      if After target now then target else AddDays loc target 7
  end.

Definition waitUntil (r : raw) (now : time) : result error time :=
  match decodeConfig waitConfig_fields r waitConfig_zero with
  | None => invalid_wait "malformed config"
  | Some cfg =>
      if String.eqb (wc_Mode cfg) "duration" then
        match wc_Seconds cfg with
        | Some s =>
            if duration_wait_bad cfg then invalid_wait "invalid duration wait"
            else Ok (Add now (wrap64 (s * Second)))
        | None => invalid_wait "invalid duration wait"
        end
      else if negb (String.eqb (wc_Mode cfg) "until") || bool_decide (wc_Seconds cfg <> None)
              || out_of_range (wc_Weekday cfg) 1 7
      then invalid_wait "unknown wait mode"
      else match parse_clock (wc_Time cfg) with
           | Err e => Err e
           | Ok (hour, minute) =>
               match LoadLocation (wc_Timezone cfg) with
               | None => invalid_wait "unknown time zone"
               | Some loc => Ok (until_target loc now hour minute (wc_Weekday cfg))
               end
           end
  end.
End Wait.

(** [uuid.NewSHA1], from github.com/google/uuid. *)
Class UUIDHash := { uuid_NewSHA1 : uuid -> string -> uuid }.
Definition stepSourceID `{UUIDHash} (enrollmentID : uuid) (nodeID : string) : uuid :=
  uuid_NewSHA1 enrollmentID nodeID.

(** ** Engine methods *)

Section EngineMethods.
Context `{UnicodeTables, UUIDLib, ZoneDB, UUIDHash} {Tx : Type} (eng : Engine Tx) (store : StepStore Tx).

Abbreviation outcome := (AdvanceOutcome * option error)%type.

Definition recordAndStop (record : StepRecord) (out : AdvanceOutcome) (tx : Tx) : Tx * outcome :=
  match store_Record store record tx with
  | (tx', Err err) => (tx', (out, Some err))
  | (tx', Ok false) => (tx', (set_lease_lost out, Some ErrLostFence))
  | (tx', Ok true) => (tx', (set_status (rec_Status record) out, None))
  end.

Definition max_attempts : Z :=
  if (eng_MaxNodeAttempts eng <=? 0)%Z then DefaultMaxNodeAttempts else eng_MaxNodeAttempts eng.

Definition fail (enrollment : Enrollment) (out : AdvanceOutcome) (cause : error) (now : time) (tx : Tx)
  : Tx * outcome :=
  let terminal := is_invalid_reference cause || (max_attempts <=? enr_NodeAttempts enrollment + 1)%Z in
  let failure := {| fail_EnrollmentID := enr_ID enrollment;
                    fail_ClaimGeneration := enr_ClaimGeneration enrollment;
                    fail_Error := Error cause; fail_Terminal := terminal;
                    fail_RetryAt := Add now (retryDelay (enr_NodeAttempts enrollment)) |} in
  match store_Fail store failure tx with
  | (tx', Err err) => (tx', (out, Some err))
  | (tx', Ok false) => (tx', (set_lease_lost out, Some ErrLostFence))
  | (tx', Ok true) =>
      let out := set_last_error (Error cause) out in
      (tx', (if terminal then set_status "errored" out else out, None))
  end.

Definition snapshot (subscriberID : uuid) (tx : Tx) : Tx * result error SubscriberSnapshot :=
  match dep_Subscribers (eng_Deps eng) with
  | None => (tx, Err (NewError "subscriber reader is not configured"))
  | Some r => Snapshot r subscriberID tx
  end.

Definition evaluateEngagement (enrollment : Enrollment) (kind : string) (pred : raw) (tx : Tx)
  : Tx * result error bool :=
  match decodeConfig clickedPredicate_fields pred engagementPredicate_zero with
  | None => (tx, Err (Wrap "invalid engagement predicate" ErrInvalidReference))
  | Some p =>
      match store_Delivery store (enr_ID enrollment) (ep_NodeID p) tx with
      | (tx', Err err) => (tx', Err err)
      | (tx', Ok None) => (tx', Ok false)
      | (tx', Ok (Some deliveryID)) =>
          match dep_Engagement (eng_Deps eng) with
          | None => (tx', Err (NewError "engagement reader is not configured"))
          | Some r =>
              match Engagement r deliveryID tx' with
              | (tx'', Err err) => (tx'', Err err)
              | (tx'', Ok engagement) =>
                  if String.eqb kind "opened_email" then (tx'', Ok (eng_Opened engagement))
                  else match ep_URL p with
                       | None => (tx'', Ok (negb (bool_decide (eng_ClickedURLs engagement = []))))
                       | Some u => (tx'', Ok (existsb (String.eqb u) (eng_ClickedURLs engagement)))
                       end
              end
          end
      end
  end.

Definition evaluateCondition (enrollment : Enrollment) (r : raw) (evaluationTime : time) (tx : Tx)
  : Tx * result error bool :=
  match decodeConfig conditionConfig_fields r None with
  | None => (tx, Err (Wrap "invalid condition config" ErrInvalidReference))
  | Some pred =>
  match Unmarshal kind_fields pred "" with
  | None => (tx, Err (Wrap "invalid condition predicate" ErrInvalidReference))
  | Some kind =>
      if String.eqb kind "opened_email" || String.eqb kind "clicked_link" then
        evaluateEngagement enrollment kind pred tx
      else if String.eqb kind "has_tag" then
        match decodeConfig tagPredicate_fields pred tagPredicate_zero with
        | None => (tx, Err (Wrap "invalid tag predicate" ErrInvalidReference))
        | Some p =>
            match snapshot (enr_SubscriberID enrollment) tx with
            | (tx', Err err) => (tx', Err err)
            | (tx', Ok snap) => (tx', Ok (existsb (fun tag => EqualFold tag (tp_Tag p)) (snap_Tags snap)))
            end
        end
      else if String.eqb kind "on_list" then
        match decodeConfig listPredicate_fields pred listPredicate_zero with
        | None => (tx, Err (Wrap "invalid list predicate" ErrInvalidReference))
        | Some p =>
            if N.eqb (lp_ListID p) uuid_Nil
            then (tx, Err (Wrap "invalid list predicate" ErrInvalidReference))
            else match snapshot (enr_SubscriberID enrollment) tx with
                 | (tx', Err err) => (tx', Err err)
                 | (tx', Ok snap) =>
                     match dep_Subscribers (eng_Deps eng) with
                     | Some rd => ActiveOnList rd (enr_BusinessID enrollment) (snap_Email snap) (lp_ListID p) tx'
                     | None => (tx', Err (NewError "subscriber reader is not configured"))
                     end
                 end
        end
      else if String.eqb kind "event_received" then
        match decodeConfig eventPredicate_fields pred eventPredicate_zero with
        | None => (tx, Err (Wrap "invalid event predicate" ErrInvalidReference))
        | Some p =>
            match snapshot (enr_SubscriberID enrollment) tx with
            | (tx', Err err) => (tx', Err err)
            | (tx', Ok snap) =>
                store_EventExists store (enr_BusinessID enrollment) (snap_ListID snap) (snap_Email snap)
                  (evp_Name p) (enr_EnrolledAt enrollment) evaluationTime
                  (option_map (fun s => wrap64 (s * Second)) (evp_WithinSeconds p)) tx'
            end
        end
      else (tx, Err (Wrap ("unknown condition predicate " +:+ Quote kind) ErrInvalidReference))
  end
  end.

(** One case of the switch in [Advance] either returns from [Advance] or leaves
    a step record to be stored and the node to go to. *)
Inductive nodeStep : Type :=
| Return (o : outcome)
| Store (record : StepRecord) (next : string).

Definition new_record (enrollment : Enrollment) (node : Node) (next : string) (now : time)
    (result : string) (status : string) : StepRecord :=
  {| rec_EnrollmentID := enr_ID enrollment; rec_ClaimGeneration := enr_ClaimGeneration enrollment;
     rec_NodeID := node_ID node; rec_NodeKind := node_Kind node; rec_Outcome := result;
     rec_NextNodeID := stringPointer next; rec_WakeAt := None; rec_Status := status;
     rec_DeliveryID := None; rec_Detail := NoDetail; rec_RecordedAt := now |}.

Definition status_after (next : string) : string := if String.eqb next "" then "completed" else "active".

(** The record of a node whose subscriber is no longer active. *)
Definition exit_record (enrollment : Enrollment) (node : Node) (now : time) (reason : string) : StepRecord :=
  {| rec_EnrollmentID := enr_ID enrollment; rec_ClaimGeneration := enr_ClaimGeneration enrollment;
     rec_NodeID := node_ID node; rec_NodeKind := node_Kind node; rec_Outcome := "exited";
     rec_NextNodeID := None; rec_WakeAt := None; rec_Status := "exited";
     rec_DeliveryID := None; rec_Detail := ReasonDetail reason; rec_RecordedAt := now |}.

Definition returning (r : Tx * outcome) : Tx * nodeStep := (fst r, Return (snd r)).

Definition step_send (enrollment : Enrollment) (node : Node) (next : string) (now : time)
    (out : AdvanceOutcome) (tx : Tx) : Tx * nodeStep :=
  match snapshot (enr_SubscriberID enrollment) tx with
  | (tx, Err err) => returning (fail enrollment out err now tx)
  | (tx, Ok snap) =>
      if negb (String.eqb (snap_Status snap) "active") then
        returning (recordAndStop (exit_record enrollment node now (snap_Status snap)) out tx)
      else
        let invalid := returning (fail enrollment out
                         (Wrap "invalid send_email config" ErrInvalidReference) now tx) in
        match decodeConfig sendConfig_fields (node_Config node) sendConfig_zero with
        | Some {| sc_TemplateID := template; sc_TrackOpens := Some opens; sc_TrackClicks := Some clicks |} =>
            if N.eqb template uuid_Nil then invalid else
            match dep_Sender (eng_Deps eng) with
            | None => returning (fail enrollment out (NewError "message sender is not configured") now tx)
            | Some sender =>
                let spec := {| msg_BusinessID := enr_BusinessID enrollment;
                               msg_TenantRootID := enr_TenantRootID enrollment;
                               msg_SubscriberID := enr_SubscriberID enrollment;
                               msg_TemplateID := template; msg_EnrollmentID := enr_ID enrollment;
                               msg_ClaimGeneration := enr_ClaimGeneration enrollment;
                               msg_TrackOpens := opens; msg_TrackClicks := clicks;
                               msg_SourceKind := "automation";
                               msg_SourceID := stepSourceID (enr_ID enrollment) (node_ID node);
                               msg_NotBefore := now |} in
                match Enqueue sender spec tx with
                | (tx, Err err) =>
                    if is_lost_fence err then (tx, Return (out, Some err))
                    else returning (fail enrollment out err now tx)
                | (tx, Ok deliveryID) =>
                    let r := new_record enrollment node next now "sent" (status_after next) in
                    (tx, Store {| rec_EnrollmentID := rec_EnrollmentID r;
                                  rec_ClaimGeneration := rec_ClaimGeneration r;
                                  rec_NodeID := rec_NodeID r; rec_NodeKind := rec_NodeKind r;
                                  rec_Outcome := rec_Outcome r; rec_NextNodeID := rec_NextNodeID r;
                                  rec_WakeAt := rec_WakeAt r; rec_Status := rec_Status r;
                                  rec_DeliveryID := Some deliveryID; rec_Detail := rec_Detail r;
                                  rec_RecordedAt := rec_RecordedAt r |} next)
                end
            end
        | _ => invalid
        end
  end.

Definition step_wait (enrollment : Enrollment) (node : Node) (next : string) (now : time)
    (out : AdvanceOutcome) (tx : Tx) : Tx * nodeStep :=
  match store_Waiting store (enr_ID enrollment) (node_ID node) tx with
  | (tx, Err err) => returning (fail enrollment out err now tx)
  | (tx, Ok true) => (tx, Store (new_record enrollment node next now "advanced" (status_after next)) next)
  | (tx, Ok false) =>
      match waitUntil (node_Config node) now with
      | Err err =>
          returning (fail enrollment out
            (Wrap ("invalid wait config: " +:+ Error err) ErrInvalidReference) now tx)
      | Ok wakeAt =>
          let record := {| rec_EnrollmentID := enr_ID enrollment;
                           rec_ClaimGeneration := enr_ClaimGeneration enrollment;
                           rec_NodeID := node_ID node; rec_NodeKind := node_Kind node;
                           rec_Outcome := "waiting"; rec_NextNodeID := None; rec_WakeAt := Some wakeAt;
                           rec_Status := "active"; rec_DeliveryID := None;
                           rec_Detail := WakeDetail wakeAt; rec_RecordedAt := now |} in
          match recordAndStop record out tx with
          | (tx, (res, err)) =>
              (tx, Return (set_parked (bool_decide (err = None) && negb (out_LeaseLost res)) res, err))
          end
      end
  end.

Definition step_condition (enrollment : Enrollment) (node : Node) (outs : list Edge) (now : time)
    (out : AdvanceOutcome) (tx : Tx) : Tx * nodeStep :=
  match evaluateCondition enrollment (node_Config node) now tx with
  | (tx, Err err) => returning (fail enrollment out err now tx)
  | (tx, Ok yes) =>
      let branch := if yes then "yes" else "no" in
      let next := nextNode outs branch in
      (tx, Store (new_record enrollment node next now
                    (if yes then "branch_yes" else "branch_no") (status_after next)) next)
  end.

Definition step_tag (enrollment : Enrollment) (node : Node) (next : string) (now : time)
    (out : AdvanceOutcome) (tx : Tx) : Tx * nodeStep :=
  let advanced := Store (new_record enrollment node next now "advanced" (status_after next)) next in
  let invalid := returning (fail enrollment out
                   (Wrap ("invalid " +:+ node_Kind node +:+ " config") ErrInvalidReference) now tx) in
  match decodeConfig tagConfig_fields (node_Config node) "" with
  | None => invalid
  | Some tag =>
      if String.eqb (TrimSpace tag) "" then invalid else
      match dep_Tagger (eng_Deps eng) with
      | None => returning (fail enrollment out (NewError "tagger is not configured") now tx)
      | Some tagger =>
          let after (r : Tx * result error unit) :=
            match r with
            | (tx, Err err) => if is_lost_fence err then (tx, Return (out, Some err))
                               else returning (fail enrollment out err now tx)
            | (tx, Ok _) => (tx, advanced)
            end in
          if String.eqb (node_Kind node) "add_tag" then
            match snapshot (enr_SubscriberID enrollment) tx with
            | (tx, Err err) => returning (fail enrollment out err now tx)
            | (tx, Ok snap) =>
                if negb (String.eqb (snap_Status snap) "active") then
                  returning (recordAndStop (exit_record enrollment node now (snap_Status snap)) out tx)
                else after (AddTag tagger (enr_BusinessID enrollment) (enr_TenantRootID enrollment)
                              (enr_SubscriberID enrollment) (enr_ID enrollment)
                              (enr_ClaimGeneration enrollment) tag tx)
            end
          else after (RemoveTag tagger (enr_BusinessID enrollment) (enr_TenantRootID enrollment)
                        (enr_SubscriberID enrollment) (enr_ID enrollment)
                        (enr_ClaimGeneration enrollment) tag tx)
      end
  end.

(** The switch on the node kind. *)
Definition step_node (enrollment : Enrollment) (node : Node) (outs : list Edge) (now : time)
    (out : AdvanceOutcome) (tx : Tx) : Tx * nodeStep :=
  let next := nextNode outs "" in
  let kind := node_Kind node in
  if String.eqb kind "trigger" then
    (tx, Store (new_record enrollment node next now "advanced" (status_after next)) next)
  else if String.eqb kind "send_email" then step_send enrollment node next now out tx
  else if String.eqb kind "wait" then step_wait enrollment node next now out tx
  else if String.eqb kind "condition" then step_condition enrollment node outs now out tx
  else if String.eqb kind "add_tag" || String.eqb kind "remove_tag" then
    step_tag enrollment node next now out tx
  else if String.eqb kind "exit" then
    let r := new_record enrollment node "" now "exited" "completed" in (tx, Store r next)
  else returning (fail enrollment out
         (Wrap ("unknown node kind " +:+ Quote kind) ErrInvalidReference) now tx).

(** The loop of [Advance]; [rounds] is what is left of the node limit. *)
Fixpoint advance_loop (rounds : nat) (nodes : gmap string Node) (edges : adjacency)
    (enrollment : Enrollment) (now : time) (current : string) (out : AdvanceOutcome) (tx : Tx)
  : Tx * outcome :=
  match rounds with
  | O => (tx, (out, None))
  | S rounds' =>
      match nodes !! current with
      | None => fail enrollment out (Wrap ("graph_node_missing: " +:+ current) ErrInvalidReference) now tx
      | Some node =>
          let out := count_node out in
          match step_node enrollment node (edges_at edges (node_ID node)) now out tx with
          | (tx, Return o) => (tx, o)
          | (tx, Store record next) =>
              match store_Record store record tx with
              | (tx, Err err) => (tx, (out, Some err))
              | (tx, Ok false) => (tx, (set_lease_lost out, Some ErrLostFence))
              | (tx, Ok true) =>
                  if negb (String.eqb (rec_Status record) "active")
                  then (tx, (set_status (rec_Status record) out, None))
                  else advance_loop rounds' nodes edges (with_attempts enrollment 0) now next out tx
              end
          end
      end
  end.

End EngineMethods.

Definition start_outcome : AdvanceOutcome :=
  {| out_NodesProcessed := 0; out_Status := "active"; out_Parked := false;
     out_LeaseLost := false; out_LastError := "" |}.

(** [nodes[node.ID] = node] over the node list and [append] over the edge list. *)
Definition node_map (g : Graph) : gmap string Node :=
  fold_left (fun m n => <[node_ID n := n]> m) (graph_Nodes g) ∅.
Definition edge_map (g : Graph) : adjacency :=
  fold_left (fun m e => push_edge m (edge_From e) e) (graph_Edges g) ∅.

Definition node_limit {Tx : Type} (eng : Engine Tx) : Z :=
  if (eng_MaxNodesPerTick eng <=? 0)%Z then DefaultMaxNodesPerTick else eng_MaxNodesPerTick eng.

Definition Advance `{UnicodeTables, UUIDLib, ZoneDB, UUIDHash} {Tx : Type} (eng : Engine Tx)
    (enrollment : Enrollment) (g : Graph) (now : time) (tx : Tx) : Tx * (AdvanceOutcome * option error) :=
  match dep_Steps (eng_Deps eng) with
  | None => (tx, (start_outcome, Some (NewError "automation step store is not configured")))
  | Some store =>
      advance_loop eng store (Z.to_nat (node_limit eng)) (node_map g) (edge_map g) enrollment now
        (enr_CurrentNodeID enrollment) start_outcome tx
  end.
