(* ===== verification/Concrete.v ===== *)
(** * Concrete instances of the library parameters

    The classes that stand for code outside the repository (the Unicode
    tables, github.com/google/uuid, the time-zone database, the URL parser)
    each get a concrete instance here, so that the definitions can be run and
    the hypotheses of the theorems are shown to be satisfiable.  A UUID's text
    is its binary expansion, least significant digit first; the zone database
    knows UTC and a fixed zone one hour east of it. *)

From S2P Require Import Prelude GoStrings GoTime GoJson AutoGraph Errors AutoEngine.

Definition demo_unicode : UnicodeTables :=
  {| unicode_lower := fun s => s; unicode_fold_eq := String.eqb; unicode_quote := fun s => s |}.

(** ** UUIDs as binary numerals *)

Fixpoint positive_text (p : positive) : list ascii :=
  match p with
  | xH => ["1"%char]
  | xO q => "0"%char :: positive_text q
  | xI q => "1"%char :: positive_text q
  end.

Fixpoint parse_positive (l : list ascii) : option positive :=
  match l with
  | [] => None
  | c :: r =>
      if Ascii.eqb c "0" then option_map xO (parse_positive r)
      else if Ascii.eqb c "1" then
        match r with [] => Some xH | _ => option_map xI (parse_positive r) end
      else None
  end.

Definition uuid_text (u : uuid) : string :=
  match u with N0 => "nil" | Npos p => of_bytes (positive_text p) end.

Definition parse_uuid (s : string) : option uuid :=
  if String.eqb s "nil" then Some N0 else option_map Npos (parse_positive (bytes s)).

Lemma parse_positive_text (p : positive) : parse_positive (positive_text p) = Some p.
Proof.
  induction p as [p IH|p IH|]; simpl; rewrite ?IH; try done.
  destruct (positive_text p) eqn:He; [|done]. by destruct p.
Qed.

Lemma parse_uuid_text (u : uuid) : parse_uuid (uuid_text u) = Some u.
Proof.
  destruct u as [|p]; [done|]. unfold parse_uuid, uuid_text.
  destruct (String.eqb_spec (of_bytes (positive_text p)) "nil") as [He|_].
  - exfalso. by destruct p.
  - by rewrite bytes_of_bytes, parse_positive_text.
Qed.

Definition demo_uuid : UUIDLib :=
  {| uuid_Parse := parse_uuid; uuid_String := uuid_text; uuid_Parse_String := parse_uuid_text |}.

Definition demo_zones : ZoneDB :=
  {| LoadLocation := fun name =>
       if String.eqb name "" || String.eqb name "UTC" then Some UTC
       else if String.eqb name "Etc/GMT-1" then Some (fixed_zone 3600) else None |}.

(** Recognises the [http] and [https] schemes followed by a host. *)
Definition demo_urls : URLLib :=
  {| ParseRequestURI := fun s =>
       if HasPrefix s "http://" then Some ("http", "host")
       else if HasPrefix s "https://" then Some ("https", "host") else None |}.

Definition demo_hash : UUIDHash :=
  {| uuid_NewSHA1 := fun u s => (u + N.of_nat (String.length s))%N |}.

(** ** A drip automation

    trigger, send, wait a day, did they open it?  If not, tag them. *)

Definition demo_node (id kind : string) (config : list (string * json)) : Node :=
  {| node_ID := id; node_Kind := kind; node_Name := id; node_Config := Some (JObj config) |}.
Definition demo_edge (id from to : string) (branch : option string) : Edge :=
  {| edge_ID := id; edge_From := from; edge_To := to; edge_Branch := branch |}.

Definition demo_graph : Graph :=
  {| graph_Nodes :=
       [ demo_node "start" "trigger" [("type", JStr "list_joined"); ("list_id", JStr "1")];
         demo_node "hello" "send_email" [("template_id", JStr "01"); ("track_opens", JBool true);
                                         ("track_clicks", JBool false)];
         demo_node "pause" "wait" [("mode", JStr "duration"); ("seconds", JInt 86400)];
         demo_node "opened" "condition"
           [("predicate", JObj [("type", JStr "opened_email"); ("node_id", JStr "hello")])];
         demo_node "label" "add_tag" [("tag", JStr "cold")];
         demo_node "done" "exit" [] ];
     graph_Edges :=
       [ demo_edge "e1" "start" "hello" None; demo_edge "e2" "hello" "pause" None;
         demo_edge "e3" "pause" "opened" None; demo_edge "e4" "opened" "done" (Some "yes");
         demo_edge "e5" "opened" "label" (Some "no") ] |}.

Definition demo_refs : References :=
  {| ref_Lists := Some {[ 1%N ]}; ref_Templates := Some {[ 2%N ]} |}.
