(* ===== verification/AutoGraphFacts.v ===== *)
(** * Correctness of the graph searches and of [Validate]

    The breadth-first search computes reachability, Kahn's algorithm decides
    whether the edge relation has a cycle whatever order Go iterates over the
    node map in, and [Validate] reports no issue exactly for the graphs that
    satisfy the declarative specification [WellFormed]. *)

From S2P Require Import Prelude GoStrings GoTime GoJson AutoGraph Errors AutoEngine Concrete.

(** ** The edge relation *)

Definition edge_rel (L : list Edge) (u v : string) : Prop :=
  exists e, e ∈ L /\ edge_From e = u /\ edge_To e = v.

(** The adjacency maps list the edges of [L] by source and by target. *)
Definition lists_out (L : list Edge) (m : adjacency) : Prop :=
  forall u, edges_at m u = filter (fun e => edge_From e = u) L.
Definition lists_in (L : list Edge) (m : adjacency) : Prop :=
  forall v, edges_at m v = filter (fun e => edge_To e = v) L.

Definition cyclic (L : list Edge) : Prop := exists x, tc (edge_rel L) x x.

Lemma lists_out_edge (L : list Edge) (m : adjacency) (u v : string) :
  lists_out L m -> (exists e, e ∈ edges_at m u /\ edge_To e = v) <-> edge_rel L u v.
Proof.
  intros Hm. rewrite Hm. unfold edge_rel. split.
  - intros (e & He & Hv). apply list_elem_of_filter in He as [Hu He]. eauto.
  - intros (e & He & Hu & Hv). exists e. split; [|done]. by apply list_elem_of_filter.
Qed.

(** ** Breadth-first search *)

Lemma visit_spec (es : list Edge) (seen : gset string) (queue : list string) :
  exists new, visit es seen queue = (list_to_set new ∪ seen, queue ++ new) /\
    NoDup new /\ (forall v, v ∈ new -> v ∉ seen /\ v ∈ map edge_To es) /\
    (forall e, e ∈ es -> edge_To e ∈ (list_to_set new ∪ seen : gset string)).
Proof.
  revert seen queue. induction es as [|e es IH]; intros seen queue; simpl.
  - exists []. rewrite app_nil_r. split; [f_equal; set_solver|].
    split; [constructor|]. split; intros ? Hx; by apply not_elem_of_nil in Hx.
  - case_bool_decide as Hs.
    + destruct (IH seen queue) as (new & -> & Hnd & Hnew & Hall).
      exists new. split; [done|]. split; [done|]. split; set_solver.
    + destruct (IH ({[edge_To e]} ∪ seen) (queue ++ [edge_To e])) as (new & -> & Hnd & Hnew & Hall).
      exists (edge_To e :: new). rewrite <- app_assoc. split; [f_equal; set_solver|].
      split; [constructor; [|done]; intros Hin; apply Hnew in Hin; set_solver|].
      split; set_solver.
Qed.

(** The lists of an adjacency map together hold every edge. *)
Lemma adjacency_size (m : adjacency) (K : list Edge) :
  lists_out K m -> length K <= length (List.concat (map snd (map_to_list m))).
Proof.
  revert K. induction m as [|k es m Hk IH] using map_ind; intros K HK.
  - destruct K as [|e K]; [simpl; lia|]. specialize (HK (edge_From e)).
    unfold edges_at in HK. rewrite lookup_empty in HK. simpl in HK.
    by rewrite filter_cons_True in HK.
  - rewrite map_to_list_insert by done. simpl. rewrite length_app.
    rewrite (length_filter_split K (fun e => edge_From e = k)).
    assert (Hes : es = filter (fun e => edge_From e = k) K)
      by (rewrite <- HK; unfold edges_at; by rewrite lookup_insert_eq).
    rewrite <- Hes. apply Nat.add_le_mono_l, IH. intros u. unfold edges_at.
    destruct (decide (u = k)) as [->|Hne].
    + rewrite Hk. simpl. symmetry. apply filter_none. intros e He.
      apply list_elem_of_filter in He. naive_solver.
    + specialize (HK u). unfold edges_at in HK. rewrite lookup_insert_ne in HK by done.
      rewrite HK, list_filter_filter. apply list_filter_iff. naive_solver.
Qed.

Section BFS.
Context (L : list Edge) (m : adjacency) (root : string).
Hypothesis m_lists : lists_out L m.

Record bfs_inv (seen : gset string) (queue done : list string) : Prop := {
  bi_nodup : NoDup (done ++ queue);
  bi_seen : forall v, v ∈ seen <-> v ∈ done ++ queue;
  bi_root : root ∈ seen;
  bi_sound : forall v, v ∈ seen -> rtc (edge_rel L) root v;
  bi_closed : forall u v, u ∈ done -> edge_rel L u v -> v ∈ seen;
  bi_bound : forall v, v ∈ seen -> v ∈ root :: map edge_To L
}.

Lemma bfs_step (seen : gset string) (id : string) (queue done : list string) :
  bfs_inv seen (id :: queue) done ->
  bfs_inv (visit (edges_at m id) seen queue).1 (visit (edges_at m id) seen queue).2 (done ++ [id]).
Proof.
  intros [Hnd Hseen Hroot Hsound Hclosed Hbound].
  destruct (visit_spec (edges_at m id) seen queue) as (new & -> & Hnd' & Hnew & Hall). simpl.
  assert (Hid : id ∈ seen) by (apply Hseen; set_solver).
  assert (Hto : forall v, v ∈ map edge_To (edges_at m id) -> edge_rel L id v).
  { intros v Hv. apply (lists_out_edge L m id v m_lists).
    apply list_elem_of_fmap in Hv as (e & -> & He). eauto. }
  assert (Hass : (done ++ [id]) ++ queue ++ new = (done ++ id :: queue) ++ new)
    by (by rewrite <- !app_assoc).
  split.
  - rewrite Hass. apply NoDup_app. split; [done|]. split; [|done].
    intros v Hv Hn. apply Hnew in Hn as [Hn _]. apply Hn, Hseen, Hv.
  - intros v. rewrite Hass, elem_of_app, <- Hseen. set_solver.
  - set_solver.
  - intros v [Hv|Hv]%elem_of_union; [|by apply Hsound].
    apply elem_of_list_to_set, Hnew in Hv as [_ Hv].
    eapply rtc_r; [by apply Hsound|by apply Hto].
  - intros u v Hu Huv. apply elem_of_app in Hu as [Hu|Hu]; [specialize (Hclosed u v Hu Huv); set_solver|].
    apply list_elem_of_singleton in Hu as ->.
    apply (lists_out_edge L m id v m_lists) in Huv as (e & He & <-). by apply Hall.
  - intros v [Hv|Hv]%elem_of_union; [|by apply Hbound].
    apply elem_of_list_to_set, Hnew in Hv as [_ Hv]. right.
    destruct (Hto v Hv) as (e & He & _ & <-). by apply list_elem_of_fmap_2.
Qed.

Lemma bfs_loop_spec (fuel : nat) (seen : gset string) (queue done : list string) :
  bfs_inv seen queue done -> S (length L) <= fuel + length done ->
  exists seen' done', bfs_loop fuel m seen queue = Some seen' /\ bfs_inv seen' [] done'.
Proof.
  revert seen queue done. induction fuel as [|fuel IH]; intros seen queue done Hinv Hfuel.
  - destruct queue as [|id queue]; simpl; [eauto|]. exfalso.
    destruct Hinv as [Hnd Hseen _ _ _ Hbound].
    assert (Hsub : done ++ id :: queue ⊆+ root :: map edge_To L).
    { apply NoDup_submseteq; [done|]. intros v Hv. by apply Hbound, Hseen. }
    apply submseteq_length in Hsub. rewrite length_app in Hsub. simpl in Hsub.
    rewrite length_map in Hsub. lia.
  - destruct queue as [|id queue]; simpl; [eauto|].
    apply bfs_step in Hinv. destruct (visit (edges_at m id) seen queue) as [seen' queue'].
    apply (IH seen' queue' (done ++ [id])); [done|]. rewrite length_app. simpl. lia.
Qed.

Lemma bfs_init : bfs_inv {[root]} [root] [].
Proof.
  split; simpl.
  - apply NoDup_singleton.
  - set_solver.
  - set_solver.
  - intros v ->%elem_of_singleton. apply rtc_refl.
  - intros u v Hu. by apply not_elem_of_nil in Hu.
  - set_solver.
Qed.

End BFS.

(** [reachableFrom] never runs out of fuel and computes reachability. *)
Lemma reachableFrom_spec (L : list Edge) (m : adjacency) (root v : string) :
  lists_out L m -> v ∈ reachableFrom root m <-> rtc (edge_rel L) root v.
Proof.
  intros Hm. unfold reachableFrom.
  destruct (bfs_loop_spec L m root Hm (bfs_fuel m) {[root]} [root] []) as (seen & done & -> & Hinv).
  { by eapply bfs_init. }
  { simpl. unfold bfs_fuel. pose proof (adjacency_size m L Hm). lia. }
  simpl. destruct Hinv as [_ Hseen Hroot Hsound Hclosed _]. split; [apply Hsound|].
  revert v. apply rtc_ind_r; [done|]. intros w v Hw Hwv IH.
  apply (Hclosed w); [|done]. apply Hseen in IH. by rewrite app_nil_r in IH.
Qed.

Lemma bfs_total (L : list Edge) (m : adjacency) (root : string) :
  lists_out L m -> is_Some (bfs_loop (bfs_fuel m) m {[root]} [root]).
Proof.
  intros Hm.
  destruct (bfs_loop_spec L m root Hm (bfs_fuel m) {[root]} [root] []) as (seen & done & -> & Hinv).
  { by eapply bfs_init. }
  { simpl. unfold bfs_fuel. pose proof (adjacency_size m L Hm). lia. }
  eauto.
Qed.

(** ** Kahn's algorithm *)

(** The number of edges of a list that enter [v]. *)
Definition count_to (v : string) (es : list Edge) : Z :=
  Z.of_nat (length (filter (fun e => edge_To e = v) es)).

Definition deg (degree : gmap string Z) (v : string) : Z := default 0%Z (degree !! v).

Lemma count_to_cons (v : string) (e : Edge) (es : list Edge) :
  count_to v (e :: es) = ((if decide (edge_To e = v) then 1 else 0) + count_to v es)%Z.
Proof.
  unfold count_to. case_decide.
  - rewrite filter_cons_True by done. simpl length. lia.
  - rewrite filter_cons_False by done. lia.
Qed.

Lemma count_to_nonneg (v : string) (es : list Edge) : (0 <= count_to v es)%Z.
Proof. unfold count_to. lia. Qed.

Lemma deg_insert (degree : gmap string Z) (k v : string) (z : Z) :
  deg (<[k := z]> degree) v = if decide (k = v) then z else deg degree v.
Proof. unfold deg. rewrite lookup_insert. by case_decide. Qed.

(** Relaxing decrements each degree by the number of edges that enter the node
    and queues exactly the nodes whose degree passes through zero. *)
Lemma relax_spec (es : list Edge) (degree : gmap string Z) (queue : list string) :
  exists degree' new, relax es degree queue = (degree', queue ++ new) /\
    (forall v, deg degree' v = (deg degree v - count_to v es)%Z) /\
    NoDup new /\ (forall v, v ∈ new <-> (1 <= deg degree v <= count_to v es)%Z).
Proof.
  revert degree queue. induction es as [|e es IH]; intros degree queue; simpl.
  - exists degree, []. rewrite app_nil_r. split; [done|]. split; [intros v; unfold count_to; simpl; lia|].
    split; [constructor|]. intros v. unfold count_to. simpl. rewrite elem_of_nil. lia.
  - set (d := (default 0 (degree !! edge_To e) - 1)%Z).
    set (q := if (d =? 0)%Z then queue ++ [edge_To e] else queue).
    destruct (IH (<[edge_To e := d]> degree) q) as (degree' & new & -> & Hdeg & Hnd & Hnew).
    setoid_rewrite deg_insert in Hdeg. setoid_rewrite deg_insert in Hnew.
    exists degree', ((if (d =? 0)%Z then [edge_To e] else []) ++ new).
    assert (Hd : d = (deg degree (edge_To e) - 1)%Z) by done.
    split; [|split; [|split]].
    + unfold q. destruct (d =? 0)%Z; [by rewrite <- app_assoc|done].
    + intros v. rewrite Hdeg, count_to_cons. case_decide; subst; lia.
    + destruct (Z.eqb_spec d 0) as [Hz|Hz]; [|done]. simpl. constructor; [|done].
      rewrite Hnew. rewrite decide_True by done. lia.
    + intros v. rewrite elem_of_app, Hnew, count_to_cons.
      pose proof (count_to_nonneg v es). destruct (Z.eqb_spec d 0) as [Hz|Hz].
      * rewrite list_elem_of_singleton. case_decide as Hv; [subst v|]; [|naive_solver lia].
        split; [intros _|naive_solver]. lia.
      * rewrite elem_of_nil. case_decide as Hv; [subst v|naive_solver lia].
        split; [naive_solver lia|]. intros ?. right. lia.
Qed.

Section Kahn.
Context (L : list Edge) (outgoing incoming : adjacency) (order : list string).
Hypothesis out_lists : lists_out L outgoing.
Hypothesis in_lists : lists_in L incoming.
Hypothesis order_nodup : NoDup order.
Hypothesis ends_known : forall e, e ∈ L -> edge_From e ∈ order /\ edge_To e ∈ order.

(** The edges into [v] whose source has not been dequeued yet. *)
Definition pending (P : list string) (v : string) : Z :=
  count_to v (filter (fun e => edge_From e ∉ P) L).

Lemma pending_zero (P : list string) (v : string) :
  pending P v = 0%Z <-> (forall u, edge_rel L u v -> u ∈ P).
Proof.
  unfold pending, count_to. rewrite list_filter_filter. split.
  - intros Hz u (e & He & Hu & Hv).
    assert (Hn : filter (fun e => edge_To e = v /\ edge_From e ∉ P) L = [])
      by (apply length_zero_iff_nil; lia).
    destruct (decide (u ∈ P)) as [|Hin]; [done|].
    exfalso. eapply (proj1 (filter_nil_iff _ _) Hn e); [done|]. by subst.
  - intros Hu. rewrite filter_none; [done|]. intros e He [Hv Hf]. apply Hf, Hu. by exists e.
Qed.

Lemma pending_snoc (P : list string) (id v : string) :
  id ∉ P -> pending (P ++ [id]) v = (pending P v - count_to v (edges_at outgoing id))%Z.
Proof.
  intros Hid. unfold pending, count_to. rewrite out_lists, !list_filter_filter.
  rewrite (length_filter_split (filter (fun e => edge_To e = v /\ edge_From e ∉ P) L)
             (fun e => edge_From e = id)).
  rewrite !list_filter_filter.
  assert (H1 : filter (fun a => edge_From a = id /\ edge_To a = v /\ edge_From a ∉ P) L
             = filter (fun a => edge_To a = v /\ edge_From a = id) L)
    by (apply list_filter_iff; naive_solver).
  assert (H2 : filter (fun a => ~ edge_From a = id /\ edge_To a = v /\ edge_From a ∉ P) L
             = filter (fun a => edge_To a = v /\ edge_From a ∉ P ++ [id]) L)
    by (apply list_filter_iff; intros e; rewrite not_elem_of_app, list_elem_of_singleton; naive_solver).
  rewrite H1, H2. lia.
Qed.

Record kahn_inv (degree : gmap string Z) (queue P : list string) : Prop := {
  ki_nodup : NoDup (P ++ queue);
  ki_known : forall v, v ∈ P ++ queue -> v ∈ order;
  ki_degree : forall v, v ∈ order -> deg degree v = pending P v;
  ki_zero : forall v, v ∈ order -> v ∈ P ++ queue <-> pending P v = 0%Z;
  ki_topo : forall P1 v P2, P = P1 ++ v :: P2 -> forall u, edge_rel L u v -> u ∈ P1
}.

Lemma kahn_step (degree : gmap string Z) (id : string) (queue P : list string) :
  kahn_inv degree (id :: queue) P ->
  kahn_inv (relax (edges_at outgoing id) degree queue).1
           (relax (edges_at outgoing id) degree queue).2 (P ++ [id]).
Proof.
  intros [Hnd Hknown Hdegree Hzero Htopo].
  destruct (relax_spec (edges_at outgoing id) degree queue) as (degree' & new & -> & Hdeg & Hnd' & Hnew).
  simpl. assert (HidP : id ∉ P) by (apply NoDup_app in Hnd as (_ & Hd & _); intros Hin;
    apply (Hd id Hin); by left).
  assert (Hass : (P ++ [id]) ++ queue ++ new = (P ++ id :: queue) ++ new) by (by rewrite <- !app_assoc).
  assert (Hin : forall v, (1 <= deg degree v <= count_to v (edges_at outgoing id))%Z -> v ∈ order).
  { intros v Hv. destruct (edges_at outgoing id) as [|e0 es0] eqn:He; [unfold count_to in Hv; simpl in Hv; lia|].
    assert (Hex : exists e, e ∈ edges_at outgoing id /\ edge_To e = v).
    { rewrite He. unfold count_to in Hv.
      destruct (filter (fun e => edge_To e = v) (e0 :: es0)) as [|e l] eqn:Hf; [simpl in Hv; lia|].
      exists e. assert (He' : e ∈ filter (fun e => edge_To e = v) (e0 :: es0)) by (rewrite Hf; left).
      by apply list_elem_of_filter in He' as [? ?]. }
    apply (lists_out_edge L outgoing id v out_lists) in Hex as (e & HeL & _ & <-). by apply ends_known. }
  split.
  - rewrite Hass. apply NoDup_app. split; [done|]. split; [|done].
    intros v Hv Hn. apply Hnew in Hn as Hn'. apply Hzero in Hv; [|by apply Hin].
    rewrite <- Hdegree in Hv by (by apply Hin). lia.
  - intros v. rewrite Hass, elem_of_app. intros [Hv|Hv]; [by apply Hknown|]. apply Hin. by apply Hnew.
  - intros v Hv. rewrite Hdeg, pending_snoc by done. rewrite Hdegree by done. done.
  - intros v Hv. rewrite Hass, elem_of_app, Hzero, Hnew, Hdegree, pending_snoc by done.
    assert (Hpos : (0 <= pending (P ++ [id]) v)%Z) by apply count_to_nonneg.
    rewrite pending_snoc in Hpos by done.
    pose proof (count_to_nonneg v (edges_at outgoing id)). lia.
  - intros P1 v P2 HP u Huv. destruct P2 as [|w P2'] using rev_ind.
    + apply app_inj_tail in HP as [<- <-].
      assert (Hv : id ∈ order) by (apply Hknown; rewrite elem_of_app; right; left).
      assert (Hz : pending P id = 0%Z) by (apply Hzero; [done|]; rewrite elem_of_app; right; left).
      by apply (proj1 (pending_zero P id) Hz).
    + rewrite app_comm_cons, app_assoc in HP. apply app_inj_tail in HP as [HP _]. eauto.
Qed.

Lemma kahn_loop_spec (fuel : nat) (degree : gmap string Z) (queue P : list string) :
  kahn_inv degree queue P -> length order = fuel + length P ->
  exists degree' P', kahn_loop fuel outgoing degree queue (Z.of_nat (length P)) =
                     Some (Z.of_nat (length P')) /\ kahn_inv degree' [] P'.
Proof.
  revert degree queue P. induction fuel as [|fuel IH]; intros degree queue P Hinv Hfuel.
  - destruct queue as [|id queue]; simpl; [eauto|]. exfalso. destruct Hinv as [Hnd Hknown _ _ _].
    apply nodup_length_le in Hknown; [|done]. rewrite length_app in Hknown. simpl in Hknown. lia.
  - destruct queue as [|id queue]; simpl; [eauto|].
    apply kahn_step in Hinv. destruct (relax (edges_at outgoing id) degree queue) as [degree' queue'].
    destruct (IH degree' queue' (P ++ [id]) Hinv) as (d & P' & Hl & HP').
    { rewrite length_app. simpl. lia. }
    exists d, P'. split; [|done]. rewrite <- Hl. f_equal. rewrite length_app. simpl. lia.
Qed.

Lemma kahn_init :
  kahn_inv (list_to_map (map (fun id => (id, in_degree incoming id)) order))
           (List.filter (fun id => (in_degree incoming id =? 0)%Z) order) [].
Proof.
  assert (Hfil : forall l, List.filter (fun id => (in_degree incoming id =? 0)%Z) l
                         = filter (fun id => in_degree incoming id = 0%Z) l).
  { intros l. induction l as [|a l IH]; [done|]. simpl.
    destruct (Z.eqb_spec (in_degree incoming a) 0).
    - rewrite filter_cons_True by done. by f_equal.
    - by rewrite filter_cons_False. }
  assert (Hpend : forall v, pending [] v = in_degree incoming v).
  { intros v. unfold pending, in_degree, count_to. rewrite in_lists, list_filter_filter.
    do 2 f_equal. apply list_filter_iff. intros e. rewrite elem_of_nil. naive_solver. }
  rewrite Hfil. split; simpl.
  - by apply NoDup_filter.
  - intros v Hv. by apply list_elem_of_filter in Hv as [_ Hv].
  - intros v Hv. rewrite Hpend. unfold deg.
    rewrite (elem_of_list_to_map_1 _ v (in_degree incoming v)); [done| |].
    + rewrite <- list_fmap_compose. simpl. by rewrite list_fmap_id.
    + apply list_elem_of_fmap. eauto.
  - intros v Hv. rewrite list_elem_of_filter, Hpend. naive_solver.
  - intros P1 v P2 HP. by destruct P1.
Qed.

(** A set of nodes closed under "all predecessors are in it", listed in
    topological order, has no cycle. *)
Lemma topo_no_cycle (P : list string) :
  NoDup P -> (forall P1 v P2, P = P1 ++ v :: P2 -> forall u, edge_rel L u v -> u ∈ P1) ->
  forall u v P1 P2, tc (edge_rel L) u v -> P = P1 ++ v :: P2 -> u ∈ P1.
Proof.
  intros Hnd Htopo u v P1 P2 Huv. revert P1 P2.
  induction Huv as [u v Huv|u w v Huw Hwv IH]; intros P1 P2 HP; [by eapply Htopo|].
  specialize (IH P1 P2 HP). apply list_elem_of_split in IH as (A & B & ->).
  assert (Hu : u ∈ A).
  { eapply (Htopo A w (B ++ v :: P2)); [|done]. by rewrite HP, <- app_assoc. }
  set_solver.
Qed.

(** Cyclicity is decidable: some edge's target reaches its source. *)
Lemma cyclic_dec : Decision (cyclic L).
Proof using out_lists.
  destruct (decide (Exists (fun e => edge_From e ∈ reachableFrom (edge_To e) outgoing) L)) as [He|Hn].
  - left. apply Exists_exists in He as (e & HeL & Hr). exists (edge_From e).
    apply (reachableFrom_spec L outgoing _ _ out_lists) in Hr.
    eapply tc_rtc_r; [apply tc_once; by exists e|done].
  - right. intros [x Hx]. apply Hn, Exists_exists.
    apply tc_first_step in Hx as (y & (e & HeL & <- & <-) & Hr).
    exists e. split; [done|]. by apply (reachableFrom_spec L outgoing _ _ out_lists).
Qed.

Lemma kahn_correct :
  graphHasCycle_in_order order outgoing incoming = true <-> cyclic L.
Proof.
  unfold graphHasCycle_in_order.
  destruct (kahn_loop_spec (length order) _ _ [] kahn_init) as (d & P & Hl & [Hnd Hknown _ Hzero Htopo]).
  { simpl. lia. }
  simpl in Hl. change (Z.of_nat 0) with 0%Z in Hl. rewrite Hl. clear Hl.
  rewrite app_nil_r in *.
  rewrite negb_true_iff, Z.eqb_neq. split.
  - intros Hlen. destruct (decide (Forall (fun v => v ∈ P) order)) as [Hall|Hnall].
    { rewrite Forall_forall in Hall. apply nodup_length_le in Hknown; [|done].
      apply nodup_length_le in Hall; [|done]. lia. }
    apply not_Forall_Exists in Hnall; [|apply _]. apply Exists_exists in Hnall as (v & Hv & HvP).
    destruct cyclic_dec as [Hc|Hac]; [done|]. exfalso. apply HvP. clear HvP Hlen.
    set (R := fun x y => edge_rel L y x).
    assert (Htc : forall x y, tc R x y -> tc (edge_rel L) y x).
    { intros x y Hxy. induction Hxy as [x y Hxy|x y z Hxy Hyz IH]; [by apply tc_once|].
      eapply tc_r; [exact IH|exact Hxy]. }
    assert (Hsn : sn R v).
    { apply tc_finite_sn.
      - intros x Hx. apply Hac. exists x. by apply Htc.
      - exists order. intros x Hx. apply Htc in Hx.
        apply tc_first_step in Hx as (y & (e & He & <- & _) & _). by apply ends_known. }
    induction Hsn as [v _ IH]. apply Hzero; [done|]. apply pending_zero. intros u Huv.
    apply IH; [done|]. destruct Huv as (e & He & <- & _). by apply ends_known.
  - intros [x Hx] Hlen.
    assert (HxO : x ∈ order).
    { apply tc_first_step in Hx as (y & (e & He & <- & _) & _). by apply ends_known. }
    assert (HxP : x ∈ P).
    { assert (Hperm : P ≡ₚ order).
      { apply submseteq_length_Permutation; [by apply NoDup_submseteq|lia]. }
      by rewrite Hperm. }
    apply list_elem_of_split in HxP as (P1 & P2 & HP).
    assert (Hin : x ∈ P1) by (by eapply topo_no_cycle).
    rewrite HP in Hnd. apply NoDup_app in Hnd as (_ & Hd & _). apply (Hd x Hin). left.
Qed.
End Kahn.

(** ** What the passes of [Validate] compute *)

Definition is_trigger (n : Node) : Prop := node_Kind n = "trigger".
#[export] Instance is_trigger_dec (n : Node) : Decision (is_trigger n) := decide (node_Kind n = "trigger").

Definition edge_known (nodes : gmap string Node) (e : Edge) : Prop :=
  nodes !! edge_From e <> None /\ nodes !! edge_To e <> None.
#[export] Instance edge_known_dec (nodes : gmap string Node) (e : Edge) : Decision (edge_known nodes e).
Proof. unfold edge_known. apply _. Defined.

Section Passes.
Context `{UUIDLib, ZoneDB, URLLib} (refs : References).

(** The checks of one node that need no other node. *)
Definition node_ok (n : Node) : Prop :=
  graphIDPattern (node_ID n) = true /\ (len (node_Name n) <= 200)%Z /\
  (validateConfig n refs).1 = [].

Definition condition_refs (n : Node) : list conditionReference :=
  let ref := (validateConfig n refs).2 in
  if String.eqb ref "" then [] else [{| conditionID := node_ID n; sendNodeID := ref |}].

Lemma node_pass_snoc (ns : list Node) (n : Node) :
  node_pass refs (ns ++ [n]) = node_pass_step refs (node_pass refs ns) n.
Proof. unfold node_pass. by rewrite fold_left_app. Qed.

Lemma node_pass_nodes (ns : list Node) (id : string) :
  match np_nodes (node_pass refs ns) !! id with
  | Some n => n ∈ ns /\ node_ID n = id
  | None => id ∉ map node_ID ns
  end.
Proof.
  induction ns as [|n ns IH] using rev_ind.
  - unfold node_pass. simpl. rewrite lookup_empty. apply not_elem_of_nil.
  - rewrite node_pass_snoc. unfold node_pass_step. rewrite map_app. simpl.
    destruct (np_nodes (node_pass refs ns) !! node_ID n) as [n'|] eqn:Hn;
      destruct (validateConfig n refs) as [i4 cr]; simpl.
    + destruct (np_nodes (node_pass refs ns) !! id) as [m|] eqn:Hid; [set_solver|].
      rewrite elem_of_app, list_elem_of_singleton. intros [?| ->]; congruence.
    + rewrite lookup_insert. case_decide as He; [subst id; set_solver|].
      destruct (np_nodes (node_pass refs ns) !! id) as [m|] eqn:Hid; set_solver.
Qed.

Lemma node_pass_known (ns : list Node) (id : string) :
  np_nodes (node_pass refs ns) !! id = None <-> id ∉ map node_ID ns.
Proof.
  pose proof (node_pass_nodes ns id) as Hn.
  destruct (np_nodes (node_pass refs ns) !! id) as [n|]; [|done].
  split; [done|]. intros Hid. exfalso. apply Hid. destruct Hn as [Hin <-]. by apply list_elem_of_fmap_2.
Qed.

Lemma node_pass_triggers (ns : list Node) :
  np_triggerIDs (node_pass refs ns) = map node_ID (filter is_trigger ns).
Proof.
  induction ns as [|n ns IH] using rev_ind; [done|].
  rewrite node_pass_snoc, filter_app, map_app. unfold node_pass_step.
  destruct (np_nodes (node_pass refs ns) !! node_ID n), (validateConfig n refs) as [i4 cr]; simpl;
    rewrite IH; destruct (String.eqb_spec (node_Kind n) "trigger");
    [rewrite filter_cons_True by done|rewrite filter_cons_False by done; by rewrite app_nil_r
    |rewrite filter_cons_True by done|rewrite filter_cons_False by done; by rewrite app_nil_r]; done.
Qed.

Lemma node_pass_conditions (ns : list Node) :
  np_conditions (node_pass refs ns) = flat_map condition_refs ns.
Proof.
  induction ns as [|n ns IH] using rev_ind; [done|].
  rewrite node_pass_snoc, flat_map_app. simpl. unfold node_pass_step, condition_refs at 2.
  destruct (np_nodes (node_pass refs ns) !! node_ID n), (validateConfig n refs) as [i4 cr]; simpl;
    rewrite IH; destruct (String.eqb cr ""); by rewrite ?app_nil_r.
Qed.

Lemma node_pass_step_issues (st : nodePass) (n : Node) :
  np_issues (node_pass_step refs st n) = [] <->
  np_issues st = [] /\ node_ok n /\ np_nodes st !! node_ID n = None.
Proof.
  unfold node_pass_step, node_ok. destruct (validateConfig n refs) as [i4 cr].
  rewrite <- (Z.ltb_ge 200).
  destruct (np_nodes st !! node_ID n); simpl; rewrite !app_nil;
    destruct (graphIDPattern (node_ID n)), (200 <? len (node_Name n))%Z; naive_solver.
Qed.

Lemma node_pass_issues (ns : list Node) :
  np_issues (node_pass refs ns) = [] <-> Forall node_ok ns /\ NoDup (map node_ID ns).
Proof.
  induction ns as [|n ns IH] using rev_ind.
  { split; [by repeat constructor|done]. }
  rewrite node_pass_snoc, node_pass_step_issues, IH, node_pass_known.
  rewrite map_app, Forall_app, Forall_singleton, NoDup_app. simpl.
  setoid_rewrite list_elem_of_singleton. split.
  - intros ([Hok Hnd] & Hn & Hk). split_and!; [done|done|done| |apply NoDup_singleton].
    by intros x Hx ->.
  - intros ([Hok Hn] & Hnd & Hd & _). split_and!; [done|done|done|].
    intros Hin. by apply (Hd _ Hin).
Qed.

(** The checks of one edge that need no other edge. *)
Definition edge_ok (ids : list string) (e : Edge) : Prop :=
  graphIDPattern (edge_ID e) = true /\ edge_From e ∈ ids /\ edge_To e ∈ ids /\ edge_From e <> edge_To e.

Lemma edge_pass_snoc (nodes : gmap string Node) (es : list Edge) (e : Edge) :
  edge_pass nodes (es ++ [e]) = edge_pass_step nodes (edge_pass nodes es) e.
Proof. unfold edge_pass. by rewrite fold_left_app. Qed.

Lemma edges_at_push (m : adjacency) (k u : string) (e : Edge) :
  edges_at (push_edge m k e) u = if decide (k = u) then edges_at m u ++ [e] else edges_at m u.
Proof. unfold push_edge, edges_at. rewrite lookup_insert. case_decide; by subst. Qed.

(** Both adjacency maps list the known edges, by source and by target. *)
Lemma edge_pass_maps (nodes : gmap string Node) (es : list Edge) :
  lists_out (filter (edge_known nodes) es) (ep_outgoing (edge_pass nodes es)) /\
  lists_in (filter (edge_known nodes) es) (ep_incoming (edge_pass nodes es)).
Proof.
  induction es as [|e es [IHo IHi]] using rev_ind; [done|].
  rewrite edge_pass_snoc. unfold edge_pass_step.
  destruct (decide (edge_known nodes e)) as [Hk|Hk].
  - rewrite !bool_decide_eq_false_2 by apply Hk. simpl.
    rewrite filter_app, filter_cons_True by done.
    split; intros u; rewrite edges_at_push, filter_app; simpl; rewrite ?IHo, ?IHi; case_decide;
      [rewrite filter_cons_True by done|rewrite filter_cons_False, app_nil_r by done
      |rewrite filter_cons_True by done|rewrite filter_cons_False, app_nil_r by done]; done.
  - assert (bool_decide (nodes !! edge_From e = None) || bool_decide (nodes !! edge_To e = None) = true) as ->.
    { apply orb_true_iff. rewrite !bool_decide_eq_true. unfold edge_known in Hk.
      destruct (nodes !! edge_From e), (nodes !! edge_To e); naive_solver. }
    simpl. rewrite filter_app, filter_cons_False, app_nil_r by done. done.
Qed.

Lemma edge_pass_ids (nodes : gmap string Node) (es : list Edge) (id : string) :
  id ∈ ep_edgeIDs (edge_pass nodes es) <-> id ∈ map edge_ID es.
Proof.
  induction es as [|e es IH] using rev_ind; [unfold edge_pass; set_solver|].
  rewrite edge_pass_snoc, map_app, elem_of_app. unfold edge_pass_step. simpl.
  destruct (_ || _); simpl; set_solver.
Qed.

Lemma edge_pass_step_issues (nodes : gmap string Node) (st : edgePass) (e : Edge) :
  ep_issues (edge_pass_step nodes st e) = [] <->
  ep_issues st = [] /\ graphIDPattern (edge_ID e) = true /\ edge_ID e ∉ ep_edgeIDs st /\
  edge_known nodes e /\ edge_From e <> edge_To e.
Proof.
  unfold edge_pass_step, edge_known.
  destruct (String.eqb_spec (edge_From e) (edge_To e)), (graphIDPattern (edge_ID e));
    case_bool_decide; case_bool_decide; case_bool_decide; simpl; rewrite ?app_nil; naive_solver.
Qed.

Lemma edge_pass_issues (ns : list Node) (es : list Edge) :
  ep_issues (edge_pass (np_nodes (node_pass refs ns)) es) = [] <->
  Forall (edge_ok (map node_ID ns)) es /\ NoDup (map edge_ID es).
Proof.
  induction es as [|e es IH] using rev_ind.
  { split; [by repeat constructor|done]. }
  rewrite edge_pass_snoc, edge_pass_step_issues, IH, edge_pass_ids.
  rewrite map_app, Forall_app, Forall_singleton, NoDup_app. simpl.
  setoid_rewrite list_elem_of_singleton. unfold edge_known, edge_ok. rewrite !node_pass_known.
  rewrite !not_elem_of_dec. split.
  - intros ([Hok Hnd] & Hid & Hnew & [Hf Ht] & Hne).
    split_and!; try done; [by intros x Hx ->|apply NoDup_singleton].
  - intros ((Hok & Hid & Hf & Ht & Hne) & Hnd & Hd & _).
    split_and!; try done. intros Hin. by apply (Hd _ Hin).
Qed.
End Passes.

(** ** The specification of a valid graph *)

(** A condition has one yes edge and one no edge and nothing else; any other
    node has at most one outgoing edge, without a branch label. *)
Definition branches_ok (n : Node) (outs : list Edge) : Prop :=
  if decide (node_Kind n = "condition") then
    exists y no, outs ≡ₚ [y; no] /\ edge_Branch y = Some "yes" /\ edge_Branch no = Some "no"
  else length outs <= 1 /\ Forall (fun e => edge_Branch e = None) outs.

Definition out_edges (g : Graph) (id : string) : list Edge :=
  filter (fun e => edge_From e = id) (graph_Edges g).

Record WellFormed `{UUIDLib, ZoneDB, URLLib} (refs : References) (g : Graph) : Prop := {
  wf_size : (Z.of_nat (length (graph_Nodes g)) <= 200)%Z;
  wf_nodes : Forall (node_ok refs) (graph_Nodes g);
  wf_node_ids : NoDup (map node_ID (graph_Nodes g));
  wf_edges : Forall (edge_ok (map node_ID (graph_Nodes g))) (graph_Edges g);
  wf_edge_ids : NoDup (map edge_ID (graph_Edges g));
  wf_trigger : exists t, filter is_trigger (graph_Nodes g) = [t] /\
    (forall e, e ∈ graph_Edges g -> edge_To e <> node_ID t) /\
    (forall n, n ∈ graph_Nodes g -> rtc (edge_rel (graph_Edges g)) (node_ID t) (node_ID n));
  wf_branches : forall n, n ∈ graph_Nodes g -> branches_ok n (out_edges g (node_ID n));
  wf_acyclic : ~ cyclic (graph_Edges g);
  wf_engagement : forall n, n ∈ graph_Nodes g -> (validateConfig n refs).2 <> "" ->
    exists s, s ∈ graph_Nodes g /\ node_ID s = (validateConfig n refs).2 /\
      node_Kind s = "send_email" /\ tc (edge_rel (graph_Edges g)) (node_ID s) (node_ID n)
}.

(** *** The degree pass *)

Lemma branch_pass_counts (outs : list Edge) (issues : list Issue) (yes no : Z) :
  branch_pass outs = (issues, yes, no) ->
  (yes = Z.of_nat (length (filter (fun e => edge_Branch e = Some "yes") outs)) /\
   no = Z.of_nat (length (filter (fun e => edge_Branch e = Some "no") outs)) /\
   (issues = [] <-> Forall (fun e => edge_Branch e = Some "yes" \/ edge_Branch e = Some "no") outs))%Z.
Proof.
  revert issues yes no. induction outs as [|e outs IH]; intros issues yes no; simpl.
  { intros [= <- <- <-]. split_and!; [done|done|]. by split; [constructor|]. }
  destruct (branch_pass outs) as [[iss y] n]. destruct (IH _ _ _ eq_refl) as (-> & -> & Hiff).
  rewrite !filter_cons, Forall_cons. destruct (edge_Branch e) as [b|].
  - destruct (String.eqb_spec b "yes") as [->|Hy].
    + intros [= <- <- <-]. rewrite decide_True, decide_False by done. simpl.
      split_and!; [lia|done|naive_solver].
    + destruct (String.eqb_spec b "no") as [->|Hn].
      * intros [= <- <- <-]. rewrite decide_False, decide_True by done. simpl.
        split_and!; [done|lia|naive_solver].
      * intros [= <- <- <-]. rewrite !decide_False by congruence. split_and!; [done|done|naive_solver].
  - intros [= <- <- <-]. rewrite !decide_False by done. split_and!; [done|done|naive_solver].
Qed.

Lemma yes_no_perm (outs : list Edge) :
  Forall (fun e => edge_Branch e = Some "yes" \/ edge_Branch e = Some "no") outs /\
  length (filter (fun e => edge_Branch e = Some "yes") outs) = 1 /\
  length (filter (fun e => edge_Branch e = Some "no") outs) = 1 /\ length outs = 2 <->
  exists y no, outs ≡ₚ [y; no] /\ edge_Branch y = Some "yes" /\ edge_Branch no = Some "no".
Proof.
  split.
  - intros (Hall & Hy & Hn & Hlen). destruct outs as [|a [|b [|]]]; simpl in Hlen; try lia.
    rewrite !Forall_cons in Hall. destruct Hall as ([Ha|Ha] & [Hb|Hb] & _).
    + rewrite !filter_cons_True in Hy by done. by simpl in Hy.
    + exists a, b. by split.
    + exists b, a. split; [apply perm_swap|done].
    + rewrite !filter_cons_True in Hn by done. by simpl in Hn.
  - intros (y & no & Hp & Hy & Hn).
    assert (Hlen : forall (P : Edge -> Prop) `{!forall e, Decision (P e)},
      length (filter P outs) = length (filter P [y; no]))
      by (intros P HP; apply Permutation_length; by apply filter_Permutation).
    rewrite !Hlen. split_and!.
    + apply (Forall_Permutation _ _ (fun _ => iff_refl _) _ _ Hp). repeat constructor; naive_solver.
    + by rewrite filter_cons_True, filter_cons_False by congruence.
    + by rewrite filter_cons_False, filter_cons_True by congruence.
    + by rewrite (Permutation_length Hp).
Qed.

Lemma degree_issues_nil (m : adjacency) (n : Node) :
  degree_issues m n = [] <-> branches_ok n (edges_at m (node_ID n)).
Proof.
  unfold degree_issues, branches_ok.
  destruct (String.eqb_spec (node_Kind n) "condition") as [Hc|Hc].
  - rewrite decide_True by done. destruct (branch_pass _) as [[iss y] no] eqn:Hb.
    apply branch_pass_counts in Hb as (-> & -> & His). rewrite app_nil, His, <- yes_no_perm.
    destruct (Z.eqb_spec (Z.of_nat (length (filter (fun e => edge_Branch e = Some "yes") (edges_at m (node_ID n))))) 1),
      (Z.eqb_spec (Z.of_nat (length (filter (fun e => edge_Branch e = Some "no") (edges_at m (node_ID n))))) 1),
      (Z.eqb_spec (Z.of_nat (length (edges_at m (node_ID n)))) 2); simpl; naive_solver lia.
  - rewrite decide_False by done. rewrite app_nil, flat_map_nil, Forall_forall.
    destruct (Z.ltb_spec 1 (Z.of_nat (length (edges_at m (node_ID n))))).
    + split; [naive_solver|]. intros [? _]. lia.
    + split.
      * intros [_ Hb]. split; [lia|]. intros e He. specialize (Hb e He). by destruct (edge_Branch e).
      * intros [_ Hb]. split; [done|]. intros e He. by rewrite (Hb e He).
Qed.

(** *** The remaining checks, once every edge joins known nodes *)

Section Checks.
Context `{UUIDLib, ZoneDB, URLLib} (refs : References) (g : Graph).
Hypothesis edges_ok : Forall (edge_ok (map node_ID (graph_Nodes g))) (graph_Edges g).

Abbreviation np := (node_pass refs (graph_Nodes g)).
Abbreviation ep := (edge_pass (np_nodes np) (graph_Edges g)).

Lemma edges_known : filter (edge_known (np_nodes np)) (graph_Edges g) = graph_Edges g.
Proof.
  apply filter_all. intros e He. rewrite Forall_forall in edges_ok.
  destruct (edges_ok e He) as (_ & Hf & Ht & _). unfold edge_known.
  by rewrite !node_pass_known, !not_elem_of_dec.
Qed.

Lemma out_maps : lists_out (graph_Edges g) (ep_outgoing ep).
Proof. rewrite <- edges_known at 1. apply edge_pass_maps. Qed.

Lemma in_maps : lists_in (graph_Edges g) (ep_incoming ep).
Proof. rewrite <- edges_known at 1. apply edge_pass_maps. Qed.

Lemma elem_of_order (id : string) :
  id ∈ map fst (map_to_list (np_nodes np)) <-> id ∈ map node_ID (graph_Nodes g).
Proof.
  rewrite <- (not_elem_of_dec (map node_ID _)), <- node_pass_known. split.
  - intros Hin. apply list_elem_of_fmap in Hin as ([k n] & -> & Hk).
    apply elem_of_map_to_list in Hk. simpl. by rewrite Hk.
  - intros Hs. destruct (np_nodes np !! id) as [n|] eqn:Hn; [|done].
    apply list_elem_of_fmap. exists (id, n). split; [done|]. by apply elem_of_map_to_list.
Qed.

Lemma cycle_check :
  graphHasCycle (np_nodes np) (ep_outgoing ep) (ep_incoming ep) = false <-> ~ cyclic (graph_Edges g).
Proof.
  unfold graphHasCycle. rewrite <- not_true_iff_false.
  rewrite (kahn_correct (graph_Edges g)); [done|apply out_maps|apply in_maps| |].
  - apply NoDup_fst_map_to_list.
  - intros e He. rewrite !elem_of_order. rewrite Forall_forall in edges_ok.
    by destruct (edges_ok e He) as (_ & ? & ? & _).
Qed.

Lemma degree_check :
  flat_map (degree_issues (ep_outgoing ep)) (graph_Nodes g) = [] <->
  forall n, n ∈ graph_Nodes g -> branches_ok n (out_edges g (node_ID n)).
Proof.
  rewrite flat_map_nil. setoid_rewrite degree_issues_nil. by setoid_rewrite out_maps.
Qed.

Lemma trigger_check (t : Node) :
  trigger_issues (ep_incoming ep) (node_ID t) = [] <->
  forall e, e ∈ graph_Edges g -> edge_To e <> node_ID t.
Proof.
  unfold trigger_issues. rewrite in_maps.
  rewrite <- (filter_nil_iff (graph_Edges g) (fun e => edge_To e = node_ID t)).
  by destruct (filter _ _).
Qed.

Lemma reach_check (t : Node) :
  reachability_issues (graph_Nodes g) [node_ID t] (ep_outgoing ep) = [] <->
  forall n, n ∈ graph_Nodes g -> rtc (edge_rel (graph_Edges g)) (node_ID t) (node_ID n).
Proof.
  unfold reachability_issues. rewrite flat_map_nil.
  setoid_rewrite <- (reachableFrom_spec (graph_Edges g) _ (node_ID t) _ out_maps).
  apply forall_proper. intros n. case_bool_decide; naive_solver.
Qed.

Lemma isAncestor_spec (u v : string) :
  isAncestor u v (ep_outgoing ep) = true <-> u <> v /\ rtc (edge_rel (graph_Edges g)) u v.
Proof.
  unfold isAncestor. rewrite <- (reachableFrom_spec (graph_Edges g) _ u v out_maps).
  destruct (String.eqb_spec u v); [naive_solver|]. rewrite bool_decide_eq_true. naive_solver.
Qed.

Lemma engagement_check :
  NoDup (map node_ID (graph_Nodes g)) -> ~ cyclic (graph_Edges g) ->
  flat_map (engagement_issues (np_nodes np) (ep_outgoing ep)) (np_conditions np) = [] <->
  forall n, n ∈ graph_Nodes g -> (validateConfig n refs).2 <> "" ->
    exists s, s ∈ graph_Nodes g /\ node_ID s = (validateConfig n refs).2 /\
      node_Kind s = "send_email" /\ tc (edge_rel (graph_Edges g)) (node_ID s) (node_ID n).
Proof.
  intros Hnd Hac. rewrite node_pass_conditions, flat_map_nil.
  assert (Hone : forall n, n ∈ graph_Nodes g ->
    engagement_issues (np_nodes np) (ep_outgoing ep)
      {| conditionID := node_ID n; sendNodeID := (validateConfig n refs).2 |} = [] <->
    exists s, s ∈ graph_Nodes g /\ node_ID s = (validateConfig n refs).2 /\
      node_Kind s = "send_email" /\ tc (edge_rel (graph_Edges g)) (node_ID s) (node_ID n)).
  { intros n Hn. unfold engagement_issues. simpl.
    pose proof (node_pass_nodes refs (graph_Nodes g) (validateConfig n refs).2) as Hlook.
    destruct (np_nodes np !! (validateConfig n refs).2) as [s|].
    - destruct Hlook as [Hs Hid]. split.
      + intros Hok. exists s. destruct (String.eqb_spec (node_Kind s) "send_email") as [Hk|]; [|done].
        destruct (isAncestor _ _ _) eqn:Ha; [|done]. apply isAncestor_spec in Ha as [Hne Hr].
        rewrite Hid. split_and!; try done. apply rtc_tc in Hr as [?|?]; done.
      + intros (s' & Hs' & Hid' & Hk & Htc).
        assert (s' = s) as -> by (eapply (NoDup_map_inj node_ID); eauto; congruence).
        rewrite Hk. simpl. rewrite <- Hid.
        assert (isAncestor (node_ID s) (node_ID n) (ep_outgoing ep) = true) as ->; [|done].
        apply isAncestor_spec. split; [|by apply tc_rtc].
        intros He. apply Hac. exists (node_ID s). by rewrite He at 2.
    - split; [done|]. intros (s & Hs & Hid & _). exfalso. apply Hlook. rewrite <- Hid.
      by apply list_elem_of_fmap_2. }
  split.
  - intros Hall n Hn Hne. apply Hone; [done|]. apply Hall.
    apply list_elem_of_In, in_flat_map. exists n. split; [by apply list_elem_of_In|].
    unfold condition_refs. destruct (String.eqb_spec (validateConfig n refs).2 ""); [done|]. by left.
  - intros Hall r Hr. apply list_elem_of_In, in_flat_map in Hr as (n & Hn & Hr).
    apply list_elem_of_In in Hn. unfold condition_refs in Hr.
    destruct (String.eqb_spec (validateConfig n refs).2 ""); [done|]. destruct Hr as [<-|[]].
    apply Hone; [done|]. by apply Hall.
Qed.
End Checks.

(** ** Properties *)

Section Properties.
Context `{UUIDLib, ZoneDB, URLLib}.

Lemma single_trigger (ns : list Node) :
  Z.of_nat (length (map node_ID (filter is_trigger ns))) = 1%Z ->
  exists t, filter is_trigger ns = [t].
Proof. rewrite length_map. intros Hl. destruct (filter is_trigger ns) as [|t [|]]; simpl in Hl; [lia|eauto|lia]. Qed.

Lemma validate_iff (refs : References) (g : Graph) : Validate g refs = [] <-> WellFormed refs g.
Proof.
  unfold Validate. rewrite !app_nil, node_pass_issues, edge_pass_issues. split.
  - intros (Hsz & [Hok Hnd] & Htr & [Hed Hend] & Hdeg & Htin & Hcyc & Hreach & Heng).
    assert (Hac : ~ cyclic (graph_Edges g)).
    { apply (cycle_check refs g Hed). by destruct (graphHasCycle _ _ _) in Hcyc |- *. }
    rewrite node_pass_triggers in Htr, Htin, Hreach.
    destruct (Z.eqb_spec (Z.of_nat (length (map node_ID (filter is_trigger (graph_Nodes g))))) 1)
      as [Hone|]; [|done]. apply single_trigger in Hone as [t Ht]. rewrite Ht in *.
    split; try done.
    + destruct (Z.ltb_spec MaxNodes (Z.of_nat (length (graph_Nodes g)))); [done|]. unfold MaxNodes in *. lia.
    + exists t. split; [done|]. simpl in Htin. rewrite app_nil_r in Htin. split.
      * by apply (trigger_check refs g Hed).
      * by apply (reach_check refs g Hed).
    + by apply (degree_check refs g Hed).
    + by apply (engagement_check refs g Hed).
  - intros [Hsz Hok Hnd Hed Hend (t & Ht & Htin & Hreach) Hbr Hac Heng].
    rewrite node_pass_triggers, Ht. simpl map. split_and!; try done.
    + rewrite (proj2 (Z.ltb_ge _ _)); [done|]. unfold MaxNodes. lia.
    + by apply degree_check.
    + simpl. rewrite app_nil_r. by apply (trigger_check refs g Hed).
    + by rewrite (proj2 (cycle_check refs g Hed) Hac).
    + by apply reach_check.
    + by apply engagement_check.
Qed.
(** C1: [Validate] reports no issue exactly for the well-formed graphs: at most
    200 nodes with distinct well-formed ids, names of at most 200 bytes and valid
    configs, edges with distinct well-formed ids between existing distinct nodes, exactly one trigger, which no
    edge enters and which reaches every node, one yes and one no edge out of
    each condition and at most one unlabelled edge out of any other node, no
    cycle, and every engagement condition refers to a send_email node before it. *)
Theorem Validate_correct (refs : References) (g : Graph) :
  Validate g refs = [] <-> WellFormed refs g.
Proof. apply validate_iff. Qed.

End Properties.

(** C2: [graphHasCycle] answers whether the edge relation has a cycle, in
    whatever order Go iterates over the node map, for the adjacency maps of any
    list of edges between known nodes. *)
Theorem graphHasCycle_correct (L : list Edge) (outgoing incoming : adjacency) (order : list string) :
  lists_out L outgoing -> lists_in L incoming -> NoDup order ->
  (forall e, e ∈ L -> edge_From e ∈ order /\ edge_To e ∈ order) ->
  graphHasCycle_in_order order outgoing incoming = true <-> cyclic L.
Proof. apply kahn_correct. Qed.

(** [reachableFrom] terminates within its fuel and returns exactly the
    nodes reachable from the root along the edges. *)
Theorem reachableFrom_correct (L : list Edge) (outgoing : adjacency) (root : string) :
  lists_out L outgoing ->
  is_Some (bfs_loop (bfs_fuel outgoing) outgoing {[root]} [root]) /\
  forall v, v ∈ reachableFrom root outgoing <-> rtc (edge_rel L) root v.
Proof.
  intros Hm. split; [by apply (bfs_total L)|]. intros v. by apply reachableFrom_spec.
Qed.

(** ** Witnesses *)

#[local] Existing Instances demo_unicode demo_uuid demo_zones demo_urls.

(** The two edges of a cycle between [a] and [b], with the maps the validator
    builds for them. *)
Definition demo_cycle : list Edge := [demo_edge "e1" "a" "b" None; demo_edge "e2" "b" "a" None].
Definition demo_cycle_out : adjacency :=
  {[ "a" := [demo_edge "e1" "a" "b" None]; "b" := [demo_edge "e2" "b" "a" None] ]}.
Definition demo_cycle_in : adjacency :=
  {[ "b" := [demo_edge "e1" "a" "b" None]; "a" := [demo_edge "e2" "b" "a" None] ]}.

Lemma demo_cycle_lists_out : lists_out demo_cycle demo_cycle_out.
Proof.
  intros u. unfold demo_cycle, demo_cycle_out, edges_at.
  destruct (decide (u = "a")) as [->|Ha]; [done|]. destruct (decide (u = "b")) as [->|Hb]; [done|].
  rewrite !lookup_insert_ne, lookup_singleton_ne by congruence.
  by rewrite !filter_cons_False by (simpl; congruence).
Qed.

Lemma demo_cycle_lists_in : lists_in demo_cycle demo_cycle_in.
Proof.
  intros u. unfold demo_cycle, demo_cycle_in, edges_at.
  destruct (decide (u = "a")) as [->|Ha]; [done|]. destruct (decide (u = "b")) as [->|Hb]; [done|].
  rewrite !lookup_insert_ne, lookup_singleton_ne by congruence.
  by rewrite !filter_cons_False by (simpl; congruence).
Qed.

Lemma graphHasCycle_correct_witness : cyclic demo_cycle.
Proof.
  apply (graphHasCycle_correct demo_cycle demo_cycle_out demo_cycle_in ["b"; "a"]).
  - apply demo_cycle_lists_out.
  - apply demo_cycle_lists_in.
  - vm_decide.
  - intros e He. repeat (apply elem_of_cons in He as [->|He]; [split; set_solver|]).
    by apply not_elem_of_nil in He.
  - vm_compute. reflexivity.
Defined.

Lemma reachableFrom_correct_witness : rtc (edge_rel demo_cycle) "a" "b".
Proof.
  apply (reachableFrom_correct demo_cycle demo_cycle_out "a" demo_cycle_lists_out).
  vm_decide.
Defined.

(** The sample automation is valid. *)
Example demo_graph_valid : Validate demo_graph demo_refs = [].
Proof. vm_compute. reflexivity. Qed.
