(* ===== verification/AutoEngineFacts.v ===== *)
(** * Properties of the automation engine

    Retry delays, wake-up times, the node budget of a tick, the path an
    enrollment takes through its graph, and the agreement between validation
    and execution: a graph accepted by [Validate] is never rejected by the
    engine's own checks when it runs. *)

From S2P Require Import Prelude GoStrings GoTime GoJson AutoGraph Errors AutoEngine Concrete AutoGraphFacts.

(** ** Retry delays *)

Lemma retryDelay_closed (p : Z) :
  retryDelay p = Z.min Hour (30 * Second * 2 ^ Z.max 0 p).
Proof.
  unfold retryDelay.
  assert (Hcases : (p <= 0 \/ p = 1 \/ p = 2 \/ p = 3 \/ p = 4 \/ p = 5 \/ p = 6 \/ 7 <= p)%Z) by lia.
  destruct Hcases as [Hp|[->|[->|[->|[->|[->|[->|Hp]]]]]]]; try reflexivity.
  - assert ((if (p <? 0)%Z then 0%Z else p) = 0%Z) as -> by (destruct (Z.ltb_spec p 0); lia).
    rewrite Z.max_l by lia. reflexivity.
  - rewrite (proj2 (Z.ltb_ge p 0)) by lia. rewrite Z.max_r by lia.
    assert ((if (7 <? p)%Z then 7%Z else p) = 7%Z) as -> by (destruct (Z.ltb_spec 7 p); lia).
    assert (2 ^ 7 <= 2 ^ p)%Z by (apply Z.pow_le_mono_r; lia).
    rewrite Z.min_l; [reflexivity|]. unfold Hour, Minute, Second. lia.
Qed.

(** ** Wake-up times *)

Section Wake.
Context `{UnicodeTables, ZoneDB}.
#[local] Open Scope Z_scope.

Lemma until_target_local (loc : location) (off now h m w lo hi : Z) :
  steady loc off lo hi -> lo <= unix now - 2 * 86400 -> unix now + 9 * 86400 <= hi ->
  - 86400 <= off <= 86400 -> 0 <= h <= 23 -> 0 <= m <= 59 -> 0 <= w <= 7 ->
  let day := day_number loc now in
  let t0 := Date loc day h m 0 0 in
  let t := AddDays loc t0 w in
  t = ((day + w) * 86400 + h * 3600 + m * 60 - off) * Second /\
  day_number loc t = day + w /\ hour_of loc t = h /\ minute_of loc t = m /\ second_of loc t = 0 /\
  nanosecond t = 0.
Proof.
  intros Hst Hlo Hhi Hoff Hh Hm Hw day t0 t.
  assert (Hz : zone_offset (loc (unix now)) = off) by (apply Hst; lia).
  pose proof (local_split loc now) as Hsp. pose proof (day_seconds_bound loc now) as Hds.
  unfold local_seconds in Hsp. rewrite Hz in Hsp. fold day in Hsp.
  destruct (Date_local loc off lo hi day h m Hst) as (Ht0 & Hl0 & Hd0 & Hh0 & Hm0 & Hs0 & Hn0);
    try lia.
  fold t0 in Ht0, Hl0, Hd0, Hh0, Hm0, Hs0, Hn0.
  destruct (Date_local loc off lo hi (day + w) h m Hst) as (Ht & Hl & Hd & Hh' & Hm' & Hs & Hn);
    try lia.
  unfold t, AddDays. rewrite Hd0, Hh0, Hm0, Hs0, Hn0. by split_and!.
Qed.

(** The local clock shows [h:m:00.0], on weekday [w] (ISO, 7 is Sunday) if given. *)
Definition at_local (loc : location) (h m : Z) (weekday : option Z) (t : time) : Prop :=
  hour_of loc t = h /\ minute_of loc t = m /\ second_of loc t = 0 /\ nanosecond t = 0 /\
  match weekday with Some w => Weekday loc t = w mod 7 | None => True end.

(** [t] is the first such instant after [now]. *)
Definition next_local (loc : location) (now : time) (h m : Z) (weekday : option Z) (t : time) : Prop :=
  now < t /\ at_local loc h m weekday t /\
  forall t', now < t' -> t' < t -> ~ at_local loc h m weekday t'.

Lemma at_local_instant (loc : location) (off h m : Z) (weekday : option Z) (t : time) :
  zone_offset (loc (unix t)) = off -> at_local loc h m weekday t ->
  t = (day_number loc t * 86400 + h * 3600 + m * 60 - off) * Second.
Proof.
  intros Hz (Hh & Hm & Hs & Hn & _). unfold hour_of, minute_of, second_of, nanosecond in *.
  pose proof (local_split loc t) as Hsp. unfold local_seconds in Hsp. rewrite Hz in Hsp.
  assert (Ht : t = unix t * Second)
    by (unfold unix, Second in *; pose proof (Z.div_mod t 1000000000); lia).
  rewrite Ht at 1. f_equal. revert Hh Hm Hs. generalize (day_seconds loc t) Hsp. intros ds Hds Hh Hm Hs.
  assert (ds = h * 3600 + m * 60); [|lia]. clear Hds Hn Ht.
  Z.to_euclidean_division_equations. lia.
Qed.

Section Until.
Context (loc : location) (off lo hi now h m : Z).
Hypothesis st : steady loc off lo hi.
Hypothesis Hlo : lo <= unix now - 2 * 86400.
Hypothesis Hhi : unix now + 9 * 86400 <= hi.
Hypothesis Hoff : - 86400 <= off <= 86400.
Hypothesis Hh : 0 <= h <= 23.
Hypothesis Hm : 0 <= m <= 59.

Abbreviation day := (day_number loc now).
Abbreviation instant d := ((d * 86400 + h * 3600 + m * 60 - off) * Second).

Lemma now_in_day : (day * 86400 - off) * Second <= now < ((day + 1) * 86400 - off) * Second.
Proof using st Hlo Hhi.
  assert (Hz : zone_offset (loc (unix now)) = off) by (apply st; lia).
  pose proof (local_split loc now) as Hsp. pose proof (day_seconds_bound loc now) as Hds.
  unfold local_seconds in Hsp. rewrite Hz in Hsp. unfold unix, Second in *.
  pose proof (Z.div_mod now 1000000000). pose proof (Z.mod_pos_bound now 1000000000). lia.
Qed.

Lemma target_today : Date loc day h m 0 0 = instant day.
Proof using st Hlo Hhi Hoff Hh Hm.
  assert (Hz : zone_offset (loc (unix now)) = off) by (apply st; lia).
  pose proof (local_split loc now) as Hsp. pose proof (day_seconds_bound loc now) as Hds.
  unfold local_seconds in Hsp. rewrite Hz in Hsp.
  destruct (Date_local loc off lo hi day h m st) as (Ht & _); lia.
Qed.

Lemma at_target (w : Z) (weekday : option Z) :
  0 <= w <= 7 ->
  match weekday with Some k => (day + w + 4) mod 7 = k mod 7 | None => True end ->
  let t := AddDays loc (Date loc day h m 0 0) w in
  t = instant (day + w) /\ at_local loc h m weekday t.
Proof using st Hlo Hhi Hoff Hh Hm.
  intros Hw Hk t.
  destruct (until_target_local loc off now h m w lo hi st Hlo Hhi Hoff Hh Hm Hw)
    as (Ht & Hd & Hhh & Hmm & Hss & Hnn).
  fold t in Ht, Hd, Hhh, Hmm, Hss, Hnn. split; [done|]. unfold at_local. split_and!; try done.
  destruct weekday; [|done]. unfold Weekday. by rewrite Hd.
Qed.

(** Instants at the given clock after [now] and before [instant d] fall on
    days from today to the one before [d]. *)
Lemma earlier_match (d : Z) (weekday : option Z) (t' : time) :
  d <= day + 8 -> now < t' -> t' < instant d -> at_local loc h m weekday t' ->
  exists d', day <= d' < d /\ t' = instant d' /\
    match weekday with Some k => (d' + 4) mod 7 = k mod 7 | None => True end.
Proof using st Hlo Hhi Hoff Hh Hm.
  intros Hd Hnow Ht Hat. pose proof now_in_day as Hday.
  assert (Hz' : zone_offset (loc (unix t')) = off).
  { apply st. revert Hnow Ht Hday Hlo Hhi Hd Hoff. unfold unix, Second. intros.
    pose proof (Z.div_mod now 1000000000). pose proof (Z.mod_pos_bound now 1000000000).
    pose proof (Z.div_mod t' 1000000000). pose proof (Z.mod_pos_bound t' 1000000000). lia. }
  pose proof (at_local_instant loc off h m weekday t' Hz' Hat) as Hi.
  exists (day_number loc t'). unfold Second in *. split; [lia|]. split; [done|].
  destruct Hat as (_ & _ & _ & _ & Hw). destruct weekday; [|done]. exact Hw.
Qed.

Lemma until_target_next (weekday : option Z) :
  match weekday with Some w => 1 <= w <= 7 | None => True end ->
  next_local loc now h m weekday (until_target loc now h m weekday).
Proof using st Hlo Hhi Hoff Hh Hm.
  intros Hw. pose proof now_in_day as Hday. pose proof target_today as Htd.
  unfold until_target. destruct weekday as [w|].
  - set (days := (w mod 7 - Weekday loc now + 7) mod 7).
    assert (Hdays : 0 <= days < 7) by (apply Z.mod_pos_bound; lia).
    assert (Hmatch : forall j, (day + j + 4) mod 7 = w mod 7 <-> (j - days) mod 7 = 0).
    { intros j. unfold days, Weekday. Z.to_euclidean_division_equations. lia. }
    destruct (at_target days (Some w)) as [Ht Hat]; [lia|apply Hmatch; by rewrite Z.sub_diag|].
    unfold After. destruct (Z.ltb_spec now (AddDays loc (Date loc day h m 0 0) days)) as [Hlt|Hge].
    + split; [done|]. split; [done|]. intros t' Hn Hlt' Hat'. rewrite Ht in Hlt'.
      destruct (earlier_match (day + days) (Some w) t') as (d' & Hd' & _ & Hk); try done; [lia|].
      specialize (Hmatch (d' - day)). replace (day + (d' - day) + 4) with (d' + 4) in Hmatch by lia.
      apply Hmatch in Hk. Z.to_euclidean_division_equations. lia.
    + assert (days = 0) as Hz by (rewrite Ht in Hge; unfold Second in *; lia).
      rewrite Hz in *. replace (AddDays loc (Date loc day h m 0 0) 0) with (Date loc day h m 0 0)
        by (rewrite Ht, Htd; f_equal; lia).
      destruct (at_target 7 (Some w)) as [Ht7 Hat7]; [lia|apply Hmatch; reflexivity|].
      split; [rewrite Ht7; unfold Second in *; lia|]. split; [done|].
      intros t' Hn Hlt' Hat'. rewrite Ht7 in Hlt'.
      destruct (earlier_match (day + 7) (Some w) t') as (d' & Hd' & Hi & Hk); try done; [lia|].
      specialize (Hmatch (d' - day)). replace (day + (d' - day) + 4) with (d' + 4) in Hmatch by lia.
      apply Hmatch in Hk. assert (d' = day) as -> by (Z.to_euclidean_division_equations; lia).
      rewrite Ht in Hge. unfold Second in *. lia.
  - unfold After. destruct (at_target 0 None) as [Ht0 Hat0]; [lia|done|].
    assert (Hz : AddDays loc (Date loc day h m 0 0) 0 = Date loc day h m 0 0)
      by (rewrite Ht0, Htd; f_equal; lia).
    rewrite Hz in Hat0. destruct (Z.ltb_spec now (Date loc day h m 0 0)) as [Hlt|Hge].
    + split; [done|]. split; [done|]. intros t' Hn Hlt' Hat'. rewrite Htd in Hlt'.
      destruct (earlier_match day None t') as (d' & Hd' & _); try done; lia.
    + destruct (at_target 1 None) as [Ht1 Hat1]; [lia|done|].
      split; [rewrite Ht1; unfold Second in *; lia|]. split; [done|].
      intros t' Hn Hlt' Hat'. rewrite Ht1 in Hlt'.
      destruct (earlier_match (day + 1) None t') as (d' & Hd' & Hi & _); try done; [lia|].
      assert (d' = day) as -> by lia. rewrite Htd in Hge. lia.
Qed.
End Until.
End Wake.

(** ** Validated configs execute

    For each node kind, a config the validator accepts is one the engine's own
    decoding accepts. *)

(** Extra fields do not disturb the decoding of an object that uses none of
    them, when no extra name could be meant by one of its keys. *)
Lemma decode_members_more {S : Type} (fs gs : list (field S)) (ms : list (string * json)) (s s' : S) :
  (forall k, find_field fs k <> None -> List.find (fun f => String.eqb (field_name f) k) gs = None) ->
  decode_members true fs ms s = Some s' -> decode_members true (fs ++ gs) ms s = Some s'.
Proof.
  intros Hgs. revert s. induction ms as [|[k v] ms IH]; intros s; simpl; [done|].
  destruct (find_field fs k) as [f|] eqn:Hf; [|done].
  assert (find_field (fs ++ gs) k = Some f) as ->.
  { specialize (Hgs k). rewrite Hf in Hgs. unfold find_field in *.
    assert (Happ : forall P (l1 l2 : list (field S)), List.find P (l1 ++ l2) =
      match List.find P l1 with Some x => Some x | None => List.find P l2 end).
    { intros P l1 l2. induction l1 as [|a l1 IHl]; simpl; [done|]. by destruct (P a). }
    rewrite !Happ. destruct (List.find _ fs); [done|]. rewrite Hgs by done. by rewrite Hf. }
  destruct (field_set f v s) as [s1|]; [|done]. apply IH.
Qed.

Section Validated.
Context `{UnicodeTables, UUIDLib, ZoneDB, URLLib, UUIDHash}.

Lemma opened_as_clicked (r : raw) (p : engagementPredicate) :
  decodeConfig openedPredicate_fields r engagementPredicate_zero = Some p ->
  decodeConfig clickedPredicate_fields r engagementPredicate_zero = Some p.
Proof.
  destruct r as [[| | | | | |ms]|]; try done. simpl. unfold clickedPredicate_fields.
  apply decode_members_more. intros k Hk. cbn [List.find field_name].
  destruct (String.eqb_spec "url" k) as [<-|Hne]; [exfalso; apply Hk; vm_compute; reflexivity|done].
Qed.

Lemma digit_not (c d : ascii) : is_digit c = true -> is_digit d = false -> Ascii.eqb c d = false.
Proof. intros Hc Hd. apply Ascii.eqb_neq. intros ->. congruence. Qed.

Lemma digit_val_bound (c : ascii) : is_digit c = true -> (0 <= digit_val c <= 9)%Z.
Proof.
  unfold is_digit, in_range, digit_val. rewrite andb_true_iff, !N.leb_le. lia.
Qed.

Lemma two_digits_bound (a b : ascii) :
  is_digit a = true -> is_digit b = true -> (0 <= digits_val [a; b] <= 99)%Z.
Proof.
  intros Ha Hb. unfold digits_val. simpl fold_left.
  pose proof (digit_val_bound a Ha). pose proof (digit_val_bound b Hb). lia.
Qed.

Lemma Atoi_two_digits (a b : ascii) :
  is_digit a = true -> is_digit b = true ->
  Atoi (of_bytes [a; b]) = Some (digits_val [a; b]).
Proof.
  intros Ha Hb. unfold Atoi. rewrite bytes_of_bytes.
  rewrite !(digit_not a) by done. cbv beta iota zeta. rewrite bool_decide_eq_true_2 by done.
  simpl forallb. rewrite Ha, Hb. cbn [andb].
  pose proof (two_digits_bound a b Ha Hb) as Hr.
  unfold in_int64. rewrite (proj2 (Z.leb_le _ _)), (proj2 (Z.leb_le _ _)) by lia. done.
Qed.

(** A clock the validator accepts splits into its hour and minute. *)
Lemma parse_clock_valid (s : string) :
  validClock s = true ->
  exists h m, parse_clock s = Ok (h, m) /\ (0 <= h <= 23)%Z /\ (0 <= m <= 59)%Z.
Proof.
  unfold validClock. rewrite <- (of_bytes_bytes s). rewrite bytes_of_bytes.
  destruct (bytes s) as [|h1 [|h2 [|c [|m1 [|m2 [|]]]]]]; try done. intros Hv. to_prop.
  match goal with Hc : Ascii.eqb c ":" = true |- _ => apply Ascii.eqb_eq in Hc; subst c end.
  exists (digits_val [h1; h2]), (digits_val [m1; m2]).
  assert (0 <= digits_val [h1; h2] <= 99)%Z by (by apply two_digits_bound).
  assert (0 <= digits_val [m1; m2] <= 99)%Z by (by apply two_digits_bound).
  split; [|lia]. unfold parse_clock, Split. rewrite bytes_of_bytes. cbn [split_bytes].
  rewrite (digit_not h1), (digit_not h2), (digit_not m1), (digit_not m2) by done.
  change (Ascii.eqb ":" ":") with true. cbn [map].
  rewrite !Atoi_two_digits by done.
  rewrite (proj2 (Z.ltb_ge (digits_val [h1; h2]) 0)), (proj2 (Z.ltb_ge 23 (digits_val [h1; h2]))),
    (proj2 (Z.ltb_ge (digits_val [m1; m2]) 0)), (proj2 (Z.ltb_ge 59 (digits_val [m1; m2]))) by lia.
  done.
Qed.

Lemma validateWait_runs (n : Node) (now : time) :
  (validateWait n).1 = [] -> exists t, waitUntil (node_Config n) now = Ok t.
Proof.
  unfold validateWait, waitUntil. destruct (decodeConfig _ _ _) as [cfg|]; [|done].
  destruct (String.eqb_spec (wc_Mode cfg) "duration").
  - destruct (duration_wait_bad cfg) eqn:Hb; [done|]. intros _.
    unfold duration_wait_bad in Hb. destruct (wc_Seconds cfg); [eauto|done].
  - destruct (String.eqb_spec (wc_Mode cfg) "until"); [|done]. simpl.
    destruct (bool_decide (wc_Seconds cfg <> None)); [done|].
    destruct (out_of_range (wc_Weekday cfg) 1 7); [done|]. simpl.
    destruct (validClock (wc_Time cfg)) eqn:Hc; [|done]. simpl.
    destruct (parse_clock_valid _ Hc) as (h & m & -> & _).
    destruct (LoadLocation _); [eauto|done].
Qed.

Lemma validateSend_runs (n : Node) (refs : References) :
  (validateSend n refs).1 = [] ->
  exists template opens clicks,
    decodeConfig sendConfig_fields (node_Config n) sendConfig_zero =
      Some {| sc_TemplateID := template; sc_TrackOpens := Some opens; sc_TrackClicks := Some clicks |} /\
    N.eqb template uuid_Nil = false.
Proof.
  unfold validateSend. destruct (decodeConfig _ _ _) as [[template opens clicks]|]; [|done]. simpl.
  destruct (N.eqb template uuid_Nil) eqn:Hnil; [done|].
  destruct opens as [opens|]; [|done]. destruct clicks as [clicks|]; [|done]. eauto.
Qed.

Lemma validLabel_nonempty (s : string) (max : Z) : validLabel s max = true -> String.eqb (TrimSpace s) "" = false.
Proof. unfold validLabel. intros Hv. to_prop. done. Qed.
End Validated.

(** ** Running a graph *)

(** The lookups [Advance] builds for a graph with distinct node ids. *)
Lemma node_map_lookup (g : Graph) (id : string) :
  NoDup (map node_ID (graph_Nodes g)) ->
  match node_map g !! id with
  | Some n => n ∈ graph_Nodes g /\ node_ID n = id
  | None => id ∉ map node_ID (graph_Nodes g)
  end.
Proof.
  unfold node_map. induction (graph_Nodes g) as [|n ns IH] using rev_ind; intros Hnd.
  - simpl. rewrite lookup_empty. apply not_elem_of_nil.
  - rewrite map_app in *. rewrite fold_left_app. simpl.
    apply NoDup_app in Hnd as (Hnd & _ & _). specialize (IH Hnd).
    rewrite lookup_insert. case_decide as He; [subst id; set_solver|].
    destruct (fold_left _ ns ∅ !! id); [set_solver|]. simpl. set_solver.
Qed.

Lemma edge_map_lookup (g : Graph) (id : string) : edges_at (edge_map g) id = out_edges g id.
Proof.
  unfold edge_map, out_edges. induction (graph_Edges g) as [|e es IH] using rev_ind; [done|].
  rewrite fold_left_app, filter_app. simpl. rewrite edges_at_push, IH.
  destruct (decide (edge_From e = id)).
  - by rewrite filter_cons_True.
  - by rewrite filter_cons_False, app_nil_r.
Qed.

Lemma nextNode_edge (es : list Edge) (branch : string) :
  nextNode es branch = "" \/ exists e, e ∈ es /\ edge_To e = nextNode es branch.
Proof.
  induction es as [|e es IH]; simpl; [by left|].
  assert (Hrest : nextNode es branch = "" \/ exists e', e' ∈ e :: es /\ edge_To e' = nextNode es branch)
    by (destruct IH as [?|(e' & ? & ?)]; [by left|right; exists e'; split; [by right|done]]).
  assert (Hhead : edge_To e = "" \/ exists e', e' ∈ e :: es /\ edge_To e' = edge_To e)
    by (right; exists e; split; [by left|done]).
  destruct (_ && _); [done|]. destruct (edge_Branch e) as [b|]; [|done]. by destruct (String.eqb b branch).
Qed.

(** The successor of a node follows one of its edges. *)
Lemma next_in_graph (g : Graph) (id branch : string) :
  nextNode (edges_at (edge_map g) id) branch = "" \/
  edge_rel (graph_Edges g) id (nextNode (edges_at (edge_map g) id) branch).
Proof.
  rewrite edge_map_lookup. destruct (nextNode_edge (out_edges g id) branch) as [?|(e & He & Ht)]; [by left|].
  right. apply list_elem_of_filter in He as [Hf He]. by exists e.
Qed.

Lemma status_after_active (next : string) : status_after next = "active" -> next <> "".
Proof. unfold status_after. by destruct (String.eqb_spec next ""). Qed.

Lemma status_after_values (next : string) : status_after next = "active" \/ status_after next = "completed".
Proof. unfold status_after. destruct (String.eqb next ""); auto. Qed.

Section Running.
Context `{UnicodeTables, UUIDLib, ZoneDB, URLLib, UUIDHash} {Tx : Type}.
Context (eng : Engine Tx) (store : StepStore Tx).

(** *** What one node does

    Whatever the ports answer, a step that goes on stores a record of its own
    node, for this enrollment and claim, and follows an edge of the graph. *)

Definition record_for (enrollment : Enrollment) (node : Node) (now : time) (r : StepRecord) : Prop :=
  rec_EnrollmentID r = enr_ID enrollment /\ rec_ClaimGeneration r = enr_ClaimGeneration enrollment /\
  rec_NodeID r = node_ID node /\ rec_NodeKind r = node_Kind node /\ rec_RecordedAt r = now /\
  rec_Status r ∈ ["active"; "completed"; "exited"].

Lemma new_record_for (enrollment : Enrollment) (node : Node) (next result : string) (now : time) :
  record_for enrollment node now (new_record enrollment node next now result (status_after next)).
Proof. unfold record_for, new_record. simpl. split_and!; try done. destruct (status_after_values next) as [-> | ->]; set_solver. Qed.

Definition step_stores (g : Graph) (enrollment : Enrollment) (node : Node) (now : time)
    (s : @nodeStep) : Prop :=
  match s with
  | Return _ => True
  | Store r next => record_for enrollment node now r /\
      (rec_Status r = "active" ->
       rec_NextNodeID r = Some next /\ edge_rel (graph_Edges g) (node_ID node) next)
  end.

Lemma store_next (g : Graph) (enrollment : Enrollment) (node : Node) (branch result : string) (now : time) :
  let next := nextNode (edges_at (edge_map g) (node_ID node)) branch in
  step_stores g enrollment node now (Store (new_record enrollment node next now result (status_after next)) next).
Proof.
  intros next. split; [apply new_record_for|]. simpl. intros Hs. apply status_after_active in Hs.
  unfold stringPointer. destruct (String.eqb_spec next ""); [done|].
  split; [done|]. by destruct (next_in_graph g (node_ID node) branch).
Qed.

Lemma step_node_stores (g : Graph) (enrollment : Enrollment) (node : Node) (now : time)
    (out : AdvanceOutcome) (tx : Tx) :
  step_stores g enrollment node now
    (step_node eng store enrollment node (edges_at (edge_map g) (node_ID node)) now out tx).2.
Proof.
  pose proof (store_next g enrollment node) as Hstore.
  unfold step_node. destruct (String.eqb (node_Kind node) "trigger"); [apply Hstore|].
  destruct (String.eqb (node_Kind node) "send_email").
  { unfold step_send. destruct (snapshot _ _ _) as [tx1 [snap|]]; [|done].
    destruct (negb _); [done|]. destruct (decodeConfig _ _ _) as [[t [o|] [c|]]|]; try done.
    destruct (N.eqb _ _); [done|]. destruct (dep_Sender _); [|done].
    destruct (Enqueue _ _ _) as [tx2 [d|err]]; [|by destruct (is_lost_fence err)].
    destruct (Hstore "" "sent" now) as [Hr Hn]. split; [exact Hr|exact Hn]. }
  destruct (String.eqb (node_Kind node) "wait").
  { unfold step_wait. destruct (store_Waiting _ _ _ _) as [tx1 [[|]|]]; [apply Hstore| |done].
    destruct (waitUntil _ _); [|done]. by destruct (recordAndStop _ _ _ _) as [? [? ?]]. }
  destruct (String.eqb (node_Kind node) "condition").
  { unfold step_condition. destruct (evaluateCondition _ _ _ _ _ _) as [tx1 [yes|]]; [|done].
    apply (Hstore (if yes then "yes" else "no")). }
  destruct (_ || _).
  { unfold step_tag. destruct (decodeConfig _ _ _); [|done]. destruct (String.eqb (TrimSpace _) ""); [done|].
    destruct (dep_Tagger _); [|done]. destruct (String.eqb (node_Kind node) "add_tag").
    - destruct (snapshot _ _ _) as [tx1 [snap|]]; [|done]. destruct (negb _); [done|].
      destruct (AddTag _ _ _ _ _ _ _ _) as [tx2 [u|err]]; [apply (Hstore "")|by destruct (is_lost_fence err)].
    - destruct (RemoveTag _ _ _ _ _ _ _ _) as [tx2 [u|err]]; [apply (Hstore "")|by destruct (is_lost_fence err)]. }
  destruct (String.eqb (node_Kind node) "exit"); [|done].
  split; [|done]. unfold record_for. simpl. split_and!; try done. set_solver.
Qed.

(** *** The step log

    A ghost view of the transaction: the records the store accepted so far.
    [StepLog] is what an implementation of the ports promises about it. *)

Record StepLog (log : Tx -> list StepRecord) : Prop := {
  log_Record : forall r tx,
    match store_Record store r tx with
    | (tx', Ok true) => log tx' = log tx ++ [r]
    | (tx', _) => log tx' = log tx
    end;
  log_Fail : forall f tx, log (store_Fail store f tx).1 = log tx;
  log_Waiting : forall e n tx, log (store_Waiting store e n tx).1 = log tx;
  log_Delivery : forall e n tx, log (store_Delivery store e n tx).1 = log tx;
  log_EventExists : forall b l em nm e1 e2 w tx, log (store_EventExists store b l em nm e1 e2 w tx).1 = log tx;
  log_Subscribers : forall rd, dep_Subscribers (eng_Deps eng) = Some rd ->
    (forall s tx, log (Snapshot rd s tx).1 = log tx) /\
    (forall b em l tx, log (ActiveOnList rd b em l tx).1 = log tx);
  log_Sender : forall sd, dep_Sender (eng_Deps eng) = Some sd -> forall m tx, log (Enqueue sd m tx).1 = log tx;
  log_Engagement : forall rd, dep_Engagement (eng_Deps eng) = Some rd ->
    forall d tx, log (Engagement rd d tx).1 = log tx;
  log_Tagger : forall tg, dep_Tagger (eng_Deps eng) = Some tg ->
    (forall b t s e c tag tx, log (AddTag tg b t s e c tag tx).1 = log tx) /\
    (forall b t s e c tag tx, log (RemoveTag tg b t s e c tag tx).1 = log tx)
}.

Section Logged.
Context (log : Tx -> list StepRecord) (HL : StepLog log).

Lemma snapshot_log (s : uuid) (tx : Tx) : log (snapshot eng s tx).1 = log tx.
Proof using HL.
  unfold snapshot. destruct (dep_Subscribers (eng_Deps eng)) as [rd|] eqn:Hd; [|done].
  by apply (log_Subscribers log HL).
Qed.

Lemma fail_log (enrollment : Enrollment) (out : AdvanceOutcome) (cause : error) (now : time) (tx : Tx) :
  log (fail eng store enrollment out cause now tx).1 = log tx.
Proof using HL.
  unfold fail. set (f := {| fail_EnrollmentID := _ |}).
  pose proof (log_Fail log HL f tx) as Hf. by destruct (store_Fail store f tx) as [tx' [[|]|]].
Qed.

Lemma evaluateEngagement_log (enrollment : Enrollment) (kind : string) (pred : raw) (tx : Tx) :
  log (evaluateEngagement eng store enrollment kind pred tx).1 = log tx.
Proof using HL.
  unfold evaluateEngagement. destruct (decodeConfig _ _ _) as [p|]; [|done].
  pose proof (log_Delivery log HL (enr_ID enrollment) (ep_NodeID p) tx) as Hd.
  destruct (store_Delivery _ _ _ _) as [tx1 [[d|]|]]; [|done|done]. simpl in Hd.
  destruct (dep_Engagement (eng_Deps eng)) as [rd|] eqn:Hr; [|done].
  pose proof (log_Engagement log HL rd Hr d tx1) as He.
  destruct (Engagement rd d tx1) as [tx2 [e|]]; simpl in He; [|simpl; congruence].
  destruct (String.eqb kind "opened_email"); [simpl; congruence|]. destruct (ep_URL p); simpl; congruence.
Qed.

Lemma evaluateCondition_log (enrollment : Enrollment) (r : raw) (now : time) (tx : Tx) :
  log (evaluateCondition eng store enrollment r now tx).1 = log tx.
Proof using HL.
  unfold evaluateCondition. destruct (decodeConfig conditionConfig_fields _ _) as [pred|]; [|done].
  destruct (Unmarshal _ _ _) as [kind|]; [|done].
  destruct (_ || _); [apply evaluateEngagement_log|].
  pose proof (snapshot_log (enr_SubscriberID enrollment) tx) as Hs.
  destruct (String.eqb kind "has_tag").
  { destruct (decodeConfig _ _ _); [|done]. by destruct (snapshot _ _ _) as [tx1 [snap|]]. }
  destruct (String.eqb kind "on_list").
  { destruct (decodeConfig _ _ _) as [p|]; [|done]. destruct (N.eqb _ _); [done|].
    destruct (snapshot _ _ _) as [tx1 [snap|]]; [|done]. simpl in Hs.
    destruct (dep_Subscribers (eng_Deps eng)) as [rd|] eqn:Hd; [|done].
    by rewrite (proj2 (log_Subscribers log HL rd Hd)). }
  destruct (String.eqb kind "event_received"); [|done].
  destruct (decodeConfig _ _ _) as [p|]; [|done].
  destruct (snapshot _ _ _) as [tx1 [snap|]]; [|done]. simpl in Hs.
  by rewrite (log_EventExists log HL).
Qed.

(** The effect of one step on the log: nothing yet when a record is left to be
    stored, at most the node's own record when [Advance] returns. *)
Definition step_logged (enrollment : Enrollment) (node : Node) (now : time) (tx : Tx)
    (res : Tx * nodeStep) : Prop :=
  match res.2 with
  | Store _ _ => log res.1 = log tx
  | Return _ => log res.1 = log tx \/
      exists r, log res.1 = log tx ++ [r] /\ record_for enrollment node now r
  end.

Lemma logged_fail (enrollment : Enrollment) (node : Node) (out : AdvanceOutcome) (cause : error)
    (now : time) (tx tx0 : Tx) :
  log tx = log tx0 ->
  step_logged enrollment node now tx0 (returning (fail eng store enrollment out cause now tx)).
Proof using HL. intros Ht. left. unfold returning. simpl. by rewrite fail_log. Qed.

Lemma recordAndStop_log (enrollment : Enrollment) (node : Node) (out : AdvanceOutcome) (r : StepRecord)
    (now : time) (tx tx0 : Tx) :
  log tx = log tx0 -> record_for enrollment node now r ->
  log (recordAndStop store r out tx).1 = log tx0 \/
  exists r', log (recordAndStop store r out tx).1 = log tx0 ++ [r'] /\ record_for enrollment node now r'.
Proof using HL.
  intros Ht Hr. unfold recordAndStop. pose proof (log_Record log HL r tx) as Hrec.
  rewrite Ht in Hrec. destruct (store_Record store r tx) as [tx' [[|]|]]; simpl; eauto.
Qed.

Lemma exit_record_for (enrollment : Enrollment) (node : Node) (now : time) (reason : string) :
  record_for enrollment node now (exit_record enrollment node now reason).
Proof using. unfold record_for, exit_record. simpl. split_and!; try done. by do 2 right; left. Qed.

Lemma step_send_logged (enrollment : Enrollment) (node : Node) (next : string) (now : time)
    (out : AdvanceOutcome) (tx : Tx) :
  step_logged enrollment node now tx (step_send eng store enrollment node next now out tx).
Proof using HL.
  unfold step_send. pose proof (snapshot_log (enr_SubscriberID enrollment) tx) as Hs.
  destruct (snapshot _ _ _) as [tx1 [snap|]]; simpl in Hs; [|by apply logged_fail].
  destruct (negb _); [apply recordAndStop_log; [done|apply exit_record_for]|].
  destruct (decodeConfig _ _ _) as [[t [o|] [c|]]|]; try (by apply logged_fail).
  destruct (N.eqb _ _); [by apply logged_fail|].
  destruct (dep_Sender (eng_Deps eng)) as [sd|] eqn:Hd; [|by apply logged_fail].
  set (m := {| msg_BusinessID := _ |}). pose proof (log_Sender log HL sd Hd m tx1) as He.
  destruct (Enqueue sd m tx1) as [tx2 [d|err]]; simpl in He; [unfold step_logged; simpl; congruence|].
  destruct (is_lost_fence err); [left; simpl; congruence|apply logged_fail; congruence].
Qed.

Lemma step_wait_logged (enrollment : Enrollment) (node : Node) (next : string) (now : time)
    (out : AdvanceOutcome) (tx : Tx) :
  step_logged enrollment node now tx (step_wait eng store enrollment node next now out tx).
Proof using HL.
  unfold step_wait. pose proof (log_Waiting log HL (enr_ID enrollment) (node_ID node) tx) as Hw.
  destruct (store_Waiting _ _ _ _) as [tx1 [[|]|]]; simpl in Hw; [done| |by apply logged_fail].
  destruct (waitUntil _ _) as [t|]; [|by apply logged_fail].
  set (r := {| rec_EnrollmentID := _ |}).
  assert (Hr : record_for enrollment node now r)
    by (unfold record_for, r; simpl; split_and!; try done; set_solver).
  pose proof (recordAndStop_log enrollment node out r now tx1 tx Hw Hr) as Hl.
  by destruct (recordAndStop store r out tx1) as [tx2 [res err]].
Qed.

Lemma step_tag_logged (enrollment : Enrollment) (node : Node) (next : string) (now : time)
    (out : AdvanceOutcome) (tx : Tx) :
  step_logged enrollment node now tx (step_tag eng store enrollment node next now out tx).
Proof using HL.
  unfold step_tag. destruct (decodeConfig _ _ _) as [tag|]; [|by apply logged_fail].
  destruct (String.eqb (TrimSpace _) ""); [by apply logged_fail|].
  destruct (dep_Tagger (eng_Deps eng)) as [tg|] eqn:Hd; [|by apply logged_fail].
  destruct (log_Tagger log HL tg Hd) as [Hadd Hrem].
  assert (Hafter : forall (res : Tx * result error unit), log res.1 = log tx ->
    step_logged enrollment node now tx
      match res with
      | (tx, Ok _) => (tx, Store (new_record enrollment node next now "advanced" (status_after next)) next)
      | (tx, Err err) => if is_lost_fence err then (tx, Return (out, Some err))
                         else returning (fail eng store enrollment out err now tx)
      end).
  { intros [tx2 [u|err]] Hl; [exact Hl|]. destruct (is_lost_fence err); [by left|by apply logged_fail]. }
  destruct (String.eqb (node_Kind node) "add_tag"); [|by apply Hafter].
  pose proof (snapshot_log (enr_SubscriberID enrollment) tx) as Hs.
  destruct (snapshot _ _ _) as [tx1 [snap|]]; simpl in Hs; [|by apply logged_fail].
  destruct (negb _); [apply recordAndStop_log; [done|apply exit_record_for]|].
  apply Hafter. by rewrite Hadd.
Qed.

Lemma step_node_logged (enrollment : Enrollment) (node : Node) (outs : list Edge) (now : time)
    (out : AdvanceOutcome) (tx : Tx) :
  step_logged enrollment node now tx (step_node eng store enrollment node outs now out tx).
Proof using HL.
  unfold step_node. destruct (String.eqb (node_Kind node) "trigger"); [done|].
  destruct (String.eqb (node_Kind node) "send_email"); [apply step_send_logged|].
  destruct (String.eqb (node_Kind node) "wait"); [apply step_wait_logged|].
  destruct (String.eqb (node_Kind node) "condition").
  { unfold step_condition.
    pose proof (evaluateCondition_log enrollment (node_Config node) now tx) as He.
    destruct (evaluateCondition _ _ _ _ _ _) as [tx1 [yes|]]; [done|by apply logged_fail]. }
  destruct (_ || _); [apply step_tag_logged|].
  destruct (String.eqb (node_Kind node) "exit"); [done|by apply logged_fail].
Qed.

(** The records of a tick walk the graph from [current] along its edges. *)
Fixpoint walk (g : Graph) (enrollment : Enrollment) (now : time) (current : string)
    (recs : list StepRecord) : Prop :=
  match recs with
  | [] => True
  | r :: rest =>
      (exists node, node ∈ graph_Nodes g /\ node_ID node = current /\ record_for enrollment node now r) /\
      (rest = [] \/
       exists next, rec_Status r = "active" /\ rec_NextNodeID r = Some next /\
         edge_rel (graph_Edges g) current next /\ walk g enrollment now next rest)
  end.

Lemma walk_attempts (g : Graph) (enrollment : Enrollment) (n : Z) (now : time) (current : string)
    (recs : list StepRecord) :
  walk g (with_attempts enrollment n) now current recs -> walk g enrollment now current recs.
Proof.
  revert current. induction recs as [|r recs IH]; intros current; [done|]. simpl.
  intros [Hr [?|(next & ? & ? & ? & ?)]]; (split; [exact Hr|]); [by left|].
  right. exists next. split_and!; try done. by apply IH.
Qed.

Lemma advance_loop_walk (g : Graph) (now : time) (rounds : nat) (enrollment : Enrollment)
    (current : string) (out : AdvanceOutcome) (tx : Tx) :
  NoDup (map node_ID (graph_Nodes g)) ->
  exists recs,
    log (advance_loop eng store rounds (node_map g) (edge_map g) enrollment now current out tx).1 =
      log tx ++ recs /\
    walk g enrollment now current recs /\ length recs <= rounds.
Proof using HL.
  intros Hnd. revert enrollment current out tx.
  induction rounds as [|rounds IH]; intros enrollment current out tx; simpl.
  { exists []. rewrite app_nil_r. done. }
  pose proof (node_map_lookup g current Hnd) as Hlk.
  destruct (node_map g !! current) as [node|].
  2: { exists []. rewrite app_nil_r, fail_log. simpl. split_and!; [done|done|lia]. }
  destruct Hlk as [Hin Hid].
  assert (Hone : forall r, record_for enrollment node now r -> walk g enrollment now current [r]).
  { intros r Hr. simpl. split; [by exists node|by left]. }
  set (outs := edges_at (edge_map g) (node_ID node)).
  pose proof (step_node_logged enrollment node outs now (count_node out) tx) as Hlog.
  pose proof (step_node_stores g enrollment node now (count_node out) tx) as Hst.
  fold outs in Hst.
  destruct (step_node eng store enrollment node outs now (count_node out) tx) as [tx1 [o|r next]];
    unfold step_logged in Hlog; simpl in Hlog, Hst.
  { destruct Hlog as [Hl|(r & Hl & Hr)]; [exists []|exists [r]]; rewrite ?app_nil_r;
      (split; [done|split; [by try apply Hone|simpl; lia]]). }
  destruct Hst as [Hr Hnext]. pose proof (log_Record log HL r tx1) as Hrec. rewrite Hlog in Hrec.
  destruct (store_Record store r tx1) as [tx2 [[|]|]];
    [|exists []; rewrite app_nil_r; split_and!; [done|done|simpl; lia]
     |exists []; rewrite app_nil_r; split_and!; [done|done|simpl; lia]].
  destruct (String.eqb_spec (rec_Status r) "active") as [Ha|Ha]; simpl.
  2: { exists [r]. split_and!; [done|by apply Hone|simpl; lia]. }
  destruct (IH (with_attempts enrollment 0) next (count_node out) tx2) as (recs & Hl & Hw & Hlen).
  destruct (Hnext Ha) as [Hn He]. exists (r :: recs). split_and!; [|split|simpl; lia].
  - rewrite Hl, Hrec, <- app_assoc. done.
  - by exists node.
  - right. exists next. split_and!; [done|done|by rewrite <- Hid|by eapply walk_attempts].
Qed.

(** In an acyclic graph a walk never meets a node twice. *)
Lemma walk_reaches (g : Graph) (enrollment : Enrollment) (now : time) (current : string)
    (recs : list StepRecord) (r : StepRecord) :
  walk g enrollment now current recs -> r ∈ recs -> rtc (edge_rel (graph_Edges g)) current (rec_NodeID r).
Proof.
  revert current. induction recs as [|r0 recs IH]; intros current Hw Hr; [by apply not_elem_of_nil in Hr|].
  destruct Hw as [(node & _ & Hid & Hrec) Hrest]. apply elem_of_cons in Hr as [->|Hr].
  - destruct Hrec as (_ & _ & Hn & _). rewrite Hn, Hid. apply rtc_refl.
  - destruct Hrest as [->|(next & _ & _ & He & Hw)]; [by apply not_elem_of_nil in Hr|].
    eapply rtc_l; [done|]. by apply IH.
Qed.

Lemma walk_nodup (g : Graph) (enrollment : Enrollment) (now : time) (current : string)
    (recs : list StepRecord) :
  ~ cyclic (graph_Edges g) -> walk g enrollment now current recs -> NoDup (map rec_NodeID recs).
Proof.
  intros Hac. revert current. induction recs as [|r recs IH]; intros current Hw; [constructor|].
  destruct Hw as [(node & _ & Hid & Hrec) Hrest]. simpl. constructor.
  - intros Hin. apply list_elem_of_fmap in Hin as (r' & Hr' & Hin).
    destruct Hrest as [->|(next & _ & _ & He & Hw)]; [by apply not_elem_of_nil in Hin|].
    destruct Hrec as (_ & _ & Hn & _). apply Hac. exists current.
    eapply tc_rtc_r; [by apply tc_once|].
    replace current with (rec_NodeID r') by congruence. by eapply walk_reaches.
  - destruct Hrest as [->|(next & _ & _ & He & Hw)]; [constructor|by eapply IH].
Qed.
End Logged.

(** *** Validated graphs do not go wrong

    All ports are configured and none reports an invalid reference. *)

Definition harmless {A : Type} (res : Tx * result error A) : Prop :=
  match res.2 with Err e => is_invalid_reference e = false | Ok _ => True end.

Record PortsSound : Prop := {
  sound_subscribers : exists rd, dep_Subscribers (eng_Deps eng) = Some rd /\
    (forall s tx, harmless (Snapshot rd s tx)) /\
    (forall b em l tx, harmless (ActiveOnList rd b em l tx));
  sound_sender : exists sd, dep_Sender (eng_Deps eng) = Some sd /\ forall m tx, harmless (Enqueue sd m tx);
  sound_engagement : exists rd, dep_Engagement (eng_Deps eng) = Some rd /\
    forall d tx, harmless (Engagement rd d tx);
  sound_tagger : exists tg, dep_Tagger (eng_Deps eng) = Some tg /\
    (forall b t s e c tag tx, harmless (AddTag tg b t s e c tag tx)) /\
    (forall b t s e c tag tx, harmless (RemoveTag tg b t s e c tag tx));
  sound_waiting : forall e n tx, harmless (store_Waiting store e n tx);
  sound_delivery : forall e n tx, harmless (store_Delivery store e n tx);
  sound_events : forall b l em nm e1 e2 w tx, harmless (store_EventExists store b l em nm e1 e2 w tx)
}.

Section Sound.
Context (HP : PortsSound) (refs : References).

Lemma snapshot_harmless (s : uuid) (tx : Tx) : harmless (snapshot eng s tx).
Proof using HP.
  unfold snapshot. destruct (sound_subscribers HP) as (rd & -> & Hs & _). apply Hs.
Qed.

Lemma evaluateEngagement_harmless (enrollment : Enrollment) (kind : string) (pred : raw)
    (p : engagementPredicate) (tx : Tx) :
  decodeConfig clickedPredicate_fields pred engagementPredicate_zero = Some p ->
  harmless (evaluateEngagement eng store enrollment kind pred tx).
Proof using HP.
  intros Hp. unfold evaluateEngagement. rewrite Hp.
  pose proof (sound_delivery HP (enr_ID enrollment) (ep_NodeID p) tx) as Hd.
  destruct (store_Delivery _ _ _ _) as [tx1 [[d|]|]]; [|done|done].
  destruct (sound_engagement HP) as (rd & -> & He). specialize (He d tx1).
  destruct (Engagement rd d tx1) as [tx2 [e|]]; [|done].
  destruct (String.eqb kind "opened_email"); [done|]. by destruct (ep_URL p).
Qed.

Lemma evaluateCondition_harmless (node : Node) (enrollment : Enrollment) (now : time) (tx : Tx) :
  (validateCondition node refs).1 = [] ->
  harmless (evaluateCondition eng store enrollment (node_Config node) now tx).
Proof using HP.
  unfold validateCondition, evaluateCondition.
  destruct (decodeConfig conditionConfig_fields _ _) as [[pred|]|]; [|done|done].
  destruct (Unmarshal kind_fields _ _) as [kind|]; [|done]. unfold validatePredicate.
  pose proof (snapshot_harmless (enr_SubscriberID enrollment) tx) as Hs.
  destruct (String.eqb kind "opened_email").
  { destruct (decodeConfig openedPredicate_fields _ _) as [p|] eqn:Hp; [|done]. intros _.
    by eapply evaluateEngagement_harmless, opened_as_clicked. }
  destruct (String.eqb kind "clicked_link"); cbn [orb].
  { destruct (decodeConfig clickedPredicate_fields _ _) as [p|] eqn:Hp; [|done]. intros _.
    by eapply evaluateEngagement_harmless. }
  destruct (String.eqb kind "has_tag").
  { destruct (decodeConfig tagPredicate_fields _ _) as [p|]; [|done]. intros _.
    by destruct (snapshot _ _ _) as [tx1 [snap|]]. }
  destruct (String.eqb kind "on_list").
  { destruct (decodeConfig listPredicate_fields _ _) as [p|]; [|done].
    destruct (N.eqb _ _); [done|]. intros _.
    destruct (snapshot _ _ _) as [tx1 [snap|]]; [|done].
    destruct (sound_subscribers HP) as (rd & -> & _ & Ha). apply Ha. }
  destruct (String.eqb kind "event_received"); [|done].
  destruct (decodeConfig eventPredicate_fields _ _) as [p|]; [|done]. intros _.
  destruct (snapshot _ _ _) as [tx1 [snap|]]; [|done]. apply (sound_events HP).
Qed.

(** A failure that is neither an invalid reference nor the last attempt leaves
    the enrollment running. *)
Lemma fail_retries (enrollment : Enrollment) (out : AdvanceOutcome) (cause : error) (now : time) (tx : Tx) :
  is_invalid_reference cause = false -> (enr_NodeAttempts enrollment + 1 < max_attempts eng)%Z ->
  out_Status (fail eng store enrollment out cause now tx).2.1 = out_Status out.
Proof.
  intros Hc Ha. unfold fail. rewrite Hc. rewrite (proj2 (Z.leb_gt _ _)) by done. simpl.
  by destruct (store_Fail _ _ _) as [tx' [[|]|]].
Qed.

Lemma recordAndStop_status (r : StepRecord) (out : AdvanceOutcome) (tx : Tx) :
  out_Status (recordAndStop store r out tx).2.1 = out_Status out \/
  out_Status (recordAndStop store r out tx).2.1 = rec_Status r.
Proof. unfold recordAndStop. destruct (store_Record _ _ _) as [tx' [[|]|]]; simpl; auto. Qed.

Definition not_errored (res : Tx * nodeStep) : Prop :=
  match res.2 with Return (o, _) => out_Status o <> "errored" | Store _ _ => True end.

Section Node.
Context (enrollment : Enrollment) (node : Node) (now : time) (out : AdvanceOutcome) (tx : Tx).
Hypothesis attempts : (enr_NodeAttempts enrollment + 1 < max_attempts eng)%Z.
Hypothesis running : out_Status out <> "errored".

Lemma fail_not_errored (cause : error) (tx' : Tx) :
  is_invalid_reference cause = false -> not_errored (returning (fail eng store enrollment out cause now tx')).
Proof using attempts running.
  intros Hc. pose proof (fail_retries enrollment out cause now tx' Hc attempts) as Hs.
  unfold returning, not_errored. simpl. destruct (fail _ _ _ _ _ _ _) as [tx2 [o e]].
  simpl in *. by rewrite Hs.
Qed.

Lemma stop_not_errored (r : StepRecord) (tx' : Tx) :
  rec_Status r <> "errored" -> not_errored (returning (recordAndStop store r out tx')).
Proof using running.
  intros Hr. pose proof (recordAndStop_status r out tx') as Hs. unfold returning, not_errored. simpl.
  destruct (recordAndStop _ _ _ _) as [tx2 [o e]]. simpl in *. destruct Hs as [-> | ->]; done.
Qed.

Lemma after_not_errored {A : Type} (res : Tx * result error A) (k : Tx -> A -> Tx * nodeStep) :
  harmless res -> (forall tx a, not_errored (k tx a)) ->
  not_errored match res with
              | (tx, Ok a) => k tx a
              | (tx, Err err) => if is_lost_fence err then (tx, Return (out, Some err))
                                 else returning (fail eng store enrollment out err now tx)
              end.
Proof using attempts running.
  intros Hh Hk. destruct res as [tx' [a|err]]; [apply Hk|].
  destruct (is_lost_fence err); [exact running|by apply fail_not_errored].
Qed.

Lemma step_node_sound (outs : list Edge) :
  (validateConfig node refs).1 = [] ->
  not_errored (step_node eng store enrollment node outs now out tx).
Proof using HP attempts running.
  unfold validateConfig, step_node. destruct (String.eqb (node_Kind node) "trigger"); [done|].
  pose proof (snapshot_harmless (enr_SubscriberID enrollment) tx) as Hs.
  destruct (String.eqb (node_Kind node) "send_email").
  { intros Hv. destruct (validateSend_runs node refs Hv) as (t & o & c & Hcfg & Ht).
    unfold step_send. destruct (snapshot _ _ _) as [tx1 [snap|]]; [|by apply fail_not_errored].
    destruct (negb _); [by apply stop_not_errored|]. rewrite Hcfg, Ht.
    destruct (sound_sender HP) as (sd & -> & He). by apply after_not_errored. }
  destruct (String.eqb (node_Kind node) "wait").
  { intros Hv. destruct (validateWait_runs node now Hv) as (t & Hw).
    unfold step_wait. pose proof (sound_waiting HP (enr_ID enrollment) (node_ID node) tx) as Hwt.
    destruct (store_Waiting _ _ _ _) as [tx1 [[|]|]]; [done| |by apply fail_not_errored].
    rewrite Hw. set (r := {| rec_EnrollmentID := _ |}).
    pose proof (recordAndStop_status r out tx1) as Hst.
    destruct (recordAndStop _ _ _ _) as [tx2 [o e]]. unfold not_errored. simpl in *.
    destruct Hst as [-> | ->]; done. }
  destruct (String.eqb (node_Kind node) "condition").
  { intros Hv. unfold step_condition.
    pose proof (evaluateCondition_harmless node enrollment now tx Hv) as Hc.
    destruct (evaluateCondition _ _ _ _ _ _) as [tx1 [yes|]]; [done|by apply fail_not_errored]. }
  destruct (_ || _).
  { unfold step_tag. destruct (decodeConfig _ _ _) as [tag|]; [|done].
    destruct (validLabel tag 64) eqn:Hl; [|done]. intros _. rewrite (validLabel_nonempty _ _ Hl).
    destruct (sound_tagger HP) as (tg & -> & Hadd & Hrem).
    destruct (String.eqb (node_Kind node) "add_tag"); [|by apply after_not_errored].
    destruct (snapshot _ _ _) as [tx1 [snap|]]; [|by apply fail_not_errored].
    destruct (negb _); [by apply stop_not_errored|]. by apply after_not_errored. }
  by destruct (String.eqb (node_Kind node) "exit").
Qed.
End Node.

Lemma advance_loop_sound (g : Graph) (now : time) (rounds : nat) (enrollment : Enrollment)
    (current : string) (out : AdvanceOutcome) (tx : Tx) :
  WellFormed refs g -> current ∈ map node_ID (graph_Nodes g) ->
  (enr_NodeAttempts enrollment + 1 < max_attempts eng)%Z -> (1 < max_attempts eng)%Z ->
  out_Status out <> "errored" ->
  out_Status (advance_loop eng store rounds (node_map g) (edge_map g) enrollment now current out tx).2.1
    <> "errored".
Proof using HP.
  intros Hwf Hcur Hatt Hmax Hout. revert enrollment current out tx Hcur Hatt Hout.
  induction rounds as [|rounds IH]; intros enrollment current out tx Hcur Hatt Hout; simpl; [done|].
  pose proof (node_map_lookup g current (wf_node_ids refs g Hwf)) as Hlk.
  destruct (node_map g !! current) as [node|]; [|done]. destruct Hlk as [Hin Hid].
  pose proof (wf_nodes refs g Hwf) as Hok. rewrite Forall_forall in Hok.
  destruct (Hok node Hin) as (_ & _ & Hcfg).
  set (outs := edges_at (edge_map g) (node_ID node)).
  pose proof (step_node_sound enrollment node now (count_node out) tx Hatt Hout outs Hcfg) as Hsound.
  pose proof (step_node_stores g enrollment node now (count_node out) tx) as Hst. fold outs in Hst.
  destruct (step_node eng store enrollment node outs now (count_node out) tx) as [tx1 [[o e]|r next]];
    [exact Hsound|]. destruct Hst as [Hr Hnext].
  destruct (store_Record store r tx1) as [tx2 [[|]|]]; [|done|done].
  destruct (String.eqb_spec (rec_Status r) "active") as [Ha|Ha]; simpl.
  - apply IH; try done. destruct (Hnext Ha) as [_ (edge & He & _ & <-)].
    pose proof (wf_edges refs g Hwf) as Hed. rewrite Forall_forall in Hed. by apply Hed.
  - destruct Hr as (_ & _ & _ & _ & _ & Hs). intros He. rewrite He in Hs.
    repeat (apply elem_of_cons in Hs as [Hs|Hs]; [done|]). by apply not_elem_of_nil in Hs.
Qed.
End Sound.

(** *** The node budget *)

Lemma fail_count (enrollment : Enrollment) (out : AdvanceOutcome) (cause : error) (now : time) (tx : Tx) :
  out_NodesProcessed (fail eng store enrollment out cause now tx).2.1 = out_NodesProcessed out.
Proof.
  unfold fail. destruct (store_Fail _ _ _) as [tx' [[|]|]]; simpl; [|done|done].
  by destruct (_ || _).
Qed.

Lemma recordAndStop_count (r : StepRecord) (out : AdvanceOutcome) (tx : Tx) :
  out_NodesProcessed (recordAndStop store r out tx).2.1 = out_NodesProcessed out.
Proof. unfold recordAndStop. by destruct (store_Record _ _ _) as [tx' [[|]|]]. Qed.

Definition counted (out : AdvanceOutcome) (res : Tx * nodeStep) : Prop :=
  match res.2 with
  | Return (o, _) => out_NodesProcessed o = out_NodesProcessed out
  | Store _ _ => True
  end.

Lemma counted_fail (enrollment : Enrollment) (out : AdvanceOutcome) (cause : error) (now : time) (tx : Tx) :
  counted out (returning (fail eng store enrollment out cause now tx)).
Proof.
  pose proof (fail_count enrollment out cause now tx) as Hc. unfold returning, counted. simpl.
  by destruct (fail _ _ _ _ _ _ _) as [? [o e]].
Qed.

Lemma counted_stop (out : AdvanceOutcome) (r : StepRecord) (tx : Tx) :
  counted out (returning (recordAndStop store r out tx)).
Proof.
  pose proof (recordAndStop_count r out tx) as Hc. unfold returning, counted. simpl.
  by destruct (recordAndStop _ _ _ _) as [? [o e]].
Qed.

Lemma step_node_count (enrollment : Enrollment) (node : Node) (outs : list Edge) (now : time)
    (out : AdvanceOutcome) (tx : Tx) :
  counted out (step_node eng store enrollment node outs now out tx).
Proof.
  unfold step_node. destruct (String.eqb _ "trigger"); [done|]. destruct (String.eqb _ "send_email").
  { unfold step_send. destruct (snapshot _ _ _) as [tx1 [snap|]]; [|apply counted_fail].
    destruct (negb _); [apply counted_stop|].
    destruct (decodeConfig _ _ _) as [[t [o|] [c|]]|]; try apply counted_fail.
    destruct (N.eqb _ _); [apply counted_fail|]. destruct (dep_Sender _); [|apply counted_fail].
    destruct (Enqueue _ _ _) as [tx2 [d|err]]; [done|]. destruct (is_lost_fence err); [done|apply counted_fail]. }
  destruct (String.eqb _ "wait").
  { unfold step_wait. destruct (store_Waiting _ _ _ _) as [tx1 [[|]|]]; [done| |apply counted_fail].
    destruct (waitUntil _ _); [|apply counted_fail]. set (r := {| rec_EnrollmentID := _ |}).
    pose proof (recordAndStop_count r out tx1) as Hc. by destruct (recordAndStop _ _ _ _) as [tx2 [o e]]. }
  destruct (String.eqb _ "condition").
  { unfold step_condition. destruct (evaluateCondition _ _ _ _ _ _) as [tx1 [yes|]]; [done|apply counted_fail]. }
  destruct (_ || _).
  { unfold step_tag. destruct (decodeConfig _ _ _); [|apply counted_fail].
    destruct (String.eqb (TrimSpace _) ""); [apply counted_fail|]. destruct (dep_Tagger _); [|apply counted_fail].
    assert (Hafter : forall (res : Tx * result error unit) (k : nodeStep), counted out (tx, k) -> counted out
      match res with
      | (tx, Ok _) => (tx, k)
      | (tx, Err err) => if is_lost_fence err then (tx, Return (out, Some err))
                         else returning (fail eng store enrollment out err now tx)
      end).
    { intros [tx2 [u|err]] k Hk; [done|]. destruct (is_lost_fence err); [done|apply counted_fail]. }
    destruct (String.eqb _ "add_tag"); [|by apply Hafter].
    destruct (snapshot _ _ _) as [tx1 [snap|]]; [|apply counted_fail].
    destruct (negb _); [apply counted_stop|by apply Hafter]. }
  destruct (String.eqb _ "exit"); [done|apply counted_fail].
Qed.

Lemma advance_loop_count (nodes : gmap string Node) (edges : adjacency) (now : time) (rounds : nat)
    (enrollment : Enrollment) (current : string) (out : AdvanceOutcome) (tx : Tx) :
  (out_NodesProcessed out <=
   out_NodesProcessed (advance_loop eng store rounds nodes edges enrollment now current out tx).2.1 <=
   out_NodesProcessed out + Z.of_nat rounds)%Z.
Proof.
  revert enrollment current out tx.
  induction rounds as [|rounds IH]; intros enrollment current out tx; simpl; [lia|].
  destruct (nodes !! current) as [node|]; [|rewrite fail_count; lia].
  set (outs := edges_at edges (node_ID node)).
  pose proof (step_node_count enrollment node outs now (count_node out) tx) as Hc.
  destruct (step_node eng store enrollment node outs now (count_node out) tx) as [tx1 [[o e]|r next]];
    unfold counted in Hc; simpl in Hc; [simpl; lia|].
  destruct (store_Record store r tx1) as [tx2 [[|]|]]; simpl; [|lia|lia].
  destruct (negb _); simpl; [lia|].
  specialize (IH (with_attempts enrollment 0) next (count_node out) tx2). simpl in IH. lia.
Qed.

(** *** Invariants of the transaction

    [PortsKeep I] says that the ports preserve [I] for the calls the engine
    makes; the store may rely on what the engine promises about the records. *)

Definition good_record (g : Graph) (enrollment : Enrollment) (now : time) (r : StepRecord) : Prop :=
  exists node, node ∈ graph_Nodes g /\ record_for enrollment node now r /\
    (rec_Status r = "active" ->
      (exists next, rec_NextNodeID r = Some next /\ edge_rel (graph_Edges g) (node_ID node) next) \/
      (rec_NextNodeID r = None /\ rec_Outcome r = "waiting" /\ rec_WakeAt r <> None)).

Definition own_failure (enrollment : Enrollment) (f : StepFailure) : Prop :=
  fail_EnrollmentID f = enr_ID enrollment /\ fail_ClaimGeneration f = enr_ClaimGeneration enrollment.

Definition own_message (enrollment : Enrollment) (now : time) (m : MessageSpec) : Prop :=
  msg_EnrollmentID m = enr_ID enrollment /\ msg_ClaimGeneration m = enr_ClaimGeneration enrollment /\
  msg_SourceKind m = "automation" /\ msg_NotBefore m = now.

Record PortsKeep (g : Graph) (enrollment : Enrollment) (now : time) (I : Tx -> Prop) : Prop := {
  keep_Record : forall r tx, good_record g enrollment now r -> I tx -> I (store_Record store r tx).1;
  keep_Fail : forall f tx, own_failure enrollment f -> I tx -> I (store_Fail store f tx).1;
  keep_Waiting : forall n tx, I tx -> I (store_Waiting store (enr_ID enrollment) n tx).1;
  keep_Delivery : forall n tx, I tx -> I (store_Delivery store (enr_ID enrollment) n tx).1;
  keep_EventExists : forall l em nm e1 e2 w tx,
    I tx -> I (store_EventExists store (enr_BusinessID enrollment) l em nm e1 e2 w tx).1;
  keep_Subscribers : forall rd, dep_Subscribers (eng_Deps eng) = Some rd ->
    (forall tx, I tx -> I (Snapshot rd (enr_SubscriberID enrollment) tx).1) /\
    (forall em l tx, I tx -> I (ActiveOnList rd (enr_BusinessID enrollment) em l tx).1);
  keep_Sender : forall sd, dep_Sender (eng_Deps eng) = Some sd ->
    forall m tx, own_message enrollment now m -> I tx -> I (Enqueue sd m tx).1;
  keep_Engagement : forall rd, dep_Engagement (eng_Deps eng) = Some rd ->
    forall d tx, I tx -> I (Engagement rd d tx).1;
  keep_Tagger : forall tg, dep_Tagger (eng_Deps eng) = Some tg ->
    (forall tag tx, I tx -> I (AddTag tg (enr_BusinessID enrollment) (enr_TenantRootID enrollment)
       (enr_SubscriberID enrollment) (enr_ID enrollment) (enr_ClaimGeneration enrollment) tag tx).1) /\
    (forall tag tx, I tx -> I (RemoveTag tg (enr_BusinessID enrollment) (enr_TenantRootID enrollment)
       (enr_SubscriberID enrollment) (enr_ID enrollment) (enr_ClaimGeneration enrollment) tag tx).1)
}.

(** The store refuses every write of this claim while [I] holds. *)
Definition refuses (g : Graph) (enrollment : Enrollment) (now : time) (I : Tx -> Prop) : Prop :=
  (forall r tx, good_record g enrollment now r -> I tx -> (store_Record store r tx).2 <> Ok true) /\
  (forall f tx, own_failure enrollment f -> I tx -> (store_Fail store f tx).2 <> Ok true).

Section Keeps.
Context (g : Graph) (enrollment : Enrollment) (now : time) (I : Tx -> Prop).
Hypothesis HK : PortsKeep g enrollment now I.

(** Same enrollment and claim, whatever the attempt counter. *)
Definition same_claim (e : Enrollment) : Prop :=
  e = enrollment \/ exists n, e = with_attempts enrollment n.

(** What a step of [Advance] guarantees: the invariant, and an error whenever
    it returns while the store refuses the claim. *)
Definition step_keeps (res : Tx * nodeStep) : Prop :=
  I res.1 /\ (refuses g enrollment now I -> match res.2 with Return (_, None) => False | _ => True end).

Lemma snapshot_keeps (tx : Tx) : I tx -> I (snapshot eng (enr_SubscriberID enrollment) tx).1.
Proof using HK.
  unfold snapshot. destruct (dep_Subscribers (eng_Deps eng)) as [rd|] eqn:Hd; [|done].
  apply (keep_Subscribers _ _ _ _ HK rd Hd).
Qed.

Lemma fail_keeps (e : Enrollment) (out : AdvanceOutcome) (cause : error) (tx : Tx) :
  same_claim e -> I tx -> step_keeps (returning (fail eng store e out cause now tx)).
Proof using HK.
  intros He Hi. unfold returning, fail, step_keeps. set (f := {| fail_EnrollmentID := _ |}).
  assert (Hown : own_failure enrollment f) by (by destruct He as [->|[n ->]]).
  pose proof (keep_Fail _ _ _ _ HK f tx Hown Hi) as Hk.
  assert (Href : refuses g enrollment now I -> (store_Fail store f tx).2 <> Ok true)
    by (intros [_ Hr]; by apply Hr).
  destruct (store_Fail store f tx) as [tx' [[|]|]]; simpl in *; (split; [done|]); naive_solver.
Qed.

Lemma stop_keeps (r : StepRecord) (out : AdvanceOutcome) (tx : Tx) :
  good_record g enrollment now r -> I tx -> step_keeps (returning (recordAndStop store r out tx)).
Proof using HK.
  intros Hr Hi. unfold returning, recordAndStop, step_keeps.
  pose proof (keep_Record _ _ _ _ HK r tx Hr Hi) as Hk.
  assert (Href : refuses g enrollment now I -> (store_Record store r tx).2 <> Ok true)
    by (intros [Hr' _]; by apply Hr').
  destruct (store_Record store r tx) as [tx' [[|]|]]; simpl in *; (split; [done|]); naive_solver.
Qed.

Lemma store_keeps (r : StepRecord) (next : string) (tx : Tx) : I tx -> step_keeps (tx, Store r next).
Proof using. by split. Qed.

Lemma lost_keeps (out : AdvanceOutcome) (err : error) (tx : Tx) :
  I tx -> step_keeps (tx, Return (out, Some err)).
Proof using. by split. Qed.

Lemma evaluateEngagement_keeps (e : Enrollment) (kind : string) (pred : raw) (tx : Tx) :
  same_claim e -> I tx -> I (evaluateEngagement eng store e kind pred tx).1.
Proof using HK.
  intros He Hi. unfold evaluateEngagement. destruct (decodeConfig _ _ _) as [p|]; [|done].
  assert (enr_ID e = enr_ID enrollment) as -> by (by destruct He as [->|[n ->]]).
  pose proof (keep_Delivery _ _ _ _ HK (ep_NodeID p) tx Hi) as Hd.
  destruct (store_Delivery _ _ _ _) as [tx1 [[d|]|]]; [|done|done]. simpl in Hd.
  destruct (dep_Engagement (eng_Deps eng)) as [rd|] eqn:Hr; [|done].
  pose proof (keep_Engagement _ _ _ _ HK rd Hr d tx1 Hd) as Hen.
  destruct (Engagement rd d tx1) as [tx2 [en|]]; [|done].
  destruct (String.eqb kind "opened_email"); [done|]. by destruct (ep_URL p).
Qed.

Lemma evaluateCondition_keeps (e : Enrollment) (r : raw) (tx : Tx) :
  same_claim e -> I tx -> I (evaluateCondition eng store e r now tx).1.
Proof using HK.
  intros He Hi. unfold evaluateCondition. destruct (decodeConfig conditionConfig_fields _ _) as [pred|]; [|done].
  destruct (Unmarshal _ _ _) as [kind|]; [|done].
  destruct (_ || _); [by apply evaluateEngagement_keeps|].
  assert (enr_SubscriberID e = enr_SubscriberID enrollment) as -> by (by destruct He as [->|[n ->]]).
  assert (enr_BusinessID e = enr_BusinessID enrollment) as -> by (by destruct He as [->|[n ->]]).
  pose proof (snapshot_keeps tx Hi) as Hs.
  destruct (String.eqb kind "has_tag").
  { destruct (decodeConfig _ _ _); [|done]. by destruct (snapshot _ _ _) as [tx1 [snap|]]. }
  destruct (String.eqb kind "on_list").
  { destruct (decodeConfig _ _ _) as [p|]; [|done]. destruct (N.eqb _ _); [done|].
    destruct (snapshot _ _ _) as [tx1 [snap|]]; [|done]. simpl in Hs.
    destruct (dep_Subscribers (eng_Deps eng)) as [rd|] eqn:Hd; [|done].
    by apply (keep_Subscribers _ _ _ _ HK rd Hd). }
  destruct (String.eqb kind "event_received"); [|done].
  destruct (decodeConfig _ _ _) as [p|]; [|done].
  destruct (snapshot _ _ _) as [tx1 [snap|]]; [|done]. by apply (keep_EventExists _ _ _ _ HK).
Qed.

Lemma exit_good (e : Enrollment) (node : Node) (reason : string) :
  same_claim e -> node ∈ graph_Nodes g -> good_record g enrollment now (exit_record e node now reason).
Proof using.
  intros He Hn. exists node. split; [done|]. split; [|done].
  destruct He as [->|[n ->]]; exact (exit_record_for enrollment node now reason).
Qed.

Lemma step_send_keeps (e : Enrollment) (node : Node) (next : string) (out : AdvanceOutcome) (tx : Tx) :
  same_claim e -> node ∈ graph_Nodes g -> I tx -> step_keeps (step_send eng store e node next now out tx).
Proof using HK.
  intros He Hn Hi. unfold step_send. pose proof (snapshot_keeps tx Hi) as Hs.
  assert (enr_SubscriberID e = enr_SubscriberID enrollment) as -> by (by destruct He as [->|[n ->]]).
  destruct (snapshot _ _ _) as [tx1 [snap|]]; simpl in Hs; [|by apply fail_keeps].
  destruct (negb _); [by apply stop_keeps; [apply exit_good|]|].
  destruct (decodeConfig _ _ _) as [[t [o|] [c|]]|]; try (by apply fail_keeps).
  destruct (N.eqb _ _); [by apply fail_keeps|].
  destruct (dep_Sender (eng_Deps eng)) as [sd|] eqn:Hd; [|by apply fail_keeps].
  set (m := {| msg_BusinessID := _ |}).
  assert (Hm : own_message enrollment now m) by (by destruct He as [->|[n ->]]).
  pose proof (keep_Sender _ _ _ _ HK sd Hd m tx1 Hm Hs) as He'.
  destruct (Enqueue sd m tx1) as [tx2 [d|err]]; simpl in He'; [by apply store_keeps|].
  destruct (is_lost_fence err); [by apply lost_keeps|by apply fail_keeps].
Qed.

Lemma step_wait_keeps (e : Enrollment) (node : Node) (next : string) (out : AdvanceOutcome) (tx : Tx) :
  same_claim e -> node ∈ graph_Nodes g -> I tx -> step_keeps (step_wait eng store e node next now out tx).
Proof using HK.
  intros He Hn Hi. unfold step_wait.
  assert (enr_ID e = enr_ID enrollment) as Hid by (by destruct He as [->|[n ->]]). rewrite Hid.
  pose proof (keep_Waiting _ _ _ _ HK (node_ID node) tx Hi) as Hw.
  destruct (store_Waiting _ _ _ _) as [tx1 [[|]|]]; simpl in Hw; [by apply store_keeps| |by apply fail_keeps].
  destruct (waitUntil _ _) as [t|]; [|by apply fail_keeps].
  set (r := {| rec_EnrollmentID := _ |}).
  assert (Hr : good_record g enrollment now r).
  { exists node. split; [done|]. unfold record_for, r. simpl. split; [|by right].
    destruct He as [->|[n ->]]; split_and!; try done; set_solver. }
  pose proof (stop_keeps r out tx1 Hr Hw) as [Hk Hf]. unfold returning in Hk, Hf. simpl in Hk, Hf.
  destruct (recordAndStop store r out tx1) as [tx2 [res [err|]]]; simpl in Hk, Hf; split; simpl; auto.
Qed.

Lemma step_tag_keeps (e : Enrollment) (node : Node) (next : string) (out : AdvanceOutcome) (tx : Tx) :
  same_claim e -> node ∈ graph_Nodes g -> I tx -> step_keeps (step_tag eng store e node next now out tx).
Proof using HK.
  intros He Hn Hi. unfold step_tag. destruct (decodeConfig _ _ _) as [tag|]; [|by apply fail_keeps].
  destruct (String.eqb (TrimSpace _) ""); [by apply fail_keeps|].
  destruct (dep_Tagger (eng_Deps eng)) as [tg|] eqn:Hd; [|by apply fail_keeps].
  destruct (keep_Tagger _ _ _ _ HK tg Hd) as [Hadd Hrem].
  assert (Hafter : forall (res : Tx * result error unit) (k : nodeStep), I res.1 -> (exists r n, k = Store r n) ->
    step_keeps match res with
      | (tx, Ok _) => (tx, k)
      | (tx, Err err) => if is_lost_fence err then (tx, Return (out, Some err))
                         else returning (fail eng store e out err now tx)
      end).
  { intros [tx2 [u|err]] k Hl (r & n & ->); [by apply store_keeps|].
    destruct (is_lost_fence err); [by apply lost_keeps|by apply fail_keeps]. }
  assert (Heq : enr_BusinessID e = enr_BusinessID enrollment /\ enr_TenantRootID e = enr_TenantRootID enrollment /\
    enr_SubscriberID e = enr_SubscriberID enrollment /\ enr_ID e = enr_ID enrollment /\
    enr_ClaimGeneration e = enr_ClaimGeneration enrollment) by (by destruct He as [->|[n ->]]).
  destruct Heq as (-> & -> & -> & -> & ->).
  destruct (String.eqb (node_Kind node) "add_tag"); [|apply Hafter; [by apply Hrem|eauto]].
  pose proof (snapshot_keeps tx Hi) as Hs.
  destruct (snapshot _ _ _) as [tx1 [snap|]]; simpl in Hs; [|by apply fail_keeps].
  destruct (negb _); [by apply stop_keeps; [apply exit_good|]|].
  apply Hafter; [by apply Hadd|eauto].
Qed.

Lemma step_node_keeps (e : Enrollment) (node : Node) (outs : list Edge) (out : AdvanceOutcome) (tx : Tx) :
  same_claim e -> node ∈ graph_Nodes g -> I tx -> step_keeps (step_node eng store e node outs now out tx).
Proof using HK.
  intros He Hn Hi. unfold step_node. destruct (String.eqb (node_Kind node) "trigger"); [by apply store_keeps|].
  destruct (String.eqb (node_Kind node) "send_email"); [by apply step_send_keeps|].
  destruct (String.eqb (node_Kind node) "wait"); [by apply step_wait_keeps|].
  destruct (String.eqb (node_Kind node) "condition").
  { unfold step_condition. pose proof (evaluateCondition_keeps e (node_Config node) tx He Hi) as Hc.
    destruct (evaluateCondition _ _ _ _ _ _) as [tx1 [yes|]]; [by apply store_keeps|by apply fail_keeps]. }
  destruct (_ || _); [by apply step_tag_keeps|].
  destruct (String.eqb (node_Kind node) "exit"); [by apply store_keeps|by apply fail_keeps].
Qed.

Lemma advance_loop_keeps (rounds : nat) (e : Enrollment) (current : string) (out : AdvanceOutcome) (tx : Tx) :
  NoDup (map node_ID (graph_Nodes g)) -> same_claim e -> I tx ->
  let res := advance_loop eng store rounds (node_map g) (edge_map g) e now current out tx in
  I res.1 /\ (refuses g enrollment now I -> rounds <> 0 -> res.2.2 <> None).
Proof using HK.
  intros Hnd He Hi. revert e current out tx He Hi.
  induction rounds as [|rounds IH]; intros e current out tx He Hi; simpl; [by split|].
  pose proof (node_map_lookup g current Hnd) as Hlk.
  destruct (node_map g !! current) as [node|].
  2: { destruct (fail_keeps e out (Wrap ("graph_node_missing: " +:+ current) ErrInvalidReference) tx He Hi)
         as [Hk Hf]. unfold returning in Hk, Hf. simpl in Hk, Hf.
       destruct (fail _ _ _ _ _ _ _) as [tx' [o err]]. simpl in *.
       split; [done|]. intros Hr _. specialize (Hf Hr). by destruct err. }
  destruct Hlk as [Hin Hid]. set (outs := edges_at (edge_map g) (node_ID node)).
  pose proof (step_node_keeps e node outs (count_node out) tx He Hin Hi) as [Hk Hf].
  pose proof (step_node_stores g e node now (count_node out) tx) as Hst. fold outs in Hst.
  destruct (step_node eng store e node outs now (count_node out) tx) as [tx1 [[o err]|r next]];
    simpl in Hk, Hf, Hst |- *.
  { split; [done|]. intros Hr _. specialize (Hf Hr). by destruct err. }
  destruct Hst as [Hrec Hnext].
  assert (Hgood : good_record g enrollment now r).
  { exists node. split; [done|]. split; [by destruct He as [->|[n ->]]|].
    intros Ha. left. exists next. by apply Hnext. }
  pose proof (keep_Record _ _ _ _ HK r tx1 Hgood Hk) as Hk2.
  assert (Href : refuses g enrollment now I -> (store_Record store r tx1).2 <> Ok true)
    by (intros [Hr' _]; by apply Hr').
  destruct (store_Record store r tx1) as [tx2 [[|]|]]; simpl in Hk2, Href; [|by split|by split].
  destruct (negb _); [split; [done|]; naive_solver|].
  destruct (IH (with_attempts e 0) next (count_node out) tx2) as [Hi2 _]; [|done|].
  - right. destruct He as [->|[n ->]]; by exists 0%Z.
  - split; [done|]. naive_solver.
Qed.
End Keeps.
End Running.

(** ** Properties of the engine *)

Section EngineProperties.
Context `{UnicodeTables, UUIDLib, ZoneDB, URLLib, UUIDHash} {Tx : Type}.

Lemma node_limit_pos (eng : Engine Tx) : (0 < node_limit eng)%Z.
Proof. unfold node_limit, DefaultMaxNodesPerTick. destruct (Z.leb_spec (eng_MaxNodesPerTick eng) 0); lia. Qed.

(** A tick preserves what its ports preserve, and reports an error when the
    store refuses its claim. *)
Lemma Advance_keeps (eng : Engine Tx) (store : StepStore Tx) (g : Graph) (enrollment : Enrollment)
    (now : time) (I : Tx -> Prop) (tx : Tx) :
  dep_Steps (eng_Deps eng) = Some store -> PortsKeep eng store g enrollment now I ->
  NoDup (map node_ID (graph_Nodes g)) -> I tx ->
  let res := Advance eng enrollment g now tx in
  I res.1 /\ (refuses store g enrollment now I -> res.2.2 <> None).
Proof.
  intros Hd HK Hnd Hi res. unfold res, Advance. rewrite Hd. pose proof (node_limit_pos eng).
  destruct (advance_loop_keeps eng store g enrollment now I HK (Z.to_nat (node_limit eng)) enrollment
              (enr_CurrentNodeID enrollment) start_outcome tx Hnd (or_introl eq_refl) Hi) as [Hk Hf].
  split; [done|]. intros Hr. apply Hf; [done|]. lia.
Qed.

(** C3: a graph accepted by [Validate] does not go wrong: as long as the ports
    are configured and none of them reports an invalid reference, a tick that
    starts at a node of the graph and is not on its last attempt never ends in
    the terminal status "errored".  In particular the engine's own decoding of
    every node config, predicate and clock succeeds and no edge leads outside
    the graph. *)
Theorem Advance_validated (eng : Engine Tx) (store : StepStore Tx) (refs : References) (g : Graph)
    (enrollment : Enrollment) (now : time) (tx : Tx) :
  dep_Steps (eng_Deps eng) = Some store -> PortsSound eng store -> Validate g refs = [] ->
  enr_CurrentNodeID enrollment ∈ map node_ID (graph_Nodes g) ->
  (enr_NodeAttempts enrollment + 1 < max_attempts eng)%Z -> (1 < max_attempts eng)%Z ->
  out_Status (Advance eng enrollment g now tx).2.1 <> "errored".
Proof.
  intros Hd HP Hv Hcur Hatt Hmax. apply validate_iff in Hv. unfold Advance. rewrite Hd.
  by eapply advance_loop_sound.
Qed.

(** For any ports, one tick over a valid graph appends to the step log a
    walk of the graph that starts at the enrollment's current node and follows
    its edges: every record is for its own node, this enrollment and this
    claim, names as next node the one the walk goes to, and no node is executed
    twice; neither the records nor the processed nodes exceed the node limit. *)
Theorem Advance_walks (eng : Engine Tx) (store : StepStore Tx) (log : Tx -> list StepRecord)
    (refs : References) (g : Graph) (enrollment : Enrollment) (now : time) (tx : Tx) :
  dep_Steps (eng_Deps eng) = Some store -> StepLog eng store log -> Validate g refs = [] ->
  let res := Advance eng enrollment g now tx in
  exists recs, log res.1 = log tx ++ recs /\
    walk g enrollment now (enr_CurrentNodeID enrollment) recs /\ NoDup (map rec_NodeID recs) /\
    (Z.of_nat (length recs) <= node_limit eng)%Z /\
    (0 <= out_NodesProcessed res.2.1 <= node_limit eng)%Z.
Proof.
  intros Hd HL Hv res. apply validate_iff in Hv. unfold res, Advance. rewrite Hd.
  assert (Hlim : (0 <= node_limit eng)%Z)
    by (unfold node_limit, DefaultMaxNodesPerTick; destruct (Z.leb_spec (eng_MaxNodesPerTick eng) 0); lia).
  destruct (advance_loop_walk eng store log HL g now (Z.to_nat (node_limit eng)) enrollment
              (enr_CurrentNodeID enrollment) start_outcome tx (wf_node_ids _ _ Hv))
    as (recs & Hl & Hw & Hlen).
  pose proof (advance_loop_count eng store (node_map g) (edge_map g) now (Z.to_nat (node_limit eng))
    enrollment (enr_CurrentNodeID enrollment) start_outcome tx) as Hc.
  change (out_NodesProcessed start_outcome) with 0%Z in Hc.
  exists recs. split_and!; try done; try lia. by eapply walk_nodup; [apply (wf_acyclic _ _ Hv)|].
Qed.

(** An until wait parks the enrollment until the first instant strictly
    after now at which the local clock of the configured zone shows the
    configured time, on the configured weekday if there is one, provided the
    zone has no transition within the days around now. *)
Theorem waitUntil_next (r : raw) (cfg : waitConfig) (loc : location) (off lo hi now : Z) :
  decodeConfig waitConfig_fields r waitConfig_zero = Some cfg -> wc_Mode cfg = "until" ->
  wc_Seconds cfg = None -> out_of_range (wc_Weekday cfg) 1 7 = false ->
  validClock (wc_Time cfg) = true -> LoadLocation (wc_Timezone cfg) = Some loc ->
  steady loc off lo hi -> (lo <= unix now - 2 * 86400)%Z -> (unix now + 9 * 86400 <= hi)%Z ->
  (- 86400 <= off <= 86400)%Z ->
  exists t h m, waitUntil r now = Ok t /\ parse_clock (wc_Time cfg) = Ok (h, m) /\
    next_local loc now h m (wc_Weekday cfg) t.
Proof.
  intros Hcfg Hmode Hsec Hwd Hclock Hloc Hst Hlo Hhi Hoff.
  destruct (parse_clock_valid _ Hclock) as (h & m & Hp & Hh & Hm).
  exists (until_target loc now h m (wc_Weekday cfg)), h, m.
  unfold waitUntil. rewrite Hcfg, Hmode, Hsec, Hwd, Hp, Hloc. simpl.
  split_and!; [done|done|]. eapply until_target_next; try done.
  destruct (wc_Weekday cfg) as [w|]; [|done]. simpl in Hwd. to_prop. lia.
Qed.

End EngineProperties.

(** The delay before retry number [p + 1] is thirty seconds doubled [p]
    times and capped at an hour, for every attempt count: the 64-bit product
    never overflows, and a negative count counts as zero. *)
Theorem retryDelay_doubles (p : Z) : retryDelay p = Z.min Hour (30 * Second * 2 ^ Z.max 0 p).
Proof. apply retryDelay_closed. Qed.

(** ** Witnesses

    An in-memory implementation of the ports whose transaction state is the
    step log itself. *)

#[local] Existing Instances demo_unicode demo_uuid demo_zones demo_urls demo_hash.

Definition demo_store : StepStore (list StepRecord) :=
  {| store_Record := fun r tx => (tx ++ [r], Ok true);
     store_Fail := fun _ tx => (tx, Ok true);
     store_Waiting := fun _ _ tx => (tx, Ok false);
     store_Delivery := fun _ _ tx => (tx, Ok None);
     store_EventExists := fun _ _ _ _ _ _ _ tx => (tx, Ok false) |}.

Definition demo_snapshot : SubscriberSnapshot :=
  {| snap_ID := 7; snap_BusinessID := 2; snap_TenantRootID := 3; snap_ListID := 1;
     snap_Email := "ada@example.org"; snap_Status := "active"; snap_Tags := [] |}.

Definition demo_engine : Engine (list StepRecord) :=
  {| eng_Deps :=
       {| dep_Subscribers := Some {| Snapshot := fun _ tx => (tx, Ok demo_snapshot);
                                     ActiveOnList := fun _ _ _ tx => (tx, Ok true);
                                     ResolveForList := fun _ _ _ tx => (tx, Ok 7%N) |};
          dep_Sender := Some {| Enqueue := fun m tx => (tx, Ok (msg_SourceID m)) |};
          dep_Engagement := Some {| Engagement := fun _ tx =>
                                      (tx, Ok {| eng_Opened := false; eng_ClickedURLs := [] |}) |};
          dep_Tagger := Some {| AddTag := fun _ _ _ _ _ _ tx => (tx, Ok tt);
                                RemoveTag := fun _ _ _ _ _ _ tx => (tx, Ok tt) |};
          dep_Steps := Some demo_store |};
     eng_MaxNodesPerTick := 0; eng_MaxNodeAttempts := 0 |}.

Definition demo_enrollment (node : string) : Enrollment :=
  {| enr_ID := 40; enr_BusinessID := 2; enr_TenantRootID := 3; enr_AutomationID := 4; enr_VersionID := 5;
     enr_SubscriberID := 7; enr_CurrentNodeID := node; enr_WakeAt := 0; enr_EnrolledAt := 0;
     enr_NodeAttempts := 1; enr_ClaimGeneration := 1 |}.

(** From the trigger, one tick sends the mail and parks at the wait node. *)
Example demo_tick :
  let res := Advance demo_engine (demo_enrollment "start") demo_graph 0 [] in
  (map rec_NodeID res.1, map rec_Outcome res.1, out_NodesProcessed res.2.1, out_Parked res.2.1)
  = (["start"; "hello"; "pause"], ["advanced"; "sent"; "waiting"], 3%Z, true).
Proof. vm_compute. reflexivity. Qed.

Lemma demo_ports_sound : PortsSound demo_engine demo_store.
Proof. split; try done; eexists; by repeat split. Qed.

Lemma demo_log : StepLog demo_engine demo_store (fun tx => tx).
Proof. split; try done; by intros ? [= <-]. Qed.

Lemma Advance_validated_witness :
  out_Status (Advance demo_engine (demo_enrollment "opened") demo_graph 0 []).2.1 <> "errored".
Proof.
  apply (Advance_validated demo_engine demo_store demo_refs demo_graph (demo_enrollment "opened") 0 []).
  - reflexivity.
  - apply demo_ports_sound.
  - vm_compute. reflexivity.
  - vm_decide.
  - vm_compute. reflexivity.
  - vm_compute. reflexivity.
Defined.

Lemma Advance_walks_witness :
  exists recs, (Advance demo_engine (demo_enrollment "start") demo_graph 0 []).1 = [] ++ recs /\
    walk demo_graph (demo_enrollment "start") 0 "start" recs.
Proof.
  destruct (Advance_walks demo_engine demo_store (fun tx => tx) demo_refs demo_graph
              (demo_enrollment "start") 0 []) as (recs & Hl & Hw & _).
  - reflexivity.
  - apply demo_log.
  - vm_compute. reflexivity.
  - exists recs. split; [exact Hl|exact Hw].
Defined.

(** Thursday 1970-01-01 00:00 UTC; the next Monday 09:30 one hour east of it is
    Monday the 5th, 08:30 UTC. *)
Definition demo_until : raw :=
  Some (JObj [("mode", JStr "until"); ("weekday", JInt 1); ("time", JStr "09:30");
              ("timezone", JStr "Etc/GMT-1")]).

Lemma waitUntil_next_witness :
  next_local (fixed_zone 3600) 0 9 30 (Some 1%Z) ((4 * 86400 + 8 * 3600 + 1800) * Second).
Proof.
  destruct (waitUntil_next demo_until
    {| wc_Mode := "until"; wc_Seconds := None; wc_Weekday := Some 1%Z; wc_Time := "09:30";
       wc_Timezone := "Etc/GMT-1" |} (fixed_zone 3600) 3600 (-1000000) 1000000 0)
    as (t & h & m & Ht & Hp & Hn); try reflexivity.
  - apply steady_fixed; lia.
  - vm_compute. discriminate.
  - vm_compute. discriminate.
  - split; vm_compute; discriminate.
  - vm_compute in Hp. injection Hp as <- <-. vm_compute in Ht. injection Ht as <-. exact Hn.
Defined.
