(* ===== verification/AutoStore.v ===== *)
(** * The automation tables and their SQL functions

    The tables of migration 0128 (with the columns later migrations add) and of
    the mailing schema that the automation subsystem reads, as finite maps, and
    the SECURITY DEFINER functions it calls, as functions on that state, in the
    versions that are in force after the last migration: 0129
    ([automation_fail_step], [automation_step_delivery]), 0130 (reads) and 0135
    (everything that is fenced).  Identity columns never change after insertion
    and are kept in a record of their own.

    PostgreSQL stores microseconds: [pg_time] truncates a Go time the way pgx
    does.  [gen_random_uuid()] is a UUID not in use.  The order of a
    subscriber's tags and the size limits of JSON columns are not modelled, nor
    is the normalisation of jsonb. *)

From S2P Require Import Prelude GoStrings GoTime GoJson AutoGraph Errors AutoEngine.
From stdpp Require Import sorting.

(** ** Enumerations *)

Inductive automation_status := ADraft | AActive | APaused | AArchived.
Inductive version_status := VDraft | VActive | VSuperseded.
Inductive enrollment_status := EActive | ECompleted | EExited | EErrored.
Inductive step_outcome :=
| OEntered | OWaiting | OAdvanced | OSent | OBranchYes | OBranchNo | OExited | OError.

Inductive delivery_status :=
| DQueued | DSending | DSent | DDelivered | DBounced | DComplained | DFailed | DSuppressed | DCancelled.

#[export] Instance delivery_status_eq_dec : EqDecision delivery_status.
Proof. solve_decision. Defined.
#[export] Instance automation_status_eq_dec : EqDecision automation_status.
Proof. solve_decision. Defined.
#[export] Instance version_status_eq_dec : EqDecision version_status.
Proof. solve_decision. Defined.
#[export] Instance enrollment_status_eq_dec : EqDecision enrollment_status.
Proof. solve_decision. Defined.
#[export] Instance step_outcome_eq_dec : EqDecision step_outcome.
Proof. solve_decision. Defined.

(** The casts [$n::automation_enrollment_status] and [$n::automation_step_outcome]. *)
Definition parse_enrollment_status (s : string) : option enrollment_status :=
  if String.eqb s "active" then Some EActive else if String.eqb s "completed" then Some ECompleted
  else if String.eqb s "exited" then Some EExited else if String.eqb s "errored" then Some EErrored
  else None.
Definition parse_outcome (s : string) : option step_outcome :=
  if String.eqb s "entered" then Some OEntered else if String.eqb s "waiting" then Some OWaiting
  else if String.eqb s "advanced" then Some OAdvanced else if String.eqb s "sent" then Some OSent
  else if String.eqb s "branch_yes" then Some OBranchYes else if String.eqb s "branch_no" then Some OBranchNo
  else if String.eqb s "exited" then Some OExited else if String.eqb s "error" then Some OError
  else None.

(** ** Rows *)

Record automation_row := {
  a_business : uuid; a_root : uuid; a_name : string; a_description : option string;
  a_status : automation_status; a_allow_reenroll : bool;
  a_active_version : option uuid; a_draft_version : option uuid;
  a_created_by : option uuid; a_created_at : time; a_updated_at : time
}.

Record template_content := { tpl_subject : string; tpl_preheader : option string; tpl_body : string }.

Record version_row := {
  v_business : uuid; v_root : uuid; v_automation : uuid; v_number : Z; v_status : version_status;
  v_graph : Graph; v_trigger_kind : option string; v_trigger_ref : option string;
  v_snapshot : option (gmap uuid template_content);
  v_activated_at : option time; v_created_at : time; v_updated_at : time
}.

Record enrollment_ref := {
  er_business : uuid; er_root : uuid; er_automation : uuid; er_version : uuid; er_subscriber : uuid;
  er_source_event : option uuid; er_enrolled_at : time
}.
Record enrollment_state := {
  es_status : enrollment_status; es_current_node : option string; es_wake_at : option time;
  es_lease : option time; es_generation : Z; es_attempts : Z; es_last_error : option string;
  es_exit_reason : option string; es_finished_at : option time; es_updated_at : time
}.
Record enrollment_row := { e_ref : enrollment_ref; e_st : enrollment_state }.

Record step_row := {
  st_version : uuid; st_kind : string; st_attempt : Z; st_entered_at : time;
  st_completed_at : option time; st_outcome : step_outcome; st_delivery : option uuid;
  st_detail : stepDetail
}.

Record subscriber_row := {
  s_business : uuid; s_root : uuid; s_list : uuid; s_email : string; s_first_name : option string;
  s_last_name : option string; s_status : string; s_tags : list string
}.

(** A row of [mailing_delivery]: who it is for and what authorizes it, which never
    change, and its life. *)
Record delivery_state := {
  ds_status : delivery_status; ds_attempts : Z; ds_generation : Z; ds_not_before : time;
  ds_lease : option time; ds_provider_id : option string; ds_opened_at : option time;
  ds_first_clicked_at : option time; ds_clicks : list string; (* the URLs of its click events *)
  ds_last_error : option string; ds_updated_at : time
}.
Record delivery_row := {
  d_business : uuid; d_root : uuid; d_source_kind : string; d_source_id : uuid;
  d_campaign : option uuid; d_template : option uuid;
  d_subscriber : uuid; d_email : string; d_message_id : string;
  d_track_opens : option bool; d_track_clicks : option bool;
  d_fence : option (uuid * uuid * Z);      (* enrollment, version, claim generation *)
  d_created_at : time; d_st : delivery_state
}.

Record event_row := {
  ev_id : uuid; ev_business : uuid; ev_root : uuid; ev_name : string; ev_email : string;
  ev_subscriber : option uuid; ev_occurred_at : time; ev_properties : json;
  ev_idempotency : option string; ev_ingress_list : option uuid; ev_ingress_key : option uuid;
  ev_fingerprint : option string; ev_created_at : time
}.

Record list_row := { l_business : uuid; l_root : uuid; l_name : string; l_active : bool }.
Record template_row := { t_business : uuid; t_root : uuid; t_content : template_content }.
Record business_row := { b_root : uuid; b_active : bool; b_deleted : bool }.

(** An ingress key of a mailing list ([mailing_list_key]). *)
Record list_key_row := { k_business : uuid; k_root : uuid; k_list : uuid; k_revoked : bool }.

(** A row of the transactional outbox. *)
Record outbox_row := {
  ob_root : uuid; ob_topic : string; ob_payload : json; ob_attempts : Z;
  ob_available_at : time; ob_processed_at : option time
}.

Record audit_entry := {
  au_principal : uuid; au_business : uuid; au_root : uuid; au_action : string;
  au_target_type : string; au_target : uuid; au_value : json
}.

Record db := {
  db_automations : gmap uuid automation_row;
  db_versions : gmap uuid version_row;
  db_enrollments : gmap uuid enrollment_row;
  db_steps : gmap (uuid * string) step_row;
  db_events : list event_row;
  db_subscribers : gmap uuid subscriber_row;
  db_deliveries : gmap uuid delivery_row;
  db_lists : gmap uuid list_row;
  db_templates : gmap uuid template_row;
  db_businesses : gmap uuid business_row;
  db_fenced_roots : gset uuid;              (* tenant_merge_fence *)
  db_list_keys : gmap uuid list_key_row;
  db_outbox : gmap uuid outbox_row;
  db_audit : list audit_entry
}.

Definition set_automations (m : gmap uuid automation_row) (d : db) : db :=
  {| db_automations := m; db_versions := db_versions d; db_enrollments := db_enrollments d;
     db_steps := db_steps d; db_events := db_events d; db_subscribers := db_subscribers d;
     db_deliveries := db_deliveries d; db_lists := db_lists d; db_templates := db_templates d;
     db_businesses := db_businesses d; db_fenced_roots := db_fenced_roots d;
     db_list_keys := db_list_keys d;
     db_outbox := db_outbox d; db_audit := db_audit d |}.
Definition set_versions (m : gmap uuid version_row) (d : db) : db :=
  {| db_automations := db_automations d; db_versions := m; db_enrollments := db_enrollments d;
     db_steps := db_steps d; db_events := db_events d; db_subscribers := db_subscribers d;
     db_deliveries := db_deliveries d; db_lists := db_lists d; db_templates := db_templates d;
     db_businesses := db_businesses d; db_fenced_roots := db_fenced_roots d;
     db_list_keys := db_list_keys d;
     db_outbox := db_outbox d; db_audit := db_audit d |}.
Definition set_enrollments (m : gmap uuid enrollment_row) (d : db) : db :=
  {| db_automations := db_automations d; db_versions := db_versions d; db_enrollments := m;
     db_steps := db_steps d; db_events := db_events d; db_subscribers := db_subscribers d;
     db_deliveries := db_deliveries d; db_lists := db_lists d; db_templates := db_templates d;
     db_businesses := db_businesses d; db_fenced_roots := db_fenced_roots d;
     db_list_keys := db_list_keys d;
     db_outbox := db_outbox d; db_audit := db_audit d |}.
Definition set_steps (m : gmap (uuid * string) step_row) (d : db) : db :=
  {| db_automations := db_automations d; db_versions := db_versions d;
     db_enrollments := db_enrollments d; db_steps := m; db_events := db_events d;
     db_subscribers := db_subscribers d; db_deliveries := db_deliveries d; db_lists := db_lists d;
     db_templates := db_templates d; db_businesses := db_businesses d;
     db_fenced_roots := db_fenced_roots d; db_list_keys := db_list_keys d;
     db_outbox := db_outbox d; db_audit := db_audit d |}.
Definition set_subscribers (m : gmap uuid subscriber_row) (d : db) : db :=
  {| db_automations := db_automations d; db_versions := db_versions d;
     db_enrollments := db_enrollments d; db_steps := db_steps d; db_events := db_events d;
     db_subscribers := m; db_deliveries := db_deliveries d; db_lists := db_lists d;
     db_templates := db_templates d; db_businesses := db_businesses d;
     db_fenced_roots := db_fenced_roots d; db_list_keys := db_list_keys d;
     db_outbox := db_outbox d; db_audit := db_audit d |}.
Definition set_deliveries (m : gmap uuid delivery_row) (d : db) : db :=
  {| db_automations := db_automations d; db_versions := db_versions d;
     db_enrollments := db_enrollments d; db_steps := db_steps d; db_events := db_events d;
     db_subscribers := db_subscribers d; db_deliveries := m; db_lists := db_lists d;
     db_templates := db_templates d; db_businesses := db_businesses d;
     db_fenced_roots := db_fenced_roots d; db_list_keys := db_list_keys d;
     db_outbox := db_outbox d; db_audit := db_audit d |}.
Definition set_events (l : list event_row) (out : gmap uuid outbox_row) (d : db) : db :=
  {| db_automations := db_automations d; db_versions := db_versions d;
     db_enrollments := db_enrollments d; db_steps := db_steps d; db_events := l;
     db_subscribers := db_subscribers d; db_deliveries := db_deliveries d; db_lists := db_lists d;
     db_templates := db_templates d; db_businesses := db_businesses d;
     db_fenced_roots := db_fenced_roots d; db_list_keys := db_list_keys d;
     db_outbox := out; db_audit := db_audit d |}.
Definition add_audit (a : audit_entry) (d : db) : db :=
  {| db_automations := db_automations d; db_versions := db_versions d;
     db_enrollments := db_enrollments d; db_steps := db_steps d; db_events := db_events d;
     db_subscribers := db_subscribers d; db_deliveries := db_deliveries d; db_lists := db_lists d;
     db_templates := db_templates d; db_businesses := db_businesses d;
     db_fenced_roots := db_fenced_roots d; db_list_keys := db_list_keys d;
     db_outbox := db_outbox d; db_audit := db_audit d ++ [a] |}.

Definition pg_time (t : time) : time := (t / 1000 * 1000)%Z.

(** ** Eligibility *)

Definition root_write_allowed (d : db) (root : uuid) : bool := negb (bool_decide (root ∈ db_fenced_roots d)).

Definition business_operational (d : db) (business root : uuid) : bool :=
  match db_businesses d !! business with
  | Some b => N.eqb (b_root b) root && b_active b && negb (b_deleted b)
  | None => false
  end.

Definition list_operational (d : db) (list business root : uuid) : bool :=
  match db_lists d !! list with
  | Some l => N.eqb (l_business l) business && N.eqb (l_root l) root && l_active l &&
              business_operational d business root
  | None => false
  end.

(** The joins of an enrollment to its automation, version and subscriber, each
    on the id, the business and the tenant root. *)
Definition join_enrollment (d : db) (r : enrollment_ref)
  : option (automation_row * version_row * subscriber_row) :=
  match db_automations d !! er_automation r, db_versions d !! er_version r,
        db_subscribers d !! er_subscriber r with
  | Some a, Some v, Some s =>
      if N.eqb (a_business a) (er_business r) && N.eqb (a_root a) (er_root r) &&
         N.eqb (v_automation v) (er_automation r) && N.eqb (v_business v) (er_business r) &&
         N.eqb (v_root v) (er_root r) &&
         N.eqb (s_business s) (er_business r) && N.eqb (s_root s) (er_root r)
      then Some (a, v, s) else None
  | _, _, _ => None
  end.

(** The conditions [automation_execution_fence] and [automation_claim_due] share. *)
Definition runnable (d : db) (e : enrollment_row) : bool :=
  match join_enrollment d (e_ref e) with
  | Some (a, v, s) =>
      bool_decide (es_status (e_st e) = EActive) && bool_decide (a_status a = AActive) &&
      bool_decide (v_snapshot v <> None) && String.eqb (s_status s) "active" &&
      business_operational d (er_business (e_ref e)) (er_root (e_ref e)) &&
      list_operational d (s_list s) (s_business s) (s_root s) &&
      root_write_allowed d (er_root (e_ref e))
  | None => false
  end.

(** [p IS NULL OR x = p] *)
Definition null_or (p : option uuid) (x : uuid) : bool :=
  match p with Some y => N.eqb x y | None => true end.

Definition automation_execution_fence (d : db) (enrollment : uuid) (generation : Z)
    (business root subscriber : option uuid) : bool :=
  match db_enrollments d !! enrollment with
  | Some e => runnable d e && (es_generation (e_st e) =? generation)%Z &&
              null_or business (er_business (e_ref e)) && null_or root (er_root (e_ref e)) &&
              null_or subscriber (er_subscriber (e_ref e))
  | None => false
  end.

(** ** Claiming work *)

Definition due (d : db) (locked : gset uuid) (now : time) (id : uuid) (e : enrollment_row) : bool :=
  runnable d e &&
  match es_wake_at (e_st e) with Some w => (w <=? now)%Z | None => false end &&
  match es_lease (e_st e) with Some l => (l <=? now)%Z | None => true end &&
  negb (bool_decide (id ∈ locked)).

Definition wake_or_zero (e : enrollment_row) : time := default 0%Z (es_wake_at (e_st e)).

(** [ORDER BY wake_at, id] *)
Definition claim_before (x y : uuid * enrollment_row) : Prop :=
  (wake_or_zero (snd x) < wake_or_zero (snd y))%Z \/
  (wake_or_zero (snd x) = wake_or_zero (snd y) /\ (fst x <= fst y)%N).
#[export] Instance claim_before_dec (x y : uuid * enrollment_row) : Decision (claim_before x y).
Proof. unfold claim_before. apply _. Defined.

Definition claim_limit (limit : Z) : nat := Z.to_nat (Z.max 1 (Z.min limit 1000)).

(** The claim itself: a lease and a new generation. *)
Definition claim_state (now lease : Z) (st : enrollment_state) : enrollment_state :=
  {| es_status := es_status st; es_current_node := es_current_node st; es_wake_at := es_wake_at st;
     es_lease := Some (now + Z.max lease (10 * Second))%Z; es_generation := (es_generation st + 1)%Z;
     es_attempts := es_attempts st; es_last_error := es_last_error st;
     es_exit_reason := es_exit_reason st; es_finished_at := es_finished_at st; es_updated_at := now |}.

(** A row of the result: the enrollment after the claim, with its version's graph. *)
Record claim_row := { cr_id : uuid; cr_row : enrollment_row; cr_graph : Graph }.

Definition claim_result (d : db) (x : uuid * enrollment_row) : list claim_row :=
  match join_enrollment d (e_ref (snd x)) with
  | Some (_, v, _) => [{| cr_id := fst x; cr_row := snd x; cr_graph := v_graph v |}]
  | None => []
  end.

(** [locked] holds the rows other transactions have locked (SKIP LOCKED).  The
    columns claim_generation and node_attempts are of type integer; here they are
    unbounded: an enrollment would have to be claimed 2^31 times before the
    statement failed. *)
Definition automation_claim_due (locked : gset uuid) (now0 : time) (limit : Z) (lease : duration) (d : db)
  : db * list claim_row :=
  let now := pg_time now0 in
  let candidates :=
    take (claim_limit limit)
      (merge_sort claim_before
        (List.filter (fun x => due d locked now (fst x) (snd x)) (map_to_list (db_enrollments d)))) in
  let claimed := map (fun x => (fst x, {| e_ref := e_ref (snd x);
                                          e_st := claim_state now lease (e_st (snd x)) |})) candidates in
  let d' := set_enrollments (fold_left (fun m x => <[fst x := snd x]> m) claimed (db_enrollments d)) d in
  (d', flat_map (claim_result d') claimed).

(** ** Recording a step *)

Definition sql {A : Type} (code msg : string) : result error A := Err (PgError code msg).

Definition step_kinds : list string :=
  ["trigger"; "send_email"; "wait"; "condition"; "add_tag"; "remove_tag"; "exit"].

(** The foreign key of [delivery_id]. *)
Definition delivery_known (d : db) (business root : uuid) (delivery : option uuid) : bool :=
  match delivery with
  | None => true
  | Some id => match db_deliveries d !! id with
               | Some r => N.eqb (d_business r) business && N.eqb (d_root r) root
               | None => false
               end
  end.

Definition step_completed (d : db) (enrollment : uuid) (node : string) : bool :=
  match db_steps d !! (enrollment, node) with
  | Some st => bool_decide (st_completed_at st <> None)
  | None => false
  end.

(** [INSERT ... ON CONFLICT (enrollment_id, node_id) DO UPDATE] *)
Definition upsert_step (old : option step_row) (new : step_row) : step_row :=
  match old with
  | None => new
  | Some s =>
      {| st_version := st_version s; st_kind := st_kind new;
         st_attempt := Z.max (st_attempt s) (st_attempt new); st_entered_at := st_entered_at s;
         st_completed_at := match st_completed_at s with Some t => Some t | None => st_completed_at new end;
         st_outcome := st_outcome new;
         st_delivery := match st_delivery new with Some x => Some x | None => st_delivery s end;
         st_detail := st_detail new |}
  end.

(** [left(COALESCE(NULLIF(p, ''), fallback), n)] *)
Definition text_or (p fallback : string) (n : Z) : string :=
  left_runes n (if String.eqb p "" then fallback else p).

Definition recorded_state (status : enrollment_status) (next : option string) (wake_at : option time)
    (at_ : time) (detail : stepDetail) (st : enrollment_state) : enrollment_state :=
  let active := bool_decide (status = EActive) in
  {| es_status := status;
     es_current_node := if active then match next with Some n => Some n | None => es_current_node st end else None;
     es_wake_at := if active then Some (default at_ wake_at) else None;
     es_lease := None; es_generation := es_generation st; es_attempts := 0; es_last_error := None;
     es_exit_reason := if bool_decide (status = EExited)
                       then Some (text_or (match detail with ReasonDetail r => r | _ => "" end)
                                          "subscriber_inactive" 200)
                       else es_exit_reason st;
     es_finished_at := if active then None else Some at_; es_updated_at := at_ |}.

Definition automation_record_step (r : StepRecord) (d : db) : result error (db * bool) :=
  match parse_outcome (rec_Outcome r), parse_enrollment_status (rec_Status r) with
  | None, _ => sql "22P02" "invalid input value for enum automation_step_outcome"
  | _, None => sql "22P02" "invalid input value for enum automation_enrollment_status"
  | Some outcome, Some status =>
      let at_ := pg_time (rec_RecordedAt r) in
      if negb (automation_execution_fence d (rec_EnrollmentID r) (rec_ClaimGeneration r) None None None)
      then Ok (d, false)
      else match db_enrollments d !! rec_EnrollmentID r with
      | None => Ok (d, false)
      | Some e =>
          if step_completed d (rec_EnrollmentID r) (rec_NodeID r) then Ok (d, true) else
          let new := {| st_version := er_version (e_ref e); st_kind := rec_NodeKind r;
                        st_attempt := (es_attempts (e_st e) + 1)%Z; st_entered_at := at_;
                        st_completed_at := if bool_decide (outcome = OEntered) || bool_decide (outcome = OWaiting)
                                           then None else Some at_;
                        st_outcome := outcome; st_delivery := rec_DeliveryID r; st_detail := rec_Detail r |} in
          let key := (rec_EnrollmentID r, rec_NodeID r) in
          let st' := recorded_state status (rec_NextNodeID r) (option_map pg_time (rec_WakeAt r)) at_
                       (rec_Detail r) (e_st e) in
          if negb (graphIDPattern (rec_NodeID r)) || negb (existsb (String.eqb (rec_NodeKind r)) step_kinds)
             || (es_attempts (e_st e) + 1 <=? 0)%Z
             || match es_current_node st' with Some n => negb (graphIDPattern n) | None => false end
          then sql "23514" "check constraint violated"
          else if negb (delivery_known d (er_business (e_ref e)) (er_root (e_ref e)) (rec_DeliveryID r))
          then sql "23503" "automation_step_delivery_fk"
          else Ok (set_enrollments (<[rec_EnrollmentID r := {| e_ref := e_ref e; e_st := st' |}]> (db_enrollments d))
                     (set_steps (<[key := upsert_step (db_steps d !! key) new]> (db_steps d)) d), true)
      end
  end.

(** ** Failing a step *)

Definition failed_state (msg : string) (terminal : bool) (retry_at now : time) (st : enrollment_state)
  : enrollment_state :=
  {| es_status := if terminal then EErrored else es_status st; es_current_node := es_current_node st;
     es_wake_at := if terminal then None else Some (Z.max retry_at now);
     es_lease := None; es_generation := es_generation st; es_attempts := (es_attempts st + 1)%Z;
     es_last_error := Some (text_or msg "automation step failed" 4096);
     es_exit_reason := es_exit_reason st;
     es_finished_at := if terminal then Some now else None; es_updated_at := now |}.

Definition automation_fail_step (f : StepFailure) (now : time) (d : db) : db * bool :=
  match db_enrollments d !! fail_EnrollmentID f with
  | Some e =>
      if bool_decide (es_status (e_st e) = EActive) &&
         (es_generation (e_st e) =? fail_ClaimGeneration f)%Z && root_write_allowed d (er_root (e_ref e))
      then (set_enrollments (<[fail_EnrollmentID f :=
              {| e_ref := e_ref e;
                 e_st := failed_state (fail_Error f) (fail_Terminal f) (pg_time (fail_RetryAt f)) now (e_st e) |}]>
              (db_enrollments d)) d, true)
      else (d, false)
  | None => (d, false)
  end.

(** ** Reads *)

Definition automation_step_waiting (d : db) (enrollment : uuid) (node : string) : bool :=
  match db_steps d !! (enrollment, node) with
  | Some st => bool_decide (st_outcome st = OWaiting) && bool_decide (st_completed_at st = None)
  | None => false
  end.

Definition automation_step_delivery (d : db) (enrollment : uuid) (node : string) : option uuid :=
  match db_steps d !! (enrollment, node) with Some st => st_delivery st | None => None end.

Section SQL.
Context `{UnicodeTables, UUIDLib}.

(** Equality of the [citext] type. *)
Definition citext_eq (a b : string) : bool := String.eqb (ToLower a) (ToLower b).

Definition mailing_automation_subscriber_snapshot (d : db) (subscriber : uuid) : option SubscriberSnapshot :=
  match db_subscribers d !! subscriber with
  | Some s => Some {| snap_ID := subscriber; snap_BusinessID := s_business s; snap_TenantRootID := s_root s;
                      snap_ListID := s_list s; snap_Email := s_email s; snap_Status := s_status s;
                      snap_Tags := s_tags s |}
  | None => None
  end.

Definition subscriber_of (business : uuid) (email : string) (list : uuid) (s : subscriber_row) : bool :=
  N.eqb (s_business s) business && N.eqb (s_list s) list && citext_eq (s_email s) email.

Definition mailing_automation_active_on_list (d : db) (business : uuid) (email : string) (list : uuid) : bool :=
  existsb (fun x => subscriber_of business email list (snd x) && String.eqb (s_status (snd x)) "active")
          (map_to_list (db_subscribers d)).

(** At most one subscriber of a list has an address, so the row is unique. *)
Definition mailing_automation_resolve_for_list (d : db) (business : uuid) (email : string) (list : uuid)
  : option uuid :=
  option_map fst (List.find (fun x => subscriber_of business email list (snd x))
                            (map_to_list (db_subscribers d))).

Definition mailing_automation_delivery_engagement (d : db) (delivery : uuid) : option EngagementData :=
  match db_deliveries d !! delivery with
  | Some r => Some {| eng_Opened := bool_decide (ds_opened_at (d_st r) <> None);
                      eng_ClickedURLs := ds_clicks (d_st r) |}
  | None => None
  end.

Definition automation_event_exists (d : db) (business list : uuid) (email name : string)
    (since evaluation : time) (within : option duration) : bool :=
  existsb (fun e =>
    N.eqb (ev_business e) business && citext_eq (ev_email e) email && String.eqb (ev_name e) name &&
    (since <=? ev_occurred_at e)%Z && (ev_occurred_at e <=? evaluation)%Z &&
    match within with Some w => (evaluation - Z.max w 0 <=? ev_occurred_at e)%Z | None => true end &&
    match ev_ingress_list e with
    | Some l => N.eqb l list
    | None => match ev_subscriber e with
              | None => true
              | Some sid => match db_subscribers d !! sid with
                            | Some s => N.eqb (s_business s) (ev_business e) && N.eqb (s_list s) list
                            | None => false
                            end
              end
    end) (db_events d).

(** ** Deliveries *)

Definition message_domain_ok (s : string) : bool :=
  let v := ToLower (btrim s) in
  negb (String.eqb v "") &&
  forallb (fun c => is_lower c || is_digit c || Ascii.eqb c "." || Ascii.eqb c "-") (bytes v).

Definition has_template (v : version_row) (template : uuid) : bool :=
  match v_snapshot v with Some m => bool_decide (m !! template <> None) | None => false end.

(** The unique key [(source_kind, source_id, subscriber_id)]. *)
Definition same_source (kind : string) (source subscriber : uuid) (r : delivery_row) : bool :=
  String.eqb (d_source_kind r) kind && N.eqb (d_source_id r) source && N.eqb (d_subscriber r) subscriber.

(** The columns a delivery starts with. *)
Definition queued_state (not_before now : time) : delivery_state :=
  {| ds_status := DQueued; ds_attempts := 0; ds_generation := 0; ds_not_before := not_before; ds_lease := None;
     ds_provider_id := None; ds_opened_at := None; ds_first_clicked_at := None; ds_clicks := [];
     ds_last_error := None; ds_updated_at := now |}.

Definition mailing_enqueue_delivery (m : MessageSpec) (domain : string) (now : time) (d : db)
  : result error (db * option uuid) :=
  if negb (message_domain_ok domain) then sql "22023" "invalid mailing message domain" else
  if negb (automation_execution_fence d (msg_EnrollmentID m) (msg_ClaimGeneration m)
             (Some (msg_BusinessID m)) (Some (msg_TenantRootID m)) (Some (msg_SubscriberID m)))
  then Ok (d, None) else
  match db_enrollments d !! msg_EnrollmentID m with
  | None => Ok (d, None)
  | Some e =>
      match db_subscribers d !! msg_SubscriberID m, db_versions d !! er_version (e_ref e) with
      | Some s, Some v =>
          if negb (N.eqb (s_business s) (msg_BusinessID m) && N.eqb (s_root s) (msg_TenantRootID m) &&
                   has_template v (msg_TemplateID m))
          then Ok (d, None)
          else
            let fence := (msg_EnrollmentID m, er_version (e_ref e), msg_ClaimGeneration m) in
            match List.find (fun x => same_source "automation" (msg_SourceID m) (msg_SubscriberID m) (snd x))
                            (map_to_list (db_deliveries d)) with
            | Some (id, r) =>
                Ok (d, if N.eqb (d_business r) (msg_BusinessID m) && N.eqb (d_root r) (msg_TenantRootID m) &&
                          bool_decide (d_template r = Some (msg_TemplateID m)) && bool_decide (d_fence r = Some fence)
                       then Some id else None)
            | None =>
                let id := fresh (dom (db_deliveries d)) in
                let r := {| d_business := msg_BusinessID m; d_root := msg_TenantRootID m;
                            d_source_kind := "automation"; d_source_id := msg_SourceID m;
                            d_campaign := None; d_template := Some (msg_TemplateID m);
                            d_subscriber := msg_SubscriberID m; d_email := s_email s;
                            d_message_id := uuid_String id +:+ "@" +:+ ToLower (btrim domain);
                            d_track_opens := Some (msg_TrackOpens m); d_track_clicks := Some (msg_TrackClicks m);
                            d_fence := Some fence; d_created_at := now;
                            d_st := queued_state (pg_time (msg_NotBefore m)) now |} in
                Ok (set_deliveries (<[id := r]> (db_deliveries d)) d, Some id)
            end
      | _, _ => Ok (d, None)
      end
  end.

(** ** Tags *)

Definition with_tags (tags : list string) (s : subscriber_row) : subscriber_row :=
  {| s_business := s_business s; s_root := s_root s; s_list := s_list s; s_email := s_email s;
     s_first_name := s_first_name s; s_last_name := s_last_name s; s_status := s_status s; s_tags := tags |}.

Definition mailing_automation_add_tag (business root subscriber : uuid) (tag : string)
    (enrollment : uuid) (generation : Z) (d : db) : db * bool :=
  if negb (automation_execution_fence d enrollment generation (Some business) (Some root) (Some subscriber))
  then (d, false) else
  match db_subscribers d !! subscriber with
  | Some s =>
      if N.eqb (s_business s) business && N.eqb (s_root s) root && String.eqb (s_status s) "active" then
        let tag := btrim tag in
        (if existsb (citext_eq tag) (s_tags s) then d
         else set_subscribers (<[subscriber := with_tags (s_tags s ++ [tag]) s]> (db_subscribers d)) d, true)
      else (d, false)
  | None => (d, false)
  end.

Definition mailing_automation_remove_tag (business root subscriber : uuid) (tag : string)
    (enrollment : uuid) (generation : Z) (d : db) : db * bool :=
  if negb (automation_execution_fence d enrollment generation (Some business) (Some root) (Some subscriber))
  then (d, false) else
  match db_subscribers d !! subscriber with
  | Some s =>
      if N.eqb (s_root s) root then
        (set_subscribers (<[subscriber :=
           with_tags (List.filter (fun t => negb (citext_eq t (btrim tag))) (s_tags s)) s]> (db_subscribers d)) d, true)
      else (d, true)
  | None => (d, true)
  end.

(** ** Enrolling and exiting *)

Definition exited_state (reason : string) (now : time) (st : enrollment_state) : enrollment_state :=
  {| es_status := EExited; es_current_node := None; es_wake_at := None; es_lease := None;
     es_generation := (es_generation st + 1)%Z; es_attempts := es_attempts st;
     es_last_error := es_last_error st; es_exit_reason := Some reason;
     es_finished_at := Some now; es_updated_at := now |}.

(** [UPDATE automation_enrollment SET ... WHERE p AND status = 'active'] *)
Definition update_active (p : uuid -> enrollment_ref -> bool) (f : enrollment_state -> enrollment_state)
    (m : gmap uuid enrollment_row) : gmap uuid enrollment_row :=
  map_imap (fun id e => Some (if p id (e_ref e) && bool_decide (es_status (e_st e) = EActive)
                              then {| e_ref := e_ref e; e_st := f (e_st e) |} else e)) m.

Definition automation_exit_for_subscriber (subscriber root : uuid) (reason : string) (now : time) (d : db) : db :=
  if negb (root_write_allowed d root) then d else
  set_enrollments (update_active
    (fun _ r => N.eqb (er_subscriber r) subscriber && N.eqb (er_root r) root)
    (exited_state (text_or reason "subscriber_inactive" 200) now) (db_enrollments d)) d.

(** [node->'config'->>key] when it is a string; any other JSON value is not the
    text of a UUID and reads as absent. *)
Definition config_text (r : raw) (key : string) : option string :=
  match r with
  | Some (JObj ms) =>
      match List.find (fun m => String.eqb (fst m) key) (rev ms) with
      | Some (_, JStr s) => Some s
      | _ => None
      end
  | _ => None
  end.

Definition trigger_node (g : Graph) : option Node :=
  List.find (fun n => String.eqb (node_Kind n) "trigger" && graphIDPattern (node_ID n)) (graph_Nodes g).

Definition new_enrollment (r : enrollment_ref) (node : string) (now : time) : enrollment_row :=
  {| e_ref := r;
     e_st := {| es_status := EActive; es_current_node := Some node; es_wake_at := Some now; es_lease := None;
                es_generation := 0; es_attempts := 0; es_last_error := None; es_exit_reason := None;
                es_finished_at := None; es_updated_at := now |} |}.

(** The two partial unique indexes on enrollments. *)
Definition enrollment_conflict (m : gmap uuid enrollment_row) (r : enrollment_ref) : bool :=
  existsb (fun x =>
    N.eqb (er_automation (e_ref (snd x))) (er_automation r) &&
    ((N.eqb (er_subscriber (e_ref (snd x))) (er_subscriber r) && bool_decide (es_status (e_st (snd x)) = EActive))
     || match er_source_event r with
        | Some ev => bool_decide (er_source_event (e_ref (snd x)) = Some ev)
        | None => false
        end)) (map_to_list m).

Definition enrolled_before (m : gmap uuid enrollment_row) (automation subscriber : uuid) : bool :=
  existsb (fun x => N.eqb (er_automation (e_ref (snd x))) automation &&
                    N.eqb (er_subscriber (e_ref (snd x))) subscriber) (map_to_list m).

(** The rows selected for insertion by [automation_enroll_for_trigger]. *)
Definition trigger_matches (d : db) (business root : uuid) (kind ref : string) (subscriber : uuid)
    (s : subscriber_row) (event : uuid) (now : time) (x : uuid * automation_row) : list (enrollment_ref * string) :=
  let '(id, a) := x in
  match a_active_version a with
  | None => []
  | Some vid =>
      match db_versions d !! vid with
      | None => []
      | Some v =>
          match trigger_node (v_graph v) with
          | None => []
          | Some node =>
              if N.eqb (v_automation v) id && N.eqb (v_business v) (a_business a) && N.eqb (v_root v) (a_root a) &&
                 N.eqb (a_business a) business && N.eqb (a_root a) root &&
                 bool_decide (a_status a = AActive) && bool_decide (v_status v = VActive) &&
                 bool_decide (v_snapshot v <> None) &&
                 bool_decide (v_trigger_kind v = Some kind) && bool_decide (v_trigger_ref v = Some ref) &&
                 bool_decide (config_text (node_Config node) "list_id" = Some (uuid_String (s_list s))) &&
                 business_operational d (a_business a) (a_root a) &&
                 list_operational d (s_list s) (a_business a) (a_root a) &&
                 (a_allow_reenroll a || negb (enrolled_before (db_enrollments d) id subscriber))
              then [({| er_business := a_business a; er_root := a_root a; er_automation := id; er_version := vid;
                        er_subscriber := subscriber; er_source_event := Some event; er_enrolled_at := now |},
                     node_ID node)]
              else []
          end
      end
  end.

(** [ON CONFLICT DO NOTHING] *)
Definition insert_enrollment (now : time) (m : gmap uuid enrollment_row) (x : enrollment_ref * string)
  : gmap uuid enrollment_row :=
  if enrollment_conflict m (fst x) then m
  else <[fresh (dom m) := new_enrollment (fst x) (snd x) now]> m.

Definition automation_enroll_for_trigger (business root : uuid) (kind ref : string) (subscriber event : uuid)
    (now0 : time) (d : db) : result error (db * Z) :=
  let now := pg_time now0 in
  if negb (root_write_allowed d root) then Ok (d, 0%Z) else
  match db_subscribers d !! subscriber with
  | Some s =>
      if N.eqb (s_business s) business && N.eqb (s_root s) root && String.eqb (s_status s) "active" then
        let rows := flat_map (trigger_matches d business root kind ref subscriber s event now)
                             (map_to_list (db_automations d)) in
        let m := fold_left (insert_enrollment now) rows (db_enrollments d) in
        Ok (set_enrollments m d, (Z.of_nat (size m) - Z.of_nat (size (db_enrollments d)))%Z)
      else sql "22023" "subscriber is not active in the requested business and tenant root"
  | None => sql "22023" "subscriber is not active in the requested business and tenant root"
  end.

Definition automation_event_trigger_lists (d : db) (business root : uuid) (name : string) (listID : option uuid)
  : list uuid :=
  elements (list_to_set (C := gset uuid) (flat_map (fun x =>
    let '(id, a) := x in
    match a_active_version a with
    | None => []
    | Some vid =>
        match db_versions d !! vid with
        | None => []
        | Some v =>
            if N.eqb (v_automation v) id && N.eqb (v_business v) (a_business a) && N.eqb (v_root v) (a_root a) &&
               N.eqb (a_business a) business && N.eqb (a_root a) root &&
               bool_decide (a_status a = AActive) && bool_decide (v_status v = VActive) &&
               bool_decide (v_snapshot v <> None) &&
               bool_decide (v_trigger_kind v = Some "event") && bool_decide (v_trigger_ref v = Some name) &&
               business_operational d (a_business a) (a_root a) && root_write_allowed d root
            then flat_map (fun node =>
                   match config_text (node_Config node) "list_id" with
                   | Some text =>
                       match uuid_Parse text with
                       | Some l =>
                           if String.eqb (node_Kind node) "trigger" &&
                              bool_decide (config_text (node_Config node) "type" = Some "event") &&
                              null_or listID l && list_operational d l (a_business a) (a_root a)
                           then [l] else []
                       | None => []
                       end
                   | None => []
                   end) (graph_Nodes (v_graph v))
            else []
        end
    end) (map_to_list (db_automations d)))).
End SQL.

(** ** Transactions

    A failed statement aborts the transaction: later statements fail too, and a
    commit becomes a rollback. *)

Record tx := { tx_db : db; tx_aborted : bool; tx_now : time }.

Definition aborted_error : error :=
  PgError "25P02" "current transaction is aborted, commands ignored until end of transaction block".

Definition exec {A : Type} (f : time -> db -> result error (db * A)) (t : tx) : tx * result error A :=
  if tx_aborted t then (t, Err aborted_error)
  else match f (tx_now t) (tx_db t) with
       | Ok (d, a) => ({| tx_db := d; tx_aborted := false; tx_now := tx_now t |}, Ok a)
       | Err e => ({| tx_db := tx_db t; tx_aborted := true; tx_now := tx_now t |}, Err e)
       end.

(** A query that cannot fail or change anything. *)
Definition query {A : Type} (f : db -> A) : tx -> tx * result error A := exec (fun _ d => Ok (d, f d)).
(** A query scanned into one row: no row is an error that leaves the transaction usable. *)
Definition query_row {A : Type} (f : db -> option A) (t : tx) : tx * result error A :=
  match query f t with
  | (t', Ok (Some a)) => (t', Ok a)
  | (t', Ok None) => (t', Err ErrNoRows)
  | (t', Err e) => (t', Err e)
  end.

(** [DB.WithTx]: commit when the body returns no error, else roll back. *)
Definition WithTx {A : Type} (now : time) (body : tx -> tx * (A * option error)) (d : db) : db * (A * option error) :=
  match body {| tx_db := d; tx_aborted := false; tx_now := now |} with
  | (_, (a, Some e)) => (d, (a, Some e))
  | (t, (a, None)) => if tx_aborted t then (d, (a, Some ErrTxCommitRollback)) else (tx_db t, (a, None))
  end.
