(* ===== verification/AutoStepper.v ===== *)
(** * The stepper and the SQL implementations of its ports

    [SQLStepStore] and [Stepper] of [internal/automations/stepper.go] and the
    mailing adapter [internal/mailing/ports014.go], over the transactions of
    [AutoStore]. *)

From S2P Require Import Prelude GoStrings GoTime GoJson AutoGraph Errors AutoEngine AutoStore.

Section Stepper.
Context `{UnicodeTables, UUIDLib, ZoneDB, UUIDHash}.

(** ** SQLStepStore *)

(** [pgtype.Interval{Microseconds: within.Microseconds()}], as nanoseconds. *)
Definition pg_interval (within : option duration) : option duration :=
  option_map (fun d => (Z.quot d 1000 * 1000)%Z) within.

Definition SQLStepStore : StepStore tx :=
  {| store_Record := fun r => exec (fun _ => automation_record_step r);
     store_Fail := fun f => exec (fun now d => Ok (automation_fail_step f now d));
     store_Waiting := fun e n => query (fun d => automation_step_waiting d e n);
     store_Delivery := fun e n => query (fun d => automation_step_delivery d e n);
     store_EventExists := fun b l em nm since evaluation within =>
       query (fun d => automation_event_exists d b l em nm (pg_time since) (pg_time evaluation)
                                               (pg_interval within)) |}.

(** ** AutomationPorts *)

Definition safeMessageDomain (v : string) : string :=
  let v := ToLower (TrimSpace v) in
  if negb (String.eqb v "") &&
     forallb (fun c => is_lower c || is_digit c || Ascii.eqb c "." || Ascii.eqb c "-") (bytes v)
  then v else "mailing.localhost".

Definition ports_Enqueue (domain : string) (spec : MessageSpec) (t : tx) : tx * result error uuid :=
  if negb (String.eqb (msg_SourceKind spec) "automation") then
    (t, Err (Wrap ("unsupported message source " +:+ Quote (msg_SourceKind spec)) ErrInvalidReference))
  else match exec (mailing_enqueue_delivery spec (safeMessageDomain domain)) t with
       | (t, Err err) => (t, Err err)
       | (t, Ok None) => (t, Err ErrLostFence)
       | (t, Ok (Some id)) => (t, Ok id)
       end.

Definition ports_ResolveForList (business : uuid) (email : string) (listID : uuid) (t : tx)
  : tx * result error uuid :=
  match query (fun d => mailing_automation_resolve_for_list d business email listID) t with
  | (t, Err err) => (t, Err err)
  | (t, Ok None) => (t, Err (Wrap "subscriber was not found" ErrInvalidReference))
  | (t, Ok (Some id)) => (t, Ok id)
  end.

(** The boolean a tag function returns is false when the fence was lost. *)
Definition changed_or_lost (r : tx * result error bool) : tx * result error unit :=
  match r with
  | (t, Ok true) => (t, Ok tt)
  | (t, Ok false) => (t, Err ErrLostFence)
  | (t, Err err) => (t, Err err)
  end.

Definition ports_AddTag (business root subscriber enrollment : uuid) (generation : Z) (tag : string) (t : tx)
  : tx * result error unit :=
  changed_or_lost (exec (fun _ d => Ok (mailing_automation_add_tag business root subscriber (TrimSpace tag)
                                          enrollment generation d)) t).

Definition ports_RemoveTag (business root subscriber enrollment : uuid) (generation : Z) (tag : string) (t : tx)
  : tx * result error unit :=
  changed_or_lost (exec (fun _ d => Ok (mailing_automation_remove_tag business root subscriber (TrimSpace tag)
                                          enrollment generation d)) t).

Definition AutomationPorts_subscribers : SubscriberReader tx :=
  {| Snapshot := fun s => query_row (fun d => mailing_automation_subscriber_snapshot d s);
     ActiveOnList := fun b em l => query (fun d => mailing_automation_active_on_list d b em l);
     ResolveForList := ports_ResolveForList |}.

Definition AutomationPorts (domain : string) : Deps tx :=
  {| dep_Subscribers := Some AutomationPorts_subscribers;
     dep_Sender := Some {| Enqueue := ports_Enqueue domain |};
     dep_Engagement := Some {| Engagement := fun id =>
                                 query_row (fun d => mailing_automation_delivery_engagement d id) |};
     dep_Tagger := Some {| AddTag := ports_AddTag; RemoveTag := ports_RemoveTag |};
     dep_Steps := Some SQLStepStore |}.

(** ** Stepper *)

Record Stepper := {
  stp_Deps : Deps tx; stp_Batch : Z; stp_Lease : duration;
  stp_MaxNodesPerTick : Z; stp_MaxNodeAttempts : Z
}.

Record claimedEnrollment := { claimed_Enrollment : Enrollment; claimed_Graph : Graph }.

(** Scanning a claimed row: a NULL node or wake time does not fit the struct. *)
Definition scan_claimed (r : claim_row) : result error claimedEnrollment :=
  let e := cr_row r in
  match es_current_node (e_st e), es_wake_at (e_st e) with
  | Some node, Some wake =>
      Ok {| claimed_Enrollment :=
              {| enr_ID := cr_id r; enr_BusinessID := er_business (e_ref e); enr_TenantRootID := er_root (e_ref e);
                 enr_AutomationID := er_automation (e_ref e); enr_VersionID := er_version (e_ref e);
                 enr_SubscriberID := er_subscriber (e_ref e); enr_CurrentNodeID := node; enr_WakeAt := wake;
                 enr_EnrolledAt := er_enrolled_at (e_ref e); enr_NodeAttempts := es_attempts (e_st e);
                 enr_ClaimGeneration := es_generation (e_st e) |};
            claimed_Graph := cr_graph r |}
  | _, _ => Err (NewError "cannot scan NULL")
  end.

Fixpoint scan_all (rows : list claim_row) : result error (list claimedEnrollment) :=
  match rows with
  | [] => Ok []
  | r :: rows' =>
      match scan_claimed r with
      | Err e => Err e
      | Ok c => match scan_all rows' with Err e => Err e | Ok cs => Ok (c :: cs) end
      end
  end.

Definition claim (locked : gset uuid) (now : time) (batch : Z) (lease : duration) (d : db)
  : db * (list claimedEnrollment * option error) :=
  WithTx now (fun t =>
    match exec (fun _ d => Ok (automation_claim_due locked now batch lease d)) t with
    | (t, Err e) => (t, ([], Some e))
    | (t, Ok rows) => match scan_all rows with
                      | Ok cs => (t, (cs, None))
                      | Err e => (t, ([], Some e))
                      end
    end) d.

Definition stp_engine (s : Stepper) : Engine tx :=
  {| eng_Deps := stp_Deps s; eng_MaxNodesPerTick := stp_MaxNodesPerTick s;
     eng_MaxNodeAttempts := stp_MaxNodeAttempts s |}.

(** The transaction that advances one claimed enrollment. *)
Definition advance_tx (s : Stepper) (c : claimedEnrollment) (now : time) (d : db)
  : db * (AdvanceOutcome * option error) :=
  WithTx now (Advance (stp_engine s) (claimed_Enrollment c) (claimed_Graph c) now) d.

Definition tick_batch (s : Stepper) : Z := if (stp_Batch s <=? 0)%Z then 50%Z else stp_Batch s.
Definition tick_lease (s : Stepper) : duration :=
  if (stp_Lease s <=? 0)%Z then (2 * Minute)%Z else stp_Lease s.

(** ** A tick

    A tick is a sequence of transactions; the n-th of them reads the clock as
    [clock n], finds the rows of [locked n] locked by others, and works on what
    the other replicas, the API and the outbox have made of the database since
    the transaction before it, [others n]. *)

(** [fmt.Errorf("advance enrollment %s: %w", ...)] *)
Definition advance_error (c : claimedEnrollment) (e : error) : error :=
  Wrap ("advance enrollment " +:+ uuid_String (enr_ID (claimed_Enrollment c))) e.

(** The inner loop of [Tick]: every claimed enrollment is advanced in its own
    transaction; a lost fence is skipped, the first other error is kept. *)
Fixpoint advance_all (s : Stepper) (others : nat -> db -> db) (clock : nat -> time) (n : nat)
    (cs : list claimedEnrollment) (firstErr : option error) (d : db) : nat * (db * option error) :=
  match cs with
  | [] => (n, (d, firstErr))
  | c :: cs' =>
      match advance_tx s c (clock n) (others n d) with
      | (d', (_, err)) =>
          let firstErr' :=
            match err with
            | None => firstErr
            | Some e => if is_lost_fence e then firstErr
                        else match firstErr with
                             | Some f => Some f
                             | None => Some (advance_error c e)
                             end
            end in
          advance_all s others clock (S n) cs' firstErr' d'
      end
  end.

(** [Tick], with the number of rounds it may take as fuel: [None] when they are
    used up and the loop would go on, with the database it left behind. *)
Fixpoint Tick (fuel : nat) (s : Stepper) (others : nat -> db -> db) (locked : nat -> gset uuid)
    (clock : nat -> time) (n : nat) (d : db) : db * option (option error) :=
  match fuel with
  | O => (d, None)
  | S fuel' =>
      match claim (locked n) (clock n) (tick_batch s) (tick_lease s) (others n d) with
      | (d1, (_, Some e)) => (d1, Some (Some e))
      | (d1, (claimed, None)) =>
          match advance_all s others clock (S n) claimed None d1 with
          | (n', (d2, Some e)) => (d2, Some (Some e))
          | (n', (d2, None)) =>
              if (Z.of_nat (length claimed) <? tick_batch s)%Z then (d2, Some None)
              else Tick fuel' s others locked clock n' d2
          end
      end
  end.
End Stepper.
