(* ===== verification/AutoService.v ===== *)
(** * The automation service: [internal/automations/service.go], [enrollments.go], [types.go]

    The state-changing operations of [Service], each as the body of its
    transaction: a function from the database to an error or the new database
    and the result.  An error rolls the transaction back, so the database is
    then unchanged.  Row locks ([FOR UPDATE], [FOR SHARE]) do not change the
    state.  Row-level security shows a principal the businesses [authz]
    authorizes it for; every query below also names the business explicitly.

    [internal/authz] is an interface here: which businesses a principal sees
    and which permissions it resolves to there. *)

From S2P Require Import Prelude GoStrings GoTime GoJson AutoGraph Errors AutoEngine AutoStore.
From stdpp Require Import sorting.
#[local] Open Scope go_scope.

Class Authz := {
  authorized : uuid -> uuid -> bool;            (* principal, business *)
  has_permission : uuid -> uuid -> string -> bool
}.

Definition defaultPageSize : Z := 50.
Definition maxPageSize : Z := 100.
Definition maxAutomationVersions : Z := 100.
Definition maxContentSnapshotBytes : Z := 1048576.

Definition emptyGraph : Graph := {| graph_Nodes := []; graph_Edges := [] |}.

(** ** Types of the API *)

Record Automation := {
  au_ID : uuid; au_BusinessID : uuid; au_TenantRootID : uuid; au_Name : string;
  au_Description : option string; au_Status : automation_status; au_AllowReenroll : bool;
  au_ActiveVersionID : option uuid; au_DraftVersionID : option uuid;
  au_CreatedBy : option uuid; au_CreatedAt : time; au_UpdatedAt : time
}.
Record Version := {
  ver_ID : uuid; ver_BusinessID : uuid; ver_TenantRootID : uuid; ver_AutomationID : uuid;
  ver_Number : Z; ver_Status : version_status; ver_Graph : Graph; ver_TriggerKind : option string;
  ver_TriggerRef : option string; ver_ActivatedAt : option time; ver_CreatedAt : time; ver_UpdatedAt : time
}.
Record CreateInput := { ci_Name : string; ci_Description : option string; ci_AllowReenroll : bool }.
Record UpdateInput := {
  ui_Name : option string; ui_SetDescription : bool; ui_Description : option string;
  ui_AllowReenroll : option bool
}.
Record ValidationResult := { vr_Valid : bool; vr_Issues : list Issue }.

Definition toAutomation (id : uuid) (row : automation_row) : Automation :=
  {| au_ID := id; au_BusinessID := a_business row; au_TenantRootID := a_root row; au_Name := a_name row;
     au_Description := a_description row; au_Status := a_status row; au_AllowReenroll := a_allow_reenroll row;
     au_ActiveVersionID := a_active_version row; au_DraftVersionID := a_draft_version row;
     au_CreatedBy := a_created_by row; au_CreatedAt := a_created_at row; au_UpdatedAt := a_updated_at row |}.
Definition toVersion (id : uuid) (row : version_row) : Version :=
  {| ver_ID := id; ver_BusinessID := v_business row; ver_TenantRootID := v_root row;
     ver_AutomationID := v_automation row; ver_Number := v_number row; ver_Status := v_status row;
     ver_Graph := v_graph row; ver_TriggerKind := v_trigger_kind row; ver_TriggerRef := v_trigger_ref row;
     ver_ActivatedAt := v_activated_at row; ver_CreatedAt := v_created_at row; ver_UpdatedAt := v_updated_at row |}.

(** ** Pure helpers *)

Definition validation {A : Type} (message : string) : result error A :=
  Err (Wrap ("automation: " +:+ message) ErrValidation).

Definition validateDefinition (name : string) (description : option string) : result error unit :=
  if String.eqb name "" || (200 <? len name)%Z
  then validation "name is required and must not exceed 200 characters"
  else match description with
       | Some text => if (5000 <? len text)%Z then validation "description must not exceed 5000 characters"
                      else Ok tt
       | None => Ok tt
       end.

Definition cleanOptional (value : option string) : option string :=
  match value with
  | None => None
  | Some v => let trimmed := TrimSpace v in if String.eqb trimmed "" then None else Some trimmed
  end.

Definition clampLimit (limit : Z) : Z :=
  if (limit <=? 0)%Z then defaultPageSize else if (maxPageSize <? limit)%Z then maxPageSize else limit.

Definition mapErr (err : error) : error :=
  match unwrap err with
  | InvalidGraphError issues => InvalidGraphError issues
  | _ =>
      if is_no_rows err || is_not_found err then Wrap "automation: not found" ErrNotFound
      else match pg_code err with
           | Some code =>
               if String.eqb code "23505" then Wrap "automation: duplicate" ErrConflict
               else if String.eqb code "23503" then Wrap "automation: foreign key" ErrNotFound
               else if String.eqb code "23514" || String.eqb code "22023"
               then Wrap "automation: invalid value" ErrValidation
               else Wrap "automation: query" err
           | None => if is_validation err || is_conflict err then err else Wrap "automation: query" err
           end
  end.

(** The tenant-merge write fence: a trigger on every automation table. *)
Definition write_fence (d : db) (root : uuid) : result error unit :=
  if root_write_allowed d root then Ok tt else Err (PgError "TM503" "tenant merge in progress").

(** [s.DB.WithPrincipal(...)] followed by [mapErr]. *)
Definition run_service {A : Type} (body : db -> result error (db * A)) (d : db) : db * result error A :=
  match body d with
  | Ok (d', a) => (d', Ok a)
  | Err e => (d, Err (mapErr (mapTxError e)))
  end.

Section Service.
Context `{UnicodeTables, UUIDLib, ZoneDB, URLLib, Authz}.

(** ** Row access *)

Definition resolveTenantRoot (principal business : uuid) (d : db) : result error uuid :=
  match db_businesses d !! business with
  | Some b => if authorized principal business && negb (b_deleted b) then Ok (b_root b) else Err ErrNoRows
  | None => Err ErrNoRows
  end.

Definition GetAutomation (id business root : uuid) (d : db) : result error automation_row :=
  match db_automations d !! id with
  | Some a => if N.eqb (a_business a) business && N.eqb (a_root a) root then Ok a else Err ErrNoRows
  | None => Err ErrNoRows
  end.

Definition GetAutomationVersion (id automation business root : uuid) (d : db) : result error version_row :=
  match db_versions d !! id with
  | Some v => if N.eqb (v_automation v) automation && N.eqb (v_business v) business && N.eqb (v_root v) root
              then Ok v else Err ErrNoRows
  | None => Err ErrNoRows
  end.

Definition lockAutomation := GetAutomation.

Definition requirePermission (principal business root : uuid) (permission : string) (d : db) : result error unit :=
  if negb (business_operational d business root) then Err ErrNotFound
  else if has_permission principal business permission then Ok tt else Err ErrNotFound.

Definition audit (principal business root : uuid) (action target_type : string) (target : uuid) (value : json)
    (d : db) : db :=
  add_audit {| au_principal := principal; au_business := business; au_root := root; au_action := action;
               au_target_type := target_type; au_target := target; au_value := value |} d.
Definition writeAudit (principal business root : uuid) (action : string) (target : uuid) (value : json) (d : db) : db :=
  audit principal business root action "automation" target value d.

Definition juuid (u : uuid) : json := JStr (uuid_String u).

(** ** Definitions *)

Definition with_pointers (active draft : option uuid) (status : automation_status) (now : time)
    (a : automation_row) : automation_row :=
  {| a_business := a_business a; a_root := a_root a; a_name := a_name a; a_description := a_description a;
     a_status := status; a_allow_reenroll := a_allow_reenroll a; a_active_version := active;
     a_draft_version := draft; a_created_by := a_created_by a; a_created_at := a_created_at a;
     a_updated_at := now |}.

Definition draft_row (business root automation : uuid) (number : Z) (g : Graph) (now : time) : version_row :=
  {| v_business := business; v_root := root; v_automation := automation; v_number := number;
     v_status := VDraft; v_graph := g; v_trigger_kind := None; v_trigger_ref := None; v_snapshot := None;
     v_activated_at := None; v_created_at := now; v_updated_at := now |}.

Definition Create (principal business : uuid) (input : CreateInput) (now : time) : db -> db * result error Automation :=
  let name := TrimSpace (ci_Name input) in
  match validateDefinition name (ci_Description input) with
  | Err e => fun d => (d, Err e)
  | Ok _ => run_service (fun d =>
      let? root := resolveTenantRoot principal business d in
      let? _ := write_fence d root in
      let automationID := fresh (dom (db_automations d)) in
      let versionID := fresh (dom (db_versions d)) in
      let row := {| a_business := business; a_root := root; a_name := name;
                    a_description := cleanOptional (ci_Description input); a_status := ADraft;
                    a_allow_reenroll := ci_AllowReenroll input; a_active_version := None;
                    a_draft_version := Some versionID; a_created_by := Some principal;
                    a_created_at := now; a_updated_at := now |} in
      let d := set_automations (<[automationID := row]> (db_automations d)) d in
      let d := set_versions (<[versionID := draft_row business root automationID 1 emptyGraph now]>
                               (db_versions d)) d in
      let d := writeAudit principal business root "automation.created" automationID
                 (JObj [("version_id", juuid versionID)]) d in
      Ok (d, toAutomation automationID row))
  end.

Definition Get (principal business automationID : uuid) : db -> db * result error Automation :=
  run_service (fun d =>
    let? root := resolveTenantRoot principal business d in
    let? row := GetAutomation automationID business root d in
    Ok (d, toAutomation automationID row)).

Definition Update (principal business automationID : uuid) (input : UpdateInput) (now : time)
  : db -> db * result error Automation :=
  run_service (fun d =>
    let? root := resolveTenantRoot principal business d in
    let? current := GetAutomation automationID business root d in
    if bool_decide (a_status current = AArchived) then Err ErrConflict else
    let name := match ui_Name input with Some n => TrimSpace n | None => a_name current end in
    let description := if ui_SetDescription input then cleanOptional (ui_Description input)
                       else a_description current in
    let reenroll := default (a_allow_reenroll current) (ui_AllowReenroll input) in
    let? _ := validateDefinition name description in
    let? _ := write_fence d root in
    let row := {| a_business := a_business current; a_root := a_root current; a_name := name;
                  a_description := description; a_status := a_status current; a_allow_reenroll := reenroll;
                  a_active_version := a_active_version current; a_draft_version := a_draft_version current;
                  a_created_by := a_created_by current; a_created_at := a_created_at current;
                  a_updated_at := now |} in
    let d := set_automations (<[automationID := row]> (db_automations d)) d in
    let d := writeAudit principal business root "automation.updated" automationID
               (JObj [("allow_reenroll", JBool reenroll)]) d in
    Ok (d, toAutomation automationID row)).

(** ** Versions *)

Definition version_of (automation business root : uuid) (x : uuid * version_row) : bool :=
  N.eqb (v_automation (snd x)) automation && N.eqb (v_business (snd x)) business && N.eqb (v_root (snd x)) root.

Definition versions_of (automation business root : uuid) (d : db) : list (uuid * version_row) :=
  List.filter (version_of automation business root) (map_to_list (db_versions d)).

Definition has_enrollment (d : db) (version : uuid) : bool :=
  existsb (fun x => N.eqb (er_version (e_ref (snd x))) version) (map_to_list (db_enrollments d)).

(** [ORDER BY v.number, v.id] *)
Definition older (x y : uuid * version_row) : Prop :=
  (v_number (snd x) < v_number (snd y))%Z \/ (v_number (snd x) = v_number (snd y) /\ (fst x <= fst y)%N).
#[export] Instance older_dec (x y : uuid * version_row) : Decision (older x y).
Proof. unfold older. apply _. Defined.

Definition removable (d : db) (x : uuid * version_row) : bool :=
  bool_decide (v_status (snd x) = VSuperseded) && negb (has_enrollment d (fst x)).

Definition PruneAutomationVersions (automation business root : uuid) (target : Z) (d : db) : db :=
  let all := versions_of automation business root d in
  let n := Z.to_nat (Z.max (Z.of_nat (length all) - target) 0) in
  let gone := take n (merge_sort older (List.filter (removable d) all)) in
  set_versions (fold_left (fun m x => delete (fst x) m) gone (db_versions d)) d.

Definition CloneVersion (principal business automationID : uuid) (now : time) : db -> db * result error Version :=
  run_service (fun d =>
    let? root := resolveTenantRoot principal business d in
    let? automation := lockAutomation automationID business root d in
    match a_draft_version automation, a_active_version automation with
    | None, Some activeID =>
        if bool_decide (a_status automation = AArchived) then Err ErrConflict else
        let? _ := write_fence d root in
        let d := PruneAutomationVersions automationID business root (maxAutomationVersions - 1) d in
        if (maxAutomationVersions <=? Z.of_nat (length (versions_of automationID business root d)))%Z
        then Err ErrConflict else
        let? active := GetAutomationVersion activeID automationID business root d in
        let versionID := fresh (dom (db_versions d)) in
        let row := draft_row business root automationID (v_number active + 1) (v_graph active) now in
        if existsb (fun x => N.eqb (v_automation (snd x)) automationID && (v_number (snd x) =? v_number row)%Z)
                   (map_to_list (db_versions d))
        then sql "23505" "automation_version_automation_id_number_key" else
        let d := set_versions (<[versionID := row]> (db_versions d)) d in
        let d := set_automations (<[automationID := with_pointers (Some activeID) (Some versionID)
                                      (a_status automation) now automation]> (db_automations d)) d in
        let d := writeAudit principal business root "automation.version.created" automationID
                   (JObj [("version_id", juuid versionID); ("number", JInt (v_number row))]) d in
        Ok (d, toVersion versionID row)
    | _, _ => Err ErrConflict
    end).

(** Marshalling and decoding a graph: an absent config comes back as [null]. *)
Definition stored_node (n : Node) : Node :=
  {| node_ID := node_ID n; node_Kind := node_Kind n; node_Name := node_Name n;
     node_Config := match node_Config n with Some j => Some j | None => Some JNull end |}.
Definition stored_graph (g : Graph) : Graph :=
  {| graph_Nodes := map stored_node (graph_Nodes g); graph_Edges := graph_Edges g |}.

Definition with_graph (g : Graph) (now : time) (v : version_row) : version_row :=
  {| v_business := v_business v; v_root := v_root v; v_automation := v_automation v; v_number := v_number v;
     v_status := v_status v; v_graph := g; v_trigger_kind := v_trigger_kind v; v_trigger_ref := v_trigger_ref v;
     v_snapshot := v_snapshot v; v_activated_at := v_activated_at v; v_created_at := v_created_at v;
     v_updated_at := now |}.

Definition PutGraph (principal business automationID versionID : uuid) (g : Graph) (now : time)
  : db -> db * result error Version :=
  run_service (fun d =>
    let? root := resolveTenantRoot principal business d in
    let? automation := GetAutomation automationID business root d in
    let? version := GetAutomationVersion versionID automationID business root d in
    if negb (bool_decide (a_draft_version automation = Some versionID)) then Err ErrConflict else
    if negb (bool_decide (v_status version = VDraft)) then Err ErrConflict else
    let? _ := write_fence d root in
    let row := with_graph (stored_graph g) now version in
    let d := set_versions (<[versionID := row]> (db_versions d)) d in
    let d := writeAudit principal business root "automation.graph.updated" automationID
               (JObj [("version_id", juuid versionID)]) d in
    Ok (d, toVersion versionID row)).

(** ** Validation against the tenant's records *)

Record referenceConfig := { rc_ListID : uuid; rc_TemplateID : uuid; rc_Predicate : raw }.
Definition referenceConfig_zero : referenceConfig := Build_referenceConfig uuid_Nil uuid_Nil None.
Definition referenceConfig_fields : list (field referenceConfig) :=
  [ Field "list_id" (as_uuid (fun x s => Build_referenceConfig x (rc_TemplateID s) (rc_Predicate s)));
    Field "template_id" (as_uuid (fun x s => Build_referenceConfig (rc_ListID s) x (rc_Predicate s)));
    Field "predicate" (as_raw (fun x s => Build_referenceConfig (rc_ListID s) (rc_TemplateID s) x)) ].
Definition list_id_fields : list (field uuid) := [ Field "list_id" (as_uuid (fun x _ => x)) ].

Definition non_nil (u : uuid) : list uuid := if N.eqb u uuid_Nil then [] else [u].

(** The lists and templates one node refers to. *)
Definition node_references (node : Node) : list uuid * list uuid :=
  match Unmarshal referenceConfig_fields (node_Config node) referenceConfig_zero with
  | None => ([], [])
  | Some cfg =>
      (non_nil (rc_ListID cfg) ++
       match rc_Predicate cfg with
       | None => []
       | Some _ => match Unmarshal list_id_fields (rc_Predicate cfg) uuid_Nil with
                   | Some l => non_nil l
                   | None => []
                   end
       end,
       non_nil (rc_TemplateID cfg))
  end.

Definition graphReferenceIDs (g : Graph) : gset uuid * gset uuid :=
  (list_to_set (flat_map (fun n => (node_references n).1) (graph_Nodes g)),
   list_to_set (flat_map (fun n => (node_references n).2) (graph_Nodes g))).

Definition active_list (d : db) (business root id : uuid) : bool :=
  match db_lists d !! id with
  | Some l => N.eqb (l_business l) business && N.eqb (l_root l) root && l_active l
  | None => false
  end.
Definition own_template (d : db) (business root id : uuid) : bool :=
  match db_templates d !! id with
  | Some t => N.eqb (t_business t) business && N.eqb (t_root t) root
  | None => false
  end.

Definition tenant_references (d : db) (business root : uuid) (g : Graph) : References :=
  let '(lists, templates) := graphReferenceIDs g in
  {| ref_Lists := Some (filter (fun id => active_list d business root id = true) lists);
     ref_Templates := Some (filter (fun id => own_template d business root id = true) templates) |}.

Definition validateInTenant (d : db) (business root : uuid) (g : Graph) : ValidationResult :=
  let issues := Validate g (tenant_references d business root g) in
  {| vr_Valid := bool_decide (issues = []); vr_Issues := issues |}.

(** ** The content snapshot taken at activation *)

(** The length of a string in [encoding/json]: HTML characters, control bytes
    other than the short escapes, ill-formed bytes and the line separators
    U+2028 and U+2029 take six bytes. *)
Fixpoint json_text_len (fuel : nat) (l : list ascii) : Z :=
  match fuel, l with
  | S f, c :: r =>
      let n := N_of_ascii c in
      if is_ascii c then
        ((if existsb (N.eqb n) [34; 92; 8; 9; 10; 12; 13]%N then 2
          else if (n <? 32)%N || existsb (N.eqb n) [60; 62; 38]%N then 6 else 1) + json_text_len f r)%Z
      else
        let w := rune_len l in
        let sep := bool_decide (take 3 l = map byte_of [226; 128; 168]%N) ||
                   bool_decide (take 3 l = map byte_of [226; 128; 169]%N) in
        ((if Nat.eqb w 1 || sep then 6 else Z.of_nat w) + json_text_len f (drop w l))%Z
  | _, _ => 0%Z
  end.
Definition json_string_len (s : string) : Z := (2 + json_text_len (String.length s) (bytes s))%Z.

(** [{"subject":...,"preheader":...,"body_markdown":...}] *)
Definition template_len (c : template_content) : Z :=
  (11 + json_string_len (tpl_subject c) +
   13 + match tpl_preheader c with Some p => json_string_len p | None => 4 end +
   17 + json_string_len (tpl_body c) + 1)%Z.
(** [{"templates":{"id":{...},...}}] *)
Definition snapshot_len (m : gmap uuid template_content) : Z :=
  (14 + Z.max 0 (Z.of_nat (size m) - 1) + 2 +
   fold_right Z.add 0 (map (fun x => json_string_len (uuid_String (fst x)) + 1 + template_len (snd x))
                           (map_to_list m)))%Z.

Definition snapshotVersionContent (d : db) (business root : uuid) (g : Graph)
  : result error (gmap uuid template_content) :=
  let templates := (graphReferenceIDs g).2 in
  let m := t_content <$> filter (fun x => x.1 ∈ templates /\ own_template d business root x.1 = true) (db_templates d) in
  if (maxContentSnapshotBytes <? snapshot_len m)%Z
  then validation "referenced template content exceeds the activation snapshot limit"
  else Ok m.

(** The first trigger of a known type decides; a trigger of another type is passed over. *)
Fixpoint triggerIdentity_in (nodes : list Node) : result error (string * string) :=
  match nodes with
  | [] => validation "graph has no trigger"
  | node :: rest =>
      if negb (String.eqb (node_Kind node) "trigger") then triggerIdentity_in rest
      else match Unmarshal triggerConfig_fields (node_Config node) triggerConfig_zero with
           | None => Err (NewError "json: cannot unmarshal trigger config")
           | Some cfg =>
               if String.eqb (tc_Type cfg) "list_joined" then Ok (tc_Type cfg, uuid_String (tc_ListID cfg))
               else if String.eqb (tc_Type cfg) "tag_added"
               then Ok (tc_Type cfg, ToLower (TrimSpace (tc_Tag cfg)))
               else if String.eqb (tc_Type cfg) "event" then Ok (tc_Type cfg, TrimSpace (tc_Name cfg))
               else triggerIdentity_in rest
           end
  end.
Definition triggerIdentity (g : Graph) : result error (string * string) := triggerIdentity_in (graph_Nodes g).

Definition ValidateVersion (principal business automationID versionID : uuid) : db -> db * result error ValidationResult :=
  run_service (fun d =>
    let? root := resolveTenantRoot principal business d in
    let? row := GetAutomationVersion versionID automationID business root d in
    Ok (d, validateInTenant d business root (v_graph row))).

(** ** Lifecycle *)

Definition superseded_row (now : time) (v : version_row) : version_row :=
  {| v_business := v_business v; v_root := v_root v; v_automation := v_automation v; v_number := v_number v;
     v_status := VSuperseded; v_graph := v_graph v; v_trigger_kind := v_trigger_kind v;
     v_trigger_ref := v_trigger_ref v; v_snapshot := v_snapshot v; v_activated_at := v_activated_at v;
     v_created_at := v_created_at v; v_updated_at := now |}.
Definition activated_row (kind ref : string) (content : gmap uuid template_content) (now : time)
    (v : version_row) : version_row :=
  {| v_business := v_business v; v_root := v_root v; v_automation := v_automation v; v_number := v_number v;
     v_status := VActive; v_graph := v_graph v; v_trigger_kind := Some kind; v_trigger_ref := Some ref;
     v_snapshot := Some content; v_activated_at := Some now; v_created_at := v_created_at v;
     v_updated_at := now |}.

(** [UPDATE automation_version SET status='superseded' WHERE id = the active version AND status='active'] *)
Definition supersede (automation business root : uuid) (active : option uuid) (now : time) (d : db)
  : result error db :=
  match active with
  | None => Ok d
  | Some id =>
      match GetAutomationVersion id automation business root d with
      | Ok v => if bool_decide (v_status v = VActive)
                then Ok (set_versions (<[id := superseded_row now v]> (db_versions d)) d)
                else Err ErrConflict
      | Err _ => Err ErrConflict
      end
  end.

Definition Activate (principal business automationID versionID : uuid) (now : time) : db -> db * result error Automation :=
  run_service (fun d =>
    let? root := resolveTenantRoot principal business d in
    let? _ := requirePermission principal business root "mailing.send" d in
    let? automation := lockAutomation automationID business root d in
    let? version := GetAutomationVersion versionID automationID business root d in
    if bool_decide (a_status automation = AArchived) ||
       negb (bool_decide (a_draft_version automation = Some versionID)) ||
       negb (bool_decide (v_status version = VDraft))
    then Err ErrConflict else
    let result := validateInTenant d business root (v_graph version) in
    if negb (vr_Valid result) then Err (InvalidGraphError (vr_Issues result)) else
    let? (kind, ref) := triggerIdentity (v_graph version) in
    let? content := snapshotVersionContent d business root (v_graph version) in
    let? _ := write_fence d root in
    let? d := supersede automationID business root (a_active_version automation) now d in
    let d := set_versions (<[versionID := activated_row kind ref content now version]> (db_versions d)) d in
    let row := with_pointers (Some versionID) None AActive now automation in
    let d := set_automations (<[automationID := row]> (db_automations d)) d in
    let d := writeAudit principal business root "automation.activated" automationID
               (JObj [("version_id", juuid versionID)]) d in
    Ok (d, toAutomation automationID row)).

(** [SET lease_expires_at=NULL, claim_generation=claim_generation+1] *)
Definition fenced_state (now : time) (st : enrollment_state) : enrollment_state :=
  {| es_status := es_status st; es_current_node := es_current_node st; es_wake_at := es_wake_at st;
     es_lease := None; es_generation := (es_generation st + 1)%Z; es_attempts := es_attempts st;
     es_last_error := es_last_error st; es_exit_reason := es_exit_reason st;
     es_finished_at := es_finished_at st; es_updated_at := now |}.

Definition of_automation (automation business root : uuid) (_ : uuid) (r : enrollment_ref) : bool :=
  N.eqb (er_automation r) automation && N.eqb (er_business r) business && N.eqb (er_root r) root.

Definition transition (principal business automationID : uuid) (from to : automation_status)
    (action : string) (permission : option string) (now : time) : db -> db * result error Automation :=
  run_service (fun d =>
    let? root := resolveTenantRoot principal business d in
    let? _ := match permission with
              | Some p => requirePermission principal business root p d
              | None => Ok tt
              end in
    let? automation := lockAutomation automationID business root d in
    if negb (bool_decide (a_status automation = from)) then Err ErrConflict else
    let? _ := write_fence d root in
    let row := with_pointers (a_active_version automation) (a_draft_version automation) to now automation in
    let d := set_automations (<[automationID := row]> (db_automations d)) d in
    let d := if bool_decide (to = APaused)
             then set_enrollments (update_active (of_automation automationID business root)
                                     (fenced_state now) (db_enrollments d)) d
             else d in
    let d := writeAudit principal business root action automationID (JObj []) d in
    Ok (d, toAutomation automationID row)).

Definition Pause (principal business automationID : uuid) (now : time) : db -> db * result error Automation :=
  transition principal business automationID AActive APaused "automation.paused" None now.
Definition Resume (principal business automationID : uuid) (now : time) : db -> db * result error Automation :=
  transition principal business automationID APaused AActive "automation.resumed" (Some "mailing.send") now.

Definition Archive (principal business automationID : uuid) (now : time) : db -> db * result error Automation :=
  run_service (fun d =>
    let? root := resolveTenantRoot principal business d in
    let? automation := lockAutomation automationID business root d in
    if bool_decide (a_status automation = AArchived) then Err ErrConflict else
    let? _ := write_fence d root in
    let row := with_pointers (a_active_version automation) None AArchived now automation in
    let d := set_automations (<[automationID := row]> (db_automations d)) d in
    let d := set_enrollments (update_active (of_automation automationID business root)
                                (exited_state "archived" now) (db_enrollments d)) d in
    let d := writeAudit principal business root "automation.archived" automationID (JObj []) d in
    Ok (d, toAutomation automationID row)).

(** ** Manual enrollment *)

Fixpoint triggerNodeAndList_in (nodes : list Node) : result error (string * uuid) :=
  match nodes with
  | [] => validation "active version has no trigger"
  | node :: rest =>
      if negb (String.eqb (node_Kind node) "trigger") then triggerNodeAndList_in rest
      else match Unmarshal list_id_fields (node_Config node) uuid_Nil with
           | Some l => if N.eqb l uuid_Nil then validation "active version has an invalid trigger"
                       else Ok (node_ID node, l)
           | None => validation "active version has an invalid trigger"
           end
  end.
Definition triggerNodeAndList (g : Graph) : result error (string * uuid) := triggerNodeAndList_in (graph_Nodes g).

Definition validEnrollmentStatus (value : string) : bool :=
  String.eqb value "active" || String.eqb value "completed" || String.eqb value "exited"
  || String.eqb value "errored".

(** A row as returned to the client. *)
Record EnrollmentView := { evw_ID : uuid; evw_Ref : enrollment_ref; evw_State : enrollment_state }.
Definition scanEnrollment (id : uuid) (e : enrollment_row) : EnrollmentView :=
  {| evw_ID := id; evw_Ref := e_ref e; evw_State := e_st e |}.

Definition Enroll (principal business automationID subscriberID : uuid) (now : time)
  : db -> db * result error EnrollmentView :=
  run_service (fun d =>
    let? root := resolveTenantRoot principal business d in
    let? _ := requirePermission principal business root "mailing.send" d in
    let? automation := lockAutomation automationID business root d in
    match bool_decide (a_status automation = AActive), a_active_version automation with
    | true, Some versionID =>
        let? version := GetAutomationVersion versionID automationID business root d in
        let? (triggerNode, listID) := triggerNodeAndList (v_graph version) in
        let? sub := match db_subscribers d !! subscriberID with
                    | Some s => if N.eqb (s_business s) business && N.eqb (s_root s) root &&
                                   list_operational d (s_list s) (s_business s) (s_root s)
                                then Ok s else Err ErrNoRows
                    | None => Err ErrNoRows
                    end in
        if negb (N.eqb (s_list sub) listID) || negb (String.eqb (s_status sub) "active") then Err ErrNoRows else
        if negb (a_allow_reenroll automation) && enrolled_before (db_enrollments d) automationID subscriberID
        then Err ErrConflict else
        let? _ := write_fence d root in
        let ref := {| er_business := business; er_root := root; er_automation := automationID;
                      er_version := versionID; er_subscriber := subscriberID; er_source_event := None;
                      er_enrolled_at := now |} in
        if enrollment_conflict (db_enrollments d) ref then sql "23505" "automation_enrollment_one_active_idx" else
        let enrollmentID := fresh (dom (db_enrollments d)) in
        let row := new_enrollment ref triggerNode now in
        let d := set_enrollments (<[enrollmentID := row]> (db_enrollments d)) d in
        let d := writeAudit principal business root "automation.enrollment.created" automationID
                   (JObj [("enrollment_id", juuid enrollmentID); ("subscriber_id", juuid subscriberID)]) d in
        Ok (d, scanEnrollment enrollmentID row)
    | _, _ => Err ErrConflict
    end).

Definition ExitEnrollment (principal business automationID enrollmentID : uuid) (now : time)
  : db -> db * result error EnrollmentView :=
  run_service (fun d =>
    let? root := resolveTenantRoot principal business d in
    match db_enrollments d !! enrollmentID with
    | None => Err ErrNoRows
    | Some e =>
        if negb (of_automation automationID business root enrollmentID (e_ref e)) then Err ErrNoRows else
        if negb (bool_decide (es_status (e_st e) = EActive)) then Err ErrConflict else
        let? _ := write_fence d root in
        let row := {| e_ref := e_ref e; e_st := exited_state "manual" now (e_st e) |} in
        let d := set_enrollments (<[enrollmentID := row]> (db_enrollments d)) d in
        let d := writeAudit principal business root "automation.enrollment.exited" automationID
                   (JObj [("enrollment_id", juuid enrollmentID)]) d in
        Ok (d, scanEnrollment enrollmentID row)
    end).
End Service.
