(* ===== verification/AutoStoreFacts.v ===== *)
(** * Properties of the stepper over the database

    The SQL ports preserve every property of the database that the SQL
    functions preserve; a claim whose generation is no longer current commits
    nothing; the database invariant [db_ok] survives claiming and advancing. *)

From S2P Require Import Prelude GoStrings GoTime GoJson AutoGraph Errors AutoEngine Concrete AutoGraphFacts.
From S2P Require Import AutoEngineFacts AutoStore AutoStepper.
From stdpp Require Import sorting.

(** ** Ordered batches of rows: [SELECT ... WHERE p ORDER BY r LIMIT n] *)

Section Batch.
Context {A : Type} (R : relation (uuid * A)) `{!forall x y, Decision (R x y)} (p : uuid * A -> bool).

Definition batch (n : nat) (m : gmap uuid A) : list (uuid * A) :=
  take n (merge_sort R (List.filter p (map_to_list m))).

Lemma batch_elem (n : nat) (m : gmap uuid A) (id : uuid) (x : A) :
  (id, x) ∈ batch n m -> m !! id = Some x /\ p (id, x) = true.
Proof.
  unfold batch. intros Hin. apply elem_of_take in Hin as (i & Hi & _).
  apply list_elem_of_lookup_2 in Hi. rewrite merge_sort_Permutation in Hi.
  apply list_elem_of_In, filter_In in Hi as [Hi Hd]. split; [|done].
  by apply elem_of_map_to_list, list_elem_of_In.
Qed.

Lemma batch_nodup (n : nat) (m : gmap uuid A) : NoDup (map fst (batch n m)).
Proof.
  unfold batch. set (l := List.filter _ _).
  assert (Hl : NoDup (map fst l)).
  { subst l. pose proof (NoDup_fst_map_to_list m) as Hnd. revert Hnd.
    induction (map_to_list m) as [|x xs IH]; simpl; [done|].
    rewrite NoDup_cons. intros [Hx Hxs]. destruct (p x); [|by apply IH].
    simpl. constructor; [|by apply IH]. intros Hin. apply Hx.
    apply list_elem_of_fmap in Hin as (y & Hy & Hyin).
    apply list_elem_of_In, filter_In in Hyin as [Hyin _].
    apply list_elem_of_fmap. exists y. split; [done|]. by apply list_elem_of_In. }
  assert (Hs : NoDup (map fst (merge_sort R l))).
  { assert (Hp : map fst (merge_sort R l) ≡ₚ map fst l) by (apply Permutation_map, merge_sort_Permutation).
    by rewrite Hp. }
  rewrite <- (take_drop n (merge_sort R l)) in Hs.
  rewrite map_app in Hs. by apply NoDup_app in Hs as (? & _ & _).
Qed.

(** A row that qualifies is in the batch, or the batch is full and everything in
    it comes before the row. *)
Lemma batch_complete `{!Transitive R, !Total R} (n : nat) (m : gmap uuid A) (id : uuid) (x : A) :
  m !! id = Some x -> p (id, x) = true ->
  (id, x) ∈ batch n m \/ (length (batch n m) = n /\ Forall (fun y => R y (id, x)) (batch n m)).
Proof.
  intros Hx Hp. unfold batch. set (l := merge_sort R _).
  assert (Hin : (id, x) ∈ l).
  { subst l. rewrite merge_sort_Permutation. apply list_elem_of_In, filter_In. split; [|done].
    by apply list_elem_of_In, elem_of_map_to_list. }
  assert (Hsort : StronglySorted R l) by (apply Sorted_StronglySorted; [done|apply Sorted_merge_sort; apply _]).
  rewrite <- (take_drop n l) in Hin. apply elem_of_app in Hin as [Hin|Hin]; [by left|]. right. split.
  - apply length_take_le. apply list_elem_of_lookup in Hin as [i Hi]. apply lookup_lt_Some in Hi.
    rewrite length_drop in Hi. lia.
  - apply Forall_forall. intros y Hy. rewrite <- (take_drop n l) in Hsort.
    by apply (StronglySorted_app_1_elem_of R _ _ y (id, x) Hsort).
Qed.
End Batch.

(** ** Transactions *)

Section Exec.
Context (P : db -> Prop).

Lemma exec_keeps {A : Type} (f : time -> db -> result error (db * A)) (t : tx) :
  (forall now d d' a, f now d = Ok (d', a) -> P d -> P d') -> P (tx_db t) -> P (tx_db (exec f t).1).
Proof.
  intros Hf HP. unfold exec. destruct (tx_aborted t); [done|].
  destruct (f (tx_now t) (tx_db t)) as [[d a]|] eqn:E; [|done]. by eapply Hf.
Qed.

Lemma query_keeps {A : Type} (f : db -> A) (t : tx) : P (tx_db t) -> P (tx_db (query f t).1).
Proof. apply exec_keeps. intros now d d' a [= <- _]. done. Qed.

Lemma query_row_keeps {A : Type} (f : db -> option A) (t : tx) : P (tx_db t) -> P (tx_db (query_row f t).1).
Proof.
  intros HP. pose proof (query_keeps f t HP) as Hq. unfold query_row.
  by destruct (query f t) as [t' [[a|]|]].
Qed.
End Exec.

(** A committed transaction ends in the state of its last statement; any other
    leaves the database as it was. *)
Lemma WithTx_keeps {A : Type} (P : db -> Prop) (now : time) (body : tx -> tx * (A * option error)) (d : db) :
  P d -> (P (tx_db (body {| tx_db := d; tx_aborted := false; tx_now := now |}).1)) -> P (WithTx now body d).1.
Proof.
  intros Hd Hb. unfold WithTx. destruct (body _) as [t [a [e|]]]; [done|]. by destruct (tx_aborted t).
Qed.

(** ** The SQL ports *)

Section SQLPorts.
Context `{UnicodeTables, UUIDLib, ZoneDB, URLLib, UUIDHash}.
Context (s : Stepper) (domain : string).
Hypothesis deps : stp_Deps s = AutomationPorts domain.
Context (g : Graph) (enrollment : Enrollment) (now : time) (P : db -> Prop).

(** The SQL functions preserve [P] for the calls the engine makes. *)
Record SqlKeeps : Prop := {
  sql_record : forall r d d' b, good_record g enrollment now r -> automation_record_step r d = Ok (d', b) ->
    P d -> P d';
  sql_fail : forall f n d, own_failure enrollment f -> P d -> P (automation_fail_step f n d).1;
  sql_enqueue : forall m n d d' o, own_message enrollment now m ->
    mailing_enqueue_delivery m (safeMessageDomain domain) n d = Ok (d', o) -> P d -> P d';
  sql_add_tag : forall tag d, P d ->
    P (mailing_automation_add_tag (enr_BusinessID enrollment) (enr_TenantRootID enrollment)
         (enr_SubscriberID enrollment) tag (enr_ID enrollment) (enr_ClaimGeneration enrollment) d).1;
  sql_remove_tag : forall tag d, P d ->
    P (mailing_automation_remove_tag (enr_BusinessID enrollment) (enr_TenantRootID enrollment)
         (enr_SubscriberID enrollment) tag (enr_ID enrollment) (enr_ClaimGeneration enrollment) d).1
}.

Lemma changed_or_lost_db (r : tx * result error bool) : (changed_or_lost r).1 = r.1.
Proof. by destruct r as [t [[|]|]]. Qed.

Lemma sql_ports_keep :
  SqlKeeps -> PortsKeep (stp_engine s) SQLStepStore g enrollment now (fun t => P (tx_db t)).
Proof using deps.
  intros HS. split; simpl; rewrite ?deps.
  - intros r t Hr. apply exec_keeps. intros n d d' b Hrec. by eapply sql_record.
  - intros f t Hf. apply exec_keeps. intros n d d' b [= Hd] Hp.
    pose proof (sql_fail HS f n d Hf Hp) as Hk. by rewrite Hd in Hk.
  - intros n t. apply query_keeps.
  - intros n t. apply query_keeps.
  - intros l em nm e1 e2 w t. apply query_keeps.
  - intros rd [= <-]. split; intros; simpl; [by apply query_row_keeps|by apply query_keeps].
  - intros sd [= <-] m t Hm Hp. simpl. unfold ports_Enqueue. destruct (negb _); [done|].
    assert (Hk : P (tx_db (exec (mailing_enqueue_delivery m (safeMessageDomain domain)) t).1)).
    { apply exec_keeps; [|done]. intros n d d' o Hen. by eapply sql_enqueue. }
    by destruct (exec _ t) as [t' [[id|]|]].
  - intros rd [= <-] d t. apply query_row_keeps.
  - intros tg [= <-]. split; intros tag t Hp; simpl; unfold ports_AddTag, ports_RemoveTag;
      rewrite changed_or_lost_db; apply exec_keeps; try done; intros n d d' b [= Hd] Hp'.
    + pose proof (sql_add_tag HS (TrimSpace tag) d Hp') as Hk. by rewrite Hd in Hk.
    + pose proof (sql_remove_tag HS (TrimSpace tag) d Hp') as Hk. by rewrite Hd in Hk.
Qed.
End SQLPorts.

(** ** Stale claims *)

(** The enrollment is gone, finished, or was claimed, paused or exited since. *)
Definition fenced_out (d : db) (enrollment : uuid) (generation : Z) : Prop :=
  match db_enrollments d !! enrollment with
  | Some e => es_status (e_st e) <> EActive \/ es_generation (e_st e) <> generation
  | None => True
  end.

Lemma fence_runnable (d : db) (e : enrollment_row) : runnable d e = true -> es_status (e_st e) = EActive.
Proof.
  unfold runnable. destruct (join_enrollment d (e_ref e)) as [[[a v] s]|]; [|done].
  intros Hr. to_prop. done.
Qed.

Lemma fenced_out_fence (d : db) (enrollment : uuid) (generation : Z) (b r s : option uuid) :
  fenced_out d enrollment generation -> automation_execution_fence d enrollment generation b r s = false.
Proof.
  unfold fenced_out, automation_execution_fence. destruct (db_enrollments d !! enrollment) as [e|]; [|done].
  intros Hf. destruct (runnable d e) eqn:Hr; [|done]. apply fence_runnable in Hr.
  destruct Hf as [?|Hg]; [done|]. apply Z.eqb_neq in Hg. by rewrite Hg.
Qed.

Lemma fenced_out_fail (d : db) (f : StepFailure) (now : time) :
  fenced_out d (fail_EnrollmentID f) (fail_ClaimGeneration f) -> automation_fail_step f now d = (d, false).
Proof.
  unfold fenced_out, automation_fail_step. destruct (db_enrollments d !! fail_EnrollmentID f) as [e|]; [|done].
  intros [Hs|Hg].
  - by rewrite bool_decide_eq_false_2.
  - apply Z.eqb_neq in Hg. rewrite Hg. by rewrite andb_false_r.
Qed.

Section Stale.
Context `{UnicodeTables, UUIDLib, ZoneDB, URLLib, UUIDHash}.

Lemma fenced_out_record (d d' : db) (r : StepRecord) (b : bool) :
  fenced_out d (rec_EnrollmentID r) (rec_ClaimGeneration r) ->
  automation_record_step r d = Ok (d', b) -> d' = d /\ b = false.
Proof.
  intros Hf. unfold automation_record_step. destruct (parse_outcome (rec_Outcome r)), (parse_enrollment_status (rec_Status r)); try done.
  rewrite fenced_out_fence by done. simpl. by intros [= <- <-].
Qed.

Lemma fenced_out_enqueue (d d' : db) (m : MessageSpec) (domain : string) (now : time) (o : option uuid) :
  fenced_out d (msg_EnrollmentID m) (msg_ClaimGeneration m) ->
  mailing_enqueue_delivery m domain now d = Ok (d', o) -> d' = d.
Proof.
  intros Hf. unfold mailing_enqueue_delivery. destruct (negb _); [done|].
  rewrite fenced_out_fence by done. simpl. by intros [= <- _].
Qed.

Lemma record_ids (g : Graph) (enrollment : Enrollment) (now : time) (r : StepRecord) :
  good_record g enrollment now r ->
  rec_EnrollmentID r = enr_ID enrollment /\ rec_ClaimGeneration r = enr_ClaimGeneration enrollment.
Proof. by intros (node & _ & (? & ? & _) & _). Qed.

Lemma stale_keeps (g : Graph) (enrollment : Enrollment) (now : time) (domain : string) (d0 : db) :
  fenced_out d0 (enr_ID enrollment) (enr_ClaimGeneration enrollment) ->
  SqlKeeps domain g enrollment now (fun d => d = d0).
Proof.
  intros Hf. split.
  - intros r d d' b Hg Hr ->. destruct (record_ids _ _ _ _ Hg) as [Hi Hc].
    eapply fenced_out_record in Hr as [-> _]; [done|]. by rewrite Hi, Hc.
  - intros f n d [Hi Hc] ->. rewrite fenced_out_fail; [done|]. by rewrite Hi, Hc.
  - intros m n d d' o (Hi & Hc & _) He ->. eapply fenced_out_enqueue; [|done]. by rewrite Hi, Hc.
  - intros tag d ->. unfold mailing_automation_add_tag. by rewrite fenced_out_fence.
  - intros tag d ->. unfold mailing_automation_remove_tag. by rewrite fenced_out_fence.
Qed.

Lemma exec_ok {A : Type} (f : time -> db -> result error (db * A)) (t : tx) (a : A) :
  (exec f t).2 = Ok a -> exists d', f (tx_now t) (tx_db t) = Ok (d', a).
Proof.
  unfold exec. destruct (tx_aborted t); [done|].
  destruct (f (tx_now t) (tx_db t)) as [[d b]|]; [|done]. simpl. intros [= ->]. eauto.
Qed.

Lemma stale_refused (g : Graph) (enrollment : Enrollment) (now : time) (d0 : db) :
  fenced_out d0 (enr_ID enrollment) (enr_ClaimGeneration enrollment) ->
  refuses SQLStepStore g enrollment now (fun t => tx_db t = d0).
Proof.
  intros Hf. split; simpl.
  - intros r t Hg Ht Hok. destruct (record_ids _ _ _ _ Hg) as [Hi Hc].
    apply exec_ok in Hok as [d' Hok]. rewrite Ht in Hok.
    eapply fenced_out_record in Hok as [_ Hb]; [done|]. by rewrite Hi, Hc.
  - intros f t [Hi Hc] Ht Hok. apply exec_ok in Hok as [d' Hok]. rewrite Ht in Hok.
    rewrite fenced_out_fail in Hok; [done|]. by rewrite Hi, Hc.
Qed.

Lemma stale_advance (s : Stepper) (domain : string) (c : claimedEnrollment) (now : time) (d : db) :
  stp_Deps s = AutomationPorts domain -> NoDup (map node_ID (graph_Nodes (claimed_Graph c))) ->
  fenced_out d (enr_ID (claimed_Enrollment c)) (enr_ClaimGeneration (claimed_Enrollment c)) ->
  exists out err, advance_tx s c now d = (d, (out, Some err)).
Proof.
  intros Hdeps Hnd Hf. unfold advance_tx, WithTx.
  pose proof (Advance_keeps (stp_engine s) SQLStepStore (claimed_Graph c) (claimed_Enrollment c) now
    (fun t => tx_db t = d) {| tx_db := d; tx_aborted := false; tx_now := now |}) as Hadv.
  destruct Hadv as [_ Herr].
  - simpl. by rewrite Hdeps.
  - apply (sql_ports_keep s domain Hdeps (claimed_Graph c) (claimed_Enrollment c) now (fun d' => d' = d)).
    by apply stale_keeps.
  - done.
  - done.
  - destruct (Advance _ _ _ _ _) as [t [out [err|]]]; [eauto|].
    exfalso. apply Herr; [by apply stale_refused|done].
Qed.
End Stale.

(** ** What the SQL functions change *)

Lemma fence_spec (d : db) (enrollment : uuid) (generation : Z) (b r s : option uuid) :
  automation_execution_fence d enrollment generation b r s = true ->
  exists e, db_enrollments d !! enrollment = Some e /\ runnable d e = true /\
    es_generation (e_st e) = generation /\
    null_or b (er_business (e_ref e)) = true /\ null_or r (er_root (e_ref e)) = true /\
    null_or s (er_subscriber (e_ref e)) = true.
Proof.
  unfold automation_execution_fence. destruct (db_enrollments d !! enrollment) as [e|]; [|done].
  intros Hf. to_prop. exists e. by split_and!.
Qed.

(** A step is recorded for a runnable enrollment under its current claim, and
    only when the node has not completed yet; nothing else changes. *)
Lemma record_step_cases (r : StepRecord) (d d' : db) (b : bool) :
  automation_record_step r d = Ok (d', b) ->
  d' = d \/
  exists e status new,
    db_enrollments d !! rec_EnrollmentID r = Some e /\ runnable d e = true /\
    es_generation (e_st e) = rec_ClaimGeneration r /\
    parse_enrollment_status (rec_Status r) = Some status /\
    step_completed d (rec_EnrollmentID r) (rec_NodeID r) = false /\
    d' = set_enrollments
           (<[rec_EnrollmentID r :=
              {| e_ref := e_ref e;
                 e_st := recorded_state status (rec_NextNodeID r) (option_map pg_time (rec_WakeAt r))
                           (pg_time (rec_RecordedAt r)) (rec_Detail r) (e_st e) |}]> (db_enrollments d))
           (set_steps (<[(rec_EnrollmentID r, rec_NodeID r) := new]> (db_steps d)) d).
Proof.
  unfold automation_record_step.
  destruct (parse_outcome (rec_Outcome r)) as [outcome|]; [|done].
  destruct (parse_enrollment_status (rec_Status r)) as [status|] eqn:Hs; [|done].
  destruct (automation_execution_fence _ _ _ _ _ _) eqn:Hf; simpl; [|intros [= <- _]; by left].
  apply fence_spec in Hf as (e & He & Hrun & Hgen & _). rewrite He.
  destruct (step_completed d _ _) eqn:Hc; [intros [= <- _]; by left|].
  destruct (_ || _); [done|]. destruct (negb _); [done|]. intros [= <- _]. right.
  by eexists e, status, _.
Qed.

Lemma fail_step_cases (f : StepFailure) (now : time) (d : db) :
  automation_fail_step f now d = (d, false) \/
  exists e, db_enrollments d !! fail_EnrollmentID f = Some e /\ es_status (e_st e) = EActive /\
    es_generation (e_st e) = fail_ClaimGeneration f /\
    automation_fail_step f now d =
      (set_enrollments (<[fail_EnrollmentID f :=
         {| e_ref := e_ref e; e_st := failed_state (fail_Error f) (fail_Terminal f) (pg_time (fail_RetryAt f)) now (e_st e) |}]>
         (db_enrollments d)) d, true).
Proof.
  unfold automation_fail_step. destruct (db_enrollments d !! fail_EnrollmentID f) as [e|]; [|by left].
  destruct (_ && _) eqn:Hc; [|by left]. to_prop. right. exists e. by split_and!.
Qed.

(** ** The database invariant *)

Section Invariant.
Context `{UnicodeTables, UUIDLib, ZoneDB, URLLib, UUIDHash}.

(** An enrollment runs an activated version of its automation; it is finished
    exactly when it is not active, and an active one has a wake-up time and
    stands at a node of its version's graph. *)
Definition enrollment_ok (vs : gmap uuid version_row) (e : enrollment_row) : Prop :=
  (es_status (e_st e) = EActive <-> es_finished_at (e_st e) = None) /\
  exists v, vs !! er_version (e_ref e) = Some v /\ v_status v <> VDraft /\
    v_automation v = er_automation (e_ref e) /\
    (es_status (e_st e) = EActive -> es_wake_at (e_st e) <> None /\
       exists n, es_current_node (e_st e) = Some n /\ n ∈ map node_ID (graph_Nodes (v_graph v))).

(** Two rows with the same key are the same row. *)
Definition one_active (m : gmap uuid enrollment_row) : Prop :=
  forall i j ei ej, m !! i = Some ei -> m !! j = Some ej ->
    es_status (e_st ei) = EActive -> es_status (e_st ej) = EActive ->
    er_automation (e_ref ei) = er_automation (e_ref ej) ->
    er_subscriber (e_ref ei) = er_subscriber (e_ref ej) -> i = j.

(** An event enrolls a subscriber in an automation at most once. *)
Definition one_source (m : gmap uuid enrollment_row) : Prop :=
  forall i j ei ej, m !! i = Some ei -> m !! j = Some ej ->
    er_automation (e_ref ei) = er_automation (e_ref ej) ->
    er_source_event (e_ref ei) = er_source_event (e_ref ej) -> er_source_event (e_ref ei) <> None -> i = j.

Definition one_delivery (m : gmap uuid delivery_row) : Prop :=
  forall i j ri rj, m !! i = Some ri -> m !! j = Some rj ->
    d_source_kind ri = d_source_kind rj -> d_source_id ri = d_source_id rj ->
    d_subscriber ri = d_subscriber rj -> i = j.

(** A version that has been activated carries a valid graph, its trigger and a
    content snapshot's place; a draft carries no trigger. *)
Definition version_ok (v : version_row) : Prop :=
  match v_status v with
  | VDraft => v_trigger_kind v = None /\ v_trigger_ref v = None
  | _ => (exists refs, WellFormed refs (v_graph v)) /\ v_trigger_kind v <> None /\ v_trigger_ref v <> None
  end.

(** The version pointers of an automation: the draft pointer leads to a draft,
    the active pointer to the automation's one active version. *)
Definition pointers_ok (d : db) : Prop :=
  (forall id a, db_automations d !! id = Some a ->
     (forall vid, a_draft_version a = Some vid ->
        exists v, db_versions d !! vid = Some v /\ v_automation v = id /\ v_status v = VDraft) /\
     (forall vid, a_active_version a = Some vid ->
        exists v, db_versions d !! vid = Some v /\ v_automation v = id /\ v_status v = VActive) /\
     (a_active_version a = None -> a_status a = ADraft \/ a_status a = AArchived)) /\
  (forall vid v, db_versions d !! vid = Some v -> v_status v = VActive ->
     exists a, db_automations d !! v_automation v = Some a /\ a_active_version a = Some vid).

(** The automation [id] exists and belongs to this business and tenant root. *)
Definition home (m : gmap uuid automation_row) (id business root : uuid) : Prop :=
  exists a, m !! id = Some a /\ a_business a = business /\ a_root a = root.

Definition version_home (m : gmap uuid automation_row) (v : version_row) : Prop :=
  home m (v_automation v) (v_business v) (v_root v).
Definition enrollment_home (m : gmap uuid automation_row) (e : enrollment_row) : Prop :=
  home m (er_automation (e_ref e)) (er_business (e_ref e)) (er_root (e_ref e)).

(** Versions and enrollments belong to the tenant of their automation. *)
Definition tenant_ok (d : db) : Prop :=
  (forall id v, db_versions d !! id = Some v -> version_home (db_automations d) v) /\
  (forall id e, db_enrollments d !! id = Some e -> enrollment_home (db_automations d) e).

Record db_ok (d : db) : Prop := {
  ok_enrollments : forall id e, db_enrollments d !! id = Some e -> enrollment_ok (db_versions d) e;
  ok_one_active : one_active (db_enrollments d);
  ok_one_source : one_source (db_enrollments d);
  ok_deliveries : one_delivery (db_deliveries d);
  ok_versions : forall id v, db_versions d !! id = Some v -> version_ok v;
  ok_pointers : pointers_ok d;
  ok_tenant : tenant_ok d
}.

Lemma one_source_refs (m m' : gmap uuid enrollment_row) :
  (forall i e', m' !! i = Some e' -> exists e, m !! i = Some e /\ e_ref e = e_ref e') ->
  one_source m -> one_source m'.
Proof.
  intros Hm Hone i j ei ej Hi Hj Ha Hs Hn. destruct (Hm i ei Hi) as (e1 & He1 & Hr1).
  destruct (Hm j ej Hj) as (e2 & He2 & Hr2). apply (Hone i j e1 e2); congruence.
Qed.

(** Updating one enrollment row in place. *)
Lemma update_row_ok (d : db) (id : uuid) (e : enrollment_row) (st : enrollment_state)
    (steps : gmap (uuid * string) step_row) :
  db_ok d -> db_enrollments d !! id = Some e ->
  (es_status st = EActive -> es_status (e_st e) = EActive) ->
  enrollment_ok (db_versions d) {| e_ref := e_ref e; e_st := st |} ->
  db_ok (set_enrollments (<[id := {| e_ref := e_ref e; e_st := st |}]> (db_enrollments d)) (set_steps steps d)).
Proof.
  intros [Hen Hone Hsrc Hdel Hver Hptr [Htv Hte]] He Hact Hok. split; try done; simpl.
  - intros i ei. rewrite lookup_insert. case_decide; [intros [= <-]; done|apply Hen].
  - assert (Hold : forall i ei, <[id := {| e_ref := e_ref e; e_st := st |}]> (db_enrollments d) !! i = Some ei ->
      es_status (e_st ei) = EActive ->
      exists e0, db_enrollments d !! i = Some e0 /\ es_status (e_st e0) = EActive /\ e_ref e0 = e_ref ei).
    { intros i ei. rewrite lookup_insert. case_decide as Hi.
      - intros [= <-] Ha. subst i. exists e. split_and!; [done|by apply Hact|done].
      - intros Hl Ha. by exists ei. }
    intros i j ei ej Hi Hj Hai Haj Hau Hsu.
    destruct (Hold i ei Hi Hai) as (e1 & He1 & Ha1 & Hr1).
    destruct (Hold j ej Hj Haj) as (e2 & He2 & Ha2 & Hr2).
    apply (Hone i j e1 e2); try done; congruence.
  - eapply one_source_refs; [|exact Hsrc]. intros i e'. rewrite lookup_insert.
    case_decide as Hi; [|by exists e']. intros [= <-]. subst i. by exists e.
  - split; [done|]. simpl. intros i ei. rewrite lookup_insert. case_decide; [|apply Hte].
    intros [= <-]. exact (Hte id e He).
Qed.

(** A claim for an enrollment of the database, with its version's graph. *)
Definition claim_for (d : db) (enrollment : uuid) (g : Graph) : Prop :=
  exists e v, db_enrollments d !! enrollment = Some e /\ db_versions d !! er_version (e_ref e) = Some v /\
    v_status v <> VDraft /\ v_graph v = g.

Definition ok_with_claim (enrollment : uuid) (g : Graph) (d : db) : Prop := db_ok d /\ claim_for d enrollment g.

(** The claim stays one when enrollments keep their identity and versions stay. *)
Lemma claim_for_stable (d d' : db) (enrollment : uuid) (g : Graph) :
  db_versions d' = db_versions d ->
  (forall e, db_enrollments d !! enrollment = Some e ->
     exists e', db_enrollments d' !! enrollment = Some e' /\ e_ref e' = e_ref e) ->
  claim_for d enrollment g -> claim_for d' enrollment g.
Proof.
  intros Hv He (e & v & Hl & Hver & Hs & Hg). destruct (He e Hl) as (e' & Hl' & Hr).
  exists e', v. rewrite Hv, Hr. by split_and!.
Qed.

Lemma insert_keeps_ref (d : db) (id enrollment : uuid) (e : enrollment_row) (st : enrollment_state) :
  db_enrollments d !! id = Some e ->
  forall e0, db_enrollments d !! enrollment = Some e0 ->
  exists e', <[id := {| e_ref := e_ref e; e_st := st |}]> (db_enrollments d) !! enrollment = Some e' /\
             e_ref e' = e_ref e0.
Proof.
  intros He e0 He0. rewrite lookup_insert. case_decide as Hi; [|eauto].
  subst id. exists {| e_ref := e_ref e; e_st := st |}. split; [done|]. simpl. congruence.
Qed.

Lemma record_keeps_ok (g : Graph) (enrollment : Enrollment) (now : time) (r : StepRecord) (d d' : db) (b : bool) :
  good_record g enrollment now r -> (forall e, e ∈ graph_Edges g -> edge_To e ∈ map node_ID (graph_Nodes g)) ->
  automation_record_step r d = Ok (d', b) ->
  ok_with_claim (enr_ID enrollment) g d -> ok_with_claim (enr_ID enrollment) g d'.
Proof.
  intros Hg Hedges Hr [Hok Hcl]. destruct (record_ids _ _ _ _ Hg) as [Hid _].
  apply record_step_cases in Hr as [->|(e & status & new & He & Hrun & _ & Hst & _ & ->)]; [by split|].
  apply fence_runnable in Hrun. destruct Hg as (node & Hn & Hrec & Hact). split.
  - apply update_row_ok; try done. destruct (ok_enrollments d Hok _ _ He) as [Hlife (v & Hv & Hvs & Hva & Hcur)].
    split; [simpl; case_bool_decide; simpl; naive_solver|].
    exists v. split_and!; try done. simpl. intros ->. rewrite bool_decide_eq_true_2 by done.
    destruct (Hcur Hrun) as [_ (n & Hcn & Hin)]. split; [done|].
    assert (Ha : rec_Status r = "active").
    { revert Hst. unfold parse_enrollment_status.
      destruct (String.eqb_spec (rec_Status r) "active") as [->|]; [done|].
      by repeat destruct (String.eqb _ _). }
    destruct (Hact Ha) as [(next & Hnext & edge & Hedge & _ & <-)|(Hnext & _)]; rewrite Hnext.
    + exists (edge_To edge). split; [done|].
      destruct Hcl as (e0 & v0 & He0 & Hv0 & _ & Hgr). rewrite Hid in He.
      assert (v = v0) as -> by congruence. rewrite Hgr. by apply Hedges.
    + exists n. by split.
  - eapply claim_for_stable; [..|exact Hcl]; [done|]. simpl. by apply insert_keeps_ref.
Qed.

Lemma fail_keeps_ok (f : StepFailure) (now : time) (enrollment : uuid) (g : Graph) (d : db) :
  ok_with_claim enrollment g d -> ok_with_claim enrollment g (automation_fail_step f now d).1.
Proof.
  intros [Hok Hcl].
  destruct (fail_step_cases f now d) as [->|(e & He & Ha & _ & ->)]; [by split|]. simpl. split.
  - apply (update_row_ok d _ e _ (db_steps d)); try done.
    destruct (ok_enrollments d Hok _ _ He) as [Hlife (v & Hv & Hvs & Hva & Hcur)].
    split; [simpl; destruct (fail_Terminal f); naive_solver|].
    exists v. split_and!; try done. simpl. destruct (fail_Terminal f); [done|]. intros _.
    split; [done|]. by destruct (Hcur Ha) as [_ Hn].
  - eapply claim_for_stable; [..|exact Hcl]; [done|]. simpl. by apply insert_keeps_ref.
Qed.

(** A change that touches neither enrollments, versions nor automations. *)
Lemma frame_ok (d d' : db) (enrollment : uuid) (g : Graph) :
  db_enrollments d' = db_enrollments d -> db_versions d' = db_versions d ->
  db_automations d' = db_automations d -> one_delivery (db_deliveries d') ->
  ok_with_claim enrollment g d -> ok_with_claim enrollment g d'.
Proof.
  intros He Hv Ha Hd [[H1' H2' H2a H3' H4' H5' H6'] (e & v & Hc)]. split.
  - split; rewrite ?He, ?Hv; try done; unfold pointers_ok, tenant_ok; by rewrite ?He, Hv, Ha.
  - exists e, v. by rewrite He, Hv.
Qed.

Lemma enqueue_keeps_ok (m : MessageSpec) (domain : string) (now : time) (enrollment : uuid) (g : Graph) (d d' : db)
    (o : option uuid) :
  mailing_enqueue_delivery m domain now d = Ok (d', o) ->
  ok_with_claim enrollment g d -> ok_with_claim enrollment g d'.
Proof.
  intros Hen Hok. revert Hen. unfold mailing_enqueue_delivery.
  destruct (negb _); [done|]. destruct (negb _); [by intros [= <- _]|].
  destruct (db_enrollments d !! _) as [e|]; [|by intros [= <- _]].
  destruct (db_subscribers d !! _) as [s|]; [|by intros [= <- _]].
  destruct (db_versions d !! _) as [v|]; [|by intros [= <- _]].
  destruct (negb _); [by intros [= <- _]|].
  destruct (List.find _ _) as [[id r]|] eqn:Hfind; [by intros [= <- _]|].
  intros [= <- _]. apply (frame_ok d); try done. simpl.
  assert (Hnone : forall i r, db_deliveries d !! i = Some r ->
    same_source "automation" (msg_SourceID m) (msg_SubscriberID m) r = false).
  { intros i r Hr. apply (List.find_none _ _ Hfind (i, r)).
    by apply list_elem_of_In, elem_of_map_to_list. }
  intros i j ri rj. rewrite !lookup_insert. destruct Hok as [Hok _].
  assert (Hclash : forall i r, db_deliveries d !! i = Some r -> d_source_kind r = "automation" ->
    d_source_id r = msg_SourceID m -> d_subscriber r = msg_SubscriberID m -> False).
  { intros k r Hr Hk Hs Hsub. specialize (Hnone k r Hr). unfold same_source in Hnone.
    by rewrite Hk, Hs, Hsub, !N.eqb_refl in Hnone. }
  case_decide as Hi; case_decide as Hj; intros Hri Hrj Hk Hs Hsub.
  - congruence.
  - exfalso. injection Hri as <-. eapply Hclash; eauto.
  - exfalso. injection Hrj as <-. eapply Hclash; eauto.
  - by apply (ok_deliveries d Hok i j ri rj).
Qed.

Lemma add_tag_keeps_ok (b r s : uuid) (tag : string) (e : uuid) (gen : Z) (enrollment : uuid) (g : Graph) (d : db) :
  ok_with_claim enrollment g d -> ok_with_claim enrollment g (mailing_automation_add_tag b r s tag e gen d).1.
Proof.
  intros Hok. unfold mailing_automation_add_tag. destruct (negb _); [done|].
  destruct (db_subscribers d !! s) as [sub|]; [|done]. destruct (_ && _); [|done]. simpl.
  destruct (existsb _ _); [done|]. apply (frame_ok d); try done. apply Hok.
Qed.

Lemma remove_tag_keeps_ok (b r s : uuid) (tag : string) (e : uuid) (gen : Z) (enrollment : uuid) (g : Graph) (d : db) :
  ok_with_claim enrollment g d -> ok_with_claim enrollment g (mailing_automation_remove_tag b r s tag e gen d).1.
Proof.
  intros Hok. unfold mailing_automation_remove_tag. destruct (negb _); [done|].
  destruct (db_subscribers d !! s) as [sub|]; [|done]. destruct (N.eqb _ _); [|done].
  apply (frame_ok d); try done. apply Hok.
Qed.

(** The whole tick transaction. *)
Lemma advance_keeps_ok (s : Stepper) (domain : string) (c : claimedEnrollment) (now : time) (d : db) :
  stp_Deps s = AutomationPorts domain -> db_ok d -> claim_for d (enr_ID (claimed_Enrollment c)) (claimed_Graph c) ->
  ok_with_claim (enr_ID (claimed_Enrollment c)) (claimed_Graph c) (advance_tx s c now d).1.
Proof.
  intros Hdeps Hok Hcl.
  assert (Hwf : exists refs, WellFormed refs (claimed_Graph c)).
  { destruct Hcl as (e & v & He & Hv & Hs & <-). pose proof (ok_versions d Hok _ _ Hv) as Hvo.
    unfold version_ok in Hvo. destruct (v_status v); [done|by destruct Hvo|by destruct Hvo]. }
  destruct Hwf as [refs Hwf].
  apply (WithTx_keeps (ok_with_claim (enr_ID (claimed_Enrollment c)) (claimed_Graph c))); [by split|].
  apply (Advance_keeps (stp_engine s) SQLStepStore (claimed_Graph c) (claimed_Enrollment c) now
    (fun t => ok_with_claim (enr_ID (claimed_Enrollment c)) (claimed_Graph c) (tx_db t))).
  - simpl. by rewrite Hdeps.
  - apply (sql_ports_keep s domain Hdeps). split.
    + intros r d0 d' b Hg. eapply record_keeps_ok; [done|].
      intros edge Hedge. pose proof (wf_edges _ _ Hwf) as Hed. rewrite Forall_forall in Hed. by apply Hed.
    + intros. by apply fail_keeps_ok.
    + intros m n d0 d' o Hm Hen. by eapply enqueue_keeps_ok.
    + intros. by apply add_tag_keeps_ok.
    + intros. by apply remove_tag_keeps_ok.
  - apply (wf_node_ids _ _ Hwf).
  - by split.
Qed.
End Invariant.
