(* ===== verification/AutoEvents.v ===== *)
(** * Events, triggers and the outbox

    [internal/automations/events.go] (custom events and their idempotent
    ingestion), [internal/automations/trigger.go] (the outbox subscriber that
    enrolls and exits subscribers) and [internal/platform/events/outbox.go] with
    [bus.go] (the worker that drains the transactional outbox), over the tables
    of [AutoStore].

    A request body is the decoded [EventInput]; [net/mail]'s address grammar,
    the text [encoding/json] produces, RFC 3339 formatting and SHA-256 are the
    operations of [EventLib]. *)

From S2P Require Import Prelude GoStrings GoTime GoJson AutoGraph Errors AutoEngine AutoStore AutoStepper AutoService.
From stdpp Require Import sorting.
#[local] Open Scope go_scope.

Class EventLib := {
  mail_ParseAddress : string -> option string;     (* the Address of the parsed value *)
  json_Marshal : json -> string;
  time_RFC3339 : time -> string;
  sha256 : string -> string;
  (** a digest has 32 bytes *)
  sha256_length : forall s, String.length (sha256 s) = 32
}.

(** ** Topics ([internal/platform/events/bus.go]) *)

Definition TopicMailingSubscriberActivated : string := "mailing.subscriber.activated".
Definition TopicMailingSubscriberTagAdded : string := "mailing.subscriber.tag_added".
Definition TopicMailingSubscriberStatusChanged : string := "mailing.subscriber.status_changed".
Definition TopicAutomationEventReceived : string := "automation.event.received".

(** A drained outbox row. *)
Record Event := {
  evt_ID : uuid; evt_TenantRootID : uuid; evt_Topic : string; evt_Payload : json;
  evt_Attempts : Z; evt_MaxAttempts : Z
}.

Definition IsFinalAttempt (e : Event) : bool :=
  (0 <? evt_MaxAttempts e)%Z && (evt_MaxAttempts e <=? evt_Attempts e + 1)%Z.

(** ** Ingesting events *)

Record EventInput := {
  ein_Name : string; ein_Email : option string; ein_SubscriberID : option uuid;
  ein_OccurredAt : option time; ein_IdempotencyKey : option string;
  ein_Properties : option (list (string * json))
}.
Record EventView := {
  evv_ID : uuid; evv_BusinessID : uuid; evv_Name : string; evv_Email : string;
  evv_SubscriberID : option uuid; evv_OccurredAt : time; evv_IdempotencyKey : option string;
  evv_Properties : json; evv_CreatedAt : time; evv_Created : bool
}.

Definition maxEventPropertiesBytes : Z := 65536.
Definition maxEventFutureSkew : duration := (5 * Minute)%Z.

Section Events.
Context `{UnicodeTables, UUIDLib, ZoneDB, UUIDHash, Authz, EventLib}.

Definition normalizeEventEmail (value : string) : result error string :=
  let value := TrimSpace value in
  match mail_ParseAddress value with
  | Some address =>
      if negb (EqualFold address value) || (320 <? len value)%Z then validation "invalid email"
      else Ok (ToLower address)
  | None => validation "invalid email"
  end.

Definition prepareEvent (input : EventInput) (now : time) : result error (EventInput * json) :=
  let name := TrimSpace (ein_Name input) in
  if String.eqb name "" || (128 <? len name)%Z
  then validation "name is required and must not exceed 128 characters" else
  if Bool.eqb (bool_decide (ein_Email input = None)) (bool_decide (ein_SubscriberID input = None))
  then validation "exactly one of email or subscriber_id is required" else
  let? email := match ein_Email input with
                | Some e => let? e' := normalizeEventEmail e in Ok (Some e')
                | None => Ok None
                end in
  let? key := match ein_IdempotencyKey input with
              | Some k => let k' := TrimSpace k in
                          if String.eqb k' "" || (200 <? len k')%Z
                          then validation "idempotency_key must contain 1 to 200 characters"
                          else Ok (Some k')
              | None => Ok None
              end in
  if match ein_OccurredAt input with Some t => (now + maxEventFutureSkew <? t)%Z | None => false end
  then validation "occurred_at is too far in the future" else
  let members := default [] (ein_Properties input) in
  if (maxEventPropertiesBytes <? len (json_Marshal (JObj members)))%Z
  then validation "properties must be a JSON object no larger than 65536 bytes" else
  Ok ({| ein_Name := name; ein_Email := email; ein_SubscriberID := ein_SubscriberID input;
         ein_OccurredAt := ein_OccurredAt input; ein_IdempotencyKey := key;
         ein_Properties := Some members |}, JObj members).

Definition opt_json {A : Type} (f : A -> json) (o : option A) : json :=
  match o with Some a => f a | None => JNull end.

Definition eventRequestFingerprint (input : EventInput) (properties : json) : string :=
  sha256 (json_Marshal (JObj
    [("name", JStr (ein_Name input)); ("email", opt_json JStr (ein_Email input));
     ("subscriber_id", opt_json (fun u => JStr (uuid_String u)) (ein_SubscriberID input));
     ("occurred_at", opt_json (fun t => JStr (time_RFC3339 t)) (ein_OccurredAt input));
     ("idempotency_key", opt_json JStr (ein_IdempotencyKey input));
     ("properties", properties)])).

(** *** [automation_ingest_event] (migration 0135) *)

(** The unique index [(business, ingress list, ingress key, idempotency key)],
    nulls not distinct, for rows that have an idempotency key. *)
Definition same_request (business : uuid) (l k : option uuid) (key : string) (e : event_row) : bool :=
  N.eqb (ev_business e) business && bool_decide (ev_ingress_list e = l) &&
  bool_decide (ev_ingress_key e = k) && bool_decide (ev_idempotency e = Some key).

Definition known_key (d : db) (key l business root : uuid) : bool :=
  match db_list_keys d !! key with
  | Some r => N.eqb (k_list r) l && N.eqb (k_business r) business && N.eqb (k_root r) root && negb (k_revoked r)
  | None => false
  end.

(** The checks on the ingress scope: [None] when the function returns no row,
    else the ingress list to store. *)
Definition ingress_scope (d : db) (business root : uuid) (listID keyID : option uuid)
    (fingerprint idempotency : option string) : option (option uuid) :=
  match fingerprint with
  | Some f =>
      match listID, keyID, idempotency with
      | Some l, Some k, Some _ =>
          if Nat.eqb (String.length f) 32 && list_operational d l business root && known_key d k l business root
          then Some (Some l) else None
      | _, _, _ => None
      end
  | None => match keyID with Some _ => None | None => Some None end
  end.

(** The list and address of the event: the named subscriber's, when it is an
    active subscriber in scope. *)
Definition event_target (d : db) (business root : uuid) (listID : option uuid) (email : string)
    (subscriber : option uuid) : option (option uuid * string) :=
  match subscriber with
  | None => Some (listID, email)
  | Some sid =>
      match db_subscribers d !! sid with
      | Some s =>
          if N.eqb (s_business s) business && N.eqb (s_root s) root && String.eqb (s_status s) "active" &&
             null_or listID (s_list s) && list_operational d (s_list s) (s_business s) (s_root s)
          then Some (Some (s_list s), s_email s) else None
      | None => None
      end
  end.

Definition outbox_insert (root : uuid) (topic : string) (payload : json) (now : time) (m : gmap uuid outbox_row)
  : gmap uuid outbox_row :=
  <[fresh (dom m) := {| ob_root := root; ob_topic := topic; ob_payload := payload; ob_attempts := 0;
                        ob_available_at := now; ob_processed_at := None |}]> m.

Definition fresh_event (d : db) : uuid := fresh (list_to_set (C := gset uuid) (map ev_id (db_events d))).

Definition automation_ingest_event (business root : uuid) (listID keyID : option uuid)
    (fingerprint : option string) (name email : string) (subscriber : option uuid)
    (occurred : option time) (properties : json) (idempotency : option string) (now : time) (d : db)
  : result error (db * option (event_row * bool)) :=
  if negb (root_write_allowed d root) || negb (business_operational d business root) then Ok (d, None) else
  match ingress_scope d business root listID keyID fingerprint idempotency with
  | None => Ok (d, None)
  | Some ingress =>
      if match listID with Some l => negb (list_operational d l business root) | None => false end
      then Ok (d, None) else
      match event_target d business root listID email subscriber with
      | None => Ok (d, None)
      | Some (list, address) =>
          if match occurred with Some t => (now + 5 * Minute <? t)%Z | None => false end
          then sql "22023" "automation event occurred_at is too far in the future" else
          match match idempotency with
                | Some key => List.find (same_request business ingress keyID key) (db_events d)
                | None => None
                end with
          | Some e => Ok (d, if N.eqb (ev_root e) root then Some (e, false) else None)
          | None =>
              let row := {| ev_id := fresh_event d; ev_business := business; ev_root := root;
                            ev_name := btrim name; ev_email := address; ev_subscriber := subscriber;
                            ev_occurred_at := default now occurred; ev_properties := properties;
                            ev_idempotency := idempotency; ev_ingress_list := ingress;
                            ev_ingress_key := keyID; ev_fingerprint := fingerprint; ev_created_at := now |} in
              let payload := JObj
                [("business_id", juuid business); ("tenant_root_id", juuid root); ("event_id", juuid (ev_id row));
                 ("name", JStr (ev_name row)); ("email", JStr address);
                 ("subscriber_id", opt_json juuid subscriber); ("list_id", opt_json juuid list)] in
              Ok (set_events (db_events d ++ [row])
                    (outbox_insert root TopicAutomationEventReceived payload now (db_outbox d)) d,
                  Some (row, true))
          end
      end
  end.

Definition automation_resolve_event_subscriber (d : db) (business root list subscriber : uuid) : option string :=
  match db_subscribers d !! subscriber with
  | Some s => if N.eqb (s_business s) business && N.eqb (s_root s) root && N.eqb (s_list s) list &&
                 String.eqb (s_status s) "active" && list_operational d (s_list s) (s_business s) (s_root s)
              then Some (s_email s) else None
  | None => None
  end.

Definition event_view (e : event_row) (created : bool) : EventView :=
  {| evv_ID := ev_id e; evv_BusinessID := ev_business e; evv_Name := ev_name e; evv_Email := ev_email e;
     evv_SubscriberID := ev_subscriber e; evv_OccurredAt := ev_occurred_at e;
     evv_IdempotencyKey := ev_idempotency e; evv_Properties := ev_properties e;
     evv_CreatedAt := ev_created_at e; evv_Created := created |}.

(** The database part of [ingestEventTx]; the address is present by then. *)
Definition ingestEventTx (business root : uuid) (listID keyID : option uuid) (fingerprint : option string)
    (input : EventInput) (properties : json) (now : time) (d : db)
  : result error (db * (EventView * option string)) :=
  let? (d, row) := automation_ingest_event business root listID keyID fingerprint (ein_Name input)
                     (default "" (ein_Email input)) (ein_SubscriberID input)
                     (option_map pg_time (ein_OccurredAt input)) properties (ein_IdempotencyKey input) now d in
  match row with
  | Some (e, created) => Ok (d, (event_view e created, ev_fingerprint e))
  | None => Err ErrNoRows
  end.

Definition with_email (email : string) (input : EventInput) : EventInput :=
  {| ein_Name := ein_Name input; ein_Email := Some email; ein_SubscriberID := ein_SubscriberID input;
     ein_OccurredAt := ein_OccurredAt input; ein_IdempotencyKey := ein_IdempotencyKey input;
     ein_Properties := ein_Properties input |}.

(** The checks on a signed request, and the address of the subscriber it names. *)
Definition s2s_request (business root listID : uuid) (body : EventInput) (clock : time) (d : db)
  : result error (EventInput * json) :=
  let? (input, properties) := prepareEvent body clock in
  if bool_decide (ein_IdempotencyKey input = None) then validation "idempotency_key is required" else
  match ein_SubscriberID input with
  | Some sid =>
      match automation_resolve_event_subscriber d business root listID sid with
      | Some email => Ok (with_email email input, properties)
      | None => Err (mapErr ErrNoRows)
      end
  | None => Ok (input, properties)
  end.

(** The body of the verifier's transaction; [clock] is Go's clock, [now] the
    transaction's. *)
Definition IngestS2SEvent (business root listID keyID : uuid) (body : EventInput) (clock now : time) (d : db)
  : result error (db * (EventView * bool)) :=
  let? (input, properties) := s2s_request business root listID body clock d in
  let fingerprint := eventRequestFingerprint input properties in
  match ingestEventTx business root (Some listID) (Some keyID) (Some fingerprint) input properties now d with
  | Err e => Err (mapErr e)
  | Ok (d, (out, stored)) =>
      if String.eqb (default "" stored) fingerprint then Ok (d, (out, evv_Created out)) else Err ErrConflict
  end.

Definition CreateEvent (principal business : uuid) (body : EventInput) (clock now : time) (d : db)
  : db * result error EventView :=
  match prepareEvent body clock with
  | Err e => (d, Err e)
  | Ok (input, properties) =>
      run_service (fun d =>
        let? root := resolveTenantRoot principal business d in
        let? _ := requirePermission principal business root "mailing.send" d in
        let? (listID, input) :=
          match ein_SubscriberID input with
          | None => Ok (None, input)
          | Some sid =>
              match db_subscribers d !! sid with
              | Some s => if N.eqb (s_business s) business && N.eqb (s_root s) root
                          then Ok (Some (s_list s), with_email (s_email s) input) else Err ErrNoRows
              | None => Err ErrNoRows
              end
          end in
        let? (d, (out, _)) := ingestEventTx business root listID None None input properties now d in
        let d := audit principal business root "automation.event.received" "automation_event" (evv_ID out)
                   (JObj [("name", JStr (evv_Name out)); ("created", JBool (evv_Created out))]) d in
        Ok (d, out)) d
  end.

(** ** The trigger subscriber *)

Record subscriberTriggerPayload := {
  stp_BusinessID : uuid; stp_TenantRootID : uuid; stp_SubscriberID : uuid; stp_ListID : uuid;
  stp_Tag : string; stp_NewStatus : string
}.
Record customEventTriggerPayload := {
  cep_BusinessID : uuid; cep_TenantRootID : uuid; cep_EventID : uuid; cep_Name : string;
  cep_Email : string; cep_ListID : option uuid
}.

Definition subscriberTriggerPayload_zero : subscriberTriggerPayload :=
  Build_subscriberTriggerPayload uuid_Nil uuid_Nil uuid_Nil uuid_Nil "" "".
Definition subscriberTriggerPayload_fields : list (field subscriberTriggerPayload) :=
  [ Field "business_id" (as_uuid (fun x s => Build_subscriberTriggerPayload x (stp_TenantRootID s) (stp_SubscriberID s) (stp_ListID s) (stp_Tag s) (stp_NewStatus s)));
    Field "tenant_root_id" (as_uuid (fun x s => Build_subscriberTriggerPayload (stp_BusinessID s) x (stp_SubscriberID s) (stp_ListID s) (stp_Tag s) (stp_NewStatus s)));
    Field "subscriber_id" (as_uuid (fun x s => Build_subscriberTriggerPayload (stp_BusinessID s) (stp_TenantRootID s) x (stp_ListID s) (stp_Tag s) (stp_NewStatus s)));
    Field "list_id" (as_uuid (fun x s => Build_subscriberTriggerPayload (stp_BusinessID s) (stp_TenantRootID s) (stp_SubscriberID s) x (stp_Tag s) (stp_NewStatus s)));
    Field "tag" (as_string (fun x s => Build_subscriberTriggerPayload (stp_BusinessID s) (stp_TenantRootID s) (stp_SubscriberID s) (stp_ListID s) x (stp_NewStatus s)));
    Field "new_status" (as_string (fun x s => Build_subscriberTriggerPayload (stp_BusinessID s) (stp_TenantRootID s) (stp_SubscriberID s) (stp_ListID s) (stp_Tag s) x)) ].

Definition as_uuid_ptr {S : Type} (set : option uuid -> S -> S) (v : json) (s : S) : option S :=
  match v with
  | JStr x => match uuid_Parse x with Some u => Some (set (Some u) s) | None => None end
  | JNull => Some (set None s)
  | _ => None
  end.

Definition customEventTriggerPayload_zero : customEventTriggerPayload :=
  Build_customEventTriggerPayload uuid_Nil uuid_Nil uuid_Nil "" "" None.
Definition customEventTriggerPayload_fields : list (field customEventTriggerPayload) :=
  [ Field "business_id" (as_uuid (fun x s => Build_customEventTriggerPayload x (cep_TenantRootID s) (cep_EventID s) (cep_Name s) (cep_Email s) (cep_ListID s)));
    Field "tenant_root_id" (as_uuid (fun x s => Build_customEventTriggerPayload (cep_BusinessID s) x (cep_EventID s) (cep_Name s) (cep_Email s) (cep_ListID s)));
    Field "event_id" (as_uuid (fun x s => Build_customEventTriggerPayload (cep_BusinessID s) (cep_TenantRootID s) x (cep_Name s) (cep_Email s) (cep_ListID s)));
    Field "name" (as_string (fun x s => Build_customEventTriggerPayload (cep_BusinessID s) (cep_TenantRootID s) (cep_EventID s) x (cep_Email s) (cep_ListID s)));
    Field "email" (as_string (fun x s => Build_customEventTriggerPayload (cep_BusinessID s) (cep_TenantRootID s) (cep_EventID s) (cep_Name s) x (cep_ListID s)));
    Field "list_id" (as_uuid_ptr (fun x s => Build_customEventTriggerPayload (cep_BusinessID s) (cep_TenantRootID s) (cep_EventID s) (cep_Name s) (cep_Email s) x)) ].

Definition statusExitReason (status : string) : string :=
  let status := TrimSpace status in if String.eqb status "" then "subscriber_inactive" else status.

Record TriggerSubscriber := { trg_Subscribers : option (SubscriberReader tx); trg_Now : time }.

(** The error of a statement, if any. *)
Definition err_of {A : Type} (r : tx * result error A) : tx * option error :=
  match r with (t, Ok _) => (t, None) | (t, Err e) => (t, Some e) end.

Definition enrollForTrigger (business root : uuid) (kind ref : string) (subscriber event : uuid) (now : time)
    (t : tx) : tx * option error :=
  err_of (exec (fun _ => automation_enroll_for_trigger business root kind ref subscriber event now) t).

Definition handleSubscriber (s : TriggerSubscriber) (event : Event) (t : tx) : tx * option error :=
  match Unmarshal subscriberTriggerPayload_fields (Some (evt_Payload event)) subscriberTriggerPayload_zero with
  | None => (t, Some (NewError ("decode " +:+ evt_Topic event +:+ " payload")))
  | Some payload =>
      if negb (N.eqb (stp_TenantRootID payload) (evt_TenantRootID event)) ||
         N.eqb (stp_BusinessID payload) uuid_Nil || N.eqb (stp_SubscriberID payload) uuid_Nil ||
         N.eqb (stp_ListID payload) uuid_Nil
      then (t, Some (NewError ("invalid " +:+ evt_Topic event +:+ " tenant payload")))
      else if String.eqb (evt_Topic event) TopicMailingSubscriberStatusChanged then
        if String.eqb (stp_NewStatus payload) "active" then (t, None)
        else err_of (exec (fun now d => Ok (automation_exit_for_subscriber (stp_SubscriberID payload)
                        (stp_TenantRootID payload) (statusExitReason (stp_NewStatus payload)) now d, tt)) t)
      else if String.eqb (evt_Topic event) TopicMailingSubscriberTagAdded then
        let ref := ToLower (TrimSpace (stp_Tag payload)) in
        if String.eqb ref "" then (t, Some (NewError "tag_added payload has no tag"))
        else enrollForTrigger (stp_BusinessID payload) (stp_TenantRootID payload) "tag_added" ref
               (stp_SubscriberID payload) (evt_ID event) (trg_Now s) t
      else enrollForTrigger (stp_BusinessID payload) (stp_TenantRootID payload) "list_joined"
             (uuid_String (stp_ListID payload)) (stp_SubscriberID payload) (evt_ID event) (trg_Now s) t
  end.

(** The loop over the lists whose automations wait for this event. *)
Fixpoint enroll_lists (reader : SubscriberReader tx) (payload : customEventTriggerPayload) (event : uuid)
    (now : time) (lists : list uuid) (t : tx) : tx * option error :=
  match lists with
  | [] => (t, None)
  | listID :: rest =>
      match ResolveForList reader (cep_BusinessID payload) (cep_Email payload) listID t with
      | (t, Err e) => if is_invalid_reference e then enroll_lists reader payload event now rest t else (t, Some e)
      | (t, Ok subscriberID) =>
          match enrollForTrigger (cep_BusinessID payload) (cep_TenantRootID payload) "event" (cep_Name payload)
                  subscriberID event now t with
          | (t, Some e) => (t, Some e)
          | (t, None) => enroll_lists reader payload event now rest t
          end
      end
  end.

Definition handleCustomEvent (s : TriggerSubscriber) (event : Event) (t : tx) : tx * option error :=
  match trg_Subscribers s with
  | None => (t, Some (NewError "automation trigger subscriber reader is not configured"))
  | Some reader =>
      match Unmarshal customEventTriggerPayload_fields (Some (evt_Payload event)) customEventTriggerPayload_zero with
      | None => (t, Some (NewError "decode automation event payload"))
      | Some payload =>
          if negb (N.eqb (cep_TenantRootID payload) (evt_TenantRootID event)) ||
             N.eqb (cep_BusinessID payload) uuid_Nil || N.eqb (cep_EventID payload) uuid_Nil ||
             String.eqb (TrimSpace (cep_Name payload)) "" || String.eqb (TrimSpace (cep_Email payload)) ""
          then (t, Some (NewError "invalid automation event tenant payload"))
          else match query (fun d => automation_event_trigger_lists d (cep_BusinessID payload)
                                       (cep_TenantRootID payload) (cep_Name payload) (cep_ListID payload)) t with
               | (t, Err e) => (t, Some e)
               | (t, Ok lists) => enroll_lists reader payload (evt_ID event) (trg_Now s) lists t
               end
      end
  end.

Definition Handle (s : TriggerSubscriber) (event : Event) (t : tx) : tx * option error :=
  if String.eqb (evt_Topic event) TopicMailingSubscriberActivated ||
     String.eqb (evt_Topic event) TopicMailingSubscriberTagAdded ||
     String.eqb (evt_Topic event) TopicMailingSubscriberStatusChanged
  then handleSubscriber s event t
  else if String.eqb (evt_Topic event) TopicAutomationEventReceived then handleCustomEvent s event t
  else (t, None).
End Events.

(** ** The outbox worker *)

Definition Handler := Event -> tx -> tx * option error.
(** [Bus]: the handlers subscribed to a topic, in order. *)
Definition Bus := string -> list Handler.

Record Worker := { wrk_Bus : Bus; wrk_BatchSize : Z; wrk_MaxAttempts : Z }.

Definition withDefaults (w : Worker) : Worker :=
  {| wrk_Bus := wrk_Bus w;
     wrk_BatchSize := if (wrk_BatchSize w <=? 0)%Z then 50%Z else wrk_BatchSize w;
     wrk_MaxAttempts := if (wrk_MaxAttempts w <=? 0)%Z then 10%Z else wrk_MaxAttempts w |}.

(** [attempts] is a non-negative int32 below its maximum, so [attempts + 1] does
    not wrap and the shift count is not negative. *)
Definition backoffSeconds (attempts : Z) : Z :=
  let shift := if (8 <? attempts + 1)%Z then 8%Z else (attempts + 1)%Z in
  let s := Z.shiftl 1 shift in
  if (300 <? s)%Z then 300%Z else s.

(** [claim_outbox_batch] (migration 0115). *)
Definition outbox_due (d : db) (locked : gset uuid) (now : time) (id : uuid) (r : outbox_row) : bool :=
  bool_decide (ob_processed_at r = None) && (ob_available_at r <=? now)%Z &&
  root_write_allowed d (ob_root r) && negb (bool_decide (id ∈ locked)).

Definition id_before (x y : uuid * outbox_row) : Prop := (fst x <= fst y)%N.
#[export] Instance id_before_dec (x y : uuid * outbox_row) : Decision (id_before x y).
Proof. unfold id_before. apply _. Defined.

Definition claim_outbox_batch (locked : gset uuid) (limit : Z) (now : time) (d : db) : list (uuid * outbox_row) :=
  take (Z.to_nat limit)
    (merge_sort id_before
      (List.filter (fun x => outbox_due d locked now (fst x) (snd x)) (map_to_list (db_outbox d)))).

Definition to_event (maxAttempts : Z) (x : uuid * outbox_row) : Event :=
  {| evt_ID := fst x; evt_TenantRootID := ob_root (snd x); evt_Topic := ob_topic (snd x);
     evt_Payload := ob_payload (snd x); evt_Attempts := ob_attempts (snd x); evt_MaxAttempts := maxAttempts |}.

Definition update_outbox (id : uuid) (f : outbox_row -> outbox_row) (d : db) : db :=
  set_events (db_events d) (alter f id (db_outbox d)) d.

Definition processed (now : time) (r : outbox_row) : outbox_row :=
  {| ob_root := ob_root r; ob_topic := ob_topic r; ob_payload := ob_payload r; ob_attempts := ob_attempts r;
     ob_available_at := ob_available_at r; ob_processed_at := Some now |}.
Definition rescheduled (delay : duration) (now : time) (r : outbox_row) : outbox_row :=
  {| ob_root := ob_root r; ob_topic := ob_topic r; ob_payload := ob_payload r; ob_attempts := (ob_attempts r + 1)%Z;
     ob_available_at := (now + delay)%Z; ob_processed_at := ob_processed_at r |}.

Definition mark_outbox_processed (id : uuid) (t : tx) : tx * option error :=
  err_of (exec (fun now d => Ok (update_outbox id (processed now) d, tt)) t).
Definition reschedule_outbox (id : uuid) (seconds : Z) (t : tx) : tx * option error :=
  err_of (exec (fun now d => Ok (update_outbox id (rescheduled (seconds * Second) now) d, tt)) t).

(** The handlers, in order, until one fails. *)
Fixpoint run_handlers (hs : list Handler) (e : Event) (t : tx) : tx * option error :=
  match hs with
  | [] => (t, None)
  | h :: hs' => match h e t with
                | (t, Some err) => (t, Some err)
                | (t, None) => run_handlers hs' e t
                end
  end.

(** The handlers run under a savepoint: a failure rolls it back.  Releasing the
    savepoint of an aborted transaction fails and leaves it aborted, as does
    opening one. *)
Definition dispatch (w : Worker) (e : Event) (t : tx) : tx * option error :=
  match wrk_Bus w (evt_Topic e) with
  | [] => (t, None)
  | hs =>
      if tx_aborted t then (t, Some aborted_error) else
      match run_handlers hs e t with
      | (_, Some err) => (t, Some err)
      | (sp, None) => if tx_aborted sp then (sp, Some aborted_error) else (sp, None)
      end
  end.

(** One event of the batch. *)
Definition drain_event (w : Worker) (e : Event) (t : tx) : tx * option error :=
  match dispatch w e t with
  | (t, None) => mark_outbox_processed (evt_ID e) t
  | (t, Some _) =>
      if (wrk_MaxAttempts w <=? evt_Attempts e + 1)%Z then mark_outbox_processed (evt_ID e) t
      else reschedule_outbox (evt_ID e) (backoffSeconds (evt_Attempts e)) t
  end.

Fixpoint drain_batch (w : Worker) (batch : list Event) (t : tx) : tx * option error :=
  match batch with
  | [] => (t, None)
  | e :: rest => match drain_event w e t with
                 | (t, Some err) => (t, Some err)
                 | (t, None) => drain_batch w rest t
                 end
  end.

Definition drainOnce (w : Worker) (locked : gset uuid) (now : time) (d : db) : db * (nat * option error) :=
  WithTx now (fun t =>
    match query (claim_outbox_batch locked (wrk_BatchSize w) now) t with
    | (t, Err e) => (t, (0, Some e))
    | (t, Ok rows) =>
        let batch := map (to_event (wrk_MaxAttempts w)) rows in
        match drain_batch w batch t with
        | (t, err) => (t, (length batch, err))
        end
    end) d.
