(* ===== verification/AutoDemo.v ===== *)
(** * A run of the automation subsystem

    A tenant with one mailing list, one template and one subscriber; a drip
    automation is created, its graph stored and activated, the subscriber is
    enrolled and a stepper claims the enrollment.  The states are used as
    witnesses for the theorems about the whole subsystem. *)

From S2P Require Import Prelude GoStrings GoTime GoJson AutoGraph Errors AutoEngine Concrete AutoStore AutoStepper.
From S2P Require Import AutoService AutoEvents.

Definition demo_authz : Authz :=
  {| authorized := fun p b => N.eqb p 7 && N.eqb b 1; has_permission := fun p b perm => N.eqb p 7 && N.eqb b 1 |}.

(** Addresses parse as themselves, JSON documents and times have their length as
    text, and every digest is the same. *)
Definition demo_events : EventLib.
Proof.
  refine {| mail_ParseAddress := fun s => if String.eqb s "" then None else Some s;
            json_Marshal := fun j => match j with JObj ms => "object" | _ => "value" end;
            time_RFC3339 := fun t => "time";
            sha256 := fun s => "0123456789abcdef0123456789abcdef" |}.
  reflexivity.
Defined.

#[local] Existing Instances demo_unicode demo_uuid demo_zones demo_urls demo_hash demo_authz demo_events.

Definition demo_db : db :=
  {| db_automations := ∅; db_versions := ∅; db_enrollments := ∅; db_steps := ∅; db_events := [];
     db_subscribers := {[ 1%N := {| s_business := 1; s_root := 1; s_list := 1; s_email := "a@example.com";
                                    s_first_name := Some "Ada"; s_last_name := None;
                                    s_status := "active"; s_tags := [] |} ]};
     db_deliveries := ∅;
     db_lists := {[ 1%N := {| l_business := 1; l_root := 1; l_name := "News"; l_active := true |} ]};
     db_templates := {[ 2%N := {| t_business := 1; t_root := 1;
                                  t_content := {| tpl_subject := "Hello"; tpl_preheader := None; tpl_body := "Hi" |} |} ]};
     db_businesses := {[ 1%N := {| b_root := 1; b_active := true; b_deleted := false |} ]};
     db_fenced_roots := ∅; db_list_keys := {[ 1%N := {| k_business := 1; k_root := 1; k_list := 1; k_revoked := false |} ]};
     db_outbox := ∅; db_audit := [] |}.

Definition demo_input : CreateInput :=
  {| ci_Name := "Welcome"; ci_Description := None; ci_AllowReenroll := false |}.

Definition demo_created : db := (Create 7 1 demo_input 0 demo_db).1.
Definition demo_stored : db := (PutGraph 7 1 0 0 demo_graph 0 demo_created).1.
Definition demo_active : db := (Activate 7 1 0 0 0 demo_stored).1.
Definition demo_enrolled : db := (Enroll 7 1 0 1 0 demo_active).1.
Definition demo_claim : db * (list claimedEnrollment * option error) :=
  claim ∅ (1 * Second) 10 (2 * Minute) demo_enrolled.
Definition demo_claims : list claimedEnrollment := demo_claim.2.1.
Definition demo_claimed : db := demo_claim.1.
Definition demo_paused : db := (Pause 7 1 0 (2 * Second) demo_claimed).1.

Definition demo_stepper : Stepper :=
  {| stp_Deps := AutomationPorts "mail.example.com"; stp_Batch := 0; stp_Lease := 0;
     stp_MaxNodesPerTick := 0; stp_MaxNodeAttempts := 0 |}.

(** The claim the stepper obtained, and the state after its tick. *)
Definition no_claim : claimedEnrollment :=
  {| claimed_Enrollment :=
       {| enr_ID := 0; enr_BusinessID := 0; enr_TenantRootID := 0; enr_AutomationID := 0; enr_VersionID := 0;
          enr_SubscriberID := 0; enr_CurrentNodeID := ""; enr_WakeAt := 0; enr_EnrolledAt := 0;
          enr_NodeAttempts := 0; enr_ClaimGeneration := 0 |};
     claimed_Graph := emptyGraph |}.
Definition demo_held : claimedEnrollment := List.hd no_claim demo_claims.
Definition demo_advanced : db := (advance_tx demo_stepper demo_held (1 * Second) demo_claimed).1.
Definition demo_resumed : db := (Resume 7 1 0 (3 * Second) demo_paused).1.

Definition demo_archived : db := (Archive 7 1 0 (9 * Second) demo_advanced).1.

Example demo_claims_one : demo_claims = [demo_held] /\ demo_claim.2.2 = None.
Proof. vm_compute. by split. Qed.

(** The tick runs the trigger and sends the first message, then waits. *)
Example demo_tick_effect :
  map (fun x => (snd (fst x), st_outcome (snd x))) (map_to_list (db_steps demo_advanced)) =
    [("start", OAdvanced); ("hello", OSent); ("pause", OWaiting)] /\
  map (fun x => d_email (snd x)) (map_to_list (db_deliveries demo_advanced)) = ["a@example.com"].
Proof. vm_compute. by split. Qed.

(** ** A custom event on its way through the outbox *)

Definition demo_body : EventInput :=
  {| ein_Name := " signup "; ein_Email := Some "a@example.com"; ein_SubscriberID := None; ein_OccurredAt := None;
     ein_IdempotencyKey := Some "order-1"; ein_Properties := None |}.
(** The same key, another event. *)
Definition demo_other_body : EventInput :=
  {| ein_Name := "purchase"; ein_Email := Some "b@example.com"; ein_SubscriberID := None; ein_OccurredAt := None;
     ein_IdempotencyKey := Some " order-1"; ein_Properties := None |}.

Definition demo_ingested : db :=
  match IngestS2SEvent 1 1 1 1 demo_body 0 0 demo_active with Ok (d, _) => d | Err _ => demo_active end.

Definition demo_joined : Event :=
  {| evt_ID := 9; evt_TenantRootID := 1; evt_Topic := TopicMailingSubscriberActivated;
     evt_Payload := JObj [("business_id", JStr "1"); ("tenant_root_id", JStr "1"); ("subscriber_id", JStr "1");
                          ("list_id", JStr "1")];
     evt_Attempts := 0; evt_MaxAttempts := 10 |}.

Definition demo_bus : Bus := fun topic =>
  [Handle {| trg_Subscribers := Some AutomationPorts_subscribers; trg_Now := 0 |}].
Definition demo_worker : Worker := withDefaults {| wrk_Bus := demo_bus; wrk_BatchSize := 0; wrk_MaxAttempts := 0 |}.
