(* ===== verification/AutoSystem.v ===== *)
(** * The automation subsystem as a transition system

    The database together with the claims that stepper replicas hold.  A step
    is one committed or rolled-back transaction: a claim, a tick of a worker
    that holds a claim (however old), an API call, a trigger, or a change made
    by another subsystem.  The invariant of [AutoStoreFacts] holds in every
    reachable state, claims are exclusive, and an overtaken claim commits
    nothing, now or later. *)

From S2P Require Import Prelude GoStrings GoTime GoJson AutoGraph Errors AutoEngine Concrete AutoGraphFacts.
From S2P Require Import AutoEngineFacts AutoStore AutoStepper AutoService AutoStoreFacts.
From stdpp Require Import sorting.

(** ** How a transaction may change the tables *)

(** Rows stay, keep their identity and their place in the order of claims, and
    a finished enrollment stays finished. *)
Definition enr_evolve (m m' : gmap uuid enrollment_row) : Prop :=
  forall id e, m !! id = Some e -> exists e', m' !! id = Some e' /\ e_ref e' = e_ref e /\
    (es_generation (e_st e) <= es_generation (e_st e'))%Z /\
    (es_status (e_st e') = EActive -> es_status (e_st e) = EActive).

(** Activated versions that have enrollments keep their graph. *)
Definition versions_extend (d d' : db) : Prop :=
  forall id v, db_versions d !! id = Some v -> v_status v <> VDraft ->
    (exists eid e, db_enrollments d !! eid = Some e /\ er_version (e_ref e) = id) ->
    exists v', db_versions d' !! id = Some v' /\ v_status v' <> VDraft /\
      v_graph v' = v_graph v /\ v_automation v' = v_automation v.

(** A completed step is never recorded again. *)
Definition steps_keep (m m' : gmap (uuid * string) step_row) : Prop :=
  forall k r, m !! k = Some r -> st_completed_at r <> None -> m' !! k = Some r.

Lemma steps_keep_refl (m : gmap (uuid * string) step_row) : steps_keep m m.
Proof. by intros k r. Qed.
#[local] Hint Resolve steps_keep_refl : core.

Record evolves (d d' : db) : Prop := {
  ev_enrollments : enr_evolve (db_enrollments d) (db_enrollments d');
  ev_versions : versions_extend d d';
  ev_steps : steps_keep (db_steps d) (db_steps d')
}.

Lemma enr_evolve_refl (m : gmap uuid enrollment_row) : enr_evolve m m.
Proof. intros id e He. exists e. by split_and!. Qed.

Lemma enr_evolve_trans (m1 m2 m3 : gmap uuid enrollment_row) :
  enr_evolve m1 m2 -> enr_evolve m2 m3 -> enr_evolve m1 m3.
Proof.
  intros H12 H23 id e He. destruct (H12 id e He) as (e2 & He2 & Hr2 & Hg2 & Ha2).
  destruct (H23 id e2 He2) as (e3 & He3 & Hr3 & Hg3 & Ha3).
  exists e3. split_and!; [done|congruence|lia|auto].
Qed.

Lemma enr_evolve_insert (m : gmap uuid enrollment_row) (id : uuid) (e : enrollment_row) (st : enrollment_state) :
  m !! id = Some e -> (es_generation (e_st e) <= es_generation st)%Z ->
  (es_status st = EActive -> es_status (e_st e) = EActive) ->
  enr_evolve m (<[id := {| e_ref := e_ref e; e_st := st |}]> m).
Proof.
  intros He Hg Ha i ei Hi. rewrite lookup_insert. case_decide as Hid; [|by exists ei; split_and!].
  subst i. assert (ei = e) as -> by congruence. eexists. split; [done|]. by split_and!.
Qed.

Lemma enr_evolve_fresh (m : gmap uuid enrollment_row) (id : uuid) (e : enrollment_row) :
  m !! id = None -> enr_evolve m (<[id := e]> m).
Proof.
  intros Hn i ei Hi. exists ei. split_and!; try done. rewrite lookup_insert_ne; [done|congruence].
Qed.

Lemma fresh_none {A : Type} (m : gmap uuid A) : m !! fresh (dom m) = None.
Proof. apply not_elem_of_dom, is_fresh. Qed.

Lemma versions_extend_same (d d' : db) : db_versions d' = db_versions d -> versions_extend d d'.
Proof. intros Hv id v Hl Hs _. exists v. by rewrite Hv. Qed.

Lemma evolves_frame (d d' : db) :
  db_enrollments d' = db_enrollments d -> db_versions d' = db_versions d -> db_steps d' = db_steps d ->
  evolves d d'.
Proof.
  intros He Hv Hs. split; [rewrite He; apply enr_evolve_refl|by apply versions_extend_same|].
  by rewrite Hs.
Qed.

Lemma evolves_enrollments (d : db) (m : gmap uuid enrollment_row) :
  enr_evolve (db_enrollments d) m -> evolves d (set_enrollments m d).
Proof. intros Hev. split; [done|by apply versions_extend_same|done]. Qed.

Lemma evolves_versions (d d' : db) :
  db_enrollments d' = db_enrollments d -> db_steps d' = db_steps d -> versions_extend d d' -> evolves d d'.
Proof. intros He Hs Hv. split; [rewrite He; apply enr_evolve_refl|done|by rewrite Hs]. Qed.

Lemma evolves_refl (d : db) : evolves d d.
Proof. by apply evolves_frame. Qed.

Lemma evolves_trans (d1 d2 d3 : db) : evolves d1 d2 -> evolves d2 d3 -> evolves d1 d3.
Proof.
  intros [He1 Hv1 Hs1'] [He2 Hv2 Hs2']. split; [by eapply enr_evolve_trans| |by intros k r Hk Hr; apply Hs2', Hr; apply Hs1'].
  intros id v Hl Hs (eid & e & Hen & Hver).
  destruct (Hv1 id v Hl Hs) as (v2 & Hl2 & Hs2 & Hg2 & Ha2); [by exists eid, e|].
  destruct (He1 eid e Hen) as (e2 & Hen2 & Hr2 & _).
  destruct (Hv2 id v2 Hl2 Hs2) as (v3 & Hl3 & Hs3 & Hg3 & Ha3); [exists eid, e2; split; [done|congruence]|].
  exists v3. split_and!; congruence.
Qed.

(** [UPDATE ... WHERE p AND status = 'active'] *)
Lemma update_active_lookup (p : uuid -> enrollment_ref -> bool) (f : enrollment_state -> enrollment_state)
    (m : gmap uuid enrollment_row) (id : uuid) :
  update_active p f m !! id =
  match m !! id with
  | Some e => Some (if p id (e_ref e) && bool_decide (es_status (e_st e) = EActive)
                    then {| e_ref := e_ref e; e_st := f (e_st e) |} else e)
  | None => None
  end.
Proof. unfold update_active. rewrite map_lookup_imap. by destruct (m !! id). Qed.

Lemma update_active_evolve (p : uuid -> enrollment_ref -> bool) (f : enrollment_state -> enrollment_state)
    (m : gmap uuid enrollment_row) :
  (forall st, (es_generation st <= es_generation (f st))%Z) -> enr_evolve m (update_active p f m).
Proof.
  intros Hg id e He. rewrite update_active_lookup, He. eexists. split; [done|].
  destruct (p id (e_ref e)); simpl; [|by split_and!]. case_bool_decide; simpl; by split_and!.
Qed.

Section System.
Context `{UnicodeTables, UUIDLib, ZoneDB, URLLib, UUIDHash, Authz}.

(** ** Transactions preserve the invariant and evolve the tables *)

Definition good_step (d d' : db) : Prop := db_ok d -> db_ok d' /\ evolves d d'.

Lemma good_refl (d : db) : good_step d d.
Proof. intros Hok. split; [done|apply evolves_refl]. Qed.

Lemma good_trans (d1 d2 d3 : db) : good_step d1 d2 -> good_step d2 d3 -> good_step d1 d3.
Proof.
  intros H12 H23 Hok. destruct (H12 Hok) as [Hok2 He1]. destruct (H23 Hok2) as [Hok3 He2].
  split; [done|by eapply evolves_trans].
Qed.

(** Changes outside the automation tables. *)
Lemma good_frame (d d' : db) :
  db_enrollments d' = db_enrollments d -> db_versions d' = db_versions d ->
  db_automations d' = db_automations d -> db_deliveries d' = db_deliveries d -> db_steps d' = db_steps d ->
  good_step d d'.
Proof.
  intros He Hv Ha Hd Hst [H1' H2' H2a H3' H4' H5' H6']. split; [|by apply evolves_frame].
  split; rewrite ?He, ?Hv, ?Hd; try done; unfold pointers_ok, tenant_ok; by rewrite ?He, Hv, Ha.
Qed.

(** Only enrollments change, no row is revived, and each row stays well formed. *)
Lemma good_enrollments (d : db) (m : gmap uuid enrollment_row) :
  (db_ok d -> enr_evolve (db_enrollments d) m /\
   (forall id e, m !! id = Some e -> enrollment_ok (db_versions d) e /\ enrollment_home (db_automations d) e) /\
   one_active m /\ one_source m) ->
  good_step d (set_enrollments m d).
Proof.
  intros Hm Hok. destruct (Hm Hok) as (Hev & Hrows & Hone & Hsrc). destruct Hok as [H1' H2' H2a H3' H4' H5' [Htv Hte]].
  split; [split; try done|by apply evolves_enrollments].
  - intros id e He. by apply (Hrows id e).
  - split; [done|]. intros id e He. by apply (Hrows id e).
Qed.

Lemma one_active_update (p : uuid -> enrollment_ref -> bool) (f : enrollment_state -> enrollment_state)
    (m : gmap uuid enrollment_row) : one_active m -> one_active (update_active p f m).
Proof.
  intros Hone.
  assert (Hold : forall i ei, update_active p f m !! i = Some ei -> es_status (e_st ei) = EActive ->
    exists e0, m !! i = Some e0 /\ es_status (e_st e0) = EActive /\ e_ref e0 = e_ref ei).
  { intros i ei. rewrite update_active_lookup. destruct (m !! i) as [e|]; [|done]. intros [= <-].
    destruct (p i (e_ref e)); simpl; [|by exists e]. case_bool_decide as Hact; [|by exists e].
    intros _. exists e. by split_and!. }
  intros i j ei ej Hi Hj Hai Haj Hau Hsu.
  destruct (Hold i ei Hi Hai) as (e1 & He1 & Ha1 & Hr1).
  destruct (Hold j ej Hj Haj) as (e2 & He2 & Ha2 & Hr2).
  apply (Hone i j e1 e2); try done; congruence.
Qed.

Lemma good_update_active (p : uuid -> enrollment_ref -> bool) (f : enrollment_state -> enrollment_state) (d : db) :
  (forall st, (es_generation st <= es_generation (f st))%Z) ->
  (forall vs e, es_status (e_st e) = EActive -> enrollment_ok vs e ->
     enrollment_ok vs {| e_ref := e_ref e; e_st := f (e_st e) |}) ->
  good_step d (set_enrollments (update_active p f (db_enrollments d)) d).
Proof.
  intros Hg Hf. apply good_enrollments. intros Hok. split_and!.
  - by apply update_active_evolve.
  - intros id e. rewrite update_active_lookup. destruct (db_enrollments d !! id) as [e0|] eqn:He0; [|done].
    pose proof (ok_enrollments d Hok id e0 He0) as Hrow.
    pose proof (proj2 (ok_tenant d Hok) id e0 He0) as Hhome. intros [= <-].
    destruct (p id (e_ref e0)); simpl; [|done]. case_bool_decide; [|done]. split; [by apply Hf|exact Hhome].
  - apply one_active_update, (ok_one_active d Hok).
  - eapply one_source_refs; [|exact (ok_one_source d Hok)]. intros i e'. rewrite update_active_lookup.
    destruct (db_enrollments d !! i) as [e|]; [|done]. intros [= <-]. exists e. split; [done|]. by case_match.
Qed.

Lemma exited_ok (reason : string) (now : time) (vs : gmap uuid version_row) (e : enrollment_row) :
  enrollment_ok vs e -> enrollment_ok vs {| e_ref := e_ref e; e_st := exited_state reason now (e_st e) |}.
Proof.
  intros [_ (v & Hv & Hs & Ha & _)]. split; [simpl; naive_solver|]. exists v. by split_and!.
Qed.

Lemma fenced_ok (now : time) (vs : gmap uuid version_row) (e : enrollment_row) :
  enrollment_ok vs e -> enrollment_ok vs {| e_ref := e_ref e; e_st := fenced_state now (e_st e) |}.
Proof. done. Qed.

(** Inserting an enrollment that no unique index forbids. *)
Lemma conflict_false (m : gmap uuid enrollment_row) (r : enrollment_ref) (id : uuid) (e : enrollment_row) :
  enrollment_conflict m r = false -> m !! id = Some e -> es_status (e_st e) = EActive ->
  er_automation (e_ref e) = er_automation r -> er_subscriber (e_ref e) = er_subscriber r -> False.
Proof.
  intros Hc He Ha Hau Hsu. unfold enrollment_conflict in Hc. rewrite <- not_true_iff_false in Hc. apply Hc.
  apply existsb_exists. exists (id, e). split; [by apply list_elem_of_In, elem_of_map_to_list|]. simpl.
  rewrite Hau, Hsu, !N.eqb_refl. by rewrite bool_decide_eq_true_2.
Qed.

Lemma conflict_source (m : gmap uuid enrollment_row) (r : enrollment_ref) (id : uuid) (e : enrollment_row) :
  enrollment_conflict m r = false -> m !! id = Some e -> er_automation (e_ref e) = er_automation r ->
  er_source_event (e_ref e) = er_source_event r -> er_source_event r <> None -> False.
Proof.
  intros Hc He Hau Hsrc Hn. unfold enrollment_conflict in Hc. rewrite <- not_true_iff_false in Hc. apply Hc.
  apply existsb_exists. exists (id, e). split; [by apply list_elem_of_In, elem_of_map_to_list|]. simpl.
  rewrite Hau, N.eqb_refl. destruct (er_source_event r) as [ev|]; [|done].
  by rewrite (bool_decide_eq_true_2 (er_source_event (e_ref e) = Some ev)), orb_true_r by done.
Qed.

Lemma good_insert (d : db) (r : enrollment_ref) (node : string) (now : time) :
  enrollment_conflict (db_enrollments d) r = false ->
  home (db_automations d) (er_automation r) (er_business r) (er_root r) ->
  (db_ok d -> exists v, db_versions d !! er_version r = Some v /\ v_status v <> VDraft /\
     v_automation v = er_automation r /\ node ∈ map node_ID (graph_Nodes (v_graph v))) ->
  good_step d (set_enrollments
    (<[fresh (dom (db_enrollments d)) := new_enrollment r node now]> (db_enrollments d)) d).
Proof.
  intros Hc Hhome Hv. apply good_enrollments. intros Hok.
  pose proof (fresh_none (db_enrollments d)) as Hfresh. split_and!.
  - by apply enr_evolve_fresh.
  - intros id e. rewrite lookup_insert. case_decide;
      [|intros He; split; [by apply (ok_enrollments d Hok id)|by apply (proj2 (ok_tenant d Hok) id)]].
    intros [= <-]. destruct (Hv Hok) as (v & Hvl & Hvs & Hva & Hn).
    split; [|exact Hhome]. split; [done|]. exists v. split_and!; try done. simpl. intros _. split; [done|]. by exists node.
  - intros i j ei ej. rewrite !lookup_insert. case_decide as Hi; case_decide as Hj.
    + congruence.
    + intros [= <-] Hej _ Haj Hau Hsu. exfalso. eapply (conflict_false _ r j ej); eauto.
    + intros Hei [= <-] Hai _ Hau Hsu. exfalso. eapply (conflict_false _ r i ei); eauto.
    + apply (ok_one_active d Hok).
  - intros i j ei ej. rewrite !lookup_insert. case_decide as Hi; case_decide as Hj.
    + congruence.
    + intros [= <-] Hej Hau Hsrc Hn. exfalso. by apply (conflict_source _ r j ej Hc).
    + intros Hei [= <-] Hau Hsrc Hn. exfalso. simpl in *. apply (conflict_source _ r i ei Hc); congruence.
    + apply (ok_one_source d Hok).
Qed.

(** ** Claiming *)

Lemma fold_insert {A : Type} (l : list (uuid * A)) (m : gmap uuid A) (k : uuid) :
  NoDup (map fst l) ->
  (forall v, (k, v) ∈ l -> fold_left (fun m x => <[fst x := snd x]> m) l m !! k = Some v) /\
  (k ∉ map fst l -> fold_left (fun m x => <[fst x := snd x]> m) l m !! k = m !! k).
Proof.
  revert m. induction l as [|[k0 v0] l IH]; intros m Hnd; simpl in *.
  - split; [intros v Hv; by apply not_elem_of_nil in Hv|done].
  - apply NoDup_cons in Hnd as [Hn Hnd]. destruct (IH (<[k0 := v0]> m) Hnd) as [Hin Hout]. split.
    + intros v Hv. apply elem_of_cons in Hv as [[= -> ->]|Hv]; [|by apply Hin].
      rewrite Hout by done. apply lookup_insert_eq.
    + intros Hk. rewrite not_elem_of_cons in Hk. destruct Hk as [Hne Hk].
      rewrite Hout by done. by rewrite lookup_insert_ne.
Qed.

(** The rows a claim takes are distinct, runnable and due. *)
Definition claim_candidates (locked : gset uuid) (now : time) (limit : Z) (d : db) : list (uuid * enrollment_row) :=
  take (claim_limit limit)
    (merge_sort claim_before
      (List.filter (fun x => due d locked now (fst x) (snd x)) (map_to_list (db_enrollments d)))).

Lemma candidates_spec (locked : gset uuid) (now : time) (limit : Z) (d : db) (id : uuid) (e : enrollment_row) :
  (id, e) ∈ claim_candidates locked now limit d ->
  db_enrollments d !! id = Some e /\ due d locked now id e = true.
Proof. apply batch_elem. Qed.

Lemma candidates_nodup (locked : gset uuid) (now : time) (limit : Z) (d : db) :
  NoDup (map fst (claim_candidates locked now limit d)).
Proof. apply batch_nodup. Qed.

Definition claimed_rows (locked : gset uuid) (now : time) (limit : Z) (lease : duration) (d : db)
  : list (uuid * enrollment_row) :=
  map (fun x => (fst x, {| e_ref := e_ref (snd x); e_st := claim_state now lease (e_st (snd x)) |}))
      (claim_candidates locked now limit d).

Lemma claimed_rows_spec (locked : gset uuid) (now : time) (limit : Z) (lease : duration) (d : db)
    (id : uuid) (e' : enrollment_row) :
  (id, e') ∈ claimed_rows locked now limit lease d ->
  exists e, db_enrollments d !! id = Some e /\ due d locked now id e = true /\
    e' = {| e_ref := e_ref e; e_st := claim_state now lease (e_st e) |}.
Proof.
  unfold claimed_rows. intros Hin. apply list_elem_of_fmap in Hin as ([id0 e] & [= -> ->] & Hin).
  apply candidates_spec in Hin as [He Hd]. exists e. by split_and!.
Qed.

Lemma claim_due_row (locked : gset uuid) (now : time) (limit : Z) (lease : duration) (d : db) (id : uuid) :
  let d' := (automation_claim_due locked now limit lease d).1 in
  match db_enrollments d' !! id with
  | Some e' => db_enrollments d !! id = Some e' \/
      exists e, db_enrollments d !! id = Some e /\ due d locked (pg_time now) id e = true /\
        e' = {| e_ref := e_ref e; e_st := claim_state (pg_time now) lease (e_st e) |}
  | None => db_enrollments d !! id = None
  end.
Proof.
  simpl. fold (claim_candidates locked (pg_time now) limit d).
  fold (claimed_rows locked (pg_time now) limit lease d).
  set (rows := claimed_rows _ _ _ _ _).
  assert (Hnd : NoDup (map fst rows)).
  { subst rows. unfold claimed_rows. rewrite map_map. simpl. apply candidates_nodup. }
  destruct (fold_insert rows (db_enrollments d) id Hnd) as [Hin Hout].
  destruct (decide (id ∈ map fst rows)) as [Hk|Hk].
  - apply list_elem_of_fmap in Hk as ([id0 e'] & -> & Hrow). rewrite (Hin e' Hrow).
    right. by apply claimed_rows_spec in Hrow.
  - rewrite Hout by done. destruct (db_enrollments d !! id); [by left|done].
Qed.

Lemma claim_due_good (locked : gset uuid) (now : time) (limit : Z) (lease : duration) (d : db) :
  good_step d (automation_claim_due locked now limit lease d).1.
Proof.
  pose proof (claim_due_row locked now limit lease d) as Hrow.
  unfold automation_claim_due in *. simpl in *. set (m := fold_left _ _ _) in *.
  apply good_enrollments. intros Hok. split_and!.
  - intros id e He. specialize (Hrow id). destruct (m !! id) as [e'|]; [|congruence].
    exists e'. split; [done|]. destruct Hrow as [Hsame|(e0 & He0 & _ & ->)].
    + assert (e' = e) as -> by congruence. by split_and!.
    + assert (e0 = e) as -> by congruence. simpl. split_and!; [done|lia|done].
  - intros id e' He'. specialize (Hrow id). rewrite He' in Hrow.
    destruct Hrow as [Hsame|(e0 & He0 & _ & ->)];
      [split; [by apply (ok_enrollments d Hok id)|by apply (proj2 (ok_tenant d Hok) id)]|].
    split; [exact (ok_enrollments d Hok id e0 He0)|exact (proj2 (ok_tenant d Hok) id e0 He0)].
  - intros i j ei ej Hi Hj Hai Haj Hau Hsu.
    assert (Hold : forall k ek, m !! k = Some ek -> exists e0, db_enrollments d !! k = Some e0 /\
      es_status (e_st e0) = es_status (e_st ek) /\ e_ref e0 = e_ref ek).
    { intros k ek Hk. specialize (Hrow k). rewrite Hk in Hrow.
      destruct Hrow as [Hsame|(e0 & He0 & _ & ->)]; [by exists ek|by exists e0]. }
    destruct (Hold i ei Hi) as (e1 & He1 & Hs1 & Hr1). destruct (Hold j ej Hj) as (e2 & He2 & Hs2 & Hr2).
    apply (ok_one_active d Hok i j e1 e2); congruence.
  - eapply one_source_refs; [|exact (ok_one_source d Hok)]. intros k ek Hk. specialize (Hrow k).
    rewrite Hk in Hrow. destruct Hrow as [Hsame|(e0 & He0 & _ & ->)]; [by exists ek|by exists e0].
Qed.

(** ** Advancing *)

Definition tick_evolves (d0 d : db) : Prop :=
  enr_evolve (db_enrollments d0) (db_enrollments d) /\ db_versions d = db_versions d0 /\
  steps_keep (db_steps d0) (db_steps d).

Lemma tick_evolves_frame (d0 d d' : db) :
  db_enrollments d' = db_enrollments d -> db_versions d' = db_versions d -> db_steps d' = db_steps d ->
  tick_evolves d0 d -> tick_evolves d0 d'.
Proof. intros He Hv Hs (Hev & Hver & Hst). unfold tick_evolves. rewrite He, Hs. split_and!; [done|congruence|done]. Qed.

Lemma sql_tick_evolves (g : Graph) (enrollment : Enrollment) (now : time) (domain : string) (d0 : db) :
  SqlKeeps domain g enrollment now (tick_evolves d0).
Proof.
  split.
  - intros r d d' b _ Hr (Hev & Hv & Hst).
    apply record_step_cases in Hr as [->|(e & status & new & He & Hrun & _ & _ & Hc & ->)]; [by split_and!|].
    split_and!; [|done|]; simpl.
    + eapply enr_evolve_trans; [exact Hev|]. apply enr_evolve_insert; [done|done|].
      intros _. by apply fence_runnable in Hrun.
    + intros k row Hk Hr. specialize (Hst k row Hk Hr). rewrite lookup_insert_ne; [done|].
      intros <-. unfold step_completed in Hc. rewrite Hst in Hc. by rewrite bool_decide_eq_true_2 in Hc.
  - intros f n d _ (Hev & Hv & Hst).
    destruct (fail_step_cases f n d) as [->|(e & He & Ha & _ & ->)]; [by split_and!|].
    split_and!; [|done|done]. simpl. eapply enr_evolve_trans; [exact Hev|]. by apply enr_evolve_insert.
  - intros m n d d' o _. unfold mailing_enqueue_delivery.
    destruct (negb _); [done|]. destruct (negb _); [by intros [= <- _]|].
    destruct (db_enrollments d !! _) as [e|]; [|by intros [= <- _]].
    destruct (db_subscribers d !! _) as [sub|]; [|by intros [= <- _]].
    destruct (db_versions d !! _) as [v|]; [|by intros [= <- _]].
    destruct (negb _); [by intros [= <- _]|].
    destruct (List.find _ _) as [[id r]|]; [by intros [= <- _]|].
    intros [= <- _]. by apply tick_evolves_frame.
  - intros tag d. unfold mailing_automation_add_tag. destruct (negb _); [done|].
    destruct (db_subscribers d !! _) as [sub|]; [|done]. destruct (_ && _); [|done]. simpl.
    destruct (existsb _ _); [done|]. by apply tick_evolves_frame.
  - intros tag d. unfold mailing_automation_remove_tag. destruct (negb _); [done|].
    destruct (db_subscribers d !! _) as [sub|]; [|done]. destruct (N.eqb _ _); [|done].
    by apply tick_evolves_frame.
Qed.

Lemma claim_wf (d : db) (id : uuid) (g : Graph) : db_ok d -> claim_for d id g -> exists refs, WellFormed refs g.
Proof.
  intros Hok (e & v & He & Hv & Hs & <-). pose proof (ok_versions d Hok _ _ Hv) as Hvo.
  unfold version_ok in Hvo. destruct (v_status v); [done|by destruct Hvo|by destruct Hvo].
Qed.

Lemma advance_good (s : Stepper) (domain : string) (c : claimedEnrollment) (now : time) (d : db) :
  stp_Deps s = AutomationPorts domain -> claim_for d (enr_ID (claimed_Enrollment c)) (claimed_Graph c) ->
  good_step d (advance_tx s c now d).1.
Proof.
  intros Hdeps Hcl Hok. split.
  - by apply (advance_keeps_ok s domain c now d).
  - destruct (claim_wf _ _ _ Hok Hcl) as [refs Hwf].
    assert (Ht : tick_evolves d (advance_tx s c now d).1).
    { apply (WithTx_keeps (tick_evolves d)); [split_and!; [apply enr_evolve_refl|done|done]|].
      apply (Advance_keeps (stp_engine s) SQLStepStore (claimed_Graph c) (claimed_Enrollment c) now
        (fun t => tick_evolves d (tx_db t))).
      - simpl. by rewrite Hdeps.
      - apply (sql_ports_keep s domain Hdeps), sql_tick_evolves.
      - apply (wf_node_ids _ _ Hwf).
      - split_and!; [apply enr_evolve_refl|done|done]. }
    destruct Ht as (Hev & Hv & Hst). split; [done|by apply versions_extend_same|done].
Qed.

(** ** API calls *)

Lemma run_service_good {A : Type} (body : db -> result error (db * A)) (d : db) :
  (forall d' a, body d = Ok (d', a) -> good_step d d') -> good_step d (run_service body d).1.
Proof.
  intros Hb. unfold run_service. destruct (body d) as [[d' a]|e]; [by eapply Hb|apply good_refl].
Qed.

Lemma bind_ok {E A B : Type} (m : result E A) (k : A -> result E B) (b : B) :
  result_bind m k = Ok b -> exists a, m = Ok a /\ k a = Ok b.
Proof. destruct m; simpl; [eauto|done]. Qed.

Lemma good_audit (a : audit_entry) (d : db) : good_step d (add_audit a d).
Proof. by apply good_frame. Qed.

(** A row keeps its tenant, so what belongs to it still does. *)
Lemma home_insert (m : gmap uuid automation_row) (id : uuid) (a' : automation_row) (k business root : uuid) :
  (forall a, m !! id = Some a -> a_business a' = a_business a /\ a_root a' = a_root a) ->
  home m k business root -> home (<[id := a']> m) k business root.
Proof.
  intros Hid (a & Ha & Hb & Hr). unfold home. destruct (decide (id = k)) as [->|Hne].
  - destruct (Hid a Ha). exists a'. rewrite lookup_insert_eq. split_and!; congruence.
  - exists a. by rewrite lookup_insert_ne.
Qed.

Lemma tenant_insert (d : db) (id : uuid) (a' : automation_row) (m : gmap uuid version_row) :
  (forall a, db_automations d !! id = Some a -> a_business a' = a_business a /\ a_root a' = a_root a) ->
  (forall k v, m !! k = Some v -> version_home (<[id := a']> (db_automations d)) v) ->
  tenant_ok d -> tenant_ok (set_automations (<[id := a']> (db_automations d)) (set_versions m d)).
Proof. intros Hid Hm [Htv Hte]. split; [done|]. intros k e He. by apply home_insert, (Hte k). Qed.

(** Two automation rows with the same version pointers and no status that would
    need an active version. *)
Lemma good_automation (d : db) (id : uuid) (a a' : automation_row) :
  db_automations d !! id = Some a ->
  a_active_version a' = a_active_version a ->
  (a_draft_version a' = a_draft_version a \/ a_draft_version a' = None) ->
  (a_active_version a = None -> a_status a' = ADraft \/ a_status a' = AArchived) ->
  a_business a' = a_business a -> a_root a' = a_root a ->
  good_step d (set_automations (<[id := a']> (db_automations d)) d).
Proof.
  intros Ha Hact Hdraft Hst Hbus Hroot [H1' H2' H2a H3' H4' [Hp Hq] Htn]. split; [|by apply evolves_frame].
  split; try done; cycle 1.
  { assert (Hid : forall a0, db_automations d !! id = Some a0 -> a_business a' = a_business a0 /\ a_root a' = a_root a0)
      by (intros a0 Ha0; split; congruence).
    destruct Htn as [Htv Hte]. split; simpl; intros k x Hx; apply home_insert; eauto.
    - by apply (Htv k).
    - by apply (Hte k). }
  split; simpl.
  - intros i ai. rewrite lookup_insert. case_decide as Hi; [|apply Hp].
    intros [= <-]. subst i. destruct (Hp id a Ha) as (Hpd & Hpa & Hps). split_and!.
    + intros vid Hvid. apply Hpd. destruct Hdraft as [Hd|Hd]; congruence.
    + intros vid Hvid. apply Hpa. congruence.
    + rewrite Hact. done.
  - intros vid v Hv Hs. destruct (Hq vid v Hv Hs) as (a0 & Ha0 & Hact0).
    rewrite lookup_insert. case_decide as Hi; [|by exists a0].
    exists a'. split; [done|]. assert (a0 = a) as -> by congruence. congruence.
Qed.

Lemma GetAutomation_ok (id business root : uuid) (d : db) (a : automation_row) :
  GetAutomation id business root d = Ok a ->
  db_automations d !! id = Some a /\ a_business a = business /\ a_root a = root.
Proof.
  unfold GetAutomation. destruct (db_automations d !! id) as [a0|]; [|done].
  destruct (_ && _) eqn:Hc; [|done]. intros [= <-]. apply andb_true_iff in Hc as [Hb Hr].
  by apply N.eqb_eq in Hb, Hr.
Qed.

Lemma GetAutomationVersion_ok (id automation business root : uuid) (d : db) (v : version_row) :
  GetAutomationVersion id automation business root d = Ok v ->
  db_versions d !! id = Some v /\ v_automation v = automation /\ v_business v = business /\ v_root v = root.
Proof.
  unfold GetAutomationVersion. destruct (db_versions d !! id) as [v0|]; [|done].
  destruct (_ && _) eqn:Hc; [|done]. intros [= <-]. apply andb_true_iff in Hc as [Hc Hr].
  apply andb_true_iff in Hc as [Ha Hb]. by apply N.eqb_eq in Ha, Hb, Hr.
Qed.

(** A new draft version for an automation whose draft pointer is free. *)
Lemma good_draft (d : db) (id : uuid) (a' : automation_row) (row : version_row) :
  let vid := fresh (dom (db_versions d)) in
  v_automation row = id -> v_status row = VDraft -> v_trigger_kind row = None -> v_trigger_ref row = None ->
  a_draft_version a' = Some vid ->
  v_business row = a_business a' -> v_root row = a_root a' ->
  (forall a, db_automations d !! id = Some a -> a_business a' = a_business a /\ a_root a' = a_root a) ->
  (db_ok d ->
   (forall a, db_automations d !! id = Some a -> a_active_version a' = a_active_version a) /\
   (db_automations d !! id = None -> a_active_version a' = None) /\
   (a_active_version a' = None -> a_status a' = ADraft \/ a_status a' = AArchived)) ->
  good_step d (set_automations (<[id := a']> (db_automations d))
                 (set_versions (<[vid := row]> (db_versions d)) d)).
Proof.
  intros vid Hra Hrs Hrk Hrr Hdraft Hrb Hrt Hid Hact Hok. destruct (Hact Hok) as (Hsome & Hnone & Hstat).
  pose proof (fresh_none (db_versions d)) as Hfresh. fold vid in Hfresh.
  assert (Hkeep : forall k v, db_versions d !! k = Some v -> <[vid := row]> (db_versions d) !! k = Some v)
    by (intros k v Hk; rewrite lookup_insert_ne; [done|congruence]).
  destruct Hok as [Henr Hone Hsrc Hdel Hver [Hp Hq] Htn]. split; [split; try done|].
  4: { apply tenant_insert; [done| |done]. intros k v. rewrite lookup_insert.
       case_decide; [|intros Hv; by apply home_insert, (proj1 Htn k)].
       intros [= <-]. exists a'. by rewrite Hra, lookup_insert_eq. }
  - intros k e He. destruct (Henr k e He) as [Hl (v & Hv & Hrest)]. split; [done|].
    exists v. split; [by apply Hkeep|done].
  - simpl. intros k v. rewrite lookup_insert. case_decide; [|apply Hver].
    intros [= <-]. unfold version_ok. rewrite Hrs. by split.
  - split; simpl.
    + intros k a. rewrite lookup_insert. case_decide as Hk.
      * intros [= <-]. subst k. split_and!; [| |done].
        -- intros w Hw. rewrite Hdraft in Hw. injection Hw as <-. exists row. by rewrite lookup_insert_eq.
        -- intros w Hw. destruct (db_automations d !! id) as [a0|] eqn:Ha0; [|by rewrite Hnone in Hw].
           destruct (Hp id a0 Ha0) as (_ & Hpa & _). rewrite (Hsome a0) in Hw by done.
           destruct (Hpa w Hw) as (v & Hv & Hrest). exists v. split; [by apply Hkeep|done].
      * intros Ha. destruct (Hp k a Ha) as (Hpd & Hpa & Hps). split_and!; [| |done].
        -- intros w Hw. destruct (Hpd w Hw) as (v & Hv & Hrest). exists v. split; [by apply Hkeep|done].
        -- intros w Hw. destruct (Hpa w Hw) as (v & Hv & Hrest). exists v. split; [by apply Hkeep|done].
    + intros w v. rewrite lookup_insert. case_decide as Hw; [intros [= <-]; congruence|].
      intros Hv Hs. destruct (Hq w v Hv Hs) as (a0 & Ha0 & Hact0).
      rewrite lookup_insert. case_decide as Hk; [|by exists a0].
      exists a'. split; [done|]. rewrite <- Hk in Ha0. by rewrite (Hsome a0).
  - apply evolves_versions; [done|done|]. intros k v Hv Hs _. exists v. split; [by apply Hkeep|done].
Qed.

Lemma Create_good (principal business : uuid) (input : CreateInput) (now : time) (d : db) :
  good_step d (Create principal business input now d).1.
Proof.
  unfold Create. destruct (validateDefinition _ _); [|apply good_refl].
  apply run_service_good. intros d' out Hb.
  apply bind_ok in Hb as (root & _ & Hb). apply bind_ok in Hb as ([] & _ & Hb). injection Hb as <- _.
  set (row := {| a_business := _ |}). set (vrow := draft_row _ _ _ _ _ _).
  eapply good_trans; [|apply good_audit].
  apply (good_draft d _ row vrow); try done.
  - pose proof (fresh_none (db_automations d)). congruence.
  - intros _. pose proof (fresh_none (db_automations d)). split_and!; [congruence|done|by left].
Qed.

Lemma Update_good (principal business automationID : uuid) (input : UpdateInput) (now : time) (d : db) :
  good_step d (Update principal business automationID input now d).1.
Proof.
  apply run_service_good. intros d' out Hb.
  apply bind_ok in Hb as (root & _ & Hb). apply bind_ok in Hb as (current & Hget & Hb).
  apply GetAutomation_ok in Hget as (Hget & _). case_bool_decide; [done|].
  apply bind_ok in Hb as ([] & _ & Hb). apply bind_ok in Hb as ([] & _ & Hb). injection Hb as <- _.
  eapply good_trans; [|apply good_audit]. intros Hok. revert Hok.
  set (row := {| a_business := _ |}). intros Hok.
  refine (good_automation d automationID current row Hget eq_refl (or_introl eq_refl) _ eq_refl eq_refl Hok).
  apply (proj1 (ok_pointers d Hok) automationID current Hget).
Qed.

(** *** Cloning *)

Lemma fold_delete {A : Type} (l : list (uuid * A)) (m : gmap uuid A) (k : uuid) :
  fold_left (fun m x => delete (fst x) m) l m !! k = if decide (k ∈ map fst l) then None else m !! k.
Proof.
  revert m. induction l as [|[k0 v0] l IH]; intros m.
  - destruct (decide (k ∈ map fst [])) as [Hin|]; [by apply not_elem_of_nil in Hin|done].
  - change (fold_left (fun m x => delete x.1 m) l (delete k0 m) !! k
      = if decide (k ∈ k0 :: map fst l) then None else m !! k). rewrite IH.
    destruct (decide (k ∈ map fst l)) as [Hin|Hout]; destruct (decide (k ∈ k0 :: map fst l)) as [Hin'|Hout'].
    + done.
    + exfalso. apply Hout'. by right.
    + apply elem_of_cons in Hin' as [->|Hin']; [apply lookup_delete_eq|done].
    + rewrite lookup_delete_ne; [done|]. intros <-. apply Hout'. left.
Qed.

Lemma has_enrollment_false (d : db) (vid id : uuid) (e : enrollment_row) :
  has_enrollment d vid = false -> db_enrollments d !! id = Some e -> er_version (e_ref e) <> vid.
Proof.
  intros Hh He Hv. unfold has_enrollment in Hh. rewrite <- not_true_iff_false in Hh. apply Hh.
  apply existsb_exists. exists (id, e). split; [by apply list_elem_of_In, elem_of_map_to_list|].
  simpl. by apply N.eqb_eq.
Qed.

Lemma Prune_lookup (automation business root : uuid) (target : Z) (d : db) (k : uuid) (v : version_row) :
  db_versions d !! k = Some v ->
  db_versions (PruneAutomationVersions automation business root target d) !! k = Some v \/
  (v_status v = VSuperseded /\ has_enrollment d k = false).
Proof.
  intros Hv. unfold PruneAutomationVersions. simpl. rewrite fold_delete.
  case_decide as Hin; [|by left]. right.
  apply list_elem_of_fmap in Hin as ([k0 v0] & -> & Hin). apply elem_of_take in Hin as (i & Hi & _).
  apply list_elem_of_lookup_2 in Hi. rewrite merge_sort_Permutation in Hi.
  apply list_elem_of_In, filter_In in Hi as [Hi Hrem].
  apply filter_In in Hi as [Hi _]. apply list_elem_of_In, elem_of_map_to_list in Hi. simpl in *.
  assert (v0 = v) as -> by congruence. unfold removable in Hrem. simpl in Hrem. to_prop. done.
Qed.

Lemma Prune_sub (automation business root : uuid) (target : Z) (d : db) (k : uuid) (v : version_row) :
  db_versions (PruneAutomationVersions automation business root target d) !! k = Some v ->
  db_versions d !! k = Some v.
Proof. unfold PruneAutomationVersions. simpl. rewrite fold_delete. by case_decide. Qed.

Lemma Prune_good (automation business root : uuid) (target : Z) (d : db) :
  good_step d (PruneAutomationVersions automation business root target d).
Proof.
  pose proof (Prune_lookup automation business root target d) as Hlook.
  pose proof (Prune_sub automation business root target d) as Hsub.
  set (d' := PruneAutomationVersions automation business root target d) in *.
  assert (Hen : db_enrollments d' = db_enrollments d) by done.
  assert (Hau : db_automations d' = db_automations d) by done.
  assert (Hde : db_deliveries d' = db_deliveries d) by done.
  assert (Hst : db_steps d' = db_steps d) by done. clearbody d'.
  intros [Henr Hone Hsrc Hdel Hver [Hp Hq] [Htv Hte]].
  split; [split; rewrite ?Hen, ?Hde; try done|].
  4: { split; rewrite ?Hen, Hau; [|done]. intros k v Hv. by apply (Htv k), Hsub. }
  - intros k e He. destruct (Henr k e He) as [Hl (v & Hv & Hrest)]. split; [done|].
    exists v. split; [|done]. destruct (Hlook _ _ Hv) as [?|[_ Hn]]; [done|].
    exfalso. by apply (has_enrollment_false d _ k e Hn He).
  - intros k v Hv. by apply (Hver k), Hsub.
  - split; rewrite Hau.
    + intros k a Ha. destruct (Hp k a Ha) as (Hpd & Hpa & Hps). split_and!; [| |done].
      * intros w Hw. destruct (Hpd w Hw) as (v & Hv & Hva & Hvs). exists v. split; [|done].
        destruct (Hlook _ _ Hv) as [?|[Hs _]]; [done|congruence].
      * intros w Hw. destruct (Hpa w Hw) as (v & Hv & Hva & Hvs). exists v. split; [|done].
        destruct (Hlook _ _ Hv) as [?|[Hs _]]; [done|congruence].
    + intros w v Hv. by apply Hq, Hsub.
  - apply evolves_versions; [done|done|]. intros k v Hv Hs (eid & e & He & Hev).
    exists v. split; [|done]. destruct (Hlook _ _ Hv) as [?|[_ Hn]]; [done|].
    exfalso. by apply (has_enrollment_false d _ eid e Hn He).
Qed.

Lemma CloneVersion_good (principal business automationID : uuid) (now : time) (d : db) :
  good_step d (CloneVersion principal business automationID now d).1.
Proof.
  apply run_service_good. intros d' out Hb.
  apply bind_ok in Hb as (root & _ & Hb). apply bind_ok in Hb as (a & Hget & Hb).
  apply GetAutomation_ok in Hget as (Hget & Hbus & Hroot).
  destruct (a_draft_version a); [done|]. destruct (a_active_version a) as [activeID|] eqn:Hactive; [|done].
  case_bool_decide; [done|]. apply bind_ok in Hb as ([] & _ & Hb).
  set (d1 := PruneAutomationVersions _ _ _ _ _) in Hb. cbv beta zeta in Hb.
  destruct (Z.leb _ _); [done|]. apply bind_ok in Hb as (active & Hav & Hb).
  destruct (existsb _ _); [done|]. injection Hb as <- _.
  eapply good_trans; [apply Prune_good|]. fold d1. eapply good_trans; [|apply good_audit].
  set (row := with_pointers _ _ _ _ _). set (vrow := draft_row _ _ _ _ _ _).
  apply (good_draft d1 automationID row vrow); try done; change (db_automations d1) with (db_automations d).
  - simpl. split; congruence.
  - intros _. split_and!; simpl; [congruence|congruence|done].
Qed.

(** *** Editing the draft *)

Lemma PutGraph_good (principal business automationID versionID : uuid) (g : Graph) (now : time) (d : db) :
  good_step d (PutGraph principal business automationID versionID g now d).1.
Proof.
  apply run_service_good. intros d' out Hb.
  apply bind_ok in Hb as (root & _ & Hb). apply bind_ok in Hb as (a & _ & Hb).
  apply bind_ok in Hb as (v & Hget & Hb). apply GetAutomationVersion_ok in Hget as (Hv & Hva & _).
  destruct (negb (bool_decide (a_draft_version a = Some versionID))); [done|].
  destruct (bool_decide_reflect (v_status v = VDraft)) as [Hs|]; [|done]. simpl in Hb.
  apply bind_ok in Hb as ([] & _ & Hb). injection Hb as <- _.
  eapply good_trans; [|apply good_audit].
  set (row := with_graph (stored_graph g) now v).
  assert (Hother : forall k w, db_versions d !! k = Some w -> v_status w <> VDraft ->
    <[versionID := row]> (db_versions d) !! k = Some w).
  { intros k w Hk Hw. rewrite lookup_insert_ne; [done|]. intros ->. congruence. }
  intros [Henr Hone Hsrc Hdel Hver [Hp Hq] [Htv Hte]]. split; [split; try done; simpl|].
  4: { split; simpl; [|done]. intros k w. rewrite lookup_insert. case_decide; [|apply Htv].
       intros [= <-]. exact (Htv versionID v Hv). }
  - intros k e He. destruct (Henr k e He) as [Hl (w & Hw & Hws & Hrest)]. split; [done|].
    exists w. split; [by apply Hother|done].
  - intros k w. rewrite lookup_insert. case_decide; [|apply Hver].
    intros [= <-]. pose proof (Hver _ _ Hv) as Hvo. unfold version_ok in *. simpl. by rewrite Hs in *.
  - split; simpl.
    + intros k b Hb. destruct (Hp k b Hb) as (Hpd & Hpa & Hps). split_and!; [| |done].
      * intros w Hw. destruct (Hpd w Hw) as (u & Hu & Hua & Hus). rewrite lookup_insert.
        case_decide as Hk; [|by exists u]. exists row. subst w. assert (u = v) as -> by congruence.
        by split_and!.
      * intros w Hw. destruct (Hpa w Hw) as (u & Hu & Hua & Hus). exists u. split; [|done].
        apply Hother; congruence.
    + intros w u. rewrite lookup_insert. case_decide; [intros [= <-]; simpl; congruence|apply Hq].
  - apply evolves_versions; [done|done|]. intros k w Hw Hs' _. exists w. split; [by apply Hother|done].
Qed.
(** *** Activation *)

Definition retired (active : option uuid) (now : time) (k : uuid) (v : version_row) : version_row :=
  if bool_decide (active = Some k) then superseded_row now v else v.

Lemma supersede_ok (automation business root : uuid) (active : option uuid) (now : time) (d d1 : db) :
  supersede automation business root active now d = Ok d1 ->
  exists m, d1 = set_versions m d /\ forall k, m !! k = retired active now k <$> db_versions d !! k.
Proof.
  unfold supersede. destruct active as [id|].
  - destruct (GetAutomationVersion id automation business root d) as [v|] eqn:Hget; [|done].
    apply GetAutomationVersion_ok in Hget as (Hv & _). case_bool_decide; [|done].
    intros [= <-]. eexists. split; [done|]. intros k. unfold retired. rewrite lookup_insert.
    case_decide as Hk; [subst k; rewrite Hv; simpl; by rewrite bool_decide_eq_true_2|].
    rewrite bool_decide_eq_false_2 by congruence. by destruct (db_versions d !! k).
  - intros [= <-]. exists (db_versions d). split; [by destruct d|]. intros k. unfold retired.
    rewrite bool_decide_eq_false_2 by done. by destruct (db_versions d !! k).
Qed.

Lemma retired_graph (active : option uuid) (now : time) (k : uuid) (v : version_row) :
  v_graph (retired active now k v) = v_graph v /\ v_automation (retired active now k v) = v_automation v /\
  (v_status (retired active now k v) = VDraft -> v_status v = VDraft).
Proof. unfold retired. by case_bool_decide. Qed.

Lemma good_activation (d : db) (id vid : uuid) (a a' : automation_row) (v v' : version_row) (now : time)
    (m : gmap uuid version_row) :
  db_automations d !! id = Some a -> db_versions d !! vid = Some v ->
  v_automation v = id -> v_status v = VDraft -> v_automation v' = id -> v_status v' = VActive -> version_ok v' ->
  a_active_version a' = Some vid -> a_draft_version a' = None ->
  (forall k, m !! k = retired (a_active_version a) now k <$> db_versions d !! k) ->
  a_business a' = a_business a -> a_root a' = a_root a ->
  v_business v' = v_business v -> v_root v' = v_root v ->
  good_step d (set_automations (<[id := a']> (db_automations d)) (set_versions (<[vid := v']> m) d)).
Proof.
  intros Ha Hv Hva Hvs Hva' Hvs' Hvok Hact Hdraft Hm Hab Har Hvb Hvr [Henr Hone Hsrc Hdel Hver [Hp Hq] Htn].
  assert (Hkeep : forall k w, db_versions d !! k = Some w -> v_status w <> VDraft ->
    <[vid := v']> m !! k = Some (retired (a_active_version a) now k w)).
  { intros k w Hk Hw. rewrite lookup_insert_ne by congruence. by rewrite Hm, Hk. }
  assert (Hother : forall k w, db_versions d !! k = Some w -> v_automation w <> id ->
    <[vid := v']> m !! k = Some w).
  { intros k w Hk Hw. rewrite lookup_insert_ne by congruence. rewrite Hm, Hk. simpl. f_equal.
    unfold retired. case_bool_decide as Hb; [|done]. exfalso.
    destruct (Hp id a Ha) as (_ & Hpa & _). destruct (Hpa k Hb) as (w' & Hw' & Haw & _). congruence. }
  split; [split; try done|apply evolves_versions; [done|done|]].
  4: { assert (Hid : forall a0, db_automations d !! id = Some a0 ->
         a_business a' = a_business a0 /\ a_root a' = a_root a0) by (intros a0 Ha0; split; congruence).
       apply tenant_insert; [done| |done]. intros k w. rewrite lookup_insert. case_decide.
       - intros [= <-]. unfold version_home. rewrite Hva', Hvb, Hvr, <- Hva.
         apply home_insert; [by rewrite Hva|]. by apply (proj1 Htn vid).
       - rewrite Hm. destruct (db_versions d !! k) as [w0|] eqn:Hk; [|done]. simpl. intros [= <-].
         pose proof (proj1 Htn k w0 Hk) as Hh. unfold retired.
         case_bool_decide; by apply home_insert. }
  - intros k e He. destruct (Henr k e He) as [Hl (w & Hw & Hws & Hwa & Hc)]. split; [done|].
    eexists. split; [by apply Hkeep|]. destruct (retired_graph (a_active_version a) now (er_version (e_ref e)) w)
      as (-> & -> & Hd). split_and!; auto.
  - simpl. intros k w. rewrite lookup_insert. case_decide; [by intros [= <-]|]. rewrite Hm.
    destruct (db_versions d !! k) as [w0|] eqn:Hk; [|done]. simpl. intros [= <-].
    pose proof (Hver k w0 Hk) as Hok. unfold retired. case_bool_decide as Hb; [|done].
    destruct (Hp id a Ha) as (_ & Hpa & _). destruct (Hpa k Hb) as (w' & Hw' & _ & Hs').
    assert (w' = w0) as -> by congruence. unfold version_ok in *. simpl. by rewrite Hs' in Hok.
  - split; simpl.
    + intros k b. rewrite lookup_insert. case_decide as Hk.
      * intros [= <-]. subst k. rewrite Hdraft, Hact. split_and!; [done| |done].
        intros w [= <-]. exists v'. by rewrite lookup_insert_eq.
      * intros Hb. destruct (Hp k b Hb) as (Hpd & Hpa & Hps).
        split_and!; [| |done]; intros w Hw; [destruct (Hpd w Hw) as (u & Hu & Hua & Hus)
          |destruct (Hpa w Hw) as (u & Hu & Hua & Hus)];
          exists u; (split; [|done]); apply Hother; congruence.
    + intros w u. rewrite lookup_insert. case_decide as Hw.
      * intros [= <-] _. exists a'. subst w. by rewrite Hva', lookup_insert_eq.
      * rewrite Hm. destruct (db_versions d !! w) as [u0|] eqn:Hu; [|done]. simpl. intros [= <-].
        unfold retired. case_bool_decide as Hb; [done|]. intros Hus.
        destruct (Hq w u0 Hu Hus) as (a0 & Ha0 & Hact0). exists a0. split; [|done].
        rewrite lookup_insert_ne; [done|]. intros Heq. rewrite <- Heq in Ha0. congruence.
  - intros k w Hw Hs _. eexists. split; [by apply Hkeep|].
    destruct (retired_graph (a_active_version a) now k w) as (-> & -> & Hd). split_and!; auto.
Qed.

Lemma run_service_ok {A : Type} (body : db -> result error (db * A)) (d d' : db) (a : A) :
  run_service body d = (d', Ok a) -> body d = Ok (d', a).
Proof. unfold run_service. destruct (body d) as [[d0 a0]|e]; [by intros [= <- <-]|done]. Qed.

(** What a successful activation did. *)
Lemma Activate_inv (principal business automationID versionID : uuid) (now : time) (d d' : db) (out : Automation) :
  Activate principal business automationID versionID now d = (d', Ok out) ->
  exists root a v kind ref content m,
    db_automations d !! automationID = Some a /\ db_versions d !! versionID = Some v /\
    v_automation v = automationID /\ v_status v = VDraft /\ a_draft_version a = Some versionID /\
    a_status a <> AArchived /\
    WellFormed (tenant_references d business root (v_graph v)) (v_graph v) /\
    triggerIdentity (v_graph v) = Ok (kind, ref) /\
    snapshotVersionContent d business root (v_graph v) = Ok content /\
    resolveTenantRoot principal business d = Ok root /\
    requirePermission principal business root "mailing.send" d = Ok tt /\
    root_write_allowed d root = true /\
    (forall k, m !! k = retired (a_active_version a) now k <$> db_versions d !! k) /\
    d' = writeAudit principal business root "automation.activated" automationID
           (JObj [("version_id", juuid versionID)])
           (set_automations (<[automationID := with_pointers (Some versionID) None AActive now a]> (db_automations d))
             (set_versions (<[versionID := activated_row kind ref content now v]> m) d)).
Proof.
  unfold Activate. intros Hb. apply run_service_ok in Hb.
  apply bind_ok in Hb as (root & Hroot & Hb). apply bind_ok in Hb as ([] & Hperm & Hb).
  apply bind_ok in Hb as (a & Ha & Hb). apply GetAutomation_ok in Ha as (Ha & _).
  apply bind_ok in Hb as (v & Hv & Hb). apply GetAutomationVersion_ok in Hv as (Hv & Hva & _).
  destruct (_ || _ || _) eqn:Hc; [done|]. to_prop.
  cbv beta zeta in Hb. destruct (vr_Valid _) eqn:Hvalid; [|done].
  apply bind_ok in Hb as ([kind ref] & Htrig & Hb). apply bind_ok in Hb as (content & Hcontent & Hb).
  apply bind_ok in Hb as ([] & Hfence & Hb). apply bind_ok in Hb as (d1 & Hsup & Hb). injection Hb as <- _.
  apply supersede_ok in Hsup as (m & -> & Hm).
  exists root, a, v, kind, ref, content, m. split_and!; try done.
  - apply validate_iff. by apply bool_decide_eq_true in Hvalid.
  - revert Hfence. unfold write_fence. by destruct (root_write_allowed d root).
Qed.

Lemma run_service_good' {A : Type} (body : db -> result error (db * A)) (d : db) :
  (forall d' a, run_service body d = (d', Ok a) -> good_step d d') -> good_step d (run_service body d).1.
Proof.
  intros Hb. destruct (run_service body d) as [d' [a|e]] eqn:Hr; simpl; [by eapply Hb|].
  revert Hr. unfold run_service. destruct (body d) as [[d0 a0]|e0]; [done|]. intros [= <- _]. apply good_refl.
Qed.

Lemma Activate_good (principal business automationID versionID : uuid) (now : time) (d : db) :
  good_step d (Activate principal business automationID versionID now d).1.
Proof.
  apply run_service_good'. intros d' out Hb.
  apply Activate_inv in Hb as (root & a & v & kind & ref & content & m & Ha & Hv & Hva & Hvs & Hd & _ & Hwf & _ & _
    & _ & _ & _ & Hm & ->).
  eapply good_trans; [|apply good_audit].
  set (row := with_pointers _ _ _ _ _). set (vrow := activated_row _ _ _ _ _).
  apply (good_activation d automationID versionID a row v vrow now m); try done.
  unfold version_ok. simpl. split_and!; [by eexists|done|done].
Qed.

(** *** Pausing, resuming and archiving *)

Lemma transition_good (principal business automationID : uuid) (from to : automation_status)
    (action : string) (permission : option string) (now : time) (d : db) :
  (from = AActive \/ from = APaused) ->
  good_step d (transition principal business automationID from to action permission now d).1.
Proof.
  intros Hfrom. apply run_service_good. intros d' out Hb.
  apply bind_ok in Hb as (root & _ & Hb). apply bind_ok in Hb as ([] & _ & Hb).
  apply bind_ok in Hb as (a & Ha & Hb). apply GetAutomation_ok in Ha as (Ha & _).
  destruct (bool_decide_reflect (a_status a = from)) as [Hst|]; [|done].
  apply bind_ok in Hb as ([] & _ & Hb). injection Hb as <- _.
  eapply good_trans; [|apply good_audit]. set (row := with_pointers _ _ _ _ _).
  apply (good_trans d (set_automations (<[automationID := row]> (db_automations d)) d)).
  - intros Hok. refine (good_automation d automationID a row Ha eq_refl (or_introl eq_refl) _ eq_refl eq_refl Hok).
    intros Hn. destruct (proj1 (ok_pointers d Hok) automationID a Ha) as (_ & _ & Hs).
    destruct (Hs Hn), Hfrom; congruence.
  - case_bool_decide; [|apply good_refl].
    apply (good_update_active _ _ (set_automations (<[automationID := row]> (db_automations d)) d)); [simpl; lia|].
    intros vs e _. apply fenced_ok.
Qed.

Lemma Archive_good (principal business automationID : uuid) (now : time) (d : db) :
  good_step d (Archive principal business automationID now d).1.
Proof.
  apply run_service_good. intros d' out Hb.
  apply bind_ok in Hb as (root & _ & Hb).
  apply bind_ok in Hb as (a & Ha & Hb). apply GetAutomation_ok in Ha as (Ha & _).
  case_bool_decide; [done|]. apply bind_ok in Hb as ([] & _ & Hb). injection Hb as <- _.
  eapply good_trans; [|apply good_audit]. set (row := with_pointers _ _ _ _ _).
  apply (good_trans d (set_automations (<[automationID := row]> (db_automations d)) d)).
  - apply (good_automation d automationID a row Ha eq_refl (or_intror eq_refl)); [|done|done]. intros _. by right.
  - apply (good_update_active _ _ (set_automations (<[automationID := row]> (db_automations d)) d)); [simpl; lia|].
    intros vs e _. apply exited_ok.
Qed.

(** *** Enrolling and exiting *)

Lemma triggerNodeAndList_node (g : Graph) (node : string) (l : uuid) :
  triggerNodeAndList g = Ok (node, l) -> node ∈ map node_ID (graph_Nodes g).
Proof.
  unfold triggerNodeAndList. induction (graph_Nodes g) as [|n ns IH]; simpl; [done|].
  destruct (negb _); [intros Hn; right; auto|].
  destruct (Unmarshal _ _ _) as [l0|]; [|done]. destruct (N.eqb _ _); [done|]. intros [= <- _]. left.
Qed.

Lemma Enroll_good (principal business automationID subscriberID : uuid) (now : time) (d : db) :
  good_step d (Enroll principal business automationID subscriberID now d).1.
Proof.
  apply run_service_good. intros d' out Hb.
  apply bind_ok in Hb as (root & _ & Hb). apply bind_ok in Hb as ([] & _ & Hb).
  apply bind_ok in Hb as (a & Ha & Hb). apply GetAutomation_ok in Ha as (Ha & Hbus & Hroot).
  case_bool_decide; [|done]. destruct (a_active_version a) as [versionID|] eqn:Hactive; [|done].
  apply bind_ok in Hb as (v & Hv & Hb). apply GetAutomationVersion_ok in Hv as (Hv & Hva & _).
  apply bind_ok in Hb as ([node listID] & Htrig & Hb). apply triggerNodeAndList_node in Htrig.
  apply bind_ok in Hb as (sub & _ & Hb). destruct (_ || _); [done|]. destruct (_ && _); [done|].
  apply bind_ok in Hb as ([] & _ & Hb). cbv beta zeta in Hb.
  destruct (enrollment_conflict _ _) eqn:Hc; [done|]. injection Hb as <- _.
  eapply good_trans; [|apply good_audit].
  apply good_insert; [done|by exists a|]. intros Hok. exists v. split_and!; try done.
  destruct (proj1 (ok_pointers d Hok) automationID a Ha) as (_ & Hpa & _).
  destruct (Hpa versionID Hactive) as (v0 & Hv0 & _ & Hs). simpl. congruence.
Qed.

Lemma ExitEnrollment_good (principal business automationID enrollmentID : uuid) (now : time) (d : db) :
  good_step d (ExitEnrollment principal business automationID enrollmentID now d).1.
Proof.
  apply run_service_good. intros d' out Hb. apply bind_ok in Hb as (root & _ & Hb).
  destruct (db_enrollments d !! enrollmentID) as [e|] eqn:He; [|done].
  destruct (negb _); [done|]. destruct (bool_decide_reflect (es_status (e_st e) = EActive)) as [Hs|]; [|done].
  apply bind_ok in Hb as ([] & _ & Hb). injection Hb as <- _.
  eapply good_trans; [|apply good_audit]. intros Hok. split.
  - apply (update_row_ok d _ e _ (db_steps d)); try done. apply exited_ok, (ok_enrollments d Hok _ _ He).
  - apply evolves_enrollments, enr_evolve_insert; [done|simpl; lia|done].
Qed.

Lemma exit_for_subscriber_good (subscriber root : uuid) (reason : string) (now : time) (d : db) :
  good_step d (automation_exit_for_subscriber subscriber root reason now d).
Proof.
  unfold automation_exit_for_subscriber. destruct (negb _); [apply good_refl|].
  apply good_update_active; [simpl; lia|]. intros vs e _. apply exited_ok.
Qed.

Definition insertable (d : db) (x : enrollment_ref * string) : Prop :=
  home (db_automations d) (er_automation x.1) (er_business x.1) (er_root x.1) /\
  exists v, db_versions d !! er_version x.1 = Some v /\ v_status v <> VDraft /\
    v_automation v = er_automation x.1 /\ x.2 ∈ map node_ID (graph_Nodes (v_graph v)).

Lemma insert_enrollments_good (now : time) (rows : list (enrollment_ref * string)) (d : db) :
  Forall (insertable d) rows ->
  good_step d (set_enrollments (fold_left (insert_enrollment now) rows (db_enrollments d)) d).
Proof.
  revert d. induction rows as [|x rows IH]; intros d Hrows; simpl; [by apply good_frame|].
  set (d1 := set_enrollments (insert_enrollment now (db_enrollments d) x) d).
  assert (H1' : good_step d d1).
  { subst d1. unfold insert_enrollment. destruct (enrollment_conflict _ _) eqn:Hc; [by apply good_frame|].
    apply Forall_inv in Hrows as [Hhome Hv]. by apply good_insert. }
  eapply (good_trans d d1); [done|]. apply (IH d1). by apply Forall_inv_tail in Hrows.
Qed.

Lemma trigger_matches_insertable (d : db) (business root : uuid) (kind ref : string) (subscriber : uuid)
    (s : subscriber_row) (event : uuid) (now : time) :
  Forall (insertable d)
    (flat_map (trigger_matches d business root kind ref subscriber s event now) (map_to_list (db_automations d))).
Proof.
  apply Forall_forall. intros x Hx. apply list_elem_of_In, in_flat_map in Hx as ([id a] & Ha & Hx).
  apply list_elem_of_In, elem_of_map_to_list in Ha.
  unfold trigger_matches in Hx. destruct (a_active_version a) as [vid|]; [|done].
  destruct (db_versions d !! vid) as [v|] eqn:Hv; [|done].
  destruct (trigger_node (v_graph v)) as [node|] eqn:Hn; [|done].
  destruct (_ && _) eqn:Hc; [|done]. to_prop. destruct Hx as [<-|[]]. split; [by exists a|]. exists v. simpl.
  apply List.find_some in Hn as [Hn _]. split_and!; [done|congruence|by apply N.eqb_eq|].
  apply list_elem_of_fmap. exists node. split; [done|]. by apply list_elem_of_In.
Qed.

Lemma enroll_for_trigger_good (business root : uuid) (kind ref : string) (subscriber event : uuid)
    (now : time) (d d' : db) (n : Z) :
  automation_enroll_for_trigger business root kind ref subscriber event now d = Ok (d', n) -> good_step d d'.
Proof.
  unfold automation_enroll_for_trigger. destruct (negb _); [intros [= <- _]; apply good_refl|].
  destruct (db_subscribers d !! subscriber) as [s|]; [|done]. destruct (_ && _); [|done].
  intros [= <- _]. apply insert_enrollments_good, trigger_matches_insertable.
Qed.

End System.
