(* ===== verification/AutoSafety.v ===== *)
(** * Safety of the automation subsystem

    The system of stepper replicas, API servers, outbox workers and other
    subsystems around one database.  A step is one transaction; the claims that
    replicas hold are part of the state, and a claim once taken may be used at
    any later time, any number of times. *)

From S2P Require Import Prelude GoStrings GoTime GoJson AutoGraph Errors AutoEngine Concrete AutoGraphFacts.
From S2P Require Import AutoEngineFacts AutoStore AutoStepper AutoService AutoStoreFacts AutoEvents AutoDemo.
From S2P Require Import AutoSystem.
From stdpp Require Import sorting relations.

Section Safety.
Context `{UnicodeTables, UUIDLib, ZoneDB, URLLib, UUIDHash, Authz, EventLib}.

(** ** Outbox handlers *)

Definition tx_good (t t' : tx) : Prop := good_step (tx_db t) (tx_db t').

(** What the outbox worker asks of a handler. *)
Class GoodHandler (h : Handler) : Prop := handler_good : forall e t, tx_good t (h e t).1.

Lemma tx_good_refl (t : tx) : tx_good t t.
Proof. apply good_refl. Qed.

Lemma tx_good_trans (t1 t2 t3 : tx) : tx_good t1 t2 -> tx_good t2 t3 -> tx_good t1 t3.
Proof. apply good_trans. Qed.

Lemma err_of_tx {A : Type} (r : tx * result error A) : (err_of r).1 = r.1.
Proof. by destruct r as [t [a|e]]. Qed.

Lemma exec_good {A : Type} (f : time -> db -> result error (db * A)) (t : tx) :
  (forall now d d' a, f now d = Ok (d', a) -> good_step d d') -> tx_good t (exec f t).1.
Proof.
  intros Hf. unfold tx_good, exec. destruct (tx_aborted t); [apply good_refl|].
  destruct (f (tx_now t) (tx_db t)) as [[d a]|] eqn:Hr; [by eapply Hf|apply good_refl].
Qed.

Lemma query_good {A : Type} (f : db -> A) (t : tx) : tx_good t (query f t).1.
Proof. apply exec_good. intros now d d' a [= <- _]. apply good_refl. Qed.

Lemma enrollForTrigger_good (business root : uuid) (kind ref : string) (subscriber event : uuid)
    (now : time) (t : tx) : tx_good t (enrollForTrigger business root kind ref subscriber event now t).1.
Proof.
  unfold enrollForTrigger. rewrite err_of_tx. apply exec_good. intros n d d' z. apply enroll_for_trigger_good.
Qed.

Lemma handleSubscriber_good (s : TriggerSubscriber) (e : Event) (t : tx) : tx_good t (handleSubscriber s e t).1.
Proof.
  unfold handleSubscriber. destruct (Unmarshal _ _ _) as [p|]; [|apply tx_good_refl].
  destruct (_ || _); [apply tx_good_refl|]. destruct (String.eqb _ _).
  - destruct (String.eqb _ _); [apply tx_good_refl|]. rewrite err_of_tx. apply exec_good.
    intros now d d' a [= <- _]. apply exit_for_subscriber_good.
  - destruct (String.eqb _ _); [|apply enrollForTrigger_good].
    destruct (String.eqb _ _); [apply tx_good_refl|apply enrollForTrigger_good].
Qed.

Lemma ResolveForList_good (business : uuid) (email : string) (listID : uuid) (t : tx) :
  tx_good t (ports_ResolveForList business email listID t).1.
Proof.
  unfold ports_ResolveForList.
  pose proof (query_good (fun d => mailing_automation_resolve_for_list d business email listID) t) as Hq.
  by destruct (query _ t) as [t' [[id|]|]].
Qed.

Lemma enroll_lists_good (p : customEventTriggerPayload) (event : uuid) (now : time) (l : list uuid) (t : tx) :
  tx_good t (enroll_lists AutomationPorts_subscribers p event now l t).1.
Proof.
  revert t. induction l as [|listID l IH]; intros t; [apply tx_good_refl|]. simpl.
  pose proof (ResolveForList_good (cep_BusinessID p) (cep_Email p) listID t) as Hr.
  destruct (ports_ResolveForList _ _ _ t) as [t1 [sub|e]].
  - pose proof (enrollForTrigger_good (cep_BusinessID p) (cep_TenantRootID p) "event" (cep_Name p) sub event now t1)
      as He. destruct (enrollForTrigger _ _ _ _ _ _ _ t1) as [t2 [e|]]; simpl in *.
    + by eapply tx_good_trans.
    + eapply tx_good_trans; [exact Hr|]. by eapply tx_good_trans.
  - destruct (is_invalid_reference e); [|done]. by eapply tx_good_trans.
Qed.

(** The trigger subscriber, wired to the mailing module, is a good handler. *)
#[export] Instance Handle_good (now : time) :
  GoodHandler (Handle {| trg_Subscribers := Some AutomationPorts_subscribers; trg_Now := now |}).
Proof.
  intros e t. unfold Handle. destruct (_ || _); [apply handleSubscriber_good|].
  destruct (String.eqb _ _); [|apply tx_good_refl]. unfold handleCustomEvent. cbn [trg_Subscribers trg_Now].
  destruct (Unmarshal _ _ _) as [p|]; [|apply tx_good_refl]. destruct (_ || _); [apply tx_good_refl|].
  pose proof (query_good (fun d => automation_event_trigger_lists d (cep_BusinessID p) (cep_TenantRootID p)
    (cep_Name p) (cep_ListID p)) t) as Hq.
  destruct (query _ t) as [t1 [l|err]]; [|done]. simpl in Hq.
  eapply tx_good_trans; [exact Hq|apply enroll_lists_good].
Qed.

Lemma run_handlers_good (hs : list Handler) (e : Event) (t : tx) :
  Forall GoodHandler hs -> tx_good t (run_handlers hs e t).1.
Proof.
  intros Hall. revert t. induction Hall as [|h hs Hh Hhs IH]; intros t; simpl; [apply tx_good_refl|].
  pose proof (Hh e t) as Hg. destruct (h e t) as [t' [err|]]; [done|]. by eapply tx_good_trans.
Qed.

Definition good_bus (b : Bus) : Prop := forall topic, Forall GoodHandler (b topic).

Lemma dispatch_good (w : Worker) (e : Event) (t : tx) : good_bus (wrk_Bus w) -> tx_good t (dispatch w e t).1.
Proof.
  intros Hb. unfold dispatch. specialize (Hb (evt_Topic e)).
  destruct (wrk_Bus w (evt_Topic e)) as [|h hs]; [apply tx_good_refl|].
  destruct (tx_aborted t); [apply tx_good_refl|].
  pose proof (run_handlers_good (h :: hs) e t Hb) as Hr.
  destruct (run_handlers (h :: hs) e t) as [sp [err|]]; [apply tx_good_refl|]. by destruct (tx_aborted sp).
Qed.

Lemma update_outbox_good (f : time -> outbox_row -> outbox_row) (id : uuid) (t : tx) :
  tx_good t (err_of (exec (fun now d => Ok (update_outbox id (f now) d, tt)) t)).1.
Proof. rewrite err_of_tx. apply exec_good. intros now d d' a [= <- _]. by apply good_frame. Qed.

Lemma drain_event_good (w : Worker) (e : Event) (t : tx) : good_bus (wrk_Bus w) -> tx_good t (drain_event w e t).1.
Proof.
  intros Hb. unfold drain_event. pose proof (dispatch_good w e t Hb) as Hd.
  destruct (dispatch w e t) as [t' [err|]]; simpl in Hd; (eapply tx_good_trans; [exact Hd|]).
  - destruct (_ <=? _)%Z; [apply (update_outbox_good processed)
      |apply (update_outbox_good (rescheduled (backoffSeconds (evt_Attempts e) * Second)))].
  - apply (update_outbox_good processed).
Qed.

Lemma drain_batch_good (w : Worker) (batch : list Event) (t : tx) :
  good_bus (wrk_Bus w) -> tx_good t (drain_batch w batch t).1.
Proof.
  intros Hb. revert t. induction batch as [|e batch IH]; intros t; simpl; [apply tx_good_refl|].
  pose proof (drain_event_good w e t Hb) as He.
  destruct (drain_event w e t) as [t' [err|]]; [done|]. by eapply tx_good_trans.
Qed.

Lemma WithTx_good {A : Type} (now : time) (body : tx -> tx * (A * option error)) (d : db) :
  (let t := {| tx_db := d; tx_aborted := false; tx_now := now |} in tx_good t (body t).1) ->
  good_step d (WithTx now body d).1.
Proof.
  intros Hb. cbv zeta in Hb. unfold WithTx.
  destruct (body _) as [t [a [e|]]]; [apply good_refl|].
  destruct (tx_aborted t); [apply good_refl|exact Hb].
Qed.

Lemma drainOnce_good (w : Worker) (locked : gset uuid) (now : time) (d : db) :
  good_bus (wrk_Bus w) -> good_step d (drainOnce w locked now d).1.
Proof.
  intros Hb. apply WithTx_good. cbv beta zeta.
  pose proof (query_good (claim_outbox_batch locked (wrk_BatchSize w) now)
    {| tx_db := d; tx_aborted := false; tx_now := now |}) as Hq.
  destruct (query _ _) as [t1 [rows|e]]; cbn [fst] in Hq; [|exact Hq].
  pose proof (drain_batch_good w (map (to_event (wrk_MaxAttempts w)) rows) t1 Hb) as Hd.
  destruct (drain_batch w _ t1) as [t2 err]. by eapply tx_good_trans.
Qed.

(** ** Event ingestion *)

Lemma ingest_event_good (business root : uuid) (listID keyID : option uuid) (fingerprint : option string)
    (name email : string) (subscriber : option uuid) (occurred : option time) (properties : json)
    (idempotency : option string) (now : time) (d d' : db) (out : option (event_row * bool)) :
  automation_ingest_event business root listID keyID fingerprint name email subscriber occurred properties
    idempotency now d = Ok (d', out) -> good_step d d'.
Proof.
  unfold automation_ingest_event. destruct (_ || _); [intros [= <- _]; apply good_refl|].
  destruct (ingress_scope _ _ _ _ _ _ _) as [ingress|]; [|intros [= <- _]; apply good_refl].
  destruct (match listID with Some l => _ | None => false end); [intros [= <- _]; apply good_refl|].
  destruct (event_target _ _ _ _ _ _) as [[l a]|]; [|intros [= <- _]; apply good_refl].
  destruct (match occurred with Some t => _ | None => false end); [done|].
  destruct (match idempotency with Some key => _ | None => None end) as [e|];
    intros [= <- _]; [apply good_refl|by apply good_frame].
Qed.

Lemma ingestEventTx_good (business root : uuid) (listID keyID : option uuid) (fingerprint : option string)
    (input : EventInput) (properties : json) (now : time) (d d' : db) (out : EventView * option string) :
  ingestEventTx business root listID keyID fingerprint input properties now d = Ok (d', out) -> good_step d d'.
Proof.
  unfold ingestEventTx. intros Hb. apply bind_ok in Hb as ([d1 row] & Hin & Hb).
  destruct row as [[e created]|]; [|done]. injection Hb as <- _. by eapply ingest_event_good.
Qed.

Lemma IngestS2SEvent_good (business root listID keyID : uuid) (body : EventInput) (clock now : time) (d d' : db)
    (out : EventView * bool) :
  IngestS2SEvent business root listID keyID body clock now d = Ok (d', out) -> good_step d d'.
Proof.
  unfold IngestS2SEvent. intros Hb. apply bind_ok in Hb as ([input properties] & _ & Hb). cbv beta zeta in Hb.
  destruct (ingestEventTx _ _ _ _ _ _ _ _ _) as [[d1 [view stored]]|] eqn:Hin; [|done].
  apply ingestEventTx_good in Hin. destruct (String.eqb _ _); [|done]. by injection Hb as <- _.
Qed.

Lemma CreateEvent_good (principal business : uuid) (body : EventInput) (clock now : time) (d : db) :
  good_step d (CreateEvent principal business body clock now d).1.
Proof.
  unfold CreateEvent. destruct (prepareEvent body clock) as [[input properties]|]; [|apply good_refl].
  apply run_service_good. intros d' out Hb. apply bind_ok in Hb as (root & _ & Hb).
  apply bind_ok in Hb as ([] & _ & Hb). apply bind_ok in Hb as ([listID input'] & _ & Hb).
  apply bind_ok in Hb as ([d1 [view f]] & Hin & Hb). apply ingestEventTx_good in Hin. injection Hb as <- _.
  eapply good_trans; [exact Hin|apply good_audit].
Qed.

(** ** What a claim returns *)

Lemma claim_row_spec (locked : gset uuid) (now : time) (limit : Z) (lease : duration) (d : db) (r : claim_row) :
  r ∈ (automation_claim_due locked now limit lease d).2 ->
  exists e a v s, db_enrollments d !! cr_id r = Some e /\ due d locked (pg_time now) (cr_id r) e = true /\
    cr_row r = {| e_ref := e_ref e; e_st := claim_state (pg_time now) lease (e_st e) |} /\
    db_enrollments (automation_claim_due locked now limit lease d).1 !! cr_id r = Some (cr_row r) /\
    join_enrollment d (e_ref e) = Some (a, v, s) /\ cr_graph r = v_graph v.
Proof.
  simpl. fold (claim_candidates locked (pg_time now) limit d).
  fold (claimed_rows locked (pg_time now) limit lease d). intros Hr.
  apply list_elem_of_In, in_flat_map in Hr as ([id e'] & Hin & Hr). apply list_elem_of_In in Hin.
  assert (Hnd : NoDup (map fst (claimed_rows locked (pg_time now) limit lease d))).
  { unfold claimed_rows. rewrite map_map. simpl. apply candidates_nodup. }
  destruct (fold_insert _ (db_enrollments d) id Hnd) as [Hfold _].
  pose proof (claimed_rows_spec _ _ _ _ _ _ _ Hin) as (e & He & Hdue & ->).
  unfold claim_result in Hr. simpl in Hr.
  match type of Hr with In _ (match ?j with _ => _ end) =>
    change j with (join_enrollment d (e_ref e)) in Hr end.
  destruct (join_enrollment d (e_ref e)) as [[[a v] s]|] eqn:Hj; [|done].
  destruct Hr as [<-|[]]. exists e, a, v, s. simpl. split_and!; auto.
Qed.

Lemma claim_rows_nodup (locked : gset uuid) (now : time) (limit : Z) (lease : duration) (d : db) :
  NoDup (map cr_id (automation_claim_due locked now limit lease d).2).
Proof.
  simpl. fold (claim_candidates locked (pg_time now) limit d).
  fold (claimed_rows locked (pg_time now) limit lease d). set (d' := set_enrollments _ d).
  assert (Hnd : NoDup (map fst (claimed_rows locked (pg_time now) limit lease d))).
  { unfold claimed_rows. rewrite map_map. simpl. apply candidates_nodup. }
  induction (claimed_rows locked (pg_time now) limit lease d) as [|[id e] l IH]; simpl in *; [constructor|].
  apply NoDup_cons in Hnd as [Hn Hnd]. rewrite map_app. unfold claim_result at 1. simpl.
  destruct (join_enrollment d' (e_ref e)) as [[[a v] s]|]; simpl; [|by apply IH].
  constructor; [|by apply IH]. intros Hin. apply Hn.
  apply list_elem_of_fmap in Hin as (r & -> & Hr). apply list_elem_of_In, in_flat_map in Hr as ([i x] & Hi & Hr).
  unfold claim_result in Hr. simpl in Hr. destruct (join_enrollment d' (e_ref x)) as [[[? ?] ?]|]; [|done].
  destruct Hr as [<-|[]]. apply list_elem_of_fmap. exists (i, x). split; [done|]. by apply list_elem_of_In.
Qed.

Lemma scan_all_spec (rows : list claim_row) (cs : list claimedEnrollment) :
  scan_all rows = Ok cs <-> Forall2 (fun r c => scan_claimed r = Ok c) rows cs.
Proof.
  revert cs. induction rows as [|r rows IH]; intros cs; simpl.
  - split; [intros [= <-]; constructor|intros Hf; by apply Forall2_nil_inv_l in Hf as ->].
  - split.
    + destruct (scan_claimed r) as [c|] eqn:Hc; [|done].
      destruct (scan_all rows) as [cs'|]; [|done]. intros [= <-]. constructor; [done|]. by apply IH.
    + intros Hf. apply Forall2_cons_inv_l in Hf as (c & cs' & Hc & Hf & ->).
      rewrite Hc. apply IH in Hf. by rewrite Hf.
Qed.

Definition claim_id (c : claimedEnrollment) : uuid := enr_ID (claimed_Enrollment c).
Definition claim_gen (c : claimedEnrollment) : Z := enr_ClaimGeneration (claimed_Enrollment c).

(** A claim some worker took: it names an enrollment of the database, with the
    graph of its version, and is no newer than the row. *)
Record held (d : db) (c : claimedEnrollment) : Prop := {
  held_for : claim_for d (claim_id c) (claimed_Graph c);
  held_row : exists e, db_enrollments d !! claim_id c = Some e /\ (claim_gen c <= es_generation (e_st e))%Z /\
    enr_AutomationID (claimed_Enrollment c) = er_automation (e_ref e) /\
    enr_BusinessID (claimed_Enrollment c) = er_business (e_ref e) /\
    enr_TenantRootID (claimed_Enrollment c) = er_root (e_ref e) /\
    enr_SubscriberID (claimed_Enrollment c) = er_subscriber (e_ref e)
}.

Lemma held_evolves (d d' : db) (c : claimedEnrollment) : evolves d d' -> held d c -> held d' c.
Proof.
  intros [Hev Hver _] [(e & v & He & Hv & Hs & Hg) (e0 & He0 & Hgen & Hids)].
  assert (e0 = e) as -> by congruence. destruct (Hev _ _ He) as (e' & He' & Href & Hge & _).
  destruct (Hver _ _ Hv Hs) as (v' & Hv' & Hs' & Hg' & _); [by exists (claim_id c), e|]. split.
  - exists e', v'. split_and!; [done|by rewrite Href|done|congruence].
  - exists e'. split; [done|]. split; [lia|]. by rewrite Href.
Qed.

(** A claim transaction that reports no error. *)
Lemma claim_inv (locked : gset uuid) (now : time) (batch : Z) (lease : duration) (d d' : db)
    (cs : list claimedEnrollment) :
  claim locked now batch lease d = (d', (cs, None)) ->
  d' = (automation_claim_due locked now batch lease d).1 /\ NoDup (map claim_id cs) /\
  Forall (fun c => exists e, db_enrollments d !! claim_id c = Some e /\
    claim_gen c = (es_generation (e_st e) + 1)%Z /\ runnable d e = true /\
    (db_ok d -> held d' c)) cs.
Proof.
  unfold claim, WithTx, exec. cbv beta iota zeta delta [tx_aborted tx_db tx_now].
  pose proof (claim_row_spec locked now batch lease d) as Hspec.
  pose proof (claim_rows_nodup locked now batch lease d) as Hnd.
  pose proof (claim_due_good locked now batch lease d) as Hgood.
  assert (Hvs : db_versions (automation_claim_due locked now batch lease d).1 = db_versions d) by done.
  destruct (automation_claim_due locked now batch lease d) as [d1 rows]. cbn [fst snd] in *.
  destruct (scan_all rows) as [cs'|] eqn:Hscan; [|done]. intros [= <- <-].
  apply scan_all_spec in Hscan.
  assert (Hids : map claim_id cs' = map cr_id rows).
  { clear -Hscan. induction Hscan as [|r c rows cs Hc _ IH]; simpl; [done|]. f_equal; [|done].
    unfold scan_claimed in Hc. destruct (es_current_node _); [|done]. destruct (es_wake_at _); [|done].
    by injection Hc as <-. }
  split; [done|]. split; [by rewrite Hids|].
  apply Forall_forall. intros c Hc. apply list_elem_of_lookup in Hc as [i Hc].
  destruct (Forall2_lookup_r _ _ _ _ _ Hscan Hc) as (r & Hr & Hrc).
  apply list_elem_of_lookup_2 in Hr.
  destruct (Hspec r Hr) as (e & a & v & s & He & Hdue & Hrow & Hnew & Hj & Hgr).
  unfold scan_claimed in Hrc. rewrite Hrow in Hrc. simpl in Hrc.
  destruct (es_current_node (e_st e)) as [node|]; [|done].
  destruct (es_wake_at (e_st e)) as [wake|]; [|done]. injection Hrc as <-.
  exists e. unfold due in Hdue. to_prop. split_and!; try done.
  intros Hok. destruct (Hgood Hok) as [Hok' _].
  destruct (ok_enrollments d1 Hok' _ _ Hnew) as [_ (v1 & Hv1 & Hs1 & _)].
  assert (Hv : db_versions d !! er_version (e_ref e) = Some v).
  { unfold join_enrollment in Hj. destruct (db_automations d !! er_automation (e_ref e)); [|done].
    destruct (db_versions d !! er_version (e_ref e)); [|done].
    destruct (db_subscribers d !! er_subscriber (e_ref e)); [|done].
    destruct (_ && _); [|done]. by injection Hj as _ -> _. }
  split.
  - exists (cr_row r), v1. split_and!; try done. simpl. rewrite Hgr. rewrite Hrow, Hvs in Hv1. simpl in Hv1.
    congruence.
  - rewrite Hrow in Hnew. eexists. split; [exact Hnew|]. unfold claim_gen. simpl. split_and!; try done; lia.
Qed.

(** Every candidate is runnable, so it joins and appears in the result. *)
Lemma claim_rows_ids (locked : gset uuid) (now : time) (limit : Z) (lease : duration) (d : db) :
  map cr_id (automation_claim_due locked now limit lease d).2 =
  map fst (claim_candidates locked (pg_time now) limit d).
Proof.
  simpl. fold (claim_candidates locked (pg_time now) limit d). set (d' := set_enrollments _ d).
  assert (Hall : Forall (fun x => due d locked (pg_time now) x.1 x.2 = true)
                        (claim_candidates locked (pg_time now) limit d)).
  { apply Forall_forall. intros [id e] Hx. by apply candidates_spec in Hx as [_ ?]. }
  assert (Hj : forall r, join_enrollment d' r = join_enrollment d r) by done.
  clearbody d'. induction Hall as [|[id e] l Hx _ IH]; simpl; [done|].
  unfold claim_result at 1. simpl.
  rewrite Hj. unfold due, runnable in Hx. simpl in Hx.
  destruct (join_enrollment d (e_ref e)) as [[[a v] s]|]; [|done]. simpl. by f_equal.
Qed.

Lemma scan_all_ok (rows : list claim_row) :
  Forall (fun r => es_current_node (e_st (cr_row r)) <> None /\ es_wake_at (e_st (cr_row r)) <> None) rows ->
  exists cs, scan_all rows = Ok cs.
Proof.
  induction 1 as [|r rows [Hn Hw] _ [cs IH]]; simpl; [by exists []|].
  unfold scan_claimed. destruct (es_current_node _); [|done]. destruct (es_wake_at _); [|done].
  rewrite IH. eauto.
Qed.

#[local] Instance claim_before_trans : Transitive claim_before.
Proof. intros [i x] [j y] [k z]. unfold claim_before. simpl. lia. Qed.
#[local] Instance claim_before_total : Total claim_before.
Proof. intros [i x] [j y]. unfold claim_before. simpl. lia. Qed.

(** ** The system *)

(** Calls of the automations API that change the database. *)
Inductive api (d : db) : db -> Prop :=
| api_create p b input now : api d (Create p b input now d).1
| api_update p b a input now : api d (Update p b a input now d).1
| api_clone p b a now : api d (CloneVersion p b a now d).1
| api_put_graph p b a v g now : api d (PutGraph p b a v g now d).1
| api_activate p b a v now : api d (Activate p b a v now d).1
| api_pause p b a now : api d (Pause p b a now d).1
| api_resume p b a now : api d (Resume p b a now d).1
| api_archive p b a now : api d (Archive p b a now d).1
| api_enroll p b a sub now : api d (Enroll p b a sub now d).1
| api_exit p b a e now : api d (ExitEnrollment p b a e now d).1
| api_event p b input clock now : api d (CreateEvent p b input clock now d).1
| api_s2s b r l k input clock now d' out :
    IngestS2SEvent b r l k input clock now d = Ok (d', out) -> api d d'.

(** Other subsystems: they do not write the automation tables, and the unique
    index on deliveries holds whatever they do. *)
Definition environment (d d' : db) : Prop :=
  db_automations d' = db_automations d /\ db_versions d' = db_versions d /\
  db_enrollments d' = db_enrollments d /\ db_steps d' = db_steps d /\ one_delivery (db_deliveries d').

Record sys := { sys_db : db; sys_claims : list claimedEnrollment }.

(** [domain] is the configured message domain. *)
Inductive sys_step (domain : string) (s : sys) : sys -> Prop :=
| step_claim locked now batch lease d' cs :
    claim locked now batch lease (sys_db s) = (d', (cs, None)) ->
    sys_step domain s {| sys_db := d'; sys_claims := sys_claims s ++ cs |}
| step_advance stp c now :
    c ∈ sys_claims s -> stp_Deps stp = AutomationPorts domain ->
    sys_step domain s {| sys_db := (advance_tx stp c now (sys_db s)).1; sys_claims := sys_claims s |}
| step_api d' :
    api (sys_db s) d' -> sys_step domain s {| sys_db := d'; sys_claims := sys_claims s |}
| step_outbox w locked now :
    good_bus (wrk_Bus w) ->
    sys_step domain s {| sys_db := (drainOnce w locked now (sys_db s)).1; sys_claims := sys_claims s |}
| step_environment d' :
    environment (sys_db s) d' -> sys_step domain s {| sys_db := d'; sys_claims := sys_claims s |}.

Definition sys_start (s : sys) : Prop := db_ok (sys_db s) /\ sys_claims s = [].

Definition claim_key (c : claimedEnrollment) : uuid * Z := (claim_id c, claim_gen c).

Record sys_ok (s : sys) : Prop := {
  sys_db_ok : db_ok (sys_db s);
  sys_held : Forall (held (sys_db s)) (sys_claims s);
  sys_distinct : NoDup (map claim_key (sys_claims s))
}.

Lemma api_good (d d' : db) : api d d' -> good_step d d'.
Proof.
  intros [p b input now|p b a input now|p b a now|p b a v g now|p b a v now|p b a now|p b a now|p b a now|
    p b a sub now|p b a e now|p b input clock now|b r l k input clock now d0 out Hin].
  - apply Create_good.
  - apply Update_good.
  - apply CloneVersion_good.
  - apply PutGraph_good.
  - apply Activate_good.
  - apply transition_good. by left.
  - apply transition_good. by right.
  - apply Archive_good.
  - apply Enroll_good.
  - apply ExitEnrollment_good.
  - apply CreateEvent_good.
  - by eapply IngestS2SEvent_good.
Qed.

Lemma environment_good (d d' : db) : environment d d' -> good_step d d'.
Proof.
  intros (Ha & Hv & He & Hst & Hd) [H1' H2' H2a H3' H4' H5' H6']. split; [|by apply evolves_frame].
  split; rewrite ?He, ?Hv; try done; unfold pointers_ok, tenant_ok; by rewrite ?He, Hv, Ha.
Qed.

(** Every step is good for the database and keeps the claims or adds some. *)
Lemma sys_step_good (domain : string) (s s' : sys) :
  sys_step domain s s' -> sys_ok s -> db_ok (sys_db s') /\ evolves (sys_db s) (sys_db s').
Proof.
  intros Hstep [Hok Hheld _]. revert Hok. destruct Hstep as [locked now batch lease d' cs Hcl|stp c now Hc Hd
    |d' Hapi|w locked now Hb|d' Henv]; simpl.
  - apply claim_inv in Hcl as (-> & _). apply claim_due_good.
  - apply (advance_good stp domain c now); [done|]. rewrite Forall_forall in Hheld. apply Hheld, Hc.
  - by apply api_good.
  - by apply drainOnce_good.
  - by apply environment_good.
Qed.

Lemma sys_step_ok (domain : string) (s s' : sys) : sys_step domain s s' -> sys_ok s -> sys_ok s'.
Proof.
  intros Hstep Hok. destruct (sys_step_good _ _ _ Hstep Hok) as [Hok' Hev].
  destruct Hok as [Hdb Hheld Hnd].
  assert (Hkeep : Forall (held (sys_db s')) (sys_claims s))
    by (eapply Forall_impl; [exact Hheld|intros c; by apply held_evolves]).
  destruct Hstep as [locked now batch lease d' cs Hcl|stp c now Hc Hd|d' Hapi|w locked now Hb|d' Henv];
    try by split.
  apply claim_inv in Hcl as (-> & Hids & Hnew). rewrite Forall_forall in Hnew.
  split; simpl in *; [done| |].
  - apply Forall_app. split; [done|]. apply Forall_forall. intros c Hc.
    by destruct (Hnew c Hc) as (e & _ & _ & _ & Hh); apply Hh.
  - rewrite map_app. apply NoDup_app. split_and!; [done| |].
    + intros k Hk Hk'. apply list_elem_of_fmap in Hk as (c & -> & Hc).
      apply list_elem_of_fmap in Hk' as (c' & [= Hi Hg] & Hc').
      rewrite Forall_forall in Hheld. destruct (held_row _ _ (Hheld c Hc)) as (e & He & Hle & _).
      destruct (Hnew c' Hc') as (e' & He' & Hgen & _). rewrite <- Hi in He'.
      assert (e' = e) as -> by congruence. lia.
    + clear -Hids. induction cs as [|c cs IH]; simpl in *; [constructor|].
      apply NoDup_cons in Hids as [Hn Hids]. constructor; [|by apply IH].
      intros Hin. apply Hn. apply list_elem_of_fmap in Hin as (c' & [= Hi _] & Hin).
      apply list_elem_of_fmap. by exists c'.
Qed.

Lemma sys_start_ok (s : sys) : sys_start s -> sys_ok s.
Proof. intros [Hok Hc]. split; [done|rewrite Hc; constructor|rewrite Hc; constructor]. Qed.

Lemma reachable_ok (domain : string) (s0 s : sys) : sys_ok s0 -> rtc (sys_step domain) s0 s -> sys_ok s.
Proof. intros Hok Hr. induction Hr as [|s0 s1 s Hs _ IH]; [done|]. by eapply IH, sys_step_ok. Qed.

Lemma reachable_evolves (domain : string) (s0 s : sys) :
  sys_ok s0 -> rtc (sys_step domain) s0 s -> evolves (sys_db s0) (sys_db s).
Proof.
  intros Hok Hr. induction Hr as [s0|s0 s1 s Hs _ IH]; [apply evolves_refl|].
  eapply evolves_trans; [by eapply sys_step_good|]. by eapply IH, sys_step_ok.
Qed.

(** ** Overtaken claims *)

Lemma fenced_out_evolves (d d' : db) (c : claimedEnrollment) :
  held d c -> evolves d d' -> fenced_out d (claim_id c) (claim_gen c) -> fenced_out d' (claim_id c) (claim_gen c).
Proof.
  intros [_ (e & He & Hle & _)] [Hev _ _]. unfold fenced_out. rewrite He.
  destruct (Hev _ _ He) as (e' & -> & _ & Hge & Hact). intros [Hs|Hg]; [left; auto|right; lia].
Qed.

(** A claim that is fenced out stays so, and commits nothing. *)
Lemma fenced_forever (domain : string) (s s' : sys) (c : claimedEnrollment) (stp : Stepper) (now : time) :
  sys_ok s -> rtc (sys_step domain) s s' -> held (sys_db s) c -> fenced_out (sys_db s) (claim_id c) (claim_gen c) ->
  stp_Deps stp = AutomationPorts domain ->
  exists out err, advance_tx stp c now (sys_db s') = (sys_db s', (out, Some err)).
Proof.
  intros Hok Hr Hheld Hf Hdeps. pose proof (reachable_evolves _ _ _ Hok Hr) as Hev.
  pose proof (reachable_ok _ _ _ Hok Hr) as Hok'.
  pose proof (held_evolves _ _ _ Hev Hheld) as Hheld'. apply (stale_advance stp domain); [done| |].
  - destruct (claim_wf _ _ _ (sys_db_ok _ Hok') (held_for _ _ Hheld')) as [refs Hwf]. apply (wf_node_ids _ _ Hwf).
  - by apply (fenced_out_evolves (sys_db s)).
Qed.

Lemma update_active_fenced (p : uuid -> enrollment_ref -> bool) (f : enrollment_state -> enrollment_state)
    (d d' : db) (c : claimedEnrollment) :
  held d c -> db_enrollments d' = update_active p f (db_enrollments d) ->
  (forall st, (es_generation st < es_generation (f st))%Z) ->
  (forall e, db_enrollments d !! claim_id c = Some e -> p (claim_id c) (e_ref e) = true) ->
  fenced_out d' (claim_id c) (claim_gen c).
Proof.
  intros [_ (e & He & Hle & _)] Hd' Hf Hp. unfold fenced_out. rewrite Hd', update_active_lookup, He.
  rewrite (Hp e He). simpl. case_bool_decide; simpl; [|by left]. right. specialize (Hf (e_st e)). lia.
Qed.

(** An automation's enrollments live in its own business and tenant root. *)
Lemma held_of_automation (d : db) (c : claimedEnrollment) (automation business root : uuid) (a : automation_row) :
  db_ok d -> enr_AutomationID (claimed_Enrollment c) = automation ->
  db_automations d !! automation = Some a -> a_business a = business -> a_root a = root -> held d c ->
  forall e, db_enrollments d !! claim_id c = Some e -> of_automation automation business root (claim_id c) (e_ref e) = true.
Proof.
  intros Hok Hau Ha Hb Hr [_ (e0 & He0 & _ & Hids & _)] e He. assert (e0 = e) as -> by congruence.
  destruct (proj2 (ok_tenant d Hok) _ _ He) as (a0 & Ha0 & Hb0 & Hr0). unfold of_automation.
  assert (a0 = a) as -> by congruence.
  rewrite <- Hids, Hau, <- Hb0, <- Hr0, Hb, Hr, !N.eqb_refl. done.
Qed.

Lemma Pause_fences (principal business automationID : uuid) (now : time) (d d' : db) (out : Automation)
    (c : claimedEnrollment) :
  db_ok d -> Pause principal business automationID now d = (d', Ok out) ->
  held d c -> enr_AutomationID (claimed_Enrollment c) = automationID ->
  fenced_out d' (claim_id c) (claim_gen c).
Proof.
  unfold Pause, transition. intros Hok Hb Hheld Hau. apply run_service_ok in Hb.
  apply bind_ok in Hb as (root & _ & Hb). apply bind_ok in Hb as ([] & _ & Hb).
  apply bind_ok in Hb as (a & Ha & Hb). apply GetAutomation_ok in Ha as (Ha & Hbus & Hroot).
  destruct (negb _); [done|]. apply bind_ok in Hb as ([] & _ & Hb). injection Hb as <- _.
  eapply update_active_fenced; [done|done|intros st; simpl; lia|]. by eapply held_of_automation.
Qed.

Lemma Archive_fences (principal business automationID : uuid) (now : time) (d d' : db) (out : Automation)
    (c : claimedEnrollment) :
  db_ok d -> Archive principal business automationID now d = (d', Ok out) ->
  held d c -> enr_AutomationID (claimed_Enrollment c) = automationID ->
  fenced_out d' (claim_id c) (claim_gen c).
Proof.
  unfold Archive. intros Hok Hb Hheld Hau. apply run_service_ok in Hb.
  apply bind_ok in Hb as (root & _ & Hb).
  apply bind_ok in Hb as (a & Ha & Hb). apply GetAutomation_ok in Ha as (Ha & Hbus & Hroot).
  case_bool_decide; [done|]. apply bind_ok in Hb as ([] & _ & Hb). injection Hb as <- _.
  eapply update_active_fenced; [done|done|intros st; simpl; lia|]. by eapply held_of_automation.
Qed.

Lemma ExitEnrollment_fences (principal business automationID enrollmentID : uuid) (now : time) (d d' : db)
    (out : EnrollmentView) (gen : Z) :
  ExitEnrollment principal business automationID enrollmentID now d = (d', Ok out) ->
  fenced_out d' enrollmentID gen.
Proof.
  unfold ExitEnrollment. intros Hb. apply run_service_ok in Hb. apply bind_ok in Hb as (root & _ & Hb).
  destruct (db_enrollments d !! enrollmentID) as [e|]; [|done].
  destruct (negb _); [done|]. destruct (negb _); [done|].
  apply bind_ok in Hb as ([] & _ & Hb). injection Hb as <- _.
  unfold fenced_out. simpl. rewrite lookup_insert_eq. by left.
Qed.

(** The operations by which a user stops work on an enrollment. *)
Inductive stops (automation enrollment : uuid) (d d' : db) : Prop :=
| stop_pause p b now out : Pause p b automation now d = (d', Ok out) -> stops automation enrollment d d'
| stop_archive p b now out : Archive p b automation now d = (d', Ok out) -> stops automation enrollment d d'
| stop_exit p b now out :
    ExitEnrollment p b automation enrollment now d = (d', Ok out) -> stops automation enrollment d d'.

Lemma stops_api (automation enrollment : uuid) (d d' : db) : stops automation enrollment d d' -> api d d'.
Proof.
  intros [p b now out Hs|p b now out Hs|p b now out Hs].
  - pose proof (api_pause d p b automation now) as Ha. by rewrite Hs in Ha.
  - pose proof (api_archive d p b automation now) as Ha. by rewrite Hs in Ha.
  - pose proof (api_exit d p b automation enrollment now) as Ha. by rewrite Hs in Ha.
Qed.

Lemma stops_fence (d d' : db) (c : claimedEnrollment) :
  db_ok d -> held d c -> stops (enr_AutomationID (claimed_Enrollment c)) (claim_id c) d d' ->
  fenced_out d' (claim_id c) (claim_gen c).
Proof.
  intros Hok Hheld [p b now out Hs|p b now out Hs|p b now out Hs].
  - by eapply Pause_fences.
  - by eapply Archive_fences.
  - by eapply ExitEnrollment_fences.
Qed.

(** ** Properties *)

(** C4: In every state the system reaches from a consistent database, however
    claims, ticks, API calls, outbox runs and other subsystems interleave, the
    database invariant holds: every enrollment runs an activated version of its
    automation at a node of that version's graph, an automation has at most one
    active enrollment per subscriber and one enrollment per triggering event, at
    most one delivery exists per source and subscriber, activated versions carry
    valid graphs, version pointers are exact, and every version and enrollment
    belongs to the tenant of its automation. *)
Theorem system_invariant (domain : string) (s0 s : sys) :
  sys_start s0 -> rtc (sys_step domain) s0 s -> db_ok (sys_db s).
Proof. intros Hs Hr. by eapply sys_db_ok, reachable_ok, Hr; apply sys_start_ok. Qed.

(** A step that has completed for an enrollment and node keeps its row for
    ever: no later tick, retry, replay or API call executes the node again. *)
Theorem completed_steps_immutable (domain : string) (s0 s s' : sys) (enrollment : uuid) (node : string)
    (r : step_row) :
  sys_start s0 -> rtc (sys_step domain) s0 s -> rtc (sys_step domain) s s' ->
  db_steps (sys_db s) !! (enrollment, node) = Some r -> st_completed_at r <> None ->
  db_steps (sys_db s') !! (enrollment, node) = Some r.
Proof.
  intros Hs Hr Hr' Hrow Hc. apply sys_start_ok in Hs. pose proof (reachable_ok _ _ _ Hs Hr) as Hok.
  by apply (ev_steps _ _ (reachable_evolves _ _ _ Hok Hr')).
Qed.

(** C5: Of all the claims replicas hold on one enrollment, at most one passes
    the execution fence: two claims that pass it are the same claim. *)
Theorem claims_exclusive (domain : string) (s0 s : sys) (c1 c2 : claimedEnrollment) (b r sub : option uuid) :
  sys_start s0 -> rtc (sys_step domain) s0 s -> c1 ∈ sys_claims s -> c2 ∈ sys_claims s ->
  claim_id c1 = claim_id c2 ->
  automation_execution_fence (sys_db s) (claim_id c1) (claim_gen c1) b r sub = true ->
  automation_execution_fence (sys_db s) (claim_id c2) (claim_gen c2) b r sub = true -> c1 = c2.
Proof.
  intros Hs Hr Hc1 Hc2 Hid Hf1 Hf2. apply sys_start_ok in Hs. pose proof (reachable_ok _ _ _ Hs Hr) as Hok.
  apply (NoDup_map_inj claim_key (sys_claims s)); [apply (sys_distinct _ Hok)|done|done|].
  apply fence_spec in Hf1 as (e1 & He1 & _ & Hg1 & _). apply fence_spec in Hf2 as (e2 & He2 & _ & Hg2 & _).
  unfold claim_key. f_equal; [done|]. rewrite Hid in He1. congruence.
Qed.

(** Once a claim has been overtaken (the enrollment was claimed again, or
    has finished), the worker that holds it can never again change the
    database: in every later state its tick reports an error and commits
    nothing. *)
Theorem overtaken_claims_inert (domain : string) (s0 s s' : sys) (c : claimedEnrollment) (stp : Stepper) (now : time) :
  sys_start s0 -> rtc (sys_step domain) s0 s -> rtc (sys_step domain) s s' -> c ∈ sys_claims s ->
  fenced_out (sys_db s) (claim_id c) (claim_gen c) -> stp_Deps stp = AutomationPorts domain ->
  exists out err, advance_tx stp c now (sys_db s') = (sys_db s', (out, Some err)).
Proof.
  intros Hs Hr Hr' Hc Hf Hdeps. apply sys_start_ok in Hs. pose proof (reachable_ok _ _ _ Hs Hr) as Hok.
  pose proof (sys_held _ Hok) as Hheld. rewrite Forall_forall in Hheld.
  apply (fenced_forever domain s s'); try done. by apply Hheld.
Qed.

(** Pausing or archiving the automation, or exiting the enrollment, cuts off
    every worker that holds a claim at that moment: from then on, even after a
    later resume, its tick commits nothing. *)
Theorem stop_cuts_off_workers (domain : string) (s0 s s' : sys) (d' : db) (c : claimedEnrollment) (stp : Stepper)
    (now : time) :
  sys_start s0 -> rtc (sys_step domain) s0 s -> c ∈ sys_claims s ->
  stops (enr_AutomationID (claimed_Enrollment c)) (claim_id c) (sys_db s) d' ->
  rtc (sys_step domain) {| sys_db := d'; sys_claims := sys_claims s |} s' ->
  stp_Deps stp = AutomationPorts domain ->
  exists out err, advance_tx stp c now (sys_db s') = (sys_db s', (out, Some err)).
Proof.
  intros Hs Hr Hc Hstop Hr' Hdeps. apply sys_start_ok in Hs. pose proof (reachable_ok _ _ _ Hs Hr) as Hok.
  pose proof (sys_held _ Hok) as Hheld. rewrite Forall_forall in Hheld.
  pose proof (step_api domain s d' (stops_api _ _ _ _ Hstop)) as Hstep.
  pose proof (sys_step_good _ _ _ Hstep Hok) as [_ Hev].
  apply (fenced_forever domain {| sys_db := d'; sys_claims := sys_claims s |} s'); try done.
  - by eapply sys_step_ok.
  - eapply held_evolves; [exact Hev|]. by apply Hheld.
  - apply (stops_fence (sys_db s)); [apply (sys_db_ok _ Hok)|by apply Hheld|done].
Qed.

(** A successful activation leaves the version active with a graph that is
    well formed with respect to the tenant's lists and templates, with the
    trigger the graph declares and the content of the templates it refers to;
    it is the automation's only active version, the automation is active and its
    draft pointer is cleared, and the tenant root was open for writes and the
    caller permitted to send. *)
Theorem Activate_correct (principal business automationID versionID : uuid) (now : time) (d d' : db)
    (out : Automation) :
  db_ok d -> Activate principal business automationID versionID now d = (d', Ok out) ->
  exists root a v,
    resolveTenantRoot principal business d = Ok root /\
    has_permission principal business "mailing.send" = true /\ root_write_allowed d root = true /\
    db_automations d' !! automationID = Some a /\ a_status a = AActive /\
    a_active_version a = Some versionID /\ a_draft_version a = None /\
    db_versions d' !! versionID = Some v /\ v_status v = VActive /\
    WellFormed (tenant_references d business root (v_graph v)) (v_graph v) /\
    (exists kind ref, triggerIdentity (v_graph v) = Ok (kind, ref) /\
       v_trigger_kind v = Some kind /\ v_trigger_ref v = Some ref) /\
    (exists content, snapshotVersionContent d business root (v_graph v) = Ok content /\ v_snapshot v = Some content) /\
    (forall k w, db_versions d' !! k = Some w -> v_automation w = automationID -> v_status w = VActive -> k = versionID).
Proof.
  intros Hok Hact. pose proof (Activate_good principal business automationID versionID now d Hok) as [Hok' _].
  rewrite Hact in Hok'. simpl in Hok'.
  apply Activate_inv in Hact as (root & a & v & kind & ref & content & m & Ha & Hv & Hva & Hvs & Hd & _ & Hwf & Htrig
    & Hsnap & Hroot & Hperm & Hfence & Hm & ->).
  exists root, (with_pointers (Some versionID) None AActive now a), (activated_row kind ref content now v).
  assert (Hau : forall x, db_automations (writeAudit principal business root "automation.activated" automationID
    (JObj [("version_id", juuid versionID)])
    (set_automations (<[automationID := with_pointers (Some versionID) None AActive now a]> (db_automations d)) x))
    !! automationID = Some (with_pointers (Some versionID) None AActive now a)) by (intros x; apply lookup_insert_eq).
  split_and!; try done.
  - revert Hperm. unfold requirePermission. destruct (negb _); [done|]. by destruct (has_permission _ _ _).
  - apply lookup_insert_eq.
  - by exists kind, ref.
  - by exists content.
  - intros k w Hw Hwa Hws. destruct (proj2 (ok_pointers _ Hok') k w Hw Hws) as (a' & Ha' & Hk).
    rewrite Hwa, Hau in Ha'. injection Ha' as <-. by injection Hk as <-.
Qed.

(** A claim takes the due work and nothing else: it succeeds, takes at most
    the batch limit, every enrollment it returns was runnable, due, unleased and
    not locked by another replica, and is now leased under a new generation; a
    due enrollment it leaves behind has only earlier ones before it in a full
    batch. *)
Theorem claim_takes_due (locked : gset uuid) (now : time) (limit : Z) (lease : duration) (d : db) :
  db_ok d ->
  exists cs, claim locked now limit lease d = ((automation_claim_due locked now limit lease d).1, (cs, None)) /\
    length cs <= claim_limit limit /\
    (forall c, c ∈ cs -> exists e e', db_enrollments d !! claim_id c = Some e /\
       due d locked (pg_time now) (claim_id c) e = true /\
       db_enrollments (automation_claim_due locked now limit lease d).1 !! claim_id c = Some e' /\
       claim_gen c = (es_generation (e_st e) + 1)%Z /\ es_generation (e_st e') = claim_gen c /\
       es_lease (e_st e') = Some (pg_time now + Z.max lease (10 * Second))%Z) /\
    (forall id e, db_enrollments d !! id = Some e -> due d locked (pg_time now) id e = true ->
       id ∈ map claim_id cs \/
       (length cs = claim_limit limit /\
        forall c, c ∈ cs -> exists e0, db_enrollments d !! claim_id c = Some e0 /\
          claim_before (claim_id c, e0) (id, e))).
Proof.
  intros Hok. pose proof (claim_row_spec locked now limit lease d) as Hspec.
  pose proof (claim_rows_ids locked now limit lease d) as Hids.
  destruct (scan_all_ok (automation_claim_due locked now limit lease d).2) as [cs Hscan].
  { apply Forall_forall. intros r Hr. destruct (Hspec r Hr) as (e & a & v & s & He & Hdue & -> & _). simpl.
    unfold due in Hdue. to_prop. destruct (ok_enrollments d Hok _ _ He) as [_ (v0 & _ & _ & _ & Hact)].
    destruct Hact as [Hw (node & Hn & _)]; [by eapply fence_runnable|]. split; [congruence|done]. }
  assert (Hclaim : claim locked now limit lease d = ((automation_claim_due locked now limit lease d).1, (cs, None))).
  { unfold claim, WithTx, exec. cbv beta iota zeta delta [tx_aborted tx_db tx_now].
    destruct (automation_claim_due locked now limit lease d) as [d1 rows]. simpl in Hscan. by rewrite Hscan. }
  apply scan_all_spec in Hscan.
  assert (Hcs : map claim_id cs = map fst (claim_candidates locked (pg_time now) limit d)).
  { rewrite <- Hids. clear -Hscan. induction Hscan as [|r c rows cs Hc _ IH]; simpl; [done|]. f_equal; [|done].
    unfold scan_claimed in Hc. destruct (es_current_node _); [|done]. destruct (es_wake_at _); [|done].
    by injection Hc as <-. }
  assert (Hlen : length cs = length (claim_candidates locked (pg_time now) limit d))
    by (rewrite <- (length_map claim_id cs), Hcs; apply length_map).
  assert (Hcand : forall c, c ∈ cs -> exists e, (claim_id c, e) ∈ claim_candidates locked (pg_time now) limit d).
  { intros c Hc. assert (Hin : claim_id c ∈ map claim_id cs) by (apply list_elem_of_fmap; by exists c).
    rewrite Hcs in Hin. apply list_elem_of_fmap in Hin as ([id e] & Heq & Hin). exists e. by rewrite Heq. }
  exists cs. split_and!; [done| | |].
  - rewrite Hlen. unfold claim_candidates. rewrite length_take. lia.
  - intros c Hc. apply claim_inv in Hclaim as (_ & _ & Hall). rewrite Forall_forall in Hall.
    destruct (Hall c Hc) as (e & He & Hgen & _). destruct (Hcand c Hc) as (e0 & He0).
    apply candidates_spec in He0 as [He0 Hdue]. assert (e0 = e) as -> by congruence.
    assert (Hr : exists r, r ∈ (automation_claim_due locked now limit lease d).2 /\ cr_id r = claim_id c).
    { assert (Hin : claim_id c ∈ map cr_id (automation_claim_due locked now limit lease d).2)
        by (rewrite Hids, <- Hcs; apply list_elem_of_fmap; by exists c).
      apply list_elem_of_fmap in Hin as (r & Hr & Hin). by exists r. }
    destruct Hr as (r & Hr & Hrid). destruct (Hspec r Hr) as (e1 & a & v & s & He1 & _ & Hrow & Hnew & _).
    rewrite Hrid in He1, Hnew. assert (e1 = e) as -> by congruence.
    exists e, (cr_row r). rewrite Hrow. rewrite Hrow in Hnew. by split_and!.
  - intros id e He Hdue.
    destruct (batch_complete claim_before (fun x => due d locked (pg_time now) x.1 x.2) (claim_limit limit)
      (db_enrollments d) id e He Hdue) as [Hin|[Hfull Hbefore]].
    + left. rewrite Hcs. apply list_elem_of_fmap. by exists (id, e).
    + right. split; [by rewrite Hlen|]. intros c Hc. destruct (Hcand c Hc) as (e0 & He0). exists e0. split.
      * by apply candidates_spec in He0 as [? _].
      * rewrite Forall_forall in Hbefore. exact (Hbefore (claim_id c, e0) He0).
Qed.
End Safety.

(** ** Witnesses *)

#[local] Existing Instances demo_unicode demo_uuid demo_zones demo_urls demo_hash demo_authz demo_events.

Definition demo_sys (d : db) (cs : list claimedEnrollment) : sys := {| sys_db := d; sys_claims := cs |}.
Abbreviation demo_step := (sys_step "mail.example.com").

Lemma demo_start : sys_start (demo_sys demo_db []).
Proof. split; [|done]. repeat split; simpl; intros *; by rewrite ?lookup_empty. Qed.

Lemma demo_run_stored : rtc demo_step (demo_sys demo_db []) (demo_sys demo_stored []).
Proof.
  apply (rtc_l _ _ (demo_sys demo_created [])); [apply (step_api _ (demo_sys demo_db [])), api_create|].
  apply rtc_once. apply (step_api _ (demo_sys demo_created [])), api_put_graph.
Qed.

Lemma demo_run_enrolled : rtc demo_step (demo_sys demo_db []) (demo_sys demo_enrolled []).
Proof.
  apply (rtc_r _ (demo_sys demo_active [])); [|apply (step_api _ (demo_sys demo_active [])), api_enroll].
  eapply rtc_r; [apply demo_run_stored|]. apply (step_api _ (demo_sys demo_stored [])), api_activate.
Qed.

Lemma demo_run_claimed : rtc demo_step (demo_sys demo_db []) (demo_sys demo_claimed [demo_held]).
Proof.
  eapply rtc_r; [apply demo_run_enrolled|].
  apply (step_claim _ (demo_sys demo_enrolled []) ∅ (1 * Second) 10 (2 * Minute) demo_claimed [demo_held]).
  destruct demo_claims_one as [<- Hn]. change (sys_db (demo_sys demo_enrolled [])) with demo_enrolled.
  fold demo_claim. unfold demo_claimed, demo_claims. rewrite <- Hn. by destruct demo_claim as [? []].
Qed.

Lemma demo_held_in (d : db) : demo_held ∈ sys_claims (demo_sys d [demo_held]).
Proof. left. Qed.

Lemma demo_tick_step : demo_step (demo_sys demo_claimed [demo_held]) (demo_sys demo_advanced [demo_held]).
Proof. apply (step_advance _ (demo_sys demo_claimed [demo_held]) demo_stepper); [apply demo_held_in|done]. Qed.

Lemma demo_pause_ok : exists out, Pause 7 1 0 (2 * Second) demo_claimed = (demo_paused, Ok out).
Proof.
  assert (Hok : is_ok (Pause 7 1 0 (2 * Second) demo_claimed).2 = true) by (vm_compute; reflexivity).
  unfold demo_paused. destruct (Pause 7 1 0 (2 * Second) demo_claimed) as [d [out|e]]; [by exists out|done].
Qed.

Lemma demo_pause_step : demo_step (demo_sys demo_claimed [demo_held]) (demo_sys demo_paused [demo_held]).
Proof. apply (step_api _ (demo_sys demo_claimed [demo_held])), api_pause. Qed.

Lemma demo_resume_step : demo_step (demo_sys demo_paused [demo_held]) (demo_sys demo_resumed [demo_held]).
Proof. apply (step_api _ (demo_sys demo_paused [demo_held])), api_resume. Qed.

Lemma system_invariant_witness : db_ok (sys_db (demo_sys demo_advanced [demo_held])).
Proof.
  apply (system_invariant "mail.example.com" (demo_sys demo_db []) (demo_sys demo_advanced [demo_held])).
  - apply demo_start.
  - eapply rtc_r; [apply demo_run_claimed|apply demo_tick_step].
Defined.

Lemma completed_steps_immutable_witness :
  exists r, db_steps (sys_db (demo_sys demo_advanced [demo_held])) !! (0%N, "hello") = Some r /\
    st_completed_at r <> None /\
    db_steps (sys_db (demo_sys demo_archived [demo_held])) !! (0%N, "hello") = Some r.
Proof.
  assert (Hc : option_map (fun r => bool_decide (st_completed_at r <> None))
    (db_steps (sys_db (demo_sys demo_advanced [demo_held])) !! (0%N, "hello")) = Some true)
    by (vm_compute; reflexivity).
  destruct (db_steps (sys_db (demo_sys demo_advanced [demo_held])) !! (0%N, "hello")) as [r|] eqn:Hr; [|done].
  injection Hc as Hc. apply bool_decide_eq_true in Hc. exists r. split_and!; [done|done|].
  apply (completed_steps_immutable "mail.example.com" (demo_sys demo_db []) (demo_sys demo_advanced [demo_held])
    (demo_sys demo_archived [demo_held]) 0%N "hello" r).
  - apply demo_start.
  - eapply rtc_r; [apply demo_run_claimed|apply demo_tick_step].
  - apply rtc_once. apply (step_api _ (demo_sys demo_advanced [demo_held])), api_archive.
  - exact Hr.
  - exact Hc.
Defined.

Lemma claims_exclusive_witness :
  automation_execution_fence (sys_db (demo_sys demo_claimed [demo_held])) (claim_id demo_held) (claim_gen demo_held) None None None = true /\
  demo_held = demo_held.
Proof.
  assert (Hf : automation_execution_fence (sys_db (demo_sys demo_claimed [demo_held])) (claim_id demo_held) (claim_gen demo_held) None None None
    = true) by (vm_compute; reflexivity).
  split; [exact Hf|].
  apply (claims_exclusive "mail.example.com" (demo_sys demo_db []) (demo_sys demo_claimed [demo_held])
    demo_held demo_held None None None); try exact Hf.
  - apply demo_start.
  - apply demo_run_claimed.
  - apply demo_held_in.
  - apply demo_held_in.
  - reflexivity.
Defined.

Lemma overtaken_claims_inert_witness :
  exists out err, advance_tx demo_stepper demo_held (4 * Second) (sys_db (demo_sys demo_resumed [demo_held]))
    = (sys_db (demo_sys demo_resumed [demo_held]), (out, Some err)).
Proof.
  apply (overtaken_claims_inert "mail.example.com" (demo_sys demo_db []) (demo_sys demo_paused [demo_held])
    (demo_sys demo_resumed [demo_held]) demo_held demo_stepper (4 * Second)).
  - apply demo_start.
  - eapply rtc_r; [apply demo_run_claimed|apply demo_pause_step].
  - apply rtc_once, demo_resume_step.
  - apply demo_held_in.
  - vm_compute. by right.
  - reflexivity.
Defined.

Lemma stop_cuts_off_workers_witness :
  exists out err, advance_tx demo_stepper demo_held (4 * Second) (sys_db (demo_sys demo_resumed [demo_held]))
    = (sys_db (demo_sys demo_resumed [demo_held]), (out, Some err)).
Proof.
  apply (stop_cuts_off_workers "mail.example.com" (demo_sys demo_db []) (demo_sys demo_claimed [demo_held])
    (demo_sys demo_resumed [demo_held]) demo_paused demo_held demo_stepper (4 * Second)).
  - apply demo_start.
  - apply demo_run_claimed.
  - apply demo_held_in.
  - destruct demo_pause_ok as [out Hp].
    assert (Ha : enr_AutomationID (claimed_Enrollment demo_held) = 0%N) by (vm_compute; reflexivity).
    rewrite Ha. by eapply stop_pause.
  - apply rtc_once, demo_resume_step.
  - reflexivity.
Defined.

Lemma Activate_correct_witness :
  exists a, db_automations demo_active !! 0%N = Some a /\ a_active_version a = Some 0%N.
Proof.
  assert (Hok : is_ok (Activate 7 1 0 0 0 demo_stored).2 = true) by (vm_compute; reflexivity).
  destruct (Activate 7 1 0 0 0 demo_stored) as [d' [out|e]] eqn:Hact; [|done].
  destruct (Activate_correct 7 1 0 0 0 demo_stored d' out) as (root & a & v & Hres); [|exact Hact|].
  - apply (sys_db_ok (demo_sys demo_stored [])), (reachable_ok "mail.example.com" (demo_sys demo_db []));
      [apply sys_start_ok, demo_start|apply demo_run_stored].
  - exists a. unfold demo_active. rewrite Hact. cbn [fst].
    destruct Hres as (_ & _ & _ & Ha & _ & Hv & _). split; [exact Ha|exact Hv].
Defined.

Lemma claim_takes_due_witness :
  exists cs, claim ∅ (1 * Second) 10 (2 * Minute) (sys_db (demo_sys demo_enrolled [])) =
    ((automation_claim_due ∅ (1 * Second) 10 (2 * Minute) (sys_db (demo_sys demo_enrolled []))).1, (cs, None)).
Proof.
  destruct (claim_takes_due ∅ (1 * Second) 10 (2 * Minute) (sys_db (demo_sys demo_enrolled []))) as (cs & Hc & _).
  - apply sys_db_ok, (reachable_ok "mail.example.com" (demo_sys demo_db []));
      [apply sys_start_ok, demo_start|apply demo_run_enrolled].
  - exists cs. exact Hc.
Defined.

(** ** A stepper's tick

    What a tick did is its log: the claims and the advances in the order in which
    they ran.  [tick_log] says that each entry is the transaction of the code on
    the database the others had left, which is all it says: which entries there
    are is what the theorem is about. *)

Inductive tick_tx :=
| TxClaim (cs : list claimedEnrollment)
| TxAdvance (c : claimedEnrollment) (err : option error).

Definition claimed_in (log : list tick_tx) : list claimedEnrollment :=
  flat_map (fun x => match x with TxClaim cs => cs | TxAdvance _ _ => [] end) log.
Definition advanced_in (log : list tick_tx) : list claimedEnrollment :=
  flat_map (fun x => match x with TxClaim _ => [] | TxAdvance c _ => [c] end) log.

(** The sizes of the claims. *)
Definition batches_in (log : list tick_tx) : list nat :=
  flat_map (fun x => match x with TxClaim cs => [length cs] | TxAdvance _ _ => [] end) log.

(** The advances that failed for another reason than a lost fence. *)
Definition failures_in (log : list tick_tx) : list (claimedEnrollment * error) :=
  flat_map (fun x => match x with
                     | TxAdvance c (Some e) => if is_lost_fence e then [] else [(c, e)]
                     | _ => []
                     end) log.

Section Tick.
Context `{UnicodeTables, UUIDLib, ZoneDB, URLLib, UUIDHash, Authz, EventLib}.
Variables (domain : string) (stp : Stepper) (others : nat -> db -> db) (locked : nat -> gset uuid)
  (clock : nat -> time).

Inductive tick_log : nat -> db -> list tick_tx -> db -> Prop :=
| log_done n d : tick_log n d [] d
| log_claim n d cs d1 log d' :
    claim (locked n) (clock n) (tick_batch stp) (tick_lease stp) (others n d) = (d1, (cs, None)) ->
    tick_log (S n) d1 log d' -> tick_log n d (TxClaim cs :: log) d'
| log_advance n d c out err d1 log d' :
    advance_tx stp c (clock n) (others n d) = (d1, (out, err)) ->
    tick_log (S n) d1 log d' -> tick_log n d (TxAdvance c err :: log) d'.

(** What the others do are steps of the system. *)
Definition others_run : Prop :=
  forall n s, exists s', rtc (sys_step domain) s s' /\ sys_db s' = others n (sys_db s).

Lemma tick_log_app (n : nat) (d d1 d2 : db) (l l' : list tick_tx) :
  tick_log n d l d1 -> tick_log (n + length l) d1 l' d2 -> tick_log n d (l ++ l') d2.
Proof.
  induction 1 as [n d|n d cs d1 log d' Hc _ IH|n d c out err d1 log d' Ha _ IH]; cbn [length app].
  - by rewrite Nat.add_0_r.
  - rewrite <- Nat.add_succ_comm. intros Hl. eapply log_claim; [done|by apply IH].
  - rewrite <- Nat.add_succ_comm. intros Hl. eapply log_advance; [done|by apply IH].
Qed.

Lemma claims_kept (s s' : sys) : rtc (sys_step domain) s s' -> sys_claims s ⊆ sys_claims s'.
Proof.
  induction 1 as [s|s s1 s' Hs _ IH]; [done|]. etrans; [|exact IH]. destruct Hs; simpl; try done.
  intros x Hx. apply elem_of_app. by left.
Qed.

(** The transactions of a log that advances what was claimed are steps of the
    system, and so are those of the others between them. *)
Lemma tick_log_run (n : nat) (s : sys) (log : list tick_tx) (d : db) :
  stp_Deps stp = AutomationPorts domain -> others_run ->
  tick_log n (sys_db s) log d ->
  (forall l1 l2, log = l1 ++ l2 -> advanced_in l1 ⊆ sys_claims s ++ claimed_in l1) ->
  exists s', rtc (sys_step domain) s s' /\ sys_db s' = d /\ sys_claims s ++ claimed_in log ⊆ sys_claims s'.
Proof.
  intros Hdeps Hot Hlog. remember (sys_db s) as d0 eqn:Hd0. revert s Hd0.
  induction Hlog as [n d|n d cs d1 log d' Hc _ IH|n d c out err d1 log d' Ha _ IH]; intros s -> Hadv.
  - exists s. split; [done|]. split; [done|]. intros x Hx. simpl in Hx. by rewrite app_nil_r in Hx.
  - destruct (Hot n s) as (s1 & Hs1 & Hd1). rewrite <- Hd1 in Hc.
    pose proof (claims_kept _ _ Hs1) as Hkept.
    destruct (IH {| sys_db := d1; sys_claims := sys_claims s1 ++ cs |} eq_refl) as (s' & Hs' & Hdb & Hcl).
    { intros l1 l2 ->. specialize (Hadv (TxClaim cs :: l1) l2 eq_refl). simpl in *. intros x Hx.
      apply Hadv in Hx. rewrite !elem_of_app in *. set_solver. }
    exists s'. split; [|split; [done|]].
    + etrans; [exact Hs1|]. eapply rtc_l; [by eapply step_claim|exact Hs'].
    + intros x Hx. apply Hcl. simpl in *. rewrite !elem_of_app in *. set_solver.
  - destruct (Hot n s) as (s1 & Hs1 & Hd1). rewrite <- Hd1 in Ha.
    pose proof (claims_kept _ _ Hs1) as Hkept.
    assert (Hin : c ∈ sys_claims s).
    { specialize (Hadv [TxAdvance c err] log eq_refl c). simpl in Hadv. rewrite app_nil_r in Hadv. apply Hadv. by left. }
    destruct (IH {| sys_db := d1; sys_claims := sys_claims s1 |} eq_refl) as (s' & Hs' & Hdb & Hcl).
    { intros l1 l2 ->. specialize (Hadv (TxAdvance c err :: l1) l2 eq_refl). simpl in *. intros x Hx.
      assert (Hx' : x ∈ c :: advanced_in l1) by by right. apply Hadv in Hx'. rewrite !elem_of_app in *. set_solver. }
    exists s'. split; [|split; [done|]].
    + etrans; [exact Hs1|]. eapply rtc_l; [|exact Hs'].
      replace d1 with (advance_tx stp c (clock n) (sys_db s1)).1 by by rewrite Ha. apply step_advance; [by apply Hkept|done].
    + intros x Hx. apply Hcl. simpl in *. rewrite !elem_of_app in *. set_solver.
Qed.

(** The inner loop advances the whole batch and keeps the first failure. *)
Lemma advance_all_log (n n' : nat) (cs : list claimedEnrollment) (ferr r : option error) (d d' : db) :
  advance_all stp others clock n cs ferr d = (n', (d', r)) ->
  exists log, tick_log n d log d' /\ n' = n + length log /\ claimed_in log = [] /\ batches_in log = [] /\
    advanced_in log = cs /\
    r = match ferr, failures_in log with
        | Some f, _ => Some f
        | None, [] => None
        | None, (c, e) :: _ => Some (advance_error c e)
        end.
Proof.
  revert n ferr d. induction cs as [|c cs IH]; intros n ferr d; cbn [advance_all].
  - intros [= <- <- <-]. exists []. split_and!; [apply log_done|simpl; lia|done..|by destruct ferr].
  - destruct (advance_tx stp c (clock n) (others n d)) as [d1 [out err]] eqn:Ha. cbv zeta. intros Hr.
    apply IH in Hr as (log & Hlog & -> & Hc & Hb & Had & ->). exists (TxAdvance c err :: log). simpl.
    rewrite Hc, Hb, Had. split_and!; [by eapply log_advance|lia|done..|].
    destruct err as [e|]; simpl; [|done]. destruct (is_lost_fence e); [done|]. by destruct ferr.
Qed.

(** A round that claims [cs] and advances them. *)
Definition tick_round (n : nat) (d : db) (cs : list claimedEnrollment) (l : list tick_tx) (d' : db) : Prop :=
  tick_log n d (TxClaim cs :: l) d' /\ batches_in l = [] /\ claimed_in l = [] /\ advanced_in l = cs.

(** How a tick may end after the full rounds [log], which left [d]: the fuel is
    out, the claim fails, or one more round is the last. *)
Inductive tick_end (n : nat) (d : db) : list tick_tx -> db -> option (option error) -> Prop :=
| end_fuel : tick_end n d [] d None
| end_claim d' cs e :
    claim (locked n) (clock n) (tick_batch stp) (tick_lease stp) (others n d) = (d', (cs, Some e)) ->
    tick_end n d [] d' (Some (Some e))
| end_failed cs l d' c e rest :
    tick_round n d cs l d' -> failures_in l = (c, e) :: rest ->
    tick_end n d (TxClaim cs :: l) d' (Some (Some (advance_error c e)))
| end_short cs l d' :
    tick_round n d cs l d' -> failures_in l = [] -> (Z.of_nat (length cs) < tick_batch stp)%Z ->
    tick_end n d (TxClaim cs :: l) d' (Some None).

(** Full rounds without a failure. *)
Inductive full_rounds : nat -> nat -> db -> list tick_tx -> db -> Prop :=
| rounds_none n d : full_rounds 0 n d [] d
| rounds_more k n d cs l d1 log d' :
    tick_round n d cs l d1 -> failures_in l = [] -> (tick_batch stp <= Z.of_nat (length cs))%Z ->
    full_rounds k (S n + length l) d1 log d' -> full_rounds (S k) n d (TxClaim cs :: l ++ log) d'.

Lemma Tick_rounds (fuel n : nat) (d d' : db) (r : option (option error)) :
  Tick fuel stp others locked clock n d = (d', r) ->
  exists k log d1 last, full_rounds k n d log d1 /\ tick_end (n + length log) d1 last d' r /\ (r = None -> k = fuel).
Proof.
  revert n d. induction fuel as [|fuel IH]; intros n d; cbn [Tick].
  - intros [= <- <-]. exists 0, [], d, []. split_and!; [constructor|constructor|done].
  - destruct (claim _ _ _ _ _) as [d1 [cs [e|]]] eqn:Hc.
    { intros [= <- <-]. exists 0, [], d, []. split_and!; [constructor| |done].
      simpl. rewrite Nat.add_0_r. by eapply end_claim. }
    destruct (advance_all _ _ _ _ _ _ _) as [n' [d2 err]] eqn:Ha.
    apply advance_all_log in Ha as (l & Hl & -> & Hcl & Hb & Had & ->).
    assert (Hround : tick_round n d cs l d2) by (split_and!; [by eapply log_claim|done..]).
    destruct (failures_in l) as [|[c e] rest] eqn:Hf.
    + destruct (Z.ltb_spec (Z.of_nat (length cs)) (tick_batch stp)) as [Hlt|Hge].
      * intros [= <- <-]. exists 0, [], d, (TxClaim cs :: l). split_and!; [constructor| |done].
        simpl. rewrite Nat.add_0_r. by constructor.
      * intros Hr. apply IH in Hr as (k & log & d3 & last & Hk & Hend & Hfuel).
        exists (S k), (TxClaim cs :: l ++ log), d3, last. split_and!; [by econstructor| |naive_solver].
        cbn [length]. rewrite length_app. by replace (n + S (length l + length log)) with (S n + length l + length log) by lia.
    + intros [= <- <-]. exists 0, [], d, (TxClaim cs :: l). split_and!; [constructor| |done].
      simpl. rewrite Nat.add_0_r. by econstructor.
Qed.

(** Whatever is advanced was claimed before, and everything claimed is advanced. *)
Definition in_order (log : list tick_tx) : Prop :=
  advanced_in log = claimed_in log /\ forall l1 l2, log = l1 ++ l2 -> advanced_in l1 ⊆ claimed_in l1.

Lemma in_order_app (l l' : list tick_tx) : in_order l -> in_order l' -> in_order (l ++ l').
Proof.
  intros [Heq Hp] [Heq' Hp']. split.
  - unfold advanced_in, claimed_in in *. rewrite !flat_map_app. by f_equal.
  - intros l1 l2 Hl. apply app_eq_app in Hl as (k & [[-> ->]|[-> ->]]); [by apply (Hp l1 k)|].
    unfold advanced_in, claimed_in in *. rewrite !flat_map_app. intros x Hx.
    apply elem_of_app in Hx as [Hx|Hx]; apply elem_of_app; [left; by rewrite <- Heq|right; by apply (Hp' k l2)].
Qed.

Lemma in_order_round (n : nat) (d d' : db) (cs : list claimedEnrollment) (l : list tick_tx) :
  tick_round n d cs l d' -> in_order (TxClaim cs :: l).
Proof.
  intros (_ & _ & Hc & Ha). split; [simpl; by rewrite Hc, Ha, app_nil_r|].
  intros [|x l1] l2; [done|]. cbn [app]. intros [= <- Hl]. simpl. intros x Hx. apply elem_of_app. left.
  rewrite <- Ha, Hl. unfold advanced_in in *. rewrite flat_map_app. apply elem_of_app. by left.
Qed.

Lemma full_rounds_log (k n : nat) (d d' : db) (log : list tick_tx) :
  full_rounds k n d log d' ->
  tick_log n d log d' /\ in_order log /\ failures_in log = [] /\ length (batches_in log) = k /\
  Forall (fun b => (tick_batch stp <= Z.of_nat b)%Z) (batches_in log).
Proof.
  induction 1 as [n d|k n d cs l d1 log d' Hround Hf Hfull _ (Hlog & Hord & Hnf & Hk & Hall)].
  { split_and!; try done; [constructor|]. split; [done|]. intros l1 l2 Hl. by destruct l1. }
  pose proof (in_order_round _ _ _ _ _ Hround) as Hord1. destruct Hround as (Hl & Hb & _ & _).
  split_and!.
  - change (TxClaim cs :: l ++ log) with ((TxClaim cs :: l) ++ log). eapply tick_log_app; [done|]. cbn [length].
    by replace (n + S (length l)) with (S n + length l) by lia.
  - exact (in_order_app (TxClaim cs :: l) log Hord1 Hord).
  - unfold failures_in in *. simpl. rewrite flat_map_app, Hf. exact Hnf.
  - unfold batches_in in *. simpl. rewrite flat_map_app, Hb. simpl. by rewrite Hk.
  - unfold batches_in in *. simpl. rewrite flat_map_app, Hb. simpl. by constructor.
Qed.

(** The first failure of a log. *)
Lemma first_failure (l : list tick_tx) (c : claimedEnrollment) (e : error) (rest : list (claimedEnrollment * error)) :
  failures_in l = (c, e) :: rest ->
  is_lost_fence e = false /\ exists l1 l2, l = l1 ++ TxAdvance c (Some e) :: l2 /\ failures_in l1 = [].
Proof.
  induction l as [|x l IH]; [done|]. simpl. destruct x as [cs|c0 [e0|]].
  - intros Hf. destruct (IH Hf) as (Hl & l1 & l2 & -> & Hn). split; [done|]. by exists (TxClaim cs :: l1), l2.
  - destruct (is_lost_fence e0) eqn:Hl0; simpl.
    + intros Hf. destruct (IH Hf) as (Hl & l1 & l2 & -> & Hn). split; [done|].
      exists (TxAdvance c0 (Some e0) :: l1), l2. simpl. by rewrite Hl0.
    + intros [= -> -> _]. split; [done|]. by exists [], l.
  - intros Hf. destruct (IH Hf) as (Hl & l1 & l2 & -> & Hn). split; [done|]. by exists (TxAdvance c0 None :: l1), l2.
Qed.

(** A claim that took less than the batch took all that was due. *)
Lemma short_claim_all (n : nat) (d d' : db) (cs : list claimedEnrollment) (id : uuid) (e : enrollment_row) :
  db_ok d -> (stp_Batch stp <= 1000)%Z ->
  claim (locked n) (clock n) (tick_batch stp) (tick_lease stp) d = (d', (cs, None)) ->
  (Z.of_nat (length cs) < tick_batch stp)%Z ->
  db_enrollments d !! id = Some e -> due d (locked n) (pg_time (clock n)) id e = true ->
  exists c, c ∈ cs /\ claim_id c = id.
Proof.
  intros Hok Hb Hc Hlt He Hdue.
  destruct (claim_takes_due (locked n) (clock n) (tick_batch stp) (tick_lease stp) d Hok)
    as (cs' & Hc' & _ & _ & Hall). rewrite Hc' in Hc. injection Hc as _ ->.
  destruct (Hall id e He Hdue) as [Hin|[Hfull _]].
  - apply list_elem_of_fmap in Hin as (c & -> & Hin). by exists c.
  - unfold claim_limit, tick_batch in *. destruct (Z.leb_spec (stp_Batch stp) 0); lia.
Qed.

(** From here on the stepper runs in the system, among others that do. *)
Context (Hdeps : stp_Deps stp = AutomationPorts domain) (Hothers : others_run).

Lemma in_order_run (n : nat) (s : sys) (log : list tick_tx) (d : db) :
  sys_ok s -> tick_log n (sys_db s) log d -> in_order log ->
  exists s', rtc (sys_step domain) s s' /\ sys_db s' = d.
Proof.
  intros Hok Hlog [_ Hp]. destruct (tick_log_run n s log d Hdeps Hothers Hlog) as (s' & Hs & Hd & _); [|by exists s'].
  intros l1 l2 Hl x Hx. apply elem_of_app. right. by apply (Hp l1 l2 Hl).
Qed.

Lemma others_ok (n : nat) (s : sys) : sys_ok s -> db_ok (others n (sys_db s)).
Proof.
  intros Hok. destruct (Hothers n s) as (s' & Hs & <-). by apply sys_db_ok, (reachable_ok domain s).
Qed.

(** How the tick's answer tells what it did: see [Tick_correct]. *)
Definition tick_answer (fuel : nat) (d : db) (log : list tick_tx) (r : option (option error)) : Prop :=
  match r with
  | Some None =>
      failures_in log = [] /\
      exists l1 cs l2 d1, log = l1 ++ TxClaim cs :: l2 /\ tick_log 0 d l1 d1 /\
        forall id e, db_enrollments (others (length l1) d1) !! id = Some e ->
          due (others (length l1) d1) (locked (length l1)) (pg_time (clock (length l1))) id e = true ->
          exists c err, claim_id c = id /\ TxAdvance c err ∈ l2
  | Some (Some err) =>
      exists l1 c e l2, log = l1 ++ TxAdvance c (Some e) :: l2 /\ failures_in l1 = [] /\
        is_lost_fence e = false /\ err = advance_error c e /\ batches_in l2 = []
  | None =>
      failures_in log = [] /\ length (batches_in log) = fuel /\
      Forall (fun b => (tick_batch stp <= Z.of_nat b)%Z) (batches_in log)
  end.

Lemma advanced_mem (c : claimedEnrollment) (l : list tick_tx) :
  c ∈ advanced_in l -> exists err, TxAdvance c err ∈ l.
Proof.
  unfold advanced_in. rewrite list_elem_of_In, in_flat_map. intros (x & Hx & Hc). apply list_elem_of_In in Hx.
  destruct x as [cs|c0 err]; [done|]. simpl in Hc. destruct Hc as [->|[]]. by exists err.
Qed.

(** The ways a tick ends, in terms of its whole log. *)
Lemma tick_end_answer (k : nat) (s : sys) (log last : list tick_tx) (d1 d' : db) (r : option (option error)) :
  sys_ok s -> (stp_Batch stp <= 1000)%Z -> full_rounds k 0 (sys_db s) log d1 ->
  tick_end (length log) d1 last d' r ->
  tick_log 0 (sys_db s) (log ++ last) d' /\ in_order (log ++ last) /\ tick_answer k (sys_db s) (log ++ last) r.
Proof.
  intros Hok Hb Hfull Hend. destruct (full_rounds_log _ _ _ _ _ Hfull) as (Hlog & Hord & Hnf & Hk & Hall).
  destruct (in_order_run _ _ _ _ Hok Hlog Hord) as (s1 & Hs1 & <-).
  assert (Hok1 : db_ok (others (length log) (sys_db s1))) by (apply others_ok; by apply (reachable_ok domain s)).
  destruct Hend as [|d' cs e Hc|cs l d' c e rest Hround Hf|cs l d' Hround Hf Hlt].
  - rewrite app_nil_r. by split_and!.
  - destruct (claim_takes_due (locked (length log)) (clock (length log)) (tick_batch stp) (tick_lease stp) _ Hok1)
      as (cs' & Hc' & _). rewrite Hc' in Hc. done.
  - split_and!; [eapply tick_log_app; [done|apply Hround]|by eapply in_order_app, in_order_round|].
    apply first_failure in Hf as (Hl & l1 & l2 & -> & Hn). exists (log ++ TxClaim cs :: l1), c, e, l2. split_and!; try done.
    + by rewrite <- app_assoc.
    + unfold failures_in in *. rewrite flat_map_app, Hnf. exact Hn.
    + destruct Hround as (_ & Hbt & _). unfold batches_in in *. rewrite flat_map_app in Hbt.
      by apply app_eq_nil in Hbt as [_ Hbt].
  - split_and!; [eapply tick_log_app; [done|apply Hround]|by eapply in_order_app, in_order_round|].
    split; [unfold failures_in in *; rewrite flat_map_app, Hnf; exact Hf|].
    exists log, cs, l, (sys_db s1). split_and!; try done. intros id e He Hdue.
    destruct Hround as (Hr & _ & _ & Had). inversion Hr as [|? ? ? d2 ? ? Hc _|]; subst.
    destruct (short_claim_all _ _ _ _ _ _ Hok1 Hb Hc Hlt He Hdue) as (c & Hin & <-).
    destruct (advanced_mem c l Hin) as [err Herr]. by exists c, err.
Qed.

End Tick.

#[local] Existing Instances demo_unicode demo_uuid demo_zones demo_urls demo_hash demo_authz demo_events.

(** Another operator pauses the automation between the claim and the advance, so
    the advance loses its fence and the tick ends without an error. *)
Definition demo_others (n : nat) (d : db) : db := if Nat.eqb n 1 then (Pause 7 1 0 (2 * Second) d).1 else d.
Definition demo_clock (n : nat) : time := ((Z.of_nat n + 1) * Second)%Z.

Lemma demo_others_run : others_run "mail.example.com" demo_others.
Proof.
  intros n s. unfold demo_others. destruct (Nat.eqb n 1).
  - exists {| sys_db := (Pause 7 1 0 (2 * Second) (sys_db s)).1; sys_claims := sys_claims s |}.
    split; [|done]. apply rtc_once, step_api, api_pause.
  - by exists s.
Qed.

