(* ===== verification/AutoEventFacts.v ===== *)
(** * Properties of events, triggers and the outbox

    Ingestion is idempotent under an idempotency key; the trigger subscriber may
    be handed the same event again, as the outbox delivers at least once; the
    outbox worker keeps or discards the writes of an event as a whole and gives
    every event a bounded number of attempts. *)

From S2P Require Import Prelude GoStrings GoTime GoJson AutoGraph Errors AutoEngine Concrete AutoGraphFacts.
From S2P Require Import AutoEngineFacts AutoStore AutoStepper AutoService AutoStoreFacts AutoEvents AutoDemo.
From S2P Require Import AutoSystem.
From stdpp Require Import sorting.

Section EventFacts.
Context `{UnicodeTables, UUIDLib, ZoneDB, UUIDHash, Authz, EventLib}.

(** ** Ingestion *)

Lemma find_app {A : Type} (p : A -> bool) (l k : list A) :
  List.find p (l ++ k) = match List.find p l with Some x => Some x | None => List.find p k end.
Proof. induction l as [|x l IH]; simpl; [done|]. by destruct (p x). Qed.

(** The answer the ingestion function gives for a request whose key is taken. *)
Lemma ingest_known (business root l k : uuid) (f : string) (name email : string) (subscriber : option uuid)
    (occurred : option time) (properties : json) (key : string) (now : time) (d d' : db) (e e' : event_row)
    (created : bool) :
  List.find (same_request business (Some l) (Some k) key) (db_events d) = Some e ->
  automation_ingest_event business root (Some l) (Some k) (Some f) name email subscriber occurred properties
    (Some key) now d = Ok (d', Some (e', created)) ->
  d' = d /\ e' = e /\ created = false.
Proof.
  intros Hfind. unfold automation_ingest_event. destruct (_ || _); [done|].
  unfold ingress_scope. destruct (_ && _ && _); [|done]. destruct (negb _); [done|].
  destruct (event_target _ _ _ _ _ _) as [[li a]|]; [|done].
  destruct (match occurred with Some t => _ | None => false end); [done|].
  rewrite Hfind. destruct (N.eqb _ _); [|done]. by intros [= <- <- <-].
Qed.

(** Repeating an ingestion that returned a row returns the same row. *)
Lemma ingest_again (business root l k : uuid) (f : string) (name email : string) (subscriber : option uuid)
    (occurred : option time) (properties : json) (key : string) (now now' : time) (d d' : db) (e : event_row)
    (created : bool) :
  (now <= now')%Z ->
  automation_ingest_event business root (Some l) (Some k) (Some f) name email subscriber occurred properties
    (Some key) now d = Ok (d', Some (e, created)) ->
  automation_ingest_event business root (Some l) (Some k) (Some f) name email subscriber occurred properties
    (Some key) now' d' = Ok (d', Some (e, false)) /\
  List.find (same_request business (Some l) (Some k) key) (db_events d') = Some e /\
  (created = true -> ev_fingerprint e = Some f).
Proof.
  intros Hle Hin. unfold automation_ingest_event in Hin.
  destruct (negb (root_write_allowed d root) || _) eqn:Hop; [done|].
  unfold ingress_scope in Hin. destruct (_ && _ && _) eqn:Hscope; [|done].
  destruct (negb (list_operational d l business root)) eqn:Hlist; [done|].
  destruct (event_target _ _ _ _ _ _) as [[li a]|] eqn:Htarget; [|done].
  destruct (match occurred with Some t => _ | None => false end) eqn:Hocc; [done|].
  assert (Hocc' : match occurred with Some t => (now' + 5 * Minute <? t)%Z | None => false end = false).
  { destruct occurred; [|done]. apply Z.ltb_ge in Hocc. apply Z.ltb_ge. lia. }
  destruct (List.find (same_request business (Some l) (Some k) key) (db_events d)) as [e0|] eqn:Hfind.
  - destruct (N.eqb (ev_root e0) root) eqn:Hroot; [|done]. injection Hin as <- <- <-.
    unfold automation_ingest_event, ingress_scope.
    rewrite Hop, Hscope, Hlist, Htarget, Hocc', Hfind, Hroot. by split_and!.
  - injection Hin as <- <- <-. set (row := {| ev_id := _ |}). set (d' := set_events _ _ _).
    assert (Hnew : List.find (same_request business (Some l) (Some k) key) (db_events d') = Some row).
    { subst d'. simpl. rewrite find_app, Hfind. simpl. unfold same_request. simpl. rewrite N.eqb_refl.
      by rewrite !bool_decide_eq_true_2 by done. }
    unfold automation_ingest_event, ingress_scope.
    change (root_write_allowed d' root) with (root_write_allowed d root).
    change (business_operational d' business root) with (business_operational d business root).
    change (list_operational d' l business root) with (list_operational d l business root).
    change (known_key d' k l business root) with (known_key d k l business root).
    change (event_target d') with (event_target d).
    rewrite Hop, Hscope, Hlist, Htarget, Hocc', Hnew. simpl. rewrite N.eqb_refl. by split_and!.
Qed.

(** A request that was in time stays acceptable. *)
Lemma prepareEvent_later (body : EventInput) (clock clock' : time) (p : EventInput * json) :
  (clock <= clock')%Z -> prepareEvent body clock = Ok p -> prepareEvent body clock' = Ok p.
Proof.
  intros Hle Hp. unfold prepareEvent in *. destruct (_ || _); [done|]. destruct (Bool.eqb _ _); [done|].
  apply bind_ok in Hp as (email & Hemail & Hp). rewrite Hemail. simpl.
  apply bind_ok in Hp as (key & Hkey & Hp). rewrite Hkey. simpl.
  destruct (match ein_OccurredAt body with Some t => _ | None => false end) eqn:Hocc; [done|].
  assert (Hocc' : match ein_OccurredAt body with
                  | Some t => (clock' + maxEventFutureSkew <? t)%Z | None => false end = false).
  { destruct (ein_OccurredAt body); [|done]. apply Z.ltb_ge in Hocc. apply Z.ltb_ge. lia. }
  by rewrite Hocc'.
Qed.

Lemma prepareEvent_key (body input : EventInput) (properties : json) (clock : time) :
  prepareEvent body clock = Ok (input, properties) ->
  ein_IdempotencyKey input = option_map TrimSpace (ein_IdempotencyKey body).
Proof.
  unfold prepareEvent. destruct (_ || _); [done|]. destruct (Bool.eqb _ _); [done|]. intros Hp.
  apply bind_ok in Hp as (email & Hemail & Hp). apply bind_ok in Hp as (key & Hkey & Hp).
  destruct (match ein_OccurredAt body with Some t => _ | None => false end); [done|].
  destruct (Z.ltb _ _); [done|]. injection Hp as <- _. simpl.
  destruct (ein_IdempotencyKey body) as [k|]; [|by injection Hkey as <-]. cbv zeta in Hkey.
  destruct (_ || _); [done|]. by injection Hkey as <-.
Qed.

Lemma s2s_request_key (business root listID : uuid) (body input : EventInput) (properties : json) (clock : time)
    (d : db) :
  s2s_request business root listID body clock d = Ok (input, properties) ->
  ein_IdempotencyKey input = option_map TrimSpace (ein_IdempotencyKey body) /\ ein_IdempotencyKey input <> None.
Proof.
  unfold s2s_request. intros Hr. apply bind_ok in Hr as ([input0 properties0] & Hp & Hr).
  case_bool_decide as Hn; [done|]. rewrite <- (prepareEvent_key _ _ _ _ Hp).
  destruct (ein_SubscriberID input0) as [sid|]; [|by injection Hr as <- _].
  destruct (automation_resolve_event_subscriber _ _ _ _ _); [|done]. by injection Hr as <- _.
Qed.

(** Events and the outbox do not matter to the checks. *)
Lemma s2s_request_later (business root listID : uuid) (body : EventInput) (clock clock' : time) (d d' : db)
    (r : EventInput * json) :
  (clock <= clock')%Z -> (d' = d \/ exists l o, d' = set_events l o d) ->
  s2s_request business root listID body clock d = Ok r -> s2s_request business root listID body clock' d' = Ok r.
Proof.
  intros Hle Hd Hr. unfold s2s_request in *. apply bind_ok in Hr as ([input properties] & Hp & Hr).
  rewrite (prepareEvent_later _ _ _ _ Hle Hp). simpl. case_bool_decide; [done|].
  by destruct Hd as [->|(l & o & ->)].
Qed.

Lemma ingest_db (business root : uuid) (listID keyID : option uuid) (fingerprint : option string)
    (name email : string) (subscriber : option uuid) (occurred : option time) (properties : json)
    (idempotency : option string) (now : time) (d d' : db) (out : option (event_row * bool)) :
  automation_ingest_event business root listID keyID fingerprint name email subscriber occurred properties
    idempotency now d = Ok (d', out) -> d' = d \/ exists l o, d' = set_events l o d.
Proof.
  unfold automation_ingest_event. destruct (_ || _); [intros [= <- _]; by left|].
  destruct (ingress_scope _ _ _ _ _ _ _) as [ingress|]; [|intros [= <- _]; by left].
  destruct (match listID with Some l => _ | None => false end); [intros [= <- _]; by left|].
  destruct (event_target _ _ _ _ _ _) as [[l a]|]; [|intros [= <- _]; by left].
  destruct (match occurred with Some t => _ | None => false end); [done|].
  destruct (match idempotency with Some key => _ | None => None end) as [e|];
    intros [= <- _]; [by left|right; eauto].
Qed.

(** An accepted request, down to the ingestion function. *)
Lemma IngestS2SEvent_inv (business root listID keyID : uuid) (body : EventInput) (clock now : time) (d d' : db)
    (out : EventView) (created : bool) :
  IngestS2SEvent business root listID keyID body clock now d = Ok (d', (out, created)) ->
  exists input properties key e,
    s2s_request business root listID body clock d = Ok (input, properties) /\
    ein_IdempotencyKey input = Some key /\ option_map TrimSpace (ein_IdempotencyKey body) = Some key /\
    automation_ingest_event business root (Some listID) (Some keyID)
      (Some (eventRequestFingerprint input properties)) (ein_Name input) (default "" (ein_Email input))
      (ein_SubscriberID input) (option_map pg_time (ein_OccurredAt input)) properties (Some key) now d
      = Ok (d', Some (e, created)) /\
    out = event_view e created /\ ev_fingerprint e = Some (eventRequestFingerprint input properties).
Proof.
  unfold IngestS2SEvent. intros Hr. apply bind_ok in Hr as ([input properties] & Hreq & Hr). cbv beta zeta in Hr.
  destruct (s2s_request_key _ _ _ _ _ _ _ _ Hreq) as [Hkey Hn].
  destruct (ein_IdempotencyKey input) as [key|] eqn:Hk; [|done].
  unfold ingestEventTx in Hr. rewrite Hk in Hr.
  destruct (automation_ingest_event _ _ _ _ _ _ _ _ _ _ _ _ _) as [[d1 [[e c]|]]|] eqn:Hin; simpl in Hr; [|done|done].
  destruct (String.eqb_spec (default "" (ev_fingerprint e)) (eventRequestFingerprint input properties)) as [Hf|]; [|done].
  injection Hr as <- <- <-. exists input, properties, key, e. split_and!; try done.
  destruct (ev_fingerprint e) as [f|]; [by f_equal|]. simpl in Hf.
  pose proof (sha256_length (json_Marshal (JObj
    [("name", JStr (ein_Name input)); ("email", opt_json JStr (ein_Email input));
     ("subscriber_id", opt_json (fun u => JStr (uuid_String u)) (ein_SubscriberID input));
     ("occurred_at", opt_json (fun t => JStr (time_RFC3339 t)) (ein_OccurredAt input));
     ("idempotency_key", opt_json JStr (ein_IdempotencyKey input));
     ("properties", properties)]))) as Hlen.
  unfold eventRequestFingerprint in Hf. by rewrite <- Hf in Hlen.
Qed.

(** A signed event request that was accepted can be repeated: the same
    request, sent again to the resulting database, is accepted, returns the same
    event with [created] false, and changes nothing. *)
Theorem s2s_replay (business root listID keyID : uuid) (body : EventInput) (clock clock' now now' : time)
    (d d1 : db) (out : EventView) (created : bool) :
  (clock <= clock')%Z -> (now <= now')%Z ->
  IngestS2SEvent business root listID keyID body clock now d = Ok (d1, (out, created)) ->
  exists e, out = event_view e created /\
    IngestS2SEvent business root listID keyID body clock' now' d1 = Ok (d1, (event_view e false, false)).
Proof.
  intros Hclock Hnow Hr.
  apply IngestS2SEvent_inv in Hr as (input & properties & key & e & Hreq & Hk & _ & Hin & -> & Hf).
  exists e. split; [done|]. unfold IngestS2SEvent.
  rewrite (s2s_request_later _ _ _ _ _ _ _ _ _ Hclock (ingest_db _ _ _ _ _ _ _ _ _ _ _ _ _ _ _ Hin) Hreq).
  simpl. unfold ingestEventTx. rewrite Hk.
  destruct (ingest_again _ _ _ _ _ _ _ _ _ _ _ _ _ _ _ _ _ Hnow Hin) as (Hagain & _ & _).
  rewrite Hagain. simpl. rewrite Hf. simpl. by rewrite String.eqb_refl.
Qed.

(** An idempotency key names one event for ever: whatever happened since,
    a request accepted later under the same list, ingress key and idempotency
    key has the same fingerprint, returns the event the first one returned and
    changes nothing; a request with another fingerprint is refused. *)
Theorem s2s_key_names_one_event (business root listID keyID : uuid) (body body' : EventInput)
    (clock clock' now now' : time) (d d1 d2 d3 : db) (out out' : EventView) (created created' : bool) :
  IngestS2SEvent business root listID keyID body clock now d = Ok (d1, (out, created)) ->
  db_events d1 `prefix_of` db_events d2 ->
  option_map TrimSpace (ein_IdempotencyKey body') = option_map TrimSpace (ein_IdempotencyKey body) ->
  IngestS2SEvent business root listID keyID body' clock' now' d2 = Ok (d3, (out', created')) ->
  d3 = d2 /\ created' = false /\ evv_ID out' = evv_ID out /\
  exists input properties input' properties',
    s2s_request business root listID body clock d = Ok (input, properties) /\
    s2s_request business root listID body' clock' d2 = Ok (input', properties') /\
    eventRequestFingerprint input' properties' = eventRequestFingerprint input properties.
Proof.
  intros Hr [more Hmore] Hkeys Hr'.
  apply IngestS2SEvent_inv in Hr as (input & properties & key & e & Hreq & _ & Hk & Hin & -> & Hf).
  apply IngestS2SEvent_inv in Hr' as (input' & properties' & key' & e' & Hreq' & _ & Hk' & Hin' & -> & Hf').
  destruct (ingest_again _ _ _ _ _ _ _ _ _ _ _ _ _ _ _ _ _ (Z.le_refl now) Hin) as (_ & Hfind & _).
  assert (key' = key) as -> by congruence.
  assert (Hfind' : List.find (same_request business (Some listID) (Some keyID) key) (db_events d2) = Some e)
    by (by rewrite Hmore, find_app, Hfind).
  destruct (ingest_known _ _ _ _ _ _ _ _ _ _ _ _ _ _ _ _ _ Hfind' Hin') as (-> & -> & ->).
  split_and!; try done. exists input, properties, input', properties'. split_and!; try done. congruence.
Qed.

(** ** The trigger subscriber *)

Lemma conflict_mono (m m' : gmap uuid enrollment_row) (r : enrollment_ref) :
  m ⊆ m' -> enrollment_conflict m r = true -> enrollment_conflict m' r = true.
Proof.
  unfold enrollment_conflict. rewrite !existsb_exists. intros Hsub ([id e] & Hin & Hc). exists (id, e).
  split; [|done]. apply list_elem_of_In, elem_of_map_to_list. eapply lookup_weaken; [|exact Hsub].
  by apply elem_of_map_to_list, list_elem_of_In.
Qed.

(** A conflict depends on the automation, the subscriber and the event only. *)
Lemma conflict_key (m : gmap uuid enrollment_row) (r r' : enrollment_ref) :
  er_automation r = er_automation r' -> er_subscriber r = er_subscriber r' ->
  er_source_event r = er_source_event r' -> enrollment_conflict m r = enrollment_conflict m r'.
Proof. intros Ha Hs He. unfold enrollment_conflict. by rewrite Ha, Hs, He. Qed.

Lemma insert_enrollment_grows (now : time) (m : gmap uuid enrollment_row) (x : enrollment_ref * string) :
  m ⊆ insert_enrollment now m x.
Proof.
  unfold insert_enrollment. destruct (enrollment_conflict m x.1); [done|]. apply insert_subseteq, fresh_none.
Qed.

Lemma insert_enrollment_settles (now : time) (m : gmap uuid enrollment_row) (x : enrollment_ref * string) :
  enrollment_conflict (insert_enrollment now m x) x.1 = true.
Proof.
  unfold insert_enrollment. destruct (enrollment_conflict m x.1) eqn:Hc; [done|].
  apply existsb_exists. exists (fresh (dom m), new_enrollment x.1 x.2 now). split.
  - apply list_elem_of_In, elem_of_map_to_list, lookup_insert_eq.
  - simpl. by rewrite !N.eqb_refl.
Qed.

Lemma insert_all_grows (now : time) (rows : list (enrollment_ref * string)) (m : gmap uuid enrollment_row) :
  m ⊆ fold_left (insert_enrollment now) rows m.
Proof.
  revert m. induction rows as [|x rows IH]; intros m; simpl; [done|].
  transitivity (insert_enrollment now m x); [apply insert_enrollment_grows|apply IH].
Qed.

Lemma insert_all_settles (now : time) (rows : list (enrollment_ref * string)) (m : gmap uuid enrollment_row) :
  Forall (fun x => enrollment_conflict (fold_left (insert_enrollment now) rows m) x.1 = true) rows.
Proof.
  revert m. induction rows as [|x rows IH]; intros m; simpl; [constructor|].
  constructor; [|apply IH]. eapply conflict_mono; [apply insert_all_grows|]. apply insert_enrollment_settles.
Qed.

Lemma insert_all_blocked (now : time) (rows : list (enrollment_ref * string)) (m : gmap uuid enrollment_row) :
  Forall (fun x => enrollment_conflict m x.1 = true) rows -> fold_left (insert_enrollment now) rows m = m.
Proof.
  induction 1 as [|x rows Hx _ IH]; simpl; [done|]. unfold insert_enrollment at 2. by rewrite Hx.
Qed.

(** With more enrollments, a trigger matches no more than before. *)
Lemma trigger_matches_weaken (d : db) (m m' : gmap uuid enrollment_row) (business root : uuid) (kind ref : string)
    (subscriber : uuid) (s : subscriber_row) (event : uuid) (now now' : time) (a : uuid * automation_row)
    (x : enrollment_ref * string) :
  m ⊆ m' ->
  x ∈ trigger_matches (set_enrollments m' d) business root kind ref subscriber s event now' a ->
  exists y, y ∈ trigger_matches (set_enrollments m d) business root kind ref subscriber s event now a /\
    er_automation y.1 = er_automation x.1 /\ er_subscriber y.1 = er_subscriber x.1 /\
    er_source_event y.1 = er_source_event x.1.
Proof.
  intros Hsub. destruct a as [id a]. unfold trigger_matches. destruct (a_active_version a) as [vid|]; [|by intros ?%not_elem_of_nil].
  change (db_versions (set_enrollments m' d)) with (db_versions d).
  change (db_versions (set_enrollments m d)) with (db_versions d).
  destruct (db_versions d !! vid) as [v|]; [|by intros ?%not_elem_of_nil].
  destruct (trigger_node (v_graph v)) as [node|]; [|by intros ?%not_elem_of_nil].
  destruct (_ && _ && (a_allow_reenroll a || negb (enrolled_before (db_enrollments (set_enrollments m' d)) id subscriber)))
    eqn:Hc; [|by intros ?%not_elem_of_nil].
  intros Hx. apply list_elem_of_singleton in Hx as ->. apply andb_true_iff in Hc as [Hc Hre].
  assert (Hre' : a_allow_reenroll a || negb (enrolled_before (db_enrollments (set_enrollments m d)) id subscriber) = true).
  { apply orb_true_iff in Hre as [->|Hre]; [done|]. apply orb_true_iff. right.
    apply negb_true_iff in Hre. apply negb_true_iff. rewrite <- not_true_iff_false in *. intros Hb. apply Hre.
    unfold enrolled_before in *. rewrite existsb_exists in *. destruct Hb as ([i e] & Hin & Hb). exists (i, e).
    split; [|done]. apply list_elem_of_In, elem_of_map_to_list. eapply lookup_weaken; [|exact Hsub].
    by apply elem_of_map_to_list, list_elem_of_In. }
  change (business_operational (set_enrollments m' d)) with (business_operational d) in Hc.
  change (list_operational (set_enrollments m' d)) with (list_operational d) in Hc.
  change (business_operational (set_enrollments m d)) with (business_operational d).
  change (list_operational (set_enrollments m d)) with (list_operational d).
  rewrite Hc, Hre'. eexists. split; [by apply list_elem_of_singleton|done].
Qed.

Lemma set_enrollments_same (d : db) : set_enrollments (db_enrollments d) d = d.
Proof. by destruct d. Qed.

(** Enrolling adds rows; repeating it, with those rows or more, adds none. *)
Lemma enroll_for_trigger_again (business root : uuid) (kind ref : string) (subscriber event : uuid)
    (now : time) (d d' : db) (n : Z) :
  automation_enroll_for_trigger business root kind ref subscriber event now d = Ok (d', n) ->
  exists m, d' = set_enrollments m d /\ db_enrollments d ⊆ m /\
    forall m' now', m ⊆ m' ->
      automation_enroll_for_trigger business root kind ref subscriber event now' (set_enrollments m' d)
      = Ok (set_enrollments m' d, 0%Z).
Proof.
  intros Hr. unfold automation_enroll_for_trigger in Hr.
  destruct (root_write_allowed d root) eqn:Hw; cbn [negb] in Hr.
  - destruct (db_subscribers d !! subscriber) as [s|] eqn:Hs; [|done].
    destruct (N.eqb (s_business s) business && _ && _) eqn:Hc; [|done]. injection Hr as <- _.
    set (rows := flat_map _ _). eexists. split; [done|]. split; [apply insert_all_grows|].
    intros m' now' Hsub.
    assert (Hw' : root_write_allowed (set_enrollments m' d) root = true) by exact Hw.
    unfold automation_enroll_for_trigger. rewrite Hw'. cbn [negb].
    change (db_subscribers (set_enrollments m' d)) with (db_subscribers d). rewrite Hs, Hc.
    change (db_enrollments (set_enrollments m' d)) with m'.
    change (db_automations (set_enrollments m' d)) with (db_automations d).
    change (set_enrollments ?m (set_enrollments m' d)) with (set_enrollments m d).
    pose proof (insert_all_settles (pg_time now) rows (db_enrollments d)) as Hset. rewrite Forall_forall in Hset.
    rewrite (insert_all_blocked (pg_time now') _ m').
    + by rewrite Z.sub_diag.
    + apply Forall_forall. intros x Hx. apply list_elem_of_In, in_flat_map in Hx as (a & Ha & Hx).
      apply list_elem_of_In in Hx.
      apply (trigger_matches_weaken d (db_enrollments d) m' _ _ _ _ _ _ _ (pg_time now)) in Hx
        as (y & Hy & H1' & H2' & H3');
        [|transitivity (fold_left (insert_enrollment (pg_time now)) rows (db_enrollments d));
          [apply insert_all_grows|done]].
      rewrite <- (conflict_key m' _ _ H1' H2' H3'). eapply conflict_mono; [exact Hsub|]. apply Hset.
      apply list_elem_of_In, in_flat_map. exists a. split; [done|]. apply list_elem_of_In.
      by rewrite set_enrollments_same in Hy.
  - injection Hr as <- _. exists (db_enrollments d). split; [by rewrite set_enrollments_same|]. split; [done|].
    intros m' now' _.
    assert (Hw' : root_write_allowed (set_enrollments m' d) root = false) by exact Hw.
    unfold automation_enroll_for_trigger. by rewrite Hw'.
Qed.

(** An open transaction at this database and clock. *)
Definition at_db (d : db) (n : time) : tx := {| tx_db := d; tx_aborted := false; tx_now := n |}.

Lemma enrollForTrigger_again (business root : uuid) (kind ref : string) (subscriber event : uuid) (now n : time)
    (d : db) (t : tx) :
  enrollForTrigger business root kind ref subscriber event now (at_db d n) = (t, None) ->
  exists m, t = at_db (set_enrollments m d) n /\ db_enrollments d ⊆ m /\
    forall m' now' n', m ⊆ m' ->
      enrollForTrigger business root kind ref subscriber event now' (at_db (set_enrollments m' d) n')
      = (at_db (set_enrollments m' d) n', None).
Proof.
  unfold enrollForTrigger, exec, at_db. cbn [tx_aborted tx_db tx_now].
  destruct (automation_enroll_for_trigger business root kind ref subscriber event now d) as [[d' z]|] eqn:Hr; [|done].
  intros [= <-]. apply enroll_for_trigger_again in Hr as (m & -> & Hsub & Hagain).
  exists m. split_and!; [done|done|]. intros m' now' n' Hm. by rewrite Hagain.
Qed.

Lemma resolve_at (business : uuid) (email : string) (listID : uuid) (d : db) (n : time) :
  exists r, forall m n', ports_ResolveForList business email listID (at_db (set_enrollments m d) n')
                         = (at_db (set_enrollments m d) n', r).
Proof.
  destruct (mailing_automation_resolve_for_list d business email listID) as [id|] eqn:Hr.
  - exists (Ok id). intros m n'. unfold ports_ResolveForList, query, exec. simpl.
    change (mailing_automation_resolve_for_list (set_enrollments m d)) with (mailing_automation_resolve_for_list d).
    by rewrite Hr.
  - eexists. intros m n'. unfold ports_ResolveForList, query, exec. simpl.
    change (mailing_automation_resolve_for_list (set_enrollments m d)) with (mailing_automation_resolve_for_list d).
    by rewrite Hr.
Qed.

Lemma enroll_lists_again (p : customEventTriggerPayload) (event : uuid) (now n : time) (l : list uuid) (d : db) (t : tx) :
  enroll_lists AutomationPorts_subscribers p event now l (at_db d n) = (t, None) ->
  exists m, t = at_db (set_enrollments m d) n /\ db_enrollments d ⊆ m /\
    forall m' now' n', m ⊆ m' ->
      enroll_lists AutomationPorts_subscribers p event now' l (at_db (set_enrollments m' d) n')
      = (at_db (set_enrollments m' d) n', None).
Proof.
  revert d. induction l as [|listID l IH]; intros d; simpl.
  - intros [= <-]. exists (db_enrollments d). by rewrite set_enrollments_same.
  - destruct (resolve_at (cep_BusinessID p) (cep_Email p) listID d n) as [r Hr].
    pose proof (Hr (db_enrollments d) n) as Hr0. rewrite set_enrollments_same in Hr0. rewrite Hr0.
    destruct r as [sub|e].
    + destruct (enrollForTrigger _ _ _ _ _ _ _ _) as [t1 [e|]] eqn:He; [done|].
      apply enrollForTrigger_again in He as (m1 & -> & Hsub1 & Hagain1). intros Hrest.
      apply IH in Hrest as (m & -> & Hsub & Hagain). exists m. split_and!.
      * done.
      * etransitivity; [exact Hsub1|exact Hsub].
      * intros m' now' n' Hm. rewrite Hr, Hagain1; [|by transitivity m].
        change (set_enrollments m' d) with (set_enrollments m' (set_enrollments m1 d)). by apply Hagain.
    + destruct (is_invalid_reference e) eqn:Hinv; [|done]. intros Hrest.
      apply IH in Hrest as (m & -> & Hsub & Hagain). exists m. split_and!; [done|done|].
      intros m' now' n' Hm. rewrite Hr, Hinv. by apply Hagain.
Qed.

Lemma exit_again (subscriber root : uuid) (reason reason' : string) (n n' : time) (d : db) :
  automation_exit_for_subscriber subscriber root reason' n' (automation_exit_for_subscriber subscriber root reason n d)
  = automation_exit_for_subscriber subscriber root reason n d.
Proof.
  unfold automation_exit_for_subscriber. destruct (root_write_allowed d root) eqn:Hw; cbn [negb]; [|by rewrite Hw].
  set (m := update_active _ (exited_state (text_or reason _ _) n) _).
  assert (Hw' : root_write_allowed (set_enrollments m d) root = true) by exact Hw. rewrite Hw'. cbn [negb].
  change (db_enrollments (set_enrollments m d)) with m.
  change (set_enrollments ?a (set_enrollments m d)) with (set_enrollments a d). f_equal.
  apply map_eq. intros id. rewrite update_active_lookup. subst m. rewrite update_active_lookup.
  destruct (db_enrollments d !! id) as [e|]; [|done]. f_equal.
  destruct (N.eqb (er_subscriber (e_ref e)) subscriber && _) eqn:Hp; simpl; [|by rewrite Hp].
  case_bool_decide as Ha; simpl; rewrite Hp; simpl.
  - done.
  - by rewrite bool_decide_eq_false_2.
Qed.

Definition wired (now : time) : TriggerSubscriber :=
  {| trg_Subscribers := Some AutomationPorts_subscribers; trg_Now := now |}.

(** The trigger subscriber tolerates redelivery: when it has handled an
    event without error, handling the same event again, at any later time of its
    clocks, succeeds and changes nothing: nobody is enrolled or exited twice. *)
Theorem Handle_idempotent (event : Event) (now now' n n' : time) (d : db) (t : tx) :
  Handle (wired now) event (at_db d n) = (t, None) ->
  Handle (wired now') event (at_db (tx_db t) n') = (at_db (tx_db t) n', None).
Proof.
  unfold Handle. destruct (_ || _).
  - unfold handleSubscriber. destruct (Unmarshal _ _ _) as [p|]; [|done]. destruct (_ || _); [done|].
    assert (Henroll : forall kind ref,
      enrollForTrigger (stp_BusinessID p) (stp_TenantRootID p) kind ref (stp_SubscriberID p) (evt_ID event)
        (trg_Now (wired now)) (at_db d n) = (t, None) ->
      enrollForTrigger (stp_BusinessID p) (stp_TenantRootID p) kind ref (stp_SubscriberID p) (evt_ID event)
        (trg_Now (wired now')) (at_db (tx_db t) n') = (at_db (tx_db t) n', None)).
    { intros kind ref He. apply enrollForTrigger_again in He as (m & -> & _ & Hagain). by apply Hagain. }
    destruct (String.eqb _ _).
    + destruct (String.eqb _ _); [done|]. unfold exec, at_db. simpl. intros [= <-]. simpl.
      by rewrite exit_again.
    + destruct (String.eqb _ _); [|apply Henroll]. destruct (String.eqb _ _); [done|apply Henroll].
  - destruct (String.eqb _ _); [|done]. unfold handleCustomEvent. cbn [trg_Subscribers wired].
    destruct (Unmarshal _ _ _) as [p|]; [|done]. destruct (_ || _); [done|].
    unfold query, exec at 1. cbn [at_db tx_aborted tx_db tx_now]. fold (at_db d n). intros Hl.
    apply enroll_lists_again in Hl as (m & -> & _ & Hagain). unfold exec. cbn [at_db tx_aborted tx_db tx_now].
    change (automation_event_trigger_lists (set_enrollments m d)) with (automation_event_trigger_lists d).
    by apply Hagain.
Qed.

(** ** The outbox worker *)

(** What the worker asks of a handler: it adds outbox rows but changes none, and
    stays in its transaction. *)
Class OutboxHandler (h : Handler) : Prop := {
  handler_rows : forall e t id r, db_outbox (tx_db t) !! id = Some r -> db_outbox (tx_db (h e t).1) !! id = Some r;
  handler_now : forall e t, tx_now (h e t).1 = tx_now t
}.

Definition outbox_bus (b : Bus) : Prop := forall topic, Forall OutboxHandler (b topic).

Definition rows_kept (t t' : tx) : Prop :=
  tx_now t' = tx_now t /\
  forall id r, db_outbox (tx_db t) !! id = Some r -> db_outbox (tx_db t') !! id = Some r.

Lemma rows_kept_refl (t : tx) : rows_kept t t.
Proof. by split. Qed.

(** *** What becomes of an event

    Stated on the handlers themselves: either all of those subscribed to its
    topic succeed, one after the other on what the earlier ones wrote, or there
    is a first one that fails. *)

Inductive handled (e : Event) : list Handler -> tx -> tx -> Prop :=
| handled_none t : handled e [] t t
| handled_next h hs t t1 t' : h e t = (t1, None) -> handled e hs t1 t' -> handled e (h :: hs) t t'.

Definition refused (e : Event) (hs : list Handler) (t : tx) : Prop :=
  exists pre h post t1 t2 err, hs = pre ++ h :: post /\ handled e pre t t1 /\ h e t1 = (t2, Some err).

(** The handlers returned no error, but left the transaction aborted: one of them
    swallowed an error of the database. *)
Definition swallowed (e : Event) (hs : list Handler) (t : tx) : Prop :=
  exists t', handled e hs t t' /\ tx_aborted t' = true.

Inductive verdict := Delivered | Retried | Dropped.

(** The row of a settled event: a retry is one attempt more, after 2 to 256 seconds. *)
Definition verdict_row (v : verdict) (now : time) (attempts : Z) (r : outbox_row) : outbox_row :=
  match v with
  | Retried =>
      {| ob_root := ob_root r; ob_topic := ob_topic r; ob_payload := ob_payload r;
         ob_attempts := (ob_attempts r + 1)%Z;
         ob_available_at := (now + 2 ^ Z.min (attempts + 1) 8 * Second)%Z; ob_processed_at := ob_processed_at r |}
  | Delivered | Dropped => processed now r
  end.

Definition settles (w : Worker) (now : time) (d : db) (x : uuid * outbox_row) (v : verdict) (d' : db) : Prop :=
  let e := to_event (wrk_MaxAttempts w) x in
  let hs := wrk_Bus w (ob_topic x.2) in
  match v with
  | Delivered => exists t, handled e hs (at_db d now) t /\ tx_aborted t = false /\
                   d' = update_outbox x.1 (verdict_row v now (ob_attempts x.2)) (tx_db t)
  | Retried => refused e hs (at_db d now) /\ (ob_attempts x.2 + 1 < wrk_MaxAttempts w)%Z /\
                 d' = update_outbox x.1 (verdict_row v now (ob_attempts x.2)) d
  | Dropped => refused e hs (at_db d now) /\ (wrk_MaxAttempts w <= ob_attempts x.2 + 1)%Z /\
                 d' = update_outbox x.1 (verdict_row v now (ob_attempts x.2)) d
  end.

(** The events of a batch, one after the other on what the earlier ones left. *)
Inductive settled (w : Worker) (now : time) : db -> list (uuid * outbox_row) -> list verdict -> db -> Prop :=
| settled_nil d : settled w now d [] [] d
| settled_cons d x v d1 rows vs d' :
    settles w now d x v d1 -> settled w now d1 rows vs d' -> settled w now d (x :: rows) (v :: vs) d'.

Lemma run_handlers_spec (hs : list Handler) (e : Event) (t t' : tx) (err : option error) :
  run_handlers hs e t = (t', err) ->
  match err with None => handled e hs t t' | Some _ => refused e hs t end.
Proof.
  revert t. induction hs as [|h hs IH]; intros t; simpl.
  - intros [= <- <-]. constructor.
  - destruct (h e t) as [t1 [err1|]] eqn:Hh.
    + intros [= <- <-]. exists [], h, hs, t, t1, err1. split_and!; [done|constructor|done].
    + intros Hr. apply IH in Hr. destruct err as [err|].
      * destruct Hr as (pre & h' & post & t2 & t3 & err' & -> & Hp & He).
        exists (h :: pre), h', post, t2, t3, err'. split_and!; [done|by econstructor|done].
      * by econstructor.
Qed.

Lemma handled_rows (hs : list Handler) (e : Event) (t t' : tx) :
  Forall OutboxHandler hs -> handled e hs t t' -> rows_kept t t'.
Proof.
  intros Hall Hh. induction Hh as [t|h hs t t1 t' He _ IH]; [apply rows_kept_refl|].
  apply Forall_cons in Hall as [Hx Hall]. destruct (IH Hall) as [Hn Hr].
  pose proof (handler_rows e t) as Hr1. pose proof (handler_now e t) as Hn1. rewrite He in Hr1, Hn1. simpl in Hr1, Hn1.
  split; [congruence|]. intros id r Hid. by apply Hr, Hr1.
Qed.

Lemma dispatch_spec (w : Worker) (e : Event) (d : db) (now : time) (t : tx) (err : option error) :
  dispatch w e (at_db d now) = (t, err) ->
  let hs := wrk_Bus w (evt_Topic e) in
  match err with
  | None => handled e hs (at_db d now) t /\ tx_aborted t = false
  | Some _ => (t = at_db d now /\ refused e hs (at_db d now)) \/ (tx_aborted t = true /\ swallowed e hs (at_db d now))
  end.
Proof.
  unfold dispatch. cbv zeta. destruct (wrk_Bus w (evt_Topic e)) as [|h hs].
  { intros [= <- <-]. split; [constructor|done]. }
  cbn [tx_aborted at_db]. fold (at_db d now).
  destruct (run_handlers (h :: hs) e (at_db d now)) as [sp [e'|]] eqn:Hr; apply run_handlers_spec in Hr.
  - intros [= <- <-]. by left.
  - destruct (tx_aborted sp) eqn:Ha; intros [= <- <-]; [|done]. right. split; [done|]. by exists sp.
Qed.

Lemma backoff_exact (attempts : Z) : backoffSeconds attempts = (2 ^ Z.min (attempts + 1) 8)%Z.
Proof.
  unfold backoffSeconds. rewrite Z.shiftl_1_l.
  replace (if (8 <? attempts + 1)%Z then 8%Z else (attempts + 1)%Z) with (Z.min (attempts + 1) 8)
    by (destruct (Z.ltb_spec 8 (attempts + 1)); lia).
  assert (2 ^ Z.min (attempts + 1) 8 <= 2 ^ 8)%Z by (apply Z.pow_le_mono_r; lia).
  destruct (Z.ltb_spec 300 (2 ^ Z.min (attempts + 1) 8)); lia.
Qed.

(** One event: it is settled, or a swallowed error fails the whole drain. *)
Lemma drain_event_spec (w : Worker) (x : uuid * outbox_row) (d : db) (now : time) (t : tx) (err : option error) :
  outbox_bus (wrk_Bus w) -> drain_event w (to_event (wrk_MaxAttempts w) x) (at_db d now) = (t, err) ->
  match err with
  | None => exists v d', t = at_db d' now /\ settles w now d x v d'
  | Some _ => swallowed (to_event (wrk_MaxAttempts w) x) (wrk_Bus w (ob_topic x.2)) (at_db d now)
  end.
Proof.
  intros Hb. unfold drain_event. set (e := to_event _ _).
  assert (Hhs : wrk_Bus w (evt_Topic e) = wrk_Bus w (ob_topic x.2)) by done.
  destruct (dispatch w e (at_db d now)) as [t1 derr] eqn:Hd. apply dispatch_spec in Hd. cbv zeta in Hd. rewrite Hhs in Hd.
  unfold mark_outbox_processed, reschedule_outbox, exec.
  destruct derr as [derr|].
  - destruct Hd as [[-> Href]|[Ha Hsw]]; [|by destruct (wrk_MaxAttempts w <=? _)%Z; rewrite Ha; intros [= _ <-]].
    destruct (Z.leb_spec (wrk_MaxAttempts w) (evt_Attempts e + 1)); intros [= <- <-]; cbn [tx_now at_db].
    + exists Dropped. eexists. split; [done|]. by split_and!.
    + exists Retried. eexists. split; [done|]. split_and!; [done|done|]. by rewrite backoff_exact.
  - destruct Hd as [Hh Ha]. rewrite Ha. intros [= <- <-].
    destruct (handled_rows _ _ _ _ (Hb (ob_topic x.2)) Hh) as [Hnow _]. simpl in Hnow. rewrite Hnow.
    exists Delivered. eexists. split; [done|]. by exists t1.
Qed.

Lemma drain_batch_spec (w : Worker) (rows : list (uuid * outbox_row)) (d : db) (now : time) (t : tx) (err : option error) :
  outbox_bus (wrk_Bus w) -> drain_batch w (map (to_event (wrk_MaxAttempts w)) rows) (at_db d now) = (t, err) ->
  match err with
  | None => exists vs d', t = at_db d' now /\ settled w now d rows vs d'
  | Some _ => exists x d1, x ∈ rows /\
                swallowed (to_event (wrk_MaxAttempts w) x) (wrk_Bus w (ob_topic x.2)) (at_db d1 now)
  end.
Proof.
  intros Hb. revert d. induction rows as [|x rows IH]; intros d; simpl.
  - intros [= <- <-]. exists [], d. split; [done|constructor].
  - destruct (drain_event w _ _) as [t1 [err1|]] eqn:He; apply drain_event_spec in He; [|done| |done].
    + intros [= _ <-]. exists x, d. split; [by left|done].
    + destruct He as (v & d1 & -> & Hv). intros Hr. apply IH in Hr. destruct err as [err|].
      * destruct Hr as (y & d2 & Hy & Hsw). exists y, d2. split; [by right|done].
      * destruct Hr as (vs & d2 & -> & Hvs). exists (v :: vs), d2. split; [done|]. by econstructor.
Qed.

(** The rows of the outbox after an event is settled. *)
Lemma settles_rows (w : Worker) (now : time) (d d' : db) (x : uuid * outbox_row) (v : verdict) :
  outbox_bus (wrk_Bus w) -> settles w now d x v d' ->
  (db_outbox d !! x.1 = Some x.2 -> db_outbox d' !! x.1 = Some (verdict_row v now (ob_attempts x.2) x.2)) /\
  (forall k r, k <> x.1 -> db_outbox d !! k = Some r -> db_outbox d' !! k = Some r).
Proof.
  intros Hb Hs.
  assert (exists d1, d' = update_outbox x.1 (verdict_row v now (ob_attempts x.2)) d1 /\
    forall k r, db_outbox d !! k = Some r -> db_outbox d1 !! k = Some r) as (d1 & -> & Hkeep).
  { destruct v; [|by destruct Hs as (_ & _ & ->); exists d..].
    destruct Hs as (t & Hh & _ & ->). exists (tx_db t). split; [done|]. apply (handled_rows _ _ _ _ (Hb (ob_topic x.2)) Hh). }
  simpl. split.
  - intros Hx. by rewrite lookup_alter_eq, (Hkeep _ _ Hx).
  - intros k r Hk Hr. rewrite lookup_alter_ne by done. by apply Hkeep.
Qed.

Lemma settled_rows (w : Worker) (now : time) (d d' : db) (rows : list (uuid * outbox_row)) (vs : list verdict) :
  outbox_bus (wrk_Bus w) -> settled w now d rows vs d' -> NoDup (map fst rows) ->
  Forall (fun x => db_outbox d !! x.1 = Some x.2) rows ->
  Forall2 (fun x v => db_outbox d' !! x.1 = Some (verdict_row v now (ob_attempts x.2) x.2)) rows vs /\
  (forall k r, k ∉ map fst rows -> db_outbox d !! k = Some r -> db_outbox d' !! k = Some r).
Proof.
  intros Hb. induction 1 as [d|d x v d1 rows vs d' Hx _ IH]; [done|].
  cbn [map]. intros [Hn Hnd]%NoDup_cons [Hr Hrows]%Forall_cons.
  destruct (settles_rows w now d d1 x v Hb Hx) as [Hin Hother].
  destruct (IH Hnd) as [Hall Hout].
  { apply Forall_forall. intros y Hy. rewrite Forall_forall in Hrows. apply Hother; [|by apply Hrows].
    intros Heq. apply Hn. rewrite <- Heq. apply list_elem_of_fmap. by exists y. }
  split.
  - constructor; [|done]. apply Hout; [done|]. by apply Hin.
  - intros k r Hk Hkr. rewrite not_elem_of_cons in Hk. apply Hout; [naive_solver|]. by apply Hother; [naive_solver|].
Qed.

Lemma outbox_batch_rows (locked : gset uuid) (limit : Z) (now : time) (d : db) :
  Forall (fun x => db_outbox d !! x.1 = Some x.2) (claim_outbox_batch locked limit now d).
Proof. apply Forall_forall. intros [id r] Hx. by apply batch_elem in Hx as [? _]. Qed.

#[local] Instance id_before_trans : Transitive id_before.
Proof. intros [i x] [j y] [k z]. unfold id_before. simpl. lia. Qed.
#[local] Instance id_before_total : Total id_before.
Proof. intros [i x] [j y]. unfold id_before. simpl. lia. Qed.

(** C7: What a drain of the outbox does.  Its batch has every due event, or it
    is full of earlier ones.  When it commits, each event of the batch has been
    given to the handlers of its topic, in order of the ids and on what the
    earlier events left: either all of them succeeded, their writes are kept
    and the event is processed; or one failed, nothing the event's handlers
    wrote is kept, and the event is rescheduled with one more attempt after
    2^(attempts+1) seconds, at most 256, or, when this was its last attempt, it
    is dropped as processed.  The other rows of the outbox are untouched.  When
    the drain fails nothing of it is kept, and a handler had swallowed an error
    of the database. *)
Theorem drainOnce_correct (w : Worker) (locked : gset uuid) (now : time) (d d' : db) (n : nat) (err : option error) :
  outbox_bus (wrk_Bus w) -> drainOnce w locked now d = (d', (n, err)) ->
  let batch := claim_outbox_batch locked (wrk_BatchSize w) now d in
  n = length batch /\
  (forall id r, db_outbox d !! id = Some r -> outbox_due d locked now id r = true ->
     (id, r) ∈ batch \/ (n = Z.to_nat (wrk_BatchSize w) /\ Forall (fun x => (x.1 <= id)%N) batch)) /\
  match err with
  | None =>
      exists vs, settled w now d batch vs d' /\
        Forall2 (fun x v => db_outbox d' !! x.1 = Some (verdict_row v now (ob_attempts x.2) x.2)) batch vs /\
        (forall id r, id ∉ map fst batch -> db_outbox d !! id = Some r -> db_outbox d' !! id = Some r)
  | Some _ =>
      d' = d /\ exists x d1, x ∈ batch /\
        swallowed (to_event (wrk_MaxAttempts w) x) (wrk_Bus w (ob_topic x.2)) (at_db d1 now)
  end.
Proof.
  intros Hb. unfold drainOnce, WithTx, query, exec. cbn [tx_aborted tx_db tx_now]. cbv zeta.
  fold (at_db d now). set (rows := claim_outbox_batch _ _ _ _).
  destruct (drain_batch w (map (to_event (wrk_MaxAttempts w)) rows) (at_db d now)) as [t derr] eqn:Hd.
  apply drain_batch_spec in Hd; [|done].
  assert (Hbatch : forall id r, db_outbox d !! id = Some r -> outbox_due d locked now id r = true ->
    (id, r) ∈ rows \/ (length rows = Z.to_nat (wrk_BatchSize w) /\ Forall (fun x => (x.1 <= id)%N) rows)).
  { intros id r Hr Hdue. exact (batch_complete id_before (fun x => outbox_due d locked now x.1 x.2)
      (Z.to_nat (wrk_BatchSize w)) (db_outbox d) id r Hr Hdue). }
  destruct derr as [derr|].
  - intros [= <- <- <-]. rewrite length_map. by split_and!.
  - destruct Hd as (vs & d1 & -> & Hvs). cbn [tx_aborted at_db tx_db]. intros [= <- <- <-].
    rewrite length_map. split_and!; [done|done|]. exists vs. split; [done|].
    by apply (settled_rows w now d); [|done|apply batch_nodup|apply outbox_batch_rows].
Qed.

(** An event's handlers act together or not at all: when dispatch reports an
    error and the transaction is still usable, everything they wrote is gone;
    when it reports none, all of them succeeded, in order. *)
Theorem dispatch_atomic (w : Worker) (e : Event) (d : db) (n : time) (t : tx) (err : option error) :
  dispatch w e (at_db d n) = (t, err) ->
  match err with
  | Some _ => tx_aborted t = false -> t = at_db d n
  | None => run_handlers (wrk_Bus w (evt_Topic e)) e (at_db d n) = (t, None) /\ tx_aborted t = false
  end.
Proof.
  unfold dispatch. destruct (wrk_Bus w (evt_Topic e)) as [|h hs]; [by intros [= <- <-]|].
  cbn [at_db tx_aborted]. fold (at_db d n).
  destruct (run_handlers (h :: hs) e (at_db d n)) as [sp [e'|]]; [by intros [= <- <-]|].
  destruct (tx_aborted sp) eqn:Ha; intros [= <- <-]; [congruence|done].
Qed.

(** The trigger subscriber leaves the outbox alone. *)
Definition outbox_same (t t' : tx) : Prop :=
  db_outbox (tx_db t') = db_outbox (tx_db t) /\ tx_now t' = tx_now t.

Lemma outbox_same_trans (t1 t2 t3 : tx) : outbox_same t1 t2 -> outbox_same t2 t3 -> outbox_same t1 t3.
Proof. intros [H12 N12] [H23 N23]. split; congruence. Qed.

Lemma exec_outbox {A : Type} (f : time -> db -> result error (db * A)) (t : tx) :
  (forall now d d' a, f now d = Ok (d', a) -> db_outbox d' = db_outbox d) -> outbox_same t (exec f t).1.
Proof.
  intros Hf. unfold exec. destruct (tx_aborted t); [done|].
  destruct (f (tx_now t) (tx_db t)) as [[d a]|] eqn:Hr; [|done]. split; [by eapply Hf|done].
Qed.

Lemma enrollForTrigger_outbox (business root : uuid) (kind ref : string) (subscriber event : uuid) (now : time)
    (t : tx) : outbox_same t (enrollForTrigger business root kind ref subscriber event now t).1.
Proof.
  unfold enrollForTrigger. pose proof (exec_outbox
    (fun _ => automation_enroll_for_trigger business root kind ref subscriber event now) t) as He.
  destruct (exec _ t) as [t' [a|e]]; apply He; intros n d d' z Hr;
    by apply enroll_for_trigger_again in Hr as (m & -> & _).
Qed.

Lemma enroll_lists_outbox (p : customEventTriggerPayload) (event : uuid) (now : time) (l : list uuid) (t : tx) :
  outbox_same t (enroll_lists AutomationPorts_subscribers p event now l t).1.
Proof.
  revert t. induction l as [|listID l IH]; intros t; simpl; [done|].
  assert (Hr : outbox_same t (ports_ResolveForList (cep_BusinessID p) (cep_Email p) listID t).1).
  { unfold ports_ResolveForList. pose proof (exec_outbox (fun _ d =>
      Ok (d, mailing_automation_resolve_for_list d (cep_BusinessID p) (cep_Email p) listID)) t) as Hq.
    unfold query. destruct (exec _ t) as [t' [[id|]|]]; apply Hq; by intros n d d' a [= <- _]. }
  destruct (ports_ResolveForList _ _ _ t) as [t1 [sub|e]]; simpl in Hr.
  - pose proof (enrollForTrigger_outbox (cep_BusinessID p) (cep_TenantRootID p) "event" (cep_Name p) sub event now t1)
      as He. destruct (enrollForTrigger _ _ _ _ _ _ _ t1) as [t2 [e|]]; simpl in *.
    + by eapply outbox_same_trans.
    + eapply outbox_same_trans; [exact Hr|]. by eapply outbox_same_trans.
  - destruct (is_invalid_reference e); [|done]. by eapply outbox_same_trans.
Qed.

Lemma Handle_same_outbox (now : time) (e : Event) (t : tx) : outbox_same t (Handle (wired now) e t).1.
Proof.
  unfold Handle. destruct (_ || _).
  - unfold handleSubscriber. destruct (Unmarshal _ _ _) as [p|]; [|done]. destruct (_ || _); [done|].
    destruct (String.eqb _ _); [|destruct (String.eqb _ _); [destruct (String.eqb _ _); [done|]|];
      apply enrollForTrigger_outbox].
    destruct (String.eqb _ _); [done|].
    match goal with |- context [err_of (exec ?f t)] => pose proof (exec_outbox f t) as Hx end.
    destruct (exec _ t) as [t' [a|err]]; apply Hx; intros n d d' a0 [= <- _];
      unfold automation_exit_for_subscriber; by destruct (negb _).
  - destruct (String.eqb _ _); [|done]. unfold handleCustomEvent. cbn [trg_Subscribers wired].
    destruct (Unmarshal _ _ _) as [p|]; [|done]. destruct (_ || _); [done|].
    unfold query. match goal with |- context [exec ?f t] => pose proof (exec_outbox f t) as Hx end.
    destruct (exec _ t) as [t1 [l|err]]; simpl in Hx.
    + eapply outbox_same_trans; [apply Hx; by intros n d d' a [= <- _]|apply enroll_lists_outbox].
    + apply Hx. by intros n d d' a [= <- _].
Qed.

#[export] Instance Handle_outbox (now : time) : OutboxHandler (Handle (wired now)).
Proof.
  split.
  - intros e t id r Hr. destruct (Handle_same_outbox now e t) as [Hs _]. by rewrite Hs.
  - intros e t. by destruct (Handle_same_outbox now e t) as [_ Hs].
Qed.
End EventFacts.

(** ** Witnesses *)

#[local] Existing Instances demo_unicode demo_uuid demo_zones demo_urls demo_hash demo_authz demo_events.

Lemma demo_ingest : exists out, IngestS2SEvent 1 1 1 1 demo_body 0 0 demo_active = Ok (demo_ingested, (out, true)).
Proof.
  assert (Hok : match IngestS2SEvent 1 1 1 1 demo_body 0 0 demo_active with
                | Ok (_, (_, created)) => created | Err _ => false end = true) by (vm_compute; reflexivity).
  unfold demo_ingested. destruct (IngestS2SEvent 1 1 1 1 demo_body 0 0 demo_active) as [[d [out []]]|]; [|done|done].
  by exists out.
Qed.

Lemma s2s_replay_witness :
  exists e, IngestS2SEvent 1 1 1 1 demo_body 5 6 demo_ingested = Ok (demo_ingested, (event_view e false, false)).
Proof.
  destruct demo_ingest as [out Hin].
  destruct (s2s_replay 1 1 1 1 demo_body 0 5 0 6 demo_active demo_ingested out true) as (e & _ & He);
    [lia|lia|exact Hin|]. by exists e.
Defined.

Lemma s2s_key_names_one_event_witness :
  exists out, IngestS2SEvent 1 1 1 1 demo_other_body 5 6 demo_ingested = Ok (demo_ingested, (out, false)).
Proof.
  destruct demo_ingest as [out Hin].
  assert (Hok : is_ok (IngestS2SEvent 1 1 1 1 demo_other_body 5 6 demo_ingested) = true) by (vm_compute; reflexivity).
  destruct (IngestS2SEvent 1 1 1 1 demo_other_body 5 6 demo_ingested) as [[d3 [out' c']]|] eqn:Hin'; [|done].
  destruct (s2s_key_names_one_event 1 1 1 1 demo_body demo_other_body 0 5 0 6 demo_active demo_ingested demo_ingested d3
    out out' true c') as (-> & -> & _); [exact Hin|done|reflexivity|exact Hin'|]. by exists out'.
Defined.

Lemma Handle_idempotent_witness :
  exists t, Handle (wired 0) demo_joined (at_db demo_active 0) = (t, None) /\
    size (db_enrollments (tx_db t)) = 1 /\
    Handle (wired 7) demo_joined (at_db (tx_db t) 8) = (at_db (tx_db t) 8, None).
Proof.
  assert (Hn : match Handle (wired 0) demo_joined (at_db demo_active 0) with
               | (t, None) => size (db_enrollments (tx_db t)) | (_, Some _) => 0 end = 1) by (vm_compute; reflexivity).
  destruct (Handle (wired 0) demo_joined (at_db demo_active 0)) as [t [e|]] eqn:Ht; [done|].
  exists t. split; [done|]. split; [done|].
  exact (Handle_idempotent demo_joined 0 7 0 8 demo_active t Ht).
Defined.

Lemma demo_bus_ok : outbox_bus (wrk_Bus demo_worker).
Proof. intros topic. constructor; [apply (Handle_outbox 0)|constructor]. Qed.

Lemma drainOnce_correct_witness :
  exists d' vs, drainOnce demo_worker ∅ 1 demo_ingested = (d', (1, None)) /\
    settled demo_worker 1 demo_ingested (claim_outbox_batch ∅ (wrk_BatchSize demo_worker) 1 demo_ingested) vs d'.
Proof.
  assert (Hn : match drainOnce demo_worker ∅ 1 demo_ingested with
               | (_, (n, None)) => n | _ => 0 end = 1) by (vm_compute; reflexivity).
  destruct (drainOnce demo_worker ∅ 1 demo_ingested) as [d' [n [e|]]] eqn:Hd; [done|].
  destruct (drainOnce_correct demo_worker ∅ 1 demo_ingested d' n None demo_bus_ok Hd) as (_ & _ & vs & Hvs & _).
  exists d', vs. split; [by rewrite Hn|exact Hvs].
Defined.

(** A payload the subscriber refuses leaves the database as it was. *)
Definition demo_refused : Event :=
  {| evt_ID := 9; evt_TenantRootID := 2; evt_Topic := TopicMailingSubscriberActivated; evt_Payload := evt_Payload demo_joined;
     evt_Attempts := 0; evt_MaxAttempts := 10 |}.

Lemma dispatch_atomic_witness :
  exists e, dispatch demo_worker demo_refused (at_db demo_active 0) = (at_db demo_active 0, Some e).
Proof.
  assert (Hn : (match dispatch demo_worker demo_refused (at_db demo_active 0) with
                | (t, Some _) => tx_aborted t | (_, None) => true end) = false) by (vm_compute; reflexivity).
  destruct (dispatch demo_worker demo_refused (at_db demo_active 0)) as [t [e|]] eqn:Hd; [|done].
  exists e. f_equal. exact (dispatch_atomic demo_worker demo_refused demo_active 0 t (Some e) Hd Hn).
Defined.
