(* ===== verification/Keyset.v ===== *)
(** * Keyset pagination

    The listings of the services read one row more than a page, in an order of
    the key, past the key of the last row of the page before; the cursor of a
    page is the text of that key.  [follow] reads the pages one after the other,
    as a client does.  The theorem: from the first page on, every row is read,
    once and in order, and the reading ends. *)

From S2P Require Import Prelude GoStrings Errors.
From stdpp Require Import sorting.

Section Keyset.
Context {A K : Type} (R : A -> A -> Prop) `{!RelDecision R} (past : K -> A -> bool).

(** [WHERE ... AND (key) > ($cursor) ORDER BY ... LIMIT n] *)
Definition query (c : option K) (n : nat) (l : list A) : list A :=
  take n (merge_sort R (List.filter (fun a => match c with Some k => past k a | None => true end) l)).

(** The rows of a page, and whether more follow. *)
Definition page (limit : nat) (c : option K) (l : list A) : list A * bool :=
  let rows := query c (S limit) l in
  if Nat.ltb limit (length rows) then (take limit rows, true) else (rows, false).

Context (key : A -> K) (l : list A).
Context (Htot : Total R) (Htrans : Transitive R) (Hnd : NoDup l).
Context (Hanti : forall a b, a ∈ l -> b ∈ l -> R a b -> R b a -> a = b).
Context (Hpast : forall a b, a ∈ l -> b ∈ l -> past (key a) b = true <-> R a b /\ a <> b).

Lemma sorted_split (seen rest : list A) (a : A) :
  merge_sort R l = seen ++ a :: rest ->
  merge_sort R (List.filter (past (key a)) l) = rest.
Proof.
  intros Hs. pose proof (StronglySorted_merge_sort R l) as Hsorted. rewrite Hs in Hsorted.
  assert (forall x, x ∈ seen ++ a :: rest -> x ∈ l) as Hin by (intros x; rewrite <- Hs, merge_sort_Permutation; done).
  assert (NoDup (seen ++ a :: rest)) as Hnd' by (by rewrite <- Hs, merge_sort_Permutation).
  apply NoDup_app in Hnd' as (_ & Hdis & Hnd'). apply NoDup_cons in Hnd' as [Ha Hnd'].
  assert (a ∈ l) as Hal by (apply Hin; set_solver).
  assert (StronglySorted R (a :: rest)) as Hsr by (by eapply StronglySorted_app_1_r).
  apply StronglySorted_inv in Hsr as [Hsr Hge].
  apply (StronglySorted_unique_strong R).
  - intros x y Hx Hy. rewrite merge_sort_Permutation in Hx. apply list_elem_of_In, List.filter_In in Hx as [Hx _].
    apply Hanti; [by apply list_elem_of_In|apply Hin; set_solver].
  - by apply (StronglySorted_merge_sort R).
  - done.
  - rewrite merge_sort_Permutation. apply NoDup_Permutation.
    + by apply NoDup_ListNoDup, List.NoDup_filter, NoDup_ListNoDup.
    + done.
    + intros x. rewrite list_elem_of_In, List.filter_In, <- list_elem_of_In. split.
      * intros [Hx Hp]. apply Hpast in Hp as [HR Hne]; [|done|done].
        assert (x ∈ seen ++ a :: rest) as Hxs by (by rewrite <- Hs, merge_sort_Permutation).
        apply elem_of_app in Hxs as [Hxs|Hxs]; [|set_solver]. exfalso. apply Hne.
        apply Hanti; [done|done|done|]. eapply StronglySorted_app_1_elem_of; [exact Hsorted|done|by left].
      * intros Hx. assert (x ∈ l) as Hxl by (apply Hin; set_solver). split; [done|]. apply Hpast; [done|done|].
        split; [by eapply Forall_forall in Hge|]. intros ->. done.
Qed.

Lemma sorted_all : merge_sort R (List.filter (fun _ => true) l) = merge_sort R l.
Proof. f_equal. clear. induction l as [|x r IH]; simpl; [done|]. by rewrite IH. Qed.

(** A page of the rows still to come. *)
Lemma keyset_page (limit : nat) (c : option K) (rest : list A) :
  merge_sort R (List.filter (fun a => match c with Some k => past k a | None => true end) l) = rest ->
  page limit c l = (take limit rest, Nat.ltb limit (length rest)).
Proof.
  intros He. unfold page, query. rewrite He, length_take. destruct (Nat.ltb_spec limit (length rest)) as [Hlt|Hge].
  - rewrite (proj2 (Nat.ltb_lt _ _)) by lia. by rewrite take_take, Nat.min_l by lia.
  - rewrite (proj2 (Nat.ltb_ge _ _)) by lia. by rewrite !take_ge by lia.
Qed.

(** ** Following the cursors *)

Context {B : Type} (f : A -> B) (enc : K -> string).

Definition answer (x : list A * bool) : result error (list B * option string) :=
  Ok (map f (fst x), if snd x then (fun a => enc (key a)) <$> last (fst x) else None).

End Keyset.

Fixpoint follow {B : Type} (fetch : string -> result error (list B * option string)) (fuel : nat) (c : string)
  : option (result error (list B)) :=
  match fuel with
  | O => None
  | S n =>
      match fetch c with
      | Err e => Some (Err e)
      | Ok (items, None) => Some (Ok items)
      | Ok (items, Some c') =>
          match follow fetch n c' with Some (Ok r) => Some (Ok (items ++ r)) | x => x end
      end
  end.

Section Follow.
Context {A K : Type} (R : A -> A -> Prop) `{!RelDecision R} (past : K -> A -> bool) (key : A -> K) (l : list A).
Context (Htot : Total R) (Htrans : Transitive R) (Hnd : NoDup l).
Context (Hanti : forall a b, a ∈ l -> b ∈ l -> R a b -> R b a -> a = b).
Context (Hpast : forall a b, a ∈ l -> b ∈ l -> past (key a) b = true <-> R a b /\ a <> b).
Context {B : Type} (f : A -> B) (enc : K -> string) (fetch : string -> result error (list B * option string)).
Context (limit : nat) (Hlimit : 1 <= limit).
Context (Hfirst : fetch "" = answer key f enc (page R past limit None l)).
Context (Hnext : forall a, a ∈ l -> fetch (enc (key a)) = answer key f enc (page R past limit (Some (key a)) l)).

(** One page of [rest], whose cursor leads to what remains. *)
Lemma follow_page (fuel : nat) (c : string) (seen rest : list A) :
  fetch c = answer key f enc (take limit rest, Nat.ltb limit (length rest)) -> merge_sort R l = seen ++ rest ->
  (forall seen' a rest', merge_sort R l = seen' ++ a :: rest' -> length rest' < length rest ->
     follow fetch fuel (enc (key a)) = Some (Ok (map f rest'))) ->
  follow fetch (S fuel) c = Some (Ok (map f rest)).
Proof.
  intros Hc Hs IH. simpl. rewrite Hc. unfold answer. simpl. destruct (Nat.ltb_spec limit (length rest)) as [Hlt|Hge].
  - destruct (last (take limit rest)) as [b|] eqn:Hb; simpl.
    + apply last_Some in Hb as [init Hi].
      rewrite (IH (seen ++ init) b (drop limit rest)); [by rewrite <- map_app, take_drop| |].
      * rewrite Hs, <- app_assoc. f_equal. by rewrite <- (take_drop limit rest) at 1; rewrite Hi, <- app_assoc.
      * rewrite length_drop. lia.
    + apply last_None in Hb. apply (f_equal length) in Hb. rewrite length_take in Hb. simpl in Hb. lia.
  - by rewrite take_ge.
Qed.

Lemma follow_from (fuel : nat) (seen rest : list A) (a : A) :
  merge_sort R l = seen ++ a :: rest -> length rest < fuel -> follow fetch fuel (enc (key a)) = Some (Ok (map f rest)).
Proof.
  revert seen rest a. induction fuel as [|fuel IH]; intros seen rest a Hs Hlen; [lia|].
  eapply (follow_page fuel _ (seen ++ [a])).
  - rewrite Hnext; [|rewrite <- (merge_sort_Permutation R l), Hs; set_solver].
    f_equal. apply (keyset_page R past l limit (Some (key a))). by eapply sorted_split.
  - by rewrite <- app_assoc.
  - intros seen' b rest' Hs' Hlt. eapply IH; [exact Hs'|lia].
Qed.

(** Every row is read, once and in order. *)
Lemma follow_complete : follow fetch (S (length l)) "" = Some (Ok (map f (merge_sort R l))).
Proof.
  apply (follow_page (length l) "" []); [|done|].
  - rewrite Hfirst. f_equal. apply (keyset_page R past l limit None). apply sorted_all.
  - intros seen a rest Hs Hlt. eapply follow_from; [exact Hs|]. by rewrite (merge_sort_Permutation R l) in Hlt.
Qed.
End Follow.
