(* ===== verification/AutoListing.v ===== *)
(** * Listings of the automation service

    [List], [Versions] and [ListEnrollments] of [internal/automations/service.go]
    and [enrollments.go], with the cursors.  The listings are newest first, by a
    time or a version number and then by identifier. *)

From S2P Require Import Prelude GoStrings GoBase64 GoTime GoJson AutoGraph Errors AutoEngine Concrete AutoStore AutoService AutoDemo Keyset.
From stdpp Require Import sorting.
#[local] Open Scope go_scope.

(** The RFC 3339 layout with nanoseconds, for which the documentation promises a
    round trip of the years 0 to 9999. *)
Definition rfc_time (t : time) : Prop := (-62167219200 * Second <= t < 253402300800 * Second)%Z.
Class CursorTime := {
  time_RFC3339Nano : time -> string;
  time_ParseNano : string -> option time;
  nano_roundtrip : forall t, rfc_time t -> time_ParseNano (time_RFC3339Nano t) = Some t;
  nano_plain : forall t, "|"%char ∉ bytes (time_RFC3339Nano t)
}.

(** ** Cursors *)

Definition cursorKind : string := "automation".
Definition versionCursorKind : string := "automation-version".
Definition enrollmentCursorKind : string := "automation-enrollment".

(** [strings.SplitN(s, sep, 3)] for a one-byte separator. *)
Fixpoint cut (sep : ascii) (l : list ascii) : option (list ascii * list ascii) :=
  match l with
  | [] => None
  | c :: r => if Ascii.eqb c sep then Some ([], r)
              else match cut sep r with Some (a, b) => Some (c :: a, b) | None => None end
  end.
Definition SplitN3 (sep : ascii) (l : list ascii) : list (list ascii) :=
  match cut sep l with
  | None => [l]
  | Some (a, r) => match cut sep r with None => [a; r] | Some (b, c) => [a; b; c] end
  end.

(** [strconv.ParseInt(s, 10, 32)] *)
Definition ParseInt32 (s : string) : option Z :=
  match Atoi s with
  | Some z => if (- 2 ^ 31 <=? z)%Z && (z <? 2 ^ 31)%Z then Some z else None
  | None => None
  end.

Section Listing.
Context `{UnicodeTables, UUIDLib, Authz, CursorTime}.

Definition encodeTypedCursor (kind : string) (at_ : time) (id : uuid) : string :=
  of_bytes (base64url (bytes (kind +:+ "|" +:+ time_RFC3339Nano at_ +:+ "|" +:+ uuid_String id))).
Definition decodeTypedCursor (kind value : string) : result error (time * uuid) :=
  match base64url_decode (bytes value) with
  | None => validation "invalid cursor"
  | Some raw =>
      match SplitN3 "|" raw with
      | [k; t; u] =>
          if negb (bool_decide (k = bytes kind)) then validation "invalid cursor" else
          match time_ParseNano (of_bytes t) with
          | None => validation "invalid cursor"
          | Some at_ => match uuid_Parse (of_bytes u) with
                        | None => validation "invalid cursor"
                        | Some id => Ok (at_, id)
                        end
          end
      | _ => validation "invalid cursor"
      end
  end.
Definition encodeCursor : time -> uuid -> string := encodeTypedCursor cursorKind.
Definition decodeCursor : string -> result error (time * uuid) := decodeTypedCursor cursorKind.

Definition encodeVersionCursor (number : Z) (id : uuid) : string :=
  of_bytes (base64url (bytes (versionCursorKind +:+ "|" +:+ itoa number +:+ "|" +:+ uuid_String id))).
Definition decodeVersionCursor (value : string) : result error (Z * uuid) :=
  match base64url_decode (bytes value) with
  | None => validation "invalid cursor"
  | Some raw =>
      match SplitN3 "|" raw with
      | [k; n; u] =>
          if negb (bool_decide (k = bytes versionCursorKind)) then validation "invalid cursor" else
          match ParseInt32 (of_bytes n) with
          | None => validation "invalid cursor"
          | Some number =>
              if (number <=? 0)%Z then validation "invalid cursor" else
              match uuid_Parse (of_bytes u) with
              | None => validation "invalid cursor"
              | Some id => Ok (number, id)
              end
          end
      | _ => validation "invalid cursor"
      end
  end.

(** ** The order of the listings *)

(** [ORDER BY stamp DESC, id DESC], and [(stamp, id) < ($at, $id)] *)
Definition newest {A : Type} (stamp : A -> Z) (x y : uuid * A) : Prop :=
  (stamp (snd y) < stamp (snd x))%Z \/ (stamp (snd y) = stamp (snd x) /\ (fst y <= fst x)%N).
#[export] Instance newest_dec {A : Type} (stamp : A -> Z) : RelDecision (newest stamp).
Proof. intros x y. unfold newest. apply _. Defined.
Definition older {A : Type} (stamp : A -> Z) (c : Z * uuid) (x : uuid * A) : bool :=
  (stamp (snd x) <? fst c)%Z || ((stamp (snd x) =? fst c)%Z && (fst x <? snd c)%N).
Definition stamped {A : Type} (stamp : A -> Z) (x : uuid * A) : Z * uuid := (stamp (snd x), fst x).

(** The page of a listing: its rows and the cursor of the next. *)
Definition list_page {A B : Type} (stamp : A -> Z) (f : uuid * A -> B) (enc : Z * uuid -> string) (limit : Z)
    (c : option (Z * uuid)) (rows : list (uuid * A)) : list B * option string :=
  let '(items, more) := page (newest stamp) (older stamp) (Z.to_nat limit) c rows in
  (map f items, if more then (fun a => enc (stamped stamp a)) <$> last items else None).

(** ** The operations *)

Definition optional_cursor (decode : string -> result error (Z * uuid)) (cursor : string) : result error (option (Z * uuid)) :=
  if String.eqb cursor "" then Ok None else match decode cursor with Ok k => Ok (Some k) | Err e => Err e end.

Definition List_automations (principal business : uuid) (cursor : string) (limit : Z)
    : db -> db * result error (list Automation * option string) :=
  run_service (fun d =>
    let? root := resolveTenantRoot principal business d in
    let? c := optional_cursor decodeCursor cursor in
    Ok (d, list_page a_created_at (fun x => toAutomation (fst x) (snd x)) (fun k => encodeCursor (fst k) (snd k))
             (clampLimit limit) c
             (mselect (fun _ a => N.eqb (a_business a) business && N.eqb (a_root a) root) (db_automations d)))).

Record VersionSummary := {
  vs_ID : uuid; vs_BusinessID : uuid; vs_TenantRootID : uuid; vs_AutomationID : uuid; vs_Number : Z;
  vs_Status : version_status; vs_TriggerKind : option string; vs_TriggerRef : option string;
  vs_ActivatedAt : option time; vs_CreatedAt : time; vs_UpdatedAt : time
}.
Definition versionSummary (id : uuid) (v : version_row) : VersionSummary :=
  {| vs_ID := id; vs_BusinessID := v_business v; vs_TenantRootID := v_root v; vs_AutomationID := v_automation v;
     vs_Number := v_number v; vs_Status := v_status v; vs_TriggerKind := v_trigger_kind v; vs_TriggerRef := v_trigger_ref v;
     vs_ActivatedAt := v_activated_at v; vs_CreatedAt := v_created_at v; vs_UpdatedAt := v_updated_at v |}.

Definition Versions (principal business automationID : uuid) (cursor : string) (limit : Z)
    : db -> db * result error (list VersionSummary * option string) :=
  run_service (fun d =>
    let? root := resolveTenantRoot principal business d in
    let? _ := GetAutomation automationID business root d in
    let? c := optional_cursor decodeVersionCursor cursor in
    Ok (d, list_page v_number (fun x => versionSummary (fst x) (snd x)) (fun k => encodeVersionCursor (fst k) (snd k))
             (clampLimit limit) c
             (mselect (fun _ v => N.eqb (v_automation v) automationID && N.eqb (v_business v) business &&
                                  N.eqb (v_root v) root) (db_versions d)))).

Record EnrollmentFilter := { ef_Status : string; ef_NodeID : string; ef_Cursor : string; ef_Limit : Z }.

(** 9999-12-31T23:59:59.999999999Z and the largest identifier *)
Definition first_cursor : Z * uuid := ((253402300800 * Second - 1)%Z, (2 ^ 128 - 1)%N).

Definition enrollment_selected (automationID business root : uuid) (filter : EnrollmentFilter) (e : enrollment_row) : bool :=
  N.eqb (er_automation (e_ref e)) automationID && N.eqb (er_business (e_ref e)) business &&
  N.eqb (er_root (e_ref e)) root &&
  (String.eqb (ef_Status filter) "" || bool_decide (parse_enrollment_status (ef_Status filter) = Some (es_status (e_st e)))) &&
  (String.eqb (ef_NodeID filter) "" || bool_decide (es_current_node (e_st e) = Some (ef_NodeID filter))).
Definition enrolled_stamp (e : enrollment_row) : Z := er_enrolled_at (e_ref e).

Definition ListEnrollments (principal business automationID : uuid) (filter : EnrollmentFilter) (d : db)
    : db * result error (list EnrollmentView * option string) :=
  if negb (String.eqb (ef_Status filter) "") && negb (validEnrollmentStatus (ef_Status filter))
  then (d, validation "invalid enrollment status") else
  if negb (String.eqb (ef_NodeID filter) "") && negb (graphIDPattern (ef_NodeID filter))
  then (d, validation "invalid node_id") else
  match (if String.eqb (ef_Cursor filter) "" then Ok first_cursor else decodeTypedCursor enrollmentCursorKind (ef_Cursor filter)) with
  | Err e => (d, Err e)
  | Ok c =>
      run_service (fun d =>
        let? root := resolveTenantRoot principal business d in
        let? _ := GetAutomation automationID business root d in
        Ok (d, list_page enrolled_stamp (fun x => scanEnrollment (fst x) (snd x))
                 (fun k => encodeTypedCursor enrollmentCursorKind (fst k) (snd k)) (clampLimit (ef_Limit filter)) (Some c)
                 (mselect (fun _ e => enrollment_selected automationID business root filter e) (db_enrollments d)))) d
  end.
End Listing.

(** ** Cursors round trip *)

Lemma cut_sep (sep : ascii) (a b : list ascii) : sep ∉ a -> cut sep (a ++ sep :: b) = Some (a, b).
Proof.
  induction a as [|c a IH]; simpl; [by rewrite Ascii.eqb_refl|]. rewrite not_elem_of_cons. intros [Hc Ha].
  destruct (Ascii.eqb_spec c sep) as [->|_]; [done|]. by rewrite IH.
Qed.

Lemma SplitN3_sep (sep : ascii) (a b c : list ascii) : sep ∉ a -> sep ∉ b -> SplitN3 sep (a ++ sep :: b ++ sep :: c) = [a; b; c].
Proof. intros Ha Hb. unfold SplitN3. by rewrite !cut_sep. Qed.


Section Cursors.
Context `{UnicodeTables, UUIDLib, CursorTime}.

Lemma typed_cursor_roundtrip (kind : string) (t : time) (id : uuid) :
  "|"%char ∉ bytes kind -> rfc_time t -> decodeTypedCursor kind (encodeTypedCursor kind t id) = Ok (t, id).
Proof.
  intros Hk Ht. unfold decodeTypedCursor, encodeTypedCursor. rewrite bytes_of_bytes, base64url_roundtrip, !bytes_app.
  change (bytes "|") with ["|"%char]. cbn [app]. rewrite SplitN3_sep by (done || apply nano_plain).
  rewrite bool_decide_eq_true_2 by done. cbn [negb]. by rewrite !of_bytes_bytes, nano_roundtrip, uuid_Parse_String.
Qed.

Lemma no_bar_itoa (z : Z) : "|"%char ∉ bytes (itoa z).
Proof.
  unfold itoa. rewrite bytes_of_bytes. intros Hin. pose proof (itoa_digits 20 z) as Hd. rewrite forallb_forall in Hd.
  by apply list_elem_of_In, Hd in Hin.
Qed.

Lemma version_cursor_roundtrip (n : Z) (id : uuid) :
  (0 < n < 2 ^ 31)%Z -> decodeVersionCursor (encodeVersionCursor n id) = Ok (n, id).
Proof.
  intros Hn. unfold decodeVersionCursor, encodeVersionCursor. rewrite bytes_of_bytes, base64url_roundtrip, !bytes_app.
  change (bytes "|") with ["|"%char]. cbn [app]. rewrite SplitN3_sep; [|vm_decide|apply no_bar_itoa].
  rewrite bool_decide_eq_true_2 by done. cbn [negb]. rewrite !of_bytes_bytes. unfold ParseInt32. rewrite Atoi_itoa by lia.
  rewrite (proj2 (andb_true_iff _ _)); [|split; [apply Z.leb_le|apply Z.ltb_lt]; lia].
  rewrite (proj2 (Z.leb_gt n 0)) by lia. by rewrite uuid_Parse_String.
Qed.
End Cursors.

(** ** The order *)

Section Order.
Context {A : Type} (stamp : A -> Z) (sel : uuid -> A -> bool) (m : gmap uuid A).

#[export] Instance newest_total : Total (newest stamp).
Proof. intros x y. unfold newest. lia. Qed.
#[export] Instance newest_trans : Transitive (newest stamp).
Proof. intros x y z. unfold newest. lia. Qed.

Lemma mselect_nodup : NoDup (mselect sel m).
Proof. apply NoDup_ListNoDup, List.NoDup_filter, NoDup_ListNoDup, NoDup_map_to_list. Qed.

Lemma selected_by_id (a b : uuid * A) : a ∈ mselect sel m -> b ∈ mselect sel m -> fst a = fst b -> a = b.
Proof. destruct a as [i x], b as [j y]. rewrite !elem_of_mselect. simpl. intros [Hi _] [Hj _] <-. congruence. Qed.

Lemma newest_anti (a b : uuid * A) :
  a ∈ mselect sel m -> b ∈ mselect sel m -> newest stamp a b -> newest stamp b a -> a = b.
Proof. intros Ha Hb Hab Hba. apply selected_by_id; [done|done|]. unfold newest in *. lia. Qed.

Lemma older_past (a b : uuid * A) :
  a ∈ mselect sel m -> b ∈ mselect sel m -> older stamp (stamped stamp a) b = true <-> newest stamp a b /\ a <> b.
Proof.
  intros Ha Hb. unfold older, stamped, newest. simpl. rewrite orb_true_iff, andb_true_iff, Z.ltb_lt, Z.eqb_eq, N.ltb_lt. split.
  - intros Hp. split; [lia|]. intros ->. lia.
  - intros [Hp Hne]. assert (fst a <> fst b) by (intros He; by apply Hne, selected_by_id). lia.
Qed.
End Order.

(** A listing over a table whose cursors decode. *)
Lemma listing_follow {A B : Type} (stamp : A -> Z) (sel : uuid -> A -> bool) (m : gmap uuid A) (f : uuid * A -> B)
    (enc : Z * uuid -> string) (limit : Z) (fetch : string -> result error (list B * option string)) :
  fetch "" = Ok (list_page stamp f enc (clampLimit limit) None (mselect sel m)) ->
  (forall a, a ∈ mselect sel m -> fetch (enc (stamped stamp a)) =
     Ok (list_page stamp f enc (clampLimit limit) (Some (stamped stamp a)) (mselect sel m))) ->
  follow fetch (S (length (mselect sel m))) "" = Some (Ok (map f (merge_sort (newest stamp) (mselect sel m)))).
Proof.
  intros H0 Hn. unfold list_page in *.
  apply (follow_complete (newest stamp) (older stamp) (stamped stamp)) with (limit := Z.to_nat (clampLimit limit)) (enc := enc).
  - apply _.
  - apply _.
  - apply mselect_nodup.
  - apply newest_anti.
  - apply older_past.
  - unfold clampLimit, defaultPageSize, maxPageSize. destruct (Z.leb_spec limit 0); [lia|]. destruct (Z.ltb_spec 100 limit); lia.
  - rewrite H0. by destruct (page _ _ _ _ _).
  - intros a Ha. rewrite Hn by done. unfold answer. by destruct (page _ _ _ (Some (stamped stamp a)) _).
Qed.

(** ** Following the cursors of the service *)

Section Complete.
Context `{UnicodeTables, UUIDLib, Authz, CursorTime}.

Lemma encoded_nonempty (l : list ascii) : l <> [] -> of_bytes (base64url l) <> "".
Proof.
  intros Hl He. apply Hl. pose proof (base64url_roundtrip l) as Hb. rewrite <- (bytes_of_bytes (base64url l)), He in Hb.
  by injection Hb as <-.
Qed.

Lemma typed_cursor_nonempty (kind : string) (t : time) (id : uuid) : encodeTypedCursor kind t id <> "".
Proof. apply encoded_nonempty. rewrite !bytes_app. by destruct (bytes kind). Qed.
Lemma version_cursor_nonempty (n : Z) (id : uuid) : encodeVersionCursor n id <> "".
Proof. apply encoded_nonempty. by rewrite !bytes_app. Qed.

(** The rows a listing is over. *)
Definition automations_of (d : db) (business root : uuid) : list (uuid * automation_row) :=
  mselect (fun _ a => N.eqb (a_business a) business && N.eqb (a_root a) root) (db_automations d).
Definition versions_of (d : db) (automation business root : uuid) : list (uuid * version_row) :=
  mselect (fun _ v => N.eqb (v_automation v) automation && N.eqb (v_business v) business && N.eqb (v_root v) root) (db_versions d).
Definition enrollments_of (d : db) (automation business root : uuid) (status node : string) : list (uuid * enrollment_row) :=
  mselect (fun _ e => enrollment_selected automation business root
                        {| ef_Status := status; ef_NodeID := node; ef_Cursor := ""; ef_Limit := 0 |} e) (db_enrollments d).

Lemma List_automations_complete (principal business root : uuid) (limit : Z) (d : db) :
  resolveTenantRoot principal business d = Ok root ->
  (forall x, x ∈ automations_of d business root -> rfc_time (a_created_at (snd x))) ->
  follow (fun c => snd (List_automations principal business c limit d)) (S (length (automations_of d business root))) "" =
    Some (Ok (map (fun x => toAutomation (fst x) (snd x)) (merge_sort (newest a_created_at) (automations_of d business root)))).
Proof.
  intros Hr Ht. apply (listing_follow a_created_at) with (limit := limit) (enc := fun k => encodeCursor (fst k) (snd k)).
  - unfold List_automations, run_service. rewrite Hr. done.
  - intros a Ha. unfold List_automations, run_service. rewrite Hr. cbn [result_bind]. unfold optional_cursor. unfold stamped. cbn [fst snd].
    rewrite (proj2 (String.eqb_neq _ _)) by apply typed_cursor_nonempty. unfold decodeCursor, encodeCursor.
    rewrite typed_cursor_roundtrip; [done|vm_decide|by apply Ht].
Qed.

Lemma Versions_complete (principal business root automation : uuid) (a : automation_row) (limit : Z) (d : db) :
  resolveTenantRoot principal business d = Ok root -> GetAutomation automation business root d = Ok a ->
  (forall x, x ∈ versions_of d automation business root -> 0 < v_number (snd x) < 2 ^ 31)%Z ->
  follow (fun c => snd (Versions principal business automation c limit d))
      (S (length (versions_of d automation business root))) "" =
    Some (Ok (map (fun x => versionSummary (fst x) (snd x))
                (merge_sort (newest v_number) (versions_of d automation business root)))).
Proof.
  intros Hr Ha Ht. apply (listing_follow v_number) with (limit := limit) (enc := fun k => encodeVersionCursor (fst k) (snd k)).
  - unfold Versions, run_service. rewrite Hr. cbn [result_bind]. by rewrite Ha.
  - intros x Hx. unfold Versions, run_service. rewrite Hr. cbn [result_bind]. rewrite Ha. cbn [result_bind].
    unfold optional_cursor. unfold stamped. cbn [fst snd]. rewrite (proj2 (String.eqb_neq _ _)) by apply version_cursor_nonempty.
    by rewrite version_cursor_roundtrip by (by apply Ht).
Qed.

(** The cursor before every row is as good as none. *)
Lemma page_first {A : Type} (stamp : A -> Z) (limit : nat) (c : Z * uuid) (l : list (uuid * A)) :
  (forall x, x ∈ l -> stamp (snd x) < fst c)%Z ->
  page (newest stamp) (older stamp) limit (Some c) l = page (newest stamp) (older stamp) limit None l.
Proof.
  intros Hl. unfold page, query. erewrite (List.filter_ext_in (older stamp c) (fun _ => true)); [done|]. intros x Hx.
  apply list_elem_of_In, Hl in Hx. unfold older. apply orb_true_iff. left. by apply Z.ltb_lt.
Qed.

Lemma ListEnrollments_complete (principal business root automation : uuid) (a : automation_row) (filter : EnrollmentFilter) (d : db) :
  ef_Status filter = "" \/ validEnrollmentStatus (ef_Status filter) = true ->
  ef_NodeID filter = "" \/ graphIDPattern (ef_NodeID filter) = true ->
  resolveTenantRoot principal business d = Ok root -> GetAutomation automation business root d = Ok a ->
  (forall x, x ∈ enrollments_of d automation business root (ef_Status filter) (ef_NodeID filter) ->
     rfc_time (enrolled_stamp (snd x)) /\ enrolled_stamp (snd x) < fst first_cursor)%Z ->
  follow (fun c => snd (ListEnrollments principal business automation
                          {| ef_Status := ef_Status filter; ef_NodeID := ef_NodeID filter; ef_Cursor := c; ef_Limit := ef_Limit filter |} d))
      (S (length (enrollments_of d automation business root (ef_Status filter) (ef_NodeID filter)))) "" =
    Some (Ok (map (fun x => scanEnrollment (fst x) (snd x))
                (merge_sort (newest enrolled_stamp) (enrollments_of d automation business root (ef_Status filter) (ef_NodeID filter))))).
Proof.
  intros Hs Hn Hr Ha Ht.
  assert (negb (String.eqb (ef_Status filter) "") && negb (validEnrollmentStatus (ef_Status filter)) = false) as Es
    by (destruct Hs as [->| ->]; [done|by rewrite andb_false_r]).
  assert (negb (String.eqb (ef_NodeID filter) "") && negb (graphIDPattern (ef_NodeID filter)) = false) as En
    by (destruct Hn as [->| ->]; [done|by rewrite andb_false_r]).
  apply (listing_follow enrolled_stamp) with (limit := ef_Limit filter)
    (enc := fun k => encodeTypedCursor enrollmentCursorKind (fst k) (snd k)).
  - unfold ListEnrollments. cbn [ef_Status ef_NodeID ef_Cursor ef_Limit]. rewrite Es, En. unfold run_service. rewrite Hr.
    cbn [String.eqb result_bind]. rewrite Ha. cbn [result_bind]. unfold list_page. rewrite page_first; [done|]. apply Ht.
  - intros x Hx. unfold ListEnrollments. cbn [ef_Status ef_NodeID ef_Cursor ef_Limit]. rewrite Es, En.
    unfold stamped. cbn [fst snd]. rewrite (proj2 (String.eqb_neq _ _)) by apply typed_cursor_nonempty.
    rewrite typed_cursor_roundtrip; [|vm_decide|by apply Ht]. unfold run_service. rewrite Hr. cbn [result_bind]. by rewrite Ha.
Qed.

(** Times the layout writes and version numbers the column holds. *)
Definition stamps_ok (d : db) : Prop :=
  map_Forall (fun _ a => rfc_time (a_created_at a)) (db_automations d) /\
  map_Forall (fun _ v => 0 < v_number v < 2 ^ 31)%Z (db_versions d) /\
  map_Forall (fun _ e => rfc_time (enrolled_stamp e) /\ enrolled_stamp e < fst first_cursor)%Z (db_enrollments d).

(** What a client that follows the cursors from the first page gets: every row,
    once, in order. *)
Definition lists {A B : Type} (fetch : string -> result error (list B * option string)) (stamp : A -> Z)
    (f : uuid * A -> B) (rows : list (uuid * A)) : Prop :=
  exists sorted, sorted ≡ₚ rows /\ StronglySorted (newest stamp) sorted /\
    follow fetch (S (length rows)) "" = Some (Ok (map f sorted)).

Lemma lists_sorted {A B : Type} (fetch : string -> result error (list B * option string)) (stamp : A -> Z)
    (f : uuid * A -> B) (rows : list (uuid * A)) :
  follow fetch (S (length rows)) "" = Some (Ok (map f (merge_sort (newest stamp) rows))) -> lists fetch stamp f rows.
Proof.
  exists (merge_sort (newest stamp) rows). split; [apply merge_sort_Permutation|]. split; [|done].
  by apply (StronglySorted_merge_sort (newest stamp)).
Qed.

(** C8: Reading the automations of a business, the versions of an automation or
    its enrollments page by page, each page by the cursor of the one before, ends
    after at most one page more than there are rows and yields every row the
    listing selects exactly once, newest first, whatever the page size asked
    for: the cursors lose no row at a page boundary and repeat none. *)
Theorem listings_complete (principal business root automation : uuid) (a : automation_row) (filter : EnrollmentFilter)
    (limit : Z) (d : db) :
  resolveTenantRoot principal business d = Ok root -> GetAutomation automation business root d = Ok a ->
  ef_Status filter = "" \/ validEnrollmentStatus (ef_Status filter) = true ->
  ef_NodeID filter = "" \/ graphIDPattern (ef_NodeID filter) = true -> stamps_ok d ->
  lists (fun c => snd (List_automations principal business c limit d)) a_created_at
    (fun x => toAutomation (fst x) (snd x)) (automations_of d business root) /\
  lists (fun c => snd (Versions principal business automation c limit d)) v_number
    (fun x => versionSummary (fst x) (snd x)) (versions_of d automation business root) /\
  lists (fun c => snd (ListEnrollments principal business automation
                         {| ef_Status := ef_Status filter; ef_NodeID := ef_NodeID filter; ef_Cursor := c; ef_Limit := ef_Limit filter |} d))
    enrolled_stamp (fun x => scanEnrollment (fst x) (snd x))
    (enrollments_of d automation business root (ef_Status filter) (ef_NodeID filter)).
Proof.
  intros Hr Ha Hs Hn (Hta & Htv & Hte). split_and!; apply lists_sorted.
  - apply List_automations_complete; [done|]. intros [id x] [Hx _]%elem_of_mselect. by apply (Hta id).
  - eapply Versions_complete; [done|done|]. intros [id x] [Hx _]%elem_of_mselect. by apply (Htv id).
  - eapply ListEnrollments_complete; [done|done|done|done|]. intros [id x] [Hx _]%elem_of_mselect. by apply (Hte id).
Qed.
End Complete.

(** ** A layout of times, and three automations read one by one *)

Fixpoint bits (p : positive) : list ascii :=
  match p with xH => [] | xO p => "0"%char :: bits p | xI p => "1"%char :: bits p end.
Fixpoint of_bits (l : list ascii) : positive :=
  match l with [] => xH | c :: l => if Ascii.eqb c "0" then xO (of_bits l) else xI (of_bits l) end.
Lemma of_bits_bits (p : positive) : of_bits (bits p) = p.
Proof. induction p as [p IH|p IH|]; simpl; by rewrite ?IH. Qed.
Lemma bits_plain (p : positive) : "|"%char ∉ bits p.
Proof. induction p; simpl; rewrite ?not_elem_of_cons; [by split..|apply not_elem_of_nil]. Qed.

Definition year_zero : Z := -62167219200 * Second.
Definition demo_cursor_time : CursorTime.
Proof.
  refine {| time_RFC3339Nano := fun t => of_bytes (bits (Z.to_pos (t - year_zero + 1)));
            time_ParseNano := fun s => Some (Z.pos (of_bits (bytes s)) + year_zero - 1)%Z |}.
  - intros t [Ht _]. rewrite bytes_of_bytes, of_bits_bits, Z2Pos.id by (unfold year_zero; lia). f_equal. lia.
  - intros t. rewrite bytes_of_bytes. apply bits_plain.
Defined.
#[local] Existing Instances demo_unicode demo_uuid demo_authz demo_cursor_time.

Definition demo_many : db := (Create 7 1 demo_input (2 * Second) (Create 7 1 demo_input (1 * Second) demo_enrolled).1).1.
Definition demo_filter : EnrollmentFilter := {| ef_Status := "active"; ef_NodeID := ""; ef_Cursor := ""; ef_Limit := 1 |}.

Example demo_listed :
  (fun x => match x with Ok l => map au_ID l | Err _ => [] end) <$>
    follow (fun c => snd (List_automations 7 1 c 1 demo_many)) 4 "" = Some [2%N; 1%N; 0%N].
Proof. vm_compute. reflexivity. Qed.

Lemma listings_complete_witness :
  lists (fun c => snd (List_automations 7 1 c 1 demo_many)) a_created_at
    (fun x => toAutomation (fst x) (snd x)) (automations_of demo_many 1 1) /\
  length (automations_of demo_many 1 1) = 3.
Proof.
  destruct (GetAutomation 0 1 1 demo_many) as [a|] eqn:Ha; [|by vm_compute in Ha]. split; [|by vm_compute].
  apply (listings_complete 7 1 1 0 a demo_filter 1 demo_many).
  - by vm_compute.
  - exact Ha.
  - right. by vm_compute.
  - left. reflexivity.
  - split_and!; apply (bool_decide_unpack _); vm_compute; exact I.
Defined.
