(* ===== verification/WorkFields.v ===== *)
(** * Work board: fields, keys and notes

    [internal/work/validate.go] and the parts of [internal/work/types.go] it
    uses: the validation and normalisation of task fields, the shapes of task
    keys, slugs, prefixes and tokens, key generation, and the rendering of
    notes.  Randomness is an argument: the values the generator drew. *)

From S2P Require Import Prelude GoStrings GoTime GoJson.
#[local] Open Scope go_scope.

(** ** Errors *)

(** [validationError], the sentinels of [errs], [pgx.ErrNoRows], a
    [pgconn.PgError] with its constraint name, any other error, and a wrapped
    one. *)
Inductive werror : Type :=
| validationError (msg : string)
| WNoRows
| WPgError (code constraint : string)
| WNotFound | WConflict | WTenantMaintenance | WTokenUnauthorized
| WOther (msg : string)
| WWrapped (context : string) (cause : werror).

Definition errValidation {A : Type} (msg : string) : result werror A := Err (validationError msg).

(** ** Limits and shapes *)

Definition maxTitleLen : Z := 500.
Definition maxDescriptionLen : Z := 20000.
Definition maxNotesLen : Z := 200000.
Definition maxNoteLen : Z := 10000.
Definition maxAuthorLen : Z := 100.
Definition maxAssigneeLen : Z := 200.
Definition maxLabels : Z := 50.
Definition maxLabelLen : Z := 64.
Definition maxBlockedBy : Z := 100.
Definition maxProjectNameLen : Z := 200.
Definition maxTokenNameLen : Z := 100.
Definition keySuffixLen : nat := 6.

Definition alnum (c : ascii) : bool := is_lower c || is_digit c.

(** [^[a-z][a-z0-9]{0,11}$] *)
Definition prefixRe (s : string) : bool :=
  match bytes s with
  | c :: r => is_lower c && forallb alnum r && Nat.leb (length r) 11
  | [] => false
  end.

(** [[a-z0-9]{2,16}] and [[0-9]{1,4}] *)
Definition key_id (s : string) : bool :=
  forallb alnum (bytes s) && Nat.leb 2 (String.length s) && Nat.leb (String.length s) 16.
Definition key_child (s : string) : bool :=
  forallb is_digit (bytes s) && Nat.leb 1 (String.length s) && Nat.leb (String.length s) 4.

(** [^[a-z][a-z0-9]{0,11}-[a-z0-9]{2,16}(\.[0-9]{1,4}){0,3}$] *)
Definition keyRe (s : string) : bool :=
  match Split s "-" with
  | [prefix; rest] =>
      match Split rest "." with
      | id :: children => prefixRe prefix && key_id id && forallb key_child children && Nat.leb (length children) 3
      | [] => false
      end
  | _ => false
  end.

(** [^[a-z0-9][a-z0-9-]{0,62}$] *)
Definition slugRe (s : string) : bool :=
  match bytes s with
  | c :: r => alnum c && forallb (fun c => alnum c || Ascii.eqb c "-") r && Nat.leb (length r) 62
  | [] => false
  end.

(** [^mfw_[A-Za-z0-9_-]{43}$] *)
Definition tokenRe (s : string) : bool :=
  HasPrefix s "mfw_" &&
  forallb (fun c => alnum c || is_upper c || Ascii.eqb c "_" || Ascii.eqb c "-") (drop 4 (bytes s)) &&
  Nat.eqb (String.length s) 47.

Definition validLanes (s : string) : bool := String.eqb s "agent" || String.eqb s "operator".
Definition validStatuses (s : string) : bool :=
  existsb (String.eqb s) ["backlog"; "todo"; "in_progress"; "blocked"; "done"; "canceled"].
Definition validTypes (s : string) : bool := existsb (String.eqb s) ["task"; "bug"; "feature"; "chore"].
Definition closed_status (s : string) : bool := String.eqb s "done" || String.eqb s "canceled".

(** ** Task fields *)

Record TaskFields := {
  tf_Title : option string; tf_Description : option string; tf_Lane : option string;
  tf_Status : option string; tf_Priority : option Z; tf_Type : option string;
  tf_Assignee : option string; tf_Labels : option (list string); tf_BlockedBy : option (list string)
}.

Definition no_fields : TaskFields := Build_TaskFields None None None None None None None None None.

Definition tf_empty (f : TaskFields) : bool :=
  match f with Build_TaskFields None None None None None None None None None => true | _ => false end.

(** [dedupe]: normalises, drops empties and keeps the first occurrence; [seen]
    is what has been kept so far. *)
Fixpoint dedupe_from (seen : list string) (norm : string -> string) (l : list string) : list string :=
  match l with
  | [] => []
  | v :: r =>
      let v := norm v in
      if String.eqb v "" || existsb (String.eqb v) seen then dedupe_from seen norm r
      else v :: dedupe_from (v :: seen) norm r
  end.
Definition dedupe (l : list string) (norm : string -> string) : list string := dedupe_from [] norm l.

Section Fields.
Context `{UnicodeTables}.

(** A check on a field that was sent. *)
Definition sent {A B : Type} (o : option A) (check : A -> result werror B) : result werror (option B) :=
  match o with
  | Some a => match check a with Ok b => Ok (Some b) | Err e => Err e end
  | None => Ok None
  end.

Definition norm_title (s : string) : result werror string :=
  let t := TrimSpace s in
  if String.eqb t "" || (maxTitleLen <? RuneCountInString t)%Z
  then errValidation "title must be 1..500 characters" else Ok t.
Definition norm_description (s : string) : result werror string :=
  if (maxDescriptionLen <? RuneCountInString s)%Z
  then errValidation "description must be at most 20000 characters" else Ok s.
Definition norm_lane (s : string) : result werror string :=
  if negb (validLanes s) then errValidation "lane must be agent or operator" else Ok s.
Definition norm_status (s : string) : result werror string :=
  if negb (validStatuses s)
  then errValidation "status must be one of backlog, todo, in_progress, blocked, done, canceled" else Ok s.
Definition norm_priority (p : Z) : result werror Z :=
  if (p <? 0)%Z || (4 <? p)%Z then errValidation "priority must be 0..4" else Ok p.
Definition norm_type (s : string) : result werror string :=
  if negb (validTypes s) then errValidation "type must be one of task, bug, feature, chore" else Ok s.
Definition norm_assignee (s : string) : result werror string :=
  let a := TrimSpace s in
  if (maxAssigneeLen <? RuneCountInString a)%Z
  then errValidation "assignee must be at most 200 characters" else Ok a.
Definition norm_labels (l : list string) : result werror (list string) :=
  let labels := dedupe l TrimSpace in
  if (maxLabels <? Z.of_nat (length labels))%Z then errValidation "at most 50 labels"
  else if existsb (fun x => (maxLabelLen <? RuneCountInString x)%Z) labels
  then errValidation "labels must be at most 64 characters" else Ok labels.
Definition norm_key (s : string) : string := ToLower (TrimSpace s).
Definition norm_blocked_by (l : list string) : result werror (list string) :=
  let keys := dedupe l norm_key in
  if (maxBlockedBy <? Z.of_nat (length keys))%Z then errValidation "at most 100 blocked_by keys"
  else if negb (forallb keyRe keys) then errValidation "blocked_by must contain task keys" else Ok keys.

Definition normalizeFields (f : TaskFields) : result werror TaskFields :=
  let? title := sent (tf_Title f) norm_title in
  let? description := sent (tf_Description f) norm_description in
  let? lane := sent (tf_Lane f) norm_lane in
  let? status := sent (tf_Status f) norm_status in
  let? priority := sent (tf_Priority f) norm_priority in
  let? typ := sent (tf_Type f) norm_type in
  let? assignee := sent (tf_Assignee f) norm_assignee in
  let? labels := sent (tf_Labels f) norm_labels in
  let? blockedBy := sent (tf_BlockedBy f) norm_blocked_by in
  Ok (Build_TaskFields title description lane status priority typ assignee labels blockedBy).

(** ** Values for insertion *)

Record taskValues := {
  tv_title : string; tv_description : string; tv_lane : string; tv_status : string; tv_typ : string;
  tv_assignee : string; tv_priority : Z; tv_labels : list string; tv_blockedBy : list string;
  tv_createdAt : option time; tv_closedAt : option time
}.

Definition createValues (f : TaskFields) : result werror taskValues :=
  match tf_Title f with
  | None => errValidation "title required"
  | Some title =>
      Ok {| tv_title := title; tv_description := default "" (tf_Description f);
            tv_lane := default "agent" (tf_Lane f); tv_status := default "todo" (tf_Status f);
            tv_typ := default "task" (tf_Type f); tv_assignee := default "" (tf_Assignee f);
            tv_priority := default 2%Z (tf_Priority f); tv_labels := default [] (tf_Labels f);
            tv_blockedBy := default [] (tf_BlockedBy f); tv_createdAt := None; tv_closedAt := None |}
  end.

(** ** Keys *)

Definition validKey (key prefix : string) : bool := keyRe key && HasPrefix key (prefix +:+ "-").

Definition base36 (n : N) : ascii := byte_of (if (n <? 10)%N then n + 48 else n + 87)%N.

(** The draws of [rand.Int(rand.Reader, 36)], one per character; [None] when the
    source of randomness fails. *)
Definition newTaskKey (prefix : string) (draws : option (list N)) : result werror string :=
  match draws with
  | None => Err (WWrapped "work: key entropy" (WOther "read failed"))
  | Some ns => Ok (prefix +:+ "-" +:+ of_bytes (map base36 (take keySuffixLen ns)))
  end.

(** ** Notes *)

(** The runes of a string, each as its bytes. *)
Fixpoint runes_from (fuel : nat) (l : list ascii) : list (list ascii) :=
  match fuel, l with
  | S f, _ :: _ => take (rune_len l) l :: runes_from f (drop (rune_len l) l)
  | _, _ => []
  end.
Definition runes (s : string) : list (list ascii) := runes_from (String.length s) (bytes s).

Definition IsSpace (r : list ascii) : bool := bool_decide (r ∈ space_runes).
Definition IsControl (r : list ascii) : bool :=
  match r with
  | [c] => (N_of_ascii c <? 32)%N || (N_of_ascii c =? 127)%N
  | [c; d] => Ascii.eqb c (byte_of 194) && in_range 128 159 d
  | _ => false
  end.
Definition author_separator (r : list ascii) : bool :=
  IsSpace r || IsControl r || bool_decide (r = ["["%char]) || bool_decide (r = ["]"%char]).

(** [strings.FieldsFunc]: [cur] is the field being read, [None] between fields. *)
Fixpoint fields_from (sep : list ascii -> bool) (cur : option (list ascii)) (l : list (list ascii))
  : list (list ascii) :=
  match l with
  | [] => match cur with Some f => [f] | None => [] end
  | r :: l' =>
      if sep r then match cur with Some f => f :: fields_from sep None l' | None => fields_from sep None l' end
      else fields_from sep (Some (default [] cur ++ r)) l'
  end.
Definition FieldsFunc (s : string) (sep : list ascii -> bool) : list (list ascii) := fields_from sep None (runes s).

Fixpoint join_bytes (sep : list ascii) (l : list (list ascii)) : list ascii :=
  match l with
  | [] => []
  | [x] => x
  | x :: r => x ++ sep ++ join_bytes sep r
  end.

(** [strings.ReplaceAll] of CR LF by LF, of CR by LF, and of LF by LF and two blanks. *)
Fixpoint crlf_to_lf (l : list ascii) : list ascii :=
  match l with
  | [] => []
  | c :: r =>
      match r with
      | d :: r' => if Ascii.eqb c (byte_of 13) && Ascii.eqb d (byte_of 10) then d :: crlf_to_lf r'
                   else c :: crlf_to_lf r
      | [] => [c]
      end
  end.
Definition cr_to_lf (l : list ascii) : list ascii :=
  map (fun c => if Ascii.eqb c (byte_of 13) then byte_of 10 else c) l.
Definition indent_lines (l : list ascii) : list ascii :=
  flat_map (fun c => if Ascii.eqb c (byte_of 10) then [c; " "; " "]%char else [c]) l.

(** [now.UTC().Format(time.RFC3339)], for the years 0 to 9999. *)
Definition pad (width : nat) (z : Z) : string :=
  let s := itoa z in of_bytes (repeat "0"%char (width - String.length s)) +:+ s.
Definition civil (day : Z) : Z * Z * Z :=
  let z := (day + 719468)%Z in
  let era := (z / 146097)%Z in
  let doe := (z mod 146097)%Z in
  let yoe := ((doe - doe / 1460 + doe / 36524 - doe / 146096) / 365)%Z in
  let doy := (doe - (365 * yoe + yoe / 4 - yoe / 100))%Z in
  let mp := ((5 * doy + 2) / 153)%Z in
  let d := (doy - (153 * mp + 2) / 5 + 1)%Z in
  let m := (if mp <? 10 then mp + 3 else mp - 9)%Z in
  ((yoe + era * 400 + (if m <=? 2 then 1 else 0))%Z, m, d).
Definition RFC3339 (t : time) : string :=
  let '(y, m, d) := civil (day_number UTC t) in
  pad 4 y +:+ "-" +:+ pad 2 m +:+ "-" +:+ pad 2 d +:+ "T" +:+ pad 2 (hour_of UTC t) +:+ ":" +:+
  pad 2 (minute_of UTC t) +:+ ":" +:+ pad 2 (second_of UTC t) +:+ "Z".

Definition clean_author (author : string) : string :=
  of_bytes (join_bytes [" "%char] (FieldsFunc author author_separator)).

Definition formatNote (now : time) (author fallback via text : string) : result werror string :=
  let text := TrimSpace text in
  if String.eqb text "" || (maxNoteLen <? RuneCountInString text)%Z
  then errValidation "note text must be 1..10000 characters" else
  let author := clean_author author in
  if (maxAuthorLen <? RuneCountInString author)%Z
  then errValidation "note author must be at most 100 characters" else
  let author := if String.eqb author "" then fallback else author in
  let author := if String.eqb via "" then author else author +:+ " (" +:+ via +:+ ")" in
  let text := of_bytes (indent_lines (cr_to_lf (crlf_to_lf (bytes text)))) in
  Ok ("[" +:+ RFC3339 now +:+ " " +:+ author +:+ "] " +:+ text).

(** ** Projects and tokens *)

Record ProjectInput := { pi_Name : string; pi_Slug : string; pi_KeyPrefix : string }.

(** Runs of bytes outside [a-z0-9] become one hyphen; [gap] is whether the run
    at hand has been written. *)
Fixpoint hyphenate (gap : bool) (l : list ascii) : list ascii :=
  match l with
  | [] => []
  | c :: r => if alnum c then c :: hyphenate false r
              else if gap then hyphenate true r else "-"%char :: hyphenate true r
  end.
Definition hyphen : list (list ascii) := [["-"%char]].
Definition trim_hyphens_right (l : list ascii) : list ascii := rev (strip hyphen (length l) (rev l)).
Definition trim_hyphens (l : list ascii) : list ascii := trim_hyphens_right (strip hyphen (length l) l).

Definition slugify (s : string) : string :=
  let l := trim_hyphens (hyphenate false (bytes (ToLower (TrimSpace s)))) in
  of_bytes (if Nat.ltb 63 (length l) then trim_hyphens_right (take 63 l) else l).

Fixpoint derive_from (acc l : list ascii) : list ascii :=
  match l with
  | [] => acc
  | c :: r =>
      if Nat.eqb (length acc) 8 then acc
      else if is_lower c then derive_from (acc ++ [c]) r
      else if is_digit c && negb (Nat.eqb (length acc) 0) then derive_from (acc ++ [c]) r
      else derive_from acc r
  end.
Definition deriveKeyPrefix (slug : string) : string :=
  match derive_from [] (bytes slug) with [] => "w" | l => of_bytes l end.

Definition normalizeProject `{UUIDLib} (input : ProjectInput) : result werror (string * string * string) :=
  let name := TrimSpace (pi_Name input) in
  if String.eqb name "" || (maxProjectNameLen <? RuneCountInString name)%Z
  then errValidation "name must be 1..200 characters" else
  let slug := ToLower (TrimSpace (pi_Slug input)) in
  let slug := if String.eqb slug "" then slugify name else slug in
  if negb (slugRe slug) then errValidation "slug must match ^[a-z0-9][a-z0-9-]{0,62}$" else
  if bool_decide (uuid_Parse slug <> None) then errValidation "slug must not be a UUID" else
  let prefix := ToLower (TrimSpace (pi_KeyPrefix input)) in
  let prefix := if String.eqb prefix "" then deriveKeyPrefix slug else prefix in
  if negb (prefixRe prefix) then errValidation "key_prefix must match ^[a-z][a-z0-9]{0,11}$" else
  Ok (name, slug, prefix).

Definition validTokenName (name : string) : result werror string :=
  let name := TrimSpace name in
  if String.eqb name "" || (maxTokenNameLen <? RuneCountInString name)%Z
  then errValidation "name must be 1..100 characters" else Ok name.
End Fields.
