(* ===== verification/WorkFieldsFacts.v ===== *)
(** * Properties of task fields, keys and notes *)

From S2P Require Import Prelude GoStrings GoTime GoJson Concrete WorkFields.

(** ** Strings of plain bytes *)

Lemma forallb_split (P : ascii -> bool) (sep : ascii) (l : list ascii) :
  P sep = true -> (forall w, w ∈ split_bytes sep l -> forallb P w = true) -> forallb P l = true.
Proof.
  intros Hsep. induction l as [|c l IH]; simpl; [done|]. intros Hall.
  destruct (Ascii.eqb_spec c sep) as [->|Hc].
  - rewrite Hsep. simpl. apply IH. intros w Hw. apply Hall. by right.
  - destruct (split_bytes sep l) as [|w ws] eqn:Hs; [by destruct l; simpl in Hs; repeat case_match|].
    assert (Hcw : forallb P (c :: w) = true) by (apply Hall; left). simpl in Hcw. to_prop.
    apply andb_true_iff. split; [done|]. apply IH. intros w' Hw'.
    apply elem_of_cons in Hw' as [->|Hw']; [done|]. apply Hall. by right.
Qed.

Lemma stripped_plain (P : ascii -> bool) (pats : list (list ascii)) (l : list ascii) :
  Forall (fun p => match p with c :: _ => P c = false | [] => False end) pats ->
  forallb P l = true -> stripped pats l.
Proof.
  intros Hp Hl. unfold stripped. eapply Forall_impl; [exact Hp|]. intros p Hc. simpl.
  destruct p as [|c p]; [done|]. destruct l as [|d l]; [done|]. simpl in *. to_prop.
  destruct (Ascii.eqb_spec c d) as [->|]; [congruence|done].
Qed.

Definition key_byte (c : ascii) : bool := alnum c || Ascii.eqb c "-" || Ascii.eqb c ".".

Lemma plain_trim (s : string) : forallb key_byte (bytes s) = true -> TrimSpace s = s.
Proof.
  intros Hs. unfold TrimSpace. rewrite trim_id; [apply of_bytes_bytes|]. split.
  - apply (stripped_plain key_byte); [|done]. by repeat constructor.
  - apply (stripped_plain key_byte); [by repeat constructor|].
    rewrite forallb_forall in *. intros c Hc. apply Hs. by apply in_rev.
Qed.

Lemma forallb_weaken {A : Type} (P Q : A -> bool) (l : list A) :
  (forall x, P x = true -> Q x = true) -> forallb P l = true -> forallb Q l = true.
Proof. intros HPQ. rewrite !forallb_forall. auto. Qed.

(** A statement about all bytes holds when it holds for the 256 of them. *)
Lemma byte_forall (Q : ascii -> bool) :
  forallb (fun n => Q (byte_of (N.of_nat n))) (seq 0 256) = true -> forall c, Q c = true.
Proof.
  intros Hall c. rewrite forallb_forall in Hall. specialize (Hall (N.to_nat (N_of_ascii c))). cbv beta in Hall.
  rewrite N2Nat.id in Hall. unfold byte_of in Hall. rewrite ascii_N_embedding in Hall. apply Hall.
  apply in_seq. pose proof (N_ascii_bounded c). lia.
Qed.

Lemma key_byte_lower (c : ascii) : key_byte c = true -> is_ascii c = true /\ lower_byte c = c.
Proof.
  intros Hc. pose proof (byte_forall (fun c => negb (key_byte c) || (is_ascii c && Ascii.eqb (lower_byte c) c))
    ltac:(vm_compute; reflexivity) c) as Hall. cbv beta in Hall. rewrite Hc in Hall. simpl in Hall.
  by rewrite andb_true_iff, Ascii.eqb_eq in Hall.
Qed.

Lemma bytes_inj (s t : string) : bytes s = bytes t -> s = t.
Proof. intros He. by rewrite <- (of_bytes_bytes s), He, of_bytes_bytes. Qed.

Section Facts.
Context `{UnicodeTables}.

Lemma plain_lower (s : string) : forallb key_byte (bytes s) = true -> ToLower s = s.
Proof.
  intros Hs. unfold ToLower, all_ascii.
  rewrite (forallb_weaken key_byte is_ascii) by (done || (intros c Hc; by apply key_byte_lower)).
  transitivity (of_bytes (bytes s)); [|apply of_bytes_bytes]. f_equal.
  rewrite <- (map_id (bytes s)) at 2. apply map_ext_in. intros c Hc.
  rewrite forallb_forall in Hs. by apply key_byte_lower, Hs.
Qed.

Lemma prefix_bytes (s : string) : prefixRe s = true -> forallb alnum (bytes s) = true.
Proof.
  unfold prefixRe. destruct (bytes s) as [|c r]; [done|]. intros Hp. to_prop. simpl.
  apply andb_true_iff. split; [|done]. unfold alnum. apply orb_true_iff. by left.
Qed.

Lemma keyRe_bytes (s : string) : keyRe s = true -> forallb key_byte (bytes s) = true.
Proof.
  unfold keyRe, Split. destruct (split_bytes "-" (bytes s)) as [|p [|rest [|]]] eqn:Hs; simpl; try done.
  rewrite bytes_of_bytes. destruct (split_bytes "." rest) as [|id children] eqn:Hr; simpl; [done|].
  intros Hk. to_prop.
  assert (Hal : forall c, alnum c = true -> key_byte c = true) by (intros c Hc; unfold key_byte; by rewrite Hc).
  assert (Hp : forallb key_byte p = true).
  { apply (forallb_weaken alnum); [done|]. rewrite <- (bytes_of_bytes p). by apply prefix_bytes. }
  assert (Hrest : forallb key_byte rest = true).
  { apply (forallb_split key_byte "."); [done|]. rewrite Hr. intros w Hw.
    apply elem_of_cons in Hw as [->|Hw].
    - unfold key_id in *. to_prop. rewrite bytes_of_bytes in *. by apply (forallb_weaken alnum).
    - match goal with Hc : forallb key_child _ = true |- _ => rewrite forallb_forall in Hc;
        specialize (Hc (of_bytes w)) end.
      assert (Hin : In (of_bytes w) (map of_bytes children))
        by (apply in_map; by apply list_elem_of_In).
      match goal with Hc : _ -> key_child _ = true |- _ => specialize (Hc Hin); unfold key_child in Hc end.
      to_prop. rewrite bytes_of_bytes in *. eapply (forallb_weaken is_digit); [|done].
      intros c Hc. unfold key_byte, alnum. by rewrite Hc, orb_true_r. }
  apply (forallb_split key_byte "-"); [done|]. rewrite Hs. intros w Hw.
  apply elem_of_cons in Hw as [->|Hw]; [done|]. by apply list_elem_of_singleton in Hw as ->.
Qed.

Lemma norm_key_id (s : string) : keyRe s = true -> norm_key s = s.
Proof. intros Hk. apply keyRe_bytes in Hk. unfold norm_key. by rewrite plain_trim, plain_lower. Qed.

(** ** Deduplication *)

Lemma existsb_eqb (v : string) (l : list string) : existsb (String.eqb v) l = true <-> v ∈ l.
Proof.
  rewrite existsb_exists. split.
  - intros (x & Hx & Hv). apply String.eqb_eq in Hv as ->. by apply list_elem_of_In.
  - intros Hv. exists v. split; [by apply list_elem_of_In|apply String.eqb_refl].
Qed.

Lemma dedupe_from_spec (seen : list string) (norm : string -> string) (l : list string) :
  NoDup (dedupe_from seen norm l) /\
  Forall (fun x => x <> "" /\ x ∉ seen /\ x ∈ map norm l) (dedupe_from seen norm l).
Proof.
  revert seen. induction l as [|v l IH]; intros seen; simpl; [by split; constructor|].
  destruct (String.eqb_spec (norm v) "") as [He|He]; simpl.
  - destruct (IH seen) as [Hnd Hall]. split; [done|]. eapply Forall_impl; [exact Hall|].
    intros x (H1 & H2 & H3). split_and!; [done|done|by right].
  - destruct (existsb (String.eqb (norm v)) seen) eqn:Hs.
    + destruct (IH seen) as [Hnd Hall]. split; [done|]. eapply Forall_impl; [exact Hall|].
      intros x (H1 & H2 & H3). split_and!; [done|done|by right].
    + destruct (IH (norm v :: seen)) as [Hnd Hall]. rewrite Forall_forall in Hall.
      rewrite <- not_true_iff_false, existsb_eqb in Hs. split.
      * constructor; [|done]. intros Hin. destruct (Hall _ Hin) as (_ & Hn & _). apply Hn. left.
      * constructor; [split_and!; [done|done|left]|]. apply Forall_forall. intros x Hx.
        destruct (Hall x Hx) as (H1 & H2 & H3). rewrite not_elem_of_cons in H2.
        split_and!; [done|naive_solver|by right].
Qed.

Lemma dedupe_id (seen : list string) (norm : string -> string) (l : list string) :
  NoDup l -> Forall (fun x => x <> "" /\ x ∉ seen /\ norm x = x) l -> dedupe_from seen norm l = l.
Proof.
  intros Hnd. revert seen. induction Hnd as [|v l Hv Hnd IH]; intros seen Hall; simpl; [done|].
  apply Forall_cons in Hall as [(H1 & H2 & H3) Hall]. rewrite H3.
  rewrite (proj2 (String.eqb_neq v "")) by done. simpl.
  destruct (existsb (String.eqb v) seen) eqn:Hs; [by apply existsb_eqb in Hs|].
  f_equal. apply IH. apply Forall_forall. intros x Hx. rewrite Forall_forall in Hall.
  destruct (Hall x Hx) as (H1' & H2' & H3'). split_and!; try done.
  rewrite not_elem_of_cons. split; [congruence|done].
Qed.

(** A normalisation that leaves its results alone leaves a deduplicated list alone. *)
Lemma dedupe_idem (norm : string -> string) (l : list string) :
  Forall (fun x => norm x = x) (dedupe l norm) -> dedupe (dedupe l norm) norm = dedupe l norm.
Proof.
  intros Hn. unfold dedupe at 1. destruct (dedupe_from_spec [] norm l) as [Hnd Hall].
  apply dedupe_id; [done|]. apply Forall_forall. intros x Hx. rewrite Forall_forall in Hn, Hall.
  destruct (Hall x Hx) as (H1 & _ & _). split_and!; [done|apply not_elem_of_nil|by apply Hn].
Qed.

Lemma dedupe_trim (l : list string) : Forall (fun x => TrimSpace x = x) (dedupe l TrimSpace).
Proof.
  destruct (dedupe_from_spec [] TrimSpace l) as [_ Hall]. eapply Forall_impl; [exact Hall|].
  intros x (_ & _ & Hx). apply list_elem_of_fmap in Hx as (v & -> & _). apply TrimSpace_idem.
Qed.

(** ** Normalisation *)

Lemma sent_ok {A B : Type} (check : A -> result werror B) (o : option A) (o' : option B) :
  sent o check = Ok o' -> match o, o' with
                          | Some a, Some b => check a = Ok b
                          | None, None => True
                          | _, _ => False
                          end.
Proof. destruct o as [a|]; simpl; [|by intros [= <-]]. destruct (check a); [by intros [= <-]|done]. Qed.

Definition is_none {A : Type} (o : option A) : bool := match o with None => true | Some _ => false end.

Lemma sent_empty {A B : Type} (check : A -> result werror B) (o : option A) (o' : option B) :
  sent o check = Ok o' -> is_none o' = is_none o.
Proof. intros Hs. apply sent_ok in Hs. by destruct o, o'. Qed.

Lemma tf_empty_spec (f : TaskFields) :
  tf_empty f = is_none (tf_Title f) && is_none (tf_Description f) && is_none (tf_Lane f) && is_none (tf_Status f) &&
               is_none (tf_Priority f) && is_none (tf_Type f) && is_none (tf_Assignee f) && is_none (tf_Labels f) &&
               is_none (tf_BlockedBy f).
Proof. destruct f as [[] [] [] [] [] [] [] [] []]; reflexivity. Qed.

Lemma sent_idem {A : Type} (check : A -> result werror A) (o o' : option A) :
  (forall a b, check a = Ok b -> check b = Ok b) -> sent o check = Ok o' -> sent o' check = Ok o'.
Proof.
  intros Hc Hs. apply sent_ok in Hs. destruct o as [a|], o' as [b|]; try done. simpl. by rewrite (Hc a b Hs).
Qed.

Lemma norm_labels_idem (l l' : list string) : norm_labels l = Ok l' -> norm_labels l' = Ok l'.
Proof.
  unfold norm_labels. cbv zeta. destruct (Z.ltb _ _) eqn:Hn; [done|]. destruct (existsb _ _) eqn:He; [done|].
  intros [= <-]. rewrite dedupe_idem by apply dedupe_trim. by rewrite Hn, He.
Qed.

Lemma norm_blocked_by_idem (l l' : list string) : norm_blocked_by l = Ok l' -> norm_blocked_by l' = Ok l'.
Proof.
  unfold norm_blocked_by. cbv zeta. destruct (Z.ltb _ _) eqn:Hn; [done|].
  destruct (forallb keyRe (dedupe l norm_key)) eqn:Hk; [|done]. simpl. intros [= <-].
  rewrite dedupe_idem; [by rewrite Hn, Hk|]. apply Forall_forall. intros x Hx.
  rewrite forallb_forall in Hk. by apply norm_key_id, Hk, list_elem_of_In.
Qed.

Lemma bind_split {E A B : Type} (m : result E A) (k : A -> result E B) (b : B) :
  result_bind m k = Ok b -> exists a, m = Ok a /\ k a = Ok b.
Proof. destruct m; simpl; [eauto|done]. Qed.

(** The parts of a successful normalisation. *)
Lemma normalizeFields_inv (f f' : TaskFields) :
  normalizeFields f = Ok f' ->
  sent (tf_Title f) norm_title = Ok (tf_Title f') /\ sent (tf_Description f) norm_description = Ok (tf_Description f') /\
  sent (tf_Lane f) norm_lane = Ok (tf_Lane f') /\ sent (tf_Status f) norm_status = Ok (tf_Status f') /\
  sent (tf_Priority f) norm_priority = Ok (tf_Priority f') /\ sent (tf_Type f) norm_type = Ok (tf_Type f') /\
  sent (tf_Assignee f) norm_assignee = Ok (tf_Assignee f') /\ sent (tf_Labels f) norm_labels = Ok (tf_Labels f') /\
  sent (tf_BlockedBy f) norm_blocked_by = Ok (tf_BlockedBy f').
Proof.
  unfold normalizeFields. intros Hf.
  do 9 (apply bind_split in Hf as (? & ? & Hf)). injection Hf as <-. by split_and!.
Qed.

Lemma normalizeFields_of_parts (f : TaskFields) :
  sent (tf_Title f) norm_title = Ok (tf_Title f) -> sent (tf_Description f) norm_description = Ok (tf_Description f) ->
  sent (tf_Lane f) norm_lane = Ok (tf_Lane f) -> sent (tf_Status f) norm_status = Ok (tf_Status f) ->
  sent (tf_Priority f) norm_priority = Ok (tf_Priority f) -> sent (tf_Type f) norm_type = Ok (tf_Type f) ->
  sent (tf_Assignee f) norm_assignee = Ok (tf_Assignee f) -> sent (tf_Labels f) norm_labels = Ok (tf_Labels f) ->
  sent (tf_BlockedBy f) norm_blocked_by = Ok (tf_BlockedBy f) -> normalizeFields f = Ok f.
Proof.
  intros H1 H2 H3 H4 H5 H6 H7 H8 H9. unfold normalizeFields.
  rewrite H1, H2, H3, H4, H5, H6, H7, H8, H9. by destruct f.
Qed.

Lemma norm_title_idem (s t : string) : norm_title s = Ok t -> norm_title t = Ok t.
Proof. unfold norm_title. cbv zeta. destruct (_ || _) eqn:Hc; [done|]. intros [= <-]. by rewrite TrimSpace_idem, Hc. Qed.

Lemma norm_assignee_idem (s t : string) : norm_assignee s = Ok t -> norm_assignee t = Ok t.
Proof. unfold norm_assignee. cbv zeta. destruct (Z.ltb _ _) eqn:Hc; [done|]. intros [= <-]. by rewrite TrimSpace_idem, Hc. Qed.

(** A check that returns its argument. *)
Lemma check_idem {A : Type} (check : A -> result werror A) (a b : A) :
  (forall x y, check x = Ok y -> y = x) -> check a = Ok b -> check b = Ok b.
Proof. intros Hc Hab. by rewrite (Hc a b Hab) in Hab |- *. Qed.

Lemma normalizeFields_idem_aux (f f' : TaskFields) : normalizeFields f = Ok f' -> normalizeFields f' = Ok f'.
Proof.
  intros Hf. apply normalizeFields_inv in Hf as (H1 & H2 & H3 & H4 & H5 & H6 & H7 & H8 & H9).
  apply normalizeFields_of_parts; (eapply sent_idem; [|eassumption]).
  - apply norm_title_idem.
  - intros a b. apply check_idem. unfold norm_description. intros x y. destruct (Z.ltb _ _); [done|congruence].
  - intros a b. apply check_idem. unfold norm_lane. intros x y. destruct (negb _); [done|congruence].
  - intros a b. apply check_idem. unfold norm_status. intros x y. destruct (negb _); [done|congruence].
  - intros a b. apply check_idem. unfold norm_priority. intros x y. destruct (_ || _); [done|congruence].
  - intros a b. apply check_idem. unfold norm_type. intros x y. destruct (negb _); [done|congruence].
  - apply norm_assignee_idem.
  - apply norm_labels_idem.
  - apply norm_blocked_by_idem.
Qed.

(** ** Notes *)

Definition newline : ascii := byte_of 10.
Definition no_nl (l : list ascii) : Prop := newline ∉ l.

Lemma no_nl_app (l k : list ascii) : no_nl (l ++ k) <-> no_nl l /\ no_nl k.
Proof. unfold no_nl. rewrite not_elem_of_app. done. Qed.

Lemma no_nl_digit (l : list ascii) : forallb is_digit l = true -> no_nl l.
Proof. intros Hd Hin. rewrite forallb_forall in Hd. by apply list_elem_of_In, Hd in Hin. Qed.

Lemma pad_no_nl (width : nat) (z : Z) : no_nl (bytes (pad width z)).
Proof.
  unfold pad, itoa. rewrite bytes_app, !bytes_of_bytes. apply no_nl_app. split.
  - intros Hin. by apply list_elem_of_In, repeat_spec in Hin.
  - apply no_nl_digit, itoa_digits.
Qed.

Lemma RFC3339_no_nl (t : time) : no_nl (bytes (RFC3339 t)).
Proof.
  unfold RFC3339. destruct (civil (day_number UTC t)) as [[y m] d].
  rewrite !bytes_app, !no_nl_app. split_and!; try apply pad_no_nl; vm_decide.
Qed.

Lemma cont_not_ascii (lo hi : N) (c : ascii) : (128 <= lo)%N -> in_range lo hi c = true -> is_ascii c = false.
Proof.
  unfold is_ascii, in_range. intros Hlo Hc. apply andb_true_iff in Hc as [Hc _]. apply N.leb_le in Hc.
  apply andb_false_iff. right. apply N.leb_gt. lia.
Qed.

(** A rune is one byte, or none of its bytes is ASCII. *)
Lemma rune_bytes (l : list ascii) :
  length (take (rune_len l) l) = 1 \/ Forall (fun c => is_ascii c = false) (take (rune_len l) l).
Proof.
  destruct l as [|c0 l]; [by right|]. unfold rune_len. destruct (is_ascii c0) eqn:Ha; [by left|].
  destruct l as [|c1 l]; [by left|].
  destruct (in_range 194 223 c0 && cont 128 191 c1) eqn:H2; simpl.
  { right. to_prop. repeat constructor; [done|]. by eapply (cont_not_ascii 128 191). }
  destruct l as [|c2 l]; [by left|].
  assert (H1 : forall lo hi, (128 <= lo)%N -> cont lo hi c1 = true -> is_ascii c1 = false)
    by (intros lo hi; apply cont_not_ascii).
  destruct (cont 128 191 c2 && _) eqn:H3; simpl.
  { right. to_prop. repeat constructor; [done| |by eapply (cont_not_ascii 128 191)].
    repeat match goal with Hx : (_ || _) = true |- _ => apply orb_true_iff in Hx; destruct Hx end; to_prop;
      (eapply H1; [|eassumption]); lia. }
  destruct l as [|c3 l]; [by left|].
  destruct (cont 128 191 c2 && cont 128 191 c3 && _) eqn:H4; simpl; [|by left].
  right. to_prop. repeat constructor; try done; try (by eapply (cont_not_ascii 128 191)).
  repeat match goal with Hx : (_ || _) = true |- _ => apply orb_true_iff in Hx; destruct Hx end; to_prop;
    (eapply H1; [|eassumption]); lia.
Qed.

(** An ASCII byte is a rune of its own. *)
Lemma rune_ascii (b : ascii) (l : list ascii) :
  is_ascii b = true -> b ∈ take (rune_len l) l -> take (rune_len l) l = [b].
Proof.
  intros Hb Hin. destruct (rune_bytes l) as [Hlen|Hall].
  - destruct (take (rune_len l) l) as [|c [|]]; try done. by apply list_elem_of_singleton in Hin as <-.
  - rewrite Forall_forall in Hall. apply Hall in Hin. congruence.
Qed.

Section Separator.
Variable b : ascii.
Hypothesis Hb : is_ascii b = true.
Hypothesis Hsep : author_separator [b] = true.
Hypothesis Hblank : b <> " "%char.

Lemma runes_lack (fuel : nat) (l : list ascii) (r : list ascii) :
  r ∈ runes_from fuel l -> author_separator r = false -> b ∉ r.
Proof.
  revert l. induction fuel as [|f IH]; intros l; simpl; [by intros ?%not_elem_of_nil|].
  destruct l as [|c l]; [by intros ?%not_elem_of_nil|]. intros Hr Hs.
  apply elem_of_cons in Hr as [->|Hr]; [|by eapply IH].
  intros Hin. apply rune_ascii in Hin; [|done]. by rewrite Hin, Hsep in Hs.
Qed.

Lemma fields_lack (cur : option (list ascii)) (l : list (list ascii)) :
  (forall r, r ∈ l -> author_separator r = false -> b ∉ r) -> b ∉ default [] cur ->
  Forall (fun f => b ∉ f) (fields_from author_separator cur l).
Proof.
  revert cur. induction l as [|r l IH]; intros cur Hl Hc; simpl.
  - destruct cur as [f|]; [by repeat constructor|constructor].
  - assert (Hl' : forall r0, r0 ∈ l -> author_separator r0 = false -> b ∉ r0)
      by (intros r0 Hr0; apply Hl; by right).
    destruct (author_separator r) eqn:Hs.
    + destruct cur as [f|]; [constructor; [done|]|]; apply IH; try done; apply not_elem_of_nil.
    + apply IH; [done|]. simpl. apply not_elem_of_app. split; [done|]. apply Hl; [left|done].
Qed.

Lemma join_lacks (l : list (list ascii)) : Forall (fun f => b ∉ f) l -> b ∉ join_bytes [" "%char] l.
Proof.
  induction 1 as [|x l Hx Hl IH]; simpl; [apply not_elem_of_nil|]. destruct l as [|y l]; [done|].
  apply not_elem_of_app. split; [done|]. apply not_elem_of_cons. by split.
Qed.

Lemma clean_author_lacks (author : string) : b ∉ bytes (clean_author author).
Proof.
  unfold clean_author, FieldsFunc. rewrite bytes_of_bytes. apply join_lacks, fields_lack; [|apply not_elem_of_nil].
  intros r Hr. by eapply runes_lack.
Qed.
End Separator.

(** A line that starts with two blanks. *)
Definition indented (l : list ascii) : Prop := exists r, l = " "%char :: " "%char :: r.

Lemma indent_lines_split (l : list ascii) :
  exists w ws, split_bytes newline (indent_lines l) = w :: ws /\ Forall indented ws.
Proof.
  induction l as [|c l (w & ws & Hs & Hall)]; [by exists [], []|].
  change (indent_lines (c :: l)) with
    ((if Ascii.eqb c (byte_of 10) then [c; " "; " "]%char else [c]) ++ indent_lines l).
  destruct (Ascii.eqb_spec c (byte_of 10)) as [->|Hc].
  - exists [], ((" "%char :: " "%char :: w) :: ws). split; [|constructor; [by exists w|done]].
    change (([] : list ascii) :: split_bytes newline ([" "; " "]%char ++ indent_lines l) =
            [] :: (" "%char :: " "%char :: w) :: ws).
    rewrite split_no_sep by vm_decide. by rewrite Hs.
  - exists (c :: w), ws. split; [|done]. rewrite split_no_sep; [by rewrite Hs|].
    intros Hin. apply list_elem_of_singleton in Hin. by unfold newline in Hin.
Qed.

(** The header line of a note. *)
Definition note_header (now : time) (author : string) : string := "[" +:+ RFC3339 now +:+ " " +:+ author +:+ "] ".

Lemma note_lines (now : time) (author : string) (text : list ascii) :
  no_nl (bytes author) ->
  exists w ws,
    split_bytes newline (bytes (note_header now author +:+ of_bytes (indent_lines text))) =
      (bytes (note_header now author) ++ w) :: ws /\ Forall indented ws.
Proof.
  intros Ha. destruct (indent_lines_split text) as (w & ws & Hs & Hall). exists w, ws. split; [|done].
  rewrite bytes_app, bytes_of_bytes, split_no_sep, Hs; [done|].
  unfold note_header. rewrite !bytes_app. fold (no_nl (bytes "[" ++ bytes (RFC3339 now) ++ bytes " " ++ bytes author ++ bytes "] ")).
  rewrite !no_nl_app. split_and!; [vm_decide|apply RFC3339_no_nl|vm_decide|exact Ha|vm_decide].
Qed.

(** What [formatNote] calls the author. *)
Definition note_author (author fallback via : string) : string :=
  let who := if String.eqb (clean_author author) "" then fallback else clean_author author in
  if String.eqb via "" then who else who +:+ " (" +:+ via +:+ ")".

Lemma formatNote_inv (now : time) (author fallback via text note : string) :
  formatNote now author fallback via text = Ok note ->
  note = note_header now (note_author author fallback via) +:+
         of_bytes (indent_lines (cr_to_lf (crlf_to_lf (bytes (TrimSpace text))))).
Proof.
  unfold formatNote, note_author. cbv zeta. destruct (_ || _); [done|]. destruct (Z.ltb _ _); [done|].
  intros [= <-]. unfold note_header. apply bytes_inj. by rewrite !bytes_app, <- ?app_assoc.
Qed.

Lemma note_author_plain (b : ascii) (author fallback via : string) :
  is_ascii b = true -> author_separator [b] = true -> b <> " "%char ->
  b ∉ bytes fallback -> b ∉ bytes via -> b ∉ bytes " ()" -> b ∉ bytes (note_author author fallback via).
Proof.
  intros Hb Hs Hbl Hf Hv Hp. unfold note_author. cbv zeta.
  assert (Hw : b ∉ bytes (if String.eqb (clean_author author) "" then fallback else clean_author author))
    by (destruct (String.eqb _ _); [done|by apply clean_author_lacks]).
  destruct (String.eqb via ""); [done|]. rewrite !bytes_app, !not_elem_of_app.
  simpl in Hp |- *. rewrite !not_elem_of_cons in *. naive_solver.
Qed.

(** Normalising a task's fields is canonicalising.  What [normalizeFields]
    accepts it maps to a fixed point of itself, which has exactly the fields the
    input had, labels and blockers without blanks or repeats, and only well-formed
    keys among the blockers. *)
Theorem normalizeFields_canonical (f f' : TaskFields) :
  normalizeFields f = Ok f' ->
  normalizeFields f' = Ok f' /\ tf_empty f' = tf_empty f /\
  (forall l, tf_Labels f' = Some l -> NoDup l /\ Forall (fun x => x <> "" /\ TrimSpace x = x) l) /\
  (forall l, tf_BlockedBy f' = Some l -> NoDup l /\ Forall (fun x => keyRe x = true) l).
Proof.
  intros Hf. split; [by eapply normalizeFields_idem_aux|].
  apply normalizeFields_inv in Hf as (H1 & H2 & H3 & H4 & H5 & H6 & H7 & H8 & H9).
  split_and!.
  - apply sent_empty in H1, H2, H3, H4, H5, H6, H7, H8, H9. by rewrite !tf_empty_spec, H1, H2, H3, H4, H5, H6, H7, H8, H9.
  - intros l Hl. apply sent_ok in H8. rewrite Hl in H8. destruct (tf_Labels f) as [l0|]; [|done]. unfold norm_labels in H8.
    cbv zeta in H8. repeat case_match; try done. injection H8 as <-.
    destruct (dedupe_from_spec [] TrimSpace l0) as [Hnd Hall]. split; [done|].
    pose proof (dedupe_trim l0) as Ht. rewrite Forall_forall in *. intros x Hx. split; [by apply Hall|by apply Ht].
  - intros l Hl. apply sent_ok in H9. rewrite Hl in H9. destruct (tf_BlockedBy f) as [l0|]; [|done]. unfold norm_blocked_by in H9.
    cbv zeta in H9. destruct (Z.ltb _ _); [done|]. destruct (forallb keyRe _) eqn:Hk; [|done].
    injection H9 as <-. split; [apply dedupe_from_spec|]. rewrite forallb_forall in Hk.
    apply Forall_forall. intros x Hx. by apply Hk, list_elem_of_In.
Qed.

(** A note cannot forge another note's header.  Whatever the author and the
    text (line feeds, carriage returns and brackets included), the note starts
    with its own header line, whose author has no brackets and no line feeds, and
    every further line is indented, while every header starts in the first
    column. *)
Theorem formatNote_one_header (now : time) (author fallback via text note : string) :
  Forall (fun b => b ∉ bytes fallback /\ b ∉ bytes via) [newline; "["%char; "]"%char] ->
  formatNote now author fallback via text = Ok note ->
  exists who w ws,
    split_bytes newline (bytes note) = (bytes (note_header now who) ++ w) :: ws /\
    Forall indented ws /\ Forall (fun b => b ∉ bytes who) [newline; "["%char; "]"%char].
Proof.
  intros Hc Hn. apply formatNote_inv in Hn as ->.
  assert (Hwho : Forall (fun b => b ∉ bytes (note_author author fallback via)) [newline; "["%char; "]"%char]).
  { rewrite !Forall_cons in *. destruct Hc as ([? ?] & [? ?] & [? ?] & _).
    split_and!; try (apply note_author_plain; try done; vm_decide). constructor. }
  destruct (note_lines now (note_author author fallback via)
              (cr_to_lf (crlf_to_lf (bytes (TrimSpace text))))) as (w & ws & Hs & Hall).
  { rewrite Forall_cons in Hwho. by destruct Hwho. }
  by exists (note_author author fallback via), w, ws.
Qed.
End Facts.
