(* ===== verification/WorkKeyFacts.v ===== *)
(** * Properties of project slugs, key prefixes and task keys *)

From S2P Require Import Prelude GoStrings GoTime GoJson AutoGraph Concrete WorkFields WorkFieldsFacts.

(** ** Keys *)

Lemma not_in_plain (P : ascii -> bool) (b : ascii) (l : list ascii) : P b = false -> forallb P l = true -> b ∉ l.
Proof. intros Hb Hl Hin. rewrite forallb_forall in Hl. apply list_elem_of_In, Hl in Hin. congruence. Qed.

Lemma base36_alnum (n : N) : (n < 36)%N -> alnum (base36 n) = true.
Proof.
  intros Hn. assert (Hall : forallb (fun k => alnum (base36 (N.of_nat k))) (seq 0 36) = true) by (vm_compute; reflexivity).
  rewrite forallb_forall in Hall. specialize (Hall (N.to_nat n)). rewrite N2Nat.id in Hall. apply Hall, in_seq. lia.
Qed.

Lemma base36_inj (n m : N) : (n < 36)%N -> (m < 36)%N -> base36 n = base36 m -> n = m.
Proof.
  intros Hn Hm He. unfold base36, byte_of in He. apply (f_equal N_of_ascii) in He.
  destruct (N.ltb_spec n 10), (N.ltb_spec m 10); rewrite !N_ascii_embedding in He by lia; lia.
Qed.

Lemma key_suffix_alnum (ns : list N) :
  Forall (fun n => (n < 36)%N) ns -> forallb alnum (map base36 ns) = true.
Proof. induction 1 as [|n ns Hn _ IH]; simpl; [done|]. by rewrite base36_alnum. Qed.

Lemma key_suffix_inj (ns ms : list N) :
  Forall (fun n => (n < 36)%N) ns -> Forall (fun n => (n < 36)%N) ms ->
  map base36 ns = map base36 ms -> ns = ms.
Proof.
  intros Hns. revert ms. induction Hns as [|n ns Hn _ IH]; intros [|m ms] Hms He; try done.
  apply Forall_cons in Hms as [Hm Hms]. simpl in He. injection He as He1 He2.
  f_equal; [by apply base36_inj|by apply IH].
Qed.

Lemma make_key_valid (prefix : string) (id : list ascii) :
  prefixRe prefix = true -> forallb alnum id = true -> 2 <= length id <= 16 ->
  validKey (prefix +:+ "-" +:+ of_bytes id) prefix = true.
Proof.
  intros Hp Hid Hlen.
  assert (Hkid : key_id (of_bytes id) = true).
  { unfold key_id. rewrite bytes_of_bytes, Hid, <- length_bytes, bytes_of_bytes.
    apply andb_true_iff. split; [apply andb_true_iff; split; [done|]|]; apply Nat.leb_le; lia. }
  unfold validKey. apply andb_true_iff. split.
  - unfold keyRe, Split. rewrite !bytes_app, bytes_of_bytes.
    rewrite split_no_sep by (apply (not_in_plain alnum); [done|by apply prefix_bytes]).
    change (bytes "-" ++ id) with ("-"%char :: id). simpl. rewrite app_nil_r.
    rewrite split_plain by (by apply (not_in_plain alnum)). simpl. rewrite bytes_of_bytes.
    rewrite split_plain by (by apply (not_in_plain alnum)). simpl. rewrite of_bytes_bytes, Hp. simpl.
    by rewrite Hkid.
  - apply HasPrefix_spec. exists (of_bytes id). apply bytes_inj. by rewrite !bytes_app, <- app_assoc.
Qed.

(** ** Slugs and prefixes *)

Lemma derive_from_spec (l acc : list ascii) :
  length acc <= 8 -> (acc = [] \/ prefixRe (of_bytes acc) = true) ->
  derive_from acc l = [] \/ prefixRe (of_bytes (derive_from acc l)) = true.
Proof.
  revert acc. induction l as [|c l IH]; intros acc Hlen Hacc; simpl; [done|].
  destruct (Nat.eqb_spec (length acc) 8) as [He|Hne]; [done|].
  assert (Hadd : is_lower c = true \/ (is_digit c = true /\ acc <> []) ->
                 derive_from (acc ++ [c]) l = [] \/ prefixRe (of_bytes (derive_from (acc ++ [c]) l)) = true).
  { intros Hc. apply IH; [rewrite length_app; simpl; lia|]. right. unfold prefixRe in *. rewrite bytes_of_bytes in *.
    destruct acc as [|a acc]; cbn [app forallb length] in *.
    - destruct Hc as [Hc|[_ Hc]]; [|done]. by rewrite Hc.
    - destruct Hacc as [?|Hacc]; [done|]. to_prop. rewrite forallb_app. cbn [forallb]. unfold alnum in *.
      rewrite !andb_true_iff. split_and!; try done.
      + destruct Hc as [Hc|[Hc _]]; by rewrite Hc, ?orb_true_r.
      + apply Nat.leb_le. rewrite length_app. simpl. lia. }
  destruct (is_lower c); [apply Hadd; by left|].
  destruct (is_digit c); simpl; [|by apply IH].
  destruct acc as [|a acc]; simpl; [by apply IH|]. apply Hadd. by right.
Qed.

Lemma deriveKeyPrefix_ok (slug : string) : prefixRe (deriveKeyPrefix slug) = true.
Proof.
  unfold deriveKeyPrefix. destruct (derive_from_spec (bytes slug) []) as [He|He]; [simpl; lia|by left| |].
  - by rewrite He.
  - by destruct (derive_from [] (bytes slug)).
Qed.

Definition slug_byte (c : ascii) : bool := alnum c || Ascii.eqb c "-".

Lemma hyphenate_bytes (gap : bool) (l : list ascii) : forallb slug_byte (hyphenate gap l) = true.
Proof.
  revert gap. induction l as [|c l IH]; intros gap; simpl; [done|].
  destruct (alnum c) eqn:Hc; [simpl; unfold slug_byte at 1; by rewrite Hc, IH|]. destruct gap; [done|]. simpl. apply IH.
Qed.

Lemma forallb_suffix (P : ascii -> bool) (k l : list ascii) : k `suffix_of` l -> forallb P l = true -> forallb P k = true.
Proof. intros [r ->]. rewrite forallb_app. intros Hx. by apply andb_true_iff in Hx as [_ ?]. Qed.

Lemma forallb_prefix (P : ascii -> bool) (k l : list ascii) : k `prefix_of` l -> forallb P l = true -> forallb P k = true.
Proof. intros [r ->]. rewrite forallb_app. intros Hx. by apply andb_true_iff in Hx as [? _]. Qed.

Lemma trim_hyphens_right_prefix (l : list ascii) : trim_hyphens_right l `prefix_of` l.
Proof.
  unfold trim_hyphens_right. destruct (strip_suffix hyphen (length l) (rev l)) as [k Hk].
  exists (rev k). rewrite <- rev_app_distr, <- Hk. by rewrite rev_involutive.
Qed.

Lemma slug_of_stripped (l : list ascii) :
  forallb slug_byte l = true -> stripped hyphen l -> length l <= 63 -> l = [] \/ slugRe (of_bytes l) = true.
Proof.
  intros Hl Hs Hlen. destruct l as [|c l]; [by left|]. right. unfold slugRe. rewrite bytes_of_bytes.
  simpl in Hl, Hlen. to_prop. unfold stripped, hyphen in Hs. apply Forall_cons in Hs as [Hs _].
  cbn [prefixb] in Hs. rewrite andb_true_r in Hs. rewrite Ascii.eqb_sym in Hs. unfold slug_byte in *.
  match goal with Hc : (alnum c || Ascii.eqb c "-") = true |- _ => rewrite Hs, orb_false_r in Hc; rewrite Hc end. simpl.
  apply andb_true_iff. split; [done|]. apply Nat.leb_le. lia.
Qed.

Section Slugs.
Context `{UnicodeTables}.

Lemma slugify_ok (s : string) : slugify s = "" \/ slugRe (slugify s) = true.
Proof.
  unfold slugify. cbv zeta. set (h := hyphenate false (bytes (ToLower (TrimSpace s)))).
  assert (Hh : forallb slug_byte h = true) by apply hyphenate_bytes.
  assert (Hl : forallb slug_byte (trim_hyphens h) = true /\ stripped hyphen (trim_hyphens h)).
  { unfold trim_hyphens. split.
    - eapply forallb_prefix; [apply trim_hyphens_right_prefix|]. eapply forallb_suffix; [apply strip_suffix|done].
    - eapply stripped_prefix; [apply trim_hyphens_right_prefix|]. apply strip_stripped; [by repeat constructor|done]. }
  destruct Hl as [Hb Hs].
  destruct (Nat.ltb_spec 63 (length (trim_hyphens h))) as [Hlong|Hshort].
  - set (cut := trim_hyphens_right (take 63 (trim_hyphens h))).
    assert (Hp : cut `prefix_of` trim_hyphens h)
      by (etrans; [apply trim_hyphens_right_prefix|apply prefix_take]).
    destruct (slug_of_stripped cut) as [He|He]; [by eapply forallb_prefix|by eapply stripped_prefix| |by left; rewrite He|by right].
    etrans; [apply prefix_length, trim_hyphens_right_prefix|]. rewrite length_take. lia.
  - destruct (slug_of_stripped (trim_hyphens h)) as [He|He]; [done|done|lia|by left; rewrite He|by right].
Qed.

Lemma normalizeProject_prefix `{UUIDLib} (input : ProjectInput) (name slug prefix : string) :
  normalizeProject input = Ok (name, slug, prefix) -> prefixRe prefix = true.
Proof.
  unfold normalizeProject. cbv zeta. intros Hp. do 3 (destruct (_ : bool); [done|]).
  match type of Hp with (if negb (prefixRe ?x) then _ else _) = _ => destruct (prefixRe x) eqn:Hx end; [|done].
  simpl in Hp. injection Hp as _ _ <-. done.
Qed.

(** Every key the service generates is valid.  In a project whose input
    [normalizeProject] accepted, six draws below 36 give a key that passes the key
    check and names that project's prefix, and different draws give different
    keys. *)
Theorem generated_keys_valid `{UUIDLib} (input : ProjectInput) (name slug prefix : string) (ns ms : list N) :
  normalizeProject input = Ok (name, slug, prefix) ->
  length ns = keySuffixLen -> Forall (fun n => (n < 36)%N) ns ->
  length ms = keySuffixLen -> Forall (fun n => (n < 36)%N) ms ->
  exists k, newTaskKey prefix (Some ns) = Ok k /\ validKey k prefix = true /\
            (newTaskKey prefix (Some ms) = Ok k -> ms = ns).
Proof.
  intros Hp Hln Hns Hlm Hms. unfold newTaskKey. rewrite !take_ge by lia. eexists. split; [done|].
  assert (Hpre := normalizeProject_prefix input name slug prefix Hp).
  split.
  - apply make_key_valid; [done|by apply key_suffix_alnum|]. rewrite length_map, Hln. unfold keySuffixLen. lia.
  - intros [= He]. apply (f_equal bytes) in He. rewrite !bytes_app, !bytes_of_bytes in He.
    apply app_inv_head, app_inv_head in He. by apply key_suffix_inj.
Qed.

(** The defaults of a new project are always well formed.  With neither slug
    nor prefix given, a name of acceptable length is refused only when it has no
    letter or digit to build a slug from, or its slug reads as a UUID; the derived
    prefix is valid whatever the slug. *)
Theorem project_defaults_valid `{UUIDLib} (name : string) :
  let n := TrimSpace name in
  let slug := slugify n in
  n <> "" -> (RuneCountInString n <= maxProjectNameLen)%Z -> slug <> "" -> uuid_Parse slug = None ->
  normalizeProject {| pi_Name := name; pi_Slug := ""; pi_KeyPrefix := "" |} = Ok (n, slug, deriveKeyPrefix slug).
Proof.
  intros n slug Hn Hlen Hs Hu. unfold normalizeProject. cbn [pi_Name pi_Slug pi_KeyPrefix]. cbv zeta.
  change (ToLower (TrimSpace "")) with "". fold n.
  rewrite (proj2 (String.eqb_neq n "")) by exact Hn. cbn [orb].
  rewrite (proj2 (Z.ltb_ge _ _)) by exact Hlen. change (String.eqb "" "") with true. cbv iota. fold slug.
  destruct (slugify_ok n) as [He|He]; [contradiction|]. fold slug in He. rewrite He. cbn [negb]. rewrite Hu.
  rewrite bool_decide_eq_false_2 by (intros Hx; by apply Hx). rewrite deriveKeyPrefix_ok. reflexivity.
Qed.
End Slugs.

(** ** Witnesses *)

Definition demo_fields : TaskFields :=
  {| tf_Title := Some " fix the build "; tf_Description := None; tf_Lane := Some "agent"; tf_Status := Some "done";
     tf_Priority := Some 1%Z; tf_Type := None; tf_Assignee := None; tf_Labels := Some ["ci"; " ci"; ""];
     tf_BlockedBy := Some [" MF-k3x9.1"; "mf-k3x9.1"] |}.
Definition demo_fields_normal : TaskFields :=
  {| tf_Title := Some "fix the build"; tf_Description := None; tf_Lane := Some "agent"; tf_Status := Some "done";
     tf_Priority := Some 1%Z; tf_Type := None; tf_Assignee := None; tf_Labels := Some ["ci"];
     tf_BlockedBy := Some ["mf-k3x9.1"] |}.

Lemma normalizeFields_canonical_witness :
  normalizeFields (H := demo_unicode) demo_fields = Ok demo_fields_normal /\
  normalizeFields (H := demo_unicode) demo_fields_normal = Ok demo_fields_normal.
Proof.
  split; [vm_compute; reflexivity|].
  apply (normalizeFields_canonical (H := demo_unicode) demo_fields). vm_compute. reflexivity.
Defined.

Definition demo_note_text : string :=
  "done" +:+ of_bytes [byte_of 13; byte_of 10] +:+ "[2024-01-01T00:00:00Z boss] approved".

Lemma formatNote_one_header_witness :
  exists note who w ws,
    formatNote 0%Z "me]" "agent" "mf" demo_note_text = Ok note /\
    split_bytes newline (bytes note) = (bytes (note_header 0%Z who) ++ w) :: ws /\ Forall indented ws.
Proof.
  destruct (formatNote 0%Z "me]" "agent" "mf" demo_note_text) as [note|e] eqn:He; [|vm_compute in He; discriminate].
  destruct (formatNote_one_header 0%Z "me]" "agent" "mf" demo_note_text note) as (who & w & ws & Hs & Hall & _).
  - repeat constructor; vm_decide.
  - exact He.
  - exists note, who, w, ws. by split_and!.
Defined.

Lemma generated_keys_valid_witness :
  exists k, newTaskKey "mf" (Some [0; 10; 35; 1; 2; 3]%N) = Ok k /\ validKey k "mf" = true.
Proof.
  destruct (generated_keys_valid (H := demo_unicode) (H0 := demo_uuid)
              {| pi_Name := "Many Forge"; pi_Slug := ""; pi_KeyPrefix := " MF" |} "Many Forge" "many-forge" "mf"
              [0; 10; 35; 1; 2; 3]%N [0; 10; 35; 1; 2; 4]%N) as (k & Hk & Hv & _).
  - vm_compute. reflexivity.
  - reflexivity.
  - repeat constructor; lia.
  - reflexivity.
  - repeat constructor; lia.
  - exists k. split; [exact Hk|exact Hv].
Defined.

Lemma project_defaults_valid_witness :
  normalizeProject (H := demo_unicode) (H0 := demo_uuid)
    {| pi_Name := " Many  Forge! "; pi_Slug := ""; pi_KeyPrefix := "" |} = Ok ("Many  Forge!", "many-forge", "manyforg").
Proof.
  refine (eq_trans (project_defaults_valid (H := demo_unicode) (H0 := demo_uuid) " Many  Forge! " _ _ _ _) _);
    vm_compute; (reflexivity || discriminate).
Defined.
