(* ===== verification/WorkBoard.v ===== *)
(** * The work board: [internal/work/service.go], [sync.go], [types.go]

    The tables of migration 0145 as finite maps, the statements of
    [db/query/work.sql] as functions on them, and the operations of [Service],
    each as the body of its transaction.  Tasks are keyed by project and key,
    which the unique index makes possible.  A sequence is not transactional: a
    statement that fails or a savepoint that is rolled back keeps the values it
    drew, so a statement returns the database also when it fails.

    Every task write takes the project's row lock first, so transactions on one
    project are serial and a transaction is one step here.  PostgreSQL rejects
    text with a NUL byte (SQLSTATE 22021); the CHECK constraints of [work_task]
    are [task_checks]. *)

From S2P Require Import Prelude GoStrings GoBase64 GoTime GoJson AutoStore AutoService AutoEvents WorkFields.
From stdpp Require Import sorting.
#[local] Open Scope go_scope.

(** ** Tables *)

Record project_row := {
  wp_business : uuid; wp_root : uuid; wp_slug : string; wp_name : string; wp_prefix : string;
  wp_created_by : option uuid; wp_created_at : time
}.
Record task_row := {
  wt_id : uuid; wt_business : uuid; wt_root : uuid; wt_title : string; wt_description : string;
  wt_notes : string; wt_lane : string; wt_status : string; wt_priority : Z; wt_type : string;
  wt_assignee : string; wt_labels : list string; wt_blocked_by : list string; wt_rev : Z;
  wt_created_by : option uuid; wt_created_at : time; wt_updated_at : time; wt_closed_at : option time
}.
Record token_row := {
  wk_business : uuid; wk_root : uuid; wk_project : uuid; wk_name : string; wk_hash : string;
  wk_prefix : string; wk_principal : uuid; wk_created_at : time; wk_last_used : option time;
  wk_revoked : option time
}.
Record account_row := { ac_status : string; ac_display_name : string; ac_email : string }.

Record wdb := {
  w_projects : gmap uuid project_row;
  w_tasks : gmap (uuid * string) task_row;
  w_tokens : gmap uuid token_row;
  w_seq : Z;                                  (* the last value of work_task_rev_seq *)
  w_businesses : gmap uuid business_row;
  w_accounts : gmap uuid account_row;         (* by principal *)
  w_fenced_roots : gset uuid;
  w_audit : list audit_entry
}.

Definition set_tasks (m : gmap (uuid * string) task_row) (d : wdb) : wdb :=
  {| w_projects := w_projects d; w_tasks := m; w_tokens := w_tokens d; w_seq := w_seq d;
     w_businesses := w_businesses d; w_accounts := w_accounts d; w_fenced_roots := w_fenced_roots d;
     w_audit := w_audit d |}.
Definition set_seq (n : Z) (d : wdb) : wdb :=
  {| w_projects := w_projects d; w_tasks := w_tasks d; w_tokens := w_tokens d; w_seq := n;
     w_businesses := w_businesses d; w_accounts := w_accounts d; w_fenced_roots := w_fenced_roots d;
     w_audit := w_audit d |}.
Definition set_projects (m : gmap uuid project_row) (d : wdb) : wdb :=
  {| w_projects := m; w_tasks := w_tasks d; w_tokens := w_tokens d; w_seq := w_seq d;
     w_businesses := w_businesses d; w_accounts := w_accounts d; w_fenced_roots := w_fenced_roots d;
     w_audit := w_audit d |}.
Definition set_tokens (m : gmap uuid token_row) (d : wdb) : wdb :=
  {| w_projects := w_projects d; w_tasks := w_tasks d; w_tokens := m; w_seq := w_seq d;
     w_businesses := w_businesses d; w_accounts := w_accounts d; w_fenced_roots := w_fenced_roots d;
     w_audit := w_audit d |}.
Definition w_add_audit (a : audit_entry) (d : wdb) : wdb :=
  {| w_projects := w_projects d; w_tasks := w_tasks d; w_tokens := w_tokens d; w_seq := w_seq d;
     w_businesses := w_businesses d; w_accounts := w_accounts d; w_fenced_roots := w_fenced_roots d;
     w_audit := w_audit d ++ [a] |}.

(** What a rollback leaves of [d]: the tables as they were in [saved]. *)
Definition rollback (saved d : wdb) : wdb := set_seq (w_seq d) saved.

(** A statement or a transaction body, which draws from the sequence even when
    it fails. *)
Definition stmt (A : Type) : Type := wdb -> wdb * result werror A.
Definition s_ret {A : Type} (a : A) : stmt A := fun d => (d, Ok a).
Definition s_err {A : Type} (e : werror) : stmt A := fun d => (d, Err e).
Definition s_lift {A : Type} (r : result werror A) : stmt A := fun d => (d, r).
Definition s_bind {A B : Type} (m : stmt A) (k : A -> stmt B) : stmt B :=
  fun d => match m d with (d', Ok a) => k a d' | (d', Err e) => (d', Err e) end.

Declare Scope stmt_scope.
Delimit Scope stmt_scope with stmt.
Notation "'let!' x ':=' m 'in' k" := (s_bind m (fun x => k))
  (at level 10, x pattern, m at level 100, k at level 200) : stmt_scope.
#[local] Open Scope stmt_scope.

(** ** Views *)

Record Counts := { cn_Backlog : Z; cn_Todo : Z; cn_InProgress : Z; cn_Blocked : Z; cn_OperatorOpen : Z }.
Record Project := {
  pj_ID : uuid; pj_Slug : string; pj_Name : string; pj_KeyPrefix : string; pj_CreatedAt : time; pj_Counts : Counts
}.
Record SyncProject := { sp_Slug : string; sp_Name : string; sp_KeyPrefix : string }.
Record Task := {
  tk_Key : string; tk_Title : string; tk_Description : string; tk_Notes : string; tk_Lane : string;
  tk_Status : string; tk_Priority : Z; tk_Type : string; tk_Assignee : string; tk_Labels : list string;
  tk_BlockedBy : list string; tk_Rev : Z; tk_CreatedAt : time; tk_UpdatedAt : time; tk_ClosedAt : option time
}.
Record Token := {
  tn_ID : uuid; tn_Name : string; tn_Prefix : string; tn_CreatedAt : time; tn_LastUsedAt : option time;
  tn_RevokedAt : option time
}.
Record CreatedToken := { ct_ID : uuid; ct_Name : string; ct_Prefix : string; ct_CreatedAt : time; ct_Token : string }.
Record Summary := { sm_OpenOperator : Z; sm_OpenAgent : Z; sm_InProgress : Z }.

Definition toTask (key : string) (t : task_row) : Task :=
  {| tk_Key := key; tk_Title := wt_title t; tk_Description := wt_description t; tk_Notes := wt_notes t;
     tk_Lane := wt_lane t; tk_Status := wt_status t; tk_Priority := wt_priority t; tk_Type := wt_type t;
     tk_Assignee := wt_assignee t; tk_Labels := wt_labels t; tk_BlockedBy := wt_blocked_by t;
     tk_Rev := wt_rev t; tk_CreatedAt := wt_created_at t; tk_UpdatedAt := wt_updated_at t;
     tk_ClosedAt := wt_closed_at t |}.
Definition toProject (id : uuid) (p : project_row) (c : Counts) : Project :=
  {| pj_ID := id; pj_Slug := wp_slug p; pj_Name := wp_name p; pj_KeyPrefix := wp_prefix p;
     pj_CreatedAt := wp_created_at p; pj_Counts := c |}.
Definition toToken (id : uuid) (k : token_row) : Token :=
  {| tn_ID := id; tn_Name := wk_name k; tn_Prefix := wk_prefix k; tn_CreatedAt := wk_created_at k;
     tn_LastUsedAt := wk_last_used k; tn_RevokedAt := wk_revoked k |}.

(** [mapErr] of [types.go]. *)
Fixpoint cause (e : werror) : werror := match e with WWrapped _ c => cause c | _ => e end.
Definition mapErr (e : werror) : werror :=
  match cause e with
  | WNoRows => WNotFound
  | WPgError code constraint =>
      if String.eqb code "23505" then WConflict
      else if String.eqb code "23514" then
        if String.eqb constraint "work_task_notes_len_chk"
        then validationError "notes would exceed 200000 characters"
        else validationError "invalid field value"
      else WWrapped "work: query" e
  | validationError _ | WNotFound | WConflict | WTenantMaintenance | WTokenUnauthorized => e
  | _ => WWrapped "work: query" e
  end.

(** ** Statements *)

(** The CHECK constraints of [work_task] that fields can violate, with the
    violated constraint's name. *)
Definition task_checks (key : string) (t : task_row) : option string :=
  let n := RuneCountInString in
  if negb (keyRe key) then Some "work_task_key_chk" else
  if (n (wt_title t) <? 1)%Z || (500 <? n (wt_title t))%Z then Some "work_task_title_chk" else
  if (20000 <? n (wt_description t))%Z then Some "work_task_description_len_chk" else
  if (200000 <? n (wt_notes t))%Z then Some "work_task_notes_len_chk" else
  if (200 <? n (wt_assignee t))%Z then Some "work_task_assignee_len_chk" else
  if negb (validLanes (wt_lane t)) then Some "work_task_lane_chk" else
  if negb (validStatuses (wt_status t)) then Some "work_task_status_chk" else
  if (wt_priority t <? 0)%Z || (4 <? wt_priority t)%Z then Some "work_task_priority_chk" else
  if negb (validTypes (wt_type t)) then Some "work_task_type_chk" else
  if Nat.ltb 50 (length (wt_labels t)) then Some "work_task_labels_chk" else
  if Nat.ltb 100 (length (wt_blocked_by t)) then Some "work_task_blocked_by_chk" else None.

Definition nul_in_values (v : taskValues) : bool :=
  existsb has_nul ([tv_title v; tv_description v; tv_assignee v] ++ tv_labels v ++ tv_blockedBy v).
Definition nul_in_fields (f : TaskFields) (note : option string) : bool :=
  existsb has_nul (default "" (tf_Title f) :: default "" (tf_Description f) :: default "" (tf_Assignee f) ::
                   default "" note :: default [] (tf_Labels f) ++ default [] (tf_BlockedBy f)).

(** The tenant-merge write fence. *)
Definition w_fence (d : wdb) (root : uuid) : bool := negb (bool_decide (root ∈ w_fenced_roots d)).

Definition fresh_task (d : wdb) : uuid :=
  fresh (list_to_set (C := gset uuid) (map (fun x => wt_id (snd x)) (map_to_list (w_tasks d)))).

(** [InsertWorkTask], for the project's tenant. *)
Definition InsertWorkTask (projectID : uuid) (proj : project_row) (key : string) (v : taskValues) (creator : uuid)
    (now : time) : stmt task_row := fun d =>
  if nul_in_values v || has_nul key then (d, Err (WPgError "22021" "")) else
  let rev := (w_seq d + 1)%Z in
  let d1 := set_seq rev d in
  let row := {| wt_id := fresh_task d; wt_business := wp_business proj; wt_root := wp_root proj;
                wt_title := tv_title v; wt_description := tv_description v; wt_notes := "";
                wt_lane := tv_lane v; wt_status := tv_status v; wt_priority := tv_priority v;
                wt_type := tv_typ v; wt_assignee := tv_assignee v; wt_labels := tv_labels v;
                wt_blocked_by := tv_blockedBy v; wt_rev := rev; wt_created_by := Some creator;
                wt_created_at := default now (option_map pg_time (tv_createdAt v)); wt_updated_at := now;
                wt_closed_at := if closed_status (tv_status v)
                                then Some (default now (option_map pg_time (tv_closedAt v))) else None |} in
  if negb (w_fence d (wp_root proj)) then (d1, Err WTenantMaintenance) else
  match task_checks key row with
  | Some c => (d1, Err (WPgError "23514" c))
  | None =>
      match w_tasks d !! (projectID, key) with
      | Some _ => (d1, Err (WPgError "23505" "work_task_key_uniq"))
      | None => (set_tasks (<[(projectID, key) := row]> (w_tasks d)) d1, Ok row)
      end
  end.

(** The row an [UPDATE] leaves behind. *)
Definition patched (f : TaskFields) (note : option string) (rev : Z) (now : time) (t : task_row) : task_row :=
  {| wt_id := wt_id t; wt_business := wt_business t; wt_root := wt_root t;
     wt_title := default (wt_title t) (tf_Title f);
     wt_description := default (wt_description t) (tf_Description f);
     wt_notes := match note with
                 | None => wt_notes t
                 | Some e => if String.eqb (wt_notes t) "" then e
                             else wt_notes t +:+ of_bytes [byte_of 10] +:+ e
                 end;
     wt_lane := default (wt_lane t) (tf_Lane f); wt_status := default (wt_status t) (tf_Status f);
     wt_priority := default (wt_priority t) (tf_Priority f); wt_type := default (wt_type t) (tf_Type f);
     wt_assignee := default (wt_assignee t) (tf_Assignee f); wt_labels := default (wt_labels t) (tf_Labels f);
     wt_blocked_by := default (wt_blocked_by t) (tf_BlockedBy f); wt_rev := rev; wt_created_by := wt_created_by t;
     wt_created_at := wt_created_at t; wt_updated_at := now;
     wt_closed_at := match tf_Status f with
                     | None => wt_closed_at t
                     | Some s => if closed_status s then Some (default now (wt_closed_at t)) else None
                     end |}.

Definition UpdateWorkTask (projectID : uuid) (proj : project_row) (key : string) (f : TaskFields)
    (note : option string) (now : time) : stmt task_row := fun d =>
  if nul_in_fields f note || has_nul key then (d, Err (WPgError "22021" "")) else
  match w_tasks d !! (projectID, key) with
  | None => (d, Err WNoRows)
  | Some t =>
      if negb (N.eqb (wt_root t) (wp_root proj)) then (d, Err WNoRows) else
      let rev := (w_seq d + 1)%Z in
      let d1 := set_seq rev d in
      let row := patched f note rev now t in
      if negb (w_fence d (wt_root t)) then (d1, Err WTenantMaintenance) else
      match task_checks key row with
      | Some c => (d1, Err (WPgError "23514" c))
      | None => (set_tasks (<[(projectID, key) := row]> (w_tasks d)) d1, Ok row)
      end
  end.

(** The tasks of a project, with their keys. *)
Definition project_tasks (d : wdb) (projectID root : uuid) : list (string * task_row) :=
  omap (fun x => if N.eqb (fst (fst x)) projectID && N.eqb (wt_root (snd x)) root
                 then Some (snd (fst x), snd x) else None) (map_to_list (w_tasks d)).

Definition rev_before (x y : string * task_row) : Prop := (wt_rev (snd x) <= wt_rev (snd y))%Z.
#[export] Instance rev_before_dec (x y : string * task_row) : Decision (rev_before x y).
Proof. unfold rev_before. apply _. Defined.

(** [ListWorkTasksSince]: [WHERE rev > since ORDER BY rev LIMIT lim]. *)
Definition ListWorkTasksSince (d : wdb) (projectID root : uuid) (since : Z) (lim : nat) : list (string * task_row) :=
  take lim (merge_sort rev_before
    (List.filter (fun x => (since <? wt_rev (snd x))%Z) (project_tasks d projectID root))).

Definition count_where (p : task_row -> bool) (l : list (string * task_row)) : Z :=
  Z.of_nat (length (List.filter (fun x => p (snd x)) l)).
Definition open_in (lane : string) (t : task_row) : bool :=
  String.eqb (wt_lane t) lane && negb (closed_status (wt_status t)).
Definition in_status (s : string) (t : task_row) : bool := String.eqb (wt_status t) s.

Definition GetWorkProjectCounts (d : wdb) (projectID root : uuid) : Counts :=
  let l := project_tasks d projectID root in
  {| cn_Backlog := count_where (in_status "backlog") l; cn_Todo := count_where (in_status "todo") l;
     cn_InProgress := count_where (in_status "in_progress") l; cn_Blocked := count_where (in_status "blocked") l;
     cn_OperatorOpen := count_where (open_in "operator") l |}.

Definition GetWorkSummary (d : wdb) (business root : uuid) : Summary :=
  let l := omap (fun x => if N.eqb (wt_business (snd x)) business && N.eqb (wt_root (snd x)) root
                          then Some (snd (fst x), snd x) else None) (map_to_list (w_tasks d)) in
  {| sm_OpenOperator := count_where (open_in "operator") l; sm_OpenAgent := count_where (open_in "agent") l;
     sm_InProgress := count_where (in_status "in_progress") l |}.

(** [ORDER BY priority, created_at, key] *)
Definition board_before (x y : string * task_row) : Prop :=
  (wt_priority (snd x) < wt_priority (snd y))%Z \/
  (wt_priority (snd x) = wt_priority (snd y) /\
   ((wt_created_at (snd x) < wt_created_at (snd y))%Z \/
    (wt_created_at (snd x) = wt_created_at (snd y) /\ bytes_le (bytes (fst x)) (bytes (fst y)) = true))).
#[export] Instance board_before_dec (x y : string * task_row) : Decision (board_before x y).
Proof. unfold board_before. apply _. Defined.

Definition ListWorkTasks (d : wdb) (projectID root : uuid) (includeClosed : bool) (lim : nat) (now : time)
  : list (string * task_row) :=
  take lim (merge_sort board_before
    (List.filter (fun x => includeClosed ||
                           match wt_closed_at (snd x) with
                           | None => true
                           | Some t => (now - 14 * 24 * Hour <? t)%Z
                           end) (project_tasks d projectID root))).

(** ** Shared helpers of the service *)

Section Service.
Context `{UnicodeTables, UUIDLib, Authz, EventLib}.

Definition resolveTenantRoot (principal business : uuid) : stmt uuid := fun d =>
  match w_businesses d !! business with
  | Some b => if authorized principal business && negb (b_deleted b) then (d, Ok (b_root b)) else (d, Err WNoRows)
  | None => (d, Err WNoRows)
  end.

(** [GetWorkProject] and [LockWorkProject] *)
Definition GetWorkProject (id business root : uuid) : stmt (uuid * project_row) := fun d =>
  match w_projects d !! id with
  | Some p => if N.eqb (wp_business p) business && N.eqb (wp_root p) root then (d, Ok (id, p)) else (d, Err WNoRows)
  | None => (d, Err WNoRows)
  end.
Definition GetWorkProjectBySlug (slug : string) (business root : uuid) : stmt (uuid * project_row) := fun d =>
  match List.find (fun x => String.eqb (wp_slug (snd x)) slug && N.eqb (wp_business (snd x)) business &&
                            N.eqb (wp_root (snd x)) root) (map_to_list (w_projects d)) with
  | Some x => (d, Ok x)
  | None => (d, Err WNoRows)
  end.

Definition loadProject (principal business : uuid) (ref : string) : stmt (uuid * project_row) :=
  let! root := resolveTenantRoot principal business in
  match uuid_Parse ref with
  | Some id => GetWorkProject id business root
  | None => if negb (slugRe ref) then s_err WNoRows else GetWorkProjectBySlug ref business root
  end.

Definition insertTask := InsertWorkTask.

(** A statement under a savepoint ([tx.Begin], then [Commit] or [Rollback] of the
    nested transaction): after an error the tables are as they were when it was
    opened, while the sequence keeps what was drawn. *)
Definition savepoint {A : Type} (m : stmt A) : stmt A := fun d =>
  match m d with
  | (d', Ok a) => (d', Ok a)
  | (d', Err e) => (rollback d d', Err e)
  end.

Definition insertTaskSavepoint (projectID : uuid) (proj : project_row) (key : string) (v : taskValues)
    (creator : uuid) (now : time) : stmt task_row :=
  savepoint (insertTask projectID proj key v creator now).

Definition patchTask (projectID : uuid) (proj : project_row) (key : string) (f : TaskFields)
    (note : option string) (now : time) : stmt task_row :=
  if tf_empty f && bool_decide (note = None) then s_err (validationError "no fields to update")
  else UpdateWorkTask projectID proj key f note now.

Definition w_writeAudit (principal : uuid) (proj : project_row) (action target_type : string) (target : uuid)
    (value : json) : stmt unit := fun d =>
  (w_add_audit {| au_principal := principal; au_business := wp_business proj; au_root := wp_root proj;
                  au_action := action; au_target_type := target_type; au_target := target; au_value := value |} d,
   Ok tt).

Definition isUniqueViolation (e : werror) (constraint : string) : bool :=
  match cause e with
  | WPgError code c => String.eqb code "23505" && String.eqb c constraint
  | _ => false
  end.

(** [DB.WithPrincipal] followed by [mapErr]: a failed transaction leaves the
    tables as they were. *)
Definition run_work {A : Type} (m : stmt A) (d : wdb) : wdb * result werror A :=
  match m d with
  | (d', Ok a) => (d', Ok a)
  | (d', Err e) => (rollback d d', Err (mapErr e))
  end.

(** ** Management operations *)

Definition maxListTasks : nat := 2000.
Definition maxKeyAttempts : nat := 3.
Definition tokenPrefixLen : nat := 12.

Definition s_read {A : Type} (f : wdb -> A) : stmt A := fun d => (d, Ok (f d)).

Definition name_before (x y : uuid * project_row) : Prop :=
  bytes_le (bytes (wp_name (snd x))) (bytes (wp_name (snd y))) = true.
#[export] Instance name_before_dec (x y : uuid * project_row) : Decision (name_before x y).
Proof. unfold name_before. apply _. Defined.

Definition ListProjects (principal business : uuid) : wdb -> wdb * result werror (list Project) :=
  run_work (
    let! root := resolveTenantRoot principal business in
    s_read (fun d => map (fun x => toProject (fst x) (snd x) (GetWorkProjectCounts d (fst x) (wp_root (snd x))))
      (merge_sort name_before
        (List.filter (fun x => N.eqb (wp_business (snd x)) business && N.eqb (wp_root (snd x)) root)
                     (map_to_list (w_projects d)))))).

Definition no_counts : Counts := Build_Counts 0 0 0 0 0.

Definition InsertWorkProject (business root : uuid) (slug name prefix : string) (creator : uuid) (now : time)
  : stmt (uuid * project_row) := fun d =>
  if has_nul name then (d, Err (WPgError "22021" "")) else
  if negb (w_fence d root) then (d, Err WTenantMaintenance) else
  if existsb (fun x => N.eqb (wp_business (snd x)) business && String.eqb (wp_slug (snd x)) slug)
             (map_to_list (w_projects d))
  then (d, Err (WPgError "23505" "work_project_slug_uniq")) else
  let id := fresh (dom (w_projects d)) in
  let row := {| wp_business := business; wp_root := root; wp_slug := slug; wp_name := name; wp_prefix := prefix;
                wp_created_by := Some creator; wp_created_at := now |} in
  (set_projects (<[id := row]> (w_projects d)) d, Ok (id, row)).

Definition CreateProject (principal business : uuid) (input : ProjectInput) (now : time) (d : wdb)
  : wdb * result werror Project :=
  match normalizeProject input with
  | Err e => (d, Err e)
  | Ok (name, slug, prefix) =>
      run_work (
        let! root := resolveTenantRoot principal business in
        let! (id, row) := InsertWorkProject business root slug name prefix principal now in
        let! _ := w_writeAudit principal row "work.project.created" "work_project" id
                    (JObj [("slug", JStr slug); ("name", JStr name); ("key_prefix", JStr prefix)]) in
        s_ret (toProject id row no_counts)) d
  end.

Definition GetProject (principal business : uuid) (ref : string) : wdb -> wdb * result werror Project :=
  run_work (
    let! (id, proj) := loadProject principal business ref in
    s_read (fun d => toProject id proj (GetWorkProjectCounts d id (wp_root proj)))).

Definition ListTasks (principal business : uuid) (ref : string) (includeClosed : bool) (now : time)
  : wdb -> wdb * result werror (list Task) :=
  run_work (
    let! (id, proj) := loadProject principal business ref in
    s_read (fun d => map (fun x => toTask (fst x) (snd x))
                         (ListWorkTasks d id (wp_root proj) includeClosed maxListTasks now))).

(** The key attempts: [draws n] is what the generator drew for the nth one. *)
Fixpoint insert_attempts (left : nat) (attempt : nat) (draws : nat -> option (list N)) (projectID : uuid)
    (proj : project_row) (v : taskValues) (principal : uuid) (now : time) : stmt (string * task_row) :=
  match left with
  | O => s_err (WPgError "23505" "work_task_key_uniq")
  | S left' =>
      match newTaskKey (wp_prefix proj) (draws attempt) with
      | Err e => s_err e
      | Ok key => fun d =>
          match insertTaskSavepoint projectID proj key v principal now d with
          | (d', Ok row) => (d', Ok (key, row))
          | (d', Err e) =>
              if negb (isUniqueViolation e "work_task_key_uniq") || Nat.eqb attempt maxKeyAttempts
              then (d', Err e)
              else insert_attempts left' (S attempt) draws projectID proj v principal now d'
          end
      end
  end.

Definition CreateTask (principal business : uuid) (ref : string) (f : TaskFields) (draws : nat -> option (list N))
    (now : time) (d : wdb) : wdb * result werror Task :=
  match (let? f := normalizeFields f in createValues f)%go with
  | Err e => (d, Err e)
  | Ok v =>
      run_work (
        let! (id, proj) := loadProject principal business ref in
        let! (key, row) := insert_attempts maxKeyAttempts 1 draws id proj v principal now in
        let! _ := w_writeAudit principal proj "work.task.created" "work_task" (wt_id row)
                    (JObj [("key", JStr key); ("title", JStr (wt_title row)); ("lane", JStr (wt_lane row));
                           ("status", JStr (wt_status row))]) in
        s_ret (toTask key row)) d
  end.

Definition operatorName (principal : uuid) : stmt string := fun d =>
  match w_accounts d !! principal with
  | None => (d, Ok "operator")
  | Some acc =>
      let n := TrimSpace (ac_display_name acc) in
      (d, Ok (if negb (String.eqb n "") then n
              else if negb (String.eqb (ac_email acc) "") then ac_email acc else "operator"))
  end.

Definition strings_json (l : list string) : json := JArr (map JStr l).

(** [auditPatch]: the values of the fields that were sent, never note text. *)
Definition auditPatch (key : string) (f : TaskFields) (noted : bool) : json :=
  let one {A : Type} (name : string) (o : option A) (g : A -> json) : list (string * json) :=
    match o with Some a => [(name, g a)] | None => [] end in
  JObj ([("key", JStr key)] ++ one "title" (tf_Title f) JStr ++ one "lane" (tf_Lane f) JStr ++
        one "status" (tf_Status f) JStr ++ one "priority" (tf_Priority f) JInt ++ one "type" (tf_Type f) JStr ++
        one "assignee" (tf_Assignee f) JStr ++ one "labels" (tf_Labels f) strings_json ++
        one "blocked_by" (tf_BlockedBy f) strings_json ++
        one "description_changed" (tf_Description f) (fun _ => JBool true) ++
        (if noted then [("note_appended", JBool true)] else [])).

Definition UpdateTask (principal business : uuid) (ref key : string) (f : TaskFields) (note : option string)
    (clock now : time) (d : wdb) : wdb * result werror Task :=
  match normalizeFields f with
  | Err e => (d, Err e)
  | Ok f =>
      if tf_empty f && bool_decide (note = None) then (d, errValidation "no fields to update") else
      run_work (
        let! (id, proj) := loadProject principal business ref in
        let! entry := match note with
                      | None => s_ret None
                      | Some text =>
                          let! author := operatorName principal in
                          let! e := s_lift (formatNote clock author "operator" "" text) in
                          s_ret (Some e)
                      end in
        let! row := patchTask id proj key f entry now in
        let! _ := w_writeAudit principal proj "work.task.updated" "work_task" (wt_id row)
                    (auditPatch key f (bool_decide (entry <> None))) in
        s_ret (toTask key row)) d
  end.

Definition token_before (x y : uuid * token_row) : Prop :=
  (wk_created_at (snd y) < wk_created_at (snd x))%Z \/
  (wk_created_at (snd x) = wk_created_at (snd y) /\ (fst y <= fst x)%N).
#[export] Instance token_before_dec (x y : uuid * token_row) : Decision (token_before x y).
Proof. unfold token_before. apply _. Defined.

Definition ListTokens (principal business : uuid) (ref : string) : wdb -> wdb * result werror (list Token) :=
  run_work (
    let! (id, proj) := loadProject principal business ref in
    s_read (fun d => map (fun x => toToken (fst x) (snd x))
      (merge_sort token_before
        (List.filter (fun x => N.eqb (wk_project (snd x)) id && N.eqb (wk_root (snd x)) (wp_root proj))
                     (map_to_list (w_tokens d)))))).

(** [auth.HashToken] *)
Definition HashToken (raw : string) : string := hex_text (bytes (sha256 raw)).

(** [entropy] is the 32 bytes that were read, [None] when the source failed. *)
Definition NewOpaqueToken (entropy : option (list ascii)) : result werror string :=
  match entropy with
  | None => Err (WOther "read failed")
  | Some b => Ok (of_bytes (base64url b))
  end.
Definition newWorkToken (entropy : option (list ascii)) : result werror string :=
  match NewOpaqueToken entropy with
  | Err e => Err (WWrapped "work: token entropy" e)
  | Ok raw => Ok ("mfw_" +:+ raw)
  end.

Definition CreateToken (principal business : uuid) (ref name : string) (entropy : option (list ascii)) (now : time)
    (d : wdb) : wdb * result werror CreatedToken :=
  match (let? name := validTokenName name in let? plaintext := newWorkToken entropy in Ok (name, plaintext))%go with
  | Err e => (d, Err e)
  | Ok (name, plaintext) =>
      run_work (
        let! (id, proj) := loadProject principal business ref in
        let! tid := (fun d =>
          if has_nul name then (d, Err (WPgError "22021" "")) else
          if negb (w_fence d (wp_root proj)) then (d, Err WTenantMaintenance) else
          if existsb (fun x => String.eqb (wk_hash (snd x)) (HashToken plaintext)) (map_to_list (w_tokens d))
          then (d, Err (WPgError "23505" "work_token_hash_uniq")) else
          let tid := fresh (dom (w_tokens d)) in
          (set_tokens (<[tid := {| wk_business := wp_business proj; wk_root := wp_root proj; wk_project := id;
                                   wk_name := name; wk_hash := HashToken plaintext;
                                   wk_prefix := of_bytes (take tokenPrefixLen (bytes plaintext));
                                   wk_principal := principal; wk_created_at := now; wk_last_used := None;
                                   wk_revoked := None |}]> (w_tokens d)) d, Ok tid)) in
        let! _ := w_writeAudit principal proj "work.token.created" "work_token" tid
                    (JObj [("name", JStr name); ("prefix", JStr (of_bytes (take tokenPrefixLen (bytes plaintext))))]) in
        s_ret {| ct_ID := tid; ct_Name := name; ct_Prefix := of_bytes (take tokenPrefixLen (bytes plaintext));
                 ct_CreatedAt := now; ct_Token := plaintext |}) d
  end.

Definition revoked_at (now : time) (k : token_row) : token_row :=
  {| wk_business := wk_business k; wk_root := wk_root k; wk_project := wk_project k; wk_name := wk_name k;
     wk_hash := wk_hash k; wk_prefix := wk_prefix k; wk_principal := wk_principal k;
     wk_created_at := wk_created_at k; wk_last_used := wk_last_used k;
     wk_revoked := Some (default now (wk_revoked k)) |}.

Definition RevokeToken (principal business : uuid) (ref : string) (tokenID : uuid) (now : time)
  : wdb -> wdb * result werror unit :=
  run_work (
    let! (id, proj) := loadProject principal business ref in
    let! row := (fun d =>
      match w_tokens d !! tokenID with
      | Some k => if N.eqb (wk_project k) id && N.eqb (wk_root k) (wp_root proj) then
                    if negb (w_fence d (wp_root proj)) then (d, Err WTenantMaintenance)
                    else (set_tokens (<[tokenID := revoked_at now k]> (w_tokens d)) d, Ok k)
                  else (d, Err WNoRows)
      | None => (d, Err WNoRows)
      end) in
    w_writeAudit principal proj "work.token.revoked" "work_token" tokenID
      (JObj [("name", JStr (wk_name row)); ("prefix", JStr (wk_prefix row))])).

Definition work_Summary (principal business : uuid) : wdb -> wdb * result werror Summary :=
  run_work (let! root := resolveTenantRoot principal business in s_read (fun d => GetWorkSummary d business root)).
End Service.
