(* ===== verification/WorkSync.v ===== *)
(** * [mf sync] on the server: [internal/work/sync.go]

    A sync applies the client's operations in order, each under a savepoint,
    and returns the tasks whose revision moved past the client's cursor.  A
    request's fields are decoded JSON values; [encoding/json] reports the first
    type mismatch or unknown field it met, except that a timestamp that does not
    parse ends the decoding at once. *)

From S2P Require Import Prelude GoStrings GoTime GoJson AutoStore AutoService AutoEvents WorkFields WorkBoard.
From stdpp Require Import sorting.
#[local] Open Scope go_scope.
#[local] Open Scope stmt_scope.

(** [time.Time.UnmarshalJSON] on a string. *)
Class TimeParser := { parse_RFC3339 : string -> option time }.

Definition MaxSyncOps : Z := 1000.
Definition maxSyncTasks : nat := 5000.

Record TokenAuth := {
  ta_TokenID : uuid; ta_ProjectID : uuid; ta_BusinessID : uuid; ta_TenantRootID : uuid; ta_PrincipalID : uuid
}.
Record SyncOp := { so_Op : string; so_Key : string; so_Fields : raw; so_Text : string; so_Author : string }.
Record SyncRequest := { sr_Since : Z; sr_Ops : list SyncOp }.
Record OpResult := { or_Key : string; or_OK : bool; or_Error : string }.
Record SyncResponse := {
  sy_Rev : Z; sy_Project : SyncProject; sy_Tasks : list Task; sy_Results : list OpResult; sy_More : bool
}.

(** [createFields]: the task fields and the timestamps of an import. *)
Record createFields := { cf_Fields : TaskFields; cf_CreatedAt : option time; cf_ClosedAt : option time }.
Definition no_createFields : createFields := Build_createFields no_fields None None.

Section Sync.
Context `{UnicodeTables, UUIDLib, Authz, EventLib, TimeParser}.

(** ** Decoding fields *)

Definition as_strings_ptr {S : Type} (set : option (list string) -> S -> S) (v : json) (s : S) : option S :=
  match v with
  | JNull => Some (set None s)
  | JArr l =>
      match (fix go (l : list json) : option (list string) :=
               match l with
               | [] => Some []
               | JStr x :: r => option_map (cons x) (go r)
               | JNull :: r => option_map (cons "") (go r)
               | _ :: _ => None
               end) l with
      | Some xs => Some (set (Some xs) s)
      | None => None
      end
  | _ => None
  end.
Definition as_time_ptr {S : Type} (set : option time -> S -> S) (v : json) (s : S) : option S :=
  match v with
  | JNull => Some (set None s)
  | JStr x => match parse_RFC3339 x with Some t => Some (set (Some t) s) | None => None end
  | _ => None
  end.

Definition on_fields (g : TaskFields -> TaskFields) (c : createFields) : createFields :=
  {| cf_Fields := g (cf_Fields c); cf_CreatedAt := cf_CreatedAt c; cf_ClosedAt := cf_ClosedAt c |}.

(** Every field of [TaskFields], as setters on [createFields]. *)
Definition TaskFields_fields : list (field createFields) :=
  [ Field "title" (as_string_ptr (fun x => on_fields (fun f => Build_TaskFields x (tf_Description f) (tf_Lane f) (tf_Status f) (tf_Priority f) (tf_Type f) (tf_Assignee f) (tf_Labels f) (tf_BlockedBy f))));
    Field "description" (as_string_ptr (fun x => on_fields (fun f => Build_TaskFields (tf_Title f) x (tf_Lane f) (tf_Status f) (tf_Priority f) (tf_Type f) (tf_Assignee f) (tf_Labels f) (tf_BlockedBy f))));
    Field "lane" (as_string_ptr (fun x => on_fields (fun f => Build_TaskFields (tf_Title f) (tf_Description f) x (tf_Status f) (tf_Priority f) (tf_Type f) (tf_Assignee f) (tf_Labels f) (tf_BlockedBy f))));
    Field "status" (as_string_ptr (fun x => on_fields (fun f => Build_TaskFields (tf_Title f) (tf_Description f) (tf_Lane f) x (tf_Priority f) (tf_Type f) (tf_Assignee f) (tf_Labels f) (tf_BlockedBy f))));
    Field "priority" (as_int64_ptr (fun x => on_fields (fun f => Build_TaskFields (tf_Title f) (tf_Description f) (tf_Lane f) (tf_Status f) x (tf_Type f) (tf_Assignee f) (tf_Labels f) (tf_BlockedBy f))));
    Field "type" (as_string_ptr (fun x => on_fields (fun f => Build_TaskFields (tf_Title f) (tf_Description f) (tf_Lane f) (tf_Status f) (tf_Priority f) x (tf_Assignee f) (tf_Labels f) (tf_BlockedBy f))));
    Field "assignee" (as_string_ptr (fun x => on_fields (fun f => Build_TaskFields (tf_Title f) (tf_Description f) (tf_Lane f) (tf_Status f) (tf_Priority f) (tf_Type f) x (tf_Labels f) (tf_BlockedBy f))));
    Field "labels" (as_strings_ptr (fun x => on_fields (fun f => Build_TaskFields (tf_Title f) (tf_Description f) (tf_Lane f) (tf_Status f) (tf_Priority f) (tf_Type f) (tf_Assignee f) x (tf_BlockedBy f))));
    Field "blocked_by" (as_strings_ptr (fun x => on_fields (fun f => Build_TaskFields (tf_Title f) (tf_Description f) (tf_Lane f) (tf_Status f) (tf_Priority f) (tf_Type f) (tf_Assignee f) (tf_Labels f) x))) ].

Definition createFields_fields : list (field createFields) :=
  TaskFields_fields ++
  [ Field "created_at" (as_time_ptr (fun x c => Build_createFields (cf_Fields c) x (cf_ClosedAt c)));
    Field "closed_at" (as_time_ptr (fun x c => Build_createFields (cf_Fields c) (cf_CreatedAt c) x)) ].

(** A field whose decoder is a custom unmarshaler. *)
Definition is_time_field (name : string) : bool := String.eqb name "created_at" || String.eqb name "closed_at".

Fixpoint decode_strict (fs : list (field createFields)) (ms : list (string * json)) (saved : option string)
    (c : createFields) : result werror createFields :=
  match ms with
  | [] => match saved with None => Ok c | Some msg => errValidation msg end
  | (k, v) :: ms' =>
      match find_field fs k with
      | None => decode_strict fs ms' (Some (default ("unknown field " +:+ Quote k) saved)) c
      | Some f =>
          match field_set f v c with
          | Some c' => decode_strict fs ms' saved c'
          | None => if is_time_field (field_name f) then errValidation "invalid fields"
                    else decode_strict fs ms' (Some (default "invalid fields" saved)) c
          end
      end
  end.

Definition decodeStrict (fs : list (field createFields)) (r : raw) : result werror createFields :=
  match r with
  | None | Some JNull => Ok no_createFields
  | Some (JObj ms) => decode_strict fs ms None no_createFields
  | Some _ => errValidation "invalid fields"
  end.
Definition decodeFields (r : raw) : result werror TaskFields :=
  let? c := decodeStrict TaskFields_fields r in Ok (cf_Fields c).

(** ** Operations *)

Definition importTimes (cf : createFields) (now : time) : result werror (option time * option time) :=
  let createdAt := cf_CreatedAt cf in
  let closedAt := match tf_Status (cf_Fields cf) with
                  | Some s => if closed_status s then cf_ClosedAt cf else None
                  | None => None
                  end in
  let limit := (now + Minute)%Z in
  if match createdAt with Some t => After t limit | None => false end
  then errValidation "created_at must not be in the future" else
  if match closedAt with Some t => After t limit | None => false end
  then errValidation "closed_at must not be in the future" else
  if match createdAt, closedAt with Some c, Some t => Before t c | _, _ => false end
  then errValidation "closed_at must not precede created_at" else
  Ok (createdAt, closedAt).

Definition with_times (times : option time * option time) (v : taskValues) : taskValues :=
  {| tv_title := tv_title v; tv_description := tv_description v; tv_lane := tv_lane v; tv_status := tv_status v;
     tv_typ := tv_typ v; tv_assignee := tv_assignee v; tv_priority := tv_priority v; tv_labels := tv_labels v;
     tv_blockedBy := tv_blockedBy v; tv_createdAt := fst times; tv_closedAt := snd times |}.

(** The values of a create operation, with Go's clock. *)
Definition create_values (fields : raw) (clock : time) : result werror taskValues :=
  let? cf := decodeStrict createFields_fields fields in
  let? f := normalizeFields (cf_Fields cf) in
  let? v := createValues f in
  let? times := importTimes cf clock in
  Ok (with_times times v).

Definition update_fields (fields : raw) : result werror TaskFields :=
  let? f := decodeFields fields in normalizeFields f.

Definition runOp (projectID : uuid) (proj : project_row) (issuer : uuid) (op : SyncOp) (clock now : time) : stmt unit :=
  if String.eqb (so_Op op) "create" then
    if negb (validKey (so_Key op) (wp_prefix proj))
    then s_err (validationError ("key must be " +:+ wp_prefix proj +:+ "-<id>, e.g. " +:+ wp_prefix proj +:+
                                 "-k3x9q2 or " +:+ wp_prefix proj +:+ "-k3x9.1"))
    else let! v := s_lift (create_values (so_Fields op) clock) in
         let! _ := insertTask projectID proj (so_Key op) v issuer now in s_ret tt
  else if String.eqb (so_Op op) "update" then
    if negb (keyRe (so_Key op)) then s_err (validationError "invalid key")
    else let! f := s_lift (update_fields (so_Fields op)) in
         let! _ := patchTask projectID proj (so_Key op) f None now in s_ret tt
  else if String.eqb (so_Op op) "note" then
    if negb (keyRe (so_Key op)) then s_err (validationError "invalid key")
    else let! entry := s_lift (formatNote clock (so_Author op) "agent" "mf" (so_Text op)) in
         let! _ := patchTask projectID proj (so_Key op) no_fields (Some entry) now in s_ret tt
  else s_err (validationError "op must be create, update or note").

Definition opErrorMessage (e : werror) : option string :=
  match cause (mapErr e) with
  | validationError msg => Some msg
  | WConflict => Some "key already exists"
  | WNotFound => Some "not found"
  | _ => None
  end.

(** One operation under a savepoint: a failure the client caused is reported and
    skipped, any other ends the sync. *)
Definition applyOp (projectID : uuid) (proj : project_row) (issuer : uuid) (op : SyncOp) (clock now : time)
  : stmt OpResult := fun d =>
  match savepoint (runOp projectID proj issuer op clock now) d with
  | (d', Ok _) => (d', Ok {| or_Key := so_Key op; or_OK := true; or_Error := "" |})
  | (d', Err e) =>
      match opErrorMessage e with
      | Some msg => (d', Ok {| or_Key := so_Key op; or_OK := false; or_Error := msg |})
      | None => (d', Err e)
      end
  end.

Fixpoint applyOps (projectID : uuid) (proj : project_row) (issuer : uuid) (ops : list SyncOp) (clock now : time)
  : stmt (list OpResult) :=
  match ops with
  | [] => s_ret []
  | op :: rest =>
      let! res := applyOp projectID proj issuer op clock now in
      let! results := applyOps projectID proj issuer rest clock now in
      s_ret (res :: results)
  end.

(** ** The request *)

Definition requireIssuer (a : TokenAuth) : stmt unit := fun d =>
  match w_accounts d !! ta_PrincipalID a with
  | Some acc =>
      if negb (String.eqb (ac_status acc) "active") then (d, Err WTokenUnauthorized)
      else if negb (has_permission (ta_PrincipalID a) (ta_BusinessID a) "work.write") then (d, Err WTokenUnauthorized)
      else (d, Ok tt)
  | None => (d, Err WTokenUnauthorized)
  end.

(** [LockWorkProject] as the issuer sees it. *)
Definition lock_as_issuer (a : TokenAuth) : stmt (uuid * project_row) := fun d =>
  if authorized (ta_PrincipalID a) (ta_BusinessID a) then
    match GetWorkProject (ta_ProjectID a) (ta_BusinessID a) (ta_TenantRootID a) d with
    | (d, Ok p) => (d, Ok p)
    | (d, Err _) => (d, Err WTokenUnauthorized)
    end
  else (d, Err WTokenUnauthorized).

(** The page of tasks past the cursor, the new cursor, and whether more follow. *)
Definition pull (d : wdb) (projectID root : uuid) (since : Z) : list (string * task_row) * Z * bool :=
  let rows := ListWorkTasksSince d projectID root since (maxSyncTasks + 1) in
  let more := Nat.ltb maxSyncTasks (length rows) in
  let page := if more then take maxSyncTasks rows else rows in
  (page, fold_left (fun _ x => wt_rev (snd x)) page since, more).

Definition count_ok (rs : list OpResult) : Z := Z.of_nat (length (List.filter or_OK rs)).

Definition Sync (a : TokenAuth) (req : SyncRequest) (clock now : time) (d : wdb) : wdb * result werror SyncResponse :=
  if (sr_Since req <? 0)%Z then (d, errValidation "since must be >= 0") else
  if (MaxSyncOps <? Z.of_nat (length (sr_Ops req)))%Z then (d, errValidation "too many ops") else
  run_work (
    let! _ := requireIssuer a in
    let! (id, proj) := lock_as_issuer a in
    let! results := applyOps id proj (ta_PrincipalID a) (sr_Ops req) clock now in
    let! _ := if Nat.eqb (length (sr_Ops req)) 0 then s_ret tt
              else w_writeAudit (ta_PrincipalID a) proj "work.sync" "work_token" (ta_TokenID a)
                     (JObj [("project_id", juuid id); ("ops", JInt (Z.of_nat (length (sr_Ops req))));
                            ("applied", JInt (count_ok results));
                            ("failed", JInt (Z.of_nat (length (sr_Ops req)) - count_ok results))]) in
    s_read (fun d =>
      let '(page, rev, more) := pull d id (wp_root proj) (sr_Since req) in
      {| sy_Rev := rev;
         sy_Project := {| sp_Slug := wp_slug proj; sp_Name := wp_name proj; sp_KeyPrefix := wp_prefix proj |};
         sy_Tasks := map (fun x => toTask (fst x) (snd x)) page; sy_Results := results; sy_More := more |})) d.

(** ** Tokens *)

Definition used_at (now : time) (k : token_row) : token_row :=
  {| wk_business := wk_business k; wk_root := wk_root k; wk_project := wk_project k; wk_name := wk_name k;
     wk_hash := wk_hash k; wk_prefix := wk_prefix k; wk_principal := wk_principal k;
     wk_created_at := wk_created_at k; wk_last_used := Some now; wk_revoked := wk_revoked k |}.

(** [work_resolve_token] (migration 0145). *)
Definition work_resolve_token (hash : string) (now : time) : stmt TokenAuth := fun d =>
  match List.find (fun x => String.eqb (wk_hash (snd x)) hash && bool_decide (wk_revoked (snd x) = None) &&
                            match w_projects d !! wk_project (snd x) with
                            | Some p => N.eqb (wp_root p) (wk_root (snd x))
                            | None => false
                            end) (map_to_list (w_tokens d)) with
  | None => (d, Err WNoRows)
  | Some (id, k) =>
      let auth := {| ta_TokenID := id; ta_ProjectID := wk_project k; ta_BusinessID := wk_business k;
                     ta_TenantRootID := wk_root k; ta_PrincipalID := wk_principal k |} in
      if match wk_last_used k with None => true | Some t => (t <? now - Minute)%Z end then
        if negb (w_fence d (wk_root k)) then (d, Err WTenantMaintenance)
        else (set_tokens (<[id := used_at now k]> (w_tokens d)) d, Ok auth)
      else (d, Ok auth)
  end.

Definition ResolveToken (plaintext : string) (now : time) (d : wdb) : wdb * result werror TokenAuth :=
  if negb (tokenRe plaintext) then (d, Err WTokenUnauthorized) else
  match work_resolve_token (HashToken plaintext) now d with
  | (d', Ok a) => (d', Ok a)
  | (d', Err WNoRows) => (rollback d d', Err WTokenUnauthorized)
  | (d', Err e) => (rollback d d', Err (mapErr e))
  end.
End Sync.
