(* ===== verification/WorkFacts.v ===== *)
(** * The work board's invariant and history

    [board_ok] is what the tables promise: every row satisfies its CHECK
    constraints, a task is closed exactly when it has a closing time, revisions
    are drawn from the sequence and never shared, a token's hash is its own.
    [history] relates the tables before and after a transaction: tasks are never
    removed, their identity and notes stay, and whatever changed carries a
    revision above every one drawn before.  Every statement and every operation
    of the service is shown to keep both. *)

From S2P Require Import Prelude GoStrings GoTime GoJson AutoStore AutoService AutoEvents WorkFields WorkBoard.
From S2P Require Import WorkSync.
From stdpp Require Import sorting.
#[local] Open Scope go_scope.
#[local] Open Scope stmt_scope.

(** ** The invariant *)

Definition in_project (d : wdb) (pid root business : uuid) : Prop :=
  exists p, w_projects d !! pid = Some p /\ wp_root p = root /\ wp_business p = business.

Record task_ok (d : wdb) (pid : uuid) (key : string) (t : task_row) : Prop := {
  to_project : in_project d pid (wt_root t) (wt_business t);
  to_checks : task_checks key t = None;
  to_closed : is_Some (wt_closed_at t) <-> closed_status (wt_status t) = true;
  to_rev : (0 < wt_rev t <= w_seq d)%Z
}.

Record board_ok (d : wdb) : Prop := {
  bo_tasks : forall pid key t, w_tasks d !! (pid, key) = Some t -> task_ok d pid key t;
  bo_revs : forall x y t u, w_tasks d !! x = Some t -> w_tasks d !! y = Some u -> wt_rev t = wt_rev u -> x = y;
  bo_prefixes : forall pid p, w_projects d !! pid = Some p -> prefixRe (wp_prefix p) = true;
  bo_tokens : forall id k, w_tokens d !! id = Some k -> in_project d (wk_project k) (wk_root k) (wk_business k);
  bo_hashes : forall i j k l, w_tokens d !! i = Some k -> w_tokens d !! j = Some l -> wk_hash k = wk_hash l -> i = j;
  bo_seq : (0 <= w_seq d)%Z
}.

(** ** History *)

(** What an update keeps of a task. *)
Record task_kept (t t' : task_row) : Prop := {
  tk_identity : wt_id t' = wt_id t /\ wt_business t' = wt_business t /\ wt_root t' = wt_root t /\
                wt_created_by t' = wt_created_by t /\ wt_created_at t' = wt_created_at t;
  tk_notes : bytes (wt_notes t) `prefix_of` bytes (wt_notes t')
}.

Record token_kept (k k' : token_row) : Prop := {
  kk_identity : wk_project k' = wk_project k /\ wk_root k' = wk_root k /\ wk_business k' = wk_business k /\
                wk_hash k' = wk_hash k /\ wk_principal k' = wk_principal k;
  kk_revoked : is_Some (wk_revoked k) -> wk_revoked k' = wk_revoked k
}.

(** [sc] holds of the projects whose tasks may change. *)
Record history (sc : uuid -> Prop) (d d' : wdb) : Prop := {
  hi_ok : board_ok d -> board_ok d';
  hi_seq : (w_seq d <= w_seq d')%Z;
  hi_projects : w_projects d ⊆ w_projects d';
  hi_tasks : forall x t, w_tasks d !! x = Some t -> exists t', w_tasks d' !! x = Some t' /\ task_kept t t';
  hi_new : forall x t, w_tasks d' !! x = Some t -> w_tasks d !! x = Some t \/ (w_seq d < wt_rev t)%Z;
  hi_scope : forall pid key, ~ sc pid -> w_tasks d' !! (pid, key) = w_tasks d !! (pid, key);
  hi_tokens : forall i k, w_tokens d !! i = Some k -> exists k', w_tokens d' !! i = Some k' /\ token_kept k k'
}.

Lemma task_kept_refl (t : task_row) : task_kept t t.
Proof. by constructor. Qed.

Lemma task_kept_trans (t u v : task_row) : task_kept t u -> task_kept u v -> task_kept t v.
Proof.
  intros [(? & ? & ? & ? & ?) Hn] [(? & ? & ? & ? & ?) Hn']. constructor; [split_and!; congruence|]. by etrans.
Qed.

Lemma token_kept_refl (k : token_row) : token_kept k k.
Proof. by constructor. Qed.

Lemma token_kept_trans (k l m : token_row) : token_kept k l -> token_kept l m -> token_kept k m.
Proof.
  intros [(? & ? & ? & ? & ?) Hr] [(? & ? & ? & ? & ?) Hr']. constructor; [split_and!; congruence|].
  intros Hk. rewrite Hr'; [by apply Hr|]. by rewrite Hr.
Qed.

Lemma in_project_mono (d d' : wdb) (pid root business : uuid) :
  w_projects d ⊆ w_projects d' -> in_project d pid root business -> in_project d' pid root business.
Proof. intros Hs (p & Hp & Hr & Hb). exists p. split_and!; try done. by eapply lookup_weaken. Qed.

Lemma task_ok_mono (d d' : wdb) (pid : uuid) (key : string) (t : task_row) :
  w_projects d ⊆ w_projects d' -> (w_seq d <= w_seq d')%Z -> task_ok d pid key t -> task_ok d' pid key t.
Proof. intros Hp Hs [? ? ? ?]. constructor; [by eapply in_project_mono|done|done|lia]. Qed.

Section History.
Variable sc : uuid -> Prop.

Lemma history_refl (d : wdb) : history sc d d.
Proof.
  constructor; try done.
  - intros x t Ht. exists t. split; [done|apply task_kept_refl].
  - intros x t Ht. by left.
  - intros i k Hk. exists k. split; [done|apply token_kept_refl].
Qed.

Lemma history_trans (d e f : wdb) : history sc d e -> history sc e f -> history sc d f.
Proof.
  intros [Hok Hs Hp Ht Hn Hsc Htk] [Hok' Hs' Hp' Ht' Hn' Hsc' Htk']. constructor.
  - auto.
  - lia.
  - by etrans.
  - intros x t Hx. destruct (Ht x t Hx) as (u & Hu & Hk). destruct (Ht' x u Hu) as (v & Hv & Hk').
    exists v. split; [done|]. by eapply task_kept_trans.
  - intros x t Hx. destruct (Hn' x t Hx) as [Hx'|Hr]; [by apply Hn|]. right. lia.
  - intros pid key Hpid. rewrite Hsc' by done. by apply Hsc.
  - intros i k Hi. destruct (Htk i k Hi) as (l & Hl & Hk). destruct (Htk' i l Hl) as (m & Hm & Hk').
    exists m. split; [done|]. by eapply token_kept_trans.
Qed.

(** Changes that do not touch tasks, projects or tokens. *)
Lemma history_seq (d : wdb) (n : Z) : (w_seq d <= n)%Z -> history sc d (set_seq n d).
Proof.
  intros Hn. constructor; simpl; try done.
  - intros [Ht Hr Hp Hk Hh Hs]. constructor; try done; [|simpl; lia].
    intros pid key t Hl. eapply task_ok_mono; [| |by apply Ht]; [done|done].
  - intros x t Ht. exists t. split; [done|apply task_kept_refl].
  - intros x t Ht. by left.
  - intros i k Hk. exists k. split; [done|apply token_kept_refl].
Qed.

Lemma history_rollback (d d' : wdb) : (w_seq d <= w_seq d')%Z -> history sc d (rollback d d').
Proof. apply history_seq. Qed.

Lemma history_audit (d : wdb) (a : audit_entry) : history sc d (w_add_audit a d).
Proof.
  constructor; simpl; try done.
  - intros [Ht Hr Hp Hk Hh Hs]. constructor; try done.
    intros pid key t Hl. by destruct (Ht pid key t Hl); constructor.
  - intros x t Ht. exists t. split; [done|apply task_kept_refl].
  - intros x t Ht. by left.
  - intros i k Hk. exists k. split; [done|apply token_kept_refl].
Qed.

(** Writing one task under a new revision. *)
Lemma history_write (d : wdb) (pid : uuid) (key : string) (row : task_row) :
  sc pid -> let d1 := set_seq (w_seq d + 1) d in
  (board_ok d -> task_ok d1 pid key row) -> wt_rev row = (w_seq d + 1)%Z ->
  (forall t, w_tasks d !! (pid, key) = Some t -> task_kept t row) ->
  history sc d (set_tasks (<[(pid, key) := row]> (w_tasks d)) d1).
Proof.
  intros Hsc d1 Hok Hrev Hkept. constructor; simpl; try done.
  - intros Hb. pose proof (hi_ok _ _ _ (history_seq d (w_seq d + 1) ltac:(lia)) Hb) as Hb1.
    specialize (Hok Hb). destruct Hb as [Ht Hr Hp Hk Hh Hs]. destruct Hb1 as [Ht1 _ _ _ _ _].
    assert (Hold : forall y u, w_tasks d !! y = Some u -> wt_rev u <> wt_rev row).
    { intros [q k] u Hy He. pose proof (to_rev _ _ _ _ (Ht q k u Hy)). lia. }
    constructor; simpl; try done; try lia.
    + intros q k t Hl. apply lookup_insert_Some in Hl as [[Hq <-]|[_ Hl]].
      * injection Hq as <- <-. by destruct Hok.
      * by destruct (Ht1 q k t Hl).
    + intros x y t u Hx Hy He. apply lookup_insert_Some in Hx as [[<- <-]|[Hxn Hx]];
        apply lookup_insert_Some in Hy as [[<- <-]|[Hyn Hy]]; try done.
      * by destruct (Hold y u Hy).
      * by destruct (Hold x t Hx).
      * by eapply Hr.
  - lia.
  - intros x t Hx. destruct (decide (x = (pid, key))) as [->|Hne].
    + exists row. rewrite lookup_insert_eq. split; [done|]. by apply Hkept.
    + exists t. rewrite lookup_insert_ne by done. split; [done|apply task_kept_refl].
  - intros x t Hx. apply lookup_insert_Some in Hx as [[_ <-]|[_ Hx]]; [right; lia|by left].
  - intros q k Hq. rewrite lookup_insert_ne; [done|]. intros [= -> ->]. done.
  - intros i k Hk. exists k. split; [done|apply token_kept_refl].
Qed.

Lemma history_project (d : wdb) (id : uuid) (p : project_row) :
  w_projects d !! id = None -> prefixRe (wp_prefix p) = true ->
  history sc d (set_projects (<[id := p]> (w_projects d)) d).
Proof.
  intros Hid Hp. assert (Hsub : w_projects d ⊆ <[id := p]> (w_projects d)) by by apply insert_subseteq.
  constructor; simpl; try done.
  - intros [Ht Hr Hpr Hk Hh Hs]. constructor; simpl; try done.
    + intros q k t Hl. eapply task_ok_mono; [| |by apply Ht]; [done|simpl; lia].
    + intros q r Hl. apply lookup_insert_Some in Hl as [[_ <-]|[_ Hl]]; [done|by eapply Hpr].
    + intros i k Hl. eapply in_project_mono; [|by eapply Hk]. done.
  - intros x t Ht. exists t. split; [done|apply task_kept_refl].
  - intros x t Ht. by left.
  - intros i k Hk. exists k. split; [done|apply token_kept_refl].
Qed.

(** Writing one token, with a hash that no other token has. *)
Lemma history_token (d : wdb) (id : uuid) (k : token_row) :
  (board_ok d -> in_project d (wk_project k) (wk_root k) (wk_business k)) ->
  (forall j l, w_tokens d !! j = Some l -> wk_hash l = wk_hash k -> board_ok d -> j = id) ->
  (forall l, w_tokens d !! id = Some l -> token_kept l k) ->
  history sc d (set_tokens (<[id := k]> (w_tokens d)) d).
Proof.
  intros Hp Hh Hkept. constructor; simpl; try done.
  - intros Hb. specialize (Hp Hb). assert (Hh' := fun j l Hj He => Hh j l Hj He Hb).
    destruct Hb as [Ht Hr Hpr Hk Hha Hs]. constructor; simpl; try done.
    + intros q key t Hl. by destruct (Ht q key t Hl); constructor.
    + intros i l Hl. apply lookup_insert_Some in Hl as [[_ <-]|[_ Hl]]; [done|by eapply Hk].
    + intros i j l m Hi Hj He. apply lookup_insert_Some in Hi as [[<- <-]|[Hin Hi]];
        apply lookup_insert_Some in Hj as [[<- <-]|[Hjn Hj]]; try done.
      * symmetry. by apply (Hh' j m).
      * by apply (Hh' i l).
      * by eapply Hha.
  - intros x t Ht. exists t. split; [done|apply task_kept_refl].
  - intros x t Ht. by left.
  - intros i l Hl. destruct (decide (i = id)) as [->|Hne].
    + exists k. rewrite lookup_insert_eq. split; [done|by apply Hkept].
    + exists l. rewrite lookup_insert_ne by done. split; [done|apply token_kept_refl].
Qed.
End History.
