(* ===== verification/WorkOps.v ===== *)
(** * Every operation of the work board keeps its invariant and its history

    [keeps P m Q]: from tables that satisfy [P], the statement [m] moves along
    [history], whether it fails or not, and a success establishes [Q]. *)

From S2P Require Import Prelude GoStrings GoTime GoJson AutoStore AutoService AutoEvents WorkFields WorkFieldsFacts.
From S2P Require Import WorkKeyFacts WorkBoard WorkSync WorkFacts.
From stdpp Require Import sorting.
#[local] Open Scope go_scope.
#[local] Open Scope stmt_scope.

Section Keeps.
Context `{UnicodeTables, UUIDLib, Authz, EventLib, TimeParser}.
Variable sc : uuid -> Prop.

Definition keeps {A : Type} (P : wdb -> Prop) (m : stmt A) (Q : A -> wdb -> Prop) : Prop :=
  forall d, P d -> history sc d (fst (m d)) /\ match snd (m d) with Ok a => Q a (fst (m d)) | Err _ => True end.

(** An assertion that later transactions cannot break. *)
Definition stable (P : wdb -> Prop) : Prop := forall d d', history sc d d' -> P d -> P d'.

Definition anything : wdb -> Prop := fun _ => True.
Definition no_matter {A : Type} : A -> wdb -> Prop := fun _ _ => True.
Definition has_project (x : uuid * project_row) (d : wdb) : Prop := w_projects d !! fst x = Some (snd x).

Lemma has_project_stable (x : uuid * project_row) : stable (has_project x).
Proof. intros d d' Hh Hx. eapply lookup_weaken; [exact Hx|apply Hh]. Qed.

Lemma keeps_bind {A B : Type} (P : wdb -> Prop) (m : stmt A) (k : A -> stmt B) (Q : A -> wdb -> Prop)
    (R : B -> wdb -> Prop) :
  keeps P m Q -> (forall a, keeps (Q a) (k a) R) -> keeps P (s_bind m k) R.
Proof.
  intros Hm Hk d HP. destruct (Hm d HP) as [Hh Hr]. unfold s_bind.
  destruct (m d) as [d1 [a|e]]; simpl in *; [|by split].
  destruct (Hk a d1 Hr) as [Hh' Hr']. split; [by eapply history_trans|done].
Qed.

(** A statement that only reads. *)
Lemma keeps_read {A : Type} (P : wdb -> Prop) (m : stmt A) (Q : A -> wdb -> Prop) :
  (forall d, P d -> fst (m d) = d) -> (forall d a, P d -> snd (m d) = Ok a -> Q a d) -> keeps P m Q.
Proof.
  intros Hd Hq d HP. rewrite Hd by done. split; [apply history_refl|].
  destruct (snd (m d)) as [a|e] eqn:He; [by apply Hq|done].
Qed.

Lemma keeps_frame {A : Type} (P : wdb -> Prop) (m : stmt A) (Q : A -> wdb -> Prop) :
  stable P -> keeps P m Q -> keeps P m (fun a d => P d /\ Q a d).
Proof.
  intros Hs Hm d HP. destruct (Hm d HP) as [Hh Hr]. split; [done|].
  destruct (snd (m d)); [|done]. split; [by eapply Hs|done].
Qed.

Lemma keeps_weaken {A : Type} (P P' : wdb -> Prop) (m : stmt A) (Q Q' : A -> wdb -> Prop) :
  (forall d, P' d -> P d) -> (forall a d, Q a d -> Q' a d) -> keeps P m Q -> keeps P' m Q'.
Proof.
  intros HP HQ Hm d Hd. destruct (Hm d (HP d Hd)) as [Hh Hr]. split; [done|].
  destruct (snd (m d)); [by apply HQ|done].
Qed.

Lemma keeps_ret {A : Type} (P : wdb -> Prop) (a : A) : keeps P (s_ret a) no_matter.
Proof. by apply keeps_read. Qed.

Lemma keeps_err {A : Type} (P : wdb -> Prop) (e : werror) (Q : A -> wdb -> Prop) : keeps P (s_err e) Q.
Proof. by apply keeps_read. Qed.

Lemma keeps_lift {A : Type} (P : wdb -> Prop) (r : result werror A) : keeps P (s_lift r) (fun _ => P).
Proof. by apply keeps_read. Qed.

Lemma keeps_audit (P : wdb -> Prop) (principal : uuid) (proj : project_row) (action target_type : string)
    (target : uuid) (value : json) :
  stable P -> keeps P (w_writeAudit principal proj action target_type target value) (fun _ => P).
Proof.
  intros Hs d HP. assert (Hh : history sc d (fst (w_writeAudit principal proj action target_type target value d)))
    by apply history_audit. split; [done|]. simpl. by eapply Hs.
Qed.

Lemma keeps_savepoint {A : Type} (P : wdb -> Prop) (m : stmt A) (Q : A -> wdb -> Prop) :
  keeps P m Q -> keeps P (savepoint m) Q.
Proof.
  intros Hm d HP. destruct (Hm d HP) as [Hh Hr]. unfold savepoint. destruct (m d) as [d' [a|e]]; simpl in *; [done|].
  split; [|done]. apply history_rollback, Hh.
Qed.

Lemma keeps_run {A : Type} (m : stmt A) (Q : A -> wdb -> Prop) :
  keeps anything m Q -> forall d, history sc d (fst (run_work m d)).
Proof.
  intros Hm d. destruct (Hm d I) as [Hh _]. unfold run_work. destruct (m d) as [d' [a|e]]; simpl in *; [done|].
  apply history_rollback, Hh.
Qed.

(** ** Loading *)

Lemma keeps_root (principal business : uuid) : keeps anything (resolveTenantRoot principal business) no_matter.
Proof. apply keeps_read; [|done]. intros d _. unfold resolveTenantRoot. repeat case_match; done. Qed.

Lemma keeps_GetWorkProject (P : wdb -> Prop) (id business root : uuid) :
  keeps P (GetWorkProject id business root) (fun x d => has_project x d /\ fst x = id).
Proof.
  apply keeps_read; unfold GetWorkProject; intros d; [intros _; repeat case_match; done|].
  intros a _. destruct (w_projects d !! id) as [p|] eqn:Hp; [|done]. case_match; [|done]. by intros [= <-].
Qed.

Lemma keeps_load (principal business : uuid) (ref : string) :
  keeps anything (loadProject principal business ref) has_project.
Proof.
  apply (keeps_bind _ _ _ no_matter); [apply keeps_root|]. intros root. destruct (uuid_Parse ref) as [id|].
  - eapply keeps_weaken; [..|apply keeps_GetWorkProject]; [done|]. by intros a d [Ha _].
  - destruct (negb (slugRe ref)); [apply keeps_err|].
    apply keeps_read; unfold GetWorkProjectBySlug; intros d; [intros _; repeat case_match; done|].
    intros [id p] _. destruct (List.find _ _) as [x|] eqn:Hf; [|done]. intros [= ->].
    apply List.find_some in Hf as [Hin _]. by apply list_elem_of_In, elem_of_map_to_list in Hin.
Qed.

(** ** Writing tasks *)

Lemma set_seq_history (d : wdb) : history sc d (set_seq (w_seq d + 1) d).
Proof. apply history_seq. lia. Qed.

Lemma keeps_insert (pid : uuid) (proj : project_row) (key : string) (v : taskValues) (creator : uuid) (now : time) :
  sc pid -> keeps (has_project (pid, proj)) (insertTask pid proj key v creator now) no_matter.
Proof.
  intros Hsc d Hp. split; [|by destruct (snd _)]. unfold insertTask, InsertWorkTask. cbv zeta.
  destruct (_ || _); [apply history_refl|]. destruct (negb _); [apply set_seq_history|].
  destruct (task_checks _ _) as [c|] eqn:Hc; [apply set_seq_history|].
  destruct (w_tasks d !! (pid, key)) as [t|] eqn:Ht; [apply set_seq_history|]. simpl.
  apply history_write; [done| |done|].
  - intros Hb. constructor; simpl; [|exact Hc| |].
    + by exists proj.
    + destruct (closed_status (tv_status v)); split; (done || by intros [? ?]).
    + pose proof (bo_seq _ Hb). lia.
  - intros t. rewrite Ht. done.
Qed.

Lemma patched_kept (f : TaskFields) (note : option string) (rev : Z) (now : time) (t : task_row) :
  task_kept t (patched f note rev now t).
Proof.
  constructor; [done|]. simpl. destruct note as [e|]; [|done].
  destruct (String.eqb_spec (wt_notes t) "") as [->|_]; [apply prefix_nil|].
  rewrite bytes_app. by apply prefix_app_r.
Qed.

Lemma patched_closed (f : TaskFields) (note : option string) (rev : Z) (now : time) (t : task_row) :
  (is_Some (wt_closed_at t) <-> closed_status (wt_status t) = true) ->
  is_Some (wt_closed_at (patched f note rev now t)) <-> closed_status (wt_status (patched f note rev now t)) = true.
Proof.
  intros Ht. simpl. destruct (tf_Status f) as [s|]; simpl; [|done].
  destruct (closed_status s); split; (done || by intros [? ?]).
Qed.

Lemma keeps_update (P : wdb -> Prop) (pid : uuid) (proj : project_row) (key : string) (f : TaskFields)
    (note : option string) (now : time) :
  sc pid -> keeps P (UpdateWorkTask pid proj key f note now) no_matter.
Proof.
  intros Hsc d _. split; [|by destruct (snd _)]. unfold UpdateWorkTask. cbv zeta.
  destruct (_ || _); [apply history_refl|].
  destruct (w_tasks d !! (pid, key)) as [t|] eqn:Ht; [|apply history_refl].
  destruct (negb _); [apply history_refl|]. destruct (negb _); [apply set_seq_history|].
  destruct (task_checks _ _) as [c|] eqn:Hc; [apply set_seq_history|]. simpl.
  apply history_write; [done| |done|].
  - intros Hb. pose proof (bo_tasks _ Hb pid key t Ht) as [Hp _ Hcl Hrev].
    constructor; [exact Hp|exact Hc|by apply patched_closed|]. simpl. pose proof (bo_seq _ Hb). lia.
  - intros t'. rewrite Ht. intros [= <-]. apply patched_kept.
Qed.

Lemma keeps_patch (P : wdb -> Prop) (pid : uuid) (proj : project_row) (key : string) (f : TaskFields)
    (note : option string) (now : time) :
  sc pid -> keeps P (patchTask pid proj key f note now) no_matter.
Proof. intros Hsc. unfold patchTask. destruct (_ && _); [apply keeps_err|by apply keeps_update]. Qed.

Lemma keeps_attempts (left attempt : nat) (draws : nat -> option (list N)) (pid : uuid) (proj : project_row)
    (v : taskValues) (principal : uuid) (now : time) :
  sc pid -> keeps (has_project (pid, proj)) (insert_attempts left attempt draws pid proj v principal now) no_matter.
Proof.
  intros Hsc. revert attempt. induction left as [|left IH]; intros attempt; simpl; [apply keeps_err|].
  destruct (newTaskKey _ _) as [key|e]; [|apply keeps_err]. intros d Hp.
  destruct (keeps_savepoint _ _ _ (keeps_insert pid proj key v principal now Hsc) d Hp) as [Hh _].
  unfold insertTaskSavepoint. destruct (savepoint _ d) as [d' [row|e]]; simpl in *; [by split|].
  destruct (_ || _); [by split|].
  destruct (IH (S attempt) d' (has_project_stable _ _ _ Hh Hp)) as [Hh' Hr]. split; [by eapply history_trans|done].
Qed.

(** ** Sync *)

Lemma keeps_runOp (pid : uuid) (proj : project_row) (issuer : uuid) (op : SyncOp) (clock now : time) :
  sc pid -> keeps (has_project (pid, proj)) (runOp pid proj issuer op clock now) no_matter.
Proof.
  intros Hsc. unfold runOp. destruct (String.eqb _ _); [|destruct (String.eqb _ _); [|destruct (String.eqb _ _)]].
  - destruct (negb _); [apply keeps_err|]. eapply keeps_bind; [apply keeps_lift|]. intros v.
    eapply keeps_bind; [by apply keeps_insert|]. intros ?. apply keeps_ret.
  - destruct (negb _); [apply keeps_err|]. eapply keeps_bind; [apply keeps_lift|]. intros f.
    eapply keeps_bind; [by apply keeps_patch|]. intros ?. apply keeps_ret.
  - destruct (negb _); [apply keeps_err|]. eapply keeps_bind; [apply keeps_lift|]. intros e.
    eapply keeps_bind; [by apply keeps_patch|]. intros ?. apply keeps_ret.
  - apply keeps_err.
Qed.

Lemma keeps_applyOp (pid : uuid) (proj : project_row) (issuer : uuid) (op : SyncOp) (clock now : time) :
  sc pid -> keeps (has_project (pid, proj)) (applyOp pid proj issuer op clock now) no_matter.
Proof.
  intros Hsc d Hp. destruct (keeps_savepoint _ _ _ (keeps_runOp pid proj issuer op clock now Hsc) d Hp) as [Hh _].
  unfold applyOp. destruct (savepoint _ d) as [d' [[]|e]]; simpl in *; [by split|].
  by destruct (opErrorMessage e).
Qed.

Lemma keeps_applyOps (pid : uuid) (proj : project_row) (issuer : uuid) (ops : list SyncOp) (clock now : time) :
  sc pid -> keeps (has_project (pid, proj)) (applyOps pid proj issuer ops clock now) (fun _ => has_project (pid, proj)).
Proof.
  intros Hsc. induction ops as [|op ops IH]; simpl; [by apply keeps_read|].
  eapply keeps_bind; [apply keeps_frame; [apply has_project_stable|by apply keeps_applyOp]|]. intros res.
  eapply keeps_bind; [eapply keeps_weaken; [..|exact IH]; [by intros d [? _]|done]|]. intros rs.
  by apply keeps_read.
Qed.
End Keeps.
