(* ===== verification/WorkSafety.v ===== *)
(** * The work board as a system: invariant, validation against the database, tokens *)

From S2P Require Import Prelude GoStrings GoTime GoJson AutoGraph Concrete AutoStore AutoService AutoEvents AutoDemo.
From S2P Require Import WorkFields WorkFieldsFacts WorkKeyFacts WorkBoard WorkSync WorkFacts WorkOps.
From stdpp Require Import sorting.
#[local] Open Scope go_scope.
#[local] Open Scope stmt_scope.

(** ** The requests of the board *)

(** What other subsystems change: accounts, businesses, and which tenants are
    being merged. *)
Definition w_environment (b : gmap uuid business_row) (acc : gmap uuid account_row) (f : gset uuid) (d : wdb) : wdb :=
  {| w_projects := w_projects d; w_tasks := w_tasks d; w_tokens := w_tokens d; w_seq := w_seq d;
     w_businesses := b; w_accounts := acc; w_fenced_roots := f; w_audit := w_audit d |}.

Inductive request : Type :=
| RListProjects (principal business : uuid)
| RCreateProject (principal business : uuid) (input : ProjectInput)
| RGetProject (principal business : uuid) (ref : string)
| RListTasks (principal business : uuid) (ref : string) (includeClosed : bool)
| RCreateTask (principal business : uuid) (ref : string) (f : TaskFields) (draws : nat -> option (list N))
| RUpdateTask (principal business : uuid) (ref key : string) (f : TaskFields) (note : option string) (clock : time)
| RListTokens (principal business : uuid) (ref : string)
| RCreateToken (principal business : uuid) (ref name : string) (entropy : option (list ascii))
| RRevokeToken (principal business : uuid) (ref : string) (token : uuid)
| RSummary (principal business : uuid)
| RResolveToken (plaintext : string)
| RSync (a : TokenAuth) (req : SyncRequest) (clock : time)
| REnvironment (b : gmap uuid business_row) (acc : gmap uuid account_row) (f : gset uuid).

Section Safety.
Context `{UnicodeTables, UUIDLib, Authz, EventLib, TimeParser}.

(** The tables after a request at the database's time [now]. *)
Definition serve (r : request) (now : time) (d : wdb) : wdb :=
  match r with
  | RListProjects p b => fst (ListProjects p b d)
  | RCreateProject p b i => fst (CreateProject p b i now d)
  | RGetProject p b ref => fst (GetProject p b ref d)
  | RListTasks p b ref c => fst (ListTasks p b ref c now d)
  | RCreateTask p b ref f draws => fst (CreateTask p b ref f draws now d)
  | RUpdateTask p b ref key f note clock => fst (UpdateTask p b ref key f note clock now d)
  | RListTokens p b ref => fst (ListTokens p b ref d)
  | RCreateToken p b ref name entropy => fst (CreateToken p b ref name entropy now d)
  | RRevokeToken p b ref token => fst (RevokeToken p b ref token now d)
  | RSummary p b => fst (work_Summary p b d)
  | RResolveToken plaintext => fst (ResolveToken plaintext now d)
  | RSync a req clock => fst (Sync a req clock now d)
  | REnvironment b acc f => w_environment b acc f d
  end.

Definition everywhere : uuid -> Prop := fun _ => True.

Section Operations.
Variable sc : uuid -> Prop.

(** Requests that only read. *)
Lemma read_history {A B : Type} (load : stmt A) (P : A -> wdb -> Prop) (view : A -> wdb -> B) :
  keeps sc anything load P -> forall d, history sc d (fst (run_work (let! a := load in s_read (view a)) d)).
Proof.
  intros Hl. eapply (keeps_run sc _ no_matter). eapply keeps_bind; [exact Hl|]. intros a. by apply keeps_read.
Qed.

Lemma load_history {B : Type} (principal business : uuid) (ref : string) (view : uuid -> project_row -> wdb -> B) (d : wdb) :
  history sc d (fst (run_work (let! (id, proj) := loadProject principal business ref in s_read (view id proj)) d)).
Proof.
  revert d. eapply (keeps_run sc _ no_matter). eapply keeps_bind; [apply keeps_load|]. intros [id p]. by apply keeps_read.
Qed.

Lemma CreateProject_history (principal business : uuid) (input : ProjectInput) (now : time) (d : wdb) :
  history sc d (fst (CreateProject principal business input now d)).
Proof.
  unfold CreateProject. destruct (normalizeProject input) as [[[name slug] prefix]|e] eqn:Hn; [|apply history_refl].
  revert d. eapply (keeps_run sc _ no_matter). eapply keeps_bind; [apply keeps_root|]. intros root.
  apply (keeps_bind sc _ _ _ no_matter).
  - intros d _. split; [|by destruct (snd _)]. unfold InsertWorkProject. cbv zeta.
    destruct (has_nul name); [apply history_refl|].
    destruct (negb _); [apply history_refl|]. destruct (existsb _ _); [apply history_refl|].
    apply history_project; [apply not_elem_of_dom, is_fresh|]. by eapply normalizeProject_prefix.
  - intros [id row]. eapply keeps_bind; [by apply keeps_audit|]. intros ?. apply keeps_ret.
Qed.

Lemma CreateTask_history (principal business : uuid) (ref : string) (f : TaskFields) (draws : nat -> option (list N))
    (now : time) (d : wdb) :
  (forall pid, sc pid) -> history sc d (fst (CreateTask principal business ref f draws now d)).
Proof.
  intros Hsc. unfold CreateTask. destruct (result_bind _ _) as [v|e]; [|apply history_refl].
  revert d. eapply (keeps_run sc _ no_matter). eapply keeps_bind; [apply keeps_load|]. intros [id p].
  eapply keeps_bind; [by apply keeps_attempts|]. intros [key row].
  eapply keeps_bind; [by apply keeps_audit|]. intros ?. apply keeps_ret.
Qed.

Lemma UpdateTask_history (principal business : uuid) (ref key : string) (f : TaskFields) (note : option string)
    (clock now : time) (d : wdb) :
  (forall pid, sc pid) -> history sc d (fst (UpdateTask principal business ref key f note clock now d)).
Proof.
  intros Hsc. unfold UpdateTask. destruct (normalizeFields f) as [f'|e]; [|apply history_refl].
  destruct (_ && _); [apply history_refl|].
  revert d. eapply (keeps_run sc _ no_matter). eapply keeps_bind; [apply keeps_load|]. intros [id p].
  apply (keeps_bind sc _ _ _ no_matter).
  - destruct note as [text|]; [|apply keeps_ret]. apply (keeps_bind sc _ _ _ no_matter).
    + apply keeps_read; [|done]. intros d _. unfold operatorName. by destruct (w_accounts d !! principal).
    + intros author. eapply keeps_bind; [apply keeps_lift|]. intros e. apply keeps_ret.
  - intros entry. eapply keeps_bind; [by apply keeps_patch|]. intros row.
    eapply keeps_bind; [by apply keeps_audit|]. intros ?. apply keeps_ret.
Qed.

Lemma CreateToken_history (principal business : uuid) (ref name : string) (entropy : option (list ascii))
    (now : time) (d : wdb) :
  history sc d (fst (CreateToken principal business ref name entropy now d)).
Proof.
  unfold CreateToken. destruct (result_bind _ _) as [[nm plaintext]|e]; [|apply history_refl].
  revert d. eapply (keeps_run sc _ no_matter). eapply keeps_bind; [apply keeps_load|]. intros [id p].
  apply (keeps_bind sc _ _ _ no_matter).
  - intros d Hp. split; [|by destruct (snd _)]. destruct (has_nul nm); [apply history_refl|].
    destruct (negb _); [apply history_refl|].
    destruct (existsb _ _) eqn:He; [apply history_refl|]. apply history_token; simpl.
    + intros _. by exists p.
    + intros j l Hj Hh _. exfalso. rewrite <- not_true_iff_false in He. apply He, existsb_exists.
      exists (j, l). split; [by apply list_elem_of_In, elem_of_map_to_list|]. by apply String.eqb_eq.
    + intros l Hl. exfalso. pose proof (is_fresh (dom (w_tokens d))) as Hf.
      apply Hf, elem_of_dom. by exists l.
  - intros tid. eapply keeps_bind; [by apply keeps_audit|]. intros ?. apply keeps_ret.
Qed.

(** Rewriting a token in place. *)
Lemma rewrite_token (d : wdb) (id : uuid) (k k' : token_row) :
  w_tokens d !! id = Some k -> token_kept k k' -> history sc d (set_tokens (<[id := k']> (w_tokens d)) d).
Proof.
  intros Hk Hkept. pose proof (kk_identity _ _ Hkept) as (Hp & Hr & Hb & Hh & _). apply history_token.
  - intros Hok. rewrite Hp, Hr, Hb. by eapply (bo_tokens d Hok).
  - intros j l Hj He Hok. eapply (bo_hashes d Hok); [done|done|]. by rewrite He, Hh.
  - intros l Hl. rewrite Hk in Hl. by injection Hl as <-.
Qed.

Lemma revoked_kept (now : time) (k : token_row) : token_kept k (revoked_at now k).
Proof. constructor; [done|]. simpl. by intros [t ->]. Qed.

Lemma used_kept (now : time) (k : token_row) : token_kept k (used_at now k).
Proof. by constructor. Qed.

Lemma RevokeToken_history (principal business : uuid) (ref : string) (tokenID : uuid) (now : time) (d : wdb) :
  history sc d (fst (RevokeToken principal business ref tokenID now d)).
Proof.
  revert d. eapply (keeps_run sc _ no_matter). eapply keeps_bind; [apply keeps_load|]. intros [id p].
  apply (keeps_bind sc _ _ _ no_matter).
  - intros d _. split; [|by destruct (snd _)]. destruct (w_tokens d !! tokenID) as [k|] eqn:Hk; [|apply history_refl].
    destruct (_ && _); [|apply history_refl]. destruct (negb _); [apply history_refl|].
    eapply rewrite_token; [exact Hk|apply revoked_kept].
  - intros row. eapply keeps_weaken; [..|apply (keeps_audit sc anything)]; done.
Qed.

Lemma find_token (d : wdb) (test : uuid * token_row -> bool) (x : uuid * token_row) :
  List.find test (map_to_list (w_tokens d)) = Some x -> w_tokens d !! fst x = Some (snd x) /\ test x = true.
Proof.
  intros Hf. apply List.find_some in Hf as [Hin Ht]. split; [|done].
  apply list_elem_of_In in Hin. destruct x. by apply elem_of_map_to_list.
Qed.

Lemma ResolveToken_history (plaintext : string) (now : time) (d : wdb) :
  history sc d (fst (ResolveToken plaintext now d)).
Proof.
  unfold ResolveToken. destruct (negb _); [apply history_refl|].
  assert (Hh : history sc d (fst (work_resolve_token (HashToken plaintext) now d))).
  { unfold work_resolve_token. destruct (List.find _ _) as [[id k]|] eqn:Hf; [|apply history_refl]. cbv zeta.
    apply find_token in Hf as [Hk _]. destruct (match wk_last_used k with None => true | Some t => _ end);
      [|apply history_refl]. destruct (negb _); [apply history_refl|].
    eapply rewrite_token; [exact Hk|apply used_kept]. }
  destruct (work_resolve_token _ now d) as [d' [a|e]]; simpl in *; [done|].
  by destruct e; apply history_rollback, Hh.
Qed.

Lemma Sync_history (a : TokenAuth) (req : SyncRequest) (clock now : time) (d : wdb) :
  sc (ta_ProjectID a) -> history sc d (fst (Sync a req clock now d)).
Proof.
  intros Hsc. unfold Sync. destruct (Z.ltb _ _); [apply history_refl|]. destruct (Z.ltb _ _); [apply history_refl|].
  revert d. eapply (keeps_run sc _ no_matter).
  apply (keeps_bind sc _ _ _ no_matter).
  { apply keeps_read; [|done]. intros d _. unfold requireIssuer. repeat case_match; done. }
  intros ?. apply (keeps_bind sc _ _ _ (fun x d => has_project x d /\ fst x = ta_ProjectID a)).
  { apply keeps_read.
    - intros d _. unfold lock_as_issuer. destruct (authorized _ _); [|done].
      unfold GetWorkProject. repeat case_match; simplify_eq; done.
    - intros d x _. unfold lock_as_issuer. destruct (authorized _ _); [|done].
      destruct (keeps_GetWorkProject sc anything (ta_ProjectID a) (ta_BusinessID a) (ta_TenantRootID a) d I) as [_ Hq].
      unfold GetWorkProject in *. repeat case_match; simplify_eq/=; try done. by intros [= <-]. }
  intros [id p]. destruct (decide (id = ta_ProjectID a)) as [->|Hne];
    [|intros d [_ Hd]; simpl in Hd; congruence].
  eapply keeps_bind; [eapply keeps_weaken; [..|by apply keeps_applyOps]; [by intros d [? _]|done]|].
  intros results. apply (keeps_bind sc _ _ _ no_matter).
  { destruct (Nat.eqb _ _); [by apply keeps_read|]. eapply keeps_weaken; [..|apply (keeps_audit sc anything)]; done. }
  intros ?. by apply keeps_read.
Qed.

Lemma environment_history (b : gmap uuid business_row) (acc : gmap uuid account_row) (f : gset uuid) (d : wdb) :
  history sc d (w_environment b acc f d).
Proof.
  constructor; simpl; try done.
  - intros [Ht Hr Hp Hk Hh Hs]. constructor; try done.
    intros pid key t Hl. by destruct (Ht pid key t Hl); constructor.
  - intros x t Ht. exists t. split; [done|apply task_kept_refl].
  - intros x t Ht. by left.
  - intros i k Hk. exists k. split; [done|apply token_kept_refl].
Qed.
End Operations.

Lemma serve_history (r : request) (now : time) (d : wdb) : history everywhere d (serve r now d).
Proof.
  destruct r; simpl.
  - eapply read_history, keeps_root.
  - apply CreateProject_history.
  - apply load_history.
  - apply load_history.
  - by apply CreateTask_history.
  - by apply UpdateTask_history.
  - apply load_history.
  - apply CreateToken_history.
  - apply RevokeToken_history.
  - eapply read_history, keeps_root.
  - apply ResolveToken_history.
  - by apply Sync_history.
  - apply environment_history.
Qed.
End Safety.
