(* ===== verification/WorkPull.v ===== *)
(** * What a sync returns: the tasks past the client's cursor *)

From S2P Require Import Prelude GoStrings GoTime GoJson AutoStore AutoService AutoEvents.
From S2P Require Import WorkFields WorkBoard WorkSync WorkFacts.
From stdpp Require Import sorting.

(** ** Lists sorted by revision *)

Definition row_rev (x : string * task_row) : Z := wt_rev (snd x).
Definition rev_lt (x y : string * task_row) : Prop := (row_rev x < row_rev y)%Z.
Definition last_rev (since : Z) (l : list (string * task_row)) : Z := fold_left (fun _ x => wt_rev (snd x)) l since.

Lemma last_rev_snoc (since : Z) (l : list (string * task_row)) (x : string * task_row) :
  last_rev since (l ++ [x]) = row_rev x.
Proof. unfold last_rev. by rewrite fold_left_app. Qed.

Lemma strongly_sorted_app (l k : list (string * task_row)) :
  StronglySorted rev_lt (l ++ k) ->
  StronglySorted rev_lt l /\ forall x y, x ∈ l -> y ∈ k -> rev_lt x y.
Proof.
  induction l as [|a l IH]; simpl; [intros _; split; [constructor|]; by intros x y ?%not_elem_of_nil|].
  intros Hs. inversion Hs as [|? ? Hs' Hall]; subst. destruct (IH Hs') as [Hl Hlk]. apply Forall_app in Hall as [Ha Hk].
  split; [by constructor|]. intros x y Hx Hy. apply elem_of_cons in Hx as [->|Hx]; [|by apply Hlk].
  rewrite Forall_forall in Hk. by apply Hk.
Qed.

Lemma last_rev_max (since : Z) (l : list (string * task_row)) (x : string * task_row) :
  StronglySorted rev_lt l -> x ∈ l -> (row_rev x <= last_rev since l)%Z.
Proof.
  destruct l as [|z l'] using rev_ind; [by intros _ ?%not_elem_of_nil|]. intros Hs Hx. rewrite last_rev_snoc.
  apply strongly_sorted_app in Hs as [_ Hlt]. apply elem_of_app in Hx as [Hx|Hx].
  - apply Z.lt_le_incl, Hlt; [done|]. by apply list_elem_of_singleton.
  - by apply list_elem_of_singleton in Hx as ->.
Qed.

(** A page cut off a sorted list holds exactly the rows up to its last revision. *)
Lemma page_rows (since : Z) (n : nat) (l : list (string * task_row)) (x : string * task_row) :
  StronglySorted rev_lt l -> (since < row_rev x)%Z ->
  x ∈ take n l <-> x ∈ l /\ (row_rev x <= last_rev since (take n l))%Z.
Proof.
  intros Hs Hx. pose proof Hs as Hs'. rewrite <- (take_drop n l) in Hs'. apply strongly_sorted_app in Hs' as [Hp Hlt].
  split.
  - intros Hin. split; [by eapply subseteq_take|]. by apply last_rev_max.
  - intros [Hin Hle]. rewrite <- (take_drop n l) in Hin. apply elem_of_app in Hin as [Hin|Hin]; [done|]. exfalso.
    destruct (take n l) as [|z l'] using rev_ind; [simpl in Hle; lia|].
    rewrite last_rev_snoc in Hle. assert (Hz : rev_lt z x) by (apply Hlt; [|done]; apply elem_of_app; right; by left).
    unfold rev_lt in Hz. lia.
Qed.

(** ** The rows of a project *)

Lemma elem_of_project_tasks (d : wdb) (pid root : uuid) (key : string) (t : task_row) :
  (key, t) ∈ project_tasks d pid root <-> w_tasks d !! (pid, key) = Some t /\ wt_root t = root.
Proof.
  unfold project_tasks. rewrite list_elem_of_omap. split.
  - intros ([[p k] u] & Hin & Hx). apply elem_of_map_to_list in Hin. simpl in Hx.
    destruct (N.eqb_spec p pid) as [->|]; [|done]. destruct (N.eqb_spec (wt_root u) root) as [<-|]; [|done].
    simpl in Hx. by injection Hx as -> ->.
  - intros [Hl Hr]. exists ((pid, key), t). split; [by apply elem_of_map_to_list|]. simpl.
    by rewrite N.eqb_refl, Hr, N.eqb_refl.
Qed.

#[local] Instance rev_before_trans : Transitive rev_before.
Proof. intros x y z. unfold rev_before. lia. Qed.
#[local] Instance rev_before_total : Total rev_before.
Proof. intros x y. unfold rev_before. lia. Qed.

Lemma project_tasks_nodup (d : wdb) (pid root : uuid) : board_ok d -> NoDup (map row_rev (project_tasks d pid root)).
Proof.
  intros Hb. unfold project_tasks.
  assert (Hall : forall x, x ∈ map_to_list (w_tasks d) -> w_tasks d !! fst x = Some (snd x))
    by (intros [x t] Hx; by apply elem_of_map_to_list in Hx).
  assert (Hnd : NoDup (map fst (map_to_list (w_tasks d)))) by apply NoDup_fst_map_to_list.
  induction (map_to_list (w_tasks d)) as [|x l IH]; simpl; [constructor|].
  apply NoDup_cons in Hnd as [Hx Hnd].
  assert (Hrest : NoDup (map row_rev (omap (fun x => if N.eqb (fst (fst x)) pid && N.eqb (wt_root (snd x)) root
            then Some (snd (fst x), snd x) else None) l)))
    by (apply IH; [intros y Hy; apply Hall; by right|done]).
  destruct (_ && _); simpl; [|done]. constructor; [|done].
  intros Hin. apply list_elem_of_fmap in Hin as ([k t] & Hrev & Hin).
  apply list_elem_of_omap in Hin as (y & Hy & Hyx). destruct (_ && _) in Hyx; [|done]. injection Hyx as <- <-.
  apply Hx. apply list_elem_of_fmap. exists y. split; [|done].
  eapply (bo_revs d Hb); [apply Hall; by left|apply Hall; by right|done].
Qed.

Definition since_rows (d : wdb) (pid root : uuid) (since : Z) : list (string * task_row) :=
  merge_sort rev_before (List.filter (fun x => (since <? wt_rev (snd x))%Z) (project_tasks d pid root)).

Lemma elem_of_since_rows (d : wdb) (pid root : uuid) (since : Z) (key : string) (t : task_row) :
  (key, t) ∈ since_rows d pid root since <->
  w_tasks d !! (pid, key) = Some t /\ wt_root t = root /\ (since < wt_rev t)%Z.
Proof.
  unfold since_rows. rewrite merge_sort_Permutation. rewrite list_elem_of_In, filter_In, <- list_elem_of_In.
  rewrite elem_of_project_tasks, Z.ltb_lt. simpl. tauto.
Qed.

Lemma strictly_sorted (l : list (string * task_row)) :
  StronglySorted rev_before l -> NoDup (map row_rev l) -> StronglySorted rev_lt l.
Proof.
  induction 1 as [|x l Hs IH Hall]; [constructor|]. simpl. intros Hnd. apply NoDup_cons in Hnd as [Hx Hnd].
  constructor; [by apply IH|]. apply Forall_forall. intros y Hy. rewrite Forall_forall in Hall.
  specialize (Hall y Hy). unfold rev_before in Hall. unfold rev_lt, row_rev.
  assert (wt_rev (snd x) <> wt_rev (snd y)); [|lia]. intros He. apply Hx. apply list_elem_of_fmap. by exists y.
Qed.

Lemma nodup_filter_map (p : string * task_row -> bool) (l : list (string * task_row)) :
  NoDup (map row_rev l) -> NoDup (map row_rev (List.filter p l)).
Proof.
  induction l as [|x l IH]; simpl; [done|]. intros Hnd. apply NoDup_cons in Hnd as [Hx Hnd].
  destruct (p x); [|by apply IH]. simpl. constructor; [|by apply IH]. intros Hin. apply Hx.
  apply list_elem_of_fmap in Hin as (y & He & Hy). apply list_elem_of_fmap. exists y. split; [done|].
  apply list_elem_of_In in Hy. apply filter_In in Hy as [Hy _]. by apply list_elem_of_In.
Qed.

Lemma since_rows_sorted (d : wdb) (pid root : uuid) (since : Z) :
  board_ok d -> StronglySorted rev_lt (since_rows d pid root since).
Proof.
  intros Hb. unfold since_rows. apply strictly_sorted; [apply StronglySorted_merge_sort; apply _|].
  eapply NoDup_Permutation_proper; [apply Permutation_map, merge_sort_Permutation|].
  apply nodup_filter_map, project_tasks_nodup, Hb.
Qed.

(** ** A page *)

Lemma pull_page (d : wdb) (pid root : uuid) (since : Z) :
  let rows := since_rows d pid root since in
  pull d pid root since =
    (take maxSyncTasks rows, last_rev since (take maxSyncTasks rows), Nat.ltb maxSyncTasks (length rows)).
Proof.
  cbv zeta. unfold pull, ListWorkTasksSince. fold (since_rows d pid root since).
  generalize (since_rows d pid root since) as rows. generalize maxSyncTasks as n. intros n rows.
  assert (Hmore : Nat.ltb n (length (take (n + 1) rows)) = Nat.ltb n (length rows)).
  { rewrite length_take. destruct (Nat.ltb_spec n (length rows)); [apply Nat.ltb_lt|apply Nat.ltb_ge]; lia. }
  assert (Hpage : (if Nat.ltb n (length rows) then take n (take (n + 1) rows) else take (n + 1) rows) = take n rows).
  { destruct (Nat.ltb_spec n (length rows)).
    - rewrite take_take. f_equal. lia.
    - rewrite !take_ge by lia. done. }
  rewrite Hmore, Hpage. done.
Qed.

Record page_spec (d : wdb) (pid root : uuid) (since : Z) (page : list (string * task_row)) (rev : Z) (more : bool)
  : Prop := {
  (** exactly the project's tasks between the cursors *)
  ps_rows : forall key t, (key, t) ∈ page <->
    w_tasks d !! (pid, key) = Some t /\ wt_root t = root /\ (since < wt_rev t <= rev)%Z;
  (** in the order of their revisions *)
  ps_sorted : StronglySorted rev_lt page;
  (** nothing is left when no more is announced *)
  ps_all : more = false -> forall key t, w_tasks d !! (pid, key) = Some t -> wt_root t = root ->
    (since < wt_rev t)%Z -> (wt_rev t <= rev)%Z;
  (** the cursor never moves back, and moves when more is announced *)
  ps_progress : (since <= rev)%Z /\ (more = true -> (since < rev)%Z);
  (** the new cursor is the old one or a task's revision *)
  ps_last : rev = since \/ exists key t, (key, t) ∈ page /\ wt_rev t = rev
}.

Lemma pull_spec (d : wdb) (pid root : uuid) (since : Z) :
  board_ok d -> let '(page, rev, more) := pull d pid root since in page_spec d pid root since page rev more.
Proof.
  intros Hb. rewrite pull_page. cbv zeta. pose proof (since_rows_sorted d pid root since Hb) as Hs.
  set (rows := since_rows d pid root since) in *.
  assert (Hpos : 0 < maxSyncTasks) by (apply Nat.ltb_lt; vm_compute; reflexivity).
  revert Hpos. generalize maxSyncTasks as n. intros n Hpos.
  assert (Hin : forall key t, (key, t) ∈ rows <-> w_tasks d !! (pid, key) = Some t /\ wt_root t = root /\ (since < wt_rev t)%Z)
    by (intros; apply elem_of_since_rows).
  constructor.
  - intros key t. split.
    + intros Hp. assert (Hr : (key, t) ∈ rows) by by eapply subseteq_take.
      apply Hin in Hr as (Hl & Hr & Hsince). split_and!; try done.
      apply (page_rows since n rows (key, t)); done.
    + intros (Hl & Hr & Hsince & Hle). apply (page_rows since n rows (key, t) Hs); [done|]. split; [|done]. by apply Hin.
  - rewrite <- (take_drop n rows) in Hs. by apply strongly_sorted_app in Hs as [? _].
  - intros Hmore key t Hl Hr Hsince. apply Nat.ltb_ge in Hmore. rewrite take_ge by lia.
    apply (last_rev_max since rows (key, t) Hs). by apply Hin.
  - assert (Hlast : take n rows = [] \/ (since < last_rev since (take n rows))%Z).
    { destruct (take n rows) as [|z l] eqn:Ht using rev_ind; [by left|]. right. rewrite last_rev_snoc.
      assert (Hz : z ∈ rows) by (eapply subseteq_take; rewrite Ht; apply elem_of_app; right; by left).
      destruct z as [k t]. by apply Hin in Hz as (_ & _ & ?). }
    split.
    + destruct Hlast as [->|?]; [done|lia].
    + intros Hmore. apply Nat.ltb_lt in Hmore. destruct Hlast as [He|?]; [|done].
      apply (f_equal length) in He. rewrite length_take in He. simpl in He. lia.
  - destruct (take n rows) as [|[k t] l] using rev_ind; [by left|]. right. exists k, t. rewrite last_rev_snoc.
    split; [|done]. apply elem_of_app. right. by left.
Qed.

(** A project that fits in a page is returned whole. *)
Lemma pull_fits (d : wdb) (pid root : uuid) (since : Z) (page : list (string * task_row)) (rev : Z) (more : bool) :
  pull d pid root since = (page, rev, more) -> length (project_tasks d pid root) <= maxSyncTasks -> more = false.
Proof.
  rewrite pull_page. cbv zeta. intros [= _ _ <-] Hfit. apply Nat.ltb_ge. etrans; [|exact Hfit].
  unfold since_rows. rewrite (Permutation_length (merge_sort_Permutation _ _)).
  apply List.filter_length_le.
Qed.
