(* ===== verification/WorkChecks.v ===== *)
(** * Validation in Go against the CHECK constraints of the database

    The service validates before it writes; [mapErr] keeps the message
    [invalid field value] for a CHECK violation that validation missed.  Here
    that message is shown to be unreachable. *)

From S2P Require Import Prelude GoStrings GoTime GoJson AutoStore AutoService AutoEvents.
From S2P Require Import WorkFields WorkFieldsFacts WorkKeyFacts WorkBoard WorkSync WorkFacts WorkOps.
#[local] Open Scope go_scope.
#[local] Open Scope stmt_scope.

(** ** The constraints *)

Record row_in_range (key title description notes assignee lane status typ : string) (priority : Z)
    (labels blocked_by : list string) : Prop := {
  rr_key : keyRe key = true;
  rr_title : (1 <= RuneCountInString title <= 500)%Z;
  rr_description : (RuneCountInString description <= 20000)%Z;
  rr_notes : (RuneCountInString notes <= 200000)%Z;
  rr_assignee : (RuneCountInString assignee <= 200)%Z;
  rr_lane : validLanes lane = true;
  rr_status : validStatuses status = true;
  rr_priority : (0 <= priority <= 4)%Z;
  rr_type : validTypes typ = true;
  rr_labels : length labels <= 50;
  rr_blocked_by : length blocked_by <= 100
}.

Definition in_range_row (key : string) (t : task_row) : Prop :=
  row_in_range key (wt_title t) (wt_description t) (wt_notes t) (wt_assignee t) (wt_lane t) (wt_status t) (wt_type t)
    (wt_priority t) (wt_labels t) (wt_blocked_by t).

(** Every constraint but the one on the length of the notes. *)
Definition in_range_but_notes (key : string) (t : task_row) : Prop :=
  row_in_range key (wt_title t) (wt_description t) "" (wt_assignee t) (wt_lane t) (wt_status t) (wt_type t)
    (wt_priority t) (wt_labels t) (wt_blocked_by t).

Lemma task_checks_in_range (key : string) (t : task_row) : task_checks key t = None -> in_range_row key t.
Proof.
  unfold task_checks. cbv zeta. intros Hc.
  repeat match type of Hc with (if ?b then _ else _) = _ => destruct b eqn:?; [done|] end.
  repeat match goal with
         | Hx : negb _ = false |- _ => apply negb_false_iff in Hx
         | Hx : (_ || _) = false |- _ => apply orb_false_iff in Hx as [? ?]
         | Hx : (_ <? _)%Z = false |- _ => apply Z.ltb_ge in Hx
         | Hx : Nat.ltb _ _ = false |- _ => apply Nat.ltb_ge in Hx
         end.
  constructor; assumption || lia.
Qed.

Lemma task_checks_notes (key : string) (t : task_row) (c : string) :
  in_range_but_notes key t -> task_checks key t = Some c -> c = "work_task_notes_len_chk".
Proof.
  intros [Hk Ht Hd _ Ha Hl Hs Hp Hty Hlb Hbb]. unfold task_checks. cbv zeta.
  rewrite Hk, Hl, Hs, Hty. cbn [negb].
  rewrite (proj2 (Z.ltb_ge _ _)) by lia. rewrite (proj2 (Z.ltb_ge _ _)) by lia. cbn [orb].
  rewrite (proj2 (Z.ltb_ge _ _)) by lia. destruct (200000 <? _)%Z; [by intros [= <-]|].
  rewrite (proj2 (Z.ltb_ge _ _)) by lia. rewrite (proj2 (Z.ltb_ge _ _)) by lia. rewrite (proj2 (Z.ltb_ge _ _)) by lia.
  cbn [orb]. rewrite (proj2 (Nat.ltb_ge _ _)) by lia. rewrite (proj2 (Nat.ltb_ge _ _)) by lia. done.
Qed.

Lemma RuneCount_pos (s : string) : s <> "" -> (1 <= RuneCountInString s)%Z.
Proof. destruct s as [|c s]; [done|]. intros _. unfold RuneCountInString. simpl. lia. Qed.

Section Checks.
Context `{UnicodeTables, UUIDLib, Authz, EventLib, TimeParser}.

(** ** What validation guarantees *)

Record fields_in_range (f : TaskFields) : Prop := {
  fr_title : forall x, tf_Title f = Some x -> (1 <= RuneCountInString x <= 500)%Z;
  fr_description : forall x, tf_Description f = Some x -> (RuneCountInString x <= 20000)%Z;
  fr_lane : forall x, tf_Lane f = Some x -> validLanes x = true;
  fr_status : forall x, tf_Status f = Some x -> validStatuses x = true;
  fr_priority : forall x, tf_Priority f = Some x -> (0 <= x <= 4)%Z;
  fr_type : forall x, tf_Type f = Some x -> validTypes x = true;
  fr_assignee : forall x, tf_Assignee f = Some x -> (RuneCountInString x <= 200)%Z;
  fr_labels : forall x, tf_Labels f = Some x -> length x <= 50;
  fr_blocked_by : forall x, tf_BlockedBy f = Some x -> length x <= 100
}.

Lemma sent_sound {A : Type} (check : A -> result werror A) (R : A -> Prop) (o o' : option A) :
  (forall a b, check a = Ok b -> R b) -> sent o check = Ok o' -> forall x, o' = Some x -> R x.
Proof. intros Hc Hs x ->. apply sent_ok in Hs. destruct o as [a|]; [by eapply Hc|done]. Qed.

Lemma normalizeFields_in_range (f0 f : TaskFields) : normalizeFields f0 = Ok f -> fields_in_range f.
Proof.
  intros Hf. apply normalizeFields_inv in Hf as (N1 & N2 & N3 & N4 & N5 & N6 & N7 & N8 & N9).
  constructor; (eapply sent_sound; [|eassumption]); intros a b.
  - unfold norm_title. cbv zeta. destruct (_ || _) eqn:Hc; [done|]. intros [= <-].
    apply orb_false_iff in Hc as [Hne Hlen]. apply String.eqb_neq in Hne. apply Z.ltb_ge in Hlen.
    unfold maxTitleLen in Hlen. pose proof (RuneCount_pos _ Hne). lia.
  - unfold norm_description. destruct (Z.ltb_spec maxDescriptionLen (RuneCountInString a)) as [|Hc]; [done|].
    intros [= <-]. done.
  - unfold norm_lane. destruct (validLanes a) eqn:Hc; [|done]. by intros [= <-].
  - unfold norm_status. destruct (validStatuses a) eqn:Hc; [|done]. by intros [= <-].
  - unfold norm_priority. destruct (_ || _) eqn:Hc; [done|]. intros [= <-].
    apply orb_false_iff in Hc as [G1 G2]. apply Z.ltb_ge in G1, G2. lia.
  - unfold norm_type. destruct (validTypes a) eqn:Hc; [|done]. by intros [= <-].
  - unfold norm_assignee. cbv zeta. destruct (Z.ltb_spec maxAssigneeLen (RuneCountInString (TrimSpace a))) as [|Hc]; [done|].
    intros [= <-]. done.
  - unfold norm_labels. cbv zeta.
    destruct (Z.ltb_spec maxLabels (Z.of_nat (length (dedupe a TrimSpace)))) as [|Hc]; [done|].
    destruct (existsb _ _); [done|]. intros [= <-]. unfold maxLabels in Hc. lia.
  - unfold norm_blocked_by. cbv zeta.
    destruct (Z.ltb_spec maxBlockedBy (Z.of_nat (length (dedupe a norm_key)))) as [|Hc]; [done|].
    destruct (negb _); [done|]. intros [= <-]. unfold maxBlockedBy in Hc. lia.
Qed.

(** The values of a create operation satisfy the constraints. *)
Definition values_in_range (v : taskValues) : Prop :=
  forall key, keyRe key = true ->
    row_in_range key (tv_title v) (tv_description v) "" (tv_assignee v) (tv_lane v) (tv_status v) (tv_typ v)
      (tv_priority v) (tv_labels v) (tv_blockedBy v).

Lemma default_sound {A : Type} (R : A -> Prop) (d : A) (o : option A) :
  R d -> (forall x, o = Some x -> R x) -> R (default d o).
Proof. intros Hd Ho. destruct o as [x|]; [by apply Ho|done]. Qed.

Lemma createValues_in_range (f0 f : TaskFields) (v : taskValues) :
  normalizeFields f0 = Ok f -> createValues f = Ok v -> values_in_range v.
Proof.
  intros Hf Hv key Hkey. apply normalizeFields_in_range in Hf as [Ht Hd Hl Hs Hp Hty Ha Hlb Hbb].
  unfold createValues in Hv. destruct (tf_Title f) as [title|]; [|done]. injection Hv as <-.
  constructor; cbn; try done; try (by apply Ht).
  - apply (default_sound (fun x => (RuneCountInString x <= 20000)%Z)); done.
  - apply (default_sound (fun x => (RuneCountInString x <= 200)%Z)); done.
  - apply (default_sound (fun x => validLanes x = true)); done.
  - apply (default_sound (fun x => validStatuses x = true)); done.
  - apply (default_sound (fun x => (0 <= x <= 4)%Z)); [lia|done].
  - apply (default_sound (fun x => validTypes x = true)); done.
  - apply (default_sound (fun x => length x <= 50)); [simpl; lia|done].
  - apply (default_sound (fun x => length x <= 100)); [simpl; lia|done].
Qed.

Lemma patched_in_range (key : string) (f0 f : TaskFields) (note : option string) (rev : Z) (now : time) (t : task_row) :
  normalizeFields f0 = Ok f -> task_checks key t = None -> in_range_but_notes key (patched f note rev now t).
Proof.
  intros Hf Ht. apply task_checks_in_range in Ht as [Hk Htt Htd _ Hta Htl Hts Htp Htty Htlb Htbb].
  apply normalizeFields_in_range in Hf as [Ft Fd Fl Fs Fp Fty Fa Flb Fbb].
  constructor; cbn; try done.
  - by apply (default_sound (fun x => (1 <= RuneCountInString x <= 500)%Z)).
  - by apply (default_sound (fun x => (RuneCountInString x <= 20000)%Z)).
  - by apply (default_sound (fun x => (RuneCountInString x <= 200)%Z)).
  - by apply (default_sound (fun x => validLanes x = true)).
  - by apply (default_sound (fun x => validStatuses x = true)).
  - by apply (default_sound (fun x => (0 <= x <= 4)%Z)).
  - by apply (default_sound (fun x => validTypes x = true)).
  - by apply (default_sound (fun x => length x <= 50)).
  - by apply (default_sound (fun x => length x <= 100)).
Qed.

Lemma no_fields_normal : normalizeFields no_fields = Ok no_fields.
Proof. reflexivity. Qed.

(** ** Statements whose errors validation foresaw *)

Definition check_message : string := "invalid field value".
Definition foreseen (e : werror) : Prop := cause (mapErr e) <> validationError check_message.

Definition foresees {A : Type} (m : stmt A) (d : wdb) : Prop :=
  match snd (m d) with Ok _ => True | Err e => foreseen e end.

Lemma foresees_bind {A B : Type} (P : wdb -> Prop) (Q : A -> wdb -> Prop) (m : stmt A) (k : A -> stmt B) (d : wdb) :
  keeps (fun _ => True) P m Q -> board_ok d -> P d -> foresees m d ->
  (forall a d', board_ok d' -> Q a d' -> foresees (k a) d') -> foresees (s_bind m k) d.
Proof.
  intros Hk Hb HP Hm Hc. destruct (Hk d HP) as [Hh HQ]. unfold foresees, s_bind in *.
  destruct (m d) as [d' [a|e]]; simpl in *; [|done]. apply Hc; [by apply Hh|done].
Qed.

Lemma foresees_ok {A : Type} (m : stmt A) (d : wdb) : (exists a, snd (m d) = Ok a) -> foresees m d.
Proof. intros [a Ha]. unfold foresees. by rewrite Ha. Qed.

Lemma foresees_insert (pid : uuid) (proj : project_row) (key : string) (v : taskValues) (creator : uuid) (now : time)
    (d : wdb) :
  values_in_range v -> keyRe key = true -> foresees (insertTask pid proj key v creator now) d.
Proof.
  intros Hv Hk. unfold foresees, insertTask, InsertWorkTask, foreseen. cbv zeta.
  destruct (_ || _); [done|]. destruct (negb _); [done|].
  destruct (task_checks _ _) as [c|] eqn:Hc; [|by destruct (w_tasks d !! _)].
  assert (He : c = "work_task_notes_len_chk") by (eapply task_checks_notes; [|exact Hc]; exact (Hv key Hk)).
  subst c. done.
Qed.

Lemma foresees_patch (pid : uuid) (proj : project_row) (key : string) (f0 f : TaskFields) (note : option string)
    (now : time) (d : wdb) :
  board_ok d -> normalizeFields f0 = Ok f -> foresees (patchTask pid proj key f note now) d.
Proof.
  intros Hb Hf. unfold foresees, patchTask. destruct (_ && _); [done|]. unfold UpdateWorkTask, foreseen. cbv zeta.
  destruct (_ || _); [done|]. destruct (w_tasks d !! (pid, key)) as [t|] eqn:Ht; [|done].
  destruct (negb _); [done|]. destruct (negb _); [done|].
  destruct (task_checks _ _) as [c|] eqn:Hc; [|done].
  assert (He : c = "work_task_notes_len_chk").
  { eapply task_checks_notes; [|exact Hc]. eapply patched_in_range; [exact Hf|].
    by apply (to_checks _ _ _ _ (bo_tasks _ Hb pid key t Ht)). }
  subst c. done.
Qed.

Lemma foresees_run {A : Type} (m : stmt A) (d : wdb) (e : werror) :
  foresees m d -> snd (run_work m d) = Err e -> e <> validationError check_message.
Proof.
  unfold foresees, run_work, foreseen. destruct (m d) as [d' [a|e']]; simpl; [done|]. intros Hf [= <-] He. apply Hf. by rewrite He.
Qed.

Lemma foresees_load (principal business : uuid) (ref : string) (d : wdb) : foresees (loadProject principal business ref) d.
Proof.
  unfold foresees, loadProject, s_bind, resolveTenantRoot, foreseen.
  destruct (w_businesses d !! business) as [b|]; [|done]. destruct (_ && _); [|done].
  destruct (uuid_Parse ref) as [id|].
  - unfold GetWorkProject. destruct (w_projects d !! id); [|done]. by destruct (_ && _).
  - destruct (negb _); [done|]. unfold GetWorkProjectBySlug. by destruct (List.find _ _).
Qed.

Lemma foresees_savepoint {A : Type} (m : stmt A) (d : wdb) : foresees m d -> foresees (savepoint m) d.
Proof. unfold foresees, savepoint. by destruct (m d) as [d' [a|e]]. Qed.

(** The generator draws six values below 36. *)
Definition good_draws (draws : nat -> option (list N)) : Prop :=
  forall n ns, draws n = Some ns -> length ns = keySuffixLen /\ Forall (fun n => (n < 36)%N) ns.

Lemma foresees_attempts (left attempt : nat) (draws : nat -> option (list N)) (pid : uuid) (proj : project_row)
    (v : taskValues) (principal : uuid) (now : time) (d : wdb) :
  values_in_range v -> good_draws draws -> has_project (pid, proj) d -> board_ok d ->
  foresees (insert_attempts left attempt draws pid proj v principal now) d.
Proof.
  intros Hv Hd. revert attempt d. induction left as [|left IH]; intros attempt d Hp Hb; [done|].
  cbn [insert_attempts]. destruct (draws attempt) as [ns|] eqn:Hn; [|done].
  destruct (Hd attempt ns Hn) as [Hlen Hns]. unfold newTaskKey. rewrite take_ge by lia.
  set (key := wp_prefix proj +:+ "-" +:+ of_bytes (map base36 ns)).
  assert (Hkey : keyRe key = true).
  { assert (Hvk : validKey key (wp_prefix proj) = true).
    { apply make_key_valid; [by eapply (bo_prefixes d Hb)|by apply key_suffix_alnum|].
      rewrite length_map, Hlen. unfold keySuffixLen. lia. }
    unfold validKey in Hvk. by apply andb_true_iff in Hvk as [? _]. }
  pose proof (foresees_savepoint _ d (foresees_insert pid proj key v principal now d Hv Hkey)) as Hf.
  destruct (keeps_savepoint (fun _ => True) _ _ _ (keeps_insert (fun _ => True) pid proj key v principal now I) d Hp) as [Hh _].
  unfold foresees, insertTaskSavepoint in *. destruct (savepoint _ d) as [d' [row|e]]; [done|]. simpl in Hf, Hh.
  destruct (_ || _); [done|]. apply IH; [by eapply (has_project_stable (fun _ => True))|by apply Hh].
Qed.

(** ** Errors of decoding and validation *)

Definition foreseen_result {A : Type} (r : result werror A) : Prop :=
  match r with Ok _ => True | Err e => foreseen e end.

(** Closes a cascade of checks whose messages are literals. *)
Ltac foresee :=
  match goal with
  | |- foreseen_result (if ?b then _ else _) => destruct b; foresee
  | |- foreseen_result (errValidation _) => unfold foreseen_result, errValidation, foreseen; cbn; discriminate
  | |- foreseen_result (Ok _) => exact I
  end.

Lemma foreseen_bind {A B : Type} (m : result werror A) (k : A -> result werror B) :
  foreseen_result m -> (forall a, foreseen_result (k a)) -> foreseen_result (result_bind m k).
Proof. destruct m; simpl; auto. Qed.

Lemma foreseen_sent {A B : Type} (o : option A) (check : A -> result werror B) :
  (forall a, foreseen_result (check a)) -> foreseen_result (sent o check).
Proof. intros Hc. destruct o as [a|]; [|done]. simpl. specialize (Hc a). by destruct (check a). Qed.

Lemma foreseen_normalizeFields (f : TaskFields) : foreseen_result (normalizeFields f).
Proof.
  unfold normalizeFields.
  repeat (apply foreseen_bind; [apply foreseen_sent; intros sent_value;
    unfold norm_title, norm_description, norm_lane, norm_status, norm_priority, norm_type, norm_assignee, norm_labels,
      norm_blocked_by; cbv zeta;
    foresee | intros ?]). done.
Qed.

Lemma unknown_field_message (k : string) : "unknown field " +:+ k <> check_message.
Proof. intros He. apply (f_equal bytes) in He. rewrite bytes_app in He. discriminate. Qed.

Lemma foreseen_decode_strict (fs : list (field createFields)) (ms : list (string * json)) (saved : option string)
    (c : createFields) :
  (forall m, saved = Some m -> m <> check_message) -> foreseen_result (decode_strict fs ms saved c).
Proof.
  assert (Hkeep : forall (s : option string) m', (forall m, s = Some m -> m <> check_message) -> m' <> check_message ->
            forall m, Some (default m' s) = Some m -> m <> check_message).
  { intros s m' Hs Hm' m [= <-]. destruct s as [x|]; [by apply Hs|done]. }
  revert saved c. induction ms as [|[k v] ms IH]; intros saved c Hs; simpl.
  - destruct saved as [m|]; [|done]. unfold errValidation. simpl. unfold foreseen. simpl. intros [= He]. by apply (Hs m).
  - destruct (find_field fs k) as [fl|].
    + destruct (field_set fl v c) as [c'|]; [by apply IH|].
      destruct (is_time_field _); [done|]. apply IH, Hkeep; [done|]. discriminate.
    + apply IH, Hkeep; [done|]. apply unknown_field_message.
Qed.

Lemma foreseen_decodeStrict (fs : list (field createFields)) (r : raw) : foreseen_result (decodeStrict fs r).
Proof. destruct r as [[]|]; simpl; try done. by apply foreseen_decode_strict. Qed.

Lemma foreseen_create_values (fields : raw) (clock : time) : foreseen_result (create_values fields clock).
Proof.
  unfold create_values. apply foreseen_bind; [apply foreseen_decodeStrict|]. intros cf.
  apply foreseen_bind; [apply foreseen_normalizeFields|]. intros f.
  apply foreseen_bind; [unfold createValues; by destruct (tf_Title f)|]. intros v.
  apply foreseen_bind; [|done]. unfold importTimes. cbv zeta. foresee.
Qed.

Lemma foreseen_update_fields (fields : raw) : foreseen_result (update_fields fields).
Proof.
  unfold update_fields, decodeFields. apply foreseen_bind; [|apply foreseen_normalizeFields].
  apply foreseen_bind; [apply foreseen_decodeStrict|done].
Qed.

Lemma foreseen_formatNote (now : time) (author fallback via text : string) :
  foreseen_result (formatNote now author fallback via text).
Proof. unfold formatNote. cbv zeta. foresee. Qed.

Lemma foresees_lift {A : Type} (r : result werror A) (d : wdb) : foreseen_result r -> foresees (s_lift r) d.
Proof. by destruct r. Qed.

Lemma foresees_then_ret {A B : Type} (m : stmt A) (b : B) (d : wdb) :
  foresees m d -> foresees (let! _ := m in s_ret b) d.
Proof. unfold foresees, s_bind. by destruct (m d) as [d' [a|e]]. Qed.

Lemma foresees_lift_bind {A B : Type} (r : result werror A) (k : A -> stmt B) (d : wdb) :
  foreseen_result r -> (forall a, r = Ok a -> foresees (k a) d) -> foresees (s_bind (s_lift r) k) d.
Proof. intros Hr Hk. destruct r as [a|e]; [by apply Hk|done]. Qed.

Lemma create_values_in_range (fields : raw) (clock : time) (v : taskValues) :
  create_values fields clock = Ok v -> values_in_range v.
Proof.
  unfold create_values. intros Hv. apply bind_split in Hv as (cf & _ & Hv). apply bind_split in Hv as (f & Hf & Hv).
  apply bind_split in Hv as (v0 & Hv0 & Hv). apply bind_split in Hv as (times & _ & Hv). injection Hv as <-.
  exact (createValues_in_range _ _ _ Hf Hv0).
Qed.

Lemma foresees_runOp (pid : uuid) (proj : project_row) (issuer : uuid) (op : SyncOp) (clock now : time) (d : wdb) :
  board_ok d -> foresees (runOp pid proj issuer op clock now) d.
Proof.
  intros Hb. unfold runOp. destruct (String.eqb _ _); [|destruct (String.eqb _ _); [|destruct (String.eqb _ _); [|done]]].
  - destruct (validKey (so_Key op) (wp_prefix proj)) eqn:Hk; cbn [negb].
    + apply foresees_lift_bind; [apply foreseen_create_values|]. intros v Hv. apply foresees_then_ret, foresees_insert.
      * by eapply create_values_in_range.
      * unfold validKey in Hk. by apply andb_true_iff in Hk as [? _].
    + unfold foresees, foreseen. cbn. discriminate.
  - destruct (negb _); [done|]. apply foresees_lift_bind; [apply foreseen_update_fields|]. intros f Hf.
    apply foresees_then_ret. unfold update_fields in Hf. apply bind_split in Hf as (f0 & _ & Hf). by eapply foresees_patch.
  - destruct (negb _); [done|]. apply foresees_lift_bind; [apply foreseen_formatNote|]. intros e _.
    apply foresees_then_ret. by eapply foresees_patch; [|apply no_fields_normal].
Qed.
End Checks.
