(* ===== verification/WorkTheorems.v ===== *)
(** * Correctness of the work board: invariant, sync, validation, tokens *)

From S2P Require Import Prelude GoStrings GoBase64 GoTime GoJson AutoGraph Concrete AutoStore AutoService AutoEvents AutoDemo.
From S2P Require Import WorkFields WorkFieldsFacts WorkKeyFacts WorkBoard WorkSync WorkFacts WorkOps WorkSafety.
From S2P Require Import WorkPull WorkChecks.
From stdpp Require Import sorting.
#[local] Open Scope go_scope.
#[local] Open Scope stmt_scope.

Section Theorems.
Context `{UnicodeTables, UUIDLib, Authz, EventLib, TimeParser}.

(** The tables after a sequence of requests, each with the database's time. *)
Definition serve_all (rs : list (request * time)) (d : wdb) : wdb :=
  fold_left (fun d x => serve (fst x) (snd x) d) rs d.

Lemma serve_all_history (rs : list (request * time)) (d : wdb) : history everywhere d (serve_all rs d).
Proof.
  revert d. induction rs as [|[r now] rs IH]; intros d; simpl; [apply history_refl|].
  eapply history_trans; [apply serve_history|apply IH].
Qed.

(** ** The parts of a sync *)

Lemma bind_run {A B : Type} (m : stmt A) (k : A -> stmt B) (d d' : wdb) (b : B) :
  s_bind m k d = (d', Ok b) -> exists d1 a, m d = (d1, Ok a) /\ k a d1 = (d', Ok b).
Proof. unfold s_bind. destruct (m d) as [d1 [a|e]]; [eauto|done]. Qed.

Lemma run_ok {A : Type} (m : stmt A) (d d' : wdb) (a : A) : run_work m d = (d', Ok a) -> m d = (d', Ok a).
Proof. unfold run_work. by destruct (m d) as [d1 [b|e]]. Qed.

Lemma run_err {A : Type} (m : stmt A) (d d' : wdb) (e : werror) :
  run_work m d = (d', Err e) -> d' = set_seq (w_seq d') d.
Proof. unfold run_work. destruct (m d) as [d1 [b|e1]]; [done|]. by intros [= <- _]. Qed.

Record sync_parts (a : TokenAuth) (req : SyncRequest) (clock now : time) (d d' : wdb) (resp : SyncResponse) : Prop := {
  sx_issuer : exists acc, w_accounts d !! ta_PrincipalID a = Some acc /\ ac_status acc = "active" /\
                          has_permission (ta_PrincipalID a) (ta_BusinessID a) "work.write" = true /\
                          authorized (ta_PrincipalID a) (ta_BusinessID a) = true;
  sx_results : exists proj d1,
    w_projects d !! ta_ProjectID a = Some proj /\ wp_root proj = ta_TenantRootID a /\
    wp_business proj = ta_BusinessID a /\
    applyOps (ta_ProjectID a) proj (ta_PrincipalID a) (sr_Ops req) clock now d = (d1, Ok (sy_Results resp)) /\
    w_tasks d' = w_tasks d1;
  sx_page : exists page, pull d' (ta_ProjectID a) (ta_TenantRootID a) (sr_Since req) = (page, sy_Rev resp, sy_More resp) /\
                         sy_Tasks resp = map (fun x => toTask (fst x) (snd x)) page
}.

Lemma Sync_parts (a : TokenAuth) (req : SyncRequest) (clock now : time) (d d' : wdb) (resp : SyncResponse) :
  Sync a req clock now d = (d', Ok resp) -> sync_parts a req clock now d d' resp.
Proof.
  unfold Sync. destruct (Z.ltb _ _); [done|]. destruct (Z.ltb _ _); [done|]. intros Hs. apply run_ok in Hs.
  apply bind_run in Hs as (d1 & [] & Hi & Hs). apply bind_run in Hs as (d2 & [id proj] & Hl & Hs).
  apply bind_run in Hs as (d3 & results & Ha & Hs). apply bind_run in Hs as (d4 & [] & Hau & Hs).
  unfold requireIssuer in Hi. destruct (w_accounts d !! ta_PrincipalID a) as [acc|] eqn:Hacc; [|done].
  destruct (String.eqb_spec (ac_status acc) "active") as [Hst|]; [|done]. cbn [negb] in Hi.
  destruct (has_permission _ _ _) eqn:Hperm; [|done]. injection Hi as <-.
  unfold lock_as_issuer in Hl. destruct (authorized _ _) eqn:Hauth; [|done].
  unfold GetWorkProject in Hl. destruct (w_projects d !! ta_ProjectID a) as [p|] eqn:Hp; [|done].
  destruct (N.eqb_spec (wp_business p) (ta_BusinessID a)) as [Hbus|]; [|done].
  destruct (N.eqb_spec (wp_root p) (ta_TenantRootID a)) as [Hroot|]; [|done]. injection Hl as <- <- <-.
  unfold s_read in Hs. destruct (pull d4 (ta_ProjectID a) (wp_root p) (sr_Since req)) as [[page rev] more] eqn:Hpull.
  injection Hs as <- <-. constructor.
  - by exists acc.
  - exists p, d3. split_and!; try done. simpl. destruct (Nat.eqb _ _); by injection Hau as <-.
  - exists page. simpl. by rewrite <- Hroot.
Qed.

Lemma applyOp_key (pid : uuid) (proj : project_row) (issuer : uuid) (op : SyncOp) (clock now : time) (d d' : wdb)
    (res : OpResult) :
  applyOp pid proj issuer op clock now d = (d', Ok res) -> or_Key res = so_Key op.
Proof.
  unfold applyOp. destruct (savepoint _ d) as [d1 [[]|e]]; [by intros [= _ <-]|].
  destruct (opErrorMessage e); [by intros [= _ <-]|done].
Qed.

Lemma applyOps_keys (pid : uuid) (proj : project_row) (issuer : uuid) (ops : list SyncOp) (clock now : time)
    (d d' : wdb) (rs : list OpResult) :
  applyOps pid proj issuer ops clock now d = (d', Ok rs) -> Forall2 (fun op r => or_Key r = so_Key op) ops rs.
Proof.
  revert d rs. induction ops as [|op ops IH]; intros d rs; simpl; [by intros [= _ <-]|].
  intros Ha. apply bind_run in Ha as (d1 & r & Hr & Ha). apply bind_run in Ha as (d2 & rs' & Hrs & Ha).
  injection Ha as <- <-. constructor; [by eapply applyOp_key|by eapply IH].
Qed.

(** ** Errors that validation foresaw *)

Lemma CreateTask_foreseen (principal business : uuid) (ref : string) (f : TaskFields) (draws : nat -> option (list N))
    (now : time) (d : wdb) (e : werror) :
  board_ok d -> good_draws draws ->
  snd (CreateTask principal business ref f draws now d) = Err e -> e <> validationError check_message.
Proof.
  intros Hb Hd. unfold CreateTask. destruct (result_bind _ _) as [v|e'] eqn:Hv.
  - apply foresees_run. apply bind_split in Hv as (f' & Hf & Hv).
    eapply foresees_bind; [apply keeps_load|done|done|apply foresees_load|]. intros [id p] d1 Hb1 Hp.
    eapply foresees_bind; [by apply keeps_attempts|done|exact Hp| |].
    + apply foresees_attempts; [by eapply createValues_in_range|done|done|done].
    + intros [key row] d2 _ _. by apply foresees_then_ret.
  - simpl. intros [= <-] He. subst e'.
    assert (Hfr : foreseen_result (let? f := normalizeFields f in createValues f)%go).
    { apply foreseen_bind; [apply foreseen_normalizeFields|]. intros a. unfold createValues. by destruct (tf_Title a). }
    rewrite Hv in Hfr. by apply Hfr.
Qed.

Definition note_entry (note : option string) (principal : uuid) (clock : time) : stmt (option string) :=
  match note with
  | None => s_ret None
  | Some text =>
      let! author := operatorName principal in
      let! e := s_lift (formatNote clock author "operator" "" text) in
      s_ret (Some e)
  end.

Lemma keeps_note_entry (P : wdb -> Prop) (note : option string) (principal : uuid) (clock : time) :
  keeps everywhere P (note_entry note principal clock) no_matter.
Proof.
  destruct note as [text|]; [|apply keeps_ret]. apply (keeps_bind _ _ _ _ no_matter).
  - apply keeps_read; [|done]. intros d2 _. unfold operatorName. by destruct (w_accounts d2 !! principal).
  - intros author. eapply keeps_bind; [apply keeps_lift|]. intros x. apply keeps_ret.
Qed.

Lemma note_entry_foreseen (note : option string) (principal : uuid) (clock : time) (d : wdb) :
  foresees (note_entry note principal clock) d.
Proof.
  destruct note as [text|]; [|done]. unfold foresees, note_entry, s_bind, operatorName.
  destruct (w_accounts d !! principal) as [acc|]; simpl;
    match goal with |- context [formatNote ?a ?b ?c ?v ?x] =>
      pose proof (foreseen_formatNote a b c v x); destruct (formatNote a b c v x); done end.
Qed.

Lemma UpdateTask_foreseen (principal business : uuid) (ref key : string) (f : TaskFields) (note : option string)
    (clock now : time) (d : wdb) (e : werror) :
  board_ok d -> snd (UpdateTask principal business ref key f note clock now d) = Err e ->
  e <> validationError check_message.
Proof.
  intros Hb. unfold UpdateTask. destruct (normalizeFields f) as [f'|e'] eqn:Hf.
  - destruct (_ && _); [simpl; by intros [= <-]|]. apply foresees_run.
    eapply foresees_bind; [apply keeps_load|done|done|apply foresees_load|]. intros [id p] d1 Hb1 Hp.
    eapply (foresees_bind (fun _ => True) no_matter);
      [apply (keeps_note_entry _ note principal clock)|done|done|apply note_entry_foreseen|].
    intros entry d2 Hb2 _. eapply (foresees_bind (fun _ => True) no_matter);
      [by apply keeps_patch|done|done|by eapply foresees_patch|]. intros row d3 _ _. by apply foresees_then_ret.
  - simpl. intros [= <-] He. subst e'. pose proof (foreseen_normalizeFields f) as Hfr. rewrite Hf in Hfr. by apply Hfr.
Qed.

Lemma applyOp_foreseen (pid : uuid) (proj : project_row) (issuer : uuid) (op : SyncOp) (clock now : time) (d : wdb)
    (res : OpResult) :
  board_ok d -> snd (applyOp pid proj issuer op clock now d) = Ok res -> or_Error res <> check_message.
Proof.
  intros Hb. unfold applyOp.
  pose proof (foresees_savepoint _ d (foresees_runOp pid proj issuer op clock now d Hb)) as Hf. unfold foresees in Hf.
  destruct (savepoint _ d) as [d' [[]|e]]; simpl in *; [by intros [= <-]|].
  unfold opErrorMessage. unfold foreseen in Hf. destruct (cause (mapErr e)) eqn:Hc; simpl; try done.
  all: intros [= <-]; simpl; try done. intros ->. by apply Hf.
Qed.

(** ** Tokens *)

(** Whether a row is what [work_resolve_token] looks for. *)
Definition token_matches (d : wdb) (hash : string) (x : uuid * token_row) : bool :=
  String.eqb (wk_hash (snd x)) hash && bool_decide (wk_revoked (snd x) = None) &&
  match w_projects d !! wk_project (snd x) with Some p => N.eqb (wp_root p) (wk_root (snd x)) | None => false end.

Lemma find_live_token (d : wdb) (id : uuid) (k : token_row) :
  board_ok d -> w_tokens d !! id = Some k -> wk_revoked k = None ->
  List.find (token_matches d (wk_hash k)) (map_to_list (w_tokens d)) = Some (id, k).
Proof.
  intros Hb Hk Hr. destruct (List.find _ _) as [[j l]|] eqn:Hf.
  - apply find_token in Hf as [Hl Hm]. simpl in Hl. unfold token_matches in Hm. simpl in Hm. to_prop.
    assert (j = id) as ->; [|congruence]. eapply (bo_hashes d Hb); [done|done|]. by apply String.eqb_eq.
  - exfalso. apply (List.find_none _ _) with (x := (id, k)) in Hf; [|by apply list_elem_of_In, elem_of_map_to_list].
    unfold token_matches in Hf. simpl in Hf. destruct (bo_tokens d Hb id k Hk) as (p & Hp & Hroot & _).
    by rewrite String.eqb_refl, Hr, Hp, Hroot, N.eqb_refl in Hf.
Qed.

Lemma no_revoked_token (d : wdb) (id : uuid) (k : token_row) :
  board_ok d -> w_tokens d !! id = Some k -> is_Some (wk_revoked k) ->
  List.find (token_matches d (wk_hash k)) (map_to_list (w_tokens d)) = None.
Proof.
  intros Hb Hk [t Ht]. destruct (List.find _ _) as [[j l]|] eqn:Hf; [|done].
  apply find_token in Hf as [Hl Hm]. simpl in Hl. unfold token_matches in Hm. simpl in Hm. to_prop.
  assert (j = id) as -> by (eapply (bo_hashes d Hb); [done|done|]; by apply String.eqb_eq). congruence.
Qed.

Lemma base64_digit_ok (n : N) :
  (n < 64)%N ->
  (fun c => alnum c || is_upper c || Ascii.eqb c "_" || Ascii.eqb c "-") (b64_digit 45 95 n) = true.
Proof.
  intros Hn.
  assert (Hall : forallb (fun k => (fun c => alnum c || is_upper c || Ascii.eqb c "_" || Ascii.eqb c "-")
                                     (b64_digit 45 95 (N.of_nat k))) (seq 0 64) = true) by (vm_compute; reflexivity).
  rewrite forallb_forall in Hall. specialize (Hall (N.to_nat n)). rewrite N2Nat.id in Hall. apply Hall, in_seq. lia.
Qed.

Lemma base64url_bytes (n : nat) (l : list ascii) :
  length l <= n ->
  forallb (fun c => alnum c || is_upper c || Ascii.eqb c "_" || Ascii.eqb c "-") (base64url l) = true.
Proof.
  assert (Hb : forall c, (N_of_ascii c < 256)%N) by apply N_ascii_bounded.
  assert (Hdiv : forall x m, (x / m * m <= x)%N) by (intros; rewrite N.mul_comm; apply N.Div0.mul_div_le).
  assert (Hq : forall c m k, (256 <= m * k)%N -> (0 < m)%N -> (N_of_ascii c / m < k)%N).
  { intros c m k Hm Hp. apply N.Div0.div_lt_upper_bound. specialize (Hb c). lia. }
  assert (Hr : forall x m, (0 < m)%N -> (x mod m < m)%N) by (intros; apply N.mod_lt; lia).
  unfold base64url. revert l. induction n as [|n IH]; intros l Hl; [by destruct l; simpl in Hl; [|lia]|].
  destruct l as [|a [|b [|c l]]]; [done|..]; cbn [b64_encode forallb length] in *.
  - pose proof (Hq a 4%N 64%N). pose proof (Hr (N_of_ascii a) 4%N). rewrite !base64_digit_ok by lia. done.
  - pose proof (Hq a 4%N 64%N). pose proof (Hr (N_of_ascii a) 4%N). pose proof (Hq b 16%N 16%N).
    pose proof (Hr (N_of_ascii b) 16%N). rewrite !base64_digit_ok by lia. done.
  - pose proof (Hq a 4%N 64%N). pose proof (Hr (N_of_ascii a) 4%N). pose proof (Hq b 16%N 16%N).
    pose proof (Hr (N_of_ascii b) 16%N). pose proof (Hq c 64%N 4%N). pose proof (Hr (N_of_ascii c) 64%N).
    rewrite !base64_digit_ok by lia. simpl. apply IH. lia.
Qed.

Lemma newWorkToken_shape (entropy : list ascii) (plaintext : string) :
  length entropy = 32 -> newWorkToken (Some entropy) = Ok plaintext -> tokenRe plaintext = true.
Proof.
  intros Hlen. unfold newWorkToken, NewOpaqueToken. intros [= <-]. unfold tokenRe.
  assert (Hl : String.length ("mfw_" +:+ of_bytes (base64url entropy)) = 47).
  { rewrite <- length_bytes, bytes_app, bytes_of_bytes. do 32 (destruct entropy as [|? entropy]; [done|]).
    destruct entropy; [reflexivity|]. simpl in Hlen. lia. }
  rewrite Hl, bytes_app, bytes_of_bytes. rewrite (proj2 (HasPrefix_spec _ _)) by (eexists; reflexivity).
  change (drop 4 (bytes "mfw_" ++ base64url entropy)) with (base64url entropy).
  rewrite (base64url_bytes (length entropy)) by done. reflexivity.
Qed.

(** ** Claims *)

(** C27: the board's invariant and its history.  However requests are
    interleaved (projects, tasks, tokens, syncs, changes of accounts and
    maintenance by other subsystems), the tables keep satisfying their invariant;
    no task disappears, a task keeps its identity and every note ever written to
    it, whatever changed carries a revision above all the earlier ones, and a
    token stays revoked. *)
Theorem board_invariant (rs : list (request * time)) (d : wdb) :
  board_ok d -> board_ok (serve_all rs d) /\ history everywhere d (serve_all rs d).
Proof. intros Hd. pose proof (serve_all_history rs d) as Hh. split; [by apply Hh|done]. Qed.

(** C28: a sync returns what changed.  The tasks of the answer are exactly the
    project's tasks whose revision lies above the client's cursor and up to the
    new one, in the order of their revisions; without [more] nothing of the
    project lies beyond the new cursor; and the cursor never moves back, and moves
    forward when [more] is announced. *)
Theorem Sync_pull_complete (a : TokenAuth) (req : SyncRequest) (clock now : time) (d d' : wdb) (resp : SyncResponse) :
  board_ok d -> Sync a req clock now d = (d', Ok resp) ->
  exists page, sy_Tasks resp = map (fun x => toTask (fst x) (snd x)) page /\
    page_spec d' (ta_ProjectID a) (ta_TenantRootID a) (sr_Since req) page (sy_Rev resp) (sy_More resp).
Proof.
  intros Hd Hs. pose proof (Sync_history everywhere a req clock now d I) as Hh. rewrite Hs in Hh. simpl in Hh.
  apply Sync_parts in Hs as [_ _ (page & Hp & Ht)]. exists page. split; [done|].
  pose proof (pull_spec d' (ta_ProjectID a) (ta_TenantRootID a) (sr_Since req) (hi_ok _ _ _ Hh Hd)) as Hspec.
  by rewrite Hp in Hspec.
Qed.

(** C29: a sync stays inside its project and is all or nothing.  Whatever the
    operations, only tasks of the token's project change; an error leaves every
    table as it was; a success means that the issuer is an active account that
    still holds [work.write], and answers every operation in order. *)
Theorem Sync_isolated (a : TokenAuth) (req : SyncRequest) (clock now : time) (d : wdb) :
  let '(d', r) := Sync a req clock now d in
  history (eq (ta_ProjectID a)) d d' /\
  match r with
  | Err _ => d' = set_seq (w_seq d') d
  | Ok resp =>
      Forall2 (fun op res => or_Key res = so_Key op) (sr_Ops req) (sy_Results resp) /\
      has_permission (ta_PrincipalID a) (ta_BusinessID a) "work.write" = true /\
      exists acc, w_accounts d !! ta_PrincipalID a = Some acc /\ ac_status acc = "active"
  end.
Proof.
  pose proof (Sync_history (eq (ta_ProjectID a)) a req clock now d eq_refl) as Hh.
  destruct (Sync a req clock now d) as [d' [resp|e]] eqn:Hs; (split; [exact Hh|]).
  - apply Sync_parts in Hs as [(acc & Hacc & Hst & Hperm & _) (proj & d1 & _ & _ & _ & Ha & _) _].
    split_and!; [by eapply applyOps_keys|done|by exists acc].
  - unfold Sync in Hs. destruct (Z.ltb _ _); [by injection Hs as <- _; destruct d|].
    destruct (Z.ltb _ _); [by injection Hs as <- _; destruct d|]. by eapply run_err.
Qed.

(** C30: Validation in Go covers the database's CHECK constraints.  On tables that
    satisfy the invariant, neither creating nor updating a task, nor any sync
    operation, ever fails with the message kept for a violation that validation
    missed. *)
Theorem validation_covers_checks (d : wdb) :
  board_ok d ->
  (forall principal business ref f draws now e, good_draws draws ->
     snd (CreateTask principal business ref f draws now d) = Err e -> e <> validationError check_message) /\
  (forall principal business ref key f note clock now e,
     snd (UpdateTask principal business ref key f note clock now d) = Err e -> e <> validationError check_message) /\
  (forall pid proj issuer op clock now res,
     snd (applyOp pid proj issuer op clock now d) = Ok res -> or_Error res <> check_message).
Proof.
  intros Hb. split_and!; intros *.
  - by apply CreateTask_foreseen.
  - by apply UpdateTask_foreseen.
  - by apply applyOp_foreseen.
Qed.

Lemma CreateToken_inv (principal business : uuid) (ref name : string) (entropy : list ascii) (now : time)
    (d d1 : wdb) (ct : CreatedToken) :
  CreateToken principal business ref name (Some entropy) now d = (d1, Ok ct) ->
  newWorkToken (Some entropy) = Ok (ct_Token ct) /\
  exists k, w_tokens d1 !! ct_ID ct = Some k /\ wk_hash k = HashToken (ct_Token ct) /\ wk_principal k = principal /\
            wk_revoked k = None.
Proof.
  unfold CreateToken. destruct (result_bind _ _) as [[nm pt]|e] eqn:He; [|done]. intros Hc. apply run_ok in Hc.
  apply bind_split in He as (nm' & _ & He). apply bind_split in He as (pt' & Hpt & He). injection He as -> ->.
  apply bind_run in Hc as (d2 & [id proj] & _ & Hc). apply bind_run in Hc as (d3 & tid & Ht & Hc).
  cbv beta in Ht. destruct (has_nul nm); [done|]. destruct (negb _); [done|]. destruct (existsb _ _); [done|].
  injection Ht as <- <-. apply bind_run in Hc as (d4 & [] & Ha & Hc). injection Ha as <-. injection Hc as <- <-.
  simpl. split; [done|]. eexists. split; [apply lookup_insert_eq|]. done.
Qed.

(** A token that was created works until it is revoked.  After any further
    requests that leave the token unrevoked, presenting the plaintext resolves to
    that token and its issuer, as long as its tenant is not being merged. *)
Theorem created_token_resolves (principal business : uuid) (ref name : string) (entropy : list ascii) (now : time)
    (d d1 : wdb) (ct : CreatedToken) (rs : list (request * time)) (k : token_row) (now2 : time) :
  board_ok d -> length entropy = 32 ->
  CreateToken principal business ref name (Some entropy) now d = (d1, Ok ct) ->
  w_tokens (serve_all rs d1) !! ct_ID ct = Some k -> wk_revoked k = None -> w_fence (serve_all rs d1) (wk_root k) = true ->
  exists a, snd (ResolveToken (ct_Token ct) now2 (serve_all rs d1)) = Ok a /\
            ta_TokenID a = ct_ID ct /\ ta_PrincipalID a = principal /\ ta_ProjectID a = wk_project k.
Proof.
  intros Hb Hlen Hc Hk Hr Hf. pose proof (CreateToken_history everywhere principal business ref name (Some entropy) now d) as Hh.
  rewrite Hc in Hh. simpl in Hh. apply CreateToken_inv in Hc as (Hpt & k0 & Hk0 & Hhash & Hprin & _).
  pose proof (serve_all_history rs d1) as Hh2. destruct (hi_tokens _ _ _ Hh2 _ _ Hk0) as (k' & Hk' & Hkept).
  rewrite Hk in Hk'. injection Hk' as <-. destruct Hkept as [(_ & _ & _ & Hkh & Hkp) _].
  assert (Hb2 : board_ok (serve_all rs d1)) by (apply Hh2, Hh, Hb).
  pose proof (find_live_token _ _ _ Hb2 Hk Hr) as Hfind. rewrite Hkh, Hhash in Hfind.
  unfold ResolveToken. rewrite (newWorkToken_shape _ _ Hlen Hpt). cbn [negb].
  unfold work_resolve_token. unfold token_matches in Hfind. rewrite Hfind. cbv zeta. rewrite Hf. cbn [negb].
  destruct (match wk_last_used k with None => true | Some t => _ end); simpl; eexists; (split; [reflexivity|]);
    simpl; split_and!; congruence.
Qed.

(** Revoking a token is final.  Once a token has been revoked, no plaintext
    with its hash resolves again, whatever requests come in between. *)
Theorem revoked_token_dead (principal business : uuid) (ref : string) (tid : uuid) (now : time) (d d1 : wdb)
    (k : token_row) (plaintext : string) (rs : list (request * time)) (now2 : time) :
  board_ok d -> RevokeToken principal business ref tid now d = (d1, Ok tt) ->
  w_tokens d !! tid = Some k -> HashToken plaintext = wk_hash k ->
  snd (ResolveToken plaintext now2 (serve_all rs d1)) = Err WTokenUnauthorized.
Proof.
  intros Hb Hrv Hk Hhash. pose proof (RevokeToken_history everywhere principal business ref tid now d) as Hh.
  rewrite Hrv in Hh. simpl in Hh.
  assert (Hk1 : w_tokens d1 !! tid = Some (revoked_at now k)).
  { apply run_ok in Hrv. apply bind_run in Hrv as (d2 & [id proj] & Hl & Hrv).
    assert (d2 = d) as ->.
    { revert Hl. unfold loadProject, s_bind, resolveTenantRoot, GetWorkProject, GetWorkProjectBySlug, s_err.
      repeat case_match; congruence. }
    apply bind_run in Hrv as (d3 & row & Hr & Ha). cbv beta in Hr. rewrite Hk in Hr.
    destruct (_ && _); [|done]. destruct (negb _); [done|]. injection Hr as <- <-. injection Ha as <-.
    apply lookup_insert_eq. }
  pose proof (serve_all_history rs d1) as Hh2. destruct (hi_tokens _ _ _ Hh2 _ _ Hk1) as (k' & Hk' & [(_ & _ & _ & Hkh & _) Hrev]).
  assert (Hb2 : board_ok (serve_all rs d1)) by (apply Hh2, Hh, Hb).
  assert (Hrev' : is_Some (wk_revoked k')) by (rewrite Hrev; simpl; eauto).
  pose proof (no_revoked_token _ _ _ Hb2 Hk' Hrev') as Hfind. rewrite Hkh in Hfind. simpl in Hfind. rewrite <- Hhash in Hfind.
  unfold ResolveToken. destruct (negb _); [done|]. unfold work_resolve_token. unfold token_matches in Hfind.
  by rewrite Hfind.
Qed.
End Theorems.

(** ** A run of the board *)

Definition demo_clock : TimeParser := {| parse_RFC3339 := fun s => if String.eqb s "now" then Some 0%Z else None |}.
#[local] Existing Instances demo_unicode demo_uuid demo_authz demo_events demo_clock.

Definition demo_board : wdb :=
  {| w_projects := ∅; w_tasks := ∅; w_tokens := ∅; w_seq := 0;
     w_businesses := {[ 1%N := {| b_root := 1; b_active := true; b_deleted := false |} ]};
     w_accounts := {[ 7%N := {| ac_status := "active"; ac_display_name := "Ada"; ac_email := "a@example.com" |} ]};
     w_fenced_roots := ∅; w_audit := [] |}.

Lemma demo_board_ok : board_ok demo_board.
Proof. constructor; simpl; try (intros *; rewrite lookup_empty; done). lia. Qed.

Definition demo_draws (n : nat) : option (list N) := Some [1; 2; 3; 4; 5; N.of_nat n mod 36]%N.
Definition demo_entropy : list ascii := repeat (byte_of 7) 32.
Definition demo_setup : list (request * time) :=
  [(RCreateProject 7 1 {| pi_Name := "Forge"; pi_Slug := ""; pi_KeyPrefix := "mf" |}, 0%Z);
   (RCreateTask 7 1 "forge" demo_fields demo_draws, Second)].
Definition demo_board1 : wdb := serve_all demo_setup demo_board.

Lemma demo_board1_ok : board_ok demo_board1.
Proof. apply (serve_all_history demo_setup demo_board), demo_board_ok. Qed.

Definition demo_auth : TokenAuth :=
  {| ta_TokenID := 0; ta_ProjectID := 0; ta_BusinessID := 1; ta_TenantRootID := 1; ta_PrincipalID := 7 |}.
Definition demo_create_op : SyncOp :=
  {| so_Op := "create"; so_Key := "mf-k3x9"; so_Fields := Some (JObj [("title", JStr "Ship it")]); so_Text := "";
     so_Author := "" |}.
Definition demo_bad_op : SyncOp :=
  {| so_Op := "update"; so_Key := "mf-none"; so_Fields := Some (JObj [("lane", JStr "agent")]); so_Text := "";
     so_Author := "" |}.
Definition demo_sync : SyncRequest := {| sr_Since := 0; sr_Ops := [demo_create_op; demo_bad_op] |}.
#[local] Notation demo_synced := (Sync demo_auth demo_sync 0 Second demo_board1) (only parsing).

Lemma board_invariant_witness : board_ok demo_board /\ board_ok (serve_all demo_setup demo_board).
Proof. split; [exact demo_board_ok|]. exact (proj1 (board_invariant demo_setup demo_board demo_board_ok)). Defined.

Lemma Sync_pull_complete_witness :
  exists d' resp page, demo_synced = (d', Ok resp) /\ length (sy_Tasks resp) = 2 /\
    page_spec d' 0 1 0 page (sy_Rev resp) (sy_More resp).
Proof.
  destruct demo_synced as [d' [resp|e]] eqn:Hs; [|vm_compute in Hs; discriminate].
  destruct (Sync_pull_complete demo_auth demo_sync 0 Second demo_board1 d' resp demo_board1_ok Hs) as (page & Ht & Hp).
  exists d', resp, page. split; [reflexivity|]. split; [|exact Hp].
  assert (Hlen : match demo_synced with (_, Ok r) => length (sy_Tasks r) | _ => 0 end = 2) by (vm_compute; reflexivity).
  rewrite Hs in Hlen. exact Hlen.
Defined.

Definition demo_project : project_row :=
  {| wp_business := 1; wp_root := 1; wp_slug := "forge"; wp_name := "Forge"; wp_prefix := "mf";
     wp_created_by := Some 7%N; wp_created_at := 0 |}.

Lemma validation_covers_checks_witness :
  exists res, snd (applyOp 0 demo_project 7 demo_bad_op 0 Second demo_board1) = Ok res /\ or_Error res <> check_message.
Proof.
  destruct (snd (applyOp 0 demo_project 7 demo_bad_op 0 Second demo_board1)) as [res|e] eqn:Hr;
    [|vm_compute in Hr; discriminate].
  exists res. split; [reflexivity|].
  exact (proj2 (proj2 (validation_covers_checks demo_board1 demo_board1_ok)) 0%N demo_project 7%N demo_bad_op 0%Z Second res Hr).
Defined.

#[local] Notation demo_minted := (CreateToken 7 1 "forge" "ci" (Some demo_entropy) Second demo_board1) (only parsing).
Definition demo_token_row : token_row :=
  {| wk_business := 1; wk_root := 1; wk_project := 0; wk_name := "ci";
     wk_hash := HashToken ""; wk_prefix := "mfw_BwcHBwcH"; wk_principal := 7; wk_created_at := Second;
     wk_last_used := None; wk_revoked := None |}.

Lemma created_token_resolves_witness :
  exists d1 ct a, demo_minted = (d1, Ok ct) /\ snd (ResolveToken (ct_Token ct) Minute d1) = Ok a /\ ta_PrincipalID a = 7%N.
Proof.
  destruct demo_minted as [d1 [ct|e]] eqn:Hs; [|vm_compute in Hs; discriminate].
  assert (Hk : match demo_minted with (d, Ok r) => w_tokens d !! ct_ID r | _ => None end = Some demo_token_row)
    by (vm_compute; reflexivity).
  assert (Hf : w_fence (fst demo_minted) 1 = true) by (vm_compute; reflexivity).
  rewrite Hs in Hk, Hf.
  destruct (created_token_resolves 7 1 "forge" "ci" demo_entropy Second demo_board1 d1 ct [] demo_token_row Minute
              demo_board1_ok eq_refl Hs Hk eq_refl Hf) as (a & Ha & _ & Hp & _).
  exists d1, ct, a. split; [reflexivity|]. split; [exact Ha|exact Hp].
Defined.

#[local] Notation demo_revoked := (RevokeToken 7 1 "forge" 0 Minute (fst demo_minted)) (only parsing).

Lemma demo_minted_ok : board_ok (fst demo_minted).
Proof. apply (CreateToken_history everywhere 7 1 "forge" "ci" (Some demo_entropy) Second demo_board1), demo_board1_ok. Qed.

Lemma revoked_token_dead_witness :
  exists d1, demo_revoked = (d1, Ok tt) /\ snd (ResolveToken "anything" Minute d1) = Err WTokenUnauthorized.
Proof.
  destruct demo_revoked as [d1 [[]|e]] eqn:Hs; [|vm_compute in Hs; discriminate].
  assert (Hk : w_tokens (fst demo_minted) !! 0%N = Some demo_token_row) by (vm_compute; reflexivity).
  exists d1. split; [reflexivity|].
  exact (revoked_token_dead 7 1 "forge" 0 Minute (fst demo_minted) d1 demo_token_row "anything" [] Minute
           demo_minted_ok Hs Hk eq_refl).
Defined.
