(* ===== verification/MfClient.v ===== *)
(** * The [mf] command line client: [cmd/mf/store.go], [sync.go], [commands.go], [views.go]

    The client keeps a cache of the project's tasks, a cursor and an outbox of
    operations that were applied locally and not yet sent.  The state file is
    read, changed and written under a lock, so an operation is a function from
    state to state; one that fails saves nothing.  Random bytes, the clock and the
    server are arguments.  What is printed is not modelled. *)

From S2P Require Import Prelude GoStrings GoTime GoJson AutoService AutoEvents WorkFields WorkBoard WorkSync.
From stdpp Require Import sorting.
#[local] Open Scope go_scope.

(** ** Data *)

Definition isClosed (status : string) : bool := String.eqb status "done" || String.eqb status "canceled".
Definition mf_lanes : list string := ["agent"; "operator"].
Definition mf_statuses : list string := ["backlog"; "todo"; "in_progress"; "blocked"; "done"; "canceled"].
Definition mf_types : list string := ["task"; "bug"; "feature"; "chore"].
Definition contains (l : list string) (s : string) : bool := existsb (String.eqb s) l.

Record patch := {
  p_Title : option string; p_Description : option string; p_Lane : option string; p_Status : option string;
  p_Priority : option Z; p_Type : option string; p_Assignee : option string; p_Labels : option (list string);
  p_BlockedBy : option (list string); p_CreatedAt : option time; p_ClosedAt : option time
}.
Definition no_patch : patch := Build_patch None None None None None None None None None None None.

Record Op := { op_Op : string; op_Key : string; op_Fields : option patch; op_Text : string; op_Author : string }.
Record State := {
  st_Cursor : Z; st_Project : option SyncProject; st_Tasks : gmap string Task; st_Outbox : list Op
}.

(** [cliError]: a usage error or a task that was not found; other errors. *)
Inductive cli_error := usage (msg : string) | not_found (msg : string) | failure (msg : string).

Definition validate (p : patch) : result cli_error unit :=
  if match p_Title p with Some s => String.eqb (TrimSpace s) "" | None => false end
  then Err (usage "title must not be empty") else
  if match p_Lane p with Some s => negb (contains mf_lanes s) | None => false end
  then Err (usage "lane must be one of agent, operator") else
  if match p_Status p with Some s => negb (contains mf_statuses s) | None => false end
  then Err (usage "status must be one of backlog, todo, in_progress, blocked, done, canceled") else
  if match p_Type p with Some s => negb (contains mf_types s) | None => false end
  then Err (usage "type must be one of task, bug, feature, chore") else
  if match p_Priority p with Some n => (n <? 0)%Z || (4 <? n)%Z | None => false end
  then Err (usage "priority must be 0-4") else Ok tt.

(** [patch.apply] *)
Definition patch_apply (p : patch) (t : Task) (now : time) : Task :=
  let closedAt := match p_ClosedAt p with Some c => Some c | None => tk_ClosedAt t end in
  {| tk_Key := tk_Key t; tk_Title := default (tk_Title t) (p_Title p);
     tk_Description := default (tk_Description t) (p_Description p); tk_Notes := tk_Notes t;
     tk_Lane := default (tk_Lane t) (p_Lane p); tk_Status := default (tk_Status t) (p_Status p);
     tk_Priority := default (tk_Priority t) (p_Priority p); tk_Type := default (tk_Type t) (p_Type p);
     tk_Assignee := default (tk_Assignee t) (p_Assignee p); tk_Labels := default (tk_Labels t) (p_Labels p);
     tk_BlockedBy := default (tk_BlockedBy t) (p_BlockedBy p); tk_Rev := tk_Rev t;
     tk_CreatedAt := default (tk_CreatedAt t) (p_CreatedAt p); tk_UpdatedAt := now;
     tk_ClosedAt := match p_Status p with
                    | None => closedAt
                    | Some s => if isClosed s then match closedAt with None => Some now | Some c => Some c end else None
                    end |}.

(** ** Keys *)

Definition mf_validKey (k : string) : bool := keyRe k.

(** [repo.keyPrefix], with the prefix of the configuration file. *)
Definition keyPrefix (cfg_KeyPrefix : string) (st : State) : string :=
  match st_Project st with
  | Some p => if negb (String.eqb (sp_KeyPrefix p) "") then sp_KeyPrefix p
              else if negb (String.eqb cfg_KeyPrefix "") then cfg_KeyPrefix else "mf"
  | None => if negb (String.eqb cfg_KeyPrefix "") then cfg_KeyPrefix else "mf"
  end.

(** [newKey]: [entropy] is what [rand.Read] will deliver, one byte at a time,
    before it fails; [acc] is the part of the key built so far. *)
Fixpoint newKey_from (prefix : string) (tasks : gmap string Task) (acc : list ascii) (entropy : list N)
  : result cli_error string :=
  match entropy with
  | [] => Err (failure "read failed")
  | b :: rest =>
      let acc := if (b <? 252)%N then acc ++ [base36 (b mod 36)] else acc in
      if Nat.ltb (length acc) 6 then newKey_from prefix tasks acc rest
      else let key := prefix +:+ "-" +:+ of_bytes acc in
           match tasks !! key with
           | None => Ok key
           | Some _ => newKey_from prefix tasks [] rest
           end
  end.
Definition newKey (prefix : string) (tasks : gmap string Task) (entropy : list N) : result cli_error string :=
  newKey_from prefix tasks [] entropy.

(** What follows the last hyphen, the whole key when it has none. *)
Fixpoint after_last_hyphen (best l : list ascii) : list ascii :=
  match l with
  | [] => best
  | c :: r => after_last_hyphen (if Ascii.eqb c "-" then r else best) r
  end.
Definition key_part (key : string) : string := of_bytes (after_last_hyphen (bytes key) (bytes key)).

Definition abbreviates (abbr key : string) : bool :=
  HasPrefix key abbr || HasSuffix key abbr || HasPrefix (key_part key) abbr.

Section Client.
Context `{UnicodeTables, EventLib}.

Fixpoint join (sep : string) (l : list string) : string :=
  match l with [] => "" | [s] => s | s :: r => s +:+ sep +:+ join sep r end.

Definition resolveKey (tasks : gmap string Task) (input : string) : result cli_error string :=
  let abbr := ToLower (TrimSpace input) in
  match tasks !! abbr with
  | Some _ => Ok abbr
  | None =>
      match (if String.eqb abbr "" then [] else List.filter (abbreviates abbr) (map fst (map_to_list tasks))) with
      | [] => Err (not_found ("no task matches " +:+ Quote abbr))
      | [k] => Ok k
      | matches => Err (usage (Quote abbr +:+ " is ambiguous: " +:+ join ", " (merge_sort text_le matches)))
      end
  end.

Fixpoint sanitize_from (acc l : list ascii) : list ascii :=
  match l with
  | [] => acc
  | c :: r =>
      let acc := if is_lower c || (Nat.ltb 0 (length acc) && is_digit c) then acc ++ [c] else acc in
      if Nat.eqb (length acc) 8 then acc else sanitize_from acc r
  end.
Definition sanitizePrefix (name : string) : string :=
  match sanitize_from [] (bytes (ToLower name)) with [] => "mf" | l => of_bytes l end.

(** ** Commands *)

Definition set_task (st : State) (key : string) (t : Task) : State :=
  {| st_Cursor := st_Cursor st; st_Project := st_Project st; st_Tasks := <[key := t]> (st_Tasks st);
     st_Outbox := st_Outbox st |}.
Definition queue (st : State) (op : Op) : State :=
  {| st_Cursor := st_Cursor st; st_Project := st_Project st; st_Tasks := st_Tasks st;
     st_Outbox := st_Outbox st ++ [op] |}.

Definition create_op (key : string) (p : patch) : Op :=
  {| op_Op := "create"; op_Key := key; op_Fields := Some p; op_Text := ""; op_Author := "" |}.
Definition update_op (key : string) (p : patch) : Op :=
  {| op_Op := "update"; op_Key := key; op_Fields := Some p; op_Text := ""; op_Author := "" |}.
Definition note_op (key text author : string) : Op :=
  {| op_Op := "note"; op_Key := key; op_Fields := None; op_Text := text; op_Author := author |}.

Definition blank_task (key : string) (now : time) : Task :=
  {| tk_Key := key; tk_Title := ""; tk_Description := ""; tk_Notes := ""; tk_Lane := ""; tk_Status := "";
     tk_Priority := 0; tk_Type := ""; tk_Assignee := ""; tk_Labels := []; tk_BlockedBy := []; tk_Rev := 0;
     tk_CreatedAt := now; tk_UpdatedAt := 0; tk_ClosedAt := None |}.

(** The body of [cmdCreate], on the patch its flags make. *)
Definition create (cfg_KeyPrefix : string) (st : State) (p : patch) (entropy : list N) (now : time)
  : result cli_error State :=
  let? _ := validate p in
  let? key := newKey (keyPrefix cfg_KeyPrefix st) (st_Tasks st) entropy in
  Ok (queue (set_task st key (patch_apply p (blank_task key now) now)) (create_op key p)).

Definition mf_patchTask (st : State) (input : string) (p : patch) (now : time) : result cli_error State :=
  let? key := resolveKey (st_Tasks st) input in
  match st_Tasks st !! key with
  | Some t => Ok (queue (set_task st key (patch_apply p t now)) (update_op key p))
  | None => Err (failure "nil pointer dereference")
  end.

(** [addNoteAs], on a key that [resolveKey] returned. *)
Definition with_note (t : Task) (author text : string) (now : time) : Task :=
  {| tk_Key := tk_Key t; tk_Title := tk_Title t; tk_Description := tk_Description t;
     tk_Notes := (if String.eqb (tk_Notes t) "" then "" else tk_Notes t +:+ of_bytes [byte_of 10]) +:+
                 "[" +:+ RFC3339 now +:+ " " +:+ author +:+ "] " +:+ text;
     tk_Lane := tk_Lane t; tk_Status := tk_Status t; tk_Priority := tk_Priority t; tk_Type := tk_Type t;
     tk_Assignee := tk_Assignee t; tk_Labels := tk_Labels t; tk_BlockedBy := tk_BlockedBy t; tk_Rev := tk_Rev t;
     tk_CreatedAt := tk_CreatedAt t; tk_UpdatedAt := now; tk_ClosedAt := tk_ClosedAt t |}.
Definition addNoteAs (st : State) (key text author : string) (now : time) : result cli_error State :=
  match st_Tasks st !! key with
  | Some t => Ok (queue (set_task st key (with_note t author text now)) (note_op key text author))
  | None => Err (failure "nil pointer dereference")
  end.

Definition status_patch (s : string) (assignee : option string) : patch :=
  Build_patch None None None (Some s) None None assignee None None None None.

(** The bodies of [cmdClaim], [cmdReopen], [cmdUpdate], [cmdNote] and [cmdClose]. *)
Definition claim_task (st : State) (input actor : string) (now : time) : result cli_error State :=
  mf_patchTask st input (status_patch "in_progress" (Some actor)) now.
Definition reopen_task (st : State) (input : string) (now : time) : result cli_error State :=
  mf_patchTask st input (status_patch "todo" None) now.
Definition update_task (st : State) (input : string) (p : patch) (now : time) : result cli_error State :=
  let? _ := validate p in mf_patchTask st input p now.
Definition note_task (st : State) (input text actor : string) (now : time) : result cli_error State :=
  let text := TrimSpace text in
  if String.eqb text "" then Err (usage "note: text must not be empty") else
  let? key := resolveKey (st_Tasks st) input in addNoteAs st key text actor now.
Fixpoint close_tasks (st : State) (inputs : list string) (reason actor : string) (now : time)
  : result cli_error State :=
  match inputs with
  | [] => Ok st
  | input :: rest =>
      let? key := resolveKey (st_Tasks st) input in
      let? st1 := if String.eqb reason "" then Ok st else addNoteAs st key reason actor now in
      let? st2 := mf_patchTask st1 key (status_patch "done" None) now in
      close_tasks st2 rest reason actor now
  end.

(** [resolveBlockers] *)
Fixpoint resolveBlockers_from (st : State) (out inputs : list string) : result cli_error (list string) :=
  match inputs with
  | [] => Ok out
  | k :: rest =>
      match (match resolveKey (st_Tasks st) k with
             | Ok key => Ok key
             | Err (not_found m) => if mf_validKey (ToLower k) then Ok (ToLower k) else Err (not_found m)
             | Err e => Err e
             end) with
      | Ok key => resolveBlockers_from st (if contains out key then out else out ++ [key]) rest
      | Err e => Err e
      end
  end.
Definition resolveBlockers (st : State) (inputs : list string) : result cli_error (list string) :=
  resolveBlockers_from st [] inputs.

(** ** Views ([views.go]) *)

Definition unresolvedBlockers (st : State) (t : Task) : list string :=
  List.filter (fun k => match st_Tasks st !! k with Some b => negb (isClosed (tk_Status b)) | None => true end)
              (tk_BlockedBy t).

(** By priority, then age, then key. *)
Definition task_before (x y : Task) : Prop :=
  (tk_Priority x < tk_Priority y)%Z \/
  (tk_Priority x = tk_Priority y /\
   ((tk_CreatedAt x < tk_CreatedAt y)%Z \/
    (tk_CreatedAt x = tk_CreatedAt y /\ text_le (tk_Key x) (tk_Key y)))).
#[export] Instance task_before_dec (x y : Task) : Decision (task_before x y).
Proof. unfold task_before. apply _. Defined.

Definition filterTasks (st : State) (keep : Task -> bool) : list Task :=
  merge_sort task_before (List.filter keep (map snd (map_to_list (st_Tasks st)))).
Definition readyTasks (st : State) : list Task :=
  filterTasks st (fun t => String.eqb (tk_Lane t) "agent" && String.eqb (tk_Status t) "todo" &&
                           Nat.eqb (length (unresolvedBlockers st t)) 0).
Definition operatorInbox (st : State) : list Task :=
  filterTasks st (fun t => String.eqb (tk_Lane t) "operator" && negb (isClosed (tk_Status t))).

(** ** Sync ([sync.go]) *)

Definition maxOpsPerSync : nat := 1000.
Definition maxOpsBytes : Z := 524288.
Definition maxPullRounds : nat := 20.

(** The JSON of a patch and of an operation, with [omitempty]. *)
Definition present {A : Type} (name : string) (o : option A) (f : A -> json) : list (string * json) :=
  match o with Some a => [(name, f a)] | None => [] end.
Definition jtime (t : time) : json := JStr (time_RFC3339 t).
Definition patch_json (p : patch) : list (string * json) :=
  present "title" (p_Title p) JStr ++ present "description" (p_Description p) JStr ++
  present "lane" (p_Lane p) JStr ++ present "status" (p_Status p) JStr ++ present "priority" (p_Priority p) JInt ++
  present "type" (p_Type p) JStr ++ present "assignee" (p_Assignee p) JStr ++
  present "labels" (p_Labels p) strings_json ++ present "blocked_by" (p_BlockedBy p) strings_json ++
  present "created_at" (p_CreatedAt p) jtime ++ present "closed_at" (p_ClosedAt p) jtime.
Definition nonempty (s : string) : option string := if String.eqb s "" then None else Some s.
Definition op_json (op : Op) : json :=
  JObj ([("op", JStr (op_Op op)); ("key", JStr (op_Key op))] ++
        present "fields" (op_Fields op) (fun p => JObj (patch_json p)) ++
        present "text" (nonempty (op_Text op)) JStr ++ present "author" (nonempty (op_Author op)) JStr).

(** [nextBatch]: [i] operations of [size] bytes have been taken. *)
Fixpoint batch_len (i : nat) (size : Z) (l : list Op) : nat :=
  match l with
  | [] => i
  | op :: r =>
      if Nat.eqb i maxOpsPerSync then i else
      let size := (size + len (json_Marshal (op_json op)) + 1)%Z in
      if (maxOpsBytes <? size)%Z && Nat.ltb 0 i then i else batch_len (S i) size r
  end.
Definition nextBatch (outbox : list Op) : list Op := take (batch_len 0 0 outbox) outbox.

Record syncRequest := { rq_Since : Z; rq_Ops : list Op }.
Record syncResponse := {
  rs_Rev : Z; rs_Project : option SyncProject; rs_Tasks : list Task; rs_Results : list OpResult; rs_More : bool
}.
Record syncSummary := { sum_sent : Z; sum_failed : Z; sum_pulled : Z; sum_requests : Z; sum_cursor : Z }.

Definition keep_tasks (tasks : gmap string Task) (l : list Task) : gmap string Task :=
  fold_left (fun m t => <[tk_Key t := t]> m) l tasks.

(** [applyResponse], after the sent operations have left the outbox. *)
Definition applyResponse (st : State) (resp : syncResponse) : State :=
  {| st_Cursor := Z.max (st_Cursor st) (rs_Rev resp);
     st_Project := match rs_Project resp with Some p => Some p | None => st_Project st end;
     st_Tasks := keep_tasks (st_Tasks st) (rs_Tasks resp); st_Outbox := st_Outbox st |}.
Definition summarize (sum : syncSummary) (sent : list Op) (resp : syncResponse) (st : State) : syncSummary :=
  {| sum_sent := sum_sent sum + Z.of_nat (length sent);
     sum_failed := sum_failed sum + Z.of_nat (length (List.filter (fun r => negb (or_OK r)) (rs_Results resp)));
     sum_pulled := sum_pulled sum + Z.of_nat (length (rs_Tasks resp));
     sum_requests := sum_requests sum + 1; sum_cursor := st_Cursor st |}.

Definition drop_sent (st : State) (n : nat) : State :=
  {| st_Cursor := st_Cursor st; st_Project := st_Project st; st_Tasks := st_Tasks st;
     st_Outbox := drop n (st_Outbox st) |}.

(** [syncRounds], against a server [post] with state [Srv]; [None] when [fuel]
    requests were not enough.  The error of a failed request comes with the state
    the completed rounds left. *)
Fixpoint syncRounds {Srv : Type} (post : syncRequest -> Srv -> Srv * result string syncResponse) (fuel pulls : nat)
    (s : Srv) (st : State) (sum : syncSummary) : option (Srv * State * syncSummary * option string) :=
  match fuel with
  | O => None
  | S fuel' =>
      let batch := nextBatch (st_Outbox st) in
      match post {| rq_Since := st_Cursor st; rq_Ops := batch |} s with
      | (s', Err e) => Some (s', st, sum, Some e)
      | (s', Ok resp) =>
          let st' := applyResponse (drop_sent st (length batch)) resp in
          let sum' := summarize sum batch resp st' in
          if Nat.ltb 0 (length (st_Outbox st')) then syncRounds post fuel' pulls s' st' sum'
          else if negb (rs_More resp) || Nat.leb maxPullRounds (S pulls) then Some (s', st', sum', None)
          else syncRounds post fuel' (S pulls) s' st' sum'
      end
  end.
End Client.
