(* ===== verification/MfFacts.v ===== *)
(** * Properties of the [mf] client: batches, rounds, keys, views and the wire format *)

From S2P Require Import Prelude GoStrings GoTime GoJson AutoGraph Concrete AutoService AutoEvents AutoDemo.
From S2P Require Import WorkFields WorkFieldsFacts WorkKeyFacts WorkBoard WorkSync WorkPull WorkTheorems MfClient.
From stdpp Require Import sorting.
#[local] Open Scope go_scope.

Section Facts.
Context `{UnicodeTables, EventLib}.

(** ** Batches *)

Definition op_size (op : Op) : Z := (len (json_Marshal (op_json op)) + 1)%Z.
Definition ops_size (l : list Op) : Z := fold_right (fun op n => (op_size op + n)%Z) 0%Z l.

Lemma ops_size_app (l k : list Op) : ops_size (l ++ k) = (ops_size l + ops_size k)%Z.
Proof. induction l as [|op l IH]; simpl; [done|]. rewrite IH. lia. Qed.

Lemma batch_len_cons (i : nat) (size : Z) (op : Op) (l : list Op) :
  batch_len i size (op :: l) =
    if Nat.eqb i maxOpsPerSync then i
    else if (maxOpsBytes <? size + op_size op)%Z && Nat.ltb 0 i then i else batch_len (S i) (size + op_size op) l.
Proof. cbn [batch_len]. unfold op_size. by rewrite !Z.add_assoc. Qed.

(** [done] operations of [size] bytes have been taken. *)
Lemma batch_len_spec (taken l : list Op) :
  length taken <= maxOpsPerSync -> (ops_size taken <= maxOpsBytes)%Z \/ length taken <= 1 ->
  let n := batch_len (length taken) (ops_size taken) l in
  length taken <= n <= length taken + length l /\ n <= maxOpsPerSync /\
  (taken = [] -> l <> [] -> 0 < n) /\
  ((ops_size (take n (taken ++ l)) <= maxOpsBytes)%Z \/ n <= 1) /\
  (n = length taken + length l \/ n = maxOpsPerSync \/ (maxOpsBytes < ops_size (take (S n) (taken ++ l)))%Z).
Proof.
  assert (Hmax : 0 < maxOpsPerSync) by (apply Nat.ltb_lt; vm_compute; reflexivity).
  revert taken. induction l as [|op l IH]; intros taken Hle Hsz; cbv zeta.
  - simpl. rewrite app_nil_r, take_ge by lia. split_and!; try done; try lia.
  - rewrite batch_len_cons. destruct (Nat.eqb_spec (length taken) maxOpsPerSync) as [He|Hne].
    { rewrite take_app_length. simpl. split_and!; (lia || done). }
    destruct ((maxOpsBytes <? ops_size taken + op_size op)%Z && Nat.ltb 0 (length taken)) eqn:Hcut.
    { apply andb_true_iff in Hcut as [Hbig Hpos]. apply Z.ltb_lt in Hbig. apply Nat.ltb_lt in Hpos.
      rewrite take_app_length. simpl length. split_and!; (lia || done || idtac).
      right. right. rewrite take_app_ge by lia. replace (S (length taken) - length taken) with 1 by lia.
        rewrite ops_size_app. simpl. lia. }
    assert (Hnext : length taken + 1 <= 1 \/ (ops_size taken + op_size op <= maxOpsBytes)%Z).
    { apply andb_false_iff in Hcut as [Hc|Hc]; [apply Z.ltb_ge in Hc; by right|apply Nat.ltb_ge in Hc; left; lia]. }
    specialize (IH (taken ++ [op])). rewrite length_app, ops_size_app in IH. simpl in IH.
    rewrite Z.add_0_r, <- app_assoc in IH. simpl in IH. rewrite Nat.add_1_r in IH.
    destruct IH as (Hr & Hm & _ & Hs & Hx); [lia|destruct Hnext; [right; lia|by left]|].
    cbn [length]. split_and!; (lia || done).
Qed.

Lemma nextBatch_split (outbox : list Op) :
  exists rest, outbox = nextBatch outbox ++ rest /\ drop (length (nextBatch outbox)) outbox = rest.
Proof.
  unfold nextBatch. set (n := batch_len 0 0 outbox).
  exists (drop (length (take n outbox)) outbox). split; [|done].
  rewrite length_take. destruct (decide (n <= length outbox)).
  - rewrite Nat.min_l by lia. by rewrite take_drop.
  - rewrite Nat.min_r, drop_all, app_nil_r, take_ge by lia. done.
Qed.

Lemma nextBatch_pos (outbox : list Op) : outbox <> [] -> 0 < length (nextBatch outbox).
Proof.
  intros Hne. destruct (batch_len_spec [] outbox) as (Hr & _ & Hpos & _); [simpl; lia|right; simpl; lia|].
  simpl in *. unfold nextBatch. rewrite length_take. specialize (Hpos eq_refl Hne).
  destruct outbox; [done|]. simpl in *. lia.
Qed.

(** A batch is the longest prefix of the outbox within the caps.  It is never
    empty while operations wait, has at most 1000 operations and, unless it is a
    single operation, at most 512 KiB; and it could not be longer: it is the whole
    outbox, or has 1000 operations, or the next one would pass the byte cap. *)
Theorem nextBatch_longest (outbox : list Op) :
  let n := length (nextBatch outbox) in
  nextBatch outbox = take n outbox /\ (outbox <> [] -> 0 < n) /\ n <= maxOpsPerSync /\
  ((ops_size (nextBatch outbox) <= maxOpsBytes)%Z \/ n <= 1) /\
  (n = length outbox \/ n = maxOpsPerSync \/ (maxOpsBytes < ops_size (take (S n) outbox))%Z).
Proof.
  destruct (batch_len_spec [] outbox) as (Hr & Hm & _ & Hs & Hx); [simpl; lia|right; simpl; lia|].
  change (length (@nil Op)) with 0 in *. change (ops_size []) with 0%Z in *. cbn [app plus] in *.
  assert (Hn : length (nextBatch outbox) = batch_len 0 0 outbox) by (unfold nextBatch; rewrite length_take; lia).
  cbv zeta. rewrite Hn. split_and!; try done. intros Hne. rewrite <- Hn. by apply nextBatch_pos.
Qed.

(** ** Rounds *)

Section Rounds.
Context {Srv : Type}.
Variable post : syncRequest -> Srv -> Srv * result string syncResponse.

Lemma drained_shorter (st : State) (resp : syncResponse) :
  st_Outbox st <> [] ->
  length (st_Outbox (applyResponse (drop_sent st (length (nextBatch (st_Outbox st)))) resp)) < length (st_Outbox st).
Proof.
  intros Hne. simpl. pose proof (nextBatch_pos _ Hne). rewrite length_drop. destruct (st_Outbox st); [done|]. simpl in *. lia.
Qed.

Lemma rounds_end (fuel pulls : nat) (s : Srv) (st : State) (sum : syncSummary) :
  pulls < maxPullRounds -> length (st_Outbox st) + (maxPullRounds - pulls) <= fuel ->
  syncRounds post fuel pulls s st sum <> None.
Proof.
  revert pulls s st sum. induction fuel as [|fuel IH]; intros pulls s st sum Hp Hf; [lia|].
  cbn [syncRounds]. destruct (post _ s) as [s' [resp|e]]; [|done]. cbv zeta.
  set (st' := applyResponse _ resp). destruct (Nat.ltb_spec 0 (length (st_Outbox st'))) as [Hpos|Hzero].
  - assert (Hne : st_Outbox st <> []).
    { intros He. unfold st' in Hpos. simpl in Hpos. rewrite He, drop_nil in Hpos. simpl in Hpos. lia. }
    apply IH; [done|]. pose proof (drained_shorter st resp Hne). unfold st'. lia.
  - destruct (negb (rs_More resp) || Nat.leb maxPullRounds (S pulls)) eqn:Hend; [done|].
    apply orb_false_iff in Hend as [_ Hp']. apply Nat.leb_gt in Hp'. apply IH; [done|]. lia.
Qed.

(** A server that keeps a log of the requests it got and whether it answered them. *)
Definition logged : syncRequest -> Srv * list (syncRequest * bool) -> (Srv * list (syncRequest * bool)) * result string syncResponse :=
  fun rq sl => let '(s', r) := post rq (fst sl) in
               ((s', snd sl ++ [(rq, match r with Ok _ => true | Err _ => false end)]), r).

(** The operations of the requests that were answered, in the order they were sent. *)
Definition acknowledged (log : list (syncRequest * bool)) : list Op :=
  flat_map (fun x : syncRequest * bool => if snd x then rq_Ops (fst x) else []) log.

Lemma acknowledged_app (l k : list (syncRequest * bool)) : acknowledged (l ++ k) = acknowledged l ++ acknowledged k.
Proof. apply flat_map_app. Qed.

End Rounds.

Lemma rounds_log {Srv : Type} (post : syncRequest -> Srv -> Srv * result string syncResponse) (fuel pulls : nat) (s s' : Srv)
    (log log' : list (syncRequest * bool)) (st st' : State) (sum sum' : syncSummary) (err : option string) :
  syncRounds (logged post) fuel pulls (s, log) st sum = Some (s', log', st', sum', err) ->
  exists new, log' = log ++ new /\ acknowledged new ++ st_Outbox st' = st_Outbox st /\
    (err = None -> st_Outbox st' = []) /\
    (forall rq, (rq, false) ∈ new -> rq_Ops rq `prefix_of` st_Outbox st').
Proof.
  revert pulls s log st sum. induction fuel as [|fuel IH]; intros pulls s log st sum; [done|].
  cbn [syncRounds]. unfold logged at 1. simpl fst. destruct (post _ s) as [s1 [resp|e]]; cbv zeta iota beta; simpl snd.
  - destruct (nextBatch_split (st_Outbox st)) as (rest & Hsplit & Hdrop).
    set (rq := {| rq_Since := st_Cursor st; rq_Ops := nextBatch (st_Outbox st) |}).
    set (st1 := applyResponse _ resp). assert (Hout : st_Outbox st1 = rest) by done.
    assert (Hack : acknowledged [(rq, true)] ++ rest = st_Outbox st) by (simpl; by rewrite app_nil_r).
    assert (Hrec : forall p sm, syncRounds (logged post) fuel p (s1, log ++ [(rq, true)]) st1 sm = Some (s', log', st', sum', err) ->
      exists new, log' = log ++ new /\ acknowledged new ++ st_Outbox st' = st_Outbox st /\
        (err = None -> st_Outbox st' = []) /\ (forall r, (r, false) ∈ new -> rq_Ops r `prefix_of` st_Outbox st')).
    { intros p sm Hr. apply IH in Hr as (new & -> & Hn & He & Hf). exists ((rq, true) :: new).
      rewrite <- app_assoc. split_and!; try done.
      - change ((rq, true) :: new) with ([(rq, true)] ++ new). by rewrite acknowledged_app, <- app_assoc, Hn, Hout.
      - intros r Hr. apply elem_of_cons in Hr as [?|Hr]; [done|by apply Hf]. }
    destruct (Nat.ltb_spec 0 (length (st_Outbox st1))) as [Hpos|Hzero]; [by apply Hrec|].
    destruct (negb _ || _); [|by apply Hrec]. intros [= <- <- <- <- <-]. exists [(rq, true)]. rewrite Hout in *.
    split_and!; try done.
    + intros _. destruct rest; [done|simpl in Hzero; lia].
    + intros r Hr. by apply list_elem_of_singleton in Hr.
  - intros [= <- <- <- <- <-]. eexists. split; [reflexivity|]. split_and!; try done.
    intros r Hr. apply list_elem_of_singleton in Hr. injection Hr as ->. simpl.
    destruct (nextBatch_split (st_Outbox st)) as (rest & Hsplit & _). by exists rest.
Qed.

(** C31: A sync ends.  Whatever the server answers, a sync makes at most as many
    requests as operations wait, plus twenty pull rounds. *)
Theorem syncRounds_terminates {Srv : Type} (post : syncRequest -> Srv -> Srv * result string syncResponse) (s : Srv)
    (st : State) (sum : syncSummary) :
  exists out, syncRounds post (length (st_Outbox st) + maxPullRounds) 0 s st sum = Some out.
Proof.
  destruct (syncRounds post (length (st_Outbox st) + maxPullRounds) 0 s st sum) as [out|] eqn:Hr; [by exists out|].
  exfalso. eapply rounds_end; [| |exact Hr]; [apply Nat.ltb_lt; vm_compute; reflexivity|lia].
Qed.

(** C32: no operation is lost, reordered or acknowledged twice.  For any server,
    the operations of the answered requests, in order, followed by what is still
    in the outbox, are the outbox the sync started with; without an error the
    outbox is empty; and the operations of a request that failed are still at its
    front. *)
Theorem syncRounds_no_loss {Srv : Type} (post : syncRequest -> Srv -> Srv * result string syncResponse) (fuel : nat)
    (s s' : Srv) (log : list (syncRequest * bool)) (st st' : State) (sum sum' : syncSummary) (err : option string) :
  syncRounds (logged post) fuel 0 (s, []) st sum = Some (s', log, st', sum', err) ->
  acknowledged log ++ st_Outbox st' = st_Outbox st /\ (err = None -> st_Outbox st' = []) /\
  (forall rq, (rq, false) ∈ log -> rq_Ops rq `prefix_of` st_Outbox st').
Proof. intros Hr. apply rounds_log in Hr as (new & -> & Hn & He & Hf). by split_and!. Qed.

(** ** The wire format *)

Definition fields_of (p : patch) : TaskFields :=
  Build_TaskFields (p_Title p) (p_Description p) (p_Lane p) (p_Status p) (p_Priority p) (p_Type p) (p_Assignee p)
    (p_Labels p) (p_BlockedBy p).

Section Wire.
Context `{TimeParser}.

Lemma as_strings_ok {S : Type} (set : option (list string) -> S -> S) (l : list string) (s : S) :
  as_strings_ptr set (strings_json l) s = Some (set (Some l) s).
Proof.
  unfold as_strings_ptr, strings_json.
  match goal with |- match ?go (map JStr l) with _ => _ end = _ => assert (He : go (map JStr l) = Some l) end.
  { induction l as [|x l IH]; [done|]. simpl in *. by rewrite IH. }
  by rewrite He.
Qed.

(** A field that is present when it has a value is decoded to that value. *)
Lemma decode_present {A : Type} (fs : list (field createFields)) (name : string) (o : option A) (f : A -> json)
    (as_ptr : (option A -> createFields -> createFields) -> json -> createFields -> option createFields)
    (set : option A -> createFields -> createFields) (rest : list (string * json)) (c : createFields) :
  (forall a, o = Some a -> as_ptr set (f a) c = Some (set (Some a) c)) ->
  find_field fs name = Some (Field name (as_ptr set)) -> set None c = c ->
  decode_strict fs (present name o f ++ rest) None c = decode_strict fs rest None (set o c).
Proof. intros Hs Hf Hn. destruct o as [a|]; simpl; [|by rewrite Hn]. rewrite Hf. simpl. by rewrite Hs. Qed.

(** A patch whose values survive the trip: the priority is a 64-bit integer and
    the timestamps parse back. *)
Record wire_safe (p : patch) : Prop := {
  wf_priority : forall n, p_Priority p = Some n -> in_int64 n = true;
  wf_created : forall t, p_CreatedAt p = Some t -> parse_RFC3339 (time_RFC3339 t) = Some t;
  wf_closed : forall t, p_ClosedAt p = Some t -> parse_RFC3339 (time_RFC3339 t) = Some t
}.

Lemma as_string_ok (set : option string -> createFields -> createFields) (o : option string) (c : createFields) (a : string) :
  o = Some a -> as_string_ptr set (JStr a) c = Some (set (Some a) c).
Proof. done. Qed.

Lemma as_int64_ok (set : option Z -> createFields -> createFields) (o : option Z) (c : createFields) :
  (forall n, o = Some n -> in_int64 n = true) -> forall a, o = Some a -> as_int64_ptr set (JInt a) c = Some (set (Some a) c).
Proof. intros Hn a Ha. unfold as_int64_ptr. by rewrite (Hn a Ha). Qed.

Lemma as_time_ok (set : option time -> createFields -> createFields) (o : option time) (c : createFields) :
  (forall t, o = Some t -> parse_RFC3339 (time_RFC3339 t) = Some t) ->
  forall a, o = Some a -> as_time_ptr set (jtime a) c = Some (set (Some a) c).
Proof. intros Hn a Ha. unfold as_time_ptr, jtime. by rewrite (Hn a Ha). Qed.

Ltac decode_fields :=
  repeat (
    (erewrite (decode_present _ _ _ JStr); [|intros; by eapply as_string_ok|reflexivity|reflexivity]) ||
    (erewrite (decode_present _ _ _ strings_json); [|intros; apply as_strings_ok|reflexivity|reflexivity]) ||
    (erewrite (decode_present _ _ _ JInt); [|by apply as_int64_ok|reflexivity|reflexivity]) ||
    (erewrite (decode_present _ _ _ jtime); [|by apply as_time_ok|reflexivity|reflexivity])).

Lemma decode_create (p : patch) :
  wire_safe p ->
  decodeStrict createFields_fields (Some (JObj (patch_json p))) =
    Ok (Build_createFields (fields_of p) (p_CreatedAt p) (p_ClosedAt p)).
Proof.
  intros [Hp Hcr Hcl]. unfold decodeStrict, patch_json. rewrite <- (app_nil_r (present "closed_at" _ _)).
  decode_fields. reflexivity.
Qed.

Lemma decode_update (p : patch) :
  wire_safe p -> p_CreatedAt p = None -> p_ClosedAt p = None ->
  decodeFields (Some (JObj (patch_json p))) = Ok (fields_of p).
Proof.
  intros [Hp Hcr Hcl] Hnc Hnl. unfold decodeFields, decodeStrict, patch_json. rewrite Hnc, Hnl.
  change (present "created_at" None jtime ++ present "closed_at" None jtime) with (@nil (string * json)).
  decode_fields. reflexivity.
Qed.
End Wire.
End Facts.
