(* ===== verification/MfLocal.v ===== *)
(** * Properties of the [mf] client's local operations: updates, keys, views *)

From S2P Require Import Prelude GoStrings GoTime GoJson AutoGraph Concrete AutoService AutoEvents AutoDemo.
From S2P Require Import WorkFields WorkFieldsFacts WorkKeyFacts WorkBoard WorkSync WorkFacts WorkTheorems MfClient.
From S2P Require Import MfFacts.
From stdpp Require Import sorting.
#[local] Open Scope go_scope.
#[local] Open Scope stmt_scope.

(** An operation as the server receives it. *)
Definition to_server `{EventLib} (op : Op) : SyncOp :=
  {| so_Op := op_Op op; so_Key := op_Key op; so_Fields := option_map (fun p => JObj (patch_json p)) (op_Fields op);
     so_Text := op_Text op; so_Author := op_Author op |}.

Definition with_rev (rev : Z) (t : Task) : Task :=
  {| tk_Key := tk_Key t; tk_Title := tk_Title t; tk_Description := tk_Description t; tk_Notes := tk_Notes t;
     tk_Lane := tk_Lane t; tk_Status := tk_Status t; tk_Priority := tk_Priority t; tk_Type := tk_Type t;
     tk_Assignee := tk_Assignee t; tk_Labels := tk_Labels t; tk_BlockedBy := tk_BlockedBy t; tk_Rev := rev;
     tk_CreatedAt := tk_CreatedAt t; tk_UpdatedAt := tk_UpdatedAt t; tk_ClosedAt := tk_ClosedAt t |}.

Section Local.
Context `{UnicodeTables, UUIDLib, Authz, EventLib, TimeParser}.

(** ** Updates *)

Lemma apply_patched (p : patch) (t : task_row) (key : string) (rev : Z) (now : time) :
  p_CreatedAt p = None -> p_ClosedAt p = None ->
  patch_apply p (toTask key t) now = with_rev (wt_rev t) (toTask key (patched (fields_of p) None rev now t)).
Proof.
  intros Hc Hl. destruct p as [? ? ? s ? ? ? ? ? ? ?]. simpl in Hc, Hl. subst.
  unfold patch_apply, toTask, patched, with_rev. simpl. f_equal.
  destruct s as [s|]; [|done]. unfold closed_status, isClosed. destruct (_ || _); [|done]. by destruct (wt_closed_at t).
Qed.

Lemma update_row (pid : uuid) (proj : project_row) (key : string) (f : TaskFields) (note : option string) (now : time)
    (d d' : wdb) (row : task_row) :
  patchTask pid proj key f note now d = (d', Ok row) ->
  exists t, w_tasks d !! (pid, key) = Some t /\ row = patched f note (w_seq d + 1) now t /\
            w_tasks d' = <[(pid, key) := row]> (w_tasks d) /\ w_seq d' = (w_seq d + 1)%Z.
Proof.
  unfold patchTask. destruct (_ && _); [done|]. unfold UpdateWorkTask. cbv zeta. destruct (_ || _); [done|].
  destruct (w_tasks d !! (pid, key)) as [t|]; [|done]. destruct (negb _); [done|]. destruct (negb _); [done|].
  destruct (task_checks _ _); [done|]. intros [= <- <-]. by exists t.
Qed.

(** What the server decodes is what the client meant.  The fields of a
    create operation, encoded by the client with only the fields that were set,
    decode on the server to the same fields and timestamps; those of an update
    decode to the same fields. *)
Theorem wire_roundtrip (p : patch) :
  wire_safe p ->
  decodeStrict createFields_fields (so_Fields (to_server (create_op "" p))) =
    Ok (Build_createFields (fields_of p) (p_CreatedAt p) (p_ClosedAt p)) /\
  (p_CreatedAt p = None -> p_ClosedAt p = None ->
   decodeFields (so_Fields (to_server (update_op "" p))) = Ok (fields_of p)).
Proof. intros Hp. split; [by apply decode_create|by apply decode_update]. Qed.

(** A local update shows what the server will store.  When the server accepts
    an update whose fields are already in normal form, at the same time, the task
    the client keeps is the one the server stored, up to its revision; closing and
    reopening stamp [closed_at] alike. *)
Theorem local_update_agrees (pid : uuid) (proj : project_row) (issuer : uuid) (key : string) (p : patch)
    (clock now : time) (d d' : wdb) (t : task_row) :
  wire_safe p -> p_CreatedAt p = None -> p_ClosedAt p = None ->
  normalizeFields (fields_of p) = Ok (fields_of p) ->
  w_tasks d !! (pid, key) = Some t ->
  runOp pid proj issuer (to_server (update_op key p)) clock now d = (d', Ok tt) ->
  exists t', w_tasks d' !! (pid, key) = Some t' /\
             patch_apply p (toTask key t) now = with_rev (wt_rev t) (toTask key t').
Proof.
  intros Hw Hc Hl Hn Ht Hr. unfold runOp in Hr.
  change (so_Op (to_server (update_op key p))) with "update" in Hr.
  change (so_Key (to_server (update_op key p))) with key in Hr.
  change (so_Fields (to_server (update_op key p))) with (Some (JObj (patch_json p))) in Hr.
  change (String.eqb "update" "create") with false in Hr. change (String.eqb "update" "update") with true in Hr.
  cbv iota in Hr. destruct (negb (keyRe key)); [done|]. unfold update_fields in Hr. rewrite decode_update in Hr by done.
  cbn [result_bind] in Hr. rewrite Hn in Hr.
  apply bind_run in Hr as (d1 & f & Hf & Hr). injection Hf as <- <-.
  apply bind_run in Hr as (d2 & row & Hrow & Hr). injection Hr as <-.
  apply update_row in Hrow as (t0 & Ht0 & -> & Htasks & _). rewrite Ht in Ht0. injection Ht0 as <-.
  eexists. split; [rewrite Htasks; apply lookup_insert_eq|]. by apply apply_patched.
Qed.

(** ** Keys *)

Lemma newKey_from_spec (prefix : string) (tasks : gmap string Task) (acc : list ascii) (entropy : list N) (key : string) :
  prefixRe prefix = true -> forallb alnum acc = true -> length acc < 6 ->
  newKey_from prefix tasks acc entropy = Ok key -> validKey key prefix = true /\ tasks !! key = None.
Proof.
  intros Hp. revert acc. induction entropy as [|b rest IH]; intros acc Hacc Hlen; [done|]. cbn [newKey_from]. cbv zeta.
  set (acc' := if (b <? 252)%N then acc ++ [base36 (b mod 36)] else acc).
  assert (Hacc' : forallb alnum acc' = true /\ length acc' <= 6).
  { unfold acc'. destruct (b <? 252)%N; [|split; [done|lia]]. rewrite forallb_app, length_app. simpl. split; [|lia].
    rewrite Hacc, base36_alnum; [done|]. apply N.mod_lt. lia. }
  destruct Hacc' as [Hal Hle]. destruct (Nat.ltb_spec (length acc') 6) as [Hlt|Hge]; [by apply IH|].
  destruct (tasks !! (prefix +:+ "-" +:+ of_bytes acc')) as [t|] eqn:Ht; [apply IH; [done|simpl; lia]|]. intros [= <-]. split; [|done].
  apply make_key_valid; [done|done|lia].
Qed.

Lemma sanitize_spec (l acc : list ascii) :
  length acc < 8 -> (acc = [] \/ prefixRe (of_bytes acc) = true) ->
  sanitize_from acc l = [] \/ prefixRe (of_bytes (sanitize_from acc l)) = true.
Proof.
  revert acc. induction l as [|c l IH]; intros acc Hlen Hacc; simpl; [done|].
  set (acc' := if is_lower c || (Nat.ltb 0 (length acc) && is_digit c) then acc ++ [c] else acc).
  assert (Hacc' : acc' = [] \/ prefixRe (of_bytes acc') = true).
  { unfold acc'. destruct (is_lower c || _) eqn:Hc; [|done]. right. unfold prefixRe in *. rewrite bytes_of_bytes in *.
    destruct acc as [|a acc]; cbn [app forallb length] in *.
    - simpl in Hc. rewrite orb_false_r in Hc. by rewrite Hc.
    - destruct Hacc as [?|Hacc]; [done|]. to_prop. rewrite forallb_app. cbn [forallb]. rewrite !andb_true_iff.
      assert (Hal : alnum c = true).
      { unfold alnum. apply orb_true_iff in Hc as [Hc|Hc]; [by rewrite Hc|]. simpl in Hc. by rewrite Hc, orb_true_r. }
      split_and!; try done. apply Nat.leb_le. rewrite length_app. simpl. lia. }
  assert (Hlen' : length acc' <= 8) by (unfold acc'; case_match; rewrite ?length_app; simpl; lia).
  destruct (Nat.eqb_spec (length acc') 8) as [|Hne]; [done|]. apply IH; [lia|done].
Qed.

Lemma sanitizePrefix_ok (name : string) : prefixRe (sanitizePrefix name) = true.
Proof.
  unfold sanitizePrefix. destruct (sanitize_spec (bytes (ToLower name)) []) as [He|He]; [simpl; lia|by left| |].
  - by rewrite He.
  - by destruct (sanitize_from [] (bytes (ToLower name))).
Qed.

(** The keys the client makes are good ones.  With a well-formed prefix, in
    particular the one derived from any directory name, a new key passes the
    server's key check for that prefix and is not the key of a task the client
    knows. *)
Theorem newKey_valid (name prefix : string) (tasks : gmap string Task) (entropy : list N) (key : string) :
  prefix = sanitizePrefix name \/ prefixRe prefix = true -> newKey prefix tasks entropy = Ok key ->
  validKey key prefix = true /\ tasks !! key = None.
Proof.
  intros Hp. assert (Hpre : prefixRe prefix = true) by (destruct Hp as [->|?]; [apply sanitizePrefix_ok|done]).
  by apply newKey_from_spec; [|simpl|simpl; lia].
Qed.

Lemma elem_of_matches (abbr key : string) (tasks : gmap string Task) :
  key ∈ List.filter (abbreviates abbr) (map fst (map_to_list tasks)) <->
  is_Some (tasks !! key) /\ abbreviates abbr key = true.
Proof.
  rewrite list_elem_of_In, filter_In, <- list_elem_of_In. unfold is_Some. split.
  - intros [Hin Ha]. split; [|done]. apply list_elem_of_fmap in Hin as ([k t] & -> & Hin).
    exists t. by apply elem_of_map_to_list.
  - intros [[t Ht] Ha]. split; [|done]. apply list_elem_of_fmap. exists (key, t). split; [done|].
    by apply elem_of_map_to_list.
Qed.

(** An abbreviation never picks the wrong task.  [resolveKey] returns a key
    the client has, the input itself or the only one it abbreviates; reports not
    found only when no task matches; and calls it ambiguous only when at least two
    do. *)
Theorem resolveKey_sound (tasks : gmap string Task) (input : string) :
  let abbr := ToLower (TrimSpace input) in
  let matches k := is_Some (tasks !! k) /\ abbr <> "" /\ abbreviates abbr k = true in
  match resolveKey tasks input with
  | Ok k => is_Some (tasks !! k) /\ (k = abbr \/ (tasks !! abbr = None /\ forall k', matches k' <-> k' = k))
  | Err (not_found _) => tasks !! abbr = None /\ forall k', ~ matches k'
  | Err (usage _) => tasks !! abbr = None /\ exists k1 k2, k1 <> k2 /\ matches k1 /\ matches k2
  | Err (failure _) => False
  end.
Proof.
  cbv zeta. unfold resolveKey. set (abbr := ToLower (TrimSpace input)).
  destruct (tasks !! abbr) as [t|] eqn:Ht; [split; [by exists t|by left]|].
  destruct (String.eqb_spec abbr "") as [He|Hne]; [split; [done|]; by intros k' (_ & ? & _)|].
  pose proof (fun k => elem_of_matches abbr k tasks) as Hm.
  assert (Hnd : NoDup (List.filter (abbreviates abbr) (map fst (map_to_list tasks)))).
  { assert (Hall : NoDup (map fst (map_to_list tasks))) by apply NoDup_fst_map_to_list.
    rewrite NoDup_ListNoDup in *. by apply List.NoDup_filter. }
  destruct (List.filter _ _) as [|k1 [|k2 rest]].
  - split; [done|]. intros k' (Hk & _ & Ha). by apply (not_elem_of_nil k'), Hm.
  - assert (Hk1 : is_Some (tasks !! k1) /\ abbreviates abbr k1 = true) by (apply Hm; left).
    split; [by destruct Hk1|]. right. split; [done|]. intros k'. split.
    + intros (Hk & _ & Ha). assert (Hin : k' ∈ [k1]) by by apply Hm. by apply list_elem_of_singleton in Hin.
    + intros ->. by destruct Hk1.
  - split; [done|]. exists k1, k2. apply NoDup_cons in Hnd as [Hn _].
    destruct (proj1 (Hm k1)) as [? ?]; [left|]. destruct (proj1 (Hm k2)) as [? ?]; [right; left|].
    split_and!; try done. intros ->. apply Hn. left.
Qed.

(** ** Views *)

#[local] Instance task_before_trans : Transitive task_before.
Proof.
  intros x y z. unfold task_before, text_le. intros Hxy Hyz.
  destruct Hxy as [?|[? [?|[? Hk1]]]], Hyz as [?|[? [?|[? Hk2]]]]; try (left; lia); right; split; try lia;
    try (left; lia). right. split; [lia|]. by eapply bytes_le_trans.
Qed.
#[local] Instance task_before_total : Total task_before.
Proof.
  intros x y. unfold task_before, text_le. pose proof (bytes_le_total (bytes (tk_Key x)) (bytes (tk_Key y))) as Htot.
  destruct (Z.lt_trichotomy (tk_Priority x) (tk_Priority y)) as [?|[?|?]]; [left; lia| |right; lia].
  destruct (Z.lt_trichotomy (tk_CreatedAt x) (tk_CreatedAt y)) as [?|[?|?]]; [left; lia| |right; lia].
  destruct Htot as [Hk|Hk]; [left|right]; right; (split; [lia|]); right; (split; [lia|done]).
Qed.

Lemma elem_of_filterTasks (st : State) (keep : Task -> bool) (t : Task) :
  t ∈ filterTasks st keep <-> (exists k, st_Tasks st !! k = Some t) /\ keep t = true.
Proof.
  unfold filterTasks. rewrite merge_sort_Permutation. rewrite list_elem_of_In, filter_In, <- list_elem_of_In. split.
  - intros [Hin Hk]. split; [|done]. apply list_elem_of_fmap in Hin as ([k u] & -> & Hin).
    exists k. by apply elem_of_map_to_list.
  - intros [[k Hk] Hkeep]. split; [|done]. apply list_elem_of_fmap. exists (k, t). split; [done|].
    by apply elem_of_map_to_list.
Qed.

Lemma no_blockers (st : State) (t : Task) :
  length (unresolvedBlockers st t) = 0 <->
  forall b, b ∈ tk_BlockedBy t -> exists u, st_Tasks st !! b = Some u /\ isClosed (tk_Status u) = true.
Proof.
  unfold unresolvedBlockers. induction (tk_BlockedBy t) as [|k l IH]; simpl.
  - split; [|done]. by intros _ b ?%not_elem_of_nil.
  - destruct (st_Tasks st !! k) as [u|] eqn:Hk; [destruct (isClosed (tk_Status u)) eqn:Hc|]; simpl.
    + rewrite IH. split.
      * intros Hall b Hb. apply elem_of_cons in Hb as [->|Hb]; [by exists u|by apply Hall].
      * intros Hall b Hb. apply Hall. by right.
    + split; [done|]. intros Hall. destruct (Hall k) as (u' & Hu & Hcl); [left|]. congruence.
    + split; [done|]. intros Hall. destruct (Hall k) as (u' & Hu & Hcl); [left|]. congruence.
Qed.

(** The pick-up list holds exactly the tasks an agent can start: those in the
    agent lane, to do, with every blocker known and closed, in the order of
    priority, age and key. *)
Theorem readyTasks_exact (st : State) :
  StronglySorted task_before (readyTasks st) /\
  forall t, t ∈ readyTasks st <->
    (exists k, st_Tasks st !! k = Some t) /\ tk_Lane t = "agent" /\ tk_Status t = "todo" /\
    forall b, b ∈ tk_BlockedBy t -> exists u, st_Tasks st !! b = Some u /\ isClosed (tk_Status u) = true.
Proof.
  split; [apply StronglySorted_merge_sort; apply _|]. intros t. unfold readyTasks.
  rewrite elem_of_filterTasks, !andb_true_iff, !String.eqb_eq, Nat.eqb_eq, no_blockers. tauto.
Qed.
End Local.
