(* ===== verification/MfConverge.v ===== *)
(** * The client and the server together

    The client's rounds run against the server's [Sync], with arbitrary requests
    of other clients and operators between them.  A client is [tracking] the
    server when, apart from the tasks with operations still in its outbox, its
    cache agrees with every task up to its cursor and has no task the server does
    not have.  Local commands and accepted syncs keep it so, and a sync that ends
    without refusals leaves an exact copy. *)

From S2P Require Import Prelude GoStrings GoTime GoJson AutoGraph Concrete AutoStore AutoService AutoEvents AutoDemo.
From S2P Require Import WorkFields WorkFieldsFacts WorkKeyFacts WorkBoard WorkSync WorkFacts WorkOps WorkSafety.
From S2P Require Import WorkPull WorkTheorems MfClient MfFacts MfLocal.
From stdpp Require Import sorting.
#[local] Open Scope go_scope.
#[local] Open Scope stmt_scope.

Section Converge.
Context `{UnicodeTables, UUIDLib, Authz, EventLib, TimeParser}.
Variable a : TokenAuth.

(** ** The server as the client sees it *)

Definition of_server (r : SyncResponse) : syncResponse :=
  {| rs_Rev := sy_Rev r; rs_Project := Some (sy_Project r); rs_Tasks := sy_Tasks r; rs_Results := sy_Results r;
     rs_More := sy_More r |}.

(** What happens between two rounds: other requests, then Go's clock and the
    database's time of this one. *)
Record interval := { iv_requests : list (request * time); iv_clock : time; iv_now : time }.

Definition server (rq : syncRequest) (s : wdb * list interval) : (wdb * list interval) * result string syncResponse :=
  match snd s with
  | [] => (s, Err "no answer")
  | iv :: rest =>
      match Sync a {| sr_Since := rq_Since rq; sr_Ops := map to_server (rq_Ops rq) |} (iv_clock iv) (iv_now iv)
              (serve_all (iv_requests iv) (fst s)) with
      | (d', Ok r) => ((d', rest), Ok (of_server r))
      | (d', Err _) => ((d', rest), Err "server error")
      end
  end.

(** ** Tracking *)

Definition server_task (d : wdb) (key : string) (t : task_row) : Prop :=
  w_tasks d !! (ta_ProjectID a, key) = Some t /\ wt_root t = ta_TenantRootID a.

Record mirror (dirty : gset string) (d : wdb) (st : State) : Prop := {
  mi_tasks : forall key t, server_task d key t -> (wt_rev t <= st_Cursor st)%Z -> key ∉ dirty ->
             st_Tasks st !! key = Some (toTask key t);
  mi_known : forall key c, st_Tasks st !! key = Some c -> key ∉ dirty -> exists t, server_task d key t;
  mi_cursor : (st_Cursor st <= w_seq d)%Z
}.

Definition outbox_keys (l : list Op) : gset string := list_to_set (map op_Key l).
Definition tracking (d : wdb) (st : State) : Prop := mirror (outbox_keys (st_Outbox st)) d st.

Lemma elem_of_outbox_keys (key : string) (l : list Op) : key ∈ outbox_keys l <-> exists op, op ∈ l /\ op_Key op = key.
Proof.
  unfold outbox_keys. rewrite elem_of_list_to_set, list_elem_of_fmap. split; intros (op & ? & ?); exists op; by split.
Qed.

(** Other transactions keep the mirror. *)
Lemma mirror_history (dirty : gset string) (d d' : wdb) (st : State) :
  history everywhere d d' -> mirror dirty d st -> mirror dirty d' st.
Proof.
  intros Hh [Ht Hk Hc]. constructor.
  - intros key t [Hl Hr] Hrev Hd. destruct (hi_new _ _ _ Hh _ _ Hl) as [Hl'|Hnew]; [by apply Ht|lia].
  - intros key c Hcache Hd. destruct (Hk key c Hcache Hd) as (t & Hl & Hr).
    destruct (hi_tasks _ _ _ Hh _ _ Hl) as (t' & Hl' & [(_ & _ & Hroot & _) _]). exists t'. split; [done|congruence].
  - pose proof (hi_seq _ _ _ Hh). lia.
Qed.

(** ** Local commands *)

Lemma tracking_queue (d : wdb) (st : State) (op : Op) (t : Task) :
  tracking d st -> tracking d (queue (set_task st (op_Key op) t) op).
Proof.
  intros [Ht Hk Hc]. assert (Hkeys : forall key, key ∉ outbox_keys (st_Outbox st ++ [op]) ->
    key ∉ outbox_keys (st_Outbox st) /\ key <> op_Key op).
  { intros key Hn. split.
    - intros Hin. apply Hn. apply elem_of_outbox_keys in Hin as (o & Ho & He). apply elem_of_outbox_keys.
      exists o. split; [|done]. apply elem_of_app. by left.
    - intros ->. apply Hn, elem_of_outbox_keys. exists op. split; [|done]. apply elem_of_app. right. by left. }
  constructor; simpl; [| |done].
  - intros key u Hu Hrev Hd. destruct (Hkeys key Hd) as [Hd' Hne]. rewrite lookup_insert_ne by done. by apply Ht.
  - intros key c Hcache Hd. destruct (Hkeys key Hd) as [Hd' Hne]. rewrite lookup_insert_ne in Hcache by done.
    by eapply Hk.
Qed.

Inductive command :=
| CCreate (cfg_KeyPrefix : string) (p : patch) (entropy : list N)
| CUpdate (input : string) (p : patch)
| CClaim (input actor : string)
| CReopen (input : string)
| CNote (input text actor : string)
| CClose (inputs : list string) (reason actor : string).

Definition run_command (c : command) (st : State) (now : time) : result cli_error State :=
  match c with
  | CCreate cfg p entropy => create cfg st p entropy now
  | CUpdate input p => update_task st input p now
  | CClaim input actor => claim_task st input actor now
  | CReopen input => reopen_task st input now
  | CNote input text actor => note_task st input text actor now
  | CClose inputs reason actor => close_tasks st inputs reason actor now
  end.

Lemma patch_tracking (d : wdb) (st st' : State) (input : string) (p : patch) (now : time) :
  tracking d st -> mf_patchTask st input p now = Ok st' -> tracking d st'.
Proof.
  intros Ht. unfold mf_patchTask. destruct (resolveKey _ _) as [key|e]; simpl; [|done].
  destruct (st_Tasks st !! key) as [t|]; [|done]. intros [= <-]. by apply (tracking_queue d st (update_op key p)).
Qed.

Lemma note_tracking (d : wdb) (st st' : State) (key text author : string) (now : time) :
  tracking d st -> addNoteAs st key text author now = Ok st' -> tracking d st'.
Proof.
  intros Ht. unfold addNoteAs. destruct (st_Tasks st !! key) as [t|]; [|done]. intros [= <-].
  by apply (tracking_queue d st (note_op key text author)).
Qed.

Lemma command_tracking (d : wdb) (c : command) (st st' : State) (now : time) :
  tracking d st -> run_command c st now = Ok st' -> tracking d st'.
Proof.
  intros Ht Hr. destruct c; simpl in Hr.
  - unfold create in Hr. apply bind_split in Hr as ([] & _ & Hr). apply bind_split in Hr as (key & _ & Hr).
    injection Hr as <-. by apply (tracking_queue d st (create_op key p)).
  - unfold update_task in Hr. apply bind_split in Hr as ([] & _ & Hr). by eapply patch_tracking.
  - by eapply patch_tracking.
  - by eapply patch_tracking.
  - unfold note_task in Hr. cbv zeta in Hr. destruct (String.eqb _ _); [done|].
    apply bind_split in Hr as (key & _ & Hr). by eapply note_tracking.
  - revert st Ht Hr. induction inputs as [|input inputs IH]; intros st Ht Hr; cbn [close_tasks] in Hr;
      [by injection Hr as <-|].
    apply bind_split in Hr as (key & _ & Hr). apply bind_split in Hr as (st1 & H1' & Hr).
    apply bind_split in Hr as (st2 & H2' & Hr). eapply IH; [|exact Hr]. eapply patch_tracking; [|exact H2'].
    destruct (String.eqb _ _); [by injection H1' as <-|by eapply note_tracking].
Qed.

(** ** One round *)

Lemma keep_tasks_lookup (l : list Task) (m : gmap string Task) (key : string) :
  keep_tasks m l !! key = m !! key \/ exists t, t ∈ l /\ tk_Key t = key /\ keep_tasks m l !! key = Some t.
Proof.
  revert m. induction l as [|t l IH]; intros m; simpl; [by left|].
  destruct (IH (<[tk_Key t := t]> m)) as [He|(u & Hu & Hk & He)].
  - destruct (decide (tk_Key t = key)) as [<-|Hne].
    + right. exists t. split_and!; [by left|done|]. by rewrite He, lookup_insert_eq.
    + left. by rewrite He, lookup_insert_ne.
  - right. exists u. split_and!; [by right|done|done].
Qed.

Lemma keep_tasks_member (l : list Task) (m : gmap string Task) (t : Task) :
  t ∈ l -> (forall u, u ∈ l -> tk_Key u = tk_Key t -> u = t) -> keep_tasks m l !! tk_Key t = Some t.
Proof.
  intros Hin Hu. revert m. induction l as [|u l IH]; intros m; [by apply not_elem_of_nil in Hin|]. simpl.
  apply elem_of_cons in Hin as [<-|Hl].
  - destruct (keep_tasks_lookup l (<[tk_Key t := t]> m) (tk_Key t)) as [->|(v & Hv & Hk & ->)].
    + apply lookup_insert_eq.
    + by rewrite (Hu v); [|right|].
  - apply IH; [done|]. intros v Hv. apply Hu. by right.
Qed.

(** The task of an operation that was applied carries a new revision. *)
Lemma runOp_writes (pid : uuid) (proj : project_row) (issuer : uuid) (op : SyncOp) (clock now : time) (d d' : wdb) :
  runOp pid proj issuer op clock now d = (d', Ok tt) ->
  exists t, w_tasks d' !! (pid, so_Key op) = Some t /\ (w_seq d < wt_rev t)%Z.
Proof.
  assert (Hup : forall f note d2 row, patchTask pid proj (so_Key op) f note now d = (d2, Ok row) ->
    exists t, w_tasks d2 !! (pid, so_Key op) = Some t /\ (w_seq d < wt_rev t)%Z).
  { intros f note d2 row Hp. apply update_row in Hp as (t0 & _ & -> & Hw & _). eexists.
    split; [rewrite Hw; apply lookup_insert_eq|]. simpl. lia. }
  unfold runOp. destruct (String.eqb _ _); [|destruct (String.eqb _ _); [|destruct (String.eqb _ _); [|done]]];
    (destruct (negb _); [done|]); intros Hr; apply bind_run in Hr as (d1 & v & Hv & Hr); injection Hv as <- _;
    apply bind_run in Hr as (d2 & row & Hrow & Hr); injection Hr as <-.
  - unfold insertTask, InsertWorkTask in Hrow. cbv zeta in Hrow. destruct (_ || _); [done|].
    destruct (negb _); [done|]. destruct (task_checks _ _); [done|]. destruct (w_tasks d !! _); [done|].
    injection Hrow as <- <-. eexists. split; [apply lookup_insert_eq|]. simpl. lia.
  - by eapply Hup.
  - by eapply Hup.
Qed.

Definition all_ok (rs : list OpResult) : Prop := List.filter (fun r => negb (or_OK r)) rs = [].

Lemma applyOps_write (pid : uuid) (proj : project_row) (issuer : uuid) (ops : list SyncOp) (clock now : time)
    (d d' : wdb) (rs : list OpResult) :
  has_project (pid, proj) d -> applyOps pid proj issuer ops clock now d = (d', Ok rs) -> all_ok rs ->
  forall op, op ∈ ops -> exists t, w_tasks d' !! (pid, so_Key op) = Some t /\ (w_seq d < wt_rev t)%Z.
Proof.
  revert d rs. induction ops as [|o ops IH]; intros d rs Hp Ha Hok op Hop; [by apply not_elem_of_nil in Hop|].
  simpl in Ha. apply bind_run in Ha as (d1 & r & Hr & Ha). apply bind_run in Ha as (d2 & rs' & Hrs & Ha).
  injection Ha as <- <-. unfold all_ok in Hok. simpl in Hok. destruct (or_OK r) eqn:Hro; [|done]. simpl in Hok.
  assert (Hr0 : runOp pid proj issuer o clock now d = (d1, Ok tt)).
  { unfold applyOp, savepoint in Hr. destruct (runOp pid proj issuer o clock now d) as [d3 [[]|e]].
    - by injection Hr as <- _.
    - destruct (opErrorMessage e); [|done]. injection Hr as _ <-. done. }
  destruct (keeps_runOp everywhere pid proj issuer o clock now I d Hp) as [Hh1 _]. rewrite Hr0 in Hh1. simpl in Hh1.
  assert (Hp1 : has_project (pid, proj) d1) by by eapply (has_project_stable everywhere).
  destruct (keeps_applyOps everywhere pid proj issuer ops clock now I d1 Hp1) as [Hh2 _]. rewrite Hrs in Hh2. simpl in Hh2.
  pose proof (hi_seq _ _ _ Hh1).
  apply elem_of_cons in Hop as [->|Hop].
  - apply runOp_writes in Hr0 as (t & Ht & Hrev). destruct (hi_tasks _ _ _ Hh2 _ _ Ht) as (t' & Ht' & _).
    exists t'. split; [done|]. destruct (hi_new _ _ _ Hh2 _ _ Ht') as [Hsame|Hnew]; [|lia].
    rewrite Ht in Hsame. by injection Hsame as <-.
  - destruct (IH d1 rs' Hp1 Hrs Hok op Hop) as (t & Ht & Hrev). exists t. split; [done|lia].
Qed.

(** What a round leaves. *)
Record round_result (d d' : wdb) (st' : State) (dirty : gset string) : Prop := {
  rr_history : history everywhere d d';
  rr_mirror : mirror dirty d' st';
  rr_project : exists proj, w_projects d' !! ta_ProjectID a = Some proj /\ wp_root proj = ta_TenantRootID a;
  rr_caught_up : length (project_tasks d' (ta_ProjectID a) (ta_TenantRootID a)) <= maxSyncTasks ->
                 forall key t, server_task d' key t -> (wt_rev t <= st_Cursor st')%Z
}.

Lemma task_root (d : wdb) (proj : project_row) (key : string) (t : task_row) :
  board_ok d -> w_projects d !! ta_ProjectID a = Some proj -> wp_root proj = ta_TenantRootID a ->
  w_tasks d !! (ta_ProjectID a, key) = Some t -> server_task d key t.
Proof.
  intros Hb Hp Hr Ht. split; [done|]. destruct (to_project _ _ _ _ (bo_tasks _ Hb _ _ _ Ht)) as (p & Hp' & Hroot & _).
  rewrite Hp in Hp'. injection Hp' as <-. congruence.
Qed.

(** The tasks of the answer, kept in the cache. *)
Lemma keep_page (d : wdb) (page : list (string * task_row)) (m : gmap string Task) (key : string) :
  (forall k t, (k, t) ∈ page -> server_task d k t) ->
  let m' := keep_tasks m (map (fun x => toTask (fst x) (snd x)) page) in
  (exists t, (key, t) ∈ page /\ m' !! key = Some (toTask key t)) \/
  ((forall t, (key, t) ∉ page) /\ m' !! key = m !! key).
Proof.
  intros Hpage. cbv zeta. set (l := map _ page).
  assert (Hl : forall u, u ∈ l -> exists t, (tk_Key u, t) ∈ page /\ u = toTask (tk_Key u) t).
  { intros u Hu. apply list_elem_of_fmap in Hu as ([k t] & -> & Hin). by exists t. }
  destruct (keep_tasks_lookup l m key) as [Hsame|(u & Hu & <- & Hkeep)].
  - destruct (decide (Exists (fun x => fst x = key) page)) as [He|Hne].
    + left. apply Exists_exists in He as ([k t] & Hin & Hk). simpl in Hk. subst k. exists t. split; [done|].
      apply (keep_tasks_member l m (toTask key t)).
      * apply list_elem_of_fmap. by exists (key, t).
      * intros u Hu Hk. destruct (Hl u Hu) as (t' & Hin' & ->). simpl in *. subst.
        destruct (Hpage _ _ Hin) as [H1' _]. destruct (Hpage _ _ Hin') as [H2' _]. simpl in H2'. congruence.
    + right. split; [|done]. intros t Hin. apply Hne, Exists_exists. by exists (key, t).
  - left. destruct (Hl u Hu) as (t & Hin & He). exists t. split; [done|]. by rewrite Hkeep, He at 1.
Qed.

Lemma round_mirror (dirty : gset string) (d d' : wdb) (st st0 : State) (batch : list Op) (resp : SyncResponse)
    (clock now : time) :
  board_ok d -> mirror dirty d st -> st_Cursor st0 = st_Cursor st -> st_Tasks st0 = st_Tasks st ->
  Sync a {| sr_Since := st_Cursor st; sr_Ops := map to_server batch |} clock now d = (d', Ok resp) ->
  all_ok (sy_Results resp) ->
  round_result d d' (applyResponse st0 (of_server resp)) (dirty ∖ outbox_keys batch).
Proof.
  intros Hb Hm Hcur Htk Hs Hok.
  assert (Hh : history everywhere d d').
  { replace d' with (fst (d', @Ok werror _ resp)) by done. rewrite <- Hs. by apply Sync_history. }
  assert (Hb' : board_ok d') by by apply Hh.
  pose proof (Sync_parts _ _ _ _ _ _ _ Hs) as [_ (proj & d1 & Hproj & Hroot & _ & Hops & Htasks1) (page & Hpull & Htasks)].
  simpl in Hops, Hpull. pose proof (pull_spec d' (ta_ProjectID a) (ta_TenantRootID a) (st_Cursor st) Hb') as Hspec.
  rewrite Hpull in Hspec. destruct Hspec as [Hrows _ Hall [Hprog _] Hlast].
  assert (Hproj' : w_projects d' !! ta_ProjectID a = Some proj) by (eapply lookup_weaken; [exact Hproj|apply Hh]).
  pose proof (mirror_history dirty d d' st Hh Hm) as Hm'. pose proof (mi_cursor _ _ _ Hm) as Hseq.
  assert (Hpage : forall k t, (k, t) ∈ page -> server_task d' k t) by (intros k t Hin; apply Hrows in Hin as (? & ? & _); done).
  assert (Hsent : forall key, key ∈ outbox_keys batch -> exists t, server_task d' key t /\ (st_Cursor st < wt_rev t)%Z).
  { intros key Hk. apply elem_of_outbox_keys in Hk as (op & Hop & <-).
    destruct (applyOps_write _ _ _ _ _ _ _ _ _ Hproj Hops Hok (to_server op)) as (t & Ht & Hrev).
    { apply list_elem_of_fmap. by exists op. }
    exists t. split; [|lia]. eapply task_root; [done|exact Hproj'|done|]. by rewrite Htasks1. }
  assert (Hnew : st_Cursor (applyResponse st0 (of_server resp)) = sy_Rev resp) by (simpl; lia).
  assert (Hclean : forall key, key ∉ dirty ∖ outbox_keys batch -> key ∉ dirty \/ key ∈ outbox_keys batch)
    by (intros key; rewrite elem_of_difference; destruct (decide (key ∈ outbox_keys batch)); [by right|left; naive_solver]).
  constructor; [done| |by exists proj|].
  - constructor; rewrite ?Hnew.
    + intros key t Ht Hrev Hd. simpl. rewrite Htasks, Htk.
      destruct (keep_page d' page (st_Tasks st) key Hpage) as [(u & Hu & ->)|[Hnone ->]].
      * destruct (Hpage _ _ Hu) as [Hu' _]. destruct Ht as [Ht _]. congruence.
      * assert (Hold : (wt_rev t <= st_Cursor st)%Z).
        { destruct (Z.le_gt_cases (wt_rev t) (st_Cursor st)); [done|]. exfalso. apply (Hnone t), Hrows.
          destruct Ht. split_and!; try done; lia. }
        apply (mi_tasks _ _ _ Hm'); [done|done|]. destruct (Hclean key Hd) as [?|Hk]; [done|].
        destruct (Hsent key Hk) as (u & [Hu _] & Hgt). destruct Ht as [Ht _]. rewrite Ht in Hu. injection Hu as <-. lia.
    + intros key c Hcache Hd. simpl in Hcache. rewrite Htasks, Htk in Hcache.
      destruct (Hclean key Hd) as [Hnd|Hk]; [|destruct (Hsent key Hk) as (u & Hu & _); by exists u].
      destruct (keep_page d' page (st_Tasks st) key Hpage) as [(u & Hu & _)|[_ He]]; [exists u; by apply Hpage|].
      rewrite He in Hcache. by apply (mi_known _ _ _ Hm' key c).
    + destruct Hlast as [->|(k & t & Hin & <-)]; [pose proof (hi_seq _ _ _ Hh); lia|].
      destruct (Hpage k t Hin) as [Ht _]. by apply (to_rev _ _ _ _ (bo_tasks _ Hb' _ _ _ Ht)).
  - intros Hfit key t [Ht Hr]. rewrite Hnew. pose proof (pull_fits _ _ _ _ _ _ _ Hpull Hfit) as Hmore.
    destruct (Z.le_gt_cases (wt_rev t) (st_Cursor st)); [lia|]. by eapply Hall.
Qed.

(** ** All rounds *)

Lemma mirror_weaken (dirty dirty' : gset string) (d : wdb) (st : State) :
  dirty ⊆ dirty' -> mirror dirty d st -> mirror dirty' d st.
Proof.
  intros Hs [Ht Hk Hc]. constructor; [| |done].
  - intros key t Hst Hrev Hd. apply Ht; [done|done|set_solver].
  - intros key c Hcache Hd. apply (Hk key c); [done|set_solver].
Qed.

Lemma mirror_same (dirty : gset string) (d : wdb) (st st' : State) :
  st_Cursor st' = st_Cursor st -> st_Tasks st' = st_Tasks st -> mirror dirty d st -> mirror dirty d st'.
Proof. intros Hc Ht [H1' H2' H3']. constructor; rewrite ?Hc, ?Ht; done. Qed.

Lemma outbox_keys_app (l k : list Op) : outbox_keys (l ++ k) = outbox_keys l ∪ outbox_keys k.
Proof. unfold outbox_keys. by rewrite map_app, list_to_set_app_L. Qed.

Lemma failed_grows {Srv : Type} (post : syncRequest -> Srv -> Srv * result string syncResponse) (fuel pulls : nat)
    (s s' : Srv) (st st' : State) (sum sum' : syncSummary) (err : option string) :
  syncRounds post fuel pulls s st sum = Some (s', st', sum', err) -> (sum_failed sum <= sum_failed sum')%Z.
Proof.
  revert pulls s st sum. induction fuel as [|fuel IH]; intros pulls s st sum; [done|]. cbn [syncRounds].
  destruct (post _ s) as [s1 [resp|e]]; cbv zeta; [|by intros [= <- <- <- <-]].
  assert (Hstep : (sum_failed sum <= sum_failed (summarize sum (nextBatch (st_Outbox st)) resp
            (applyResponse (drop_sent st (length (nextBatch (st_Outbox st)))) resp)))%Z) by (simpl; lia).
  repeat case_match; intros Hr; try (apply IH in Hr; lia). by injection Hr as <- <- <- <-.
Qed.

(** The client after a completed sync, all of whose operations were accepted. *)
Record in_step (d : wdb) (st : State) : Prop := {
  is_ok : board_ok d;
  is_tracking : tracking d st;
  is_empty : st_Outbox st = [];
  is_project : exists proj, w_projects d !! ta_ProjectID a = Some proj /\ wp_root proj = ta_TenantRootID a;
  is_caught_up : length (project_tasks d (ta_ProjectID a) (ta_TenantRootID a)) <= maxSyncTasks ->
                 forall key t, server_task d key t -> (wt_rev t <= st_Cursor st)%Z
}.

Lemma rounds_in_step (fuel pulls : nat) (s s' : wdb * list interval) (st st' : State) (sum sum' : syncSummary) :
  board_ok (fst s) -> tracking (fst s) st ->
  syncRounds server fuel pulls s st sum = Some (s', st', sum', None) -> sum_failed sum' = sum_failed sum ->
  in_step (fst s') st'.
Proof.
  revert pulls s st sum. induction fuel as [|fuel IH]; intros pulls s st sum Hb Ht Hr Hf; [done|].
  cbn [syncRounds] in Hr. unfold server at 1 in Hr. cbn [rq_Since rq_Ops] in Hr.
  destruct (snd s) as [|iv rest]; [done|].
  set (d0 := serve_all (iv_requests iv) (fst s)) in *.
  destruct (Sync a _ (iv_clock iv) (iv_now iv) d0) as [d' [resp|e]] eqn:Hs; [|done]. cbv zeta in Hr.
  pose proof (serve_all_history (iv_requests iv) (fst s)) as Hh0. fold d0 in Hh0.
  assert (Hb0 : board_ok d0) by by apply Hh0. pose proof (mirror_history _ _ _ _ Hh0 Ht) as Hm0.
  destruct (nextBatch_split (st_Outbox st)) as (left & Hsplit & Hdrop).
  set (batch := nextBatch (st_Outbox st)) in *. set (st0 := drop_sent st (length batch)) in *.
  set (st1 := applyResponse st0 (of_server resp)) in *. set (sum1 := summarize sum batch (of_server resp) st1) in *.
  assert (Hgrow : (sum_failed sum1 <= sum_failed sum')%Z).
  { destruct (Nat.ltb 0 _); [by eapply failed_grows|]. destruct (_ || _); [by injection Hr as _ _ <-|by eapply failed_grows]. }
  assert (Hok : all_ok (sy_Results resp)).
  { unfold all_ok. subst sum1. simpl in Hgrow. destruct (List.filter _ _); [done|]. simpl in Hgrow. lia. }
  destruct (round_mirror _ _ _ st st0 batch resp _ _ Hb0 Hm0 eq_refl eq_refl Hs Hok) as [Hh Hm Hp Hc]. fold st1 in Hm, Hc.
  assert (Hout : st_Outbox st1 = left) by (simpl; exact Hdrop).
  assert (Ht1 : tracking d' st1).
  { unfold tracking. rewrite Hout. eapply mirror_weaken; [|exact Hm]. rewrite Hsplit at 1. rewrite outbox_keys_app. set_solver. }
  assert (Hb1 : board_ok d') by by apply Hh.
  assert (Hf1 : sum_failed sum' = sum_failed sum1).
  { subst sum1. simpl. unfold all_ok in Hok. rewrite Hok. simpl. lia. }
  destruct (Nat.ltb_spec 0 (length (st_Outbox st1))) as [Hpos|Hzero]; [by eapply (IH pulls (d', rest))|].
  destruct (_ || _); [|by eapply (IH (S pulls) (d', rest))]. injection Hr as <- <- _.
  constructor; try done. rewrite Hout in *. destruct left; [done|simpl in Hzero; lia].
Qed.

(** C33: client and server converge.  Start from a client that tracks the server
    (its cache agrees with the server up to its cursor, apart from the tasks its
    outbox touches), make any local changes, and let other clients and operators
    change the board between the rounds: a sync that completes with every
    operation accepted empties the outbox and leaves the client with an exact copy
    of the project, when the project fits in one page. *)
Theorem sync_converges (cs : list (command * time)) (fuel : nat) (d d' : wdb) (ivs ivs' : list interval)
    (st st1 st' : State) (sum sum' : syncSummary) :
  board_ok d -> tracking d st ->
  foldl (fun r c => result_bind r (fun st => run_command (fst c) st (snd c))) (Ok st) cs = Ok st1 ->
  syncRounds server fuel 0 (d, ivs) st1 sum = Some ((d', ivs'), st', sum', None) -> sum_failed sum' = sum_failed sum ->
  length (project_tasks d' (ta_ProjectID a) (ta_TenantRootID a)) <= maxSyncTasks ->
  st_Outbox st' = [] /\
  forall key, st_Tasks st' !! key = option_map (toTask key) (w_tasks d' !! (ta_ProjectID a, key)).
Proof.
  intros Hb Ht Hcs Hr Hf Hfit.
  assert (Ht1 : tracking d st1).
  { revert st Ht Hcs. induction cs as [|[c now] cs IH]; intros st Ht Hcs; simpl in Hcs; [by injection Hcs as <-|].
    destruct (run_command c st now) as [st2|e] eqn:Hc; [eapply IH; [|exact Hcs]; by eapply command_tracking|].
    exfalso. clear -Hcs. induction cs as [|c cs IH]; simpl in Hcs; [done|by apply IH]. }
  destruct (rounds_in_step fuel 0 (d, ivs) (d', ivs') st1 st' sum sum' Hb Ht1 Hr Hf) as [Hb' Htr He (proj & Hp & Hroot) Hc].
  simpl in *. specialize (Hc Hfit). split; [done|]. intros key. unfold tracking in Htr. rewrite He in Htr.
  assert (Hnd : forall k, k ∉ outbox_keys []) by (intros k; apply not_elem_of_empty).
  destruct (w_tasks d' !! (ta_ProjectID a, key)) as [t|] eqn:Hl; simpl.
  - pose proof (task_root d' proj key t Hb' Hp Hroot Hl) as Hst. by apply (mi_tasks _ _ _ Htr); [|apply (Hc key)|].
  - destruct (st_Tasks st' !! key) as [c|] eqn:Hcache; [|done].
    destruct (mi_known _ _ _ Htr key c Hcache (Hnd key)) as (t & Ht' & _). congruence.
Qed.
End Converge.
