(* ===== verification/MfDemo.v ===== *)
(** * Runs of the [mf] client

    Concrete inputs for the theorems about the client: a client with an empty
    cache creates a task and syncs with the board of [WorkTheorems]. *)

From S2P Require Import Prelude GoStrings GoTime GoJson AutoGraph Concrete AutoStore AutoService AutoEvents AutoDemo.
From S2P Require Import WorkFields WorkFieldsFacts WorkKeyFacts WorkBoard WorkSync WorkFacts WorkOps WorkSafety.
From S2P Require Import WorkPull WorkTheorems MfClient MfFacts MfLocal MfConverge.
From stdpp Require Import sorting.
#[local] Open Scope go_scope.

Definition mf_clock : TimeParser := {| parse_RFC3339 := fun s => if String.eqb s "time" then Some 0%Z else None |}.
#[local] Existing Instances demo_unicode demo_uuid demo_authz demo_events mf_clock.

Definition mf_patch : patch :=
  Build_patch (Some "Write docs") (Some "") (Some "agent") (Some "todo") (Some 2%Z) (Some "task") None (Some ["docs"])
    (Some []) None None.
Definition mf_start : State := {| st_Cursor := 0; st_Project := None; st_Tasks := ∅; st_Outbox := [] |}.
Definition mf_entropy : list N := [255; 36; 1; 2; 3; 4; 5]%N.
Definition mf_zero : syncSummary := Build_syncSummary 0 0 0 0 0.

Lemma start_tracking (d : wdb) : board_ok d -> tracking demo_auth d mf_start.
Proof.
  intros Hb. constructor; simpl.
  - intros key t [Ht _] Hrev. pose proof (to_rev _ _ _ _ (bo_tasks _ Hb _ _ _ Ht)). lia.
  - intros key c. by rewrite lookup_empty.
  - apply (bo_seq _ Hb).
Qed.

Definition mf_created : State :=
  match run_command (CCreate "mf" mf_patch mf_entropy) mf_start 0%Z with Ok st => st | Err _ => mf_start end.

(** A server that answers every request with nothing new. *)
Definition quiet (rq : syncRequest) (n : nat) : nat * result string syncResponse :=
  (S n, Ok {| rs_Rev := rq_Since rq; rs_Project := None; rs_Tasks := []; rs_Results := []; rs_More := false |}).

Lemma syncRounds_no_loss_witness :
  exists log st' sum', syncRounds (logged quiet) 5 0 (0, []) mf_created mf_zero = Some (1, log, st', sum', None) /\
    acknowledged log ++ st_Outbox st' = st_Outbox mf_created.
Proof.
  destruct (syncRounds (logged quiet) 5 0 (0, []) mf_created mf_zero) as [[[[[n log] st'] sum'] err]|] eqn:Hr;
    [|vm_compute in Hr; discriminate].
  assert (Hn : match syncRounds (logged quiet) 5 0 (0, []) mf_created mf_zero with
               | Some (m, _, _, _, e) => m = 1 /\ e = None | None => False end) by (vm_compute; split; reflexivity).
  rewrite Hr in Hn. destruct Hn as [-> ->]. exists log, st', sum'. split; [reflexivity|].
  exact (proj1 (syncRounds_no_loss quiet 5 0 1 log mf_created st' mf_zero sum' None Hr)).
Defined.

Definition mf_import : patch :=
  Build_patch (Some "Old bug") None None (Some "done") (Some 1%Z) None None None None (Some 0%Z) (Some 0%Z).

Lemma mf_import_safe : wire_safe mf_import.
Proof. constructor; intros x [= <-]; vm_compute; reflexivity. Qed.

Lemma wire_roundtrip_witness :
  decodeStrict createFields_fields (so_Fields (to_server (create_op "" mf_import))) =
    Ok (Build_createFields (fields_of mf_import) (Some 0%Z) (Some 0%Z)).
Proof. exact (proj1 (wire_roundtrip mf_import mf_import_safe)). Defined.

Definition mf_close : patch := status_patch "done" None.

Lemma mf_close_safe : wire_safe mf_close.
Proof. by constructor. Qed.

Lemma local_update_agrees_witness :
  exists d' t t', runOp 0 demo_project 7 (to_server (update_op "mf-123451" mf_close)) 0 Minute demo_board1 = (d', Ok tt) /\
    w_tasks d' !! (0%N, "mf-123451") = Some t' /\
    patch_apply mf_close (toTask "mf-123451" t) Minute = with_rev (wt_rev t) (toTask "mf-123451" t').
Proof.
  destruct (w_tasks demo_board1 !! (0%N, "mf-123451")) as [t|] eqn:Ht; [|vm_compute in Ht; discriminate].
  destruct (runOp 0 demo_project 7 (to_server (update_op "mf-123451" mf_close)) 0 Minute demo_board1) as [d' [[]|e]] eqn:Hr;
    [|vm_compute in Hr; discriminate].
  destruct (local_update_agrees 0 demo_project 7 "mf-123451" mf_close 0 Minute demo_board1 d' t mf_close_safe eq_refl eq_refl
              eq_refl Ht Hr) as (t' & Ht' & Ha).
  exists d', t, t'. split; [reflexivity|]. split; [exact Ht'|exact Ha].
Defined.

Lemma newKey_valid_witness :
  exists key, newKey (sanitizePrefix "Many-Forge 2") ∅ mf_entropy = Ok key /\ validKey key "manyforg" = true.
Proof.
  exists "manyforg-012345". split; [vm_compute; reflexivity|].
  apply (newKey_valid "Many-Forge 2" "manyforg" ∅ mf_entropy "manyforg-012345"); [left; vm_compute; reflexivity|].
  vm_compute. reflexivity.
Defined.

Definition mf_commands : list (command * time) := [(CCreate "mf" mf_patch mf_entropy, 0%Z)].
Definition mf_intervals : list interval := [{| iv_requests := []; iv_clock := 0; iv_now := Minute |}].

Lemma sync_converges_witness :
  exists d' ivs' st' sum', syncRounds (server demo_auth) 25 0 (demo_board1, mf_intervals) mf_created mf_zero =
      Some ((d', ivs'), st', sum', None) /\
    size (st_Tasks st') = 2 /\ st_Outbox st' = [] /\
    forall key, st_Tasks st' !! key = option_map (toTask key) (w_tasks d' !! (0%N, key)).
Proof.
  destruct (syncRounds (server demo_auth) 25 0 (demo_board1, mf_intervals) mf_created mf_zero)
    as [[[[[d' ivs'] st'] sum'] err]|] eqn:Hr; [|vm_compute in Hr; discriminate].
  assert (Hn : match syncRounds (server demo_auth) 25 0 (demo_board1, mf_intervals) mf_created mf_zero with
               | Some ((d', _), st', sum', e) =>
                   e = None /\ sum_failed sum' = 0%Z /\ length (project_tasks d' 0 1) = 2 /\ size (st_Tasks st') = 2
               | None => False end) by (vm_compute; repeat split; reflexivity).
  rewrite Hr in Hn. destruct Hn as (-> & Hf & Hlen & Hsize).
  assert (Hfit : length (project_tasks d' 0 1) <= maxSyncTasks)
    by (rewrite Hlen; apply Nat.leb_le; vm_compute; reflexivity).
  assert (Hc : foldl (fun r c => result_bind r (fun st => run_command (fst c) st (snd c))) (Ok mf_start) mf_commands =
               Ok mf_created) by (vm_compute; reflexivity).
  destruct (sync_converges demo_auth mf_commands 25 demo_board1 d' mf_intervals ivs' mf_start mf_created st' mf_zero sum'
              demo_board1_ok (start_tracking _ demo_board1_ok) Hc Hr Hf Hfit) as [He Hall].
  exists d', ivs', st', sum'. split; [reflexivity|]. split; [exact Hsize|]. split; [exact He|exact Hall].
Defined.
