(* ===== verification/TenantModel.v ===== *)
(** * Tenancy: tables, row-level security and statements

    The tables of migrations 0001 to 0012 as finite maps keyed by their primary
    or unique key, the row-level security of migration 0007, the triggers of
    migrations 0002, 0004, 0033 and 0115, and the statements of
    [db/query/tenancy.sql], [authz.sql] and [account.sql] that the tenancy and
    authorization services use, as functions on the tables.

    A statement runs as the application under a principal ([AsApp p], where
    policies filter the rows) or inside a [SECURITY DEFINER] function
    ([AsOwner]).  Foreign keys are checked by the server without policies.  The
    deferred trigger [tenant_owner_guard] is queued with the tenant root of each
    changed membership and runs at commit, under the session's principal. *)

From S2P Require Import Prelude GoStrings GoTime GoJson AutoGraph Errors.
From stdpp Require Import sorting.

(** ** Tables *)

Record biz_row := {
  bz_parent : option uuid; bz_root : uuid; bz_name : string; bz_status : string;
  bz_deleted : option time; bz_created : time; bz_updated : time
}.
Record closure_row := { cl_depth : nat; cl_root : uuid }.
Record principal_row := {
  pr_kind : string; pr_account : option uuid; pr_home : option uuid; pr_root : option uuid
}.
Record acct_row := {
  at_email : string; at_verified : option time; at_password : option string; at_name : string;
  at_status : string; at_deleted : option time
}.
Record permission_row := { pm_module : string; pm_description : string }.
Record role_row := { rl_root : option uuid; rl_key : string; rl_name : string; rl_locked : bool }.
Record member_row := {
  mb_id : uuid; mb_root : uuid; mb_role : uuid; mb_granted_by : option uuid; mb_granted_at : time
}.
Record invitation_row := {
  iv_business : uuid; iv_root : uuid; iv_email : string; iv_role : uuid; iv_hash : string;
  iv_status : string; iv_created_by : option uuid; iv_expires : time; iv_accepted : option time;
  iv_created : time
}.
Record refresh_row := {
  rf_principal : uuid; rf_hash : string; rf_family : uuid; rf_parent : option uuid;
  rf_used : option time; rf_revoked : option time; rf_expires : time; rf_created : time
}.
Record onetime_row := {
  ot_account : option uuid; ot_email : string; ot_purpose : string; ot_hash : string;
  ot_new_email : option string; ot_expires : time; ot_consumed : option time
}.
(** An entry of the audit log: [audit.Entry]. *)
Record AuditEntry := {
  ae_BusinessID : option uuid; ae_TenantRootID : option uuid; ae_ActorPrincipalID : option uuid;
  ae_Action : string; ae_TargetType : option string; ae_TargetID : option uuid; ae_NewValue : option json
}.

Record tdb := {
  t_business : gmap uuid biz_row;
  t_closure : gmap (uuid * uuid) closure_row;
  t_principal : gmap uuid principal_row;
  t_account : gmap uuid acct_row;
  t_permission : gmap string permission_row;
  t_role : gmap uuid role_row;
  t_role_perm : gset (uuid * string);
  t_membership : gmap (uuid * uuid) member_row;
  t_invitation : gmap uuid invitation_row;
  t_refresh : gmap uuid refresh_row;
  t_onetime : gmap uuid onetime_row;
  t_erasure : gmap uuid time;
  t_fence : gset uuid;
  t_audit : list AuditEntry;
  t_outbox : gmap uuid (uuid * string * json)
}.

Definition set_business (x : gmap uuid biz_row) (d : tdb) : tdb :=
  {| t_business := x; t_closure := t_closure d; t_principal := t_principal d; t_account := t_account d;
     t_permission := t_permission d; t_role := t_role d; t_role_perm := t_role_perm d;
     t_membership := t_membership d; t_invitation := t_invitation d; t_refresh := t_refresh d;
     t_onetime := t_onetime d; t_erasure := t_erasure d; t_fence := t_fence d; t_audit := t_audit d;
     t_outbox := t_outbox d |}.
Definition set_closure (x : gmap (uuid * uuid) closure_row) (d : tdb) : tdb :=
  {| t_business := t_business d; t_closure := x; t_principal := t_principal d; t_account := t_account d;
     t_permission := t_permission d; t_role := t_role d; t_role_perm := t_role_perm d;
     t_membership := t_membership d; t_invitation := t_invitation d; t_refresh := t_refresh d;
     t_onetime := t_onetime d; t_erasure := t_erasure d; t_fence := t_fence d; t_audit := t_audit d;
     t_outbox := t_outbox d |}.
Definition set_principal (x : gmap uuid principal_row) (d : tdb) : tdb :=
  {| t_business := t_business d; t_closure := t_closure d; t_principal := x; t_account := t_account d;
     t_permission := t_permission d; t_role := t_role d; t_role_perm := t_role_perm d;
     t_membership := t_membership d; t_invitation := t_invitation d; t_refresh := t_refresh d;
     t_onetime := t_onetime d; t_erasure := t_erasure d; t_fence := t_fence d; t_audit := t_audit d;
     t_outbox := t_outbox d |}.
Definition set_account (x : gmap uuid acct_row) (d : tdb) : tdb :=
  {| t_business := t_business d; t_closure := t_closure d; t_principal := t_principal d; t_account := x;
     t_permission := t_permission d; t_role := t_role d; t_role_perm := t_role_perm d;
     t_membership := t_membership d; t_invitation := t_invitation d; t_refresh := t_refresh d;
     t_onetime := t_onetime d; t_erasure := t_erasure d; t_fence := t_fence d; t_audit := t_audit d;
     t_outbox := t_outbox d |}.
Definition set_role (x : gmap uuid role_row) (d : tdb) : tdb :=
  {| t_business := t_business d; t_closure := t_closure d; t_principal := t_principal d;
     t_account := t_account d; t_permission := t_permission d; t_role := x; t_role_perm := t_role_perm d;
     t_membership := t_membership d; t_invitation := t_invitation d; t_refresh := t_refresh d;
     t_onetime := t_onetime d; t_erasure := t_erasure d; t_fence := t_fence d; t_audit := t_audit d;
     t_outbox := t_outbox d |}.
Definition set_role_perm (x : gset (uuid * string)) (d : tdb) : tdb :=
  {| t_business := t_business d; t_closure := t_closure d; t_principal := t_principal d;
     t_account := t_account d; t_permission := t_permission d; t_role := t_role d; t_role_perm := x;
     t_membership := t_membership d; t_invitation := t_invitation d; t_refresh := t_refresh d;
     t_onetime := t_onetime d; t_erasure := t_erasure d; t_fence := t_fence d; t_audit := t_audit d;
     t_outbox := t_outbox d |}.
Definition set_membership (x : gmap (uuid * uuid) member_row) (d : tdb) : tdb :=
  {| t_business := t_business d; t_closure := t_closure d; t_principal := t_principal d;
     t_account := t_account d; t_permission := t_permission d; t_role := t_role d;
     t_role_perm := t_role_perm d; t_membership := x; t_invitation := t_invitation d;
     t_refresh := t_refresh d; t_onetime := t_onetime d; t_erasure := t_erasure d; t_fence := t_fence d;
     t_audit := t_audit d; t_outbox := t_outbox d |}.
Definition set_invitation (x : gmap uuid invitation_row) (d : tdb) : tdb :=
  {| t_business := t_business d; t_closure := t_closure d; t_principal := t_principal d;
     t_account := t_account d; t_permission := t_permission d; t_role := t_role d;
     t_role_perm := t_role_perm d; t_membership := t_membership d; t_invitation := x;
     t_refresh := t_refresh d; t_onetime := t_onetime d; t_erasure := t_erasure d; t_fence := t_fence d;
     t_audit := t_audit d; t_outbox := t_outbox d |}.
Definition set_refresh (x : gmap uuid refresh_row) (d : tdb) : tdb :=
  {| t_business := t_business d; t_closure := t_closure d; t_principal := t_principal d;
     t_account := t_account d; t_permission := t_permission d; t_role := t_role d;
     t_role_perm := t_role_perm d; t_membership := t_membership d; t_invitation := t_invitation d;
     t_refresh := x; t_onetime := t_onetime d; t_erasure := t_erasure d; t_fence := t_fence d;
     t_audit := t_audit d; t_outbox := t_outbox d |}.
Definition set_onetime (x : gmap uuid onetime_row) (d : tdb) : tdb :=
  {| t_business := t_business d; t_closure := t_closure d; t_principal := t_principal d;
     t_account := t_account d; t_permission := t_permission d; t_role := t_role d;
     t_role_perm := t_role_perm d; t_membership := t_membership d; t_invitation := t_invitation d;
     t_refresh := t_refresh d; t_onetime := x; t_erasure := t_erasure d; t_fence := t_fence d;
     t_audit := t_audit d; t_outbox := t_outbox d |}.
Definition set_erasure (x : gmap uuid time) (d : tdb) : tdb :=
  {| t_business := t_business d; t_closure := t_closure d; t_principal := t_principal d;
     t_account := t_account d; t_permission := t_permission d; t_role := t_role d;
     t_role_perm := t_role_perm d; t_membership := t_membership d; t_invitation := t_invitation d;
     t_refresh := t_refresh d; t_onetime := t_onetime d; t_erasure := x; t_fence := t_fence d;
     t_audit := t_audit d; t_outbox := t_outbox d |}.
Definition set_audit (x : list AuditEntry) (d : tdb) : tdb :=
  {| t_business := t_business d; t_closure := t_closure d; t_principal := t_principal d;
     t_account := t_account d; t_permission := t_permission d; t_role := t_role d;
     t_role_perm := t_role_perm d; t_membership := t_membership d; t_invitation := t_invitation d;
     t_refresh := t_refresh d; t_onetime := t_onetime d; t_erasure := t_erasure d; t_fence := t_fence d;
     t_audit := x; t_outbox := t_outbox d |}.
Definition set_outbox (x : gmap uuid (uuid * string * json)) (d : tdb) : tdb :=
  {| t_business := t_business d; t_closure := t_closure d; t_principal := t_principal d;
     t_account := t_account d; t_permission := t_permission d; t_role := t_role d;
     t_role_perm := t_role_perm d; t_membership := t_membership d; t_invitation := t_invitation d;
     t_refresh := t_refresh d; t_onetime := t_onetime d; t_erasure := t_erasure d; t_fence := t_fence d;
     t_audit := t_audit d; t_outbox := x |}.

(** The text functions of the database that depend on its locale: the folding by
    which [citext] compares, and the comparison behind [ORDER BY] on text. *)
Class PgText := { citext_fold : string -> string; pg_text_le : string -> string -> bool }.

Definition text_before `{PgText} (a b : string) : Prop := pg_text_le a b = true.
#[export] Instance text_before_dec `{PgText} (a b : string) : Decision (text_before a b).
Proof. unfold text_before. apply _. Defined.
Definition pg_sort `{PgText} (l : list string) : list string := merge_sort text_before l.
Definition citext_eq `{PgText} (a b : string) : bool := String.eqb (citext_fold a) (citext_fold b).

(** ** Transactions *)

Inductive dbctx : Type := AsApp (p : uuid) | AsOwner.

Record txn := { tx_db : tdb; tx_deferred : gset uuid }.

Definition txm (A : Type) : Type := txn -> result error (txn * A).
Definition tx_ret {A : Type} (a : A) : txm A := fun t => Ok (t, a).
Definition tx_err {A : Type} (e : error) : txm A := fun _ => Err e.
Definition tx_bind {A B : Type} (m : txm A) (k : A -> txm B) : txm B :=
  fun t => match m t with Ok (t', a) => k a t' | Err e => Err e end.
(** A query, which leaves the transaction as it is. *)
Definition tx_get {A : Type} (f : tdb -> result error A) : txm A :=
  fun t => match f (tx_db t) with Ok a => Ok (t, a) | Err e => Err e end.
(** A statement that changes tables. *)
Definition tx_put (f : tdb -> result error tdb) : txm unit :=
  fun t => match f (tx_db t) with
           | Ok d => Ok ({| tx_db := d; tx_deferred := tx_deferred t |}, tt)
           | Err e => Err e
           end.
Definition tx_defer (r : uuid) : txm unit :=
  fun t => Ok ({| tx_db := tx_db t; tx_deferred := {[r]} ∪ tx_deferred t |}, tt).
(** [if err != nil { return e }], for a call whose own error is dropped. *)
Definition tx_or {A : Type} (m : txm A) (e : error) : txm A :=
  fun t => match m t with Ok r => Ok r | Err _ => Err e end.
Definition tx_guard (b : bool) (e : error) : txm unit := if b then tx_ret tt else tx_err e.
(** A loop that returns an error at the first element that fails a test. *)
Definition tx_all {A : Type} (f : A -> bool) (l : list A) (e : A -> error) : txm unit :=
  match List.find (fun a => negb (f a)) l with Some a => tx_err (e a) | None => tx_ret tt end.

Declare Scope tx_scope.
Delimit Scope tx_scope with tx.
Notation "'let*' x ':=' m 'in' k" := (tx_bind m (fun x => k))
  (at level 10, x pattern, m at level 100, k at level 200) : tx_scope.
Notation "'do*' m 'in' k" := (tx_bind m (fun _ => k))
  (at level 10, m at level 100, k at level 200) : tx_scope.
#[local] Open Scope tx_scope.

Fixpoint tx_iter {A : Type} (f : A -> txm unit) (l : list A) : txm unit :=
  match l with
  | [] => tx_ret tt
  | a :: r => do* f a in tx_iter f r
  end.

(** ** Row-level security (migration 0007) *)

(** Whether [authorized_businesses(p)] contains [b]. *)
Definition authorized_businesses (d : tdb) (p b : uuid) : bool :=
  negb (N.eqb p uuid_Nil) &&
  mexists (fun k _ => N.eqb (fst k) p && bool_decide (is_Some (t_closure d !! (snd k, b)))) (t_membership d).

(** Whether [authorized_tenants(p)] contains [r]. *)
Definition authorized_tenants (d : tdb) (p r : uuid) : bool :=
  mexists (fun x b => N.eqb (bz_root b) r && authorized_businesses d p x) (t_business d).

Definition vis (c : dbctx) (d : tdb) (b : uuid) : bool :=
  match c with AsOwner => true | AsApp p => authorized_businesses d p b end.
Definition vis_role (c : dbctx) (d : tdb) (r : role_row) : bool :=
  match c, rl_root r with
  | AsOwner, _ | _, None => true
  | AsApp p, Some root => authorized_tenants d p root
  end.
(** [role_is_visible], the policy of [role_permission] *)
Definition role_is_visible (c : dbctx) (d : tdb) (rid : uuid) : bool :=
  match c with
  | AsOwner => true
  | AsApp _ => match t_role d !! rid with Some r => vis_role c d r | None => false end
  end.

(** ** The write fence (migration 0115) *)

Definition fenced (d : tdb) (r : uuid) : bool := bool_decide (r ∈ t_fence d).
Definition TM503 : error := PgError "TM503" "TENANT_MERGE_IN_PROGRESS".
Definition write_fence (d : tdb) (r : uuid) : result error unit :=
  if fenced d r then Err TM503 else Ok tt.

(** ** Businesses *)

Definition live (b : biz_row) : bool := match bz_deleted b with None => true | Some _ => false end.

Definition GetBusiness (c : dbctx) (id : uuid) (d : tdb) : result error biz_row :=
  match t_business d !! id with
  | Some b => if vis c d id && live b then Ok b else Err ErrNoRows
  | None => Err ErrNoRows
  end.

Definition created_before (x y : uuid * biz_row) : Prop := (bz_created (snd x) <= bz_created (snd y))%Z.
#[export] Instance created_before_dec (x y : uuid * biz_row) : Decision (created_before x y).
Proof. unfold created_before. apply _. Defined.

Definition ListBusinesses (c : dbctx) (d : tdb) : list (uuid * biz_row) :=
  merge_sort created_before (mselect (fun id b => vis c d id && live b) (t_business d)).

(** The composite foreign keys to [business (id, tenant_root_id)]. *)
Definition business_in (d : tdb) (id root : uuid) : bool :=
  match t_business d !! id with Some b => N.eqb (bz_root b) root | None => false end.

(** [business_root_guard], on insert *)
Definition business_root_guard (parent : option uuid) (id root : uuid) : bool :=
  match parent with None => N.eqb root id | Some _ => true end.

Definition CreateBusiness (id : uuid) (parent : option uuid) (root : uuid) (name : string) (now : time)
    : txm unit := tx_put (fun d =>
  if has_nul name then Err (PgError "22021" "") else
  if negb (business_root_guard parent id root)
  then Err (PgError "P0001" "master business must have tenant_root_id = id") else
  if fenced d root then Err TM503 else
  if negb ((1 <=? RuneCountInString name) && (RuneCountInString name <=? 200))%Z
  then Err (PgError "23514" "business_name_check") else
  match t_business d !! id with
  | Some _ => Err (PgError "23505" "business_pkey")
  | None =>
      if match parent with None => true | Some q => business_in d q root end
      then Ok (set_business (<[id := {| bz_parent := parent; bz_root := root; bz_name := name;
                                        bz_status := "active"; bz_deleted := None; bz_created := now;
                                        bz_updated := now |}]> (t_business d)) d)
      else Err (PgError "23503" "business_parent_id_tenant_root_id_fkey")
  end).

(** An insert of one closure row. *)
Definition insert_closure (row : uuid * uuid * nat * uuid) : txm unit := tx_put (fun d =>
  let '(a, x, n, root) := row in
  if fenced d root then Err TM503 else
  match t_closure d !! (a, x) with
  | Some _ => Err (PgError "23505" "business_closure_pkey")
  | None =>
      if business_in d a root && business_in d x root
      then Ok (set_closure (<[(a, x) := {| cl_depth := n; cl_root := root |}]> (t_closure d)) d)
      else Err (PgError "23503" "business_closure_fkey")
  end).

Definition InsertClosureSelf (id root : uuid) : txm unit := insert_closure (id, id, 0, root).

Definition InsertChildClosure (c : dbctx) (child parent root : uuid) : txm unit :=
  let* rows := tx_get (fun d => Ok (mselect (fun k _ => N.eqb (snd k) parent && vis c d (snd k)) (t_closure d))) in
  tx_iter (fun r => insert_closure (fst (fst r), child, S (cl_depth (snd r)), root)) rows.

Definition DepthFromRoot (c : dbctx) (x root : uuid) (d : tdb) : result error nat :=
  match t_closure d !! (root, x) with
  | Some r => if vis c d x then Ok (cl_depth r) else Err ErrNoRows
  | None => Err ErrNoRows
  end.

Definition IsDescendant (c : dbctx) (a x : uuid) (d : tdb) : bool :=
  bool_decide (is_Some (t_closure d !! (a, x))) && vis c d x.

Definition SubtreeHeight (c : dbctx) (a : uuid) (d : tdb) : nat :=
  max_list (map (fun r => cl_depth (snd r))
              (mselect (fun k _ => N.eqb (fst k) a && vis c d (snd k)) (t_closure d))).

Definition CountActiveChildren (c : dbctx) (id : uuid) (d : tdb) : nat :=
  mcount (fun x b => vis c d x && bool_decide (bz_parent b = Some id) && live b) (t_business d).

(** An update of the businesses a condition selects. *)
Definition update_business (sel : tdb -> uuid -> biz_row -> bool) (g : biz_row -> biz_row) : txm unit :=
  tx_put (fun d =>
    if mexists (fun x b => sel d x b && fenced d (bz_root b)) (t_business d) then Err TM503
    else Ok (set_business (mupdate (sel d) g (t_business d)) d)).

Definition RenameBusiness (c : dbctx) (id : uuid) (name : string) (now : time) : txm unit :=
  if has_nul name then tx_err (PgError "22021" "") else
  let* found := tx_get (fun d => Ok (mexists (fun x b => N.eqb x id && vis c d x && live b) (t_business d))) in
  if found && negb ((1 <=? RuneCountInString name) && (RuneCountInString name <=? 200))%Z
  then tx_err (PgError "23514" "business_name_check")
  else update_business (fun d x b => N.eqb x id && vis c d x && live b)
         (fun b => {| bz_parent := bz_parent b; bz_root := bz_root b; bz_name := name; bz_status := bz_status b;
                      bz_deleted := bz_deleted b; bz_created := bz_created b; bz_updated := now |}).

Definition SetSubtreeStatus (c : dbctx) (id : uuid) (status : string) (now : time) : txm unit :=
  update_business
    (fun d x b => bool_decide (is_Some (t_closure d !! (id, x))) && vis c d x && live b)
    (fun b => {| bz_parent := bz_parent b; bz_root := bz_root b; bz_name := bz_name b; bz_status := status;
                 bz_deleted := bz_deleted b; bz_created := bz_created b; bz_updated := now |}).

Definition SoftDeleteBusiness (c : dbctx) (id : uuid) (now : time) : txm unit :=
  update_business (fun d x b => N.eqb x id && vis c d x && live b)
    (fun b => {| bz_parent := bz_parent b; bz_root := bz_root b; bz_name := bz_name b; bz_status := bz_status b;
                 bz_deleted := Some now; bz_created := bz_created b; bz_updated := now |}).

(** [move_business] (migration 0009), which runs as the owner. *)
Definition in_subtree (d : tdb) (node x : uuid) : bool := bool_decide (is_Some (t_closure d !! (node, x))).

Definition move_delete (node : uuid) : txm unit := tx_put (fun d =>
  let old := fun (k : uuid * uuid) (_ : closure_row) => in_subtree d node (snd k) && negb (in_subtree d node (fst k)) in
  if mexists (fun k r => old k r && fenced d (cl_root r)) (t_closure d) then Err TM503
  else Ok (set_closure (mdelete old (t_closure d)) d)).

Definition move_rows (node newParent root : uuid) (d : tdb) : list (uuid * uuid * nat * uuid) :=
  flat_map (fun super =>
    map (fun sub => (fst (fst super), snd (fst sub), S (cl_depth (snd super) + cl_depth (snd sub)), root))
      (mselect (fun k _ => N.eqb (fst k) node) (t_closure d)))
    (mselect (fun k _ => N.eqb (snd k) newParent) (t_closure d)).

Definition move_parent (node newParent : uuid) (now : time) : txm unit := tx_put (fun d =>
  match t_business d !! node with
  | None => Ok d
  | Some b =>
      if fenced d (bz_root b) then Err TM503
      else if business_in d newParent (bz_root b)
      then Ok (set_business (<[node := {| bz_parent := Some newParent; bz_root := bz_root b; bz_name := bz_name b;
                                          bz_status := bz_status b; bz_deleted := bz_deleted b;
                                          bz_created := bz_created b; bz_updated := now |}]> (t_business d)) d)
      else Err (PgError "23503" "business_parent_id_tenant_root_id_fkey")
  end).

Definition move_business (node newParent root : uuid) (now : time) : txm unit :=
  do* move_delete node in
  let* rows := tx_get (fun d => Ok (move_rows node newParent root d)) in
  do* tx_iter insert_closure rows in
  move_parent node newParent now.

(** ** Roles and permissions *)

Definition PresetRoleID (key : string) (d : tdb) : result error uuid :=
  match mfind (fun _ r => bool_decide (rl_root r = None) && String.eqb (rl_key r) key) (t_role d) with
  | Some (id, _) => Ok id
  | None => Err ErrNoRows
  end.
Definition OwnerRoleID (d : tdb) : result error uuid := PresetRoleID "owner" d.

Definition AllPermissionKeys `{PgText} (d : tdb) : list string := pg_sort (map fst (map_to_list (t_permission d))).

Definition assignable (root : uuid) (r : role_row) : bool :=
  match rl_root r with None => true | Some x => N.eqb x root end.
Definition GetRoleInTenant (c : dbctx) (id root : uuid) (d : tdb) : result error role_row :=
  match t_role d !! id with
  | Some r => if vis_role c d r && assignable root r then Ok r else Err ErrNoRows
  | None => Err ErrNoRows
  end.
Definition GetCustomRole (c : dbctx) (id root : uuid) (d : tdb) : result error role_row :=
  match t_role d !! id with
  | Some r => if vis_role c d r && bool_decide (rl_root r = Some root) then Ok r else Err ErrNoRows
  | None => Err ErrNoRows
  end.

Definition role_keys (d : tdb) (id : uuid) : list string :=
  map snd (List.filter (fun x => N.eqb (fst x) id) (elements (t_role_perm d))).
Definition GetRolePermissions `{PgText} (c : dbctx) (id : uuid) (d : tdb) : list string :=
  if role_is_visible c d id then pg_sort (role_keys d id) else [].

(** [ORDER BY is_locked DESC, name] *)
Definition role_before `{PgText} (x y : uuid * role_row) : Prop :=
  (if Bool.eqb (rl_locked (snd x)) (rl_locked (snd y)) then pg_text_le (rl_name (snd x)) (rl_name (snd y))
   else rl_locked (snd x)) = true.
#[export] Instance role_before_dec `{PgText} (x y : uuid * role_row) : Decision (role_before x y).
Proof. unfold role_before. apply _. Defined.
Definition ListTenantRoles `{PgText} (c : dbctx) (root : uuid) (d : tdb) : list (uuid * role_row) :=
  merge_sort role_before (mselect (fun _ r => vis_role c d r && assignable root r) (t_role d)).

Definition CreateRole_row (id root : uuid) (key name : string) : txm unit := tx_put (fun d =>
  if has_nul key || has_nul name then Err (PgError "22021" "") else
  if fenced d root then Err TM503 else
  match t_role d !! id with
  | Some _ => Err (PgError "23505" "role_pkey")
  | None =>
      if mexists (fun _ r => bool_decide (rl_root r = Some root) && String.eqb (rl_key r) key) (t_role d)
      then Err (PgError "23505" "role_tenant_key_unique")
      else match t_business d !! root with
           | None => Err (PgError "23503" "role_tenant_root_id_fkey")
           | Some _ => Ok (set_role (<[id := {| rl_root := Some root; rl_key := key; rl_name := name;
                                                rl_locked := false |}]> (t_role d)) d)
           end
  end).

(** [tenant_merge_role_permission_fence]: the fence of the role's tenant *)
Definition role_fenced (d : tdb) (rid : uuid) : bool :=
  match t_role d !! rid with
  | Some r => match rl_root r with Some root => fenced d root | None => false end
  | None => false
  end.

Definition AddRolePermission (rid : uuid) (key : string) : txm unit := tx_put (fun d =>
  if role_fenced d rid then Err TM503 else
  if bool_decide ((rid, key) ∈ t_role_perm d) then Err (PgError "23505" "role_permission_pkey") else
  match t_role d !! rid, t_permission d !! key with
  | Some _, Some _ => Ok (set_role_perm ({[(rid, key)]} ∪ t_role_perm d) d)
  | _, _ => Err (PgError "23503" "role_permission_fkey")
  end).

Definition ClearRolePermissions (c : dbctx) (rid : uuid) : txm unit := tx_put (fun d =>
  if negb (role_is_visible c d rid) then Ok d else
  if role_fenced d rid && negb (bool_decide (role_keys d rid = [])) then Err TM503 else
  Ok (set_role_perm (filter (fun x => fst x <> rid) (t_role_perm d)) d)).

Definition UpdateRoleName (c : dbctx) (rid : uuid) (name : string) : txm unit := tx_put (fun d =>
  if has_nul name then Err (PgError "22021" "") else
  match t_role d !! rid with
  | None => Ok d
  | Some r =>
      if negb (vis_role c d r) then Ok d else
      if role_fenced d rid then Err TM503 else
      Ok (set_role (<[rid := {| rl_root := rl_root r; rl_key := rl_key r; rl_name := name;
                                rl_locked := rl_locked r |}]> (t_role d)) d)
  end).

Definition CountRoleMemberships (c : dbctx) (rid : uuid) (d : tdb) : nat :=
  mcount (fun k m => vis c d (snd k) && N.eqb (mb_role m) rid) (t_membership d).

(** Memberships and invitations restrict the deletion; permissions go with the role. *)
Definition DeleteRole_row (c : dbctx) (rid root : uuid) : txm unit := tx_put (fun d =>
  match t_role d !! rid with
  | None => Ok d
  | Some r =>
      if negb (vis_role c d r && bool_decide (rl_root r = Some root)) then Ok d else
      if role_fenced d rid then Err TM503 else
      if mexists (fun _ m => N.eqb (mb_role m) rid) (t_membership d)
      then Err (PgError "23503" "membership_role_id_fkey") else
      if mexists (fun _ i => N.eqb (iv_role i) rid) (t_invitation d)
      then Err (PgError "23503" "invitation_role_id_fkey") else
      Ok (set_role_perm (filter (fun x => fst x <> rid) (t_role_perm d)) (set_role (delete rid (t_role d)) d))
  end).

(** ** Memberships *)

(** The grants of [p] that reach [x]: the join of [membership],
    [business_closure] and the granting business, which must not be archived. *)
Definition grants (c : dbctx) (d : tdb) (p x : uuid) (k : uuid * uuid) : bool :=
  N.eqb (fst k) p && vis c d (snd k) && bool_decide (is_Some (t_closure d !! (snd k, x))) && vis c d x &&
  match t_business d !! snd k with
  | Some anc => negb (String.eqb (bz_status anc) "archived")
  | None => false
  end.

Definition HasOwnerRole (c : dbctx) (p x : uuid) (d : tdb) : bool :=
  mexists (fun k m => grants c d p x k &&
             match t_role d !! mb_role m with Some r => vis_role c d r && rl_locked r | None => false end)
    (t_membership d).

Definition EffectivePermissions (c : dbctx) (p x : uuid) (d : tdb) : gset string :=
  list_to_set (flat_map (fun km =>
    if grants c d p x (fst km) && role_is_visible c d (mb_role (snd km)) then role_keys d (mb_role (snd km)) else [])
    (map_to_list (t_membership d))).

Definition GetMembershipAt (c : dbctx) (p b : uuid) (d : tdb) : result error member_row :=
  match t_membership d !! (p, b) with
  | Some m => if vis c d b then Ok m else Err ErrNoRows
  | None => Err ErrNoRows
  end.

(** [membership_role_tenant_guard] *)
Definition membership_role_tenant_guard (c : dbctx) (d : tdb) (root role : uuid) : bool :=
  match t_role d !! role with
  | Some r => if vis_role c d r then match rl_root r with Some x => N.eqb x root | None => true end else true
  | None => true
  end.

Definition agent_forbidden : list string :=
  ["members.manage"; "roles.manage"; "hierarchy.manage"; "business.delete"; "ownership.transfer"; "agents.approve"].

(** [membership_agent_guard], as migration 0033 left it *)
Definition membership_agent_guard (c : dbctx) (d : tdb) (id p b role : uuid) : bool :=
  match t_principal d !! p with
  | Some pr =>
      if String.eqb (pr_kind pr) "agent" then
        bool_decide (pr_home pr = Some b) &&
        negb (mexists (fun k m => N.eqb (fst k) p && vis c d (snd k) && negb (N.eqb (mb_id m) id)) (t_membership d)) &&
        negb (role_is_visible c d role && existsb (fun k => bool_decide ((role, k) ∈ t_role_perm d)) agent_forbidden)
      else true
  | None => true
  end.

Definition principal_exists (d : tdb) (p : uuid) : bool := bool_decide (is_Some (t_principal d !! p)).
Definition role_exists (d : tdb) (r : uuid) : bool := bool_decide (is_Some (t_role d !! r)).

Definition membership_triggers (c : dbctx) (d : tdb) (id p b root role : uuid) : result error unit :=
  if negb (membership_agent_guard c d id p b role) then Err (PgError "P0001" "agent principal") else
  if negb (membership_role_tenant_guard c d root role) then Err (PgError "P0001" "custom role outside its tenant") else
  write_fence d root.

Definition CreateMembership (c : dbctx) (id p b root role : uuid) (by_ : option uuid) (now : time) : txm unit :=
  do* tx_put (fun d =>
    match membership_triggers c d id p b root role with
    | Err e => Err e
    | Ok _ =>
        if mexists (fun _ m => N.eqb (mb_id m) id) (t_membership d) then Err (PgError "23505" "membership_pkey") else
        match t_membership d !! (p, b) with
        | Some _ => Err (PgError "23505" "membership_principal_id_business_id_key")
        | None =>
            if principal_exists d p && business_in d b root && role_exists d role &&
               match by_ with Some q => principal_exists d q | None => true end
            then Ok (set_membership (<[(p, b) := {| mb_id := id; mb_root := root; mb_role := role;
                                                    mb_granted_by := by_; mb_granted_at := now |}]>
                                       (t_membership d)) d)
            else Err (PgError "23503" "membership_fkey")
        end
    end) in
  tx_defer root.

Definition UpdateMembershipRole (c : dbctx) (p b role by_ : uuid) : txm unit :=
  let* found := tx_get (fun d => Ok (t_membership d !! (p, b) ≫= fun m => if vis c d b then Some m else None)) in
  match found with
  | None => tx_ret tt
  | Some m =>
      do* tx_put (fun d =>
        match membership_triggers c d (mb_id m) p b (mb_root m) role with
        | Err e => Err e
        | Ok _ =>
            if role_exists d role && principal_exists d by_
            then Ok (set_membership (<[(p, b) := {| mb_id := mb_id m; mb_root := mb_root m; mb_role := role;
                                                    mb_granted_by := Some by_;
                                                    mb_granted_at := mb_granted_at m |}]> (t_membership d)) d)
            else Err (PgError "23503" "membership_fkey")
        end) in
      tx_defer (mb_root m)
  end.

Definition DeleteMembershipAt (c : dbctx) (p b : uuid) : txm unit :=
  let* found := tx_get (fun d => Ok (t_membership d !! (p, b) ≫= fun m => if vis c d b then Some m else None)) in
  match found with
  | None => tx_ret tt
  | Some m =>
      do* tx_put (fun d => if fenced d (mb_root m) then Err TM503
                           else Ok (set_membership (delete (p, b) (t_membership d)) d)) in
      tx_defer (mb_root m)
  end.

Definition CountDirectOwners (c : dbctx) (b : uuid) (d : tdb) : nat :=
  mcount (fun k m => N.eqb (snd k) b && vis c d (snd k) &&
            match t_role d !! mb_role m with Some r => vis_role c d r && rl_locked r | None => false end)
    (t_membership d).

(** [tenant_owner_guard], the deferred trigger of migration 0004, as it runs at
    commit: what it reads is filtered by the session's policies. *)
Definition tenant_owner_guard (c : dbctx) (d : tdb) (root : uuid) : bool :=
  match t_business d !! root with
  | Some b =>
      if vis c d root && live b then
        match OwnerRoleID d with
        | Ok o => mexists (fun k m => N.eqb (snd k) root && vis c d (snd k) && N.eqb (mb_root m) root && N.eqb (mb_role m) o)
                    (t_membership d)
        | Err _ => false
        end
      else true
  | None => true
  end.

(** [businesses_with_permission(p, perm)] (migration 0110), as membership *)
Definition businesses_with_permission (d : tdb) (p : uuid) (perm : string) (x : uuid) : bool :=
  mexists (fun k m => grants AsOwner d p x k &&
             (match t_role d !! mb_role m with Some r => rl_locked r | None => false end ||
              bool_decide ((mb_role m, perm) ∈ t_role_perm d)))
    (t_membership d).

(** ** Principals and accounts *)

Definition GetPrincipalKind (p : uuid) (d : tdb) : result error string :=
  match t_principal d !! p with Some r => Ok (pr_kind r) | None => Err ErrNoRows end.

(** The account of a principal: the join on [principal.account_id]. *)
Definition principal_account (d : tdb) (p : uuid) : option (uuid * acct_row) :=
  match t_principal d !! p with
  | Some r => match pr_account r with
              | Some a => match t_account d !! a with Some row => Some (a, row) | None => None end
              | None => None
              end
  | None => None
  end.
Definition IsAccountVerifiedByPrincipal (p : uuid) (d : tdb) : result error bool :=
  match principal_account d p with
  | Some (_, a) => Ok (bool_decide (is_Some (at_verified a)))
  | None => Err ErrNoRows
  end.
Definition GetAccountByPrincipal (p : uuid) (d : tdb) : result error (uuid * acct_row) :=
  match principal_account d p with
  | Some (id, a) => match at_deleted a with None => Ok (id, a) | Some _ => Err ErrNoRows end
  | None => Err ErrNoRows
  end.

(** A row of [access_list(p_business)] (migration 0011). *)
Record access_row := {
  al_principal : uuid; al_kind : string; al_display_name : string; al_source : uuid; al_direct : bool;
  al_role : uuid; al_role_key : string; al_role_name : string; al_builtin : bool; al_locked : bool;
  al_permissions : list string
}.
Definition access_before `{PgText} (x y : access_row) : Prop :=
  (if String.eqb (al_display_name x) (al_display_name y) then (al_source x <=? al_source y)%N
   else pg_text_le (al_display_name x) (al_display_name y)) = true.
#[export] Instance access_before_dec `{PgText} (x y : access_row) : Decision (access_before x y).
Proof. unfold access_before. apply _. Defined.

Definition access_row_of `{PgText} (d : tdb) (x : uuid) (k : uuid * uuid) (m : member_row) : option access_row :=
  if grants AsOwner d (fst k) x k then
    match t_role d !! mb_role m, t_principal d !! fst k with
    | Some r, Some pr =>
        Some {| al_principal := fst k; al_kind := pr_kind pr;
                al_display_name := match principal_account d (fst k) with Some (_, a) => at_name a | None => "" end;
                al_source := snd k; al_direct := N.eqb (snd k) x; al_role := mb_role m; al_role_key := rl_key r;
                al_role_name := rl_name r; al_builtin := bool_decide (rl_root r = None); al_locked := rl_locked r;
                al_permissions := pg_sort (role_keys d (mb_role m)) |}
    | _, _ => None
    end
  else None.
Definition access_list `{PgText} (x : uuid) (d : tdb) : list access_row :=
  merge_sort access_before (omap (fun km => access_row_of d x (fst km) (snd km)) (map_to_list (t_membership d))).

(** ** The audit log and the outbox *)

Definition InsertAuditEntry (e : AuditEntry) : txm unit := tx_put (fun d =>
  if match ae_TenantRootID e with Some r => fenced d r | None => false end then Err TM503 else
  if match ae_BusinessID e with Some b => bool_decide (is_Some (t_business d !! b)) | None => true end &&
     match ae_ActorPrincipalID e with Some p => principal_exists d p | None => true end
  then Ok (set_audit (t_audit d ++ [e]) d)
  else Err (PgError "23503" "audit_entry_fkey")).

Definition EnqueueOutbox (id root : uuid) (topic : string) (payload : json) : txm unit := tx_put (fun d =>
  if fenced d root then Err TM503 else
  match t_outbox d !! id with
  | Some _ => Err (PgError "23505" "outbox_pkey")
  | None => Ok (set_outbox (<[id := (root, topic, payload)]> (t_outbox d)) d)
  end).

(** ** [WithPrincipal] and [WithTx] *)

(** Commit runs the queued constraint triggers; a failure rolls everything back. *)
Definition commit (c : dbctx) (t : txn) : bool :=
  forallb (tenant_owner_guard c (tx_db t)) (elements (tx_deferred t)).

Definition run_tx {A : Type} (c : dbctx) (body : txm A) (d : tdb) : tdb * result error A :=
  match body {| tx_db := d; tx_deferred := ∅ |} with
  | Err e => (d, Err (mapTxError e))
  | Ok (t, a) => if commit c t then (tx_db t, Ok a)
                 else (d, Err (PgError "P0001" "tenant must retain at least one Owner"))
  end.

Definition WithPrincipal {A : Type} (p : uuid) (body : txm A) (d : tdb) : tdb * result error A :=
  run_tx (AsApp p) body d.
(** No principal is set, so the policies show no row. *)
Definition WithTx {A : Type} (body : txm A) (d : tdb) : tdb * result error A := run_tx (AsApp uuid_Nil) body d.
