(* ===== verification/TenantService.v ===== *)
(** * Authorization and tenancy services

    [internal/authz/resolver.go], [role.go] and [service.go],
    [internal/tenancy/service.go], [members.go] and [ownership.go], and the
    creation of an agent in [internal/agents/agent.go].  Identifiers
    drawn at random, the time and the database are arguments.

    The operations that take the tenant's advisory lock read the business before
    they take it.  Such an operation has two databases as arguments: [d0], as the
    transaction read it before the lock, and [d], as it is once the lock is
    granted; between the two other transactions may have committed.  The rest of
    the operation is serial with every other holder of the lock.  A call that
    nobody overtakes has [d0 = d]. *)

From S2P Require Import Prelude GoStrings GoTime GoJson AutoGraph Errors TenantModel.
From stdpp Require Import sorting.
#[local] Open Scope tx_scope.

Definition MaxDepth : nat := 10.

(** A transaction that runs [load] before it is granted the lock under which it
    runs [body]. *)
Definition locked_tx {A B : Type} (p : uuid) (load : tdb -> result error A) (body : A -> txm B)
    (d0 d : tdb) : tdb * result error B :=
  match load d0 with
  | Err e => (d, Err (mapTxError e))
  | Ok a => WithPrincipal p (body a) d
  end.

Section Services.
Context `{UnicodeTables, UUIDLib, PgText}.

(** ** Resolution of permissions *)

Definition Resolve (c : dbctx) (p x : uuid) (d : tdb) : gset string :=
  if HasOwnerRole c p x d then list_to_set (AllPermissionKeys d) else EffectivePermissions c p x d.

Definition Has (s : gset string) (key : string) : bool := bool_decide (key ∈ s).

Definition requirePerm (p b : uuid) (perm : string) : txm unit :=
  let* s := tx_get (fun d => Ok (Resolve (AsApp p) p b d)) in
  tx_guard (Has s perm) ErrNotFound.

Definition loadVisible (p id : uuid) (d : tdb) : result error biz_row :=
  match GetBusiness (AsApp p) id d with Ok b => Ok b | Err _ => Err ErrNotFound end.

Definition conflict (msg : string) : error := Wrap msg ErrConflict.
Definition invalid (msg : string) : error := Wrap msg ErrValidation.

(** ** Businesses *)

Record Business := {
  bs_ID : uuid; bs_ParentID : option uuid; bs_TenantRootID : uuid; bs_Name : string; bs_Status : string
}.
Definition toBusiness (id : uuid) (b : biz_row) : Business :=
  {| bs_ID := id; bs_ParentID := bz_parent b; bs_TenantRootID := bz_root b; bs_Name := bz_name b;
     bs_Status := bz_status b |}.

Definition GetBusiness_api (p id : uuid) (d : tdb) : tdb * result error Business :=
  WithPrincipal p (let* b := tx_get (loadVisible p id) in tx_ret (toBusiness id b)) d.

Definition ListBusinesses_api (p : uuid) (d : tdb) : tdb * result error (list Business) :=
  WithPrincipal p (tx_get (fun d => Ok (map (fun x => toBusiness (fst x) (snd x)) (ListBusinesses (AsApp p) d)))) d.

Definition jid (u : uuid) : json := JStr (uuid_String u).

Definition auditBusiness (actor business root : uuid) (action : string) (value : option json) : txm unit :=
  InsertAuditEntry {| ae_BusinessID := Some business; ae_TenantRootID := Some root; ae_ActorPrincipalID := Some actor;
                      ae_Action := action; ae_TargetType := Some "business"; ae_TargetID := Some business;
                      ae_NewValue := value |}.

Definition TopicBusinessCreated : string := "business.created".
Definition enqueue_created (outboxID business root : uuid) : txm unit :=
  EnqueueOutbox outboxID root TopicBusinessCreated
    (JObj [("business_id", jid business); ("tenant_root_id", jid root)]).

Definition CreateMasterBusiness (creator : uuid) (name : string) (bizID memberID outboxID : uuid) (now : time)
    (d : tdb) : tdb * result error Business :=
  if String.eqb name "" then (d, Err (invalid "name is required")) else
  WithPrincipal creator (
    let* verified := tx_get (IsAccountVerifiedByPrincipal creator) in
    do* tx_guard verified (invalid "email must be verified before creating a business") in
    let* ownerRole := tx_get OwnerRoleID in
    do* CreateBusiness bizID None bizID name now in
    do* InsertClosureSelf bizID bizID in
    do* CreateMembership (AsApp creator) memberID creator bizID bizID ownerRole (Some creator) now in
    do* InsertAuditEntry {| ae_BusinessID := Some bizID; ae_TenantRootID := Some bizID;
                            ae_ActorPrincipalID := Some creator; ae_Action := "business.created";
                            ae_TargetType := Some "business"; ae_TargetID := Some bizID;
                            ae_NewValue := Some (JObj [("kind", JStr "master"); ("name", JStr name)]) |} in
    do* enqueue_created outboxID bizID bizID in
    tx_ret {| bs_ID := bizID; bs_ParentID := None; bs_TenantRootID := bizID; bs_Name := name; bs_Status := "active" |}) d.

Definition CreateSubBusiness (p parentID : uuid) (name : string) (childID outboxID : uuid) (now : time)
    (d0 d : tdb) : tdb * result error Business :=
  if String.eqb name "" then (d, Err (invalid "name is required")) else
  locked_tx p (loadVisible p parentID) (fun parent =>
    do* requirePerm p parentID "hierarchy.manage" in
    let* depth := tx_get (DepthFromRoot (AsApp p) parentID (bz_root parent)) in
    do* tx_guard (depth + 1 <=? MaxDepth) (conflict "maximum nesting depth (10) reached") in
    do* CreateBusiness childID (Some parentID) (bz_root parent) name now in
    do* InsertClosureSelf childID (bz_root parent) in
    do* InsertChildClosure (AsApp p) childID parentID (bz_root parent) in
    do* auditBusiness p childID (bz_root parent) "business.created"
          (Some (JObj [("name", JStr name); ("parent_id", jid parentID)])) in
    do* enqueue_created outboxID childID (bz_root parent) in
    tx_ret {| bs_ID := childID; bs_ParentID := Some parentID; bs_TenantRootID := bz_root parent; bs_Name := name;
              bs_Status := "active" |}) d0 d.

(** What [Move] reads before the lock, and what it does under it. *)
Definition move_load (p nodeID newParentID : uuid) (d0 : tdb) : result error biz_row :=
  match loadVisible p nodeID d0 with
  | Err e => Err e
  | Ok node =>
      match loadVisible p newParentID d0 with
      | Err e => Err e
      | Ok newParent => if N.eqb (bz_root node) (bz_root newParent) then Ok node
                        else Err (conflict "cannot move across tenants")
      end
  end.
Definition move_body (p nodeID newParentID : uuid) (now : time) (node : biz_row) : txm unit :=
  do* requirePerm p nodeID "hierarchy.manage" in
  do* requirePerm p newParentID "hierarchy.manage" in
  do* tx_guard (bool_decide (is_Some (bz_parent node))) (conflict "cannot move a master business") in
  let* isDesc := tx_get (fun d => Ok (IsDescendant (AsApp p) nodeID newParentID d)) in
  do* tx_guard (negb isDesc) (conflict "would create a cycle") in
  let* npDepth := tx_get (DepthFromRoot (AsApp p) newParentID (bz_root node)) in
  let* height := tx_get (fun d => Ok (SubtreeHeight (AsApp p) nodeID d)) in
  do* tx_guard (npDepth + 1 + height <=? MaxDepth) (conflict "move would exceed maximum nesting depth (10)") in
  do* move_business nodeID newParentID (bz_root node) now in
  auditBusiness p nodeID (bz_root node) "business.moved" (Some (JObj [("new_parent_id", jid newParentID)])).
Definition Move (p nodeID newParentID : uuid) (now : time) (d0 d : tdb) : tdb * result error unit :=
  if N.eqb nodeID newParentID then (d, Err (conflict "a business cannot be moved under itself")) else
  locked_tx p (move_load p nodeID newParentID) (move_body p nodeID newParentID now) d0 d.

Definition setStatus (p nodeID : uuid) (status action : string) (now : time) (d0 d : tdb) : tdb * result error unit :=
  locked_tx p (loadVisible p nodeID) (fun node =>
    do* requirePerm p nodeID "hierarchy.manage" in
    do* SetSubtreeStatus (AsApp p) nodeID status now in
    auditBusiness p nodeID (bz_root node) action (Some (JObj [("status", JStr status)]))) d0 d.
Definition Archive (p nodeID : uuid) (now : time) := setStatus p nodeID "archived" "business.archived" now.
Definition Restore (p nodeID : uuid) (now : time) := setStatus p nodeID "active" "business.restored" now.

Definition RenameBusiness_api (p nodeID : uuid) (name : string) (now : time) (d : tdb) : tdb * result error unit :=
  if String.eqb name "" then (d, Err (invalid "name is required")) else
  WithPrincipal p (
    let* node := tx_get (loadVisible p nodeID) in
    do* requirePerm p nodeID "hierarchy.manage" in
    do* RenameBusiness (AsApp p) nodeID name now in
    auditBusiness p nodeID (bz_root node) "business.renamed" (Some (JObj [("name", JStr name)]))) d.

Definition Delete (p nodeID : uuid) (now : time) (d0 d : tdb) : tdb * result error unit :=
  locked_tx p (loadVisible p nodeID) (fun node =>
    do* requirePerm p nodeID "business.delete" in
    let* children := tx_get (fun d => Ok (CountActiveChildren (AsApp p) nodeID d)) in
    do* tx_guard (children <=? 0) (conflict "archive or move sub-businesses before deleting") in
    do* SoftDeleteBusiness (AsApp p) nodeID now in
    auditBusiness p nodeID (bz_root node) "business.deleted" None) d0 d.

(** ** Members *)

Definition guardEscalation (actor business newRole : uuid) (locked : bool) : txm unit :=
  if locked then
    let* isOwner := tx_get (fun d => Ok (HasOwnerRole (AsApp actor) actor business d)) in
    tx_guard isOwner (conflict "assigning the Owner role is reserved to Owners")
  else
    let* actorPerms := tx_get (fun d => Ok (Resolve (AsApp actor) actor business d)) in
    let* rolePerms := tx_get (fun d => Ok (GetRolePermissions (AsApp actor) newRole d)) in
    tx_all (Has actorPerms) rolePerms
      (fun k => conflict ("cannot assign a role granting " +:+ Quote k +:+ ", a permission you do not hold")).

Definition guardLastOwner (actor business root currentRole : uuid) (newRoleLocked : bool) : txm unit :=
  if newRoleLocked || negb (N.eqb business root) then tx_ret tt else
  let* ownerRole := tx_get OwnerRoleID in
  if negb (N.eqb currentRole ownerRole) then tx_ret tt else
  let* owners := tx_get (fun d => Ok (CountDirectOwners (AsApp actor) business d)) in
  tx_guard (1 <? owners) (conflict "the tenant must retain at least one Owner; transfer ownership first").

Definition audit_member (actor business root target : uuid) (action : string) (value : json) : txm unit :=
  InsertAuditEntry {| ae_BusinessID := Some business; ae_TenantRootID := Some root; ae_ActorPrincipalID := Some actor;
                      ae_Action := action; ae_TargetType := Some "membership"; ae_TargetID := Some target;
                      ae_NewValue := Some value |}.
Definition auditMembership (actor business root target : uuid) (action : string) (role : uuid) : txm unit :=
  audit_member actor business root target action (JObj [("role", jid role)]).

Definition ChangeMemberRole (actor business target newRoleID : uuid) (d0 d : tdb) : tdb * result error unit :=
  locked_tx actor (loadVisible actor business) (fun biz =>
    do* requirePerm actor business "members.manage" in
    let* newRole := tx_or (tx_get (GetRoleInTenant (AsApp actor) newRoleID (bz_root biz)))
                      (conflict "unknown or unassignable role") in
    let* current := tx_or (tx_get (GetMembershipAt (AsApp actor) target business)) ErrNotFound in
    if N.eqb (mb_role current) newRoleID then tx_ret tt else
    do* guardEscalation actor business newRoleID (rl_locked newRole) in
    do* guardLastOwner actor business (bz_root biz) (mb_role current) (rl_locked newRole) in
    do* UpdateMembershipRole (AsApp actor) target business newRoleID actor in
    audit_member actor business (bz_root biz) target "membership.role_changed"
      (JObj [("from_role", jid (mb_role current)); ("to_role", jid newRoleID)])) d0 d.

Definition RevokeMember (actor business target : uuid) (d0 d : tdb) : tdb * result error unit :=
  locked_tx actor (loadVisible actor business) (fun biz =>
    do* requirePerm actor business "members.manage" in
    let* current := tx_or (tx_get (GetMembershipAt (AsApp actor) target business)) ErrNotFound in
    do* guardLastOwner actor business (bz_root biz) (mb_role current) false in
    do* DeleteMembershipAt (AsApp actor) target business in
    auditMembership actor business (bz_root biz) target "membership.revoked" (mb_role current)) d0 d.

Definition LeaveBusiness (caller business : uuid) (d0 d : tdb) : tdb * result error unit :=
  locked_tx caller (loadVisible caller business) (fun biz =>
    let* current := tx_or (tx_get (GetMembershipAt (AsApp caller) caller business)) ErrNotFound in
    do* guardLastOwner caller business (bz_root biz) (mb_role current) false in
    do* DeleteMembershipAt (AsApp caller) caller business in
    auditMembership caller business (bz_root biz) caller "membership.left" (mb_role current)) d0 d.

Definition TransferOwnership (actor business to : uuid) (d0 d : tdb) : tdb * result error unit :=
  if N.eqb actor to then (d, Err (conflict "cannot transfer ownership to yourself")) else
  locked_tx actor (fun d0 =>
      match loadVisible actor business d0 with
      | Err e => Err e
      | Ok biz => if N.eqb business (bz_root biz) then Ok biz
                  else Err (conflict "ownership transfer operates on the tenant root")
      end)
    (fun biz =>
      let* isOwner := tx_get (fun d => Ok (HasOwnerRole (AsApp actor) actor business d)) in
      do* tx_guard isOwner ErrNotFound in
      do* tx_or (tx_get (GetMembershipAt (AsApp actor) to business))
            (conflict "the new owner must be a member of this business") in
      let* kind := tx_or (tx_get (GetPrincipalKind to)) ErrNotFound in
      do* tx_guard (String.eqb kind "human") (conflict "ownership can be held only by a human principal") in
      let* ownerRole := tx_get (PresetRoleID "owner") in
      let* adminRole := tx_get (PresetRoleID "admin") in
      do* UpdateMembershipRole (AsApp actor) to business ownerRole actor in
      do* UpdateMembershipRole (AsApp actor) actor business adminRole actor in
      audit_member actor business (bz_root biz) to "ownership.transferred"
        (JObj [("from", jid actor); ("to", jid to)])) d0 d.

(** ** The access list *)

Record GrantRole := {
  gr_ID : uuid; gr_Key : string; gr_Name : string; gr_Builtin : bool; gr_Locked : bool; gr_Permissions : list string
}.
Record Grant := { gt_Role : GrantRole; gt_Source : string; gt_SourceBusinessID : uuid }.
Record Member := {
  me_PrincipalID : uuid; me_Kind : string; me_DisplayName : string; me_Grants : list Grant;
  me_EffectivePermissions : list string
}.

Definition grant_of (a : access_row) : Grant :=
  {| gt_Role := {| gr_ID := al_role a; gr_Key := al_role_key a; gr_Name := al_role_name a; gr_Builtin := al_builtin a;
                   gr_Locked := al_locked a; gr_Permissions := al_permissions a |};
     gt_Source := if al_direct a then "direct" else "inherited"; gt_SourceBusinessID := al_source a |}.

(** The loop over the rows: a grant is added to its principal's entry, which is
    appended to the list when it is the first. *)
Fixpoint add_grant (a : access_row) (l : list Member) : list Member :=
  match l with
  | [] => [{| me_PrincipalID := al_principal a; me_Kind := al_kind a; me_DisplayName := al_display_name a;
              me_Grants := [grant_of a]; me_EffectivePermissions := [] |}]
  | m :: r =>
      if N.eqb (me_PrincipalID m) (al_principal a)
      then {| me_PrincipalID := me_PrincipalID m; me_Kind := me_Kind m; me_DisplayName := me_DisplayName m;
              me_Grants := me_Grants m ++ [grant_of a]; me_EffectivePermissions := me_EffectivePermissions m |} :: r
      else m :: add_grant a r
  end.
Definition group_grants (rows : list access_row) : list Member := fold_left (fun l a => add_grant a l) rows [].

Definition sort_Strings (l : list string) : list string := merge_sort text_le l.

Definition effectivePermissions (grants : list Grant) (catalog : list string) : list string :=
  if existsb (fun g => gr_Locked (gt_Role g)) grants then catalog
  else sort_Strings (elements (list_to_set (flat_map (fun g => gr_Permissions (gt_Role g)) grants) : gset string)).

Definition ListMembers (viewer business : uuid) (d : tdb) : tdb * result error (list Member) :=
  WithPrincipal viewer (
    do* tx_get (loadVisible viewer business) in
    let* perms := tx_get (fun d => Ok (Resolve (AsApp viewer) viewer business d)) in
    do* tx_guard (Has perms "members.manage" || Has perms "audit.read") ErrNotFound in
    let* catalog := tx_get (fun d => Ok (AllPermissionKeys d)) in
    let* rows := tx_get (fun d => Ok (access_list business d)) in
    tx_ret (map (fun m => {| me_PrincipalID := me_PrincipalID m; me_Kind := me_Kind m;
                             me_DisplayName := me_DisplayName m; me_Grants := me_Grants m;
                             me_EffectivePermissions := effectivePermissions (me_Grants m) catalog |})
              (group_grants rows))) d.

(** ** Roles *)

Record Role := {
  ro_ID : uuid; ro_Key : string; ro_Name : string; ro_Builtin : bool; ro_Locked : bool; ro_Permissions : list string
}.

Definition loadTenantRoot (p business : uuid) (d : tdb) : result error uuid :=
  match GetBusiness (AsApp p) business d with Ok b => Ok (bz_root b) | Err _ => Err ErrNotFound end.

Definition ListRoles (p business : uuid) (d : tdb) : tdb * result error (list Role) :=
  WithPrincipal p (
    let* root := tx_get (loadTenantRoot p business) in
    do* requirePerm p business "roles.read" in
    tx_get (fun d => Ok (map (fun x =>
      {| ro_ID := fst x; ro_Key := rl_key (snd x); ro_Name := rl_name (snd x);
         ro_Builtin := bool_decide (rl_root (snd x) = None); ro_Locked := rl_locked (snd x);
         ro_Permissions := GetRolePermissions (AsApp p) (fst x) d |}) (ListTenantRoles (AsApp p) root d)))) d.

(** The keys trimmed, without empty ones and repetitions, in the order given. *)
Fixpoint uniq_keys (seen : gset string) (l : list string) : list string :=
  match l with
  | [] => []
  | k :: r =>
      let k := TrimSpace k in
      if String.eqb k "" || bool_decide (k ∈ seen) then uniq_keys seen r else k :: uniq_keys ({[k]} ∪ seen) r
  end.

Definition validateGrantable (p business : uuid) (perms : list string) : txm (list string) :=
  let uniq := uniq_keys ∅ perms in
  let* catalog := tx_get (fun d => Ok (AllPermissionKeys d)) in
  do* tx_all (fun k => bool_decide (k ∈ catalog)) uniq (fun k => invalid ("unknown permission " +:+ Quote k)) in
  let* actor := tx_get (fun d => Ok (Resolve (AsApp p) p business d)) in
  do* tx_all (Has actor) uniq (fun k => conflict ("cannot grant a permission you do not hold (" +:+ k +:+ ")")) in
  tx_ret (sort_Strings uniq).

Definition auditRole (actor business root role : uuid) (action : string) (value : option json) : txm unit :=
  InsertAuditEntry {| ae_BusinessID := Some business; ae_TenantRootID := Some root; ae_ActorPrincipalID := Some actor;
                      ae_Action := action; ae_TargetType := Some "role"; ae_TargetID := Some role; ae_NewValue := value |}.
Definition role_json (name : string) (perms : list string) : option json :=
  Some (JObj [("name", JStr name); ("permissions", JArr (map JStr perms))]).

(** [slugRe.ReplaceAllString(s, "-")]: each run of bytes outside [a-z0-9] becomes one hyphen. *)
Definition slug_byte (c : ascii) : bool := is_lower c || is_digit c.
Fixpoint slug_runs (in_run : bool) (l : list ascii) : list ascii :=
  match l with
  | [] => []
  | c :: r => if slug_byte c then c :: slug_runs false r
              else if in_run then slug_runs true r else "-"%char :: slug_runs true r
  end.
Fixpoint trim_hyphens (l : list ascii) : list ascii :=
  match l with c :: r => if Ascii.eqb c "-" then trim_hyphens r else l | [] => [] end.
Definition trim_both (l : list ascii) : list ascii := rev (trim_hyphens (rev (trim_hyphens l))).
Definition slugify (s : string) : string :=
  let l := trim_both (slug_runs false (bytes (ToLower s))) in
  match l with
  | [] => "role"
  | _ => if 32 <? length l then of_bytes (trim_both (take 32 l)) else of_bytes l
  end.

Definition CreateRole (p business : uuid) (name : string) (perms : list string) (roleID : uuid) (hex : string)
    (d : tdb) : tdb * result error Role :=
  let name := TrimSpace name in
  if String.eqb name "" then (d, Err (invalid "name is required")) else
  let key := slugify name +:+ "-" +:+ hex in
  WithPrincipal p (
    let* root := tx_get (loadTenantRoot p business) in
    do* requirePerm p business "roles.manage" in
    let* clean := validateGrantable p business perms in
    do* CreateRole_row roleID root key name in
    do* tx_iter (AddRolePermission roleID) clean in
    do* auditRole p business root roleID "role.created" (role_json name clean) in
    tx_ret {| ro_ID := roleID; ro_Key := key; ro_Name := name; ro_Builtin := false; ro_Locked := false;
              ro_Permissions := clean |}) d.

Definition UpdateRole (p business roleID : uuid) (name : option string) (perms : option (list string)) (d : tdb)
    : tdb * result error Role :=
  WithPrincipal p (
    let* root := tx_get (loadTenantRoot p business) in
    do* requirePerm p business "roles.manage" in
    let* role := tx_or (tx_get (GetCustomRole (AsApp p) roleID root)) ErrNotFound in
    let* newName := match name with
                    | None => tx_ret (rl_name role)
                    | Some n => let n := TrimSpace n in
                                do* tx_guard (negb (String.eqb n "")) (invalid "name is required") in
                                do* UpdateRoleName (AsApp p) roleID n in
                                tx_ret n
                    end in
    let* clean := match perms with
                  | Some l => let* clean := validateGrantable p business l in
                              do* ClearRolePermissions (AsApp p) roleID in
                              do* tx_iter (AddRolePermission roleID) clean in
                              tx_ret clean
                  | None => tx_get (fun d => Ok (GetRolePermissions (AsApp p) roleID d))
                  end in
    do* auditRole p business root roleID "role.updated" (role_json newName clean) in
    tx_ret {| ro_ID := roleID; ro_Key := rl_key role; ro_Name := newName; ro_Builtin := false;
              ro_Locked := rl_locked role; ro_Permissions := clean |}) d.

Definition DeleteRole (p business roleID : uuid) (d : tdb) : tdb * result error unit :=
  WithPrincipal p (
    let* root := tx_get (loadTenantRoot p business) in
    do* requirePerm p business "roles.manage" in
    do* tx_or (tx_get (GetCustomRole (AsApp p) roleID root)) ErrNotFound in
    let* n := tx_get (fun d => Ok (CountRoleMemberships (AsApp p) roleID d)) in
    do* tx_guard (n <=? 0) (conflict ("role is still assigned to " +:+ itoa (Z.of_nat n) +:+ " member(s)")) in
    do* DeleteRole_row (AsApp p) roleID root in
    auditRole p business root roleID "role.deleted" None) d.

(** ** Agents: [AgentService.Create] of [internal/agents/agent.go]

    The part of an agent that tenancy sees is its principal and its membership.
    The table of agent definitions is not modelled: [insert] says with which error,
    if any, the insert of a definition fails (a name in use, a text the column
    refuses), and [validate] is the [MCPServers] service, when there is one. *)

Record CreateAgentInput := {
  ca_Name : string; ca_Provider : string; ca_Model : string; ca_SystemPrompt : string;
  ca_AllowedTools : option (list string); ca_AutonomyMode : Z; ca_Enabled : bool; ca_MonthlyBudgetCents : Z;
  ca_AllowedMCPServers : option (list uuid); ca_RetriageOnReply : bool; ca_WebAllowedDomains : option (list string)
}.
Record Agent := {
  ag_ID : uuid; ag_BusinessID : uuid; ag_PrincipalID : uuid; ag_Name : string; ag_Provider : string; ag_Model : string;
  ag_SystemPrompt : string; ag_AllowedTools : list string; ag_AutonomyMode : Z; ag_Enabled : bool;
  ag_MonthlyBudgetCents : Z; ag_AllowedMCPServers : list uuid; ag_RetriageOnReply : bool;
  ag_WebAllowedDomains : list string; ag_CreatedAt : time; ag_UpdatedAt : time
}.

Definition knownProviders : list string :=
  ["anthropic"; "openai"; "ollama"; "vllm"; "openrouter"; "huggingface"; "openai_codex"].

Definition validateCreateAgent (input : CreateAgentInput) : option error :=
  if String.eqb (ca_Name input) "" then Some (Wrap "agents: name required" ErrValidation) else
  if negb (bool_decide (ca_Provider input ∈ knownProviders))
  then Some (Wrap ("agents: unknown provider " +:+ Quote (ca_Provider input)) ErrValidation) else
  if String.eqb (ca_Provider input) "openai_codex"
  then Some (Wrap ("agents: provider " +:+ Quote (ca_Provider input) +:+ " is review-only and cannot back an agent") ErrValidation) else
  if String.eqb (ca_Model input) "" then Some (Wrap "agents: model required" ErrValidation) else
  if (ca_AutonomyMode input <? 1)%Z || (3 <? ca_AutonomyMode input)%Z
  then Some (Wrap "agents: autonomy_mode must be 1, 2, or 3" ErrValidation) else
  if (ca_MonthlyBudgetCents input <? 0)%Z || (2147483647 <? ca_MonthlyBudgetCents input)%Z
  then Some (Wrap "agents: monthly_budget_cents out of range [0, 2147483647]" ErrValidation) else None.

Definition mapAgentErr (e : error) : error :=
  if is_no_rows e then Wrap "agents: not found" ErrNotFound else
  match pg_code e with
  | Some "23505" => Wrap "agents: duplicate agent" ErrConflict
  | Some "23503" => Wrap "agents: agent has acted and cannot be deleted; disable it instead" ErrConflict
  | _ => if is_validation e || is_not_found e || is_conflict e then e else Wrap "agents: query" e
  end.

(** The business that the policy shows; a deleted one too. *)
Definition business_shown (c : dbctx) (id : uuid) (d : tdb) : result error biz_row :=
  match t_business d !! id with
  | Some b => if vis c d id then Ok b else Err ErrNoRows
  | None => Err ErrNoRows
  end.

Definition CreateAgentPrincipal (c : dbctx) (id business : uuid) : txm unit :=
  let* b := tx_get (business_shown c business) in
  tx_put (fun d =>
    if fenced d (bz_root b) then Err TM503 else
    match t_principal d !! id with
    | Some _ => Err (PgError "23505" "principal_pkey")
    | None => Ok (set_principal (<[id := {| pr_kind := "agent"; pr_account := None; pr_home := Some business;
                                            pr_root := Some (bz_root b) |}]> (t_principal d)) d)
    end).

(** The definition inserted, with its tenant. *)
Definition CreateAgent_row (c : dbctx) (insert : Agent -> option error) (a : Agent) : txm uuid :=
  let* b := tx_get (business_shown c (ag_BusinessID a)) in
  tx_get (fun d =>
    if fenced d (bz_root b) then Err TM503 else
    match insert a with
    | Some e => Err e
    | None => Ok (bz_root b)
    end).

Definition CreateAgent (principalID businessID : uuid) (input : CreateAgentInput)
    (validate : option (list uuid -> option error)) (insert : Agent -> option error)
    (agentID agentPrincipalID memberID : uuid) (now : time) (d : tdb) : tdb * result error Agent :=
  match validateCreateAgent input with
  | Some e => (d, Err e)
  | None =>
      let servers := default [] (ca_AllowedMCPServers input) in
      match match validate with Some v => if (0 <? length servers) then v servers else None | None => None end with
      | Some e => (d, Err e)
      | None =>
          let agent :=
            {| ag_ID := agentID; ag_BusinessID := businessID; ag_PrincipalID := agentPrincipalID;
               ag_Name := ca_Name input; ag_Provider := ca_Provider input; ag_Model := ca_Model input;
               ag_SystemPrompt := ca_SystemPrompt input; ag_AllowedTools := default [] (ca_AllowedTools input);
               ag_AutonomyMode := ca_AutonomyMode input; ag_Enabled := ca_Enabled input;
               ag_MonthlyBudgetCents := ca_MonthlyBudgetCents input; ag_AllowedMCPServers := servers;
               ag_RetriageOnReply := ca_RetriageOnReply input;
               ag_WebAllowedDomains := default [] (ca_WebAllowedDomains input);
               ag_CreatedAt := now; ag_UpdatedAt := now |} in
          let '(d', r) := WithPrincipal principalID (
            do* CreateAgentPrincipal (AsApp principalID) agentPrincipalID businessID in
            let* root := CreateAgent_row (AsApp principalID) insert agent in
            let* roleID := tx_get (PresetRoleID "agent_runtime") in
            do* CreateMembership (AsApp principalID) memberID agentPrincipalID businessID root roleID (Some principalID) now in
            tx_ret agent) d in
          (d', match r with Ok a => Ok a | Err e => Err (mapAgentErr e) end)
      end
  end.
End Services.
