(* ===== verification/TenantTree.v ===== *)
(** * The business tree and its closure table

    A shape gives each business its parent and its tenant root.  [tree_ok] says
    that a shape is a forest of bounded depth whose roots are the tenant roots,
    and that a closure table holds exactly the pairs of an ancestor and a
    descendant, with their distance.  It is kept by the three ways the shape
    changes: a new root, a new leaf, and the move of a subtree. *)

From S2P Require Import Prelude GoStrings GoTime GoJson AutoGraph Errors TenantModel TenantService.

Abbreviation shape := (gmap uuid (option uuid * uuid)).
Abbreviation closure := (gmap (uuid * uuid) closure_row).

Definition par (s : shape) (x : uuid) : option uuid := s !! x ≫= fst.

(** The business [n] levels above [x]. *)
Fixpoint up (s : shape) (n : nat) (x : uuid) : option uuid :=
  match n with
  | 0 => Some x
  | S m => par s x ≫= up s m
  end.

Record tree_ok (s : shape) (cl : closure) : Prop := {
  master_root : forall x r, s !! x = Some (None, r) -> r = x;
  parent_tenant : forall x q r, s !! x = Some (Some q, r) -> exists o, s !! q = Some (o, r);
  rooted : forall x o r, s !! x = Some (o, r) -> exists n, n <= MaxDepth /\ up s n x = Some r /\ s !! r = Some (None, r);
  closure_exact : forall a x c, cl !! (a, x) = Some c <->
    exists o, s !! x = Some (o, cl_root c) /\ up s (cl_depth c) x = Some a
}.

(** ** Walking up *)

Section Up.
Context (s : shape).

Lemma up_add (n m : nat) (x : uuid) : up s (n + m) x = up s n x ≫= up s m.
Proof. revert x. induction n as [|n IH]; intros x; simpl; [done|]. destruct (par s x); simpl; auto. Qed.

(** A walk that ends at a root is the longest one. *)
Lemma up_below (n k : nat) (x r a : uuid) :
  up s n x = Some r -> par s r = None -> up s k x = Some a -> k <= n /\ up s (n - k) a = Some r.
Proof.
  intros Hn Hr Hk. destruct (decide (k <= n)) as [Hle|Hgt].
  - split; [done|]. replace n with (k + (n - k)) in Hn by lia. by rewrite up_add, Hk in Hn.
  - exfalso. replace k with (n + S (k - n - 1)) in Hk by lia.
    rewrite up_add, Hn in Hk. simpl in Hk. by rewrite Hr in Hk.
Qed.

Lemma up_inj (n k j : nat) (x r a : uuid) :
  up s n x = Some r -> par s r = None -> up s k x = Some a -> up s j x = Some a -> k = j.
Proof.
  intros Hn Hr Hk Hj.
  destruct (up_below _ _ _ _ _ Hn Hr Hk) as [Hkn Ha]. destruct (up_below _ _ _ _ _ Hn Hr Hj) as [Hjn Hb].
  destruct (up_below _ _ _ _ _ Ha Hr Hb) as [? _]. destruct (up_below _ _ _ _ _ Hb Hr Ha) as [? _]. lia.
Qed.

(** A shape that agrees with [s] on the parents along the way gives the same walk. *)
Lemma up_agree (s' : shape) (n : nat) (x : uuid) :
  (forall k y, k < n -> up s k x = Some y -> par s' y = par s y) -> up s' n x = up s n x.
Proof.
  revert x. induction n as [|n IH]; intros x Hag; simpl; [done|].
  rewrite (Hag 0 x) by first [lia|done]. destruct (par s x) as [q|] eqn:Hq; simpl; [|done].
  apply IH. intros k y Hk Hy. apply (Hag (S k)); [lia|]. simpl. by rewrite Hq.
Qed.
End Up.

Section Tree.
Context (s : shape) (cl : closure) (Hok : tree_ok s cl).

Lemma up_tenant (n : nat) (x a : uuid) o r :
  s !! x = Some (o, r) -> up s n x = Some a -> exists o', s !! a = Some (o', r).
Proof.
  revert x o. induction n as [|n IH]; intros x o Hx Hup; simpl in Hup; [simplify_eq; eauto|].
  unfold par in Hup. rewrite Hx in Hup. simpl in Hup. destruct o as [q|]; [|done]. simpl in Hup.
  destruct (parent_tenant _ _ Hok _ _ _ Hx) as [o' Hq]. by apply (IH q o').
Qed.

Lemma root_par r : s !! r = Some (None, r) -> par s r = None.
Proof. intros Hr. unfold par. by rewrite Hr. Qed.

(** Distances are unique, and there are no cycles. *)
Lemma up_unique (k j : nat) (x a : uuid) o r :
  s !! x = Some (o, r) -> up s k x = Some a -> up s j x = Some a -> k = j.
Proof.
  intros Hx Hk Hj. destruct (rooted _ _ Hok _ _ _ Hx) as (n & _ & Hn & Hr).
  eapply up_inj; eauto using root_par.
Qed.

Lemma depth_bound (k : nat) (x a : uuid) o r : s !! x = Some (o, r) -> up s k x = Some a -> k <= MaxDepth.
Proof.
  intros Hx Hk. destruct (rooted _ _ Hok _ _ _ Hx) as (n & Hb & Hn & Hr).
  destruct (up_below _ _ _ _ _ _ Hn (root_par _ Hr) Hk) as [? _]. lia.
Qed.

Lemma closure_depth (a x : uuid) c : cl !! (a, x) = Some c -> up s (cl_depth c) x = Some a.
Proof. intros Hc. apply (closure_exact _ _ Hok) in Hc as (o & _ & Hup). done. Qed.

Lemma closure_some (a x : uuid) : is_Some (cl !! (a, x)) <-> is_Some (s !! x) /\ exists n, up s n x = Some a.
Proof.
  split.
  - intros [c Hc]. apply (closure_exact _ _ Hok) in Hc as (o & Hx & Hup). eauto.
  - intros [[[o r] Hx] [n Hn]]. exists {| cl_depth := n; cl_root := r |}.
    apply (closure_exact _ _ Hok). simpl. eauto.
Qed.

Lemma closure_refl (x : uuid) : is_Some (s !! x) -> is_Some (cl !! (x, x)).
Proof. intros Hx. apply closure_some. split; [done|]. by exists 0. Qed.

Lemma closure_trans (a x y : uuid) :
  is_Some (cl !! (a, x)) -> is_Some (cl !! (x, y)) -> is_Some (cl !! (a, y)).
Proof.
  rewrite !closure_some. intros [_ [n Hn]] [Hy [m Hm]]. split; [done|]. exists (m + n).
  by rewrite up_add, Hm.
Qed.

Lemma closure_in (a x : uuid) : is_Some (cl !! (a, x)) -> is_Some (s !! a) /\ is_Some (s !! x).
Proof.
  rewrite closure_some. intros [[[o r] Hx] [n Hn]]. split; [|eauto].
  destruct (up_tenant _ _ _ _ _ Hx Hn) as [o' Ha]. eauto.
Qed.

Lemma closure_same_root (a x : uuid) oa ra ox rx :
  is_Some (cl !! (a, x)) -> s !! a = Some (oa, ra) -> s !! x = Some (ox, rx) -> ra = rx.
Proof.
  rewrite closure_some. intros [_ [n Hn]] Ha Hx.
  destruct (up_tenant _ _ _ _ _ Hx Hn) as [o' Ha']. rewrite Ha in Ha'. by simplify_eq.
Qed.

Lemma closure_root (x : uuid) o r : s !! x = Some (o, r) -> is_Some (cl !! (r, x)).
Proof. intros Hx. apply closure_some. split; [eauto|]. destruct (rooted _ _ Hok _ _ _ Hx) as (n & _ & Hn & _). eauto. Qed.
End Tree.

(** ** A new business *)

Section Leaf.
Context (s : shape) (cl : closure) (Hok : tree_ok s cl).
Context (x : uuid) (Hx : s !! x = None).

Lemma up_leaf_other (o : option uuid) (r : uuid) (n : nat) (y : uuid) :
  is_Some (s !! y) -> up (<[x := (o, r)]> s) n y = up s n y.
Proof.
  intros [[oy ry] Hy]. apply up_agree. intros k z _ Hz.
  destruct (up_tenant s cl Hok _ _ _ _ _ Hy Hz) as [oz Hsz].
  unfold par. rewrite lookup_insert_ne; [done|]. intros ->. congruence.
Qed.

Lemma leaf_lookup_some (o : option uuid) (r y : uuid) v :
  y <> x -> (<[x := (o, r)]> s) !! y = Some v <-> s !! y = Some v.
Proof. intros Hne. by rewrite lookup_insert_ne by done. Qed.

(** A new master business. *)
Lemma tree_ok_root (cl' : closure) :
  (forall k c, cl' !! k = Some c <-> cl !! k = Some c \/ (k, c) = ((x, x), {| cl_depth := 0; cl_root := x |})) ->
  tree_ok (<[x := (None, x)]> s) cl'.
Proof.
  intros Hcl. split.
  - intros y r. destruct (decide (y = x)) as [->|Hne]; [rewrite lookup_insert_eq; naive_solver|].
    rewrite lookup_insert_ne by done. apply (master_root _ _ Hok).
  - intros y q r. destruct (decide (y = x)) as [->|Hne]; [rewrite lookup_insert_eq; naive_solver|].
    rewrite lookup_insert_ne by done. intros Hy. destruct (parent_tenant _ _ Hok _ _ _ Hy) as [o Hq].
    exists o. rewrite lookup_insert_ne; [done|]. intros ->. congruence.
  - intros y o r. destruct (decide (y = x)) as [->|Hne].
    + rewrite lookup_insert_eq. intros [= <- <-]. exists 0. split; [lia|]. by rewrite lookup_insert_eq.
    + rewrite lookup_insert_ne by done. intros Hy. destruct (rooted _ _ Hok _ _ _ Hy) as (n & Hb & Hn & Hr).
      exists n. rewrite up_leaf_other by eauto. split_and!; [done|done|].
      rewrite lookup_insert_ne; [done|]. intros ->. congruence.
  - intros a y c. rewrite Hcl, (closure_exact _ _ Hok). destruct (decide (y = x)) as [->|Hne].
    + rewrite Hx, lookup_insert_eq. split.
      * intros [(o & [=] & _)|[= -> ->]]. simpl. eauto.
      * intros (o & Hr & Hup). right. destruct c as [n r]; simpl in *. simplify_eq. destruct n as [|n]; simpl in *.
        -- by simplify_eq.
        -- unfold par in Hup. by rewrite lookup_insert_eq in Hup.
    + rewrite lookup_insert_ne by done. split.
      * intros [(o & Hy & Hup)|[= -> ->]]; [|done]. exists o. split; [done|]. by rewrite up_leaf_other by eauto.
      * intros (o & Hy & Hup). left. exists o. split; [done|]. by rewrite up_leaf_other in Hup by eauto.
Qed.

(** A new business under [q]. *)
Lemma up_leaf (q r : uuid) (o : option uuid) (n : nat) :
  s !! q = Some (o, r) -> up (<[x := (Some q, r)]> s) (S n) x = up s n q.
Proof. intros Hq. simpl. unfold par. rewrite lookup_insert_eq. simpl. apply up_leaf_other. eauto. Qed.

Lemma tree_ok_leaf (q r : uuid) (o : option uuid) (n : nat) (cl' : closure) :
  s !! q = Some (o, r) -> up s n q = Some r -> S n <= MaxDepth ->
  (forall k c, cl' !! k = Some c <->
     cl !! k = Some c \/ (k, c) = ((x, x), {| cl_depth := 0; cl_root := r |}) \/
     exists a ca, cl !! (a, q) = Some ca /\ (k, c) = ((a, x), {| cl_depth := S (cl_depth ca); cl_root := r |})) ->
  tree_ok (<[x := (Some q, r)]> s) cl'.
Proof.
  intros Hq Hn Hb Hcl. assert (x <> q) as Hxq by (intros ->; congruence). split.
  - intros y r'. destruct (decide (y = x)) as [->|Hne]; [rewrite lookup_insert_eq; naive_solver|].
    rewrite lookup_insert_ne by done. apply (master_root _ _ Hok).
  - intros y q' r'. destruct (decide (y = x)) as [->|Hne].
    + rewrite lookup_insert_eq. intros [= <- <-]. exists o. by rewrite lookup_insert_ne.
    + rewrite lookup_insert_ne by done. intros Hy. destruct (parent_tenant _ _ Hok _ _ _ Hy) as [o' Hq'].
      exists o'. rewrite lookup_insert_ne; [done|]. intros ->. congruence.
  - intros y o' r'. destruct (decide (y = x)) as [->|Hne].
    + rewrite lookup_insert_eq. intros [= <- <-]. exists (S n).
      destruct (rooted _ _ Hok _ _ _ Hq) as (m & _ & _ & Hr).
      split; [done|]. split; [by rewrite (up_leaf _ _ _ _ Hq)|]. rewrite lookup_insert_ne; [done|]. intros ->. congruence.
    + rewrite lookup_insert_ne by done. intros Hy. destruct (rooted _ _ Hok _ _ _ Hy) as (m & Hmb & Hm & Hr).
      exists m. rewrite up_leaf_other by eauto. split_and!; [done|done|].
      rewrite lookup_insert_ne; [done|]. intros ->. congruence.
  - intros a y c. rewrite Hcl, (closure_exact _ _ Hok). destruct (decide (y = x)) as [->|Hne].
    + rewrite Hx, lookup_insert_eq. split.
      * intros [(? & [=] & _)|[[= -> ->]|(b & cb & Hb' & [= -> ->])]]; simpl; [eauto|].
        exists (Some q). split; [done|]. apply (closure_depth _ _ Hok) in Hb'.
        change (up (<[x := (Some q, r)]> s) (S (cl_depth cb)) x = Some b). by rewrite (up_leaf _ _ _ _ Hq).
      * intros (o' & Hr & Hup). right. destruct c as [k rc]; simpl in *. simplify_eq. destruct k as [|k].
        -- left. simpl in Hup. by simplify_eq.
        -- right. rewrite (up_leaf _ _ _ _ Hq) in Hup. exists a, {| cl_depth := k; cl_root := rc |}.
           split; [|done]. apply (closure_exact _ _ Hok). simpl. eauto.
    + rewrite lookup_insert_ne by done. split.
      * intros [(o' & Hy & Hup)|[[= -> ->]|(b & cb & _ & [= -> ->])]]; [|done..].
        exists o'. split; [done|]. by rewrite up_leaf_other by eauto.
      * intros (o' & Hy & Hup). left. exists o'. split; [done|]. by rewrite up_leaf_other in Hup by eauto.
Qed.
End Leaf.

(** ** The move of a subtree *)

Section Move.
Context (s : shape) (cl : closure) (Hok : tree_ok s cl).
Context (node np r : uuid) (o onp : option uuid).
Context (Hnode : s !! node = Some (o, r)) (Hnp : s !! np = Some (onp, r)).
Context (Hout : forall n, up s n np <> Some node).

#[local] Abbreviation s' := (<[node := (Some np, r)]> s).

Lemma up_outside (n : nat) (y : uuid) : (forall k, up s k y <> Some node) -> up s' n y = up s n y.
Proof.
  intros Hy. apply up_agree. intros k z _ Hz. unfold par. rewrite lookup_insert_ne; [done|].
  intros ->. by apply (Hy k).
Qed.

Lemma up_inside (k n : nat) (x : uuid) ox rx :
  s !! x = Some (ox, rx) -> up s k x = Some node ->
  up s' n x = if Nat.leb n k then up s n x else up s (n - k - 1) np.
Proof.
  intros Hx Hk.
  assert (forall m, m <= k -> up s' m x = up s m x) as Hlow.
  { intros m Hm. apply up_agree. intros j z Hj Hz. unfold par. rewrite lookup_insert_ne; [done|]. intros ->.
    assert (j = k) by (eapply up_unique; eauto). lia. }
  destruct (Nat.leb_spec n k) as [Hle|Hgt]; [by apply Hlow|].
  replace n with (k + S (n - k - 1)) at 1 by lia. rewrite up_add, Hlow, Hk by done. simpl.
  unfold par. rewrite lookup_insert_eq. simpl. by apply up_outside.
Qed.

Lemma moved_lookup (y : uuid) oy ry : s !! y = Some (oy, ry) -> exists oy', s' !! y = Some (oy', ry).
Proof.
  intros Hy. destruct (decide (y = node)) as [->|Hne].
  - rewrite lookup_insert_eq. rewrite Hnode in Hy. simplify_eq. eauto.
  - rewrite lookup_insert_ne by done. eauto.
Qed.

Lemma moved_lookup_inv (y : uuid) oy ry : s' !! y = Some (oy, ry) -> exists oy', s !! y = Some (oy', ry).
Proof.
  destruct (decide (y = node)) as [->|Hne].
  - rewrite lookup_insert_eq. intros [= <- <-]. eauto.
  - rewrite lookup_insert_ne by done. eauto.
Qed.

(** Whether a business is in the subtree, and at which distance. *)
Lemma under_node (x : uuid) ox rx :
  s !! x = Some (ox, rx) -> (exists k, up s k x = Some node) \/ (forall k, up s k x <> Some node).
Proof.
  intros Hx. destruct (decide (is_Some (cl !! (node, x)))) as [Hc|Hc].
  - left. apply (closure_some _ _ Hok) in Hc as [_ Hc]. done.
  - right. intros k Hk. apply Hc, (closure_some _ _ Hok). split; eauto.
Qed.

Lemma root_not_node : node <> r.
Proof. intros ->. destruct (rooted _ _ Hok _ _ _ Hnp) as (n & _ & Hn & _). by apply (Hout n). Qed.

Context (dnp h : nat) (Hdnp : up s dnp np = Some r).
Context (Hheight : forall k x ox, s !! x = Some (ox, r) -> up s k x = Some node -> k <= h).
Context (Hdepth : dnp + 1 + h <= MaxDepth).

Context (cl' : closure).
Context (Hcl' : forall a x c, cl' !! (a, x) = Some c <->
  (cl !! (a, x) = Some c /\ (is_Some (cl !! (node, x)) -> is_Some (cl !! (node, a)))) \/
  exists ca cx, cl !! (a, np) = Some ca /\ cl !! (node, x) = Some cx /\
    c = {| cl_depth := S (cl_depth ca + cl_depth cx); cl_root := r |}).

Lemma rooted_moved (x : uuid) ox rx :
  s' !! x = Some (ox, rx) -> exists n, n <= MaxDepth /\ up s' n x = Some rx /\ s' !! rx = Some (None, rx).
Proof.
  intros Hx'. destruct (moved_lookup_inv _ _ _ Hx') as [ox' Hx].
  destruct (rooted _ _ Hok _ _ _ Hx) as (m & Hmb & Hm & Hrx).
  assert (rx <> node) as Hrn.
  { intros ->. apply root_not_node. pose proof Hnode as Hn. rewrite Hrx in Hn. congruence. }
  rewrite (lookup_insert_ne _ node rx) by done.
  destruct (under_node _ _ _ Hx) as [[k Hk]|Hk].
  - destruct (up_tenant _ _ Hok _ _ _ _ _ Hx Hk) as [o' Ho']. assert (rx = r) as -> by congruence.
    exists (k + 1 + dnp). split; [pose proof (Hheight _ _ _ Hx Hk); lia|]. split; [|done].
    rewrite (up_inside k _ _ _ _ Hx Hk). destruct (Nat.leb_spec (k + 1 + dnp) k); [lia|].
    by replace (k + 1 + dnp - k - 1) with dnp by lia.
  - exists m. rewrite up_outside by done. done.
Qed.

Lemma closure_moved (a x : uuid) c :
  cl' !! (a, x) = Some c <-> exists ox, s' !! x = Some (ox, cl_root c) /\ up s' (cl_depth c) x = Some a.
Proof.
  rewrite Hcl'. split.
  - intros [[Hc Hin]|(ca & cx & Ha & Hx & ->)].
    + apply (closure_exact _ _ Hok) in Hc as (ox & Hx & Hup).
      destruct (moved_lookup _ _ _ Hx) as [ox' Hx']. exists ox'. split; [done|].
      destruct (under_node _ _ _ Hx) as [[k Hk]|Hk]; [|by rewrite up_outside].
      destruct Hin as [cb Hb]; [apply (closure_some _ _ Hok); split; eauto|].
      apply (closure_depth _ _ Hok) in Hb. rewrite (up_inside k _ _ _ _ Hx Hk).
      assert (cl_depth c + cl_depth cb = k) as Hsum.
      { eapply (up_unique _ _ Hok); eauto. by rewrite up_add, Hup. }
      by rewrite (proj2 (Nat.leb_le _ _)) by lia.
    + apply (closure_exact _ _ Hok) in Hx as (ox & Hx & Hk). simpl.
      destruct (up_tenant _ _ Hok _ _ _ _ _ Hx Hk) as [o' Ho']. assert (cl_root cx = r) as Hr by congruence.
      rewrite Hr in Hx. destruct (moved_lookup _ _ _ Hx) as [ox' Hx']. exists ox'. split; [done|].
      change (up s' (S (cl_depth ca + cl_depth cx)) x = Some a). rewrite (up_inside _ _ _ _ _ Hx Hk).
      destruct (Nat.leb_spec (S (cl_depth ca + cl_depth cx)) (cl_depth cx)); [lia|].
      replace (S (cl_depth ca + cl_depth cx) - cl_depth cx - 1) with (cl_depth ca) by lia.
      by apply (closure_depth _ _ Hok).
  - intros (ox & Hx' & Hup). destruct (moved_lookup_inv _ _ _ Hx') as [ox' Hx].
    destruct (under_node _ _ _ Hx) as [[k Hk]|Hk].
    + rewrite (up_inside _ _ _ _ _ Hx Hk) in Hup. destruct (Nat.leb_spec (cl_depth c) k) as [Hle|Hgt].
      * left. split; [apply (closure_exact _ _ Hok); eauto|]. intros _.
        destruct (up_tenant _ _ Hok _ _ _ _ _ Hx Hup) as [oa Ha].
        apply (closure_some _ _ Hok). split; [eauto|]. exists (k - cl_depth c).
        replace k with (cl_depth c + (k - cl_depth c)) in Hk by lia. by rewrite up_add, Hup in Hk.
      * right. destruct (up_tenant _ _ Hok _ _ _ _ _ Hx Hk) as [o' Ho']. assert (cl_root c = r) as Hr by congruence.
        rewrite Hr in Hx. exists {| cl_depth := cl_depth c - k - 1; cl_root := r |}, {| cl_depth := k; cl_root := r |}.
        split_and!; [apply (closure_exact _ _ Hok); simpl; eauto..|].
        destruct c as [dc rc]; simpl in *. f_equal; [lia|done].
    + left. rewrite up_outside in Hup by done. split; [apply (closure_exact _ _ Hok); eauto|].
      intros Hin. apply (closure_some _ _ Hok) in Hin as [_ [n Hn]]. by destruct (Hk n).
Qed.

Lemma tree_ok_move : tree_ok s' cl'.
Proof.
  split.
  - intros y ry. destruct (decide (y = node)) as [->|Hne]; [rewrite lookup_insert_eq; naive_solver|].
    rewrite lookup_insert_ne by done. apply (master_root _ _ Hok).
  - intros y q ry. destruct (decide (y = node)) as [->|Hne].
    + rewrite lookup_insert_eq. intros [= <- <-]. by apply (moved_lookup _ onp).
    + rewrite lookup_insert_ne by done. intros Hy. destruct (parent_tenant _ _ Hok _ _ _ Hy) as [oq Hq].
      by apply (moved_lookup _ oq).
  - apply rooted_moved.
  - apply closure_moved.
Qed.
End Move.
