(* ===== verification/TenantFacts.v ===== *)
(** * Facts about the tenancy statements and the resolution of permissions

    Inversion of successful transactions, the effect of each statement, the
    invariant [tenancy_ok] of the tables, what row-level security shows of a
    database that satisfies it, and what [Resolve] computes there. *)

From S2P Require Import Prelude GoStrings GoTime GoJson AutoGraph Errors TenantModel TenantService TenantTree.
From stdpp Require Import sorting.
#[local] Open Scope tx_scope.

(** ** Successful transactions *)

Lemma tx_bind_ok {A B : Type} (m : txm A) (k : A -> txm B) (t t' : txn) (b : B) :
  tx_bind m k t = Ok (t', b) -> exists t1 a, m t = Ok (t1, a) /\ k a t1 = Ok (t', b).
Proof. unfold tx_bind. destruct (m t) as [[t1 a]|e]; [eauto|done]. Qed.

Lemma tx_get_ok {A : Type} (f : tdb -> result error A) (t t' : txn) (a : A) :
  tx_get f t = Ok (t', a) -> t' = t /\ f (tx_db t) = Ok a.
Proof. unfold tx_get. destruct (f (tx_db t)); naive_solver. Qed.

Lemma tx_put_ok (f : tdb -> result error tdb) (t t' : txn) u :
  tx_put f t = Ok (t', u) -> exists d, f (tx_db t) = Ok d /\ t' = {| tx_db := d; tx_deferred := tx_deferred t |}.
Proof. unfold tx_put. destruct (f (tx_db t)); naive_solver. Qed.

Lemma tx_guard_ok (b : bool) (e : error) (t t' : txn) u : tx_guard b e t = Ok (t', u) -> t' = t /\ b = true.
Proof. destruct b; simpl; unfold tx_ret, tx_err; naive_solver. Qed.

Lemma tx_or_ok {A : Type} (m : txm A) (e : error) (t t' : txn) (a : A) : tx_or m e t = Ok (t', a) -> m t = Ok (t', a).
Proof. unfold tx_or. destruct (m t); naive_solver. Qed.

Lemma tx_all_ok {A : Type} (f : A -> bool) (l : list A) e (t t' : txn) u :
  tx_all f l e t = Ok (t', u) -> t' = t /\ forall a, a ∈ l -> f a = true.
Proof.
  unfold tx_all. destruct (List.find _ l) as [a|] eqn:Hf; unfold tx_err, tx_ret; [done|]. intros [= <- _].
  split; [done|]. intros a Ha. apply negb_false_iff. apply (List.find_none _ _ Hf). by apply list_elem_of_In.
Qed.

Lemma tx_ret_ok {A : Type} (a b : A) (t t' : txn) : tx_ret a t = Ok (t', b) -> t' = t /\ b = a.
Proof. unfold tx_ret. naive_solver. Qed.

Lemma tx_defer_ok (r : uuid) (t t' : txn) u :
  tx_defer r t = Ok (t', u) -> t' = {| tx_db := tx_db t; tx_deferred := {[r]} ∪ tx_deferred t |}.
Proof. unfold tx_defer. naive_solver. Qed.

(** Takes a successful run apart, statement by statement. *)
Ltac tx_inv :=
  repeat match goal with
  | H : tx_bind _ _ _ = Ok (_, _) |- _ =>
      let t1 := fresh "t" in let a := fresh "a" in let Hm := fresh "Hm" in let Hk := fresh "Hk" in
      apply tx_bind_ok in H as (t1 & a & Hm & Hk); cbv beta in Hk
  | H : tx_get _ _ = Ok (_, _) |- _ => apply tx_get_ok in H as [-> H]
  | H : tx_guard _ _ _ = Ok (_, _) |- _ => apply tx_guard_ok in H as [-> H]
  | H : tx_all _ _ _ _ = Ok (_, _) |- _ => apply tx_all_ok in H as [-> H]
  | H : tx_or _ _ _ = Ok (_, _) |- _ => apply tx_or_ok in H
  | H : tx_ret _ _ = Ok (_, _) |- _ => apply tx_ret_ok in H as [-> ->]
  | H : tx_ret _ _ = Ok (_, _) |- _ => apply tx_ret_ok in H as [-> H]
  | H : tx_err _ _ = Ok (_, _) |- _ => discriminate H
  | H : Ok _ = Ok _ |- _ => injection H as H
  | H : Err _ = Ok _ |- _ => discriminate H
  end.

(** Goes through the tests of a statement that succeeded. *)
Ltac ok_tests H :=
  repeat match type of H with
  | (if ?b then _ else _) = Ok _ => destruct b eqn:?; try discriminate H
  | match ?o with Some _ => _ | None => _ end = Ok _ => destruct o eqn:?; try discriminate H
  | match ?o with Ok _ => _ | Err _ => _ end = Ok _ => destruct o eqn:?; try discriminate H
  end; try (injection H as H).

(** Names the last statement of a run that ended in [t]. *)
Ltac last_step t Hx := match goal with Hl : _ = Ok (t, _) |- _ => rename Hl into Hx end.

(** A transaction either commits what its body did, or leaves the database. *)
Lemma run_tx_cases {A : Type} (c : dbctx) (body : txm A) (d : tdb) :
  (exists t a, body {| tx_db := d; tx_deferred := ∅ |} = Ok (t, a) /\ commit c t = true /\
               run_tx c body d = (tx_db t, Ok a)) \/
  (exists e, run_tx c body d = (d, Err e)).
Proof.
  unfold run_tx. destruct (body _) as [[t a]|e] eqn:Hb; [|right; eauto].
  destruct (commit c t) eqn:Hc; [left; eauto 10|right; eauto].
Qed.

Lemma run_tx_ok {A : Type} (c : dbctx) (body : txm A) (d d' : tdb) (a : A) :
  run_tx c body d = (d', Ok a) ->
  exists t, body {| tx_db := d; tx_deferred := ∅ |} = Ok (t, a) /\ commit c t = true /\ d' = tx_db t.
Proof.
  intros Hr. destruct (run_tx_cases c body d) as [(t & b & Hb & Hc & He)|[e He]]; rewrite He in Hr; [|done].
  injection Hr as <- <-. eauto.
Qed.

(** ** Effects of the statements *)

Definition with_deferred (d : tdb) (t : txn) : txn := {| tx_db := d; tx_deferred := tx_deferred t |}.

Lemma CreateBusiness_ok id parent root name now t t' u :
  CreateBusiness id parent root name now t = Ok (t', u) ->
  t_business (tx_db t) !! id = None /\
  (forall q, parent = Some q -> business_in (tx_db t) q root = true) /\ (parent = None -> root = id) /\
  t' = with_deferred (set_business (<[id := {| bz_parent := parent; bz_root := root; bz_name := name;
         bz_status := "active"; bz_deleted := None; bz_created := now; bz_updated := now |}]>
         (t_business (tx_db t))) (tx_db t)) t.
Proof.
  intros Hr. unfold CreateBusiness in Hr. apply tx_put_ok in Hr as (d & Hd & ->).
  ok_tests Hd. subst d. to_prop. destruct parent as [q|]; simpl in *; to_ids; split_and!; naive_solver.
Qed.

Lemma insert_closure_ok a x n root t t' u :
  insert_closure (a, x, n, root) t = Ok (t', u) ->
  t_closure (tx_db t) !! (a, x) = None /\
  business_in (tx_db t) a root = true /\ business_in (tx_db t) x root = true /\
  t' = with_deferred (set_closure (<[(a, x) := {| cl_depth := n; cl_root := root |}]> (t_closure (tx_db t))) (tx_db t)) t.
Proof.
  intros Hr. unfold insert_closure in Hr. apply tx_put_ok in Hr as (d & Hd & ->).
  destruct (fenced (tx_db t) root); [done|]. destruct (t_closure (tx_db t) !! (a, x)) eqn:Hc; [done|].
  destruct (business_in (tx_db t) a root && business_in (tx_db t) x root) eqn:Hb; [|done].
  injection Hd as <-. to_prop. done.
Qed.

(** The rows that a list of closure inserts adds. *)
Definition closure_key (r : uuid * uuid * nat * uuid) : uuid * uuid := fst (fst r).
Definition closure_val (r : uuid * uuid * nat * uuid) : closure_row :=
  {| cl_depth := snd (fst r); cl_root := snd r |}.

Lemma insert_closures_ok rows t t' u :
  tx_iter insert_closure rows t = Ok (t', u) ->
  exists cl, t' = with_deferred (set_closure cl (tx_db t)) t /\
    forall k c, cl !! k = Some c <->
      t_closure (tx_db t) !! k = Some c \/ exists r, r ∈ rows /\ (k, c) = (closure_key r, closure_val r).
Proof.
  revert t. induction rows as [|[[[a x] n] root] rows IH]; intros t Hr; simpl in Hr.
  - tx_inv. exists (t_closure (tx_db t)). split; [by destruct t as [[] ?]|]. intros k c. split; [by left|].
    intros [Hc|(r & Hr & _)]; [done|]. by apply not_elem_of_nil in Hr.
  - tx_inv. apply insert_closure_ok in Hm as (Hn & _ & _ & ->). destruct (IH _ Hk) as (cl & -> & Hcl).
    exists cl. split; [by destruct t as [[] ?]|]. intros k c. rewrite Hcl. simpl. split.
    + intros [Hc|(r & Hr & Heq)]; [|by right; exists r; split; [by right|]].
      destruct (decide (k = (a, x))) as [->|Hne].
      * rewrite lookup_insert_eq in Hc. injection Hc as <-. right. eexists. split; [left|]. done.
      * rewrite lookup_insert_ne in Hc by done. by left.
    + intros [Hc|(r & Hr & Heq)].
      * left. rewrite lookup_insert_ne; [done|]. intros <-. congruence.
      * apply elem_of_cons in Hr as [->|Hr]; [|by right; eauto]. left. injection Heq as -> ->.
        by rewrite lookup_insert_eq.
Qed.

Lemma update_business_ok sel g t t' u :
  update_business sel g t = Ok (t', u) ->
  t' = with_deferred (set_business (mupdate (sel (tx_db t)) g (t_business (tx_db t))) (tx_db t)) t.
Proof. intros Hr. unfold update_business in Hr. apply tx_put_ok in Hr as (d & Hd & ->). destruct (mexists _ _); [done|]. by injection Hd as <-. Qed.

Lemma UpdateMembershipRole_ok c p b role by_ t t' u :
  UpdateMembershipRole c p b role by_ t = Ok (t', u) ->
  (t' = t /\ forall m, t_membership (tx_db t) !! (p, b) = Some m -> vis c (tx_db t) b = false) \/
  exists m, t_membership (tx_db t) !! (p, b) = Some m /\ vis c (tx_db t) b = true /\
    membership_triggers c (tx_db t) (mb_id m) p b (mb_root m) role = Ok tt /\
    role_exists (tx_db t) role = true /\ principal_exists (tx_db t) by_ = true /\
    t' = {| tx_db := set_membership (<[(p, b) := {| mb_id := mb_id m; mb_root := mb_root m; mb_role := role;
                       mb_granted_by := Some by_; mb_granted_at := mb_granted_at m |}]> (t_membership (tx_db t))) (tx_db t);
            tx_deferred := {[mb_root m]} ∪ tx_deferred t |}.
Proof.
  intros Hr. unfold UpdateMembershipRole in Hr. tx_inv. subst a.
  destruct (t_membership (tx_db t) !! (p, b)) as [m|] eqn:Hp; simpl in Hk; [|tx_inv; left; split; [done|naive_solver]].
  destruct (vis c (tx_db t) b) eqn:Hv; [|tx_inv; left; split; [done|naive_solver]].
  right. exists m. tx_inv. apply tx_put_ok in Hm as (d & Hd & ->).
  destruct (membership_triggers _ _ _ _ _ _ _) as [[]|] eqn:Ht; [|done].
  destruct (role_exists (tx_db t) role && principal_exists (tx_db t) by_) eqn:He; [|done]. injection Hd as <-.
  apply tx_defer_ok in Hk0 as ->. to_prop. split_and!; done.
Qed.

Lemma CreateMembership_ok c id p b root role by_ now t t' u :
  CreateMembership c id p b root role by_ now t = Ok (t', u) ->
  t_membership (tx_db t) !! (p, b) = None /\ membership_triggers c (tx_db t) id p b root role = Ok tt /\
  principal_exists (tx_db t) p = true /\ business_in (tx_db t) b root = true /\ role_exists (tx_db t) role = true /\
  t' = {| tx_db := set_membership (<[(p, b) := {| mb_id := id; mb_root := root; mb_role := role;
                     mb_granted_by := by_; mb_granted_at := now |}]> (t_membership (tx_db t))) (tx_db t);
          tx_deferred := {[root]} ∪ tx_deferred t |}.
Proof.
  intros Hr. unfold CreateMembership in Hr. tx_inv. apply tx_put_ok in Hm as (d & Hd & ->).
  destruct (membership_triggers _ _ _ _ _ _ _) as [[]|] eqn:Ht; [|done]. destruct (mexists _ _); [done|].
  destruct (t_membership (tx_db t) !! (p, b)) eqn:Hp; [done|].
  destruct (_ && _) eqn:He; [|done]. injection Hd as <-. apply tx_defer_ok in Hk as ->. to_prop. split_and!; done.
Qed.

Lemma DeleteMembershipAt_ok c p b t t' u :
  DeleteMembershipAt c p b t = Ok (t', u) ->
  (t' = t /\ forall m, t_membership (tx_db t) !! (p, b) = Some m -> vis c (tx_db t) b = false) \/
  exists m, t_membership (tx_db t) !! (p, b) = Some m /\ vis c (tx_db t) b = true /\
    t' = {| tx_db := set_membership (delete (p, b) (t_membership (tx_db t))) (tx_db t);
            tx_deferred := {[mb_root m]} ∪ tx_deferred t |}.
Proof.
  intros Hr. unfold DeleteMembershipAt in Hr. tx_inv. subst a.
  destruct (t_membership (tx_db t) !! (p, b)) as [m|] eqn:Hp; simpl in Hk; [|tx_inv; left; split; [done|naive_solver]].
  destruct (vis c (tx_db t) b) eqn:Hv; [|tx_inv; left; split; [done|naive_solver]].
  right. exists m. tx_inv. apply tx_put_ok in Hm as (d & Hd & ->). destruct (fenced _ _); [done|]. injection Hd as <-.
  apply tx_defer_ok in Hk0 as ->. done.
Qed.

Lemma InsertAuditEntry_ok e t t' u :
  InsertAuditEntry e t = Ok (t', u) ->
  t' = with_deferred (set_audit (t_audit (tx_db t) ++ [e]) (tx_db t)) t.
Proof.
  intros Hr. unfold InsertAuditEntry in Hr. apply tx_put_ok in Hr as (d & Hd & ->).
  ok_tests Hd. by subst d.
Qed.

Lemma EnqueueOutbox_ok id root topic payload t t' u :
  EnqueueOutbox id root topic payload t = Ok (t', u) ->
  t' = with_deferred (set_outbox (<[id := (root, topic, payload)]> (t_outbox (tx_db t))) (tx_db t)) t.
Proof.
  intros Hr. unfold EnqueueOutbox in Hr. apply tx_put_ok in Hr as (d & Hd & ->). destruct (fenced _ _); [done|].
  destruct (t_outbox (tx_db t) !! id); [done|]. by injection Hd as <-.
Qed.

(** ** The invariant *)

Definition shape_of (d : tdb) : shape := (fun b => (bz_parent b, bz_root b)) <$> t_business d.

Definition owns (d : tdb) (x : uuid) : Prop :=
  exists p m r, t_membership d !! (p, x) = Some m /\ t_role d !! mb_role m = Some r /\ rl_locked r = true.

(** No member of a master business holds a locked role but the Owner's.  The
    preset [agent_runtime] is locked too. *)
Definition plain (d : tdb) : Prop := forall p b row m r,
  t_business d !! b = Some row -> bz_parent row = None ->
  t_membership d !! (p, b) = Some m -> t_role d !! mb_role m = Some r -> rl_locked r = true -> rl_key r = "owner".

(** The invariant; [guarded] says whether every database there has been was
    [plain], on which the last part depends. *)
Record tenancy_inv (guarded : Prop) (d : tdb) : Prop := {
  (** the closure table is that of a bounded forest of tenants *)
  ok_tree : tree_ok (shape_of d) (t_closure d);
  (** a membership is in the tenant of its business, and so is its role if it is a custom one *)
  ok_member : forall p b m, t_membership d !! (p, b) = Some m ->
    business_in d b (mb_root m) = true /\ is_Some (t_principal d !! p) /\
    exists r, t_role d !! mb_role m = Some r /\ (rl_root r = None \/ rl_root r = Some (mb_root m));
  (** an agent is a member of its home business only *)
  ok_agent : forall p b m pr, t_membership d !! (p, b) = Some m -> t_principal d !! p = Some pr ->
    pr_kind pr = "agent" -> pr_home pr = Some b;
  (** one role per key and tenant; only presets are locked, and the Owner is *)
  ok_role_key : forall i j ri rj, t_role d !! i = Some ri -> t_role d !! j = Some rj ->
    rl_root ri = rl_root rj -> rl_key ri = rl_key rj -> i = j;
  ok_locked : forall i r, t_role d !! i = Some r ->
    (rl_locked r = true -> rl_root r = None) /\ (rl_root r = None -> rl_key r = "owner" -> rl_locked r = true);
  ok_owner_role : exists o r, t_role d !! o = Some r /\ rl_root r = None /\ rl_key r = "owner";
  (** the permissions of roles are in the catalog *)
  ok_perm : forall i k, (i, k) ∈ t_role_perm d -> is_Some (t_role d !! i) /\ is_Some (t_permission d !! k);
  (** a master business that is not deleted has a member with a locked role *)
  ok_owned : guarded -> forall x b, t_business d !! x = Some b -> bz_parent b = None -> bz_deleted b = None -> owns d x
}.
Arguments ok_tree {guarded} d.
Arguments ok_member {guarded} d.
Arguments ok_agent {guarded} d.
Arguments ok_role_key {guarded} d.
Arguments ok_locked {guarded} d.
Arguments ok_owner_role {guarded} d.
Arguments ok_perm {guarded} d.
Arguments ok_owned {guarded} d.
Abbreviation tenancy_ok := (tenancy_inv False).

Lemma shape_lookup d x : shape_of d !! x = (fun b => (bz_parent b, bz_root b)) <$> t_business d !! x.
Proof. unfold shape_of. by rewrite lookup_fmap. Qed.

Lemma business_in_shape d x r : business_in d x r = true <-> exists o, shape_of d !! x = Some (o, r).
Proof.
  unfold business_in. rewrite shape_lookup. destruct (t_business d !! x) as [b|]; simpl; [|naive_solver].
  rewrite N.eqb_eq. naive_solver.
Qed.

Section Visibility.
Context {G : Prop} (d : tdb) (Hok : tenancy_inv G d).

Lemma authorized_spec p b :
  authorized_businesses d p b = true <->
  p <> uuid_Nil /\ exists a m, t_membership d !! (p, a) = Some m /\ is_Some (t_closure d !! (a, b)).
Proof.
  unfold authorized_businesses. rewrite andb_true_iff, negb_true_iff, N.eqb_neq, mexists_true.
  setoid_rewrite andb_true_iff. setoid_rewrite N.eqb_eq. setoid_rewrite bool_decide_eq_true.
  split.
  - intros (Hp & [q a] & m & Hm & Hq & Hc). simpl in *. subst. eauto 10.
  - intros (Hp & a & m & Hm & Hc). split; [done|]. exists (p, a), m. done.
Qed.

(** Authorization goes down the tree. *)
Lemma authorized_down p a b :
  authorized_businesses d p a = true -> is_Some (t_closure d !! (a, b)) -> authorized_businesses d p b = true.
Proof.
  rewrite !authorized_spec. intros (Hp & e & m & Hm & Hc) Hab. split; [done|]. exists e, m. split; [done|].
  by eapply (closure_trans _ _ (ok_tree _ Hok)).
Qed.

Lemma member_business p b m : t_membership d !! (p, b) = Some m -> is_Some (t_business d !! b).
Proof.
  intros Hm. destruct (ok_member _ Hok _ _ _ Hm) as (Hb & _). unfold business_in in Hb.
  by destruct (t_business d !! b).
Qed.

Lemma member_authorized p b m : p <> uuid_Nil -> t_membership d !! (p, b) = Some m -> authorized_businesses d p b = true.
Proof.
  intros Hp Hm. apply authorized_spec. split; [done|]. exists b, m. split; [done|].
  apply (closure_refl _ _ (ok_tree _ Hok)). destruct (member_business _ _ _ Hm) as [row Hrow].
  rewrite shape_lookup, Hrow. eauto.
Qed.

(** The roles of a tenant are visible to whoever is authorized in it. *)
Lemma role_visible p b r root :
  authorized_businesses d p b = true -> business_in d b root = true ->
  rl_root r = None \/ rl_root r = Some root -> vis_role (AsApp p) d r = true.
Proof.
  intros Hp Hb [Hr|Hr]; unfold vis_role; rewrite Hr; [done|]. unfold authorized_tenants. apply mexists_true.
  unfold business_in in Hb. destruct (t_business d !! b) as [row|] eqn:Hrow; [|done].
  exists b, row. split; [done|]. by rewrite Hb, Hp.
Qed.

(** What [p] holds at [x], without the policies. *)
Lemma grants_visible p x a m :
  p <> uuid_Nil -> t_membership d !! (p, a) = Some m -> grants (AsApp p) d p x (p, a) = grants AsOwner d p x (p, a).
Proof.
  intros Hp Hm. unfold grants. simpl. rewrite (member_authorized _ _ _ Hp Hm).
  destruct (bool_decide (is_Some (t_closure d !! (a, x)))) eqn:Hc; [|by rewrite !andb_false_r].
  apply bool_decide_eq_true in Hc. rewrite (authorized_down p a x); [done| |done].
  by eapply member_authorized.
Qed.

Lemma own_role_visible p a m r :
  p <> uuid_Nil -> t_membership d !! (p, a) = Some m -> t_role d !! mb_role m = Some r -> vis_role (AsApp p) d r = true.
Proof.
  intros Hp Hm Hr. destruct (ok_member _ Hok _ _ _ Hm) as (Hb & _ & r' & Hr' & Ht). rewrite Hr in Hr'. simplify_eq.
  by eapply role_visible; [eapply member_authorized| |].
Qed.

(** Row-level security takes nothing from what a principal reads about itself. *)
Lemma HasOwnerRole_visible p x : p <> uuid_Nil -> HasOwnerRole (AsApp p) p x d = HasOwnerRole AsOwner p x d.
Proof.
  intros Hp. apply eq_iff_eq_true. unfold HasOwnerRole. rewrite !mexists_true. split; intros ([q a] & m & Hm & Hg).
  - apply andb_true_iff in Hg as [Hg Hr]. assert (q = p) as ->.
    { unfold grants in Hg. simpl in Hg. to_prop. by apply N.eqb_eq. }
    exists (p, a), m. split; [done|]. rewrite (grants_visible _ _ _ _ Hp Hm) in Hg. rewrite Hg. simpl.
    destruct (t_role d !! mb_role m) as [r|]; [|done]. to_prop. done.
  - apply andb_true_iff in Hg as [Hg Hr]. assert (q = p) as ->.
    { unfold grants in Hg. simpl in Hg. to_prop. by apply N.eqb_eq. }
    exists (p, a), m. split; [done|]. rewrite (grants_visible _ _ _ _ Hp Hm), Hg, andb_true_l.
    destruct (t_role d !! mb_role m) as [r|] eqn:Hrr; [|done].
    rewrite (own_role_visible _ _ _ _ Hp Hm Hrr). done.
Qed.
End Visibility.

(** ** What [Resolve] computes *)

Section Resolve.
Context `{UnicodeTables, UUIDLib, PgText}.

(** [p] holds [key] at [x]: some membership of [p] at [x] or above it, on a
    business that is not archived, has a locked role (that of the Owner, or
    [agent_runtime]) or a role with [key]. *)
Definition holds (d : tdb) (p x : uuid) (key : string) : Prop :=
  exists a m r b n, t_membership d !! (p, a) = Some m /\ t_role d !! mb_role m = Some r /\
    t_business d !! a = Some b /\ bz_status b <> "archived" /\
    is_Some (t_business d !! x) /\ up (shape_of d) n x = Some a /\ is_Some (t_permission d !! key) /\
    (rl_locked r = true \/ (mb_role m, key) ∈ t_role_perm d).

Lemma grants_spec {G : Prop} d p x q a :
  tenancy_inv G d ->
  grants AsOwner d p x (q, a) = true <->
  q = p /\ (exists b, t_business d !! a = Some b /\ bz_status b <> "archived") /\
  is_Some (t_business d !! x) /\ exists n, up (shape_of d) n x = Some a.
Proof.
  intros Hok. unfold grants. simpl. rewrite !andb_true_r, !andb_true_iff, N.eqb_eq, bool_decide_eq_true.
  rewrite (closure_some _ _ (ok_tree _ Hok)), shape_lookup.
  destruct (t_business d !! a) as [b|] eqn:Ha.
  - rewrite negb_true_iff, String.eqb_neq. rewrite fmap_is_Some. naive_solver.
  - naive_solver.
Qed.

Lemma catalog_spec d k : k ∈ AllPermissionKeys d <-> is_Some (t_permission d !! k).
Proof.
  unfold AllPermissionKeys, pg_sort. rewrite merge_sort_Permutation, list_elem_of_fmap. split.
  - intros ([k' v] & -> & Hk). apply elem_of_map_to_list in Hk. eauto.
  - intros [v Hv]. exists (k, v). split; [done|]. by apply elem_of_map_to_list.
Qed.

Lemma role_keys_spec d i k : k ∈ role_keys d i <-> (i, k) ∈ t_role_perm d.
Proof.
  unfold role_keys. rewrite list_elem_of_fmap. split.
  - intros ([i' k'] & -> & Hin). apply list_elem_of_In, List.filter_In in Hin as [Hin He].
    apply N.eqb_eq in He. simpl in *. subst. by apply elem_of_elements, list_elem_of_In.
  - intros Hk. exists (i, k). split; [done|]. apply list_elem_of_In, List.filter_In. simpl. rewrite N.eqb_refl.
    split; [|done]. by apply list_elem_of_In, elem_of_elements.
Qed.

Lemma role_permissions_spec c d i k :
  role_is_visible c d i = true -> k ∈ GetRolePermissions c i d <-> (i, k) ∈ t_role_perm d.
Proof.
  intros Hv. unfold GetRolePermissions. rewrite Hv. unfold pg_sort. rewrite merge_sort_Permutation. apply role_keys_spec.
Qed.

Lemma EffectivePermissions_spec c d p x k :
  k ∈ EffectivePermissions c p x d <->
  exists q a m, t_membership d !! (q, a) = Some m /\ grants c d p x (q, a) = true /\
    role_is_visible c d (mb_role m) = true /\ (mb_role m, k) ∈ t_role_perm d.
Proof.
  unfold EffectivePermissions. rewrite elem_of_list_to_set, list_elem_of_In, in_flat_map. split.
  - intros ([[q a] m] & Hin & Hk). apply list_elem_of_In, elem_of_map_to_list in Hin. simpl in Hk.
    destruct (grants c d p x (q, a) && role_is_visible c d (mb_role m)) eqn:Hg; [|done]. to_prop.
    apply list_elem_of_In, role_keys_spec in Hk. eauto 10.
  - intros (q & a & m & Hm & Hg & Hv & Hk). exists ((q, a), m).
    split; [by apply list_elem_of_In, elem_of_map_to_list|]. simpl. rewrite Hg, Hv. simpl.
    by apply list_elem_of_In, role_keys_spec.
Qed.

Lemma Resolve_owner_spec {G : Prop} d p x k : tenancy_inv G d -> k ∈ Resolve AsOwner p x d <-> holds d p x k.
Proof.
  intros Hok. unfold Resolve. destruct (HasOwnerRole AsOwner p x d) eqn:Ho.
  - rewrite elem_of_list_to_set, catalog_spec. apply mexists_true in Ho as ([q a] & m & Hm & Hg).
    apply andb_true_iff in Hg as [Hg Hr]. destruct (t_role d !! mb_role m) as [r|] eqn:Hrr; [|done]. simpl in Hr.
    apply (grants_spec _ _ _ _ _ Hok) in Hg as (-> & (b & Hb & Hs) & Hx & n & Hn).
    split; [|by intros (?&?&?&?&?&?&?&?&?&?&?&?&?)]. intros Hk. exists a, m, r, b, n. split_and!; auto.
  - rewrite EffectivePermissions_spec. split.
    + intros (q & a & m & Hm & Hg & _ & Hk). apply (grants_spec _ _ _ _ _ Hok) in Hg as (-> & (b & Hb & Hs) & Hx & n & Hn).
      destruct (ok_member _ Hok _ _ _ Hm) as (_ & _ & r & Hr & _). exists a, m, r, b, n.
      split_and!; auto. by apply (ok_perm _ Hok) in Hk as [_ ?].
    + intros (a & m & r & b & n & Hm & Hr & Hb & Hs & Hx & Hn & Hk & Hlk).
      assert (grants AsOwner d p x (p, a) = true) as Hg by (apply (grants_spec _ _ _ _ _ Hok); naive_solver).
      destruct Hlk as [Hl|Hl].
      * exfalso. unfold HasOwnerRole in Ho. rewrite mexists_false in Ho. specialize (Ho _ _ Hm).
        rewrite Hg, Hr in Ho. simpl in Ho. congruence.
      * exists p, a, m. done.
Qed.

(** The permissions [Resolve] computes for the caller, under the policies. *)
Lemma Resolve_spec {G : Prop} d p x k : tenancy_inv G d -> p <> uuid_Nil -> k ∈ Resolve (AsApp p) p x d <-> holds d p x k.
Proof.
  intros Hok Hp. rewrite <- Resolve_owner_spec by done. unfold Resolve. rewrite HasOwnerRole_visible by done.
  destruct (HasOwnerRole AsOwner p x d); [done|]. rewrite !EffectivePermissions_spec. split.
  - intros (q & a & m & Hm & Hg & _ & Hk). exists q, a, m. split_and!; [done| |done|done].
    assert (q = p) as -> by (unfold grants in Hg; simpl in Hg; to_ids; done).
    by rewrite <- (grants_visible _ Hok _ _ _ _ Hp Hm).
  - intros (q & a & m & Hm & Hg & _ & Hk). exists q, a, m.
    assert (q = p) as -> by (unfold grants in Hg; simpl in Hg; to_ids; done).
    rewrite (grants_visible _ Hok _ _ _ _ Hp Hm). split_and!; [done|done| |done].
    destruct (ok_member _ Hok _ _ _ Hm) as (_ & _ & r & Hr & _). unfold role_is_visible. rewrite Hr.
    by eapply own_role_visible.
Qed.

Lemma Resolve_nil d x : Resolve (AsApp uuid_Nil) uuid_Nil x d = ∅.
Proof.
  assert (forall k, grants (AsApp uuid_Nil) d uuid_Nil x k = false) as Hg.
  { intros k. unfold grants, vis, authorized_businesses. rewrite N.eqb_refl. simpl. by rewrite andb_false_r. }
  unfold Resolve. destruct (HasOwnerRole _ _ _ _) eqn:Ho.
  - apply mexists_true in Ho as (k & m & _ & Hk). rewrite Hg in Hk. done.
  - apply set_eq. intros k. rewrite EffectivePermissions_spec. split; [|set_solver].
    intros (q & a & m & _ & Hk & _). by rewrite Hg in Hk.
Qed.

(** Permissions go down the tree. *)
Lemma holds_down {G : Prop} d p x y k :
  tenancy_inv G d -> holds d p x k -> is_Some (t_closure d !! (x, y)) -> holds d p y k.
Proof.
  intros Hok (a & m & r & b & n & Hm & Hr & Hb & Hs & Hx & Hn & Hk & Hlk) Hc.
  apply (closure_some _ _ (ok_tree _ Hok)) in Hc as [Hy [j Hj]]. rewrite shape_lookup, fmap_is_Some in Hy.
  exists a, m, r, b, (j + n). split_and!; try done. by rewrite up_add, Hj.
Qed.
End Resolve.
