(* ===== verification/TenantOps.v ===== *)
(** * Every tenancy operation keeps the invariant

    [evolves d0 d] is what a transaction that read [d0] before it waited for the
    tenant's lock may rely on in [d]: businesses stay, with their tenant, masters
    stay masters, and deleted ones stay deleted.  Each operation keeps
    [tenancy_ok] and evolves, also when what it read is out of date. *)

From S2P Require Import Prelude GoStrings GoTime GoJson AutoGraph Errors TenantModel TenantService TenantTree TenantFacts.
#[local] Open Scope tx_scope.

Definition evolves (d d' : tdb) : Prop :=
  forall x b, t_business d !! x = Some b ->
  exists b', t_business d' !! x = Some b' /\ bz_root b' = bz_root b /\
    (bz_parent b' = None <-> bz_parent b = None) /\ (bz_deleted b <> None -> bz_deleted b' <> None).

#[export] Instance evolves_preorder : PreOrder evolves.
Proof.
  split.
  - intros d x b Hx. eauto.
  - intros d1 d2 d3 H12 H23 x b Hx. destruct (H12 _ _ Hx) as (b2 & Hx2 & Hr2 & Hp2 & Hd2).
    destruct (H23 _ _ Hx2) as (b3 & Hx3 & Hr3 & Hp3 & Hd3). exists b3. split; [done|].
    split; [congruence|]. naive_solver.
Qed.

Lemma evolves_same (d d' : tdb) : t_business d' = t_business d -> evolves d d'.
Proof. intros He x b Hx. rewrite He. eauto. Qed.

(** ** Changes that leave the structure alone *)

Lemma tenancy_ok_ext {G : Prop} (d d' : tdb) :
  tenancy_inv G d -> shape_of d' = shape_of d ->
  (forall x b', t_business d' !! x = Some b' -> bz_deleted b' = None ->
     exists b, t_business d !! x = Some b /\ bz_deleted b = None) ->
  t_closure d' = t_closure d -> t_membership d' = t_membership d -> t_role d' = t_role d ->
  t_role_perm d' = t_role_perm d ->
  (forall k, is_Some (t_permission d !! k) -> is_Some (t_permission d' !! k)) ->
  (forall p r, t_principal d !! p = Some r -> t_principal d' !! p = Some r) ->
  tenancy_inv G d'.
Proof.
  intros Hok Hs Hdel Hc Hm Hr Hrp Hperm Hpr. split.
  - rewrite Hs, Hc. apply (ok_tree _ Hok).
  - intros p b m. rewrite Hm. intros Hb. destruct (ok_member _ Hok _ _ _ Hb) as (Hbi & [pr Hpp] & r & Hrr & Ht).
    split; [apply business_in_shape; rewrite Hs; by apply business_in_shape|]. split; [eauto|]. exists r. by rewrite Hr.
  - intros p b m pr. rewrite Hm. intros Hb Hp. destruct (ok_member _ Hok _ _ _ Hb) as (_ & [pr' Hpp] & _).
    pose proof (Hpr _ _ Hpp) as Hp'. rewrite Hp in Hp'. simplify_eq. by apply (ok_agent _ Hok _ _ _ _ Hb).
  - rewrite Hr. apply (ok_role_key _ Hok).
  - rewrite Hr. apply (ok_locked _ Hok).
  - rewrite Hr. apply (ok_owner_role _ Hok).
  - intros i k. rewrite Hrp, Hr. intros Hik. destruct (ok_perm _ Hok _ _ Hik). eauto.
  - intros HG x b' Hx Hp Hd. destruct (Hdel _ _ Hx Hd) as (b & Hb & Hbd).
    assert (bz_parent b = None) as Hbp.
    { pose proof (f_equal (fun s : shape => s !! x) Hs) as He. cbv beta in He.
      rewrite !shape_lookup, Hx, Hb in He. simpl in He. congruence. }
    destruct (ok_owned _ Hok HG _ _ Hb Hbp Hbd) as (p & m & r & Ho). exists p, m, r. by rewrite Hm, Hr.
Qed.

Lemma ok_set_audit {G : Prop} x d : tenancy_inv G d -> tenancy_inv G (set_audit x d).
Proof. intros Hok. apply (tenancy_ok_ext d); naive_solver. Qed.
Lemma ok_set_outbox {G : Prop} x d : tenancy_inv G d -> tenancy_inv G (set_outbox x d).
Proof. intros Hok. apply (tenancy_ok_ext d); naive_solver. Qed.
Lemma ok_set_invitation {G : Prop} x d : tenancy_inv G d -> tenancy_inv G (set_invitation x d).
Proof. intros Hok. apply (tenancy_ok_ext d); naive_solver. Qed.

(** An update of rows that keeps parents, tenants and deletions. *)
Lemma ok_update_business {G : Prop} sel g d :
  tenancy_inv G d ->
  (forall b, bz_parent (g b) = bz_parent b /\ bz_root (g b) = bz_root b /\ (bz_deleted b <> None -> bz_deleted (g b) <> None)) ->
  tenancy_inv G (set_business (mupdate sel g (t_business d)) d) /\
  evolves d (set_business (mupdate sel g (t_business d)) d).
Proof.
  intros Hok Hg. split.
  - apply (tenancy_ok_ext d); try done.
    + apply map_eq. intros x. rewrite !shape_lookup. simpl. rewrite lookup_mupdate.
      destruct (t_business d !! x) as [b|]; simpl; [|done]. destruct (Hg b) as (Hp & Hr & _).
      destruct (sel x b); simpl; congruence.
    + simpl. intros x b'. rewrite lookup_mupdate. destruct (t_business d !! x) as [b|]; simpl; [|done].
      intros [= <-] Hd. exists b. split; [done|]. destruct (sel x b); [|done]. destruct (Hg b) as (_ & _ & Hdd).
      destruct (bz_deleted b) eqn:He; [|done]. exfalso. apply Hdd; [congruence|done].
  - intros x b Hx. simpl. rewrite lookup_mupdate, Hx. simpl. eexists. split; [done|].
    destruct (Hg b) as (Hp & Hr & Hd). destruct (sel x b); [|done]. rewrite Hp, Hr. done.
Qed.

(** ** Memberships *)

Section Members.
Context {G : Prop} (d : tdb) (Hok : tenancy_inv G d).

Lemma PresetRoleID_ok key i :
  PresetRoleID key d = Ok i -> exists r, t_role d !! i = Some r /\ rl_root r = None /\ rl_key r = key.
Proof.
  unfold PresetRoleID. destruct (mfind _ _) as [[j r]|] eqn:Hf; [|done]. intros [= ->].
  apply mfind_some in Hf as [Hi He]. to_ids. eauto.
Qed.

Lemma OwnerRoleID_ok i : OwnerRoleID d = Ok i -> exists r, t_role d !! i = Some r /\ rl_root r = None /\ rl_key r = "owner" /\ rl_locked r = true.
Proof.
  intros Ho. apply PresetRoleID_ok in Ho as (r & Hi & Hr & Hk). exists r. split_and!; [done..|]. by apply (ok_locked _ Hok _ _ Hi).
Qed.

Lemma OwnerRoleID_total : exists o, OwnerRoleID d = Ok o.
Proof.
  destruct (ok_owner_role _ Hok) as (o & r & Ho & Hr & Hk).
  unfold OwnerRoleID, PresetRoleID. destruct (mfind _ _) as [[j r']|] eqn:Hf; [eauto|].
  apply mfind_none in Hf. rewrite mexists_false in Hf. specialize (Hf _ _ Ho). rewrite Hr, Hk in Hf. done.
Qed.

Lemma membership_in_tenant p b m row :
  t_membership d !! (p, b) = Some m -> t_business d !! b = Some row -> mb_root m = bz_root row.
Proof.
  intros Hm Hb. destruct (ok_member _ Hok _ _ _ Hm) as (Hin & _). unfold business_in in Hin. rewrite Hb in Hin.
  by apply N.eqb_eq in Hin.
Qed.

(** A membership is written: the new role must be one of the tenant's, and a
    master must not lose its last Owner. *)
Lemma ok_set_member p b m r :
  business_in d b (mb_root m) = true -> is_Some (t_principal d !! p) ->
  t_role d !! mb_role m = Some r -> rl_root r = None \/ rl_root r = Some (mb_root m) ->
  (forall pr, t_principal d !! p = Some pr -> pr_kind pr = "agent" -> pr_home pr = Some b) ->
  (G -> forall row, t_business d !! b = Some row -> bz_parent row = None -> rl_locked r = false ->
     (forall m0 r0, t_membership d !! (p, b) = Some m0 -> t_role d !! mb_role m0 = Some r0 -> rl_locked r0 = false) \/
     exists p' m' r', p' <> p /\ t_membership d !! (p', b) = Some m' /\ t_role d !! mb_role m' = Some r' /\ rl_locked r' = true) ->
  tenancy_inv G (set_membership (<[(p, b) := m]> (t_membership d)) d).
Proof.
  intros Hb Hp Hr Ht Hag Hown. destruct Hok as [H1 H2 H3 H4 H5 H6 H7 H8]. split; try assumption.
  - intros p' b' m'. simpl. destruct (decide ((p', b') = (p, b))) as [[= -> ->]|Hne].
    + rewrite lookup_insert_eq. intros [= <-]. split_and!; [done|done|]. exists r. done.
    + rewrite lookup_insert_ne by congruence. apply H2.
  - intros p' b' m' pr. simpl. destruct (decide ((p', b') = (p, b))) as [[= -> ->]|Hne].
    + rewrite lookup_insert_eq. intros _. apply Hag.
    + rewrite lookup_insert_ne by congruence. apply H3.
  - intros HG x row Hx Hpar Hlive. simpl in Hx. destruct (H8 HG _ _ Hx Hpar Hlive) as (q & mq & rq & Hq & Hrq & Hl).
    destruct (decide ((q, x) = (p, b))) as [[= -> ->]|Hne].
    + destruct (rl_locked r) eqn:Hlr; [exists p, m, r; simpl; by rewrite lookup_insert_eq|].
      destruct (Hown HG _ Hx Hpar eq_refl) as [Hno|(p' & m' & r' & Hpp & Hm' & Hr' & Hl')].
      * rewrite (Hno _ _ Hq Hrq) in Hl. done.
      * exists p', m', r'. simpl. rewrite lookup_insert_ne by congruence. done.
    + exists q, mq, rq. simpl. rewrite lookup_insert_ne by congruence. done.
Qed.

Lemma ok_delete_member p b :
  (G -> forall row, t_business d !! b = Some row -> bz_parent row = None ->
     (forall m0 r0, t_membership d !! (p, b) = Some m0 -> t_role d !! mb_role m0 = Some r0 -> rl_locked r0 = false) \/
     exists p' m' r', p' <> p /\ t_membership d !! (p', b) = Some m' /\ t_role d !! mb_role m' = Some r' /\ rl_locked r' = true) ->
  tenancy_inv G (set_membership (delete (p, b) (t_membership d)) d).
Proof.
  intros Hown. destruct Hok as [H1 H2 H3 H4 H5 H6 H7 H8]. split; try assumption.
  - intros p' b' m'. simpl. intros [_ Hm]%lookup_delete_Some. by apply H2.
  - intros p' b' m' pr. simpl. intros [_ Hm]%lookup_delete_Some. by eapply H3.
  - intros HG x row Hx Hpar Hlive. simpl in Hx. destruct (H8 HG _ _ Hx Hpar Hlive) as (q & mq & rq & Hq & Hrq & Hl).
    destruct (decide ((q, x) = (p, b))) as [[= -> ->]|Hne].
    + destruct (Hown HG _ Hx Hpar) as [Hno|(p' & m' & r' & Hpp & Hm' & Hr' & Hl')].
      * rewrite (Hno _ _ Hq Hrq) in Hl. done.
      * exists p', m', r'. simpl. rewrite lookup_delete_ne by congruence. done.
    + exists q, mq, rq. simpl. rewrite lookup_delete_ne by congruence. done.
Qed.
End Members.

(** ** Operations of the hierarchy *)

Section Operations.
Context `{UnicodeTables, UUIDLib, PgText}.

(** An operation keeps the invariant when its body does, whatever it loaded. *)
Definition keeps (f : tdb -> tdb -> tdb) : Prop :=
  forall (G : Prop) d0 d, tenancy_inv G d0 -> tenancy_inv G d -> (G -> plain d) -> evolves d0 d ->
    tenancy_inv G (f d0 d) /\ evolves d (f d0 d).

Lemma keeps_locked {A B : Type} (p : uuid) (load : tdb -> result error A) (body : A -> txm B) :
  (forall (G : Prop) d0 d a t b, tenancy_inv G d0 -> tenancy_inv G d -> (G -> plain d) -> evolves d0 d -> load d0 = Ok a ->
     body a {| tx_db := d; tx_deferred := ∅ |} = Ok (t, b) -> tenancy_inv G (tx_db t) /\ evolves d (tx_db t)) ->
  keeps (fun d0 d => fst (locked_tx p load body d0 d)).
Proof.
  intros Hb G d0 d Hok0 Hok Hpl Hev. unfold locked_tx. destruct (load d0) as [a|e] eqn:Hl; [|by split; [|reflexivity]].
  unfold WithPrincipal. destruct (run_tx_cases (AsApp p) (body a) d) as [(t & b & Ht & _ & He)|[e He]]; rewrite He; simpl.
  - by apply (Hb G d0 d a t b).
  - by split; [|reflexivity].
Qed.

Lemma keeps_tx {A : Type} (c : dbctx) (body : txm A) :
  (forall (G : Prop) d t a, tenancy_inv G d -> body {| tx_db := d; tx_deferred := ∅ |} = Ok (t, a) ->
     tenancy_inv G (tx_db t) /\ evolves d (tx_db t)) ->
  keeps (fun _ d => fst (run_tx c body d)).
Proof.
  intros Hb G d0 d _ Hok _ _. destruct (run_tx_cases c body d) as [(t & a & Ht & _ & He)|[e He]]; rewrite He; simpl.
  - by apply (Hb G d t a).
  - by split; [|reflexivity].
Qed.

Lemma keeps_same {A : Type} (b : bool) (r : result error A) (f : tdb -> tdb -> tdb * result error A) :
  keeps (fun d0 d => fst (f d0 d)) -> keeps (fun d0 d => fst (if b then (d, r) else f d0 d)).
Proof. intros Hf G d0 d Hok0 Hok Hpl Hev. destruct b; [by split; [|reflexivity]|by apply Hf]. Qed.

Lemma loadVisible_ok p id d b : loadVisible p id d = Ok b -> t_business d !! id = Some b /\ bz_deleted b = None.
Proof.
  unfold loadVisible, GetBusiness. destruct (t_business d !! id) as [row|]; [|done].
  unfold live. destruct (vis _ _ _); simpl; [|done]. destruct (bz_deleted row) eqn:Hd; [done|]. by intros [= <-].
Qed.

(** What was loaded before the lock is still there, in the same tenant. *)
Lemma loaded_still p id d0 d b :
  evolves d0 d -> loadVisible p id d0 = Ok b ->
  exists b', t_business d !! id = Some b' /\ bz_root b' = bz_root b /\ (bz_parent b' = None <-> bz_parent b = None).
Proof.
  intros Hev [Hb _]%loadVisible_ok. destruct (Hev _ _ Hb) as (b' & Hb' & Hr & Hp & _). eauto.
Qed.

Lemma requirePerm_ok p b perm t t' u : requirePerm p b perm t = Ok (t', u) -> t' = t /\ perm ∈ Resolve (AsApp p) p b (tx_db t).
Proof. intros Hr. unfold requirePerm in Hr. tx_inv. subst a. unfold Has in Hk. to_prop. done. Qed.

Lemma audit_ok {G : Prop} e d t t' u :
  tenancy_inv G (tx_db t) -> evolves d (tx_db t) -> InsertAuditEntry e t = Ok (t', u) ->
  tenancy_inv G (tx_db t') /\ evolves d (tx_db t').
Proof.
  intros Hok Hev Ha. apply InsertAuditEntry_ok in Ha as ->. simpl. split; [by apply ok_set_audit|].
  etrans; [exact Hev|]. by apply evolves_same.
Qed.

Lemma enqueue_ok {G : Prop} id root topic payload d t t' u :
  tenancy_inv G (tx_db t) -> evolves d (tx_db t) -> EnqueueOutbox id root topic payload t = Ok (t', u) ->
  tenancy_inv G (tx_db t') /\ evolves d (tx_db t').
Proof.
  intros Hok Hev Ha. apply EnqueueOutbox_ok in Ha as ->. simpl. split; [by apply ok_set_outbox|].
  etrans; [exact Hev|]. by apply evolves_same.
Qed.

Lemma setStatus_keeps p nodeID status action now : keeps (fun d0 d => fst (setStatus p nodeID status action now d0 d)).
Proof.
  apply keeps_locked. intros G d0 d node t [] Hok0 Hok Hpl Hev Hl Hr. tx_inv.
  apply requirePerm_ok in Hm as [-> _]. apply update_business_ok in Hm0 as ->.
  destruct (ok_update_business (fun x b => bool_decide (is_Some (t_closure d !! (nodeID, x))) && vis (AsApp p) d x && live b)
    (fun b => {| bz_parent := bz_parent b; bz_root := bz_root b; bz_name := bz_name b; bz_status := status;
                 bz_deleted := bz_deleted b; bz_created := bz_created b; bz_updated := now |}) d Hok) as [Hok' Hev']; [done|].
  last_step t Ha. by eapply audit_ok in Ha.
Qed.

Lemma Delete_keeps p nodeID now : keeps (fun d0 d => fst (Delete p nodeID now d0 d)).
Proof.
  apply keeps_locked. intros G d0 d node t [] Hok0 Hok Hpl Hev Hl Hr. tx_inv.
  apply requirePerm_ok in Hm as [-> _]. apply update_business_ok in Hm2 as ->.
  last_step t Ha. eapply audit_ok in Ha; [exact Ha| |]; apply (ok_update_business (G := G)); naive_solver.
Qed.

Lemma RenameBusiness_keeps p nodeID name now : keeps (fun _ d => fst (RenameBusiness_api p nodeID name now d)).
Proof.
  unfold RenameBusiness_api. apply (keeps_same _ _ (fun _ d => _)). apply keeps_tx. intros G d t [] Hok Hr. tx_inv.
  apply requirePerm_ok in Hm0 as [-> _]. unfold RenameBusiness in Hm1. destruct (has_nul name); [done|]. tx_inv.
  match type of Hk0 with (if ?b then _ else _) _ = _ => destruct b; [done|] end. apply update_business_ok in Hk0 as ->.
  last_step t Ha. eapply audit_ok in Ha; [exact Ha| |]; apply (ok_update_business (G := G)); naive_solver.
Qed.

(** ** New businesses *)

Lemma tx_iter_map {A B : Type} (f : B -> txm unit) (g : A -> B) (l : list A) (t : txn) :
  tx_iter (fun a => f (g a)) l t = tx_iter f (map g l) t.
Proof.
  revert t. induction l as [|a l IH]; intros t; simpl; [done|]. unfold tx_bind. destruct (f (g a) t) as [[]|]; auto.
Qed.

Lemma shape_insert d x b : shape_of (set_business (<[x := b]> (t_business d)) d) = <[x := (bz_parent b, bz_root b)]> (shape_of d).
Proof. unfold shape_of. simpl. by rewrite fmap_insert. Qed.

Lemma shape_none d x : t_business d !! x = None -> shape_of d !! x = None.
Proof. intros Hx. by rewrite shape_lookup, Hx. Qed.

(** A new business keeps what concerns memberships and roles. *)
Lemma ok_new_business {G : Prop} d x row cl :
  tenancy_inv G d -> t_business d !! x = None -> bz_parent row <> None ->
  tree_ok (<[x := (bz_parent row, bz_root row)]> (shape_of d)) cl ->
  tenancy_inv G (set_closure cl (set_business (<[x := row]> (t_business d)) d)) /\
  evolves d (set_closure cl (set_business (<[x := row]> (t_business d)) d)).
Proof.
  intros Hok Hx Hpar Htree. split.
  - destruct Hok as [H1' H2 H3 H4 H5 H6 H7 H8]. split; try assumption.
    + change (tree_ok (shape_of (set_business (<[x := row]> (t_business d)) d)) cl). by rewrite shape_insert.
    + intros p b m Hm. destruct (H2 _ _ _ Hm) as (Hb & Hp & Hr). split_and!; try assumption.
      unfold business_in in *. simpl. destruct (decide (b = x)) as [->|Hne]; [by rewrite Hx in Hb|].
      by rewrite lookup_insert_ne.
    + intros HG y b. simpl. destruct (decide (y = x)) as [->|Hne].
      * rewrite lookup_insert_eq. intros [= <-]. done.
      * rewrite lookup_insert_ne by done. by apply H8.
  - intros y b Hy. simpl. destruct (decide (y = x)) as [->|Hne]; [congruence|].
    rewrite lookup_insert_ne by done. eauto.
Qed.

Lemma vis_mono_closure p d d' b :
  t_membership d' = t_membership d -> (forall k, is_Some (t_closure d !! k) -> is_Some (t_closure d' !! k)) ->
  authorized_businesses d p b = true -> authorized_businesses d' p b = true.
Proof.
  intros Hm Hc. rewrite !authorized_spec, Hm. naive_solver.
Qed.

Lemma InsertChildClosure_ok c x q r t t' u :
  InsertChildClosure c x q r t = Ok (t', u) -> vis c (tx_db t) q = true ->
  exists cl, t' = with_deferred (set_closure cl (tx_db t)) t /\
    forall k v, cl !! k = Some v <-> t_closure (tx_db t) !! k = Some v \/
      exists row, row ∈ map (fun e => (fst (fst e), x, S (cl_depth (snd e)), r))
                    (mselect (fun k _ => N.eqb (snd k) q) (t_closure (tx_db t))) /\
                  (k, v) = (closure_key row, closure_val row).
Proof.
  intros Hi Hv. unfold InsertChildClosure in Hi. tx_inv. rewrite tx_iter_map in Hk.
  apply insert_closures_ok in Hk as (cl & -> & Hcl). exists cl. split; [done|]. subst a.
  intros k v. rewrite Hcl. do 4 f_equiv.
  unfold mselect. erewrite (filter_ext_in _ (fun e => N.eqb (snd (fst e)) q)); [done|].
  intros [[y z] w] _. simpl. destruct (N.eqb_spec z q) as [->|]; [by rewrite Hv|done].
Qed.

Lemma DepthFromRoot_ok c x root d n :
  DepthFromRoot c x root d = Ok n -> vis c d x = true /\ exists r, t_closure d !! (root, x) = Some r /\ cl_depth r = n.
Proof.
  unfold DepthFromRoot. destruct (t_closure d !! (root, x)) as [r|]; [|done]. destruct (vis c d x); [|done].
  intros [= <-]. eauto.
Qed.

(** The closure table after a child was linked under [q]. *)
Lemma child_closure {G : Prop} (d : tdb) (x q r : uuid) (cl : closure) :
  tenancy_inv G d -> t_business d !! x = None -> t_business d !! q <> None ->
  (forall k c, cl !! k = Some c <->
     (<[(x, x) := {| cl_depth := 0; cl_root := r |}]> (t_closure d)) !! k = Some c \/
     exists row, row ∈ map (fun e => (fst (fst e), x, S (cl_depth (snd e)), r))
                   (mselect (fun k _ => N.eqb (snd k) q)
                      (<[(x, x) := {| cl_depth := 0; cl_root := r |}]> (t_closure d))) /\
                 (k, c) = (closure_key row, closure_val row)) ->
  forall k c, cl !! k = Some c <->
    t_closure d !! k = Some c \/ (k, c) = ((x, x), {| cl_depth := 0; cl_root := r |}) \/
    exists a ca, t_closure d !! (a, q) = Some ca /\ (k, c) = ((a, x), {| cl_depth := S (cl_depth ca); cl_root := r |}).
Proof.
  intros Hok Hx Hq Hcl k c. rewrite Hcl. assert (x <> q) as Hne by congruence.
  assert (forall a b, is_Some (t_closure d !! (a, b)) -> a <> x /\ b <> x) as Hnew.
  { intros a b Hc. destruct (closure_in _ _ (ok_tree _ Hok) _ _ Hc) as [[? Ha] [? Hb]].
    rewrite shape_lookup in Ha, Hb. split; intros ->; by rewrite Hx in *. }
  assert (forall c', (<[(x, x) := {| cl_depth := 0; cl_root := r |}]> (t_closure d)) !! k = Some c' <->
                     t_closure d !! k = Some c' \/ (k, c') = ((x, x), {| cl_depth := 0; cl_root := r |})) as Hself.
  { intros c'. destruct (decide (k = (x, x))) as [->|Hk].
    - rewrite lookup_insert_eq. split; [intros [= <-]; by right|]. intros [Hc|[= ->]]; [|done].
      by destruct (Hnew x x) as [? _].
    - rewrite lookup_insert_ne by done. split; [by left|]. intros [Hc|[= ? ?]]; done. }
  rewrite Hself. split.
  - intros [[Hc|Hc]|(row & Hin & Heq)]; [by left|by right; left|]. right. right.
    apply list_elem_of_fmap in Hin as ([[a b] ca] & -> & Hin). apply elem_of_mselect in Hin as [Hc Hsel].
    simpl in *. to_ids. subst b. rewrite lookup_insert_ne in Hc by congruence. eauto.
  - intros [Hc|[Hc|(a & ca & Hc & Heq)]]; [by left; left|by left; right|]. right. eexists. split.
    + apply list_elem_of_fmap. exists ((a, q), ca). split; [done|]. apply elem_of_mselect. simpl.
      rewrite lookup_insert_ne by congruence. by rewrite N.eqb_refl.
    + done.
Qed.

Lemma CreateSubBusiness_keeps p parentID name childID outboxID now :
  keeps (fun d0 d => fst (CreateSubBusiness p parentID name childID outboxID now d0 d)).
Proof.
  unfold CreateSubBusiness. apply keeps_same. apply keeps_locked. intros G d0 d parent t b Hok0 Hok Hpl Hev Hl Hr. tx_inv.
  apply requirePerm_ok in Hm as [-> _]. simpl in *.
  apply DepthFromRoot_ok in Hm0 as (Hvis & rc & Hrc & Hdep).
  destruct (loaded_still _ _ _ _ _ Hev Hl) as (prow & Hprow & Hroot & _).
  apply CreateBusiness_ok in Hm2 as (Hfresh & _ & _ & ->).
  apply insert_closure_ok in Hm3 as (_ & _ & _ & ->). simpl in *.
  apply InsertChildClosure_ok in Hm4 as (cl & -> & Hcl); [|simpl].
  2:{ eapply vis_mono_closure; [| |exact Hvis]; [done|]. simpl. intros k' Hc'.
      destruct (decide (k' = (childID, childID))) as [->|]; [rewrite lookup_insert_eq; eauto|].
      by rewrite lookup_insert_ne by congruence. }
  set (row := {| bz_parent := Some parentID; bz_root := bz_root parent; bz_name := name; bz_status := "active";
                 bz_deleted := None; bz_created := now; bz_updated := now |}) in *.
  assert (tree_ok (<[childID := (bz_parent row, bz_root row)]> (shape_of d)) cl) as Htree.
  { apply (tree_ok_leaf _ _ (ok_tree _ Hok) _ (shape_none _ _ Hfresh) _ _ (bz_parent prow) (cl_depth rc)).
    - rewrite shape_lookup, Hprow. simpl. by rewrite Hroot.
    - by apply (closure_depth _ _ (ok_tree _ Hok)).
    - apply Nat.leb_le in Hm1. lia.
    - apply (child_closure (G := G)); [done|done|congruence|exact Hcl]. }
  destruct (ok_new_business d childID row cl Hok Hfresh) as [Hok' Hev']; [done|done|].
  eapply audit_ok in Hm5 as [Hok2 Hev2]; [|exact Hok'|exact Hev']. by eapply enqueue_ok in Hm6.
Qed.

Lemma ok_new_master {G : Prop} d x row cl p m r :
  tenancy_inv G d -> t_business d !! x = None -> bz_parent row = None -> bz_root row = x ->
  tree_ok (<[x := (None, x)]> (shape_of d)) cl ->
  is_Some (t_principal d !! p) -> (forall pr, t_principal d !! p = Some pr -> pr_kind pr = "agent" -> pr_home pr = Some x) ->
  t_role d !! mb_role m = Some r -> rl_locked r = true -> mb_root m = x ->
  let d' := set_membership (<[(p, x) := m]> (t_membership d)) (set_closure cl (set_business (<[x := row]> (t_business d)) d)) in
  tenancy_inv G d' /\ evolves d d'.
Proof.
  intros Hok Hx Hpar Hroot Htree Hp Hag Hr Hl Hmr d'. split.
  - pose proof Hok as [H1' H2 H3 H4 H5 H6 H7 H8].
    assert (forall q y mq, y <> x -> t_membership d' !! (q, y) = Some mq <-> t_membership d !! (q, y) = Some mq) as Hmem.
    { intros q y mq Hne. simpl. by rewrite lookup_insert_ne by congruence. }
    assert (forall q, t_membership d !! (q, x) = None) as Hnone.
    { intros q. destruct (t_membership d !! (q, x)) eqn:Hq; [|done]. destruct (H2 _ _ _ Hq) as (Hb & _).
      unfold business_in in Hb. by rewrite Hx in Hb. }
    assert (forall q mq, t_membership d' !! (q, x) = Some mq -> q = p /\ mq = m) as Hmx.
    { intros q mq. simpl. destruct (decide (q = p)) as [->|Hne]; [rewrite lookup_insert_eq; naive_solver|].
      rewrite lookup_insert_ne by congruence. by rewrite Hnone. }
    split; try assumption.
    + change (tree_ok (shape_of (set_business (<[x := row]> (t_business d)) d)) cl).
      by rewrite shape_insert, Hpar, Hroot.
    + intros q y mq Hq. destruct (decide (y = x)) as [->|Hne].
      * apply Hmx in Hq as [-> ->]. split_and!; [|done|].
        -- unfold business_in. simpl. by rewrite lookup_insert_eq, Hroot, Hmr, N.eqb_refl.
        -- exists r. split; [done|]. left. by apply (H5 _ _ Hr).
      * apply Hmem in Hq; [|done]. destruct (H2 _ _ _ Hq) as (Hb & ? & ?). split_and!; try assumption.
        unfold business_in in *. simpl. by rewrite lookup_insert_ne.
    + intros q y mq pr Hq. destruct (decide (y = x)) as [->|Hne].
      * apply Hmx in Hq as [-> ->]. apply Hag.
      * apply Hmem in Hq; [|done]. by apply (H3 _ _ mq).
    + intros HG y b. simpl. destruct (decide (y = x)) as [->|Hne].
      * intros _ _ _. exists p, m, r. simpl. by rewrite lookup_insert_eq.
      * rewrite lookup_insert_ne by done. intros Hy Hyp Hyd.
        destruct (H8 HG _ _ Hy Hyp Hyd) as (q & mq & rq & Hq & ?). exists q, mq, rq. simpl.
        by rewrite lookup_insert_ne by congruence.
  - intros y b Hy. simpl. destruct (decide (y = x)) as [->|Hne]; [congruence|].
    rewrite lookup_insert_ne by done. eauto.
Qed.

Lemma membership_agent_home c d id p b role pr :
  membership_agent_guard c d id p b role = true -> t_principal d !! p = Some pr -> pr_kind pr = "agent" -> pr_home pr = Some b.
Proof.
  unfold membership_agent_guard. intros Hg Hp Hk. rewrite Hp, Hk in Hg. simpl in Hg. to_prop. done.
Qed.

Lemma membership_triggers_ok c d id p b root role :
  membership_triggers c d id p b root role = Ok tt ->
  membership_agent_guard c d id p b role = true /\ membership_role_tenant_guard c d root role = true /\ root ∉ t_fence d.
Proof.
  unfold membership_triggers, write_fence, fenced. intros Ht.
  destruct (membership_agent_guard _ _ _ _ _ _); [|done]. destruct (membership_role_tenant_guard _ _ _ _); [|done]. simpl in Ht.
  destruct (bool_decide _) eqn:Hf; [done|]. to_prop. done.
Qed.

Lemma CreateMasterBusiness_keeps creator name bizID memberID outboxID now :
  keeps (fun _ d => fst (CreateMasterBusiness creator name bizID memberID outboxID now d)).
Proof.
  unfold CreateMasterBusiness. apply (keeps_same _ _ (fun _ d => _)). apply keeps_tx. intros G d t b Hok Hr. tx_inv. simpl in *.
  apply (OwnerRoleID_ok _ Hok) in Hm1 as (orow & Horole & _ & _ & Hol).
  apply CreateBusiness_ok in Hm2 as (Hfresh & _ & _ & ->).
  apply insert_closure_ok in Hm3 as (_ & _ & _ & ->). simpl in *.
  apply CreateMembership_ok in Hm4 as (_ & Htr & Hpe & _ & _ & ->). simpl in *.
  apply membership_triggers_ok in Htr as (Hag & _ & _). unfold principal_exists in Hpe. to_prop.
  match type of Hm5 with context [set_membership (<[_ := ?m]> _) (set_closure ?cl (set_business (<[_ := ?row]> _) _))] =>
    destruct (ok_new_master d bizID row cl creator m orow Hok Hfresh) as [Hok' Hev']
  end; try done.
  - apply (tree_ok_root _ _ (ok_tree _ Hok) _ (shape_none _ _ Hfresh)). intros k c.
    destruct (decide (k = (bizID, bizID))) as [->|Hk'].
    + rewrite lookup_insert_eq. split; [intros [= <-]; by right|]. intros [Hc|[= ->]]; [|done].
      destruct (closure_in _ _ (ok_tree _ Hok) bizID bizID) as [[? Hin] _]; [eauto|].
      by rewrite (shape_none _ _ Hfresh) in Hin.
    + rewrite lookup_insert_ne by done. split; [by left|]. intros [Hc|[= ? ?]]; done.
  - intros pr Hpr Hkind. by eapply membership_agent_home in Hag.
  - eapply audit_ok in Hm5 as [Hok2 Hev2]; [|exact Hok'|exact Hev']. by eapply enqueue_ok in Hm6.
Qed.

(** ** Moves *)

Lemma perm_authorized {G : Prop} d p x k : tenancy_inv G d -> k ∈ Resolve (AsApp p) p x d -> authorized_businesses d p x = true.
Proof.
  intros Hok Hk. destruct (decide (p = uuid_Nil)) as [->|Hp]; [rewrite Resolve_nil in Hk; set_solver|].
  apply (Resolve_spec _ _ _ _ Hok Hp) in Hk as (a & m & r & b & n & Hm & _ & _ & _ & Hx & Hn & _).
  apply authorized_spec. split; [done|]. exists a, m. split; [done|]. apply (closure_some _ _ (ok_tree _ Hok)).
  rewrite shape_lookup, fmap_is_Some. eauto.
Qed.

(** The height the service reads bounds the subtree, since all of it is visible. *)
Lemma SubtreeHeight_bound {G : Prop} d p node k x :
  tenancy_inv G d -> authorized_businesses d p node = true -> is_Some (t_business d !! x) ->
  up (shape_of d) k x = Some node -> k <= SubtreeHeight (AsApp p) node d.
Proof.
  intros Hok Hv [b Hb] Hk. unfold SubtreeHeight. apply max_list_elem_of_le, list_elem_of_fmap.
  exists ((node, x), {| cl_depth := k; cl_root := bz_root b |}). split; [done|]. apply elem_of_mselect.
  assert (t_closure d !! (node, x) = Some {| cl_depth := k; cl_root := bz_root b |}) as Hc.
  { apply (closure_exact _ _ (ok_tree _ Hok)). simpl. exists (bz_parent b). by rewrite shape_lookup, Hb. }
  split; [done|]. simpl. rewrite N.eqb_refl. simpl. eapply (authorized_down _ Hok); eauto.
Qed.

(** The closure rows [move_business] keeps, and the table it leaves. *)
Definition kept_rows (d : tdb) (node : uuid) : closure :=
  mdelete (fun k _ => in_subtree d node (snd k) && negb (in_subtree d node (fst k))) (t_closure d).

Lemma move_business_ok node np root now row t t' u :
  t_business (tx_db t) !! node = Some row -> move_business node np root now t = Ok (t', u) ->
  exists cl, t' = with_deferred (set_business (<[node := {| bz_parent := Some np; bz_root := bz_root row;
           bz_name := bz_name row; bz_status := bz_status row; bz_deleted := bz_deleted row;
           bz_created := bz_created row; bz_updated := now |}]>
           (t_business (tx_db t))) (set_closure cl (tx_db t))) t /\
    forall k c, cl !! k = Some c <-> kept_rows (tx_db t) node !! k = Some c \/
      exists r, r ∈ move_rows node np root (set_closure (kept_rows (tx_db t) node) (tx_db t)) /\
                (k, c) = (closure_key r, closure_val r).
Proof.
  intros Hrow Hr. unfold move_business in Hr. tx_inv. unfold move_delete in Hm. apply tx_put_ok in Hm as (d1 & Hd1 & ->).
  ok_tests Hd1. subst d1. simpl in *. subst. apply insert_closures_ok in Hm1 as (cl & -> & Hcl). simpl in *.
  last_step t' Hp. unfold move_parent in Hp. apply tx_put_ok in Hp as (d2 & Hd2 & ->). simpl in *. rewrite Hrow in Hd2.
  ok_tests Hd2. subst d2. exists cl. split; [done|]. exact Hcl.
Qed.

Lemma move_rows_spec node np root d r :
  r ∈ move_rows node np root d <->
  exists a x ca cx, t_closure d !! (a, np) = Some ca /\ t_closure d !! (node, x) = Some cx /\
    r = (a, x, S (cl_depth ca + cl_depth cx), root).
Proof.
  unfold move_rows. rewrite list_elem_of_In, in_flat_map. split.
  - intros ([[a y] ca] & Hsup & Hin). apply list_elem_of_In, elem_of_mselect in Hsup as [Ha Hy]. simpl in *.
    apply N.eqb_eq in Hy as ->. apply in_map_iff in Hin as ([[z x] cx] & <- & Hsub).
    apply list_elem_of_In, elem_of_mselect in Hsub as [Hx Hz]. simpl in *. apply N.eqb_eq in Hz as ->. eauto 10.
  - intros (a & x & ca & cx & Ha & Hx & ->). exists ((a, np), ca). split.
    + apply list_elem_of_In, elem_of_mselect. simpl. by rewrite N.eqb_refl.
    + apply in_map_iff. exists ((node, x), cx). split; [done|].
      apply list_elem_of_In, elem_of_mselect. simpl. by rewrite N.eqb_refl.
Qed.

(** The new closure table is the one [tree_ok_move] asks for. *)
Lemma moved_closure {G : Prop} (d : tdb) (node np r : uuid) (cl : closure) :
  tenancy_inv G d -> is_Some (t_business d !! node) -> in_subtree d node np = false ->
  (forall k c, cl !! k = Some c <-> kept_rows d node !! k = Some c \/
     exists row, row ∈ move_rows node np r (set_closure (kept_rows d node) d) /\
                 (k, c) = (closure_key row, closure_val row)) ->
  forall a x c, cl !! (a, x) = Some c <->
    (t_closure d !! (a, x) = Some c /\ (is_Some (t_closure d !! (node, x)) -> is_Some (t_closure d !! (node, a)))) \/
    exists ca cx, t_closure d !! (a, np) = Some ca /\ t_closure d !! (node, x) = Some cx /\
      c = {| cl_depth := S (cl_depth ca + cl_depth cx); cl_root := r |}.
Proof.
  intros Hok Hnode Hnp Hcl a x c. rewrite Hcl.
  assert (in_subtree d node node = true) as Hself.
  { apply bool_decide_eq_true, (closure_refl _ _ (ok_tree _ Hok)). by rewrite shape_lookup, fmap_is_Some. }
  assert (forall b z v, kept_rows d node !! (b, z) = Some v <->
    t_closure d !! (b, z) = Some v /\ (in_subtree d node z = true -> in_subtree d node b = true)) as Hkept.
  { intros b z v. unfold kept_rows. rewrite lookup_mdelete_Some. simpl.
    destruct (in_subtree d node z), (in_subtree d node b); naive_solver. }
  rewrite Hkept. unfold in_subtree in *. rewrite !bool_decide_eq_true.
  setoid_rewrite move_rows_spec. simpl. f_equiv. split.
  - intros (row & (b & z & ca & cx & Hb & Hz & ->) & Heq). unfold closure_key, closure_val in Heq. simpl in Heq.
    injection Heq as -> -> ->. apply Hkept in Hb as [Hb _]. apply Hkept in Hz as [Hz _]. eauto.
  - intros (ca & cx & Ha & Hx & ->). eexists. split.
    + exists a, x, ca, cx. split_and!; [apply Hkept..|done]; (split; [done|]); intros Hs; rewrite ?Hnp in Hs; done.
    + done.
Qed.

Lemma ok_moved {G : Prop} d node np cl row row' :
  tenancy_inv G d -> t_business d !! node = Some row -> bz_parent row <> None -> bz_parent row' = Some np ->
  bz_root row' = bz_root row -> bz_deleted row' = bz_deleted row ->
  tree_ok (<[node := (Some np, bz_root row)]> (shape_of d)) cl ->
  let d' := set_business (<[node := row']> (t_business d)) (set_closure cl d) in tenancy_inv G d' /\ evolves d d'.
Proof.
  intros Hok Hrow Hpar Hpar' Hroot Hdel Htree d'. split.
  - destruct Hok as [H1' H2 H3 H4 H5 H6 H7 H8]. split; try assumption.
    + change (tree_ok (shape_of (set_business (<[node := row']> (t_business d)) d)) cl).
      by rewrite shape_insert, Hpar', Hroot.
    + intros p b m Hm. destruct (H2 _ _ _ Hm) as (Hb & Hp & Hr). split_and!; try assumption.
      unfold business_in in *. simpl. destruct (decide (b = node)) as [->|Hne].
      * rewrite lookup_insert_eq, Hroot. by rewrite Hrow in Hb.
      * by rewrite lookup_insert_ne.
    + intros HG y b. simpl. destruct (decide (y = node)) as [->|Hne].
      * rewrite lookup_insert_eq. intros [= <-]. congruence.
      * rewrite lookup_insert_ne by done. by apply H8.
  - intros y b Hy. simpl. destruct (decide (y = node)) as [->|Hne].
    + rewrite lookup_insert_eq. exists row'. split; [done|]. rewrite Hrow in Hy. injection Hy as <-.
      rewrite Hroot, Hdel, Hpar'. split_and!; [done|naive_solver|done].
    + rewrite lookup_insert_ne by done. eauto.
Qed.

(** What a move that goes through found and did. *)
Definition moved_row (row : biz_row) (np : uuid) (now : time) : biz_row :=
  {| bz_parent := Some np; bz_root := bz_root row; bz_name := bz_name row; bz_status := bz_status row;
     bz_deleted := bz_deleted row; bz_created := bz_created row; bz_updated := now |}.
Record move_facts (p node np : uuid) (now : time) (d : tdb) (t : txn) (row : biz_row) (cl : closure) : Prop := {
  mf_row : t_business d !! node = Some row;
  mf_sub : bz_parent row <> None;
  mf_perm : "hierarchy.manage" ∈ Resolve (AsApp p) p node d;
  mf_perm_new : "hierarchy.manage" ∈ Resolve (AsApp p) p np d;
  mf_outside : in_subtree d node np = false;
  mf_parent : exists prow n, t_business d !! np = Some prow /\ bz_root prow = bz_root row /\
    up (shape_of d) n np = Some (bz_root row) /\ n + 1 + SubtreeHeight (AsApp p) node d <= MaxDepth;
  mf_closure : forall a x c, cl !! (a, x) = Some c <->
    (t_closure d !! (a, x) = Some c /\ (is_Some (t_closure d !! (node, x)) -> is_Some (t_closure d !! (node, a)))) \/
    exists ca cx, t_closure d !! (a, np) = Some ca /\ t_closure d !! (node, x) = Some cx /\
      c = {| cl_depth := S (cl_depth ca + cl_depth cx); cl_root := bz_root row |};
  mf_after : exists e, tx_db t = set_audit (t_audit d ++ [e])
    (set_business (<[node := moved_row row np now]> (t_business d)) (set_closure cl d))
}.

Lemma move_body_ok {G : Prop} p node np now row0 d0 d t u :
  tenancy_inv G d -> evolves d0 d -> move_load p node np d0 = Ok row0 ->
  move_body p node np now row0 {| tx_db := d; tx_deferred := ∅ |} = Ok (t, u) ->
  exists row cl, move_facts p node np now d t row cl.
Proof.
  intros Hok Hev Hl Hr. unfold move_load in Hl.
  destruct (loadVisible p node d0) as [node'|] eqn:Hn; [|done].
  destruct (loadVisible p np d0) as [np'|] eqn:Hnp; [|done]. destruct (N.eqb _ _) eqn:Heq; [|done].
  injection Hl as ->. apply N.eqb_eq in Heq. unfold move_body in Hr. tx_inv.
  apply requirePerm_ok in Hm as [-> Hp1]. apply requirePerm_ok in Hm0 as [-> Hp2]. simpl in *. to_prop.
  apply DepthFromRoot_ok in Hm4 as (Hvis & rc & Hrc & Hdep).
  destruct (loaded_still _ _ _ _ _ Hev Hn) as (nrow & Hnrow & Hnroot & Hnpar).
  destruct (loaded_still _ _ _ _ _ Hev Hnp) as (prow & Hprow & Hproot & _).
  destruct (move_business_ok _ _ _ _ nrow {| tx_db := d; tx_deferred := ∅ |} _ _ Hnrow Hm7) as (cl & -> & Hcl).
  simpl in *. subst. last_step t Ha. apply InsertAuditEntry_ok in Ha as ->.
  assert (in_subtree d node np = false) as Hns.
  { unfold IsDescendant in Hm3. simpl in Hm3. by rewrite Hvis, andb_true_r in Hm3. }
  exists nrow, cl. split; try done.
  - rewrite Hnpar. by destruct Hm1 as [? ->].
  - exists prow, (cl_depth rc). split_and!; [done|congruence| |apply Nat.leb_le in Hm6; lia].
    rewrite Hnroot. by apply (closure_depth _ _ (ok_tree _ Hok)).
  - rewrite Hnroot. by apply (moved_closure (G := G)).
  - eexists. reflexivity.
Qed.

Lemma Move_keeps p nodeID newParentID now : keeps (fun d0 d => fst (Move p nodeID newParentID now d0 d)).
Proof.
  unfold Move. apply keeps_same. apply keeps_locked. intros G d0 d node t [] Hok0 Hok Hpl Hev Hl Hr.
  destruct (move_body_ok _ _ _ _ _ _ _ _ _ Hok Hev Hl Hr) as (row & cl & Hf).
  destruct (mf_parent _ _ _ _ _ _ _ _ Hf) as (prow & n & Hprow & Hproot & Hup & Hdepth).
  pose proof (mf_row _ _ _ _ _ _ _ _ Hf) as Hrow. destruct (mf_after _ _ _ _ _ _ _ _ Hf) as [e ->].
  assert (tree_ok (<[nodeID := (Some newParentID, bz_root row)]> (shape_of d)) cl) as Htree.
  { apply (tree_ok_move _ _ (ok_tree _ Hok) _ _ _ (bz_parent row) (bz_parent prow)
             ltac:(by rewrite shape_lookup, Hrow) ltac:(rewrite shape_lookup, Hprow; simpl; congruence))
      with (dnp := n) (h := SubtreeHeight (AsApp p) nodeID d); try done.
    - intros j Hj. pose proof (mf_outside _ _ _ _ _ _ _ _ Hf) as Hns. apply bool_decide_eq_false in Hns.
      apply Hns, (closure_some _ _ (ok_tree _ Hok)). rewrite shape_lookup, Hprow. eauto.
    - intros k x ox Hx Hk'. eapply (SubtreeHeight_bound (G := G)); [done| | |done].
      + by eapply (perm_authorized (G := G)), (mf_perm _ _ _ _ _ _ _ _ Hf).
      + rewrite shape_lookup in Hx. destruct (t_business d !! x); [eauto|done].
    - apply (mf_closure _ _ _ _ _ _ _ _ Hf). }
  destruct (ok_moved (G := G) d nodeID newParentID cl row (moved_row row newParentID now)) as [Hok' Hev']; try done.
  { apply (mf_sub _ _ _ _ _ _ _ _ Hf). }
  split; [by apply ok_set_audit|]. done.
Qed.

End Operations.
