(* ===== verification/TenantMembers.v ===== *)
(** * Membership and role operations keep the invariant

    In particular no operation leaves a master business without an Owner. *)

From S2P Require Import Prelude GoStrings GoTime GoJson AutoGraph Errors TenantModel TenantService TenantTree TenantFacts TenantOps.
From stdpp Require Import sorting.
#[local] Open Scope tx_scope.

Section Members.
Context `{UnicodeTables, UUIDLib, PgText}.

Lemma guardLastOwner_ok actor business root cur locked t t' u :
  guardLastOwner actor business root cur locked t = Ok (t', u) ->
  t' = t /\ (locked = true \/ business <> root \/
    exists o, OwnerRoleID (tx_db t) = Ok o /\ (cur <> o \/ 2 <= CountDirectOwners (AsApp actor) business (tx_db t))).
Proof.
  unfold guardLastOwner. destruct locked; simpl; [intros Hr; tx_inv; auto|].
  destruct (N.eqb_spec business root) as [->|Hne]; simpl; [|intros Hr; tx_inv; auto].
  intros Hr. tx_inv. destruct (N.eqb_spec cur a) as [->|Hc]; simpl in Hk; tx_inv; [|by eauto 10].
  split; [done|]. right. right. exists a. split; [done|]. right. subst. apply Nat.ltb_lt in Hk0. lia.
Qed.

(** What the guard passed: the membership is no Owner's, or there is another Owner. *)
Lemma last_owner_safe {G : Prop} d actor p b root cur locked m :
  tenancy_inv G d -> t_membership d !! (p, b) = Some m -> mb_role m = cur ->
  (forall row, t_business d !! b = Some row -> bz_root row = root) -> locked = false ->
  (locked = true \/ b <> root \/
    exists o, OwnerRoleID d = Ok o /\ (cur <> o \/ 2 <= CountDirectOwners (AsApp actor) b d)) ->
  plain d -> forall row, t_business d !! b = Some row -> bz_parent row = None ->
  (forall m0 r0, t_membership d !! (p, b) = Some m0 -> t_role d !! mb_role m0 = Some r0 -> rl_locked r0 = false) \/
  exists p' m' r', p' <> p /\ t_membership d !! (p', b) = Some m' /\ t_role d !! mb_role m' = Some r' /\ rl_locked r' = true.
Proof.
  intros Hok Hm Hcur Hroot -> Hg Hpl row Hrow Hpar. pose proof (Hroot _ Hrow) as Hr.
  assert (bz_root row = b) as Hb.
  { apply (master_root _ _ (ok_tree _ Hok) b). by rewrite shape_lookup, Hrow, <- Hpar. }
  destruct Hg as [?|[Hne|(o & Ho & [Hc|Hc])]]; [done|congruence| |].
  - left. intros m0 r0 Hm0 Hr0. rewrite Hm in Hm0. injection Hm0 as <-.
    destruct (rl_locked r0) eqn:Hl; [|done]. exfalso. apply Hc. subst cur.
    destruct (OwnerRoleID_ok _ Hok _ Ho) as (ro & Hro & Hrr & Hrk & _). destruct (ok_locked _ Hok _ _ Hr0) as [Hn _].
    eapply (ok_role_key _ Hok); [exact Hr0|exact Hro|by rewrite Hn|]. rewrite Hrk. by eapply Hpl.
  - right. apply (mcount_other _ _ (p, b)) in Hc as ([p' b'] & m' & Hne & Hm' & Hf). simpl in Hf. to_ids. subst b'.
    destruct (t_role d !! mb_role m') as [r'|] eqn:Hr'; [|done]. to_prop. exists p', m', r'.
    split_and!; try done. congruence.
Qed.

Lemma GetMembershipAt_ok c p b d m : GetMembershipAt c p b d = Ok m -> t_membership d !! (p, b) = Some m /\ vis c d b = true.
Proof. unfold GetMembershipAt. destruct (t_membership d !! (p, b)); [|done]. destruct (vis c d b); [|done]. by intros [= <-]. Qed.

Lemma GetRoleInTenant_ok c id root d r :
  GetRoleInTenant c id root d = Ok r ->
  t_role d !! id = Some r /\ vis_role c d r = true /\ (rl_root r = None \/ rl_root r = Some root).
Proof.
  unfold GetRoleInTenant, assignable. destruct (t_role d !! id) as [r'|]; [|done].
  destruct (vis_role c d r' && _) eqn:Hv; [|done]. intros [= <-]. to_prop. split_and!; [done..|].
  destruct (rl_root r'); [|by left]. right. to_ids. congruence.
Qed.

Lemma audited {G : Prop} d e t t' u :
  tenancy_inv G (tx_db t) -> t_business (tx_db t) = t_business d -> InsertAuditEntry e t = Ok (t', u) ->
  tenancy_inv G (tx_db t') /\ evolves d (tx_db t').
Proof. intros Hok Hb. apply audit_ok; [done|]. by apply evolves_same. Qed.

Lemma guardEscalation_ok actor business role locked t t' u :
  guardEscalation actor business role locked t = Ok (t', u) ->
  t' = t /\ if locked then HasOwnerRole (AsApp actor) actor business (tx_db t) = true
            else forall k, k ∈ GetRolePermissions (AsApp actor) role (tx_db t) -> k ∈ Resolve (AsApp actor) actor business (tx_db t).
Proof.
  unfold guardEscalation. destruct locked; intros Hr; tx_inv; subst; [done|]. split; [done|].
  intros k Hk'. specialize (Hk0 _ Hk'). unfold Has in Hk0. by to_prop.
Qed.

Lemma ChangeMemberRole_keeps actor business target newRoleID :
  keeps (fun d0 d => fst (ChangeMemberRole actor business target newRoleID d0 d)).
Proof.
  apply keeps_locked. intros G d0 d biz t [] Hok0 Hok Hpl Hev Hl Hr. tx_inv.
  apply requirePerm_ok in Hm as [-> _]. simpl in *.
  apply GetRoleInTenant_ok in Hm0 as (Hrole & _ & Hten). apply GetMembershipAt_ok in Hm1 as [Hmem Hvis].
  destruct (N.eqb_spec (mb_role a1) newRoleID) as [He|Hne]; tx_inv; [split; [done|reflexivity]|].
  apply guardEscalation_ok in Hm as [-> _]. apply guardLastOwner_ok in Hm0 as [-> Hlast]. simpl in *.
  apply UpdateMembershipRole_ok in Hm1 as [[-> Hno]|(m & Hm' & _ & _ & _ & _ & ->)]; simpl in *;
    [by rewrite (Hno _ Hmem) in Hvis|]. rewrite Hmem in Hm'. injection Hm' as <-.
  destruct (loaded_still _ _ _ _ _ Hev Hl) as (brow & Hbrow & Hbroot & _).
  pose proof (membership_in_tenant _ Hok _ _ _ _ Hmem Hbrow) as Hmt.
  destruct (ok_member _ Hok _ _ _ Hmem) as (Hbi & Hpr & _).
  last_step t Ha. eapply audited in Ha; [exact Ha| |done]. apply (ok_set_member _ Hok _ _ _ a0); try done.
  - simpl. rewrite Hmt, Hbroot. done.
  - intros pr Hp Hk'. by apply (ok_agent _ Hok _ _ _ _ Hmem Hp).
  - intros HG row Hrow Hpar Hlk. eapply (last_owner_safe _ actor); eauto. intros row' Hrow'. congruence.
Qed.

(** The removal of a membership, with the guard. *)
Lemma remove_member_keeps {G : Prop} actor p business biz d0 d e m t t1 t2 u v :
  tenancy_inv G d -> (G -> plain d) -> evolves d0 d -> loadVisible actor business d0 = Ok biz ->
  t_membership d !! (p, business) = Some m -> vis (AsApp actor) d business = true ->
  guardLastOwner actor business (bz_root biz) (mb_role m) false {| tx_db := d; tx_deferred := ∅ |} = Ok (t1, u) ->
  DeleteMembershipAt (AsApp actor) p business t1 = Ok (t2, v) ->
  InsertAuditEntry e t2 = Ok (t, tt) -> tenancy_inv G (tx_db t) /\ evolves d (tx_db t).
Proof.
  intros Hok Hpl Hev Hl Hmem Hvis Hg Hdel Ha. apply guardLastOwner_ok in Hg as [-> Hlast]. simpl in *.
  apply DeleteMembershipAt_ok in Hdel as [[-> Hno]|(m' & Hm' & _ & ->)]; simpl in *; [by rewrite (Hno _ Hmem) in Hvis|].
  destruct (loaded_still _ _ _ _ _ Hev Hl) as (brow & Hbrow & Hbroot & _).
  eapply audited in Ha; [exact Ha| |done]. apply (ok_delete_member _ Hok).
  intros HG row Hrow Hpar. eapply (last_owner_safe d actor p business (bz_root biz) (mb_role m) false m); eauto. intros row' Hrow'. congruence.
Qed.

Lemma RevokeMember_keeps actor business target : keeps (fun d0 d => fst (RevokeMember actor business target d0 d)).
Proof.
  apply keeps_locked. intros G d0 d biz t [] Hok0 Hok Hpl Hev Hl Hr. tx_inv.
  apply requirePerm_ok in Hm as [-> _]. simpl in *. apply GetMembershipAt_ok in Hm0 as [Hmem Hvis].
  by eapply remove_member_keeps.
Qed.

Lemma LeaveBusiness_keeps caller business : keeps (fun d0 d => fst (LeaveBusiness caller business d0 d)).
Proof.
  apply keeps_locked. intros G d0 d biz t [] Hok0 Hok Hpl Hev Hl Hr. tx_inv. simpl in *.
  apply GetMembershipAt_ok in Hm as [Hmem Hvis]. by eapply remove_member_keeps.
Qed.

(** The new Owner is promoted before the old one steps down. *)
Lemma TransferOwnership_keeps actor business to : keeps (fun d0 d => fst (TransferOwnership actor business to d0 d)).
Proof.
  unfold TransferOwnership. destruct (N.eqb_spec actor to) as [->|Hne].
  { intros G d0 d Hok0 Hok Hpl Hev. by split; [|reflexivity]. }
  apply keeps_locked. intros G d0 d biz t [] Hok0 Hok Hpl Hev Hl Hr. tx_inv. simpl in *. subst.
  apply GetMembershipAt_ok in Hm1 as [Hmem Hvis]. apply (OwnerRoleID_ok _ Hok) in Hm4 as (ro & Hro & Hrn & _ & Hlo).
  apply (PresetRoleID_ok _) in Hm5 as (ra & Hra & Hrr & Hrk).
  apply UpdateMembershipRole_ok in Hm6 as [[-> Hno]|(m & Hm' & _ & _ & _ & _ & ->)]; simpl in *;
    [by rewrite (Hno _ Hmem) in Hvis|]. rewrite Hmem in Hm'. injection Hm' as <-.
  destruct (ok_member _ Hok _ _ _ Hmem) as (Hbi & Hpr & _).
  match type of Hm7 with context [set_membership ?x d] => assert (tenancy_inv G (set_membership x d)) as Hok1 end.
  { apply (ok_set_member _ Hok _ _ _ ro); try done.
    - by left.
    - intros pr Hp Hk'. by apply (ok_agent _ Hok _ _ _ _ Hmem Hp).
    - intros _ row _ _ Hf. congruence. }
  last_step t Ha. eapply audited in Ha; [exact Ha| |].
  - apply UpdateMembershipRole_ok in Hm7 as [[-> _]|(m2 & Hmm & _ & _ & _ & _ & ->)]; [done|]. simpl in *.
    destruct (ok_member _ Hok1 _ _ _ Hmm) as (Hbi2 & Hpr2 & _).
    apply (ok_set_member _ Hok1 _ _ _ ra); try done; simpl.
    + by left.
    + intros pr Hp Hk'. by apply (ok_agent _ Hok1 _ _ _ _ Hmm Hp).
    + intros _ row _ _ _. right. eexists to, _, ro. split; [done|]. rewrite lookup_insert_eq. done.
  - apply UpdateMembershipRole_ok in Hm7 as [[-> _]|(m2 & Hmm & _ & _ & _ & _ & ->)]; done.
Qed.
End Members.

(** ** Roles *)

Lemma ok_new_role {G : Prop} d id r root :
  tenancy_inv G d -> t_role d !! id = None -> rl_root r = Some root -> rl_locked r = false ->
  (forall i ri, t_role d !! i = Some ri -> rl_root ri = Some root -> rl_key ri = rl_key r -> False) ->
  tenancy_inv G (set_role (<[id := r]> (t_role d)) d).
Proof.
  intros Hok Hid Hroot Hlk Hkey. destruct Hok as [H1 H2 H3 H4 H5 H6 H7 H8].
  assert (forall i ri, t_role d !! i = Some ri -> t_role (set_role (<[id := r]> (t_role d)) d) !! i = Some ri) as Hold.
  { intros i ri Hi. simpl. rewrite lookup_insert_ne; [done|]. intros ->. congruence. }
  split; try assumption.
  - intros p b m Hm. destruct (H2 _ _ _ Hm) as (Hb & Hp & r' & Hr' & Ht). split_and!; try assumption. eauto.
  - intros i j ri rj. simpl. destruct (decide (i = id)) as [->|Hi], (decide (j = id)) as [->|Hj];
      rewrite ?lookup_insert_eq, ?lookup_insert_ne by done; [done| | |apply H4].
    + intros [= <-] Hj' Hr Hk. exfalso. eapply Hkey; [exact Hj'|congruence|done].
    + intros Hi' [= <-] Hr Hk. exfalso. eapply Hkey; [exact Hi'|congruence|done].
  - intros i ri. simpl. destruct (decide (i = id)) as [->|Hi]; [rewrite lookup_insert_eq|rewrite lookup_insert_ne by done; apply H5].
    intros [= <-]. rewrite Hlk, Hroot. naive_solver.
  - destruct H6 as (o & ro & Ho & Hl). eauto.
  - intros i k Hik. destruct (H7 _ _ Hik) as [[ri Hi] Hk]. eauto.
  - intros HG x b Hx Hp Hd. destruct (H8 HG _ _ Hx Hp Hd) as (p & m & ro & Hm & Ho & Hl). exists p, m, ro. eauto.
Qed.

Lemma ok_rename_role {G : Prop} d id r r' :
  tenancy_inv G d -> t_role d !! id = Some r -> rl_root r' = rl_root r -> rl_key r' = rl_key r -> rl_locked r' = rl_locked r ->
  tenancy_inv G (set_role (<[id := r']> (t_role d)) d).
Proof.
  intros Hok Hid Hroot Hkey Hlk. destruct Hok as [H1 H2 H3 H4 H5 H6 H7 H8].
  assert (forall i ri', t_role (set_role (<[id := r']> (t_role d)) d) !! i = Some ri' ->
            exists ri, t_role d !! i = Some ri /\ rl_root ri' = rl_root ri /\ rl_key ri' = rl_key ri /\ rl_locked ri' = rl_locked ri) as Hback.
  { intros i ri'. simpl. destruct (decide (i = id)) as [->|Hi]; [rewrite lookup_insert_eq|rewrite lookup_insert_ne by done]; naive_solver. }
  assert (forall i ri, t_role d !! i = Some ri -> exists ri', t_role (set_role (<[id := r']> (t_role d)) d) !! i = Some ri' /\
            rl_root ri' = rl_root ri /\ rl_key ri' = rl_key ri /\ rl_locked ri' = rl_locked ri) as Hold.
  { intros i ri Hi. simpl. destruct (decide (i = id)) as [->|Hne]; [rewrite lookup_insert_eq|rewrite lookup_insert_ne by done].
    - rewrite Hid in Hi. injection Hi as <-. eauto.
    - eauto 10. }
  split; try assumption.
  - intros p b m Hm. destruct (H2 _ _ _ Hm) as (Hb & Hp & rm & Hrm & Ht). split_and!; try assumption.
    destruct (Hold _ _ Hrm) as (rm' & Hrm' & He & _). exists rm'. by rewrite He.
  - intros i j ri rj Hi Hj Hr Hk. destruct (Hback _ _ Hi) as (ri0 & Hi0 & ? & ? & ?).
    destruct (Hback _ _ Hj) as (rj0 & Hj0 & ? & ? & ?). eapply H4; [exact Hi0|exact Hj0|congruence|congruence].
  - intros i ri Hi. destruct (Hback _ _ Hi) as (ri0 & Hi0 & -> & -> & ->). by apply (H5 i).
  - destruct H6 as (o & ro & Ho & Hr). destruct (Hold _ _ Ho) as (ro' & Ho' & Hr' & Hk' & _). exists o, ro'. by rewrite Hr', Hk'.
  - intros i k Hik. destruct (H7 _ _ Hik) as [[ri Hi] Hk]. destruct (Hold _ _ Hi) as (ri' & Hi' & _). eauto.
  - intros HG x b Hx Hp Hd. destruct (H8 HG _ _ Hx Hp Hd) as (p & m & ro & Hm & Ho & Hl).
    destruct (Hold _ _ Ho) as (ro' & Ho' & _ & _ & Hl'). exists p, m, ro'. by rewrite Hl'.
Qed.

Lemma ok_set_role_perm {G : Prop} d s :
  tenancy_inv G d -> (forall i k, (i, k) ∈ s -> is_Some (t_role d !! i) /\ is_Some (t_permission d !! k)) ->
  tenancy_inv G (set_role_perm s d).
Proof. intros Hok Hs. destruct Hok as [H1 H2 H3 H4 H5 H6 H7 H8]. split; assumption. Qed.

Lemma ok_delete_role {G : Prop} d id r root :
  tenancy_inv G d -> t_role d !! id = Some r -> rl_root r = Some root ->
  (forall p b m, t_membership d !! (p, b) = Some m -> mb_role m <> id) ->
  tenancy_inv G (set_role_perm (filter (fun x => fst x <> id) (t_role_perm d)) (set_role (delete id (t_role d)) d)).
Proof.
  intros Hok Hid Hroot Hfree. destruct Hok as [H1 H2 H3 H4 H5 H6 H7 H8].
  assert (rl_locked r = false) as Hlk.
  { destruct (rl_locked r) eqn:Hl; [|done]. apply (H5 _ _ Hid) in Hl. congruence. }
  split; try assumption; simpl.
  - intros p b m Hm. destruct (H2 _ _ _ Hm) as (Hb & Hp & r' & Hr' & Ht). split_and!; try assumption.
    exists r'. rewrite lookup_delete_ne; [done|]. intros Heq. by apply (Hfree _ _ _ Hm).
  - intros i j ri rj [_ Hi]%lookup_delete_Some [_ Hj]%lookup_delete_Some. by apply H4.
  - intros i ri [_ Hi]%lookup_delete_Some. by apply (H5 i).
  - destruct H6 as (o & ro & Ho & Hn & Hl). exists o, ro. rewrite lookup_delete_ne; [done|]. intros ->. congruence.
  - intros i k. rewrite elem_of_filter. simpl. intros [Hne Hik]. destruct (H7 _ _ Hik) as [[ri Hi] Hk].
    split; [|done]. rewrite lookup_delete_ne by done. eauto.
  - intros HG x b Hx Hp Hd. destruct (H8 HG _ _ Hx Hp Hd) as (p & m & ro & Hm & Ho & Hl). exists p, m, ro.
    split_and!; [done| |done]. simpl. rewrite lookup_delete_ne; [done|]. intros ->. congruence.
Qed.

(** A transaction state that satisfies the invariant, with the businesses of [d]. *)
Definition settled (G : Prop) (d : tdb) (t : txn) : Prop := tenancy_inv G (tx_db t) /\ t_business (tx_db t) = t_business d.

Lemma tx_iter_inv {A : Type} (I : txn -> Prop) (f : A -> txm unit) (l : list A) :
  (forall a t t' u, a ∈ l -> I t -> f a t = Ok (t', u) -> I t') ->
  forall t t' u, I t -> tx_iter f l t = Ok (t', u) -> I t'.
Proof.
  induction l as [|a l IH]; intros Hf t t' u Ht Hr; simpl in Hr; tx_inv; [done|].
  apply (IH ltac:(intros; eapply Hf; [by right|done|done]) _ _ _ (Hf _ _ _ _ ltac:(left) Ht Hm) Hk).
Qed.

Lemma AddRolePermission_settled {G : Prop} d rid k t t' u :
  settled G d t -> AddRolePermission rid k t = Ok (t', u) -> settled G d t'.
Proof.
  intros [Hok Hb] Hr. unfold AddRolePermission in Hr. apply tx_put_ok in Hr as (d' & Hd & ->). ok_tests Hd. subst d'.
  split; [|done]. apply ok_set_role_perm; [done|]. intros i k'. rewrite elem_of_union, elem_of_singleton.
  intros [[= -> ->]|Hik]; [split; eauto|]. by apply (ok_perm _ Hok).
Qed.

Lemma ClearRolePermissions_settled {G : Prop} c d rid t t' u :
  settled G d t -> ClearRolePermissions c rid t = Ok (t', u) -> settled G d t'.
Proof.
  intros [Hok Hb] Hr. unfold ClearRolePermissions in Hr. apply tx_put_ok in Hr as (d' & Hd & ->).
  ok_tests Hd; subst d'; [done|]. split; [|done]. apply ok_set_role_perm; [done|].
  intros i k. rewrite elem_of_filter. intros [_ Hik]. by apply (ok_perm _ Hok).
Qed.

Lemma UpdateRoleName_settled {G : Prop} c d rid name t t' u :
  settled G d t -> UpdateRoleName c rid name t = Ok (t', u) -> settled G d t'.
Proof.
  intros [Hok Hb] Hr. unfold UpdateRoleName in Hr. apply tx_put_ok in Hr as (d' & Hd & ->).
  ok_tests Hd; subst d'; try done. split; [|done]. by eapply ok_rename_role.
Qed.

Lemma settled_done {G : Prop} d t : settled G d t -> tenancy_inv G (tx_db t) /\ evolves d (tx_db t).
Proof. intros [Hok Hb]. split; [done|]. by apply evolves_same. Qed.

Lemma audit_settled {G : Prop} d e t t' u : settled G d t -> InsertAuditEntry e t = Ok (t', u) -> settled G d t'.
Proof. intros [Hok Hb] Ha. apply InsertAuditEntry_ok in Ha as ->. split; [by apply ok_set_audit|done]. Qed.

Section Roles.
Context `{UnicodeTables, UUIDLib, PgText}.

Lemma validateGrantable_ok p b perms t t' l :
  validateGrantable p b perms t = Ok (t', l) ->
  t' = t /\ forall k, k ∈ l -> k ∈ Resolve (AsApp p) p b (tx_db t) /\ is_Some (t_permission (tx_db t) !! k).
Proof.
  intros Hr. unfold validateGrantable in Hr. tx_inv. split; [done|]. subst.
  intros k Hin. unfold sort_Strings in Hin. rewrite merge_sort_Permutation in Hin.
  specialize (Hm0 _ Hin). specialize (Hm2 _ Hin). unfold Has in Hm2. to_prop. split; [done|].
  by apply catalog_spec in Hm0.
Qed.

Lemma CreateRole_keeps p business name perms roleID hex :
  keeps (fun _ d => fst (CreateRole p business name perms roleID hex d)).
Proof.
  unfold CreateRole. apply (keeps_same _ _ (fun _ d => _)). apply keeps_tx. intros G d t b Hok Hr. tx_inv.
  apply requirePerm_ok in Hm0 as [-> _]. apply validateGrantable_ok in Hm1 as [-> _].
  unfold CreateRole_row in Hm2. apply tx_put_ok in Hm2 as (d' & Hd & ->). simpl in *. ok_tests Hd. subst d'.
  apply settled_done. eapply audit_settled; [|exact Hm4].
  apply (tx_iter_inv (settled G d)) in Hm3; [exact Hm3|intros; by eapply AddRolePermission_settled|]. split; [|done].
  eapply ok_new_role; try done. intros i ri Hi Hri Hki.
  match goal with Hx : mexists _ (t_role d) = false |- _ => rewrite mexists_false in Hx; specialize (Hx _ _ Hi) end.
  rewrite Hri, Hki in *. simpl in *. rewrite bool_decide_eq_true_2, String.eqb_refl in * by done. done.
Qed.

Lemma UpdateRole_keeps p business roleID name perms :
  keeps (fun _ d => fst (UpdateRole p business roleID name perms d)).
Proof.
  apply keeps_tx. intros G d t b Hok Hr. tx_inv. apply requirePerm_ok in Hm0 as [-> _]. simpl in *.
  apply settled_done. eapply audit_settled; [|exact Hm4].
  assert (settled G d t3) as Hs3.
  { destruct name as [n|]; tx_inv; [|done]. eapply UpdateRoleName_settled; [|exact Hm2]. done. }
  destruct perms as [l|]; tx_inv; [|done].
  apply validateGrantable_ok in Hm0 as [-> _].
  match goal with Hi : tx_iter _ _ _ = Ok _ |- _ =>
    apply (tx_iter_inv (settled G d)) in Hi; [exact Hi|intros; by eapply AddRolePermission_settled|]
  end.
  by eapply ClearRolePermissions_settled.
Qed.

Lemma DeleteRole_keeps p business roleID : keeps (fun _ d => fst (DeleteRole p business roleID d)).
Proof.
  apply keeps_tx. intros G d t [] Hok Hr. tx_inv. apply requirePerm_ok in Hm0 as [-> _]. simpl in *.
  apply settled_done. last_step t Ha. eapply audit_settled; [|exact Ha].
  unfold DeleteRole_row in Hm4. apply tx_put_ok in Hm4 as (d' & Hd & ->). simpl in *. ok_tests Hd; subst d'; try done.
  split; [|done]. to_prop. eapply ok_delete_role; try done. intros q x m Hm' Heq.
  match goal with Hx : mexists _ (t_membership d) = false |- _ => rewrite mexists_false in Hx; specialize (Hx _ _ Hm') end.
  rewrite Heq, N.eqb_refl in *. done.
Qed.
End Roles.
