(* ===== verification/AuthTokens.v ===== *)
(** * Authentication primitives: [internal/platform/auth]

    Password hashes ([password.go]): the PHC text of an argon2id key, and its
    verification.  Access tokens ([jwt.go]): the claims that are signed.  Refresh
    tokens ([refresh.go]): families of single-use tokens, rotation and the
    detection of reuse.  argon2 and the JWT library are parameters; random values
    are arguments. *)

From S2P Require Import Prelude GoStrings GoBase64 GoTime GoJson AutoGraph Errors AutoStore AutoService AutoEvents WorkBoard.
From S2P Require Import TenantModel.
#[local] Open Scope tx_scope.

(** ** Passwords *)

Record Claims := { jc_Issuer : string; jc_Audience : string; jc_Subject : string; jc_ExpiresAt : time; jc_IssuedAt : time }.

Class AuthLib := {
  (** [argon2.IDKey(password, salt, time, memory, threads, keyLen)] *)
  argon2_IDKey : list ascii -> list ascii -> Z -> Z -> Z -> Z -> list ascii;
  (** the key has the length asked for *)
  argon2_length : forall pw salt t m p n, (0 <= n)%Z -> Z.of_nat (length (argon2_IDKey pw salt t m p n)) = n;
  (** [SignedString] of an EdDSA token with this key identifier and these claims *)
  jwt_SignedString : string -> Claims -> string -> string
}.

Definition argonTime : Z := 3.
Definition argonMemory : Z := 64 * 1024.
Definition argonThreads : Z := 1.
Definition argonKeyLen : Z := 32.
Definition argonSaltLen : nat := 16.
Definition ErrPasswordMismatch : error := NewError "password mismatch".

Section Passwords.
Context `{AuthLib}.

(** [salt] is the 16 bytes that were read. *)
Definition HashPassword (password : string) (salt : list ascii) : string :=
  "$argon2id$v=19$m=" +:+ itoa argonMemory +:+ ",t=" +:+ itoa argonTime +:+ ",p=" +:+ itoa argonThreads +:+ "$" +:+
  of_bytes (base64std salt) +:+ "$" +:+
  of_bytes (base64std (argon2_IDKey (bytes password) salt argonTime argonMemory argonThreads argonKeyLen)).

(** [fmt.Sscanf(s, "m=%d,t=%d,p=%d", &m, &t, &p)]: literal text, and unsigned
    numbers in the range of their variables after optional blanks. *)
Fixpoint skip_blanks (l : list ascii) : list ascii :=
  match l with c :: r => if Ascii.eqb c " " || Ascii.eqb c (byte_of 9) then skip_blanks r else l | [] => [] end.
Fixpoint take_digits (l : list ascii) : list ascii * list ascii :=
  match l with
  | c :: r => if is_digit c then let '(ds, rest) := take_digits r in (c :: ds, rest) else ([], l)
  | [] => ([], [])
  end.
Definition scan_uint (limit : Z) (l : list ascii) : option (Z * list ascii) :=
  let '(ds, rest) := take_digits (skip_blanks l) in
  match ds with
  | [] => None
  | _ => if (digits_val ds <? limit)%Z then Some (digits_val ds, rest) else None
  end.
Definition scan_literal (p : string) (l : list ascii) : option (list ascii) :=
  if prefixb (bytes p) l then Some (drop (length (bytes p)) l) else None.
Definition scan_params (s : string) : option (Z * Z * Z) :=
  l1 ← scan_literal "m=" (bytes s); '(m, r1) ← scan_uint (2 ^ 32) l1;
  l2 ← scan_literal ",t=" r1; '(t, r2) ← scan_uint (2 ^ 32) l2;
  l3 ← scan_literal ",p=" r2; '(p, _) ← scan_uint (2 ^ 8) l3;
  Some (m, t, p).

Definition decodeHash (encoded : string) : result error (list ascii * list ascii * Z * Z * Z) :=
  match split_bytes "$" (bytes encoded) with
  | [_; alg; _; params; saltText; keyText] =>
      if negb (bool_decide (alg = bytes "argon2id")) then Err (NewError "invalid password hash format") else
      match scan_params (of_bytes params) with
      | None => Err (NewError "invalid hash params")
      | Some (m, t, p) =>
          match base64std_decode saltText, base64std_decode keyText with
          | Some salt, Some key => Ok (salt, key, m, t, p)
          | _, _ => Err (NewError "illegal base64 data")
          end
      end
  | _ => Err (NewError "invalid password hash format")
  end.

Definition VerifyPassword (password encoded : string) : result error unit :=
  match decodeHash encoded with
  | Err e => Err e
  | Ok (salt, key, m, t, p) =>
      if bool_decide (key = argon2_IDKey (bytes password) salt t m p (Z.of_nat (length key) mod 2 ^ 32))
      then Ok tt else Err ErrPasswordMismatch
  end.

(** ** Access tokens *)

Record KeyRing := { kr_issuer : string; kr_audience : string; kr_activeKID : string; kr_signing : string }.

Definition Sign `{UUIDLib} (k : KeyRing) (principal : uuid) (ttl : duration) (now : time) : string :=
  jwt_SignedString (kr_activeKID k)
    {| jc_Issuer := kr_issuer k; jc_Audience := kr_audience k; jc_Subject := uuid_String principal;
       jc_ExpiresAt := Add now ttl; jc_IssuedAt := now |} (kr_signing k).
End Passwords.

(** ** Refresh tokens *)

Definition ErrRefreshInvalid : error := NewError "invalid refresh token".
Definition ErrRefreshReuse : error := NewError "refresh token reuse detected".

(** The clock of the process and the start of the database transaction ([now()]). *)
Record clock := { go_now : time; db_now : time }.

Definition CreateRefreshToken (id principal : uuid) (hash : string) (family : uuid) (parent : option uuid)
    (expires now : time) : txm unit := tx_put (fun d =>
  match t_refresh d !! id with
  | Some _ => Err (PgError "23505" "refresh_token_pkey")
  | None =>
      if mexists (fun _ r => String.eqb (rf_hash r) hash) (t_refresh d)
      then Err (PgError "23505" "refresh_token_token_hash_key")
      else if principal_exists d principal &&
              match parent with Some q => bool_decide (is_Some (t_refresh d !! q)) | None => true end
      then Ok (set_refresh (<[id := {| rf_principal := principal; rf_hash := hash; rf_family := family;
                                       rf_parent := parent; rf_used := None; rf_revoked := None;
                                       rf_expires := expires; rf_created := now |}]> (t_refresh d)) d)
      else Err (PgError "23503" "refresh_token_fkey")
  end).

Definition GetRefreshTokenByHashForUpdate (hash : string) (d : tdb) : result error (uuid * refresh_row) :=
  match mfind (fun _ r => String.eqb (rf_hash r) hash) (t_refresh d) with
  | Some x => Ok x
  | None => Err ErrNoRows
  end.

Definition mark_used (now : time) (r : refresh_row) : refresh_row :=
  {| rf_principal := rf_principal r; rf_hash := rf_hash r; rf_family := rf_family r; rf_parent := rf_parent r;
     rf_used := Some now; rf_revoked := rf_revoked r; rf_expires := rf_expires r; rf_created := rf_created r |}.
Definition mark_revoked (now : time) (r : refresh_row) : refresh_row :=
  {| rf_principal := rf_principal r; rf_hash := rf_hash r; rf_family := rf_family r; rf_parent := rf_parent r;
     rf_used := rf_used r; rf_revoked := Some now; rf_expires := rf_expires r; rf_created := rf_created r |}.
Definition not_revoked (r : refresh_row) : bool := match rf_revoked r with None => true | Some _ => false end.

Definition MarkRefreshTokenUsed (id : uuid) (now : time) : txm unit := tx_put (fun d =>
  Ok (set_refresh (mupdate (fun i _ => N.eqb i id) (mark_used now) (t_refresh d)) d)).
Definition RevokeRefreshFamily (family : uuid) (now : time) : txm unit := tx_put (fun d =>
  Ok (set_refresh (mupdate (fun _ r => N.eqb (rf_family r) family && not_revoked r) (mark_revoked now) (t_refresh d)) d)).
Definition RevokeAllRefreshForPrincipal (p : uuid) (now : time) : txm unit := tx_put (fun d =>
  Ok (set_refresh (mupdate (fun _ r => N.eqb (rf_principal r) p && not_revoked r) (mark_revoked now) (t_refresh d)) d)).

Section Refresh.
Context `{EventLib}.

(** [auth.NewOpaqueToken]: [entropy] is the 32 bytes that were read. *)
Definition opaque_token (entropy : option (list ascii)) : txm string :=
  match entropy with
  | None => tx_err (NewError "read failed")
  | Some b => tx_ret (of_bytes (base64url b))
  end.

Definition IssueRefresh (principal : uuid) (ttl : duration) (k : clock) (entropy : option (list ascii))
    (id family : uuid) : txm string :=
  let* raw := opaque_token entropy in
  do* CreateRefreshToken id principal (HashToken raw) family None (Add (go_now k) ttl) (db_now k) in
  tx_ret raw.

(** The result is the new token and its principal, or [None] for a detected reuse. *)
Definition RotateRefresh (raw : string) (ttl : duration) (k : clock) (entropy : option (list ascii)) (id : uuid)
    : txm (option (string * uuid)) :=
  let* (rid, rt) := tx_or (tx_get (GetRefreshTokenByHashForUpdate (HashToken raw))) ErrRefreshInvalid in
  if bool_decide (is_Some (rf_revoked rt)) || After (go_now k) (rf_expires rt) then tx_err ErrRefreshInvalid else
  if bool_decide (is_Some (rf_used rt)) then
    do* RevokeRefreshFamily (rf_family rt) (db_now k) in tx_ret None
  else
    do* MarkRefreshTokenUsed rid (db_now k) in
    let* newRaw := opaque_token entropy in
    do* CreateRefreshToken id (rf_principal rt) (HashToken newRaw) (rf_family rt) (Some rid)
          (Add (go_now k) ttl) (db_now k) in
    tx_ret (Some (newRaw, rf_principal rt)).

Definition RevokeRefreshByToken (raw : string) (now : time) : txm unit :=
  let* found := tx_get (fun d => Ok (mfind (fun _ r => String.eqb (rf_hash r) (HashToken raw)) (t_refresh d))) in
  match found with
  | None => tx_ret tt
  | Some (_, rt) => RevokeRefreshFamily (rf_family rt) now
  end.
End Refresh.
