(* ===== verification/AccountService.v ===== *)
(** * Accounts and invitations

    [internal/account/service.go], [auth.go] and [lifecycle.go], and
    [internal/invitations/service.go] with the function [accept_invitation] of
    migration 0010.  A mail that is handed to the mailer is part of the result;
    the error of sending it is dropped, as in the code. *)

From S2P Require Import Prelude GoStrings GoBase64 GoTime GoJson AutoGraph Errors AutoStore AutoService AutoEvents WorkBoard.
From S2P Require Import TenantModel TenantService AuthTokens.
From stdpp Require Import sorting.
#[local] Open Scope tx_scope.

(** ** Statements on accounts ([db/query/account.sql], [auth.sql]) *)

Section Statements.
Context `{PgText}.

Definition CreateAccount (id : uuid) (email : string) (hash : option string) (name : string) : txm unit := tx_put (fun d =>
  if has_nul email || has_nul name then Err (PgError "22021" "") else
  match t_account d !! id with
  | Some _ => Err (PgError "23505" "account_pkey")
  | None =>
      if mexists (fun _ a => citext_eq (at_email a) email) (t_account d) then Err (PgError "23505" "account_email_key")
      else Ok (set_account (<[id := {| at_email := email; at_verified := None; at_password := hash; at_name := name;
                                       at_status := "active"; at_deleted := None |}]> (t_account d)) d)
  end).

Definition GetAccountByEmail (email : string) (d : tdb) : result error (uuid * acct_row) :=
  if has_nul email then Err (PgError "22021" "") else
  match mfind (fun _ a => citext_eq (at_email a) email && bool_decide (at_deleted a = None)) (t_account d) with
  | Some x => Ok x
  | None => Err ErrNoRows
  end.
Definition GetAccountByID (id : uuid) (d : tdb) : result error acct_row :=
  match t_account d !! id with
  | Some a => if bool_decide (at_deleted a = None) then Ok a else Err ErrNoRows
  | None => Err ErrNoRows
  end.

Definition CreateHumanPrincipal (id account : uuid) : txm unit := tx_put (fun d =>
  match t_principal d !! id with
  | Some _ => Err (PgError "23505" "principal_pkey")
  | None =>
      if mexists (fun _ p => bool_decide (pr_account p = Some account)) (t_principal d)
      then Err (PgError "23505" "principal_account_unique")
      else match t_account d !! account with
           | None => Err (PgError "23503" "principal_account_id_fkey")
           | Some _ => Ok (set_principal (<[id := {| pr_kind := "human"; pr_account := Some account; pr_home := None;
                                                     pr_root := None |}]> (t_principal d)) d)
           end
  end).

Definition GetPrincipalByAccount (account : uuid) (d : tdb) : result error uuid :=
  match mfind (fun _ p => bool_decide (pr_account p = Some account) && String.eqb (pr_kind p) "human") (t_principal d) with
  | Some (id, _) => Ok id
  | None => Err ErrNoRows
  end.

(** An update of one account, when the condition holds of it. *)
Definition update_account (id : uuid) (sel : acct_row -> bool) (g : acct_row -> acct_row) : txm unit := tx_put (fun d =>
  Ok (set_account (mupdate (fun i a => N.eqb i id && sel a) g (t_account d)) d)).
Definition undeleted (a : acct_row) : bool := bool_decide (at_deleted a = None).

Definition MarkEmailVerified (id : uuid) (now : time) : txm unit :=
  update_account id (fun _ => true)
    (fun a => {| at_email := at_email a; at_verified := Some now; at_password := at_password a; at_name := at_name a;
                 at_status := at_status a; at_deleted := at_deleted a |}).
Definition UpdatePasswordHash (id : uuid) (hash : string) : txm unit :=
  update_account id undeleted
    (fun a => {| at_email := at_email a; at_verified := at_verified a; at_password := Some hash; at_name := at_name a;
                 at_status := at_status a; at_deleted := at_deleted a |}).
Definition UpdateDisplayName (id : uuid) (name : string) : txm unit :=
  if has_nul name then tx_err (PgError "22021" "") else
  update_account id undeleted
    (fun a => {| at_email := at_email a; at_verified := at_verified a; at_password := at_password a; at_name := name;
                 at_status := at_status a; at_deleted := at_deleted a |}).
Definition DeactivateAccount (id : uuid) : txm unit :=
  update_account id undeleted
    (fun a => {| at_email := at_email a; at_verified := at_verified a; at_password := at_password a; at_name := at_name a;
                 at_status := "deactivated"; at_deleted := at_deleted a |}).
Definition SoftDeleteAccount (id : uuid) (now : time) : txm unit :=
  update_account id undeleted
    (fun a => {| at_email := at_email a; at_verified := at_verified a; at_password := at_password a; at_name := at_name a;
                 at_status := "deactivated"; at_deleted := Some now |}).
Definition UpdateEmail (id : uuid) (email : string) : txm unit :=
  let* taken := tx_get (fun d => Ok (mexists (fun i a => negb (N.eqb i id) && citext_eq (at_email a) email) (t_account d) &&
                                     match t_account d !! id with Some a => undeleted a | None => false end)) in
  if taken then tx_err (PgError "23505" "account_email_key") else
  update_account id undeleted
    (fun a => {| at_email := email; at_verified := at_verified a; at_password := at_password a; at_name := at_name a;
                 at_status := at_status a; at_deleted := at_deleted a |}).

Definition ScheduleErasure (id : uuid) (purgeAfter : time) : txm unit := tx_put (fun d =>
  match t_erasure d !! id with
  | Some _ => Ok d
  | None => Ok (set_erasure (<[id := purgeAfter]> (t_erasure d)) d)
  end).

Definition CreateOneTimeToken (id : uuid) (account : option uuid) (email purpose hash : string)
    (newEmail : option string) (expires : time) : txm unit := tx_put (fun d =>
  if has_nul email then Err (PgError "22021" "") else
  match t_onetime d !! id with
  | Some _ => Err (PgError "23505" "one_time_token_pkey")
  | None =>
      if mexists (fun _ o => String.eqb (ot_hash o) hash) (t_onetime d)
      then Err (PgError "23505" "one_time_token_token_hash_key")
      else if match account with Some a => bool_decide (is_Some (t_account d !! a)) | None => true end
      then Ok (set_onetime (<[id := {| ot_account := account; ot_email := email; ot_purpose := purpose; ot_hash := hash;
                                       ot_new_email := newEmail; ot_expires := expires; ot_consumed := None |}]>
                              (t_onetime d)) d)
      else Err (PgError "23503" "one_time_token_account_id_fkey")
  end).

Definition consume (now : time) (o : onetime_row) : onetime_row :=
  {| ot_account := ot_account o; ot_email := ot_email o; ot_purpose := ot_purpose o; ot_hash := ot_hash o;
     ot_new_email := ot_new_email o; ot_expires := ot_expires o; ot_consumed := Some now |}.
Definition ConsumeOneTimeToken (hash purpose : string) (now : time) : txm onetime_row :=
  let* found := tx_get (fun d => Ok (mfind (fun _ o => String.eqb (ot_hash o) hash && String.eqb (ot_purpose o) purpose &&
                                       bool_decide (ot_consumed o = None) && (now <? ot_expires o)%Z) (t_onetime d))) in
  match found with
  | None => tx_err ErrNoRows
  | Some (id, o) =>
      do* tx_put (fun d => Ok (set_onetime (<[id := consume now o]> (t_onetime d)) d)) in tx_ret (consume now o)
  end.

Definition ListOwnerRootMembershipsForPrincipal (c : dbctx) (p : uuid) (d : tdb) : list uuid :=
  map (fun km => mb_root (snd km))
    (mselect (fun k m => N.eqb (fst k) p && vis c d (snd k) && N.eqb (snd k) (mb_root m) &&
                match t_role d !! mb_role m with Some r => vis_role c d r && rl_locked r | None => false end)
       (t_membership d)).
End Statements.

(** ** The account service *)

Record Mail := { ml_To : string; ml_Subject : string; ml_Body : string }.
Record Profile := { pf_ID : uuid; pf_Email : string; pf_DisplayName : string; pf_EmailVerified : bool; pf_Status : string }.
Record TokenPair := { tp_Access : string; tp_Refresh : string; tp_ExpiresIn : Z }.
Record AccountConfig := { cfg_Ring : KeyRing; cfg_AccessTTL : duration; cfg_RefreshTTL : duration; cfg_TokenTTL : duration }.

Definition ErrInvalidCredentials : error := NewError "invalid credentials".
Definition erasureRetention : duration := (30 * 24 * Hour)%Z.

Definition toProfile (id : uuid) (a : acct_row) : Profile :=
  {| pf_ID := id; pf_Email := at_email a; pf_DisplayName := at_name a;
     pf_EmailVerified := bool_decide (is_Some (at_verified a)); pf_Status := at_status a |}.

Section Account.
Context `{UnicodeTables, UUIDLib, PgText, EventLib, AuthLib}.
Context (s : AccountConfig).

Definition token_mail (to subject raw : string) : Mail :=
  {| ml_To := to; ml_Subject := subject; ml_Body := "token: " +:+ raw |}.

Definition Signup (email displayName password : string) (salt : list ascii) (entropy : option (list ascii))
    (accountID principalID tokenID : uuid) (k : clock) (d : tdb) : tdb * result error (uuid * string * Mail) :=
  if String.eqb email "" || String.eqb displayName "" || (len password <? 12)%Z
  then (d, Err (invalid "email, display name, and a 12+ char password are required")) else
  let hash := HashPassword password salt in
  WithTx (
    let* raw := opaque_token entropy in
    do* CreateAccount accountID email (Some hash) displayName in
    do* CreateHumanPrincipal principalID accountID in
    do* CreateOneTimeToken tokenID (Some accountID) email "verify_email" (HashToken raw) None
          (GoTime.Add (go_now k) (cfg_TokenTTL s)) in
    tx_ret (accountID, raw, token_mail email "Verify your email" raw)) d.

Definition bad_token : error := invalid "invalid or expired token".

Definition VerifyEmail (raw : string) (k : clock) (d : tdb) : tdb * result error unit :=
  WithTx (
    let* tok := tx_or (ConsumeOneTimeToken (HashToken raw) "verify_email" (db_now k)) bad_token in
    match ot_account tok with
    | None => tx_err (invalid "token not bound to an account")
    | Some a => MarkEmailVerified a (db_now k)
    end) d.

(** The token pair of a new session. *)
Definition open_session (principal : uuid) (k : clock) (entropy : option (list ascii)) (id family : uuid)
    : txm TokenPair :=
  let access := Sign (cfg_Ring s) principal (cfg_AccessTTL s) (go_now k) in
  let* refresh := IssueRefresh principal (cfg_RefreshTTL s) k entropy id family in
  tx_ret {| tp_Access := access; tp_Refresh := refresh; tp_ExpiresIn := Z.quot (cfg_AccessTTL s) Second |}.

Definition Login (email password : string) (k : clock) (entropy : option (list ascii)) (id family : uuid) (d : tdb)
    : tdb * result error TokenPair :=
  WithTx (
    let* (aid, acc) := tx_or (tx_get (GetAccountByEmail email)) ErrInvalidCredentials in
    match at_password acc with
    | None => tx_err ErrInvalidCredentials
    | Some hash =>
        do* tx_guard (is_ok (VerifyPassword password hash)) ErrInvalidCredentials in
        do* tx_guard (String.eqb (at_status acc) "active") ErrInvalidCredentials in
        let* prin := tx_get (GetPrincipalByAccount aid) in
        open_session prin k entropy id family
    end) d.

(** A detected reuse commits the revocation of the family, then fails. *)
Definition Refresh (raw : string) (k : clock) (entropy : option (list ascii)) (id : uuid) (d : tdb)
    : tdb * result error TokenPair :=
  match WithTx (
    let* r := RotateRefresh raw (cfg_RefreshTTL s) k entropy id in
    match r with
    | None => tx_ret None
    | Some (newRaw, pid) =>
        tx_ret (Some {| tp_Access := Sign (cfg_Ring s) pid (cfg_AccessTTL s) (go_now k); tp_Refresh := newRaw;
                        tp_ExpiresIn := Z.quot (cfg_AccessTTL s) Second |})
    end) d with
  | (d', Ok (Some tp)) => (d', Ok tp)
  | (d', Ok None) => (d', Err ErrRefreshReuse)
  | (d', Err e) => (d', Err e)
  end.

Definition Logout (raw : string) (k : clock) (d : tdb) : tdb * result error unit :=
  WithTx (RevokeRefreshByToken raw (db_now k)) d.

Definition GetProfile (principal : uuid) (d : tdb) : tdb * result error Profile :=
  WithTx (let* (id, a) := tx_or (tx_get (GetAccountByPrincipal principal)) ErrNotFound in tx_ret (toProfile id a)) d.

Definition UpdateProfile (principal : uuid) (displayName : string) (d : tdb) : tdb * result error Profile :=
  if String.eqb displayName "" then (d, Err (invalid "display name is required")) else
  WithTx (
    let* (id, _) := tx_or (tx_get (GetAccountByPrincipal principal)) ErrNotFound in
    do* UpdateDisplayName id displayName in
    let* a := tx_get (GetAccountByID id) in
    tx_ret (toProfile id a)) d.

Definition issueOneTimeToken (account : uuid) (email purpose : string) (newEmail : option string) (subject : string)
    (k : clock) (entropy : option (list ascii)) (tokenID : uuid) : txm (string * Mail) :=
  let* raw := opaque_token entropy in
  do* CreateOneTimeToken tokenID (Some account) email purpose (HashToken raw) newEmail (GoTime.Add (go_now k) (cfg_TokenTTL s)) in
  tx_ret (raw, token_mail (default email newEmail) subject raw).

(** [None] when no account has the address: nothing is issued or sent, and the
    caller is told the same.  A query that failed otherwise has aborted the
    transaction, whose commit then fails. *)
Definition issue_for_email (email purpose subject : string) (k : clock) (entropy : option (list ascii)) (tokenID : uuid)
    : txm (option (string * Mail)) :=
  let* found := tx_get (fun d => match GetAccountByEmail email d with
                                | Ok x => Ok (Some x)
                                | Err e => if is_no_rows e then Ok None else Err ErrTxCommitRollback
                                end) in
  match found with
  | None => tx_ret None
  | Some (id, _) => let* r := issueOneTimeToken id email purpose None subject k entropy tokenID in tx_ret (Some r)
  end.
Definition RequestPasswordReset (email : string) (k : clock) (entropy : option (list ascii)) (tokenID : uuid) (d : tdb) :=
  WithTx (issue_for_email email "password_reset" "Reset your password" k entropy tokenID) d.
Definition RequestMagicLink (email : string) (k : clock) (entropy : option (list ascii)) (tokenID : uuid) (d : tdb) :=
  WithTx (issue_for_email email "magic_link" "Your sign-in link" k entropy tokenID) d.

Definition ConfirmPasswordReset (raw newPassword : string) (salt : list ascii) (k : clock) (d : tdb)
    : tdb * result error unit :=
  if (len newPassword <? 12)%Z then (d, Err (invalid "a 12+ char password is required")) else
  let hash := HashPassword newPassword salt in
  WithTx (
    let* tok := tx_or (ConsumeOneTimeToken (HashToken raw) "password_reset" (db_now k)) bad_token in
    match ot_account tok with
    | None => tx_err bad_token
    | Some a =>
        do* UpdatePasswordHash a hash in
        let* prin := tx_get (GetPrincipalByAccount a) in
        RevokeAllRefreshForPrincipal prin (db_now k)
    end) d.

Definition contains_at (e : string) : bool := existsb (fun c => Ascii.eqb c "@") (bytes e).

Definition RequestEmailChange (principal : uuid) (newEmail : string) (k : clock) (entropy : option (list ascii))
    (tokenID : uuid) (d : tdb) : tdb * result error (string * Mail) :=
  let newEmail := TrimSpace newEmail in
  if String.eqb newEmail "" || negb (contains_at newEmail) then (d, Err (invalid "a valid new email is required")) else
  WithTx (
    let* (id, _) := tx_or (tx_get (GetAccountByPrincipal principal)) ErrNotFound in
    issueOneTimeToken id newEmail "email_change" (Some newEmail) "Confirm your new email" k entropy tokenID) d.

Definition ConfirmEmailChange (raw : string) (k : clock) (d : tdb) : tdb * result error unit :=
  WithTx (
    let* tok := tx_or (ConsumeOneTimeToken (HashToken raw) "email_change" (db_now k)) bad_token in
    match ot_account tok, ot_new_email tok with
    | Some a, Some e =>
        fun t => match UpdateEmail a e t with
                 | Err err => if bool_decide (pg_code err = Some "23505") then Err (invalid "that email is not available")
                              else Err err
                 | Ok r => Ok r
                 end
    | _, _ => tx_err bad_token
    end) d.

Definition ConsumeMagicLink (raw : string) (k : clock) (entropy : option (list ascii)) (id family : uuid) (d : tdb)
    : tdb * result error TokenPair :=
  WithTx (
    let* tok := tx_or (ConsumeOneTimeToken (HashToken raw) "magic_link" (db_now k)) bad_token in
    match ot_account tok with
    | None => tx_err bad_token
    | Some a =>
        let* acc := tx_or (tx_get (GetAccountByID a)) bad_token in
        do* tx_guard (String.eqb (at_status acc) "active") bad_token in
        let* prin := tx_get (GetPrincipalByAccount a) in
        open_session prin k entropy id family
    end) d.

(** ** Lifecycle *)

Definition guardNotLastOwner (p : uuid) : txm unit :=
  let* roots := tx_get (fun d => Ok (ListOwnerRootMembershipsForPrincipal (AsApp p) p d)) in
  let* counts := tx_get (fun d => Ok (map (fun r => CountDirectOwners (AsApp p) r d) roots)) in
  tx_guard (forallb (Nat.ltb 1) counts) (conflict "cannot deactivate or delete the last Owner of a tenant").

Definition audit_account (p : uuid) (action : string) (value : option json) : txm unit :=
  InsertAuditEntry {| ae_BusinessID := None; ae_TenantRootID := None; ae_ActorPrincipalID := Some p; ae_Action := action;
                      ae_TargetType := Some "account"; ae_TargetID := Some p; ae_NewValue := value |}.

Definition Deactivate (p : uuid) (d : tdb) : tdb * result error unit :=
  WithPrincipal p (
    let* (id, _) := tx_or (tx_get (GetAccountByPrincipal p)) ErrNotFound in
    do* guardNotLastOwner p in
    do* DeactivateAccount id in
    audit_account p "account.deactivated" None) d.

Definition Delete_account (p : uuid) (k : clock) (d : tdb) : tdb * result error time :=
  WithPrincipal p (
    let* (id, _) := tx_or (tx_get (GetAccountByPrincipal p)) ErrNotFound in
    do* guardNotLastOwner p in
    do* SoftDeleteAccount id (db_now k) in
    do* RevokeAllRefreshForPrincipal p (db_now k) in
    let purgeAfter := GoTime.Add (go_now k) erasureRetention in
    do* ScheduleErasure id purgeAfter in
    do* audit_account p "account.deletion_scheduled" (Some (JObj [("purge_after", JStr (time_RFC3339 purgeAfter))])) in
    tx_ret purgeAfter) d.

Record ExportMembership := {
  em_BusinessID : uuid; em_BusinessName : string; em_TenantRootID : uuid; em_RoleKey : string; em_GrantedAt : time
}.
Definition granted_before (x y : ExportMembership) : Prop := (em_GrantedAt x <= em_GrantedAt y)%Z.
#[export] Instance granted_before_dec (x y : ExportMembership) : Decision (granted_before x y).
Proof. unfold granted_before. apply _. Defined.

Definition ExportMembershipsForPrincipal (c : dbctx) (p : uuid) (d : tdb) : list ExportMembership :=
  merge_sort granted_before (omap (fun km =>
    let '((q, b), m) := km in
    if N.eqb q p && vis c d b then
      match t_business d !! b, t_role d !! mb_role m with
      | Some row, Some r =>
          if vis_role c d r then Some {| em_BusinessID := b; em_BusinessName := bz_name row; em_TenantRootID := mb_root m;
                                         em_RoleKey := rl_key r; em_GrantedAt := mb_granted_at m |} else None
      | _, _ => None
      end
    else None) (map_to_list (t_membership d))).

Definition Export (p : uuid) (d : tdb) : tdb * result error (Profile * list ExportMembership) :=
  WithPrincipal p (
    let* (id, a) := tx_or (tx_get (GetAccountByPrincipal p)) ErrNotFound in
    let* ms := tx_get (fun d => Ok (ExportMembershipsForPrincipal (AsApp p) p d)) in
    tx_ret (toProfile id a, ms)) d.
End Account.

(** ** Invitations *)

Section Invitations.
Context `{UnicodeTables, UUIDLib, PgText, EventLib}.

Definition defaultTTL : duration := (7 * 24 * Hour)%Z.
Definition invitation_ttl (ttl : duration) : duration := if (ttl <=? 0)%Z then defaultTTL else ttl.

Definition CreateInvitation (id b root : uuid) (email : string) (role : uuid) (hash : string) (by_ : uuid)
    (expires now : time) : txm unit := tx_put (fun d =>
  if has_nul email then Err (PgError "22021" "") else
  if fenced d root then Err TM503 else
  match t_invitation d !! id with
  | Some _ => Err (PgError "23505" "invitation_pkey")
  | None =>
      if mexists (fun _ i => String.eqb (iv_hash i) hash) (t_invitation d) then Err (PgError "23505" "invitation_token_idx")
      else if business_in d b root && role_exists d role && principal_exists d by_
      then Ok (set_invitation (<[id := {| iv_business := b; iv_root := root; iv_email := email; iv_role := role;
                                          iv_hash := hash; iv_status := "pending"; iv_created_by := Some by_;
                                          iv_expires := expires; iv_accepted := None; iv_created := now |}]>
                                 (t_invitation d)) d)
      else Err (PgError "23503" "invitation_fkey")
  end).

Definition invite_mail (to raw : string) : Mail :=
  {| ml_To := to; ml_Subject := "You've been invited to a ManyForge business"; ml_Body := "token: " +:+ raw |}.

(** [raw] is the token [randomToken] drew. *)
Definition Create_invitation (ttl : duration) (inviter business role : uuid) (email raw : string) (id : uuid) (k : clock)
    (d : tdb) : tdb * result error Mail :=
  let email := TrimSpace email in
  if String.eqb email "" || negb (contains_at email) then (d, Err (invalid "a valid email is required")) else
  WithPrincipal inviter (
    let* biz := tx_get (loadVisible inviter business) in
    let* perms := tx_get (fun d => Ok (Resolve (AsApp inviter) inviter business d)) in
    do* tx_guard (Has perms "members.manage") ErrNotFound in
    do* tx_or (tx_get (GetRoleInTenant (AsApp inviter) role (bz_root biz))) (conflict "unknown role") in
    let* rolePerms := tx_get (fun d => Ok (GetRolePermissions (AsApp inviter) role d)) in
    do* tx_all (Has perms) rolePerms (fun _ => conflict "cannot invite with a role above your own") in
    do* CreateInvitation id business (bz_root biz) email role (HashToken raw) inviter
          (GoTime.Add (go_now k) (invitation_ttl ttl)) (db_now k) in
    tx_ret (invite_mail email raw)) d.

Definition requireManage (p business : uuid) : txm unit :=
  do* tx_get (loadVisible p business) in
  requirePerm p business "members.manage".

Definition pending (c : dbctx) (d : tdb) (id business : uuid) : option invitation_row :=
  match t_invitation d !! id with
  | Some i => if vis c d (iv_business i) && N.eqb (iv_business i) business && String.eqb (iv_status i) "pending"
              then Some i else None
  | None => None
  end.

Definition with_status (st : string) (acc : option time) (i : invitation_row) : invitation_row :=
  {| iv_business := iv_business i; iv_root := iv_root i; iv_email := iv_email i; iv_role := iv_role i; iv_hash := iv_hash i;
     iv_status := st; iv_created_by := iv_created_by i; iv_expires := iv_expires i; iv_accepted := acc;
     iv_created := iv_created i |}.

(** An update of a pending invitation, which must match a row. *)
Definition update_pending (c : dbctx) (id business : uuid) (g : invitation_row -> invitation_row) : txm unit :=
  tx_put (fun d =>
    match pending c d id business with
    | None => Err ErrNoRows
    | Some i =>
        if fenced d (iv_root i) then Err TM503 else
        if mexists (fun j x => negb (N.eqb j id) && String.eqb (iv_hash x) (iv_hash (g i))) (t_invitation d)
        then Err (PgError "23505" "invitation_token_idx")
        else Ok (set_invitation (<[id := g i]> (t_invitation d)) d)
    end).

Definition Revoke_invitation (p business id : uuid) (d : tdb) : tdb * result error unit :=
  WithPrincipal p (
    do* requireManage p business in
    tx_or (update_pending (AsApp p) id business (fun i => with_status "revoked" (iv_accepted i) i)) ErrNotFound) d.

Definition Resend_invitation (ttl : duration) (p business id : uuid) (raw : string) (k : clock) (d : tdb)
    : tdb * result error Mail :=
  WithPrincipal p (
    do* requireManage p business in
    let* inv := tx_get (fun d => match pending (AsApp p) d id business with Some i => Ok i | None => Err ErrNotFound end) in
    do* tx_or (update_pending (AsApp p) id business (fun i =>
          {| iv_business := iv_business i; iv_root := iv_root i; iv_email := iv_email i; iv_role := iv_role i;
             iv_hash := HashToken raw; iv_status := iv_status i; iv_created_by := iv_created_by i;
             iv_expires := GoTime.Add (go_now k) (invitation_ttl ttl); iv_accepted := iv_accepted i; iv_created := iv_created i |}))
        ErrNotFound in
    tx_ret (invite_mail (iv_email inv) raw)) d.

Record Invitation := {
  in_ID : uuid; in_Email : string; in_Status : string; in_ExpiresAt : time; in_RoleID : uuid; in_RoleKey : string;
  in_RoleName : string
}.
(** [ORDER BY created_at DESC, id] *)
Definition newer (x y : uuid * invitation_row) : Prop :=
  (iv_created (snd y) < iv_created (snd x))%Z \/ (iv_created (snd x) = iv_created (snd y) /\ (fst x <= fst y)%N).
#[export] Instance newer_dec (x y : uuid * invitation_row) : Decision (newer x y).
Proof. unfold newer. apply _. Defined.

Definition List_invitations (p business : uuid) (d : tdb) : tdb * result error (list Invitation) :=
  WithPrincipal p (
    do* requireManage p business in
    tx_get (fun d => Ok (omap (fun x =>
      match t_role d !! iv_role (snd x) with
      | Some r => if vis_role (AsApp p) d r
                  then Some {| in_ID := fst x; in_Email := iv_email (snd x); in_Status := iv_status (snd x);
                               in_ExpiresAt := iv_expires (snd x); in_RoleID := iv_role (snd x); in_RoleKey := rl_key r;
                               in_RoleName := rl_name r |} else None
      | None => None
      end) (merge_sort newer (mselect (fun _ i => N.eqb (iv_business i) business && vis (AsApp p) d (iv_business i))
                                (t_invitation d)))))) d.

(** The insert of [accept_invitation]: the triggers run before the conflict is seen. *)
Definition join_business (memberID p : uuid) (i : invitation_row) (now : time) : txm unit :=
  fun t =>
    match membership_triggers AsOwner (tx_db t) memberID p (iv_business i) (iv_root i) (iv_role i) with
    | Err e => Err e
    | Ok _ => match t_membership (tx_db t) !! (p, iv_business i) with
              | Some _ => Ok (t, tt)
              | None => CreateMembership AsOwner memberID p (iv_business i) (iv_root i) (iv_role i) (iv_created_by i) now t
              end
    end.

Definition accept_invitation (hash : string) (p : uuid) (email : string) (memberID : uuid) (now : time)
    : txm (string * option uuid * option uuid) :=
  let* found := tx_get (fun d => Ok (mfind (fun _ i => String.eqb (iv_hash i) hash) (t_invitation d))) in
  match found with
  | None => tx_ret ("gone", None, None)
  | Some (id, inv) =>
      if negb (citext_eq (iv_email inv) email) then tx_ret ("email_mismatch", None, None) else
      if negb (String.eqb (iv_status inv) "pending") || (iv_expires inv <=? now)%Z then tx_ret ("gone", None, None) else
      let* biz := tx_get (fun d => Ok (t_business d !! iv_business inv)) in
      if negb match biz with Some b => live b && negb (String.eqb (bz_status b) "archived") | None => false end
      then tx_ret ("gone", None, None) else
      do* tx_put (fun d => if fenced d (iv_root inv) then Err TM503
                           else Ok (set_invitation (<[id := with_status "accepted" (Some now) inv]> (t_invitation d)) d)) in
      do* join_business memberID p inv now in
      do* InsertAuditEntry {| ae_BusinessID := Some (iv_business inv); ae_TenantRootID := Some (iv_root inv);
                              ae_ActorPrincipalID := Some p; ae_Action := "invitation.accepted";
                              ae_TargetType := Some "membership"; ae_TargetID := Some p;
                              ae_NewValue := Some (JObj [("invitation_id", jid id); ("role_id", jid (iv_role inv))]) |} in
      tx_ret ("ok", Some (iv_business inv), Some (iv_role inv))
  end.

Record AcceptResult := { ar_Status : string; ar_BusinessID : option uuid; ar_RoleID : option uuid }.

Definition Accept (p : uuid) (token : string) (memberID : uuid) (k : clock) (d : tdb) : tdb * result error AcceptResult :=
  let token := TrimSpace token in
  if String.eqb token "" then (d, Err (invalid "token is required")) else
  WithTx (
    let* (_, acct) := tx_or (tx_get (GetAccountByPrincipal p)) ErrNotFound in
    match at_verified acct with
    | None => tx_ret {| ar_Status := "unverified"; ar_BusinessID := None; ar_RoleID := None |}
    | Some _ =>
        let* (st, b, r) := accept_invitation (HashToken token) p (at_email acct) memberID (db_now k) in
        tx_ret {| ar_Status := st; ar_BusinessID := b; ar_RoleID := r |}
    end) d.
End Invitations.
