(* ===== verification/TenantApi.v ===== *)
(** * The operations of tenancy, accounts and invitations as one system

    [api_op] has a constructor for each operation of the services that the HTTP
    layer calls, with the values the operation draws (identifiers, random bytes,
    salts) and the clock as arguments; [exec] runs it.  A state of the system is
    the list of the databases there have been, the latest first: an operation
    that waits for the tenant's lock may have read any of them before, and a
    statement that revokes refresh tokens, which waits for the rows it updates,
    may have listed them in any of them.

    [footprint] names the tables an operation may change. *)

From S2P Require Import Prelude GoStrings GoBase64 GoTime GoJson AutoGraph Errors AutoStore AutoService AutoEvents WorkBoard.
From S2P Require Import TenantModel TenantService TenantTree TenantFacts TenantOps TenantMembers AuthTokens AccountService.
#[local] Open Scope tx_scope.

Inductive api_op : Type :=
| OpCreateMaster (p : uuid) (name : string) (bizID memberID outboxID : uuid) (now : time)
| OpCreateSub (p parent : uuid) (name : string) (childID outboxID : uuid) (now : time)
| OpMove (p node newParent : uuid) (now : time)
| OpArchive (p node : uuid) (now : time)
| OpRestore (p node : uuid) (now : time)
| OpRename (p node : uuid) (name : string) (now : time)
| OpDelete (p node : uuid) (now : time)
| OpGetBusiness (p node : uuid)
| OpListBusinesses (p : uuid)
| OpListMembers (p b : uuid)
| OpChangeRole (p b target role : uuid)
| OpRevokeMember (p b target : uuid)
| OpLeave (p b : uuid)
| OpTransfer (p b to : uuid)
| OpListRoles (p b : uuid)
| OpCreateRole (p b : uuid) (name : string) (perms : list string) (roleID : uuid) (hex : string)
| OpUpdateRole (p b role : uuid) (name : option string) (perms : option (list string))
| OpDeleteRole (p b role : uuid)
| OpInvite (ttl : duration) (p b role : uuid) (email raw : string) (id : uuid) (k : clock)
| OpRevokeInvite (p b id : uuid)
| OpResendInvite (ttl : duration) (p b id : uuid) (raw : string) (k : clock)
| OpListInvites (p b : uuid)
| OpAccept (p : uuid) (token : string) (memberID : uuid) (k : clock)
| OpSignup (email name password : string) (salt : list ascii) (entropy : option (list ascii))
    (accountID principalID tokenID : uuid) (k : clock)
| OpVerifyEmail (raw : string) (k : clock)
| OpLogin (email password : string) (k : clock) (entropy : option (list ascii)) (id family : uuid)
| OpRefresh (raw : string) (k : clock) (entropy : option (list ascii)) (id : uuid)
| OpLogout (raw : string) (k : clock)
| OpGetProfile (p : uuid)
| OpUpdateProfile (p : uuid) (name : string)
| OpRequestReset (email : string) (k : clock) (entropy : option (list ascii)) (tokenID : uuid)
| OpConfirmReset (raw password : string) (salt : list ascii) (k : clock)
| OpRequestEmailChange (p : uuid) (email : string) (k : clock) (entropy : option (list ascii)) (tokenID : uuid)
| OpConfirmEmailChange (raw : string) (k : clock)
| OpRequestMagicLink (email : string) (k : clock) (entropy : option (list ascii)) (tokenID : uuid)
| OpConsumeMagicLink (raw : string) (k : clock) (entropy : option (list ascii)) (id family : uuid)
| OpDeactivate (p : uuid)
| OpDeleteAccount (p : uuid) (k : clock)
| OpExport (p : uuid)
| OpCreateAgent (p b : uuid) (input : CreateAgentInput) (validate : option (list uuid -> option error))
    (insert : Agent -> option error) (agentID agentPrincipalID memberID : uuid) (now : time).

(** The database and the error a call leaves. *)
Definition outcome {A : Type} (r : tdb * result error A) : tdb * option error :=
  (fst r, match snd r with Ok _ => None | Err e => Some e end).

Section Api.
Context `{UnicodeTables, UUIDLib, PgText, EventLib, AuthLib}.
Context (cfg : AccountConfig).

Definition exec (o : api_op) (d0 d : tdb) : tdb * option error :=
  match o with
  | OpCreateMaster p name b m ob now => outcome (CreateMasterBusiness p name b m ob now d)
  | OpCreateSub p q name c ob now => outcome (CreateSubBusiness p q name c ob now d0 d)
  | OpMove p n q now => outcome (Move p n q now d0 d)
  | OpArchive p n now => outcome (Archive p n now d0 d)
  | OpRestore p n now => outcome (Restore p n now d0 d)
  | OpRename p n name now => outcome (RenameBusiness_api p n name now d)
  | OpDelete p n now => outcome (Delete p n now d0 d)
  | OpGetBusiness p n => outcome (GetBusiness_api p n d)
  | OpListBusinesses p => outcome (ListBusinesses_api p d)
  | OpListMembers p b => outcome (ListMembers p b d)
  | OpChangeRole p b q r => outcome (ChangeMemberRole p b q r d0 d)
  | OpRevokeMember p b q => outcome (RevokeMember p b q d0 d)
  | OpLeave p b => outcome (LeaveBusiness p b d0 d)
  | OpTransfer p b q => outcome (TransferOwnership p b q d0 d)
  | OpListRoles p b => outcome (ListRoles p b d)
  | OpCreateRole p b name perms id hex => outcome (CreateRole p b name perms id hex d)
  | OpUpdateRole p b r name perms => outcome (UpdateRole p b r name perms d)
  | OpDeleteRole p b r => outcome (DeleteRole p b r d)
  | OpInvite ttl p b r email raw id k => outcome (Create_invitation ttl p b r email raw id k d)
  | OpRevokeInvite p b id => outcome (Revoke_invitation p b id d)
  | OpResendInvite ttl p b id raw k => outcome (Resend_invitation ttl p b id raw k d)
  | OpListInvites p b => outcome (List_invitations p b d)
  | OpAccept p tok m k => outcome (Accept p tok m k d)
  | OpSignup email name pw salt en a p t k => outcome (Signup cfg email name pw salt en a p t k d)
  | OpVerifyEmail raw k => outcome (VerifyEmail raw k d)
  | OpLogin email pw k en id f => outcome (Login cfg email pw k en id f d)
  | OpRefresh raw k en id => outcome (Refresh cfg raw k en id d)
  | OpLogout raw k => outcome (Logout raw k d)
  | OpGetProfile p => outcome (GetProfile p d)
  | OpUpdateProfile p name => outcome (UpdateProfile p name d)
  | OpRequestReset email k en t => outcome (RequestPasswordReset cfg email k en t d)
  | OpConfirmReset raw pw salt k => outcome (ConfirmPasswordReset raw pw salt k d)
  | OpRequestEmailChange p email k en t => outcome (RequestEmailChange cfg p email k en t d)
  | OpConfirmEmailChange raw k => outcome (ConfirmEmailChange raw k d)
  | OpRequestMagicLink email k en t => outcome (RequestMagicLink cfg email k en t d)
  | OpConsumeMagicLink raw k en id f => outcome (ConsumeMagicLink cfg raw k en id f d)
  | OpDeactivate p => outcome (Deactivate p d)
  | OpDeleteAccount p k => outcome (Delete_account p k d)
  | OpExport p => outcome (Export p d)
  | OpCreateAgent p b input v ins a ap m now => outcome (CreateAgent p b input v ins a ap m now d)
  end.

(** A session starts a family of its own: its identifier is not in use. *)
Definition fresh_family (d : tdb) (f : uuid) : Prop := forall i r, t_refresh d !! i = Some r -> rf_family r <> f.
Definition fresh_draws (o : api_op) (d : tdb) : Prop :=
  match o with
  | OpLogin _ _ _ _ _ f | OpConsumeMagicLink _ _ _ _ f => fresh_family d f
  | _ => True
  end.

(** The tables an operation leaves that ran from [d] to [d'], when the statement
    that revokes refresh tokens took its snapshot in [d1].  Under READ COMMITTED an
    [UPDATE] finds the rows of its snapshot, waits for those that are locked and
    reads their latest version; a row inserted since is not among them, so the
    revocation passes it by. *)
Definition missed (d1 d d' : tdb) : tdb :=
  set_refresh (map_imap (fun i r =>
    Some match t_refresh d1 !! i, t_refresh d !! i with
         | None, Some r0 => {| rf_principal := rf_principal r; rf_hash := rf_hash r; rf_family := rf_family r;
                               rf_parent := rf_parent r; rf_used := rf_used r; rf_revoked := rf_revoked r0;
                               rf_expires := rf_expires r; rf_created := rf_created r |}
         | _, _ => r
         end) (t_refresh d')) d'.

(** The tenants that a merge has closed to writes. *)
Definition set_fence (f : gset uuid) (d : tdb) : tdb :=
  {| t_business := t_business d; t_closure := t_closure d; t_principal := t_principal d; t_account := t_account d;
     t_permission := t_permission d; t_role := t_role d; t_role_perm := t_role_perm d; t_membership := t_membership d;
     t_invitation := t_invitation d; t_refresh := t_refresh d; t_onetime := t_onetime d; t_erasure := t_erasure d;
     t_fence := f; t_audit := t_audit d; t_outbox := t_outbox d |}.

(** A step: an operation, which read [d0] before it was granted the tenant's lock
    and whose revocation, if it has one, has the snapshot of [d1]; or a tenant
    merge puts up or takes down fences. *)
Inductive api_step : list tdb -> list tdb -> Prop :=
| step_exec o d0 d1 d h : d0 ∈ d :: h -> d1 ∈ d :: h -> fresh_draws o d ->
    api_step (d :: h) (missed d1 d (fst (exec o d0 d)) :: d :: h)
| step_fence f d h : api_step (d :: h) (set_fence f d :: d :: h).
End Api.

(** ** Footprints *)

Inductive table : Type :=
| TBusiness | TClosure | TPrincipal | TAccount | TPermission | TRole | TRolePerm | TMembership | TInvitation
| TRefresh | TOnetime | TErasure | TFence | TAudit | TOutbox.
#[export] Instance table_eq_dec : EqDecision table.
Proof. solve_decision. Defined.

Definition same (x : table) (d d' : tdb) : Prop :=
  match x with
  | TBusiness => t_business d' = t_business d
  | TClosure => t_closure d' = t_closure d
  | TPrincipal => t_principal d' = t_principal d
  | TAccount => t_account d' = t_account d
  | TPermission => t_permission d' = t_permission d
  | TRole => t_role d' = t_role d
  | TRolePerm => t_role_perm d' = t_role_perm d
  | TMembership => t_membership d' = t_membership d
  | TInvitation => t_invitation d' = t_invitation d
  | TRefresh => t_refresh d' = t_refresh d
  | TOnetime => t_onetime d' = t_onetime d
  | TErasure => t_erasure d' = t_erasure d
  | TFence => t_fence d' = t_fence d
  | TAudit => t_audit d' = t_audit d
  | TOutbox => t_outbox d' = t_outbox d
  end.

(** [d'] differs from [d] in the tables [ts] at most. *)
Definition within (ts : list table) (d d' : tdb) : Prop := forall x, x ∉ ts -> same x d d'.

#[export] Instance within_preorder (ts : list table) : PreOrder (within ts).
Proof.
  split.
  - intros d x _. destruct x; done.
  - intros d1 d2 d3 H12 H23 x Hx. specialize (H12 x Hx). specialize (H23 x Hx). destruct x; simpl in *; congruence.
Qed.

Lemma missed_lookup d1 d d' i :
  t_refresh (missed d1 d d') !! i = (fun r =>
    match t_refresh d1 !! i, t_refresh d !! i with
    | None, Some r0 => {| rf_principal := rf_principal r; rf_hash := rf_hash r; rf_family := rf_family r;
                          rf_parent := rf_parent r; rf_used := rf_used r; rf_revoked := rf_revoked r0;
                          rf_expires := rf_expires r; rf_created := rf_created r |}
    | _, _ => r
    end) <$> t_refresh d' !! i.
Proof. simpl. rewrite map_lookup_imap. by destruct (t_refresh d' !! i). Qed.

Lemma missed_within d1 d d' : within [TRefresh] d' (missed d1 d d').
Proof. intros x Hx. destruct x; try done. exfalso. apply Hx. by left. Qed.

(** With the latest snapshot nothing is missed. *)
Lemma missed_none d d' : missed d d d' = d'.
Proof.
  assert (t_refresh (missed d d d') = t_refresh d') as He.
  { apply map_eq. intros i. rewrite missed_lookup. destruct (t_refresh d !! i); by destruct (t_refresh d' !! i). }
  destruct d'. unfold missed, set_refresh in *. simpl in *. by rewrite He.
Qed.

(** A transaction body whose runs are in [R]. *)
Definition moves {A : Type} (R : tdb -> tdb -> Prop) (m : txm A) : Prop :=
  forall t t' a, m t = Ok (t', a) -> R (tx_db t) (tx_db t').
Abbreviation writes ts m := (moves (within ts) m).

Definition footprint (o : api_op) : list table :=
  match o with
  | OpCreateMaster _ _ _ _ _ _ => [TBusiness; TClosure; TMembership; TAudit; TOutbox]
  | OpCreateSub _ _ _ _ _ _ => [TBusiness; TClosure; TAudit; TOutbox]
  | OpMove _ _ _ _ => [TBusiness; TClosure; TAudit]
  | OpArchive _ _ _ | OpRestore _ _ _ | OpRename _ _ _ _ | OpDelete _ _ _ => [TBusiness; TAudit]
  | OpChangeRole _ _ _ _ | OpRevokeMember _ _ _ | OpLeave _ _ | OpTransfer _ _ _ => [TMembership; TAudit]
  | OpCreateRole _ _ _ _ _ _ | OpUpdateRole _ _ _ _ _ | OpDeleteRole _ _ _ => [TRole; TRolePerm; TAudit]
  | OpInvite _ _ _ _ _ _ _ _ | OpRevokeInvite _ _ _ | OpResendInvite _ _ _ _ _ _ => [TInvitation]
  | OpAccept _ _ _ _ => [TInvitation; TMembership; TAudit]
  | OpSignup _ _ _ _ _ _ _ _ _ => [TAccount; TPrincipal; TOnetime]
  | OpVerifyEmail _ _ | OpConfirmEmailChange _ _ => [TAccount; TOnetime]
  | OpLogin _ _ _ _ _ _ | OpRefresh _ _ _ _ | OpLogout _ _ => [TRefresh]
  | OpUpdateProfile _ _ => [TAccount]
  | OpRequestReset _ _ _ _ | OpRequestEmailChange _ _ _ _ _ | OpRequestMagicLink _ _ _ _ => [TOnetime]
  | OpConfirmReset _ _ _ _ => [TOnetime; TAccount; TRefresh]
  | OpConsumeMagicLink _ _ _ _ _ => [TOnetime; TRefresh]
  | OpDeactivate _ => [TAccount; TAudit]
  | OpDeleteAccount _ _ => [TAccount; TRefresh; TErasure; TAudit]
  | OpCreateAgent _ _ _ _ _ _ _ _ _ => [TPrincipal; TMembership]
  | OpGetBusiness _ _ | OpListBusinesses _ | OpListMembers _ _ | OpListRoles _ _ | OpListInvites _ _
  | OpGetProfile _ | OpExport _ => []
  end.

(** *** Composition *)

Section Moves.
Context (R : tdb -> tdb -> Prop) {HR : PreOrder R}.

Lemma moves_bind {A B : Type} (m : txm A) (k : A -> txm B) :
  moves R m -> (forall a, moves R (k a)) -> moves R (tx_bind m k).
Proof.
  intros Hm Hk t t' b Hr. apply tx_bind_ok in Hr as (t1 & a & H1 & H2).
  etransitivity; [by eapply Hm|by eapply Hk].
Qed.
Lemma moves_ret {A : Type} (a : A) : moves R (tx_ret a).
Proof. intros t t' b [-> _]%tx_ret_ok. reflexivity. Qed.
Lemma moves_err {A : Type} e : moves R (tx_err e : txm A).
Proof. by intros t t' b. Qed.
Lemma moves_get {A : Type} (f : tdb -> result error A) : moves R (tx_get f).
Proof. intros t t' b [-> _]%tx_get_ok. reflexivity. Qed.
Lemma moves_guard b e : moves R (tx_guard b e).
Proof. intros t t' u [-> _]%tx_guard_ok. reflexivity. Qed.
Lemma moves_or {A : Type} (m : txm A) e : moves R m -> moves R (tx_or m e).
Proof. intros Hm t t' a Hr%tx_or_ok. by eapply Hm. Qed.
Lemma moves_all {A : Type} (f : A -> bool) l e : moves R (tx_all f l e).
Proof. intros t t' u [-> _]%tx_all_ok. reflexivity. Qed.
Lemma moves_defer r : moves R (tx_defer r).
Proof. intros t t' u ->%tx_defer_ok. reflexivity. Qed.
Lemma moves_iter {A : Type} (f : A -> txm unit) l : (forall a, moves R (f a)) -> moves R (tx_iter f l).
Proof. intros Hf. induction l as [|a l IH]; simpl; [apply moves_ret|by apply moves_bind]. Qed.
Lemma moves_put f : (forall d d', f d = Ok d' -> R d d') -> moves R (tx_put f).
Proof. intros Hf t t' u (d & Hd & ->)%tx_put_ok. simpl. by apply Hf. Qed.
Lemma moves_run {A : Type} c (m : txm A) d : moves R m -> R d (fst (run_tx c m d)).
Proof.
  intros Hm. destruct (run_tx_cases c m d) as [(t & a & Hb & _ & ->)|[e ->]]; simpl; [|reflexivity].
  by apply Hm in Hb.
Qed.
Lemma moves_locked {A B : Type} p (load : tdb -> result error A) (body : A -> txm B) d0 d :
  (forall a, moves R (body a)) -> R d (fst (locked_tx p load body d0 d)).
Proof. intros Hb. unfold locked_tx. destruct (load d0); [by apply moves_run|reflexivity]. Qed.
Lemma moves_refused {A : Type} (b : bool) (e : error) (r : tdb * result error A) d :
  R d (fst r) -> R d (fst (if b then (d, Err e) else r)).
Proof. by destruct b. Qed.
End Moves.

Create HintDb writes.
#[export] Hint Resolve @moves_ret @moves_err @moves_get @moves_guard @moves_all @moves_defer : writes.

#[export] Hint Extern 0 (PreOrder _) => apply _ : writes.

(** A statement that changes one table of the footprint. *)
Ltac within_table :=
  let x := fresh "x" in let Hx := fresh "Hx" in
  intros x Hx; destruct x; try reflexivity; exfalso; apply Hx; apply list_elem_of_In; simpl; tauto.
Ltac writes_stmt :=
  apply moves_put; let d := fresh "d" in let d' := fresh "d'" in let Hd := fresh "Hd" in
  intros d d' Hd; cbv zeta in Hd;
  repeat match type of Hd with context [let '(_, _) := ?x in _] => destruct x end;
  ok_tests Hd; subst; first [reflexivity | within_table].
Ltac writes :=
  repeat first
    [ progress intros
    | solve [eauto 2 with writes]
    | apply (moves_bind _)
    | apply (moves_or _)
    | apply (moves_iter _)
    | match goal with
      | |- moves _ (match ?x with _ => _ end) => destruct x
      | |- moves _ (let '(_, _) := ?x in _) => destruct x
      end ].
