(* ===== verification/TenantFootprint.v ===== *)
(** * Footprints of the operations

    Each statement changes one table, and each operation the tables [footprint]
    names at most: an effect discipline, established compositionally. *)

From S2P Require Import Prelude GoStrings GoBase64 GoTime GoJson AutoGraph Errors AutoStore AutoService AutoEvents WorkBoard.
From S2P Require Import TenantModel TenantService TenantTree TenantFacts TenantOps TenantMembers AuthTokens AccountService TenantApi.
#[local] Open Scope tx_scope.

(** ** Statements *)

Section Statements.
Context (ts : list table).

Lemma w_update_business sel g : In TBusiness ts -> writes ts (update_business sel g).
Proof. intros Hin. unfold update_business. writes_stmt. Qed.
Lemma w_CreateBusiness id q r name now : In TBusiness ts -> writes ts (CreateBusiness id q r name now).
Proof. intros Hin. unfold CreateBusiness. writes_stmt. Qed.
Lemma w_insert_closure row : In TClosure ts -> writes ts (insert_closure row).
Proof. intros Hin. unfold insert_closure. destruct row as [[[a x] n] r]. writes_stmt. Qed.
Lemma w_move_delete n : In TClosure ts -> writes ts (move_delete n).
Proof. intros Hin. unfold move_delete. writes_stmt. Qed.
Lemma w_move_parent n q now : In TBusiness ts -> writes ts (move_parent n q now).
Proof. intros Hin. unfold move_parent. writes_stmt. Qed.
Lemma w_InsertAuditEntry e : In TAudit ts -> writes ts (InsertAuditEntry e).
Proof. intros Hin. unfold InsertAuditEntry. writes_stmt. Qed.
Lemma w_EnqueueOutbox i r tp pl : In TOutbox ts -> writes ts (EnqueueOutbox i r tp pl).
Proof. intros Hin. unfold EnqueueOutbox. writes_stmt. Qed.
Lemma w_CreateMembership c i p b r ro by_ now : In TMembership ts -> writes ts (CreateMembership c i p b r ro by_ now).
Proof. intros Hin. unfold CreateMembership. writes. writes_stmt. Qed.
Lemma w_UpdateMembershipRole c p b r by_ : In TMembership ts -> writes ts (UpdateMembershipRole c p b r by_).
Proof. intros Hin. unfold UpdateMembershipRole. writes. writes_stmt. Qed.
Lemma w_DeleteMembershipAt c p b : In TMembership ts -> writes ts (DeleteMembershipAt c p b).
Proof. intros Hin. unfold DeleteMembershipAt. writes. writes_stmt. Qed.
Lemma w_CreateRole_row i r k n : In TRole ts -> writes ts (CreateRole_row i r k n).
Proof. intros Hin. unfold CreateRole_row. writes_stmt. Qed.
Lemma w_UpdateRoleName c r n : In TRole ts -> writes ts (UpdateRoleName c r n).
Proof. intros Hin. unfold UpdateRoleName. writes_stmt. Qed.
Lemma w_AddRolePermission r k : In TRolePerm ts -> writes ts (AddRolePermission r k).
Proof. intros Hin. unfold AddRolePermission. writes_stmt. Qed.
Lemma w_ClearRolePermissions c r : In TRolePerm ts -> writes ts (ClearRolePermissions c r).
Proof. intros Hin. unfold ClearRolePermissions. writes_stmt. Qed.
Lemma w_DeleteRole_row c r root : In TRole ts -> In TRolePerm ts -> writes ts (DeleteRole_row c r root).
Proof. intros Hin Hin'. unfold DeleteRole_row. writes_stmt. Qed.

Lemma w_CreateRefreshToken i p h f q e n : In TRefresh ts -> writes ts (CreateRefreshToken i p h f q e n).
Proof. intros Hin. unfold CreateRefreshToken. writes_stmt. Qed.
Lemma w_MarkRefreshTokenUsed i n : In TRefresh ts -> writes ts (MarkRefreshTokenUsed i n).
Proof. intros Hin. unfold MarkRefreshTokenUsed. writes_stmt. Qed.
Lemma w_RevokeRefreshFamily f n : In TRefresh ts -> writes ts (RevokeRefreshFamily f n).
Proof. intros Hin. unfold RevokeRefreshFamily. writes_stmt. Qed.
Lemma w_RevokeAllRefreshForPrincipal p n : In TRefresh ts -> writes ts (RevokeAllRefreshForPrincipal p n).
Proof. intros Hin. unfold RevokeAllRefreshForPrincipal. writes_stmt. Qed.

Lemma w_CreateAccount `{PgText} i e h n : In TAccount ts -> writes ts (CreateAccount i e h n).
Proof. intros Hin. unfold CreateAccount. writes_stmt. Qed.
Lemma w_CreateHumanPrincipal i a : In TPrincipal ts -> writes ts (CreateHumanPrincipal i a).
Proof. intros Hin. unfold CreateHumanPrincipal. writes_stmt. Qed.
Lemma w_CreateAgentPrincipal c i b : In TPrincipal ts -> writes ts (CreateAgentPrincipal c i b).
Proof. intros Hin. unfold CreateAgentPrincipal. writes. writes_stmt. Qed.
Lemma w_CreateAgent_row c ins a : writes ts (CreateAgent_row c ins a).
Proof. unfold CreateAgent_row. writes. Qed.
Lemma w_update_account i sel g : In TAccount ts -> writes ts (update_account i sel g).
Proof. intros Hin. unfold update_account. writes_stmt. Qed.
Lemma w_ScheduleErasure i p : In TErasure ts -> writes ts (ScheduleErasure i p).
Proof. intros Hin. unfold ScheduleErasure. writes_stmt. Qed.
Lemma w_CreateOneTimeToken i a e p h n x : In TOnetime ts -> writes ts (CreateOneTimeToken i a e p h n x).
Proof. intros Hin. unfold CreateOneTimeToken. writes_stmt. Qed.
Lemma w_ConsumeOneTimeToken h p n : In TOnetime ts -> writes ts (ConsumeOneTimeToken h p n).
Proof. intros Hin. unfold ConsumeOneTimeToken. writes. writes_stmt. Qed.
Lemma w_CreateInvitation i b r e ro h by_ x n : In TInvitation ts -> writes ts (CreateInvitation i b r e ro h by_ x n).
Proof. intros Hin. unfold CreateInvitation. writes_stmt. Qed.
Lemma w_update_pending c i b g : In TInvitation ts -> writes ts (update_pending c i b g).
Proof. intros Hin. unfold update_pending. writes_stmt. Qed.
Lemma w_opaque_token e : writes ts (opaque_token e).
Proof. unfold opaque_token. writes. Qed.
End Statements.

#[export] Hint Extern 1 (In _ _) => simpl; tauto : writes.
#[export] Hint Resolve w_update_business w_CreateBusiness w_insert_closure w_move_delete w_move_parent
  w_InsertAuditEntry w_EnqueueOutbox w_CreateMembership w_UpdateMembershipRole w_DeleteMembershipAt w_CreateRole_row
  w_UpdateRoleName w_AddRolePermission w_ClearRolePermissions w_DeleteRole_row w_CreateRefreshToken
  w_MarkRefreshTokenUsed w_RevokeRefreshFamily w_RevokeAllRefreshForPrincipal w_CreateAccount w_CreateHumanPrincipal
  w_update_account w_ScheduleErasure w_CreateOneTimeToken w_ConsumeOneTimeToken w_CreateInvitation w_update_pending
  w_opaque_token w_CreateAgentPrincipal w_CreateAgent_row : writes.

(** ** Operations *)

Section Operations.
Context `{UnicodeTables, UUIDLib, PgText, EventLib, AuthLib}.
Context (cfg : AccountConfig).

Ltac unfold_stmts :=
  unfold RenameBusiness, SetSubtreeStatus, SoftDeleteBusiness, InsertClosureSelf, InsertChildClosure, move_business,
    auditBusiness, enqueue_created, requirePerm, requireManage, guardEscalation, guardLastOwner, audit_member,
    auditMembership, auditRole, validateGrantable, IssueRefresh, RotateRefresh, RevokeRefreshByToken, MarkEmailVerified,
    UpdatePasswordHash, UpdateDisplayName, DeactivateAccount, SoftDeleteAccount, UpdateEmail, open_session,
    issueOneTimeToken, issue_for_email, guardNotLastOwner, audit_account.
Ltac op_within :=
  repeat apply (moves_refused _); first [apply (moves_run _) | apply (moves_locked _); intros ?]; unfold_stmts; writes.

Lemma w_join_business m p i now ts : In TMembership ts -> writes ts (join_business m p i now).
Proof.
  intros Hin t t' u Hr. unfold join_business in Hr.
  ok_tests Hr; [subst; reflexivity|]. by eapply w_CreateMembership in Hr.
Qed.
Hint Resolve w_join_business : writes.

Lemma w_accept_invitation h p e m now :
  writes [TInvitation; TMembership; TAudit] (accept_invitation h p e m now).
Proof. unfold accept_invitation. writes. writes_stmt. Qed.
Hint Resolve w_accept_invitation : writes.

Lemma w_update_email_mapped a e ts :
  In TAccount ts ->
  writes ts (fun t => match UpdateEmail a e t with
                      | Err err => if bool_decide (pg_code err = Some "23505")
                                   then Err (invalid "that email is not available") else Err err
                      | Ok r => Ok r
                      end).
Proof.
  intros Hin t t' u Hr.
  assert (writes ts (UpdateEmail a e)) as Hw by (unfold UpdateEmail; writes).
  destruct (UpdateEmail a e t) as [[t1 []]|err] eqn:Hu; [|by destruct (bool_decide _)].
  injection Hr as <- _. by apply Hw in Hu.
Qed.
Hint Resolve w_update_email_mapped : writes.

Lemma within_Refresh raw k en id d : within [TRefresh] d (fst (Refresh cfg raw k en id d)).
Proof.
  unfold Refresh.
  match goal with |- context [WithTx ?m d] => assert (within [TRefresh] d (fst (WithTx m d))) as Hw end.
  { apply (moves_run _). unfold_stmts. writes. }
  by destruct (WithTx _ d) as [d' [[]|]].
Qed.

Lemma within_CreateAgent p b input v ins a ap m now d :
  within [TPrincipal; TMembership] d (fst (CreateAgent p b input v ins a ap m now d)).
Proof.
  unfold CreateAgent. destruct (validateCreateAgent input); [done|]. cbv zeta. destruct (match v with Some _ => _ | None => _ end); [done|].
  match goal with |- context [WithPrincipal p ?body d] =>
    assert (within [TPrincipal; TMembership] d (fst (WithPrincipal p body d))) as Hw end.
  { apply (moves_run _). writes. }
  by destruct (WithPrincipal _ _ d).
Qed.

Lemma exec_within o d0 d : within (footprint o) d (fst (exec cfg o d0 d)).
Proof.
  destruct o; simpl footprint; unfold exec, outcome; cbv beta; simpl fst; try apply within_Refresh; try apply within_CreateAgent; cbv beta delta
    [CreateMasterBusiness CreateSubBusiness Move Archive Restore setStatus RenameBusiness_api Delete GetBusiness_api
     ListBusinesses_api ListMembers ChangeMemberRole RevokeMember LeaveBusiness TransferOwnership ListRoles CreateRole
     UpdateRole DeleteRole Create_invitation Revoke_invitation Resend_invitation List_invitations Accept Signup
     VerifyEmail Login Logout GetProfile UpdateProfile RequestPasswordReset ConfirmPasswordReset RequestEmailChange
     ConfirmEmailChange RequestMagicLink ConsumeMagicLink Deactivate Delete_account Export]; cbv zeta; op_within.
Qed.
End Operations.
