(* ===== verification/TenantSafety.v ===== *)
(** * The tenancy invariant over all operations

    Every operation keeps [tenancy_ok], so it holds in every database there ever
    is, whatever operations run and however out of date what they read before
    the lock is. *)

From S2P Require Import Prelude GoStrings GoBase64 GoTime GoJson AutoGraph Errors AutoStore AutoService AutoEvents WorkBoard.
From S2P Require Import TenantModel TenantService TenantTree TenantFacts TenantOps TenantMembers AuthTokens AccountService TenantApi TenantFootprint.
From stdpp Require Import sorting.
#[local] Open Scope tx_scope.

(** ** Operations that leave the tenancy tables alone *)

Definition tenancy_tables : list table := [TBusiness; TClosure; TPrincipal; TPermission; TRole; TRolePerm; TMembership].

Definition aside (ts : list table) : bool := forallb (fun x => negb (bool_decide (x ∈ tenancy_tables))) ts.

Lemma within_aside {G : Prop} ts d d' :
  within ts d d' -> aside ts = true -> tenancy_inv G d -> tenancy_inv G d' /\ evolves d d'.
Proof.
  intros Hw Hts Hok.
  assert (forall x, x ∈ tenancy_tables -> same x d d') as Hs.
  { intros x Hx. apply Hw. intros Hin. unfold aside in Hts. rewrite forallb_forall in Hts.
    apply list_elem_of_In in Hin. specialize (Hts x Hin). by rewrite bool_decide_eq_true_2 in Hts. }
  assert (same TBusiness d d' /\ same TClosure d d' /\ same TPrincipal d d' /\ same TPermission d d' /\ same TRole d d' /\
          same TRolePerm d d' /\ same TMembership d d') as (Hb & Hc & Hp & Hpm & Hr & Hrp & Hm).
  { split_and!; apply Hs; apply list_elem_of_In; simpl; tauto. }
  simpl in *. split; [|by apply evolves_same]. apply (tenancy_ok_ext d); try done.
  - unfold shape_of. by rewrite Hb.
  - intros x b Hx Hd. rewrite Hb in Hx. eauto.
  - intros k. by rewrite Hpm.
  - intros p r. by rewrite Hp.
Qed.

Section Safety.
Context `{UnicodeTables, UUIDLib, PgText, EventLib, AuthLib}.
Context (cfg : AccountConfig).

Lemma keeps_aside o : aside (footprint o) = true -> keeps (fun d0 d => fst (exec cfg o d0 d)).
Proof. intros Hf G d0 d Hok0 Hok _ Hev. by eapply within_aside; [apply exec_within| |]. Qed.

(** ** Signup *)

Lemma Signup_keeps email name pw salt en a p i k :
  keeps (fun _ d => fst (Signup cfg email name pw salt en a p i k d)).
Proof.
  unfold Signup. apply (keeps_same _ _ (fun _ d => _)). apply keeps_tx. intros G d t b Hok Hr. tx_inv.
  apply (w_opaque_token []) in Hm as Hw. apply (w_CreateAccount [TAccount]) in Hm0 as Hw0; [|by left].
  apply (w_CreateOneTimeToken [TOnetime]) in Hm2 as Hw2; [|by left].
  destruct (within_aside (G := G) [TAccount] d (tx_db t1)) as [Hok2 Hev2]; [|done|done|].
  { etransitivity; [|exact Hw0]. intros x _. apply Hw. by apply not_elem_of_nil. }
  unfold CreateHumanPrincipal in Hm1. apply tx_put_ok in Hm1 as (d' & Hd & ->). ok_tests Hd. subst d'.
  match type of Hw2 with within _ (tx_db {| tx_db := ?x; tx_deferred := _ |}) _ => assert (tenancy_inv G x) as Hok3 end.
  { apply (tenancy_ok_ext (tx_db t1)); try done; [naive_solver|]. intros q r Hq. simpl.
    rewrite lookup_insert_ne; [done|]. intros ->. congruence. }
  destruct (within_aside _ _ _ Hw2 eq_refl Hok3) as [Hok4 Hev4]. split; [done|].
  etransitivity; [exact Hev2|]. etransitivity; [|exact Hev4]. by apply evolves_same.
Qed.

(** ** Creating an agent *)

(** A run that inserts a membership the triggers pass. *)
Lemma CreateMembership_settled {G : Prop} c d i p b root role by_ now t t' u :
  settled G d t -> (forall r, t_role (tx_db t) !! role = Some r -> vis_role c (tx_db t) r = true \/ rl_root r = None) ->
  CreateMembership c i p b root role by_ now t = Ok (t', u) -> settled G d t'.
Proof.
  intros [Hok Hb] Hvis Hr. apply CreateMembership_ok in Hr as (Hnone & Htr & Hp & Hbi & Hrole & ->). split; [|done]. simpl.
  apply membership_triggers_ok in Htr as (Hag & Hrt & _).
  unfold role_exists, principal_exists in *. to_prop. destruct Hrole as [r Hrole].
  apply (ok_set_member _ Hok _ _ _ r); simpl; try done.
  - unfold membership_role_tenant_guard in Hrt. rewrite Hrole in Hrt. destruct (Hvis _ Hrole) as [Hv|Hv]; [|by left]. rewrite Hv in Hrt.
    destruct (rl_root r) as [x|]; [|by left]. right. apply N.eqb_eq in Hrt. congruence.
  - intros pr Hpr Hk. by eapply membership_agent_home.
  - intros _ row _ _ _. left. intros m0 r0 Hm0. congruence.
Qed.

Lemma CreateAgentPrincipal_settled {G : Prop} c d i b t t' u :
  settled G d t -> CreateAgentPrincipal c i b t = Ok (t', u) -> settled G d t'.
Proof.
  intros [Hok Hb] Hr. unfold CreateAgentPrincipal in Hr. tx_inv. apply tx_put_ok in Hk as (d' & Hd & ->). ok_tests Hd. subst d'.
  split; [|done]. apply (tenancy_ok_ext (tx_db t)); try done; [naive_solver|]. intros q r Hq. simpl.
  rewrite lookup_insert_ne; [done|]. intros ->. congruence.
Qed.

Lemma CreateAgent_row_ok c ins a t t' root : CreateAgent_row c ins a t = Ok (t', root) -> t' = t.
Proof. intros Hr. unfold CreateAgent_row in Hr. by tx_inv. Qed.

Lemma CreateAgent_keeps p b input v ins a ap m now : keeps (fun _ d => fst (CreateAgent p b input v ins a ap m now d)).
Proof.
  intros G d0 d Hok0 Hok Hpl Hev. unfold CreateAgent. destruct (validateCreateAgent input); [by split|]. cbv zeta.
  destruct (match v with Some _ => _ | None => _ end); [by split|].
  match goal with |- context [WithPrincipal p ?body d] => assert (keeps (fun _ d => fst (WithPrincipal p body d))) as Hk end.
  { apply keeps_tx. clear. intros G d t x Hok Hr. tx_inv. apply settled_done.
    match goal with Hc : CreateMembership _ _ _ _ _ _ _ _ _ = Ok _ |- _ => eapply CreateMembership_settled; [| |exact Hc] end.
    - match goal with Hc : CreateAgent_row _ _ _ _ = Ok _ |- _ => apply CreateAgent_row_ok in Hc as -> end.
      eapply CreateAgentPrincipal_settled; [|eassumption]. by split.
    - intros r Hr. match goal with Hc : PresetRoleID _ _ = Ok _ |- _ => apply PresetRoleID_ok in Hc as (r' & Hr' & Hn & _) end.
      rewrite Hr in Hr'. injection Hr' as <-. by right. }
  destruct (Hk G d0 d Hok0 Hok Hpl Hev). by destruct (WithPrincipal _ _ d).
Qed.

(** ** Accepting an invitation *)

Lemma join_business_ok m p i now t t' u :
  join_business m p i now t = Ok (t', u) ->
  (is_Some (t_membership (tx_db t) !! (p, iv_business i)) /\ t' = t) \/
  (t_membership (tx_db t) !! (p, iv_business i) = None /\
   CreateMembership AsOwner m p (iv_business i) (iv_root i) (iv_role i) (iv_created_by i) now t = Ok (t', u)).
Proof.
  unfold join_business. intros Hr. ok_tests Hr; [|by right]. subst. eauto.
Qed.

(** A run that adds the invitee. *)
Lemma join_keeps {G : Prop} d m p i now t t' u :
  settled G d t -> join_business m p i now t = Ok (t', u) -> settled G d t'.
Proof.
  intros Hs Hr. apply join_business_ok in Hr as [[_ ->]|[Hnone Hr]]; [done|].
  eapply CreateMembership_settled; [exact Hs| |exact Hr]. by left.
Qed.

Lemma accept_keeps {G : Prop} h p e m now d t t' a :
  settled G d t -> accept_invitation h p e m now t = Ok (t', a) -> settled G d t'.
Proof.
  intros Hs Hr. unfold accept_invitation in Hr. tx_inv.
  destruct a0 as [[id inv]|]; [|by tx_inv].
  destruct (negb (citext_eq _ _)); [by tx_inv|]. destruct (_ || _); [by tx_inv|]. tx_inv.
  match type of Hk0 with (if ?b then _ else _) _ = _ => destruct b; [by tx_inv|] end. tx_inv.
  eapply audit_settled; [|exact Hm3]. eapply join_keeps; [|exact Hm2].
  apply tx_put_ok in Hm1 as (d' & Hd & ->). ok_tests Hd. subst d'. destruct Hs as [Hok Hb].
  split; [by apply ok_set_invitation|done].
Qed.

Lemma Accept_keeps p tok m k : keeps (fun _ d => fst (Accept p tok m k d)).
Proof.
  unfold Accept. cbv zeta. apply (keeps_same _ _ (fun _ d => _)). apply keeps_tx. intros G d t b Hok Hr. tx_inv.
  destruct a as [id acct]. destruct (at_verified acct); tx_inv; [|apply settled_done; done].
  destruct a as [[st b'] r]. tx_inv. apply settled_done. eapply accept_keeps; [|exact Hm0]. by split.
Qed.

(** ** All operations *)

Lemma api_keeps o : keeps (fun d0 d => fst (exec cfg o d0 d)).
Proof.
  destruct o; try (apply keeps_aside; reflexivity); unfold exec, outcome; cbv beta; simpl fst.
  - apply CreateMasterBusiness_keeps.
  - apply CreateSubBusiness_keeps.
  - apply Move_keeps.
  - apply setStatus_keeps.
  - apply setStatus_keeps.
  - apply RenameBusiness_keeps.
  - apply Delete_keeps.
  - apply ChangeMemberRole_keeps.
  - apply RevokeMember_keeps.
  - apply LeaveBusiness_keeps.
  - apply TransferOwnership_keeps.
  - apply CreateRole_keeps.
  - apply UpdateRole_keeps.
  - apply DeleteRole_keeps.
  - apply Accept_keeps.
  - apply Signup_keeps.
  - apply CreateAgent_keeps.
Qed.

(** The databases there have been satisfy the invariant, and each evolves from
    those before it. *)
Definition sound_history (G : Prop) (h : list tdb) : Prop :=
  Forall (tenancy_inv G) h /\ StronglySorted (fun d d0 => evolves d0 d) h.

Lemma api_step_sound {G : Prop} h h' :
  (G -> Forall plain h) -> sound_history G h -> api_step cfg h h' -> sound_history G h'.
Proof.
  intros Hpl [Hall Hs] Hstep.
  assert (forall d h d', tenancy_inv G d' -> evolves d d' -> sound_history G (d :: h) -> sound_history G (d' :: d :: h)) as Hnext.
  { intros d h1 d' Hok' Hev' [Ha Hs']. split; [by constructor|]. apply StronglySorted_inv in Hs' as Hs2. destruct Hs2 as [_ Hev].
    constructor; [done|]. constructor; [done|]. eapply Forall_impl; [exact Hev|]. simpl. intros x Hx. by etransitivity. }
  destruct Hstep as [o d0 d1 d h Hin _ Hfr|f d h]; pose proof (Forall_inv Hall) as Hok.
  - assert (tenancy_inv G d0) as Hok0 by (by eapply Forall_forall in Hall).
    apply StronglySorted_inv in Hs as Hs'. destruct Hs' as [_ Hev].
    assert (evolves d0 d) as Hev0.
    { apply elem_of_cons in Hin as [->|Hin]; [reflexivity|]. by eapply Forall_forall in Hev. }
    destruct (api_keeps o G d0 d Hok0 Hok (fun HG => Forall_inv (Hpl HG)) Hev0) as [Hok' Hev'].
    destruct (within_aside [TRefresh] _ (missed d1 d (fst (exec cfg o d0 d))) (missed_within _ _ _) eq_refl Hok') as [Hok2 Hev2].
    apply Hnext; [done| |done]. by etransitivity.
  - destruct (within_aside (G := G) [TFence] d (set_fence f d)) as [Hok2 Hev2]; [|done|done|by apply Hnext].
    intros x Hx. destruct x; try done. exfalso. apply Hx. by left.
Qed.

Lemma sound_start {G : Prop} d : tenancy_inv G d -> sound_history G [d].
Proof. intros Hok. split; [by constructor|]. repeat constructor. Qed.

(** While every database is [plain] the tenants keep their Owners too. *)
Lemma reachable_sound (G : Prop) d h :
  tenancy_inv G d -> rtc (api_step cfg) [d] h -> (G -> Forall plain h) -> sound_history G h.
Proof.
  intros Hok. apply (rtc_ind_r (fun h => (G -> Forall plain h) -> sound_history G h)); [by intros _; apply sound_start|].
  intros y z _ Hyz Hy Hpl. assert (G -> Forall plain y) as Hpl'.
  { intros HG. specialize (Hpl HG). destruct Hyz; by apply Forall_inv_tail in Hpl. }
  eapply api_step_sound; [exact Hpl'|by apply Hy|exact Hyz].
Qed.
End Safety.

(** ** The database after the migrations *)

(** The catalog of migrations 0003, 0015, 0027, 0029, 0031, 0037, 0047, 0048, 0058,
    0103, 0105, 0124 and 0146. *)
Definition permission_of (module : string) (l : list (string * string)) : list (string * permission_row) :=
  map (fun x => (fst x, {| pm_module := module; pm_description := snd x |})) l.
Definition seed_permissions : gmap string permission_row := list_to_map (
  permission_of "tenancy"
    [("business.read", "View a business"); ("hierarchy.manage", "Create, rename, move, archive, restore businesses");
     ("business.delete", "Delete a business"); ("ownership.transfer", "Transfer tenant ownership")] ++
  permission_of "iam"
    [("members.read", "View members / access list"); ("members.manage", "Invite, assign roles, revoke members");
     ("roles.read", "View roles"); ("roles.manage", "Create, edit, delete custom roles")] ++
  permission_of "observability" [("audit.read", "Read the audit trail")] ++
  permission_of "tickets"
    [("tickets.read", "View tickets, messages, and requesters"); ("tickets.reply", "Send replies and internal notes on a ticket");
     ("tickets.write", "Edit/triage a ticket: status, priority, tags"); ("tickets.assign", "Assign a ticket to a member principal");
     ("tickets.delete", "Delete/redact a ticket")] ++
  permission_of "inbox" [("inbox.manage", "Manage inbound addresses and custom domains/identities")] ++
  permission_of "agents"
    [("agents.configure", "Create, update, and delete agent definitions and provider credentials");
     ("agents.run", "Trigger and execute agent runs (tool calls within a run)");
     ("agents.approve", "Decide (approve/deny) queued agent approval items");
     ("mcp.invoke", "Invoke a tool exposed by an external MCP server (gated; always approval-required).")] ++
  permission_of "connectors"
    [("connectors.read", "Read external ticket state via connector agent tools");
     ("connectors.write", "Post comments and transition status on external tickets (gated, audited)");
     ("connectors.manage", "Create, configure, rotate credentials for, and delete external connectors")] ++
  permission_of "crm"
    [("crm.read", "View contacts and companies"); ("crm.write", "Create, update, delete, and merge contacts and companies")] ++
  permission_of "feedback"
    [("feedback.read", "View feedback boards, posts, and ingest keys");
     ("feedback.write", "Manage boards, moderate posts, manage ingest keys, convert to tickets")] ++
  permission_of "telemetry"
    [("telemetry.read", "View registered telemetry clients and their publishable keys");
     ("telemetry.write", "Register and revoke telemetry clients")] ++
  permission_of "mailing"
    [("mailing.read", "View mailing lists, subscribers, templates, campaigns, and delivery results");
     ("mailing.write", "Manage mailing lists, subscribers, templates, sending profiles, and suppressions");
     ("mailing.send", "Verify sending profiles and send tests, campaigns, and automations")] ++
  permission_of "work"
    [("work.read", "View work projects, tasks and the operator inbox");
     ("work.write", "Manage work projects and tasks, and issue/revoke work tokens")]).

(** What both the Owner and the Admin are granted by row; the Owner's other
    permissions come with the lock. *)
Definition shared_keys : list string :=
  ["business.read"; "hierarchy.manage"; "members.read"; "members.manage"; "roles.read"; "roles.manage"; "audit.read";
   "tickets.read"; "tickets.reply"; "tickets.write"; "tickets.assign"; "tickets.delete"; "inbox.manage"; "agents.configure";
   "connectors.read"; "connectors.write"; "connectors.manage"; "crm.read"; "crm.write"; "feedback.read"; "feedback.write";
   "telemetry.read"; "telemetry.write"; "mailing.read"; "mailing.write"; "mailing.send"; "work.read"; "work.write"].
Definition owner_keys : list string := ["business.delete"; "ownership.transfer"] ++ shared_keys.
Definition admin_keys : list string := ["agents.run"; "agents.approve"] ++ shared_keys.
Definition member_keys : list string :=
  ["business.read"; "members.read"; "tickets.read"; "tickets.reply"; "tickets.write"; "tickets.assign"; "connectors.read";
   "connectors.write"; "crm.read"; "feedback.read"; "telemetry.read"; "mailing.read"; "work.read"; "work.write"].
Definition viewer_keys : list string :=
  ["business.read"; "tickets.read"; "connectors.read"; "crm.read"; "feedback.read"; "telemetry.read"; "mailing.read"; "work.read"].
Definition agent_keys : list string :=
  ["tickets.read"; "tickets.reply"; "tickets.write"; "tickets.assign"; "agents.run"; "mcp.invoke"].

(** The preset roles, with the identifiers they were given. *)
Record preset_ids := { id_owner : uuid; id_admin : uuid; id_member : uuid; id_viewer : uuid; id_agent : uuid }.
Definition preset (key name : string) (locked : bool) : role_row :=
  {| rl_root := None; rl_key := key; rl_name := name; rl_locked := locked |}.
Definition presets (i : preset_ids) : list (uuid * role_row * list string) :=
  [(id_owner i, preset "owner" "Owner" true, owner_keys); (id_admin i, preset "admin" "Admin" false, admin_keys);
   (id_member i, preset "member" "Member" false, member_keys); (id_viewer i, preset "viewer" "Viewer" false, viewer_keys);
   (id_agent i, preset "agent_runtime" "Agent Runtime" true, agent_keys)].
Definition seed_roles (i : preset_ids) : gmap uuid role_row := list_to_map (map fst (presets i)).
Definition seed_role_permissions (i : preset_ids) : gset (uuid * string) :=
  dom (list_to_map (map (fun x => (x, tt)) (flat_map (fun x => map (pair (fst (fst x))) (snd x)) (presets i))) : gmap (uuid * string) unit).

Definition seed (i : preset_ids) : tdb :=
  {| t_business := ∅; t_closure := ∅; t_principal := ∅; t_account := ∅; t_permission := seed_permissions;
     t_role := seed_roles i; t_role_perm := seed_role_permissions i;
     t_membership := ∅; t_invitation := ∅; t_refresh := ∅; t_onetime := ∅; t_erasure := ∅; t_fence := ∅; t_audit := [];
     t_outbox := ∅ |}.
Definition distinct (i : preset_ids) : Prop := NoDup (map (fun x => fst (fst x)) (presets i)).

#[local] Opaque seed_permissions.

Section Seed.
Context (ids : preset_ids) (Hnd : distinct ids).

Lemma seed_role i r : seed_roles ids !! i = Some r <-> exists ks, (i, r, ks) ∈ presets ids.
Proof.
  unfold seed_roles. rewrite <- elem_of_list_to_map.
  - rewrite list_elem_of_fmap. split; [intros ([x ks] & -> & Hx); eauto|intros [ks Hx]; by exists ((i, r), ks)].
  - unfold distinct in Hnd. by rewrite List.map_map.
Qed.

Lemma seed_keys_known : forallb (fun x => forallb (fun k => bool_decide (is_Some (seed_permissions !! k))) (snd x)) (presets ids) = true.
Proof. vm_compute. reflexivity. Qed.

Lemma seed_perm i k : (i, k) ∈ seed_role_permissions ids -> is_Some (seed_roles ids !! i) /\ is_Some (seed_permissions !! k).
Proof.
  unfold seed_role_permissions. rewrite dom_list_to_map, elem_of_list_to_set, List.map_map, List.map_id, list_elem_of_In, in_flat_map.
  intros (([j r] & ks) & Hx & Hk). apply in_map_iff in Hk as (k' & [= -> ->] & Hk). split.
  - exists r. apply seed_role. exists ks. by apply list_elem_of_In.
  - pose proof seed_keys_known as Hall. rewrite forallb_forall in Hall. specialize (Hall _ Hx). simpl in Hall.
    rewrite forallb_forall in Hall. specialize (Hall _ Hk). by apply bool_decide_eq_true in Hall.
Qed.

Ltac each_preset H := unfold presets in H; rewrite !elem_of_cons, elem_of_nil in H; destruct_or! H; try done.

Lemma seed_ok (G : Prop) : tenancy_inv G (seed ids).
Proof.
  split.
  - unfold shape_of. simpl t_business. rewrite fmap_empty. split.
    + intros x r Hx. by rewrite lookup_empty in Hx.
    + intros x q r Hx. by rewrite lookup_empty in Hx.
    + intros x q r Hx. by rewrite lookup_empty in Hx.
    + intros x y c. simpl t_closure. rewrite lookup_empty. split; [done|]. intros (q & Hq & _). by rewrite lookup_empty in Hq.
  - intros p b r Hm. simpl t_membership in Hm. by rewrite lookup_empty in Hm.
  - intros p b r pr Hm. simpl t_membership in Hm. by rewrite lookup_empty in Hm.
  - intros i j ri rj [ks Hi]%seed_role [ls Hj]%seed_role _ Hk. each_preset Hi; each_preset Hj; simplify_eq/=; done.
  - intros i r [ks Hi]%seed_role. each_preset Hi; simplify_eq/=; done.
  - exists (id_owner ids), (preset "owner" "Owner" true). split; [|done]. apply seed_role. exists owner_keys. by left.
  - apply seed_perm.
  - intros _ x b Hx. simpl t_business in Hx. by rewrite lookup_empty in Hx.
Qed.
End Seed.
