(* ===== verification/SessionFacts.v ===== *)
(** * Sessions, one-time tokens and invitations over time

    The invariant of the refresh tokens: a digest names one token, the tokens of
    a family belong to one principal, and at most one of them is unused.  They
    need not be revoked together: a revocation passes by a token that a concurrent
    rotation inserts.  The rows of the three token tables stay, a used, revoked,
    consumed or accepted one for good. *)

From S2P Require Import Prelude GoStrings GoBase64 GoTime GoJson AutoGraph Errors AutoStore AutoService AutoEvents WorkBoard.
From S2P Require Import TenantModel TenantService TenantTree TenantFacts TenantOps TenantMembers AuthTokens AccountService TenantApi TenantFootprint.
#[local] Open Scope tx_scope.

(** ** The invariant of the refresh tokens *)

#[local] Abbreviation refresh_table := (gmap uuid refresh_row).

Record refresh_ok (m : refresh_table) : Prop := {
  rk_hash : forall i j r s, m !! i = Some r -> m !! j = Some s -> rf_hash r = rf_hash s -> i = j;
  rk_principal : forall i j r s, m !! i = Some r -> m !! j = Some s -> rf_family r = rf_family s ->
    rf_principal r = rf_principal s;
  rk_live : forall i j r s, m !! i = Some r -> m !! j = Some s -> rf_family r = rf_family s ->
    rf_used r = None -> rf_used s = None -> i = j
}.

(** What every operation grants about the tokens that were there. *)
Definition refresh_grows (m m' : refresh_table) : Prop :=
  forall i r, m !! i = Some r -> exists r', m' !! i = Some r' /\ rf_hash r' = rf_hash r /\ rf_family r' = rf_family r /\
    rf_principal r' = rf_principal r /\ rf_expires r' = rf_expires r /\
    (rf_used r <> None -> rf_used r' <> None) /\ (rf_revoked r <> None -> rf_revoked r' <> None).

#[export] Instance refresh_grows_preorder : PreOrder refresh_grows.
Proof.
  split; [intros m i r Hi; eauto 10|]. intros m1 m2 m3 H12 H23 i r Hi.
  destruct (H12 _ _ Hi) as (r2 & Hi2 & ? & ? & ? & ? & ? & ?). destruct (H23 _ _ Hi2) as (r3 & Hi3 & ? & ? & ? & ? & ? & ?).
  exists r3. split_and!; try congruence; naive_solver.
Qed.

(** A change of the tokens that keeps all this. *)
Definition refresh_step (m m' : refresh_table) : Prop := refresh_ok m -> refresh_ok m' /\ refresh_grows m m'.

#[export] Instance refresh_step_preorder : PreOrder refresh_step.
Proof.
  split; [intros m Hok; by split|]. intros m1 m2 m3 H12 H23 Hok. destruct (H12 Hok) as [Hok2 Hg2].
  destruct (H23 Hok2) as [Hok3 Hg3]. split; [done|]. by etransitivity.
Qed.

(** The revocation of the tokens of some families, or of all of a principal. *)
Definition revoke_where (f : refresh_row -> bool) (now : time) : refresh_table -> refresh_table :=
  mupdate (fun _ r => f r && not_revoked r) (mark_revoked now).

Lemma revoke_where_lookup f now m i r' :
  revoke_where f now m !! i = Some r' ->
  exists r, m !! i = Some r /\ rf_hash r' = rf_hash r /\ rf_family r' = rf_family r /\ rf_principal r' = rf_principal r /\
    rf_used r' = rf_used r /\ (rf_revoked r' <> None <-> f r = true \/ rf_revoked r <> None).
Proof.
  unfold revoke_where. rewrite lookup_mupdate. destruct (m !! i) as [r|]; simpl; [|done].
  unfold not_revoked. destruct (f r) eqn:Hf, (rf_revoked r) eqn:Hr; simpl; intros [= <-]; exists r; simpl; rewrite ?Hr, ?Hf;
    split_and!; try done; intuition congruence.
Qed.

Lemma revoke_where_step f now m : refresh_step m (revoke_where f now m).
Proof.
  intros Hok. split.
  - split.
    + intros i j r s (r0 & Hi & ? & _)%revoke_where_lookup (s0 & Hj & ? & _)%revoke_where_lookup He.
      eapply (rk_hash _ Hok); [exact Hi|exact Hj|congruence].
    + intros i j r s (r0 & Hi & _ & ? & ? & _)%revoke_where_lookup (s0 & Hj & _ & ? & ? & _)%revoke_where_lookup He.
      pose proof (rk_principal _ Hok _ _ _ _ Hi Hj). naive_solver congruence.
    + intros i j r s (r0 & Hi & _ & ? & _ & ? & _)%revoke_where_lookup (s0 & Hj & _ & ? & _ & ? & _)%revoke_where_lookup He Hr Hs.
      eapply (rk_live _ Hok); [exact Hi|exact Hj|congruence..].
  - intros i r Hi. unfold revoke_where. setoid_rewrite lookup_mupdate. rewrite Hi. simpl.
    destruct (_ && _); eexists; split_and!; done.
Qed.

(** A new session. *)
Lemma new_session_step m i r :
  m !! i = None -> rf_used r = None -> rf_revoked r = None ->
  (forall j s, m !! j = Some s -> rf_hash s <> rf_hash r) -> (forall j s, m !! j = Some s -> rf_family s <> rf_family r) ->
  refresh_step m (<[i := r]> m).
Proof.
  intros Hi Hu Hrev Hh Hf Hok. split.
  - split; intros a b x y; destruct (decide (a = i)) as [->|Ha], (decide (b = i)) as [->|Hb];
      rewrite ?lookup_insert_eq, ?lookup_insert_ne by done.
    all: try (intros [= <-] [= <-]; congruence).
    all: try (intros [= <-] Hy He; exfalso; first [by eapply Hh|by eapply Hf]).
    all: try (intros Hx [= <-] He; exfalso; first [by eapply Hh|by eapply Hf]).
    + apply (rk_hash _ Hok).
    + apply (rk_principal _ Hok).
    + apply (rk_live _ Hok).
  - intros j s Hj. exists s. rewrite lookup_insert_ne; [|intros ->; congruence]. done.
Qed.

(** A rotation: the token is used, and the new one takes its place. *)
Lemma rotate_step m i r j s now :
  m !! i = Some r -> rf_used r = None -> rf_revoked r = None -> m !! j = None ->
  rf_used s = None -> rf_revoked s = None -> rf_family s = rf_family r -> rf_principal s = rf_principal r ->
  (forall x y, m !! x = Some y -> rf_hash y <> rf_hash s) ->
  refresh_step m (<[j := s]> (<[i := mark_used now r]> m)).
Proof.
  intros Hi Hu Hrev Hj Hsu Hsr Hsf Hsp Hsh Hok. assert (i <> j) as Hij by (intros ->; congruence).
  (* every row of the new table stands for one of the old, which has its family *)
  set (m' := <[j := s]> (<[i := mark_used now r]> m)).
  assert (forall a x, m' !! a = Some x ->
            (a = j /\ x = s) \/ (a <> j /\ exists x0, m !! a = Some x0 /\ rf_hash x = rf_hash x0 /\ rf_family x = rf_family x0 /\
                         rf_principal x = rf_principal x0 /\ rf_revoked x = rf_revoked x0 /\
                         (rf_used x = None -> a <> i /\ rf_used x0 = None))) as Hback.
  { intros a x. unfold m'. destruct (decide (a = j)) as [->|Ha]; [rewrite lookup_insert_eq; naive_solver|].
    rewrite lookup_insert_ne by done. destruct (decide (a = i)) as [->|Hai]; [rewrite lookup_insert_eq|rewrite lookup_insert_ne by done].
    - intros [= <-]. right. split; [done|]. exists r. split_and!; done.
    - intros Hx. right. split; [done|]. exists x. split_and!; done. }
  assert (forall a x, m !! a = Some x -> rf_family x = rf_family s -> rf_used x = None -> a = i) as Honly.
  { intros a x Ha Hf Hux. eapply (rk_live _ Hok); [exact Ha|exact Hi|congruence|done|done]. }
  split.
  - split; intros a b x y [[-> ->]|(Haj & x0 & Hx0 & Hxh & Hxf & Hxp & Hxr & Hxu)]%Hback
      [[-> ->]|(Hbj & y0 & Hy0 & Hyh & Hyf & Hyp & Hyr & Hyu)]%Hback; intros He; try done.
    + exfalso. apply (Hsh _ _ Hy0). congruence.
    + exfalso. apply (Hsh _ _ Hx0). congruence.
    + eapply (rk_hash _ Hok); [exact Hx0|exact Hy0|congruence].
    + rewrite Hsp, Hyp. eapply (rk_principal _ Hok); [exact Hi|exact Hy0|congruence].
    + rewrite Hsp, Hxp. eapply (rk_principal _ Hok); [exact Hx0|exact Hi|congruence].
    + rewrite Hxp, Hyp. eapply (rk_principal _ Hok); [exact Hx0|exact Hy0|congruence].
    + intros _ Hys. exfalso. destruct (Hyu Hys) as [Hbi Hy0u]. apply Hbi. eapply Honly; [exact Hy0|congruence|done].
    + intros Hxs _. exfalso. destruct (Hxu Hxs) as [Hai Hx0u]. apply Hai. eapply Honly; [exact Hx0|congruence|done].
    + intros Hxs Hys. eapply (rk_live _ Hok); [exact Hx0|exact Hy0|congruence|by apply Hxu|by apply Hyu].
  - intros a x Ha. unfold m'. destruct (decide (a = i)) as [->|Hai].
    + rewrite lookup_insert_ne, lookup_insert_eq by done. rewrite Hi in Ha. injection Ha as <-. eexists. split_and!; done.
    + rewrite !lookup_insert_ne; [eauto 10|done|]. intros ->. congruence.
Qed.

(** ** The statements *)

Lemma CreateRefreshToken_ok i p h f q e n t t' u :
  CreateRefreshToken i p h f q e n t = Ok (t', u) ->
  t_refresh (tx_db t) !! i = None /\ (forall j s, t_refresh (tx_db t) !! j = Some s -> rf_hash s <> h) /\
  t' = with_deferred (set_refresh (<[i := {| rf_principal := p; rf_hash := h; rf_family := f; rf_parent := q;
         rf_used := None; rf_revoked := None; rf_expires := e; rf_created := n |}]> (t_refresh (tx_db t))) (tx_db t)) t.
Proof.
  intros Hr. unfold CreateRefreshToken in Hr. apply tx_put_ok in Hr as (d & Hd & ->). ok_tests Hd. subst d.
  split_and!; try done. intros j s Hj He.
  match goal with Hx : mexists _ _ = false |- _ => rewrite mexists_false in Hx; specialize (Hx _ _ Hj) end.
  by rewrite He, String.eqb_refl in *.
Qed.

Lemma revoke_family_ok f n t t' u :
  RevokeRefreshFamily f n t = Ok (t', u) ->
  t' = with_deferred (set_refresh (revoke_where (fun r => N.eqb (rf_family r) f) n (t_refresh (tx_db t))) (tx_db t)) t.
Proof. intros Hr. unfold RevokeRefreshFamily in Hr. apply tx_put_ok in Hr as (d & Hd & ->). by injection Hd as <-. Qed.

Lemma revoke_all_ok p n t t' u :
  RevokeAllRefreshForPrincipal p n t = Ok (t', u) ->
  t' = with_deferred (set_refresh (revoke_where (fun r => N.eqb (rf_principal r) p) n (t_refresh (tx_db t))) (tx_db t)) t.
Proof. intros Hr. unfold RevokeAllRefreshForPrincipal in Hr. apply tx_put_ok in Hr as (d & Hd & ->). by injection Hd as <-. Qed.

Lemma mark_used_insert (m : refresh_table) i r now :
  m !! i = Some r -> mupdate (fun j _ => N.eqb j i) (mark_used now) m = <[i := mark_used now r]> m.
Proof.
  intros Hi. apply map_eq. intros j. rewrite lookup_mupdate. destruct (decide (j = i)) as [->|Hne].
  - rewrite lookup_insert_eq, Hi. simpl. by rewrite N.eqb_refl.
  - rewrite lookup_insert_ne by done. destruct (m !! j); simpl; [|done]. by rewrite (proj2 (N.eqb_neq j i)).
Qed.

(** What a revocation misses changes none of this. *)
Lemma missed_step d1 d d' :
  refresh_step (t_refresh d) (t_refresh d') -> refresh_step (t_refresh d) (t_refresh (missed d1 d d')).
Proof.
  intros Hst Hok. destruct (Hst Hok) as [Hok' Hg].
  assert (forall i r, t_refresh (missed d1 d d') !! i = Some r -> exists r', t_refresh d' !! i = Some r' /\
            rf_hash r = rf_hash r' /\ rf_family r = rf_family r' /\ rf_principal r = rf_principal r' /\ rf_used r = rf_used r') as Hback.
  { intros i r. rewrite missed_lookup. destruct (t_refresh d' !! i) as [r'|]; simpl; [|done]. intros [= <-]. exists r'.
    destruct (t_refresh d1 !! i), (t_refresh d !! i); done. }
  split.
  - split; intros i j r s (r' & Hi & Hh & Hf & Hp & Hu)%Hback (s' & Hj & Hh2 & Hf2 & Hp2 & Hu2)%Hback; intros He.
    + eapply (rk_hash _ Hok'); [exact Hi|exact Hj|congruence].
    + rewrite Hp, Hp2. eapply (rk_principal _ Hok'); [exact Hi|exact Hj|congruence].
    + intros Hr Hs. eapply (rk_live _ Hok'); [exact Hi|exact Hj|congruence..].
  - intros i r Hi. destruct (Hg _ _ Hi) as (r' & Hi' & Hh & Hf & Hp & He & Hu & Hr). rewrite missed_lookup, Hi', Hi. simpl.
    destruct (t_refresh d1 !! i); eexists; split_and!; done.
Qed.

Section Rotation.
Context `{EventLib}.

(** The token of a text, if there is one. *)
Definition token_of (m : refresh_table) (raw : string) : option (uuid * refresh_row) :=
  mfind (fun _ r => String.eqb (rf_hash r) (HashToken raw)) m.

Lemma token_of_some m raw i r : token_of m raw = Some (i, r) -> m !! i = Some r /\ rf_hash r = HashToken raw.
Proof. intros Hf. apply mfind_some in Hf as [Hi Hh]. split; [done|]. by apply String.eqb_eq. Qed.

Lemma token_of_row m raw i r : refresh_ok m -> m !! i = Some r -> rf_hash r = HashToken raw -> token_of m raw = Some (i, r).
Proof.
  intros Hok Hi Hh. apply mfind_unique; [done|by rewrite Hh, String.eqb_refl|].
  intros j s Hj Hs. apply String.eqb_eq in Hs. eapply (rk_hash _ Hok); [exact Hj|exact Hi|congruence].
Qed.

Lemma opaque_token_ok e t t' raw :
  opaque_token e t = Ok (t', raw) -> t' = t /\ exists b, e = Some b /\ raw = of_bytes (base64url b).
Proof. unfold opaque_token. destruct e; intros Hr; tx_inv; eauto. Qed.

Lemma IssueRefresh_step p ttl k e i f t t' raw :
  fresh_family (tx_db t) f -> IssueRefresh p ttl k e i f t = Ok (t', raw) ->
  refresh_step (t_refresh (tx_db t)) (t_refresh (tx_db t')).
Proof.
  intros Hf Hr. unfold IssueRefresh in Hr. tx_inv. apply opaque_token_ok in Hm as [-> _].
  apply CreateRefreshToken_ok in Hm0 as (Hi & Hh & ->). simpl. by apply new_session_step.
Qed.

Definition stale (r : refresh_row) (k : clock) : bool :=
  bool_decide (is_Some (rf_revoked r)) || After (go_now k) (rf_expires r).

(** What a rotation does, by the state of the token presented. *)
Lemma RotateRefresh_ok raw ttl k e i t t' res :
  RotateRefresh raw ttl k e i t = Ok (t', res) ->
  exists rid rt, token_of (t_refresh (tx_db t)) raw = Some (rid, rt) /\ stale rt k = false /\
  match res with
  | None => rf_used rt <> None /\
      t' = with_deferred (set_refresh (revoke_where (fun r => N.eqb (rf_family r) (rf_family rt)) (db_now k)
                                         (t_refresh (tx_db t))) (tx_db t)) t
  | Some (newRaw, p) => rf_used rt = None /\ p = rf_principal rt /\ t_refresh (tx_db t) !! i = None /\
      (forall j s, t_refresh (tx_db t) !! j = Some s -> rf_hash s <> HashToken newRaw) /\
      t' = with_deferred (set_refresh (<[i := {| rf_principal := rf_principal rt; rf_hash := HashToken newRaw;
               rf_family := rf_family rt; rf_parent := Some rid; rf_used := None; rf_revoked := None;
               rf_expires := GoTime.Add (go_now k) ttl; rf_created := db_now k |}]>
               (<[rid := mark_used (db_now k) rt]> (t_refresh (tx_db t)))) (tx_db t)) t
  end.
Proof.
  intros Hr. unfold RotateRefresh in Hr. tx_inv. destruct a as [rid rt]. unfold GetRefreshTokenByHashForUpdate in Hm.
  destruct (mfind _ _) as [[rid' rt']|] eqn:Hf; [|done]. injection Hm as -> ->. exists rid, rt. split; [done|].
  pose proof (mfind_some _ _ _ _ Hf) as [Hrid _].
  unfold stale. destruct (_ || _); [done|]. split; [done|].
  destruct (bool_decide (is_Some (rf_used rt))) eqn:Hu; tx_inv.
  - apply revoke_family_ok in Hm as ->. apply bool_decide_eq_true in Hu as [x Hu].
    split; [by rewrite Hu|done].
  - apply bool_decide_eq_false, eq_None_not_Some in Hu. apply opaque_token_ok in Hm0 as [-> _].
    unfold MarkRefreshTokenUsed in Hm. apply tx_put_ok in Hm as (d & Hd & ->). injection Hd as <-. simpl in *.
    apply CreateRefreshToken_ok in Hm1 as (Hi & Hh & ->). simpl in *.
    rewrite (mark_used_insert _ _ _ _ Hrid) in *. split_and!; try done.
    + destruct (decide (i = rid)) as [->|Hne]; [by rewrite lookup_insert_eq in Hi|by rewrite lookup_insert_ne in Hi].
    + intros j s Hj He. destruct (decide (j = rid)) as [->|Hne].
      * eapply (Hh rid (mark_used (db_now k) rt)); [by rewrite lookup_insert_eq|]. simpl. congruence.
      * eapply (Hh j s); [by rewrite lookup_insert_ne|done].
Qed.

Lemma RotateRefresh_step raw ttl k e i t t' res :
  RotateRefresh raw ttl k e i t = Ok (t', res) -> refresh_step (t_refresh (tx_db t)) (t_refresh (tx_db t')).
Proof.
  intros Hr. apply RotateRefresh_ok in Hr as (rid & rt & Hf & Hst & Hres). apply token_of_some in Hf as [Hrid Hh].
  unfold stale in Hst. to_prop. apply eq_None_not_Some in H0.
  destruct res as [[newRaw p]|]; [|destruct Hres as [_ ->]; apply revoke_where_step].
  destruct Hres as (Hu & -> & Hi & Hnew & ->). simpl. by eapply rotate_step.
Qed.
End Rotation.
