(* ===== verification/SessionSafety.v ===== *)
(** * Token tables over the histories of the system

    Every operation keeps the invariants of the refresh tokens, of the one-time
    tokens and of the invitations, and never takes back a use. *)

From S2P Require Import Prelude GoStrings GoBase64 GoTime GoJson AutoGraph Errors AutoStore AutoService AutoEvents WorkBoard.
From S2P Require Import TenantModel TenantService TenantTree TenantFacts TenantOps TenantMembers AuthTokens AccountService TenantApi TenantFootprint TenantSafety SessionFacts.
#[local] Open Scope tx_scope.

(** ** One-time tokens and invitations *)

(** A row is recognised by its digest, and a spent one stays spent. *)
Definition spent_ok {A : Type} (hash : A -> string) (m : gmap uuid A) : Prop :=
  forall i j r s, m !! i = Some r -> m !! j = Some s -> hash r = hash s -> i = j.
Definition spent_grows {A : Type} (hash : A -> string) (spent : A -> bool) (m m' : gmap uuid A) : Prop :=
  forall i r, m !! i = Some r -> spent r = true -> exists r', m' !! i = Some r' /\ hash r' = hash r /\ spent r' = true.
Definition spent_step {A : Type} (hash : A -> string) (spent : A -> bool) (m m' : gmap uuid A) : Prop :=
  spent_ok hash m -> spent_ok hash m' /\ spent_grows hash spent m m'.

#[export] Instance spent_step_preorder {A : Type} (hash : A -> string) (spent : A -> bool) : PreOrder (spent_step hash spent).
Proof.
  split; [intros m Hok; split; [done|]; intros i r Hi Hs; eauto|]. intros m1 m2 m3 H12 H23 Hok.
  destruct (H12 Hok) as [Hok2 Hg2]. destruct (H23 Hok2) as [Hok3 Hg3]. split; [done|].
  intros i r Hi Hs. destruct (Hg2 _ _ Hi Hs) as (r2 & Hi2 & ? & Hs2). destruct (Hg3 _ _ Hi2 Hs2) as (r3 & ? & ? & ?).
  exists r3. split_and!; try done. congruence.
Qed.

(** An insert or update of a row, whose digest no other row has. *)
Lemma spent_insert {A : Type} (hash : A -> string) (spent : A -> bool) (m : gmap uuid A) i r :
  (spent_ok hash m -> forall j s, j <> i -> m !! j = Some s -> hash s <> hash r) ->
  (forall r0, m !! i = Some r0 -> spent r0 = true -> hash r = hash r0 /\ spent r = true) ->
  spent_step hash spent m (<[i := r]> m).
Proof.
  intros Hh Hs Hok. specialize (Hh Hok). split.
  - intros a b x y. destruct (decide (a = i)) as [->|Ha], (decide (b = i)) as [->|Hb];
      rewrite ?lookup_insert_eq, ?lookup_insert_ne by done; [done| | |apply Hok].
    + intros [= <-] Hy He. exfalso. by eapply (Hh b y).
    + intros Hx [= <-] He. exfalso. by eapply (Hh a x).
  - intros a x Ha Hx. destruct (decide (a = i)) as [->|Hne]; [|rewrite lookup_insert_ne by done; eauto].
    rewrite lookup_insert_eq. destruct (Hs _ Ha Hx). eauto.
Qed.

Definition consumed (o : onetime_row) : bool := bool_decide (is_Some (ot_consumed o)).
Definition taken (i : invitation_row) : bool := negb (String.eqb (iv_status i) "pending").
Abbreviation onetime_step := (spent_step ot_hash consumed).
Abbreviation invite_step := (spent_step iv_hash taken).

Lemma CreateOneTimeToken_step i a e p h n x t t' u :
  CreateOneTimeToken i a e p h n x t = Ok (t', u) -> onetime_step (t_onetime (tx_db t)) (t_onetime (tx_db t')).
Proof.
  intros Hr. unfold CreateOneTimeToken in Hr. apply tx_put_ok in Hr as (d & Hd & ->).
  destruct (has_nul e); [done|]. destruct (t_onetime (tx_db t) !! i) eqn:Hi; [done|]. destruct (mexists _ _) eqn:Hx; [done|].
  match type of Hd with (if ?b then _ else _) = _ => destruct b; [|done] end. injection Hd as <-. simpl.
  apply spent_insert; [|intros r0 Hr0; congruence]. intros _ j s _ Hj Heq. simpl in Heq.
  rewrite mexists_false in Hx. specialize (Hx _ _ Hj). by rewrite Heq, String.eqb_refl in Hx.
Qed.

(** The row a text consumes, which it spends. *)
Lemma ConsumeOneTimeToken_ok h p now t t' o :
  ConsumeOneTimeToken h p now t = Ok (t', o) ->
  exists i o0, t_onetime (tx_db t) !! i = Some o0 /\ ot_hash o0 = h /\ ot_purpose o0 = p /\ ot_consumed o0 = None /\
    (now < ot_expires o0)%Z /\ o = consume now o0 /\
    t' = with_deferred (set_onetime (<[i := o]> (t_onetime (tx_db t))) (tx_db t)) t.
Proof.
  intros Hr. unfold ConsumeOneTimeToken in Hr. tx_inv. subst a. destruct (mfind _ _) as [[i o0]|] eqn:Hf; [|done].
  apply mfind_some in Hf as [Hi Hc]. tx_inv. apply tx_put_ok in Hm as (d & Hd & ->). injection Hd as <-.
  to_ids. exists i, o0. split_and!; done.
Qed.

Lemma ConsumeOneTimeToken_step h p now t t' o :
  ConsumeOneTimeToken h p now t = Ok (t', o) -> onetime_step (t_onetime (tx_db t)) (t_onetime (tx_db t')).
Proof.
  intros Hr. apply ConsumeOneTimeToken_ok in Hr as (i & o0 & Hi & Hh & _ & Hc & _ & -> & ->). simpl.
  apply spent_insert.
  - intros Hok j s Hne Hj Heq. apply Hne. by eapply (Hok j i).
  - intros r0 Hr0 _. rewrite Hi in Hr0. by injection Hr0 as <-.
Qed.

Lemma CreateInvitation_step i b r e ro h by_ x n t t' u :
  CreateInvitation i b r e ro h by_ x n t = Ok (t', u) -> invite_step (t_invitation (tx_db t)) (t_invitation (tx_db t')).
Proof.
  intros Hr. unfold CreateInvitation in Hr. apply tx_put_ok in Hr as (d & Hd & ->).
  destruct (has_nul e); [done|]. destruct (fenced _ _); [done|].
  destruct (t_invitation (tx_db t) !! i) eqn:Hi; [done|]. destruct (mexists _ _) eqn:Hx; [done|].
  destruct (_ && _); [|done]. injection Hd as <-. simpl. apply spent_insert; [|intros r0 Hr0; congruence].
  intros _ j s _ Hj Heq. simpl in Heq. rewrite mexists_false in Hx. specialize (Hx _ _ Hj).
  by rewrite Heq, String.eqb_refl in Hx.
Qed.

Lemma update_pending_step c i b g t t' u :
  update_pending c i b g t = Ok (t', u) -> invite_step (t_invitation (tx_db t)) (t_invitation (tx_db t')).
Proof.
  intros Hr. unfold update_pending in Hr. apply tx_put_ok in Hr as (d & Hd & ->).
  destruct (pending _ _ _ _) as [inv|] eqn:Hp; [|done]. destruct (fenced _ _); [done|].
  destruct (mexists _ _) eqn:Hx; [done|]. injection Hd as <-. simpl.
  unfold pending in Hp. destruct (t_invitation (tx_db t) !! i) as [inv'|] eqn:Hi; [|done].
  destruct (_ && _) eqn:Hc; [|done]. injection Hp as ->. to_ids. apply spent_insert.
  - intros _ j s Hne Hj Heq. rewrite mexists_false in Hx. specialize (Hx _ _ Hj).
    by rewrite (proj2 (N.eqb_neq j i) Hne), Heq, String.eqb_refl in Hx.
  - intros r0 Hr0 Ht. rewrite Hi in Hr0. injection Hr0 as <-. unfold taken in Ht.
    match goal with Hst : iv_status inv = _ |- _ => rewrite Hst in Ht end. done.
Qed.

(** ** Operations *)

Definition refresh_rel (d d' : tdb) : Prop := refresh_step (t_refresh d) (t_refresh d').
Definition onetime_rel (d d' : tdb) : Prop := onetime_step (t_onetime d) (t_onetime d').
Definition invite_rel (d d' : tdb) : Prop := invite_step (t_invitation d) (t_invitation d').
#[export] Instance refresh_rel_preorder : PreOrder refresh_rel.
Proof. split; [intros d; unfold refresh_rel; reflexivity|intros d1 d2 d3 H12 H23; unfold refresh_rel; by etransitivity]. Qed.
#[export] Instance onetime_rel_preorder : PreOrder onetime_rel.
Proof. split; [intros d; unfold onetime_rel; reflexivity|intros d1 d2 d3 H12 H23; unfold onetime_rel; by etransitivity]. Qed.
#[export] Instance invite_rel_preorder : PreOrder invite_rel.
Proof. split; [intros d; unfold invite_rel; reflexivity|intros d1 d2 d3 H12 H23; unfold invite_rel; by etransitivity]. Qed.

(** All tables but one: what does not write it keeps what is about it. *)
Definition other_tables (x : table) : list table :=
  List.filter (fun y => negb (bool_decide (y = x)))
    [TBusiness; TClosure; TPrincipal; TAccount; TPermission; TRole; TRolePerm; TMembership; TInvitation; TRefresh;
     TOnetime; TErasure; TFence; TAudit; TOutbox].

Lemma not_other x : x ∉ other_tables x.
Proof. rewrite list_elem_of_In. unfold other_tables. rewrite List.filter_In. rewrite bool_decide_eq_true_2 by done. by intros [_ ?]. Qed.

Lemma frame_refresh {A : Type} (m : txm A) : writes (other_tables TRefresh) m -> moves refresh_rel m.
Proof. intros Hw t t' a Hr. apply Hw in Hr. specialize (Hr TRefresh (not_other _)). unfold refresh_rel. simpl in Hr. by rewrite Hr. Qed.
Lemma frame_onetime {A : Type} (m : txm A) : writes (other_tables TOnetime) m -> moves onetime_rel m.
Proof. intros Hw t t' a Hr. apply Hw in Hr. specialize (Hr TOnetime (not_other _)). unfold onetime_rel. simpl in Hr. by rewrite Hr. Qed.
Lemma frame_invite {A : Type} (m : txm A) : writes (other_tables TInvitation) m -> moves invite_rel m.
Proof. intros Hw t t' a Hr. apply Hw in Hr. specialize (Hr TInvitation (not_other _)). unfold invite_rel. simpl in Hr. by rewrite Hr. Qed.

Lemma m_CreateOneTimeToken i a e p h n x : moves onetime_rel (CreateOneTimeToken i a e p h n x).
Proof. intros t t' u. apply CreateOneTimeToken_step. Qed.
Lemma m_ConsumeOneTimeToken h p now : moves onetime_rel (ConsumeOneTimeToken h p now).
Proof. intros t t' o. apply ConsumeOneTimeToken_step. Qed.
Lemma m_CreateInvitation i b r e ro h by_ x n : moves invite_rel (CreateInvitation i b r e ro h by_ x n).
Proof. intros t t' u. apply CreateInvitation_step. Qed.
Lemma m_update_pending c i b g : moves invite_rel (update_pending c i b g).
Proof. intros t t' u. apply update_pending_step. Qed.
Lemma m_RevokeAll p n : moves refresh_rel (RevokeAllRefreshForPrincipal p n).
Proof. intros t t' u ->%revoke_all_ok. apply revoke_where_step. Qed.
Lemma m_RevokeFamily f n : moves refresh_rel (RevokeRefreshFamily f n).
Proof. intros t t' u ->%revoke_family_ok. apply revoke_where_step. Qed.
Lemma m_Rotate `{EventLib} raw ttl k e i : moves refresh_rel (RotateRefresh raw ttl k e i).
Proof. intros t t' res. apply RotateRefresh_step. Qed.
#[export] Hint Resolve m_CreateOneTimeToken m_ConsumeOneTimeToken m_CreateInvitation m_update_pending m_RevokeAll
  m_RevokeFamily m_Rotate : writes.

Section Operations.
Context `{UnicodeTables, UUIDLib, PgText, EventLib, AuthLib}.
Context (cfg : AccountConfig).

Ltac framed :=
  first [apply frame_refresh | apply frame_onetime | apply frame_invite];
  unfold requirePerm, requireManage, guardNotLastOwner, MarkEmailVerified, UpdatePasswordHash, UpdateDisplayName,
    SoftDeleteAccount, audit_account, open_session, IssueRefresh, UpdateEmail, CreateHumanPrincipal; writes; try writes_stmt.
Ltac steps := repeat first [progress intros | solve [eauto 2 with writes] | solve [framed] | apply (moves_bind _) | apply (moves_or _)
  | match goal with |- moves _ (match ?x with _ => _ end) => destruct x end].
Ltac op_steps := cbv zeta; repeat apply (moves_refused _); apply (moves_run _); steps.

Lemma email_mapped_onetime a e :
  moves onetime_rel (fun t => match UpdateEmail a e t with
                      | Err err => if bool_decide (pg_code err = Some "23505")
                                   then Err (invalid "that email is not available") else Err err
                      | Ok r => Ok r
                      end).
Proof. apply frame_onetime. apply w_update_email_mapped. simpl. tauto. Qed.
Hint Resolve email_mapped_onetime : writes.

Lemma exec_onetime o d0 d : onetime_rel d (fst (exec cfg o d0 d)).
Proof.
  assert (TOnetime ∉ footprint o -> onetime_rel d (fst (exec cfg o d0 d))) as Hframe.
  { intros Hn. pose proof (exec_within cfg o d0 d TOnetime Hn) as Hs. simpl in Hs. unfold onetime_rel. by rewrite Hs. }
  destruct o; try (apply Hframe; rewrite list_elem_of_In; simpl; intuition discriminate); clear Hframe;
    unfold exec, outcome; cbv beta; simpl fst.
  - unfold Signup. op_steps.
  - unfold VerifyEmail. op_steps.
  - unfold RequestPasswordReset, issue_for_email, issueOneTimeToken. op_steps.
  - unfold ConfirmPasswordReset. op_steps.
  - unfold RequestEmailChange, issueOneTimeToken. op_steps.
  - unfold ConfirmEmailChange. op_steps.
  - unfold RequestMagicLink, issue_for_email, issueOneTimeToken. op_steps.
  - unfold ConsumeMagicLink. op_steps.
Qed.

Lemma open_session_step p k e i f t t' tp :
  fresh_family (tx_db t) f -> open_session cfg p k e i f t = Ok (t', tp) -> refresh_rel (tx_db t) (tx_db t').
Proof. intros Hf Hr. unfold open_session in Hr. cbv zeta in Hr. tx_inv. by eapply IssueRefresh_step. Qed.

Lemma refresh_run {A : Type} (c : dbctx) (m : txm A) d :
  (forall t a, m {| tx_db := d; tx_deferred := ∅ |} = Ok (t, a) -> refresh_rel d (tx_db t)) ->
  refresh_rel d (fst (run_tx c m d)).
Proof. intros Hm. destruct (run_tx_cases c m d) as [(t & a & Hb & _ & ->)|[e ->]]; [by eapply Hm|reflexivity]. Qed.

Lemma Login_refresh email pw k e i f d : fresh_family d f -> refresh_rel d (fst (Login cfg email pw k e i f d)).
Proof.
  intros Hf. apply refresh_run. intros t a Hr. tx_inv. destruct a0 as [aid acc].
  destruct (at_password acc); [|done]. tx_inv. last_step t Ha. by eapply open_session_step in Ha.
Qed.

Lemma ConsumeMagicLink_refresh raw k e i f d :
  fresh_family d f -> refresh_rel d (fst (ConsumeMagicLink cfg raw k e i f d)).
Proof.
  intros Hf. apply refresh_run. intros t a Hr. tx_inv.
  apply ConsumeOneTimeToken_ok in Hm as (j & o0 & _ & _ & _ & _ & _ & -> & ->). simpl in *.
  destruct (ot_account o0); [|done]. tx_inv. last_step t Ha. by eapply open_session_step in Ha.
Qed.

Lemma Refresh_refresh raw k e i d : refresh_rel d (fst (Refresh cfg raw k e i d)).
Proof.
  unfold Refresh. match goal with |- context [WithTx ?m d] => assert (refresh_rel d (fst (WithTx m d))) as Hw end.
  { apply (moves_run _). steps. }
  by destruct (WithTx _ d) as [d' [[]|]].
Qed.

Lemma exec_refresh o d0 d : fresh_draws o d -> refresh_rel d (fst (exec cfg o d0 d)).
Proof.
  assert (TRefresh ∉ footprint o -> refresh_rel d (fst (exec cfg o d0 d))) as Hframe.
  { intros Hn. pose proof (exec_within cfg o d0 d TRefresh Hn) as Hs. simpl in Hs. unfold refresh_rel. by rewrite Hs. }
  intros Hf. destruct o; try (apply Hframe; rewrite list_elem_of_In; simpl; intuition discriminate); clear Hframe;
    unfold exec, outcome; cbv beta; simpl fst.
  - by apply Login_refresh.
  - apply Refresh_refresh.
  - unfold Logout, RevokeRefreshByToken. op_steps.
  - unfold ConfirmPasswordReset. op_steps.
  - by apply ConsumeMagicLink_refresh.
  - unfold Delete_account. op_steps.
Qed.

(** What accepting an invitation does when it succeeds. *)
Lemma accept_invitation_ok h p e m now t t' b r :
  accept_invitation h p e m now t = Ok (t', ("ok", b, r)) ->
  exists id inv biz, t_invitation (tx_db t) !! id = Some inv /\ iv_hash inv = h /\ citext_eq (iv_email inv) e = true /\
    iv_status inv = "pending" /\ (now < iv_expires inv)%Z /\ t_business (tx_db t) !! iv_business inv = Some biz /\
    bz_deleted biz = None /\ bz_status biz <> "archived" /\ b = Some (iv_business inv) /\ r = Some (iv_role inv) /\
    t_invitation (tx_db t') = <[id := with_status "accepted" (Some now) inv]> (t_invitation (tx_db t)) /\
    exists m', t_membership (tx_db t') !! (p, iv_business inv) = Some m' /\
      (forall k, k <> (p, iv_business inv) -> t_membership (tx_db t') !! k = t_membership (tx_db t) !! k) /\
      match t_membership (tx_db t) !! (p, iv_business inv) with
      | Some m0 => m' = m0
      | None => mb_role m' = iv_role inv /\ mb_root m' = iv_root inv
      end.
Proof.
  intros Hr. unfold accept_invitation in Hr. tx_inv. subst a. destruct (mfind _ _) as [[id inv]|] eqn:Hf; [|by tx_inv].
  apply mfind_some in Hf as [Hid Hh]. destruct (negb (citext_eq _ _)) eqn:He; [by tx_inv|].
  destruct (_ || _) eqn:Hst; [by tx_inv|]. tx_inv. subst a.
  destruct (t_business (tx_db t) !! iv_business inv) as [biz|] eqn:Hb; [|by simpl in Hk0; tx_inv]. simpl in Hk0.
  destruct (negb (live biz && negb (String.eqb (bz_status biz) "archived"))) eqn:Hlive; [by tx_inv|]. tx_inv.
  apply tx_put_ok in Hm as (d & Hd & ->). ok_tests Hd. subst d.
  apply InsertAuditEntry_ok in Hm1 as ->. exists id, inv, biz. unfold live in Hlive. to_prop.
  repeat match goal with Hx : String.eqb _ _ = _ |- _ => first [apply String.eqb_eq in Hx | apply String.eqb_neq in Hx] end.
  match goal with Hx : (_, _, _) = (_, _, _) |- _ => injection Hx as -> -> end.
  assert (bz_deleted biz = None) as Hdel by (destruct (bz_deleted biz); [done|done]).
  apply join_business_ok in Hm0 as [[[m0 Hm0] ->]|[Hnone Hm1]]; simpl in *.
  - split_and!; try done. exists m0. rewrite Hm0. done.
  - apply CreateMembership_ok in Hm1 as (_ & _ & _ & _ & _ & ->). simpl in *. split_and!; try done.
    eexists. rewrite lookup_insert_eq. split; [done|]. rewrite Hnone. split; [|done].
    intros k Hk. by rewrite lookup_insert_ne.
Qed.

Lemma accept_invitation_step h p e m now : moves invite_rel (accept_invitation h p e m now).
Proof.
  intros t t' a Hr. unfold accept_invitation in Hr. tx_inv. subst a0.
  destruct (mfind _ _) as [[id inv]|] eqn:Hf; [|tx_inv; reflexivity].
  apply mfind_some in Hf as [Hid Hh]. destruct (negb (citext_eq _ _)); [tx_inv; reflexivity|].
  destruct (_ || _) eqn:Hst; [tx_inv; reflexivity|]. tx_inv.
  match type of Hk0 with (if ?b then _ else _) _ = _ => destruct b; [tx_inv; reflexivity|] end. tx_inv.
  match goal with Hp : tx_put _ _ = Ok _ |- _ => apply tx_put_ok in Hp as (d & Hd & ->) end. ok_tests Hd. subst d.
  match goal with Ha : InsertAuditEntry _ _ = Ok _ |- _ =>
    eapply frame_invite in Ha as Haud; [|apply w_InsertAuditEntry; simpl; tauto] end.
  match goal with Hj : join_business _ _ _ _ _ = Ok _ |- _ =>
    eapply frame_invite in Hj as Hjoin; [|apply w_join_business; simpl; tauto] end.
  etransitivity; [|exact Haud]. etransitivity; [|exact Hjoin]. apply spent_insert.
  - intros Hok j s Hne Hj Heq. apply Hne. by eapply (Hok j id).
  - intros r0 Hr0 Ht. rewrite Hid in Hr0. injection Hr0 as <-. done.
Qed.
Hint Resolve accept_invitation_step : writes.

Lemma exec_invites o d0 d : invite_rel d (fst (exec cfg o d0 d)).
Proof.
  assert (TInvitation ∉ footprint o -> invite_rel d (fst (exec cfg o d0 d))) as Hframe.
  { intros Hn. pose proof (exec_within cfg o d0 d TInvitation Hn) as Hs. simpl in Hs. unfold invite_rel. by rewrite Hs. }
  destruct o; try (apply Hframe; rewrite list_elem_of_In; simpl; intuition discriminate); clear Hframe;
    unfold exec, outcome; cbv beta; simpl fst.
  - unfold Create_invitation. op_steps.
  - unfold Revoke_invitation. op_steps.
  - unfold Resend_invitation. op_steps.
  - unfold Accept. op_steps.
Qed.

(** The invariant of the token tables. *)
Definition tokens_ok (d : tdb) : Prop :=
  refresh_ok (t_refresh d) /\ spent_ok ot_hash (t_onetime d) /\ spent_ok iv_hash (t_invitation d).
(** What later databases keep of an earlier one. *)
Definition tokens_grow (d d' : tdb) : Prop :=
  tokens_ok d' /\ refresh_grows (t_refresh d) (t_refresh d') /\ spent_grows ot_hash consumed (t_onetime d) (t_onetime d') /\
  spent_grows iv_hash taken (t_invitation d) (t_invitation d').

Lemma exec_tokens o d0 d : tokens_ok d -> fresh_draws o d -> tokens_grow d (fst (exec cfg o d0 d)).
Proof.
  intros (Hr & Ho & Hi) Hf. destruct (exec_refresh o d0 d Hf Hr). destruct (exec_onetime o d0 d Ho).
  destruct (exec_invites o d0 d Hi). done.
Qed.

Lemma tokens_grow_refl d : tokens_ok d -> tokens_grow d d.
Proof. intros Hok. split_and!; [done|reflexivity|intros i r; eauto..]. Qed.

Lemma tokens_grow_trans d1 d2 d3 : tokens_grow d1 d2 -> tokens_grow d2 d3 -> tokens_grow d1 d3.
Proof.
  intros (_ & Hr & Ho & Hi) (Hok & Hr' & Ho' & Hi'). split_and!; [done|by etransitivity| |].
  - intros i r Hir Hs. destruct (Ho _ _ Hir Hs) as (r2 & Hr2 & He & Hs2). destruct (Ho' _ _ Hr2 Hs2) as (r3 & ? & ? & ?).
    exists r3. split_and!; try done. congruence.
  - intros i r Hir Hs. destruct (Hi _ _ Hir Hs) as (r2 & Hr2 & He & Hs2). destruct (Hi' _ _ Hr2 Hs2) as (r3 & ? & ? & ?).
    exists r3. split_and!; try done. congruence.
Qed.

(** So also when a revocation misses tokens, and under a fence. *)
Lemma step_tokens d h h' : tokens_ok d -> api_step cfg (d :: h) h' -> exists d', h' = d' :: d :: h /\ tokens_grow d d'.
Proof.
  intros Hok Hst. inversion Hst as [o d0 d1 d2 h1 Hin Hin1 Hfr|f d2 h1]; subst; eexists; (split; [done|]).
  - destruct (exec_tokens o d0 d Hok Hfr) as ((_ & Ho & Hi) & _ & Hog & Hig).
    destruct (missed_step d1 _ _ (exec_refresh o d0 d Hfr) (proj1 Hok)) as [Hr Hg]. done.
  - destruct (tokens_grow_refl d Hok) as (Hok' & Hg). done.
Qed.

(** Databases later in a history. *)
Lemma later_tokens h h' : rtc (api_step cfg) h h' -> forall d rest, h = d :: rest -> tokens_ok d ->
  exists d' rest', h' = d' :: rest' /\ tokens_grow d d'.
Proof.
  apply (rtc_ind_r (fun h' => forall d rest, h = d :: rest -> tokens_ok d -> exists d' rest', h' = d' :: rest' /\ tokens_grow d d')).
  - intros d rest -> Hok. exists d, rest. split; [done|]. by apply tokens_grow_refl.
  - intros y z _ Hyz IH d rest Hd Hok. destruct (IH d rest Hd Hok) as (d' & rest' & -> & Hg).
    destruct (step_tokens d' rest' z (proj1 Hg) Hyz) as (d2 & -> & Hg2). eexists _, _. split; [done|].
    by eapply tokens_grow_trans.
Qed.

(** ** Spending a one-time token *)

(** The text an operation presents as a one-time token. *)
Definition consumes (o : api_op) : option string :=
  match o with
  | OpVerifyEmail raw _ | OpConfirmReset raw _ _ _ | OpConfirmEmailChange raw _ | OpConsumeMagicLink raw _ _ _ _ => Some raw
  | _ => None
  end.

Definition spent_token (d : tdb) (raw : string) : Prop :=
  exists i o, t_onetime d !! i = Some o /\ ot_hash o = HashToken raw /\ consumed o = true.

Lemma consume_first {A : Type} c purpose now e raw (k : onetime_row -> txm A) d d' a :
  spent_ok ot_hash (t_onetime d) -> (forall tok, moves onetime_rel (k tok)) ->
  run_tx c (tx_bind (tx_or (ConsumeOneTimeToken (HashToken raw) purpose now) e) k) d = (d', Ok a) -> spent_token d' raw.
Proof.
  intros Hok Hk Hr. apply run_tx_ok in Hr as (t & Hr & _ & ->). tx_inv. pose proof (ConsumeOneTimeToken_step _ _ _ _ _ _ Hm Hok) as [Hok1 _].
  apply ConsumeOneTimeToken_ok in Hm as (i & o0 & _ & Hh & _ & _ & _ & -> & ->).
  destruct (Hk _ _ _ _ Hk0 Hok1) as [_ Hg]. simpl in Hg.
  destruct (Hg i (consume now o0)) as (o & Ho & Hoh & Hoc); [by rewrite lookup_insert_eq|done|].
  exists i, o. split_and!; try done. by rewrite Hoh.
Qed.

Lemma consumed_refused {A : Type} c purpose now e raw (k : onetime_row -> txm A) d :
  spent_ok ot_hash (t_onetime d) -> spent_token d raw ->
  run_tx c (tx_bind (tx_or (ConsumeOneTimeToken (HashToken raw) purpose now) e) k) d = (d, Err (mapTxError e)).
Proof.
  intros Hok (i & o & Hi & Hh & Hc). unfold run_tx, tx_bind, tx_or, ConsumeOneTimeToken, tx_bind, tx_get. simpl.
  assert (mfind (fun _ o => String.eqb (ot_hash o) (HashToken raw) && String.eqb (ot_purpose o) purpose &&
            bool_decide (ot_consumed o = None) && (now <? ot_expires o)%Z) (t_onetime d) = None) as ->; [|done].
  apply mfind_none, mexists_false. intros j o' Hj. apply not_true_is_false. intros Ht. to_ids.
  assert (j = i) as -> by (eapply Hok; [exact Hj|exact Hi|congruence]). rewrite Hi in Hj. injection Hj as <-.
  unfold consumed in Hc. to_prop. destruct Hc as [x Hx]. congruence.
Qed.

Lemma exec_consumes o raw d0 d d' :
  spent_ok ot_hash (t_onetime d) -> consumes o = Some raw -> exec cfg o d0 d = (d', None) -> spent_token d' raw.
Proof.
  intros Hok Hc He.
  assert (forall A (r : tdb * result error A), outcome r = (d', None) -> exists a, r = (d', Ok a)) as Hout.
  { intros A [x [a|e]]; unfold outcome; simpl; [intros [= ->]; eauto|done]. }
  destruct o; try discriminate Hc; injection Hc as ->; unfold exec in He; apply Hout in He as [x He].
  - eapply consume_first in He; [done|done|]. steps.
  - unfold ConfirmPasswordReset in He. destruct (_ <? _)%Z; [done|]. eapply consume_first in He; [done|done|]. steps.
  - eapply consume_first in He; [done|done|]. steps.
  - eapply consume_first in He; [done|done|]. steps.
Qed.

Lemma exec_spent o raw d0 d :
  spent_ok ot_hash (t_onetime d) -> consumes o = Some raw -> spent_token d raw ->
  exists e, exec cfg o d0 d = (d, Some e) /\ is_validation e = true.
Proof.
  intros Hok Hc Hs. destruct o; try discriminate Hc; injection Hc as ->; unfold exec.
  - unfold VerifyEmail, WithTx. rewrite consumed_refused by done. by eexists.
  - unfold ConfirmPasswordReset. destruct (_ <? _)%Z; [by eexists|]. unfold WithTx. rewrite consumed_refused by done. by eexists.
  - unfold ConfirmEmailChange, WithTx. rewrite consumed_refused by done. by eexists.
  - unfold ConsumeMagicLink, WithTx. rewrite consumed_refused by done. by eexists.
Qed.

Lemma spent_token_grows d d' raw : tokens_grow d d' -> spent_token d raw -> spent_token d' raw.
Proof.
  intros (_ & _ & Ho & _) (i & o & Hi & Hh & Hc). destruct (Ho _ _ Hi Hc) as (o' & Hi' & Hh' & Hc').
  exists i, o'. split_and!; try done. congruence.
Qed.

(** ** Spending an invitation *)

Definition spent_invitation (d : tdb) (token : string) : Prop :=
  exists i inv, t_invitation d !! i = Some inv /\ iv_hash inv = HashToken (TrimSpace token) /\ taken inv = true.

Lemma spent_invitation_grows d d' token : tokens_grow d d' -> spent_invitation d token -> spent_invitation d' token.
Proof.
  intros (_ & _ & _ & Hv) (i & inv & Hi & Hh & Ht). destruct (Hv _ _ Hi Ht) as (inv' & Hi' & Hh' & Ht').
  exists i, inv'. split_and!; try done. congruence.
Qed.

Lemma accept_spent h p e m now t :
  spent_ok iv_hash (t_invitation (tx_db t)) ->
  (exists i inv, t_invitation (tx_db t) !! i = Some inv /\ iv_hash inv = h /\ taken inv = true) ->
  exists st, accept_invitation h p e m now t = Ok (t, (st, None, None)) /\ st <> "ok".
Proof.
  intros Hok (i & inv & Hi & Hh & Ht). unfold accept_invitation, tx_bind, tx_get.
  rewrite (mfind_unique _ _ i inv Hi); [|by rewrite Hh, String.eqb_refl|].
  - destruct (negb (citext_eq _ _)); [by eexists|]. unfold taken in Ht. rewrite Ht. by eexists.
  - intros j inv' Hj He. apply String.eqb_eq in He. eapply Hok; [exact Hj|exact Hi|congruence].
Qed.

(** A spent invitation is not accepted again, by anyone. *)
Lemma Accept_spent p token m k d :
  spent_ok iv_hash (t_invitation d) -> spent_invitation d token ->
  fst (Accept p token m k d) = d /\ forall r, snd (Accept p token m k d) = Ok r -> ar_Status r <> "ok".
Proof.
  intros Hok Hs. unfold Accept. cbv zeta. destruct (String.eqb _ _); [done|]. unfold WithTx, run_tx, tx_bind, tx_or, tx_get. simpl.
  destruct (GetAccountByPrincipal p d) as [[id acct]|e]; [|by destruct (mapTxError _)].
  destruct (at_verified acct); [|simpl; split; [done|by intros r [= <-]]].
  destruct (accept_spent (HashToken (TrimSpace token)) p (at_email acct) m (db_now k) {| tx_db := d; tx_deferred := ∅ |})
    as (st & -> & Hst); [done|done|]. simpl. split; [done|]. by intros r [= <-].
Qed.
End Operations.
