(* ===== verification/TenantDemo.v ===== *)
(** * A run of the tenancy, account and invitation services

    Two people sign up and verify their addresses; the first creates a master
    business with two sub-businesses and invites the second to one of them as
    Admin, who accepts.  The databases serve as witnesses for the theorems. *)

From S2P Require Import Prelude GoStrings GoBase64 GoTime GoJson AutoGraph Errors AutoEngine Concrete AutoStore AutoService AutoEvents WorkBoard.
From S2P Require Import TenantModel TenantService TenantTree TenantFacts TenantOps TenantMembers AuthTokens AccountService TenantApi TenantFootprint TenantSafety SessionFacts SessionSafety.

(** Text compares by its bytes. *)
Definition tenant_text : PgText := {| citext_fold := fun s => s; pg_text_le := fun a b => bytes_le (bytes a) (bytes b) |}.

Definition pad (n : nat) (l : list ascii) : list ascii := take n (l ++ repeat "0"%char n).
Lemma pad_length n l : length (pad n l) = n.
Proof. unfold pad. rewrite length_take, length_app, repeat_length. lia. Qed.

(** A digest is the start of the text, a key the start of the password and the salt. *)
Definition tenant_events : EventLib.
Proof.
  refine {| mail_ParseAddress := fun s => Some s; json_Marshal := fun _ => "json"; time_RFC3339 := fun _ => "time";
            sha256 := fun s => of_bytes (pad 32 (bytes s)) |}.
  intros s. rewrite <- length_bytes, bytes_of_bytes. apply pad_length.
Defined.

Definition tenant_auth : AuthLib.
Proof.
  refine {| argon2_IDKey := fun pw salt _ _ _ n => pad (Z.to_nat n) (pw ++ salt);
            jwt_SignedString := fun kid c key => kid +:+ "." +:+ jc_Subject c |}.
  intros pw salt t m p n Hn. rewrite pad_length. lia.
Defined.

#[local] Existing Instances demo_unicode demo_uuid tenant_text tenant_events tenant_auth.

Definition tenant_cfg : AccountConfig :=
  {| cfg_Ring := {| kr_issuer := "manyforge"; kr_audience := "api"; kr_activeKID := "k1"; kr_signing := "key" |};
     cfg_AccessTTL := (15 * Minute)%Z; cfg_RefreshTTL := (30 * 24 * Hour)%Z; cfg_TokenTTL := (24 * Hour)%Z |}.

Definition at_ (n : Z) : clock := {| go_now := (n * Second)%Z; db_now := (n * Second)%Z |}.
Definition draw (n : nat) : option (list ascii) := Some (repeat (ascii_of_nat n) 32).
Definition token (n : nat) : string := of_bytes (base64url (repeat (ascii_of_nat n) 32)).
Definition demo_salt : list ascii := bytes "0123456789abcdef".

(** The presets are 1 to 5; the people 11 and 31; the businesses 20, 21 and 22. *)
Definition t_ids : preset_ids := {| id_owner := 1; id_admin := 2; id_member := 3; id_viewer := 4; id_agent := 5 |}.
Definition t_seed : tdb := seed t_ids.
Definition t_ops : list api_op :=
  [OpSignup "alice@example.com" "Alice" "correct horse" demo_salt (draw 1) 10 11 12 (at_ 1);
   OpVerifyEmail (token 1) (at_ 2);
   OpSignup "bob@example.com" "Bob" "battery staple" demo_salt (draw 2) 30 31 32 (at_ 3);
   OpVerifyEmail (token 2) (at_ 4);
   OpCreateMaster 11 "Acme" 20 40 50 (5 * Second);
   OpCreateSub 11 20 "East" 21 51 (6 * Second);
   OpCreateSub 11 20 "West" 22 52 (7 * Second);
   OpInvite 0 11 21 2 "bob@example.com" "invite-bob" 60 (at_ 8);
   OpAccept 31 "invite-bob" 41 (at_ 9);
   OpLogin "bob@example.com" "battery staple" (at_ 10) (draw 3) 70 71].

(** The history of a list of calls that nobody overtakes. *)
Fixpoint play (ops : list api_op) (h : list tdb) : list tdb :=
  match ops, h with
  | o :: r, d :: _ => play r (fst (exec tenant_cfg o d d) :: h)
  | _, _ => h
  end.
Definition now_of (h : list tdb) : tdb := List.hd t_seed h.
Definition t_history : list tdb := play t_ops [t_seed].
Definition t_demo : tdb := now_of t_history.

(** Every call of the run succeeds. *)
Fixpoint errors_of (ops : list api_op) (d : tdb) : list (option error) :=
  match ops with
  | [] => []
  | o :: r => snd (exec tenant_cfg o d d) :: errors_of r (fst (exec tenant_cfg o d d))
  end.
