(* ===== verification/TenantTheorems.v ===== *)
(** * What the tenancy services guarantee

    The invariant over all histories, the move of a subtree, the locked roles, the
    meaning of the permissions that are resolved, and the limits of what changing
    memberships can grant. *)

From S2P Require Import Prelude GoStrings GoBase64 GoTime GoJson AutoGraph Errors AutoEngine Concrete AutoStore AutoService AutoEvents WorkBoard.
From S2P Require Import TenantModel TenantService TenantTree TenantFacts TenantOps TenantMembers AuthTokens AccountService TenantApi TenantFootprint TenantSafety SessionFacts SessionSafety TenantDemo.
From stdpp Require Import sorting.
#[local] Open Scope tx_scope.

(** ** The run of the example as a history *)

Definition freshb (o : api_op) (d : tdb) : bool :=
  match o with
  | OpLogin _ _ _ _ _ f | OpConsumeMagicLink _ _ _ _ f => negb (mexists (fun _ r => N.eqb (rf_family r) f) (t_refresh d))
  | _ => true
  end.

Lemma freshb_fresh o d : freshb o d = true -> fresh_draws o d.
Proof.
  assert (forall f, negb (mexists (fun _ r => N.eqb (rf_family r) f) (t_refresh d)) = true -> fresh_family d f) as Hf.
  { intros f Hb i r Hi He. apply negb_true_iff in Hb. rewrite mexists_false in Hb. specialize (Hb _ _ Hi).
    by rewrite He, N.eqb_refl in Hb. }
  destruct o; simpl; auto.
Qed.

#[local] Existing Instances demo_unicode demo_uuid tenant_text tenant_events tenant_auth.

Fixpoint all_fresh (ops : list api_op) (h : list tdb) : bool :=
  match ops, h with
  | o :: r, d :: _ => freshb o d && all_fresh r (fst (exec tenant_cfg o d d) :: h)
  | _, _ => true
  end.

Lemma play_steps ops h : all_fresh ops h = true -> rtc (api_step tenant_cfg) h (play ops h).
Proof.
  revert h. induction ops as [|o ops IH]; intros [|d h] Hf; simpl in *; try reflexivity.
  apply andb_true_iff in Hf as [Hf1 Hf2]. eapply rtc_l; [|by apply IH].
  rewrite <- (missed_none d (fst _)). constructor; [by left|by left|by apply freshb_fresh].
Qed.

Lemma t_ids_distinct : distinct t_ids.
Proof. vm_decide. Qed.

Lemma play_ok ops : all_fresh ops [t_seed] = true -> Forall tenancy_ok (play ops [t_seed]).
Proof.
  intros Hf. apply (reachable_sound tenant_cfg False t_seed); [|by apply play_steps|done].
  apply seed_ok, t_ids_distinct.
Qed.

Lemma play_cons ops h : h <> [] -> exists rest, play ops h = now_of (play ops h) :: rest.
Proof.
  revert h. induction ops as [|o ops IH]; intros [|d h] Hne; simpl; try done; [by exists h|]. by apply IH.
Qed.

Lemma play_now_ok ops : all_fresh ops [t_seed] = true -> tenancy_ok (now_of (play ops [t_seed])).
Proof.
  intros Hf. pose proof (play_ok ops Hf) as Hall. destruct (play_cons ops [t_seed]) as [rest He]; [done|].
  rewrite He in Hall. by apply Forall_inv in Hall.
Qed.

Lemma t_demo_ok : tenancy_ok t_demo.
Proof. apply play_now_ok. vm_compute. reflexivity. Qed.

(** ** Effects of the membership operations *)

Section Effects.
Context `{UnicodeTables, UUIDLib, PgText}.

(** The tables the authority of principals depends on, but for the memberships. *)
Definition same_authority (d d' : tdb) : Prop :=
  t_business d' = t_business d /\ t_closure d' = t_closure d /\ t_role d' = t_role d /\ t_role_perm d' = t_role_perm d /\
  t_permission d' = t_permission d.

Lemma same_shape d d' : same_authority d d' -> shape_of d' = shape_of d.
Proof. intros (Hb & _). unfold shape_of. by rewrite Hb. Qed.

Lemma ChangeMemberRole_effect actor b target role d0 d d' :
  ChangeMemberRole actor b target role d0 d = (d', Ok tt) ->
  d' = d \/
  exists r m m', t_role d !! role = Some r /\ vis_role (AsApp actor) d r = true /\
    "members.manage" ∈ Resolve (AsApp actor) actor b d /\
    (if rl_locked r then HasOwnerRole (AsApp actor) actor b d = true
     else forall k, k ∈ GetRolePermissions (AsApp actor) role d -> k ∈ Resolve (AsApp actor) actor b d) /\
    t_membership d !! (target, b) = Some m /\ mb_role m' = role /\
    same_authority d d' /\ t_membership d' = <[(target, b) := m']> (t_membership d).
Proof.
  unfold ChangeMemberRole, locked_tx. destruct (loadVisible actor b d0) as [biz|]; [|done]. intros Hr.
  apply run_tx_ok in Hr as (t & Hr & _ & ->). tx_inv.
  apply requirePerm_ok in Hm as [-> Hp]. simpl in *.
  apply GetRoleInTenant_ok in Hm0 as (Hrole & Hvis & _). apply GetMembershipAt_ok in Hm1 as [Hmem Hv].
  destruct (N.eqb_spec (mb_role a1) role) as [He|Hne]; tx_inv; [by left|]. right.
  apply guardEscalation_ok in Hm as [-> Hesc]. apply guardLastOwner_ok in Hm0 as [-> _]. simpl in *.
  apply UpdateMembershipRole_ok in Hm1 as [[-> Hno]|(m & Hm' & _ & _ & _ & _ & ->)]; simpl in *;
    [by rewrite (Hno _ Hmem) in Hv|].
  last_step t Ha. apply InsertAuditEntry_ok in Ha as ->. simpl.
  exists a0, m, {| mb_id := mb_id m; mb_root := mb_root m; mb_role := role; mb_granted_by := Some actor;
                  mb_granted_at := mb_granted_at m |}. split_and!; done.
Qed.

(** The removal of a member. *)
Definition removes (p b : uuid) (d d' : tdb) : Prop :=
  same_authority d d' /\ t_membership d' = delete (p, b) (t_membership d).

Lemma RevokeMember_effect actor b target d0 d d' :
  RevokeMember actor b target d0 d = (d', Ok tt) ->
  removes target b d d' /\ "members.manage" ∈ Resolve (AsApp actor) actor b d.
Proof.
  unfold RevokeMember, locked_tx. destruct (loadVisible actor b d0) as [biz|]; [|done]. intros Hr.
  apply run_tx_ok in Hr as (t & Hr & _ & ->). tx_inv.
  apply requirePerm_ok in Hm as [-> Hp]. simpl in *. apply GetMembershipAt_ok in Hm0 as [Hmem Hv].
  apply guardLastOwner_ok in Hm1 as [-> _]. simpl in *.
  apply DeleteMembershipAt_ok in Hm2 as [[-> Hno]|(m & Hm' & _ & ->)]; simpl in *; [by rewrite (Hno _ Hmem) in Hv|].
  last_step t Ha. apply InsertAuditEntry_ok in Ha as ->. done.
Qed.

Lemma LeaveBusiness_effect p b d0 d d' : LeaveBusiness p b d0 d = (d', Ok tt) -> removes p b d d'.
Proof.
  unfold LeaveBusiness, locked_tx. destruct (loadVisible p b d0) as [biz|]; [|done]. intros Hr.
  apply run_tx_ok in Hr as (t & Hr & _ & ->). tx_inv. simpl in *. apply GetMembershipAt_ok in Hm as [Hmem Hv].
  apply guardLastOwner_ok in Hm0 as [-> _]. simpl in *.
  apply DeleteMembershipAt_ok in Hm1 as [[-> Hno]|(m & Hm' & _ & ->)]; simpl in *; [by rewrite (Hno _ Hmem) in Hv|].
  last_step t Ha. apply InsertAuditEntry_ok in Ha as ->. done.
Qed.

(** Authority follows the memberships. *)
Lemma holds_transport d d' q x k a m r b n :
  same_authority d d' -> t_membership d !! (q, a) = Some m -> t_role d' !! mb_role m = Some r ->
  t_business d' !! a = Some b -> bz_status b <> "archived" -> is_Some (t_business d' !! x) ->
  up (shape_of d') n x = Some a -> is_Some (t_permission d' !! k) ->
  (rl_locked r = true \/ (mb_role m, k) ∈ t_role_perm d') -> holds d q x k.
Proof.
  intros Hs Hm Hr Hb Hst Hx Hup Hk Hlk. rewrite (same_shape _ _ Hs) in Hup.
  destruct Hs as (Eb & Ec & Er & Erp & Ep). rewrite Eb in *. rewrite Er, Erp, Ep in *. exists a, m, r, b, n. done.
Qed.

Lemma removes_holds p b d d' q x k : removes p b d d' -> holds d' q x k -> holds d q x k.
Proof.
  intros [Hs Hm] (a & m & r & row & n & Hqa & Hr & Hb & Hst & Hx & Hup & Hk & Hlk).
  rewrite Hm in Hqa. apply lookup_delete_Some in Hqa as [_ Hqa]. by eapply holds_transport.
Qed.

Lemma owner_holds d p x k : tenancy_ok d -> HasOwnerRole AsOwner p x d = true -> is_Some (t_permission d !! k) -> holds d p x k.
Proof.
  intros Hok Ho Hk. apply (Resolve_owner_spec _ _ _ _ Hok). unfold Resolve. rewrite Ho. apply elem_of_list_to_set. by apply catalog_spec.
Qed.

Lemma perm_not_nil d p x k : k ∈ Resolve (AsApp p) p x d -> p <> uuid_Nil.
Proof. intros Hk ->. rewrite Resolve_nil in Hk. set_solver. Qed.

(** A membership of [p] with a role that [actor] may assign at [b] grants no more
    than [actor] holds. *)
Lemma assigned_within d actor b role r x k n :
  tenancy_ok d -> actor <> uuid_Nil -> t_role d !! role = Some r -> vis_role (AsApp actor) d r = true ->
  (if rl_locked r then HasOwnerRole (AsApp actor) actor b d = true
   else forall k, k ∈ GetRolePermissions (AsApp actor) role d -> k ∈ Resolve (AsApp actor) actor b d) ->
  is_Some (t_business d !! x) -> up (shape_of d) n x = Some b -> is_Some (t_permission d !! k) ->
  (rl_locked r = true \/ (role, k) ∈ t_role_perm d) ->
  is_Some (t_closure d !! (b, x)) /\ holds d actor x k.
Proof.
  intros Hok Hnil Hr Hvis Hesc Hx Hup Hk Hlk.
  assert (is_Some (t_closure d !! (b, x))) as Hc.
  { apply (closure_some _ _ (ok_tree _ Hok)). rewrite shape_lookup, fmap_is_Some. eauto. }
  split; [done|]. apply (holds_down (G := False) _ _ b); [done| |done].
  destruct (rl_locked r) eqn:Hl.
  - apply owner_holds; [done| |done]. by rewrite <- (HasOwnerRole_visible (G := False)).
  - destruct Hlk as [?|Hlk]; [done|]. apply (Resolve_spec (G := False)); [done|done|]. apply Hesc.
    apply role_permissions_spec; [|done]. unfold role_is_visible. by rewrite Hr.
Qed.
End Effects.

(** ** The invariant *)

Section Theorems.
Context `{UnicodeTables, UUIDLib, PgText, EventLib, AuthLib}.
Context (cfg : AccountConfig).

Lemma history_tokens h h' : api_step cfg h h' -> Forall tokens_ok h -> Forall tokens_ok h'.
Proof.
  intros Hst Hall. destruct h as [|d h]; [by inversion Hst|].
  destruct (step_tokens cfg d h h' (Forall_inv Hall) Hst) as (d' & -> & Hok & _). by constructor.
Qed.

Lemma seed_tokens ids : tokens_ok (seed ids).
Proof. split_and!; [split|..]; intros i j r s Hi; simpl in Hi; by rewrite lookup_empty in Hi. Qed.

(** C34: In every database of every history that starts after the migrations, whatever the operations on businesses,
    members, roles, invitations, accounts and sessions and the creations of agents, however they interleave, however old
    what they read before the tenant lock is, whatever tokens a revocation misses because they were inserted after its
    snapshot, and whatever tenants a merge fences: the closure table is exactly the ancestor relation of a forest at most
    ten levels deep whose roots are the tenants, memberships and roles stay in their tenant, an agent is a member of its
    home business only, the permissions of roles are in the catalog; a token's digest is one token's, and a refresh family
    has one principal and at most one unused token. *)
Theorem tenancy_invariant ids h :
  distinct ids -> rtc (api_step cfg) [seed ids] h -> Forall (fun d => tenancy_ok d /\ tokens_ok d) h.
Proof.
  intros Hnd Hr. apply Forall_and. split; [by apply (reachable_sound cfg False (seed ids)); [apply seed_ok| |]|].
  revert h Hr. apply (rtc_ind_r (fun h => Forall tokens_ok h)); [repeat constructor; apply seed_tokens|].
  intros y z _ Hyz Hy. by eapply history_tokens.
Qed.

(** Every master business that is not deleted has a member with the Owner's role. *)
Definition has_owners (d : tdb) : Prop := forall x b,
  t_business d !! x = Some b -> bz_parent b = None -> bz_deleted b = None ->
  exists p m r, t_membership d !! (p, x) = Some m /\ t_role d !! mb_role m = Some r /\ rl_root r = None /\ rl_key r = "owner".

(** C35: As long as no member of a master business holds a locked role other than the Owner's, in every database of the
    history each master business that is not deleted has an Owner, however demotions, revocations, departures and
    transfers interleave. *)
Theorem tenants_keep_owners ids h :
  distinct ids -> rtc (api_step cfg) [seed ids] h -> Forall plain h -> Forall has_owners h.
Proof.
  intros Hnd Hr Hpl. destruct (reachable_sound cfg True (seed ids) h) as [Hall _]; [by apply seed_ok|done|done|].
  apply Forall_forall. intros d Hd x b Hx Hp Hl. rewrite Forall_forall in Hall, Hpl. specialize (Hall _ Hd).
  destruct (ok_owned _ Hall I _ _ Hx Hp Hl) as (p & m & r & Hm & Hrole & Hk). exists p, m, r. split_and!; [done|done| |].
  - by apply (ok_locked _ Hall _ _ Hrole).
  - by apply (Hpl _ Hd p x b m).
Qed.

(** ** Moving a subtree *)

(** C39: A move that succeeds, also when it waited for the lock: the mover holds [hierarchy.manage] at the node and at the
    new parent, the node is no master and the new parent is outside its subtree; only the node's parent changes; and the
    descendants of the node get the new parent's ancestors in place of the old ones, everyone else keeps theirs. *)
Theorem Move_correct p node np now d0 d d' :
  tenancy_ok d0 -> tenancy_ok d -> evolves d0 d -> Move p node np now d0 d = (d', Ok tt) ->
  tenancy_ok d' /\ holds d p node "hierarchy.manage" /\ holds d p np "hierarchy.manage" /\
  in_subtree d node np = false /\
  (exists row, t_business d !! node = Some row /\ bz_parent row <> None /\
     t_business d' = <[node := moved_row row np now]> (t_business d)) /\
  (forall a x, in_subtree d' a x = if in_subtree d node x
     then (in_subtree d node a && in_subtree d a x) || in_subtree d a np else in_subtree d a x) /\
  t_membership d' = t_membership d /\ t_role d' = t_role d.
Proof.
  intros Hok0 Hok Hev Hmv. pose proof (Move_keeps p node np now False d0 d Hok0 Hok ltac:(done) Hev) as [Hok' _]. rewrite Hmv in Hok'.
  unfold Move in Hmv. destruct (N.eqb node np); [done|]. unfold locked_tx in Hmv.
  destruct (move_load p node np d0) as [row0|] eqn:Hl; [|done]. apply run_tx_ok in Hmv as (t & Hr & _ & ->).
  destruct (move_body_ok _ _ _ _ _ _ _ _ _ Hok Hev Hl Hr) as (row & cl & Hf). destruct Hf as [H1' H2' H3' H4' H5' _ H7' [e H8']].
  assert (p <> uuid_Nil) as Hp by by eapply perm_not_nil.
  rewrite H8' in *. split_and!; try done; try (by apply (Resolve_spec (G := False))); [by eauto|].
  intros a x. apply eq_iff_eq_true. unfold in_subtree at 1. rewrite bool_decide_eq_true. simpl.
  assert (is_Some (cl !! (a, x)) <-> (is_Some (t_closure d !! (a, x)) /\ (is_Some (t_closure d !! (node, x)) ->
            is_Some (t_closure d !! (node, a)))) \/ (is_Some (t_closure d !! (a, np)) /\ is_Some (t_closure d !! (node, x)))) as ->.
  { split.
    - intros [c Hc]. apply H7' in Hc as [[Hc Hi]|(ca & cx & Ha & Hx & _)]; [left|right]; eauto.
    - intros [[[c Hc] Hi]|[[ca Ha] [cx Hx]]]; eexists; apply H7'; [left; eauto|right; eauto]. }
  unfold in_subtree. destruct (bool_decide (is_Some (t_closure d !! (node, x)))) eqn:Hx.
  - apply bool_decide_eq_true in Hx. rewrite orb_true_iff, andb_true_iff, !bool_decide_eq_true. tauto.
  - apply bool_decide_eq_false in Hx. rewrite bool_decide_eq_true. tauto.
Qed.

(** ** The locked roles *)

(** The roles that are locked are the presets Owner and agent_runtime. *)
Definition locks_ok (d : tdb) : Prop := forall i r, t_role d !! i = Some r ->
  (rl_locked r = true <-> rl_root r = None /\ (rl_key r = "owner" \/ rl_key r = "agent_runtime")).
Definition locks_rel (d d' : tdb) : Prop := locks_ok d -> locks_ok d'.
#[local] Instance locks_rel_preorder : PreOrder locks_rel.
Proof. split; [intros d Hok; exact Hok|]. intros d1 d2 d3 H12 H23 Hok. by apply H23, H12. Qed.

Lemma locks_same d d' : same TRole d d' -> locks_rel d d'.
Proof. intros Hs Hok i r. simpl in Hs. rewrite Hs. apply Hok. Qed.
Lemma frame_locks {A : Type} (m : txm A) : writes (other_tables TRole) m -> moves locks_rel m.
Proof. intros Hw t t' a Hr. apply locks_same. apply Hw in Hr. apply Hr, not_other. Qed.

Lemma locks_insert d i r :
  (rl_locked r = true <-> rl_root r = None /\ (rl_key r = "owner" \/ rl_key r = "agent_runtime")) ->
  locks_rel d (set_role (<[i := r]> (t_role d)) d).
Proof.
  intros Hi Hok j s. simpl. destruct (decide (j = i)) as [->|Hne]; [|rewrite lookup_insert_ne by done; apply Hok].
  rewrite lookup_insert_eq. by intros [= <-].
Qed.

Lemma m_CreateRole_row id root key name : moves locks_rel (CreateRole_row id root key name).
Proof. apply moves_put. intros d d' Hd. ok_tests Hd. subst d'. apply locks_insert. simpl. naive_solver. Qed.
Lemma m_UpdateRoleName c rid name : moves locks_rel (UpdateRoleName c rid name).
Proof.
  apply moves_put. intros d d' Hd. destruct (has_nul name); [done|]. destruct (t_role d !! rid) as [r|] eqn:Hr; [|injection Hd as <-; reflexivity].
  ok_tests Hd; subst d'; [reflexivity|]. intros Hok. apply locks_insert; [|done]. simpl. by apply (Hok rid).
Qed.
Lemma m_DeleteRole_row c rid root : moves locks_rel (DeleteRole_row c rid root).
Proof.
  apply moves_put. intros d d' Hd. destruct (t_role d !! rid) as [r|]; [|injection Hd as <-; reflexivity]. ok_tests Hd; subst d'; [reflexivity|].
  intros Hok j s Hj. simpl in Hj. apply lookup_delete_Some in Hj as [_ Hj]. by apply (Hok j).
Qed.

Lemma exec_locks o d0 d : locks_rel d (fst (exec cfg o d0 d)).
Proof.
  assert (TRole ∉ footprint o -> locks_rel d (fst (exec cfg o d0 d))) as Hframe.
  { intros Hn. apply locks_same. exact (exec_within cfg o d0 d TRole Hn). }
  destruct o; try (apply Hframe; rewrite list_elem_of_In; simpl; intuition discriminate); clear Hframe;
    unfold exec, outcome; cbv beta; simpl fst; unfold CreateRole, UpdateRole, DeleteRole; cbv zeta;
    repeat apply (moves_refused _); apply (moves_run _);
    repeat first
      [ progress intros | apply (moves_bind _)
      | apply m_CreateRole_row | apply m_UpdateRoleName | apply m_DeleteRole_row
      | solve [apply frame_locks; unfold requirePerm, validateGrantable, auditRole; writes]
      | match goal with |- moves _ (match ?x with _ => _ end) => destruct x end ].
Qed.

Lemma seed_locks ids : distinct ids -> locks_ok (seed ids).
Proof.
  intros Hnd i r Hi. simpl in Hi. apply seed_role in Hi as [ks Hi]; [|done]. unfold presets in Hi.
  rewrite !elem_of_cons, elem_of_nil in Hi. destruct_or! Hi; try done; simplify_eq/=; naive_solver.
Qed.

Lemma step_locks h h' : api_step cfg h h' -> Forall locks_ok h -> Forall locks_ok h'.
Proof.
  intros [o d0 d1 d rest _ _ _|f d rest] Hall; (constructor; [|done]); apply Forall_inv in Hall; [|exact Hall].
  eapply (locks_same (fst (exec cfg o d0 d))); [apply missed_within; rewrite list_elem_of_In; simpl; intuition discriminate|].
  by apply exec_locks.
Qed.

Lemma history_ok ids h :
  distinct ids -> rtc (api_step cfg) [seed ids] h -> Forall tenancy_ok h /\ Forall locks_ok h.
Proof.
  intros Hnd Hr. split; [by apply (reachable_sound cfg False (seed ids)); [apply seed_ok| |]|].
  revert h Hr. apply (rtc_ind_r (fun h => Forall locks_ok h)); [constructor; [by apply seed_locks|constructor]|].
  intros y z _ Hyz Hy. by eapply step_locks.
Qed.

(** ** Permissions *)

(** [p] has a membership at [x] or above it, on a business that is not archived,
    whose role satisfies [P]. *)
Definition through (d : tdb) (p x : uuid) (P : uuid -> role_row -> Prop) : Prop :=
  is_Some (t_business d !! x) /\
  exists a m r b n, t_membership d !! (p, a) = Some m /\ t_role d !! mb_role m = Some r /\
    t_business d !! a = Some b /\ bz_status b <> "archived" /\ up (shape_of d) n x = Some a /\ P (mb_role m) r.
(** The presets that hold every permission. *)
Definition all_powerful (r : role_row) : Prop := rl_root r = None /\ (rl_key r = "owner" \/ rl_key r = "agent_runtime").
Definition permitted (d : tdb) (p x : uuid) (k : string) : Prop :=
  is_Some (t_permission d !! k) /\ through d p x (fun i r => all_powerful r \/ (i, k) ∈ t_role_perm d).
Definition owner_above (d : tdb) (p x : uuid) : Prop := through d p x (fun _ r => all_powerful r).

Lemma permitted_spec d p x k : tenancy_ok d -> locks_ok d -> p <> uuid_Nil -> k ∈ Resolve (AsApp p) p x d <-> permitted d p x k.
Proof.
  intros Hok Hlk Hp. rewrite (Resolve_spec (G := False)) by done. split.
  - intros (a & m & r & b & n & Hm & Hr & Hb & Hst & Hx & Hup & Hk & Hlr). split; [done|]. split; [done|].
    exists a, m, r, b, n. split_and!; try done. unfold all_powerful. by rewrite <- (Hlk _ _ Hr).
  - intros (Hk & Hx & a & m & r & b & n & Hm & Hr & Hb & Hst & Hup & Hlr). exists a, m, r, b, n. split_and!; try done.
    unfold all_powerful in Hlr. by rewrite (Hlk _ _ Hr).
Qed.

Lemma owner_above_spec d p x : tenancy_ok d -> locks_ok d -> HasOwnerRole (AsApp p) p x d = true -> p <> uuid_Nil -> owner_above d p x.
Proof.
  intros Hok Hlk Ho Hp. rewrite (HasOwnerRole_visible (G := False)) in Ho by done. unfold HasOwnerRole in Ho.
  apply mexists_true in Ho as ([q a] & m & Hm & Hg). apply andb_true_iff in Hg as [Hg Hr].
  apply (grants_spec _ _ _ _ _ Hok) in Hg as (-> & (b & Hb & Hst) & Hx & n & Hup). split; [done|].
  destruct (t_role d !! mb_role m) as [r|] eqn:Hrr; [|done]. exists a, m, r, b, n. split_and!; try done.
  by apply (Hlk _ _ Hrr).
Qed.


(** The database's own resolution, [businesses_with_permission], which the policies of later tables use, agrees with the
    resolver of the service for every key of the catalog. *)
Theorem businesses_with_permission_agrees d p x k :
  tenancy_ok d -> p <> uuid_Nil -> is_Some (t_permission d !! k) ->
  businesses_with_permission d p k x = true <-> k ∈ Resolve (AsApp p) p x d.
Proof.
  intros Hok Hp Hk. rewrite (Resolve_spec (G := False)) by done. unfold businesses_with_permission. rewrite mexists_true. split.
  - intros ([q a] & m & Hm & Hg). apply andb_true_iff in Hg as [Hg Hlk].
    apply (grants_spec _ _ _ _ _ Hok) in Hg as (-> & (b & Hb & Hs) & Hx & n & Hn).
    destruct (ok_member _ Hok _ _ _ Hm) as (_ & _ & r & Hr & _). rewrite Hr in Hlk.
    exists a, m, r, b, n. split_and!; try done. apply orb_true_iff in Hlk as [?|Hlk]; [by left|right]. by apply bool_decide_eq_true in Hlk.
  - intros (a & m & r & b & n & Hm & Hr & Hb & Hs & Hx & Hn & _ & Hlk). exists (p, a), m. split; [done|].
    apply andb_true_iff. split; [apply (grants_spec _ _ _ _ _ Hok); naive_solver|]. rewrite Hr.
    apply orb_true_iff. destruct Hlk; [by left|right]. by apply bool_decide_eq_true.
Qed.

(** C37: Changing a member's role grants nothing the one who changes it does not hold: whatever any principal holds after a
    change that succeeded, it held before, or it is the member, below the business of the change, and the actor held
    it there; and revoking a member or leaving grants nothing at all. *)
Theorem membership_no_escalation actor b target role d0 d :
  tenancy_ok d ->
  (forall d' q x k, ChangeMemberRole actor b target role d0 d = (d', Ok tt) -> holds d' q x k ->
     holds d q x k \/ (q = target /\ is_Some (t_closure d !! (b, x)) /\ holds d actor x k)) /\
  (forall d' q x k, RevokeMember actor b target d0 d = (d', Ok tt) -> holds d' q x k -> holds d q x k) /\
  (forall d' q x k, LeaveBusiness actor b d0 d = (d', Ok tt) -> holds d' q x k -> holds d q x k).
Proof.
  intros Hok. split_and!; intros d' q x k Hr Hh.
  - apply ChangeMemberRole_effect in Hr as [->|(r & m & m' & Hrole & Hvis & Hp & Hesc & Hm & Hm' & Hs & Hmem)]; [by left|].
    destruct Hh as (a & mq & rq & row & n & Hqa & Hrq & Hb & Hst & Hx & Hup & Hk & Hlk). rewrite Hmem in Hqa.
    destruct (decide ((q, a) = (target, b))) as [[= -> ->]|Hne].
    + rewrite lookup_insert_eq in Hqa. injection Hqa as <-. right. split; [done|].
      rewrite (same_shape _ _ Hs) in Hup. destruct Hs as (Eb & Ec & Er & Erp & Ep). rewrite Er in Hrq. rewrite Eb in *. rewrite Erp in Hlk. rewrite Ep in Hk.
      rewrite Hm' in *. rewrite Hrole in Hrq. injection Hrq as <-.
      eapply assigned_within; try done. by eapply perm_not_nil.
    + rewrite lookup_insert_ne in Hqa by congruence. left. by eapply holds_transport.
  - apply RevokeMember_effect in Hr as [Hr _]. by eapply removes_holds.
  - apply LeaveBusiness_effect in Hr. by eapply removes_holds.
Qed.
End Theorems.
