(* ===== verification/TenantListing.v ===== *)
(** * The access list

    [ListMembers] groups the rows of [access_list] by principal; each principal
    appears once, with its grants and the permissions it holds. *)

From S2P Require Import Prelude GoStrings GoBase64 GoTime GoJson AutoGraph Errors AutoEngine Concrete AutoStore AutoService AutoEvents WorkBoard.
From S2P Require Import TenantModel TenantService TenantTree TenantFacts TenantOps TenantMembers AuthTokens AccountService TenantApi TenantFootprint TenantSafety SessionFacts SessionSafety TenantDemo TenantTheorems.
From stdpp Require Import sorting.
#[local] Open Scope tx_scope.

(** ** Grouping *)

Definition of_principal (p : uuid) (rows : list access_row) : list access_row :=
  List.filter (fun a => N.eqb (al_principal a) p) rows.

(** The entries stand for the rows seen so far. *)
Definition groups (rows : list access_row) (l : list Member) : Prop :=
  NoDup (map me_PrincipalID l) /\
  (forall m, m ∈ l -> me_Grants m = map grant_of (of_principal (me_PrincipalID m) rows)) /\
  (forall p, p ∈ map me_PrincipalID l <-> p ∈ map al_principal rows).

Lemma add_grant_ids a l :
  map me_PrincipalID (add_grant a l) =
  if existsb (fun m => N.eqb (me_PrincipalID m) (al_principal a)) l then map me_PrincipalID l
  else map me_PrincipalID l ++ [al_principal a].
Proof.
  induction l as [|m l IH]; simpl; [done|]. destruct (N.eqb (me_PrincipalID m) (al_principal a)); simpl; [done|].
  rewrite IH. by destruct (existsb _ l).
Qed.

Lemma add_grant_elem a l m' :
  NoDup (map me_PrincipalID l) -> m' ∈ add_grant a l ->
  (me_PrincipalID m' <> al_principal a /\ m' ∈ l) \/
  (me_PrincipalID m' = al_principal a /\
   ((exists m, m ∈ l /\ me_PrincipalID m = al_principal a /\ me_Grants m' = me_Grants m ++ [grant_of a]) \/
    (al_principal a ∉ map me_PrincipalID l /\ me_Grants m' = [grant_of a]))).
Proof.
  induction l as [|m l IH]; simpl; intros Hnd Hin.
  - apply list_elem_of_singleton in Hin as ->. right. split; [done|]. right. split; [by apply not_elem_of_nil|done].
  - apply NoDup_cons in Hnd as [Hm Hnd]. destruct (N.eqb_spec (me_PrincipalID m) (al_principal a)) as [He|Hne].
    + apply elem_of_cons in Hin as [->|Hin].
      * right. split; [done|]. left. exists m. split; [by left|]. done.
      * left. split; [|by right]. intros He'. apply Hm. rewrite He, <- He'. by apply list_elem_of_fmap_2.
    + apply elem_of_cons in Hin as [->|Hin]; [left; split; [done|by left]|].
      destruct (IH Hnd Hin) as [[? ?]|[Hp [(m0 & Hm0 & ? & ?)|[Hn ?]]]].
      * left. split; [done|by right].
      * right. split; [done|]. left. exists m0. split; [by right|done].
      * right. split; [done|]. right. split; [|done]. apply not_elem_of_cons. by split; [congruence|].
Qed.

Lemma of_principal_snoc p rows a :
  of_principal p (rows ++ [a]) = of_principal p rows ++ (if N.eqb (al_principal a) p then [a] else []).
Proof. unfold of_principal. rewrite List.filter_app. simpl. by destruct (N.eqb _ _). Qed.

Lemma of_principal_none p rows : p ∉ map al_principal rows -> of_principal p rows = [].
Proof.
  induction rows as [|a rows IH]; [done|]. simpl. rewrite not_elem_of_cons. intros [Hne Hin].
  rewrite (proj2 (N.eqb_neq _ _)) by congruence. by apply IH.
Qed.

Lemma groups_add rows l a : groups rows l -> groups (rows ++ [a]) (add_grant a l).
Proof.
  intros (Hnd & Hg & Hp). unfold groups. rewrite add_grant_ids, map_app. simpl.
  assert (existsb (fun m => N.eqb (me_PrincipalID m) (al_principal a)) l = true <-> al_principal a ∈ map me_PrincipalID l) as Hex.
  { rewrite existsb_exists, list_elem_of_fmap. setoid_rewrite N.eqb_eq. setoid_rewrite list_elem_of_In. naive_solver. }
  split_and!.
  - destruct (existsb _ l) eqn:He; [done|]. apply NoDup_app. split_and!; [done| |by apply NoDup_singleton].
    intros x Hx ->%list_elem_of_singleton. apply Hex in Hx. congruence.
  - intros m' Hm'. rewrite of_principal_snoc, map_app.
    destruct (add_grant_elem _ _ _ Hnd Hm') as [[Hne Hin]|[He [(m & Hin & Hme & ->)|[Hn ->]]]].
    + rewrite (proj2 (N.eqb_neq _ _)) by congruence. simpl. rewrite app_nil_r. by apply Hg.
    + rewrite He, N.eqb_refl. simpl. f_equal. rewrite <- Hme. by apply Hg.
    + rewrite He, N.eqb_refl, of_principal_none; [done|]. by rewrite <- Hp.
  - intros p. rewrite elem_of_app, list_elem_of_singleton, <- Hp. destruct (existsb _ l) eqn:He.
    + split; [by left|]. intros [?| ->]; [done|]. by apply Hex.
    + rewrite elem_of_app, list_elem_of_singleton. done.
Qed.

Lemma group_grants_spec rows : groups rows (group_grants rows).
Proof.
  unfold group_grants.
  assert (forall done l, groups done l -> groups (done ++ rows) (fold_left (fun l a => add_grant a l) rows l)) as Hgen.
  { induction rows as [|a rows IH]; intros seen l Hl; simpl; [by rewrite app_nil_r|].
    change (a :: rows) with ([a] ++ rows). rewrite app_assoc. apply IH. by apply groups_add. }
  apply (Hgen [] []). split_and!; [by constructor|by intros m Hm%not_elem_of_nil|done].
Qed.

(** ** Rows and permissions *)

Section Listing.
Context `{UnicodeTables, UUIDLib, PgText}.

Lemma access_list_spec d x a :
  a ∈ access_list x d <-> exists k m, t_membership d !! k = Some m /\ access_row_of d x k m = Some a.
Proof.
  unfold access_list. rewrite merge_sort_Permutation, list_elem_of_omap. split.
  - intros ([k m] & Hk & Ha). apply elem_of_map_to_list in Hk. eauto.
  - intros (k & m & Hk & Ha). exists (k, m). split; [by apply elem_of_map_to_list|done].
Qed.

(** A granted membership has a row, which shows its role. *)
Lemma access_row_total d x p a m :
  tenancy_ok d -> t_membership d !! (p, a) = Some m -> grants AsOwner d p x (p, a) = true ->
  exists r row, t_role d !! mb_role m = Some r /\ access_row_of d x (p, a) m = Some row /\ al_principal row = p /\
    al_locked row = rl_locked r /\ (forall k, k ∈ al_permissions row <-> (mb_role m, k) ∈ t_role_perm d).
Proof.
  intros Hok Hm Hg. destruct (ok_member _ Hok _ _ _ Hm) as (_ & [pr Hpr] & r & Hr & _).
  unfold access_row_of. simpl. rewrite Hg, Hr, Hpr. eexists r, _. split_and!; try done. simpl.
  intros k. unfold pg_sort. rewrite merge_sort_Permutation. apply role_keys_spec.
Qed.

Lemma access_row_inv d x p a m row :
  access_row_of d x (p, a) m = Some row -> grants AsOwner d p x (p, a) = true /\ al_principal row = p.
Proof.
  unfold access_row_of. simpl. destruct (grants _ _ _ _ _); [|done]. destruct (t_role d !! _); [|done].
  destruct (t_principal d !! p); [|done]. by intros [= <-].
Qed.

Lemma effectivePermissions_spec gs catalog k :
  k ∈ effectivePermissions gs catalog <->
  if existsb (fun g => gr_Locked (gt_Role g)) gs then k ∈ catalog
  else exists g, g ∈ gs /\ k ∈ gr_Permissions (gt_Role g).
Proof.
  unfold effectivePermissions. destruct (existsb _ gs); [done|]. unfold sort_Strings.
  rewrite merge_sort_Permutation, elem_of_elements, elem_of_list_to_set, list_elem_of_In, in_flat_map.
  setoid_rewrite list_elem_of_In. done.
Qed.

(** The permissions shown for a principal are those it holds. *)
Lemma listed_permissions d x p k :
  tenancy_ok d ->
  k ∈ effectivePermissions (map grant_of (of_principal p (access_list x d))) (AllPermissionKeys d) <-> holds d p x k.
Proof.
  intros Hok. rewrite effectivePermissions_spec, <- (Resolve_owner_spec (G := False)) by done. unfold Resolve.
  assert (forall a, a ∈ of_principal p (access_list x d) <->
    exists b m, t_membership d !! (p, b) = Some m /\ access_row_of d x (p, b) m = Some a) as Hrows.
  { intros a. unfold of_principal. rewrite list_elem_of_In, List.filter_In, <- list_elem_of_In, access_list_spec, N.eqb_eq. split.
    - intros [([q b] & m & Hm & Ha) Hp]. apply access_row_inv in Ha as Hi. destruct Hi as [_ Hq]. rewrite Hp in Hq. subst q. eauto.
    - intros (b & m & Hm & Ha). split; [eauto|]. by apply access_row_inv in Ha as [_ ?]. }
  assert (existsb (fun g => gr_Locked (gt_Role g)) (map grant_of (of_principal p (access_list x d))) = HasOwnerRole AsOwner p x d) as ->.
  { apply eq_iff_eq_true. unfold HasOwnerRole. rewrite existsb_exists, mexists_true. split.
    - intros (g & Hg & Hl). apply in_map_iff in Hg as (a & <- & Ha). apply list_elem_of_In, Hrows in Ha as (b & m & Hm & Ha).
      apply access_row_inv in Ha as Hi. destruct Hi as [Hgr _].
      destruct (access_row_total _ _ _ _ _ Hok Hm Hgr) as (r & row & Hr & Hrow & _ & Hlk & _). rewrite Ha in Hrow. injection Hrow as <-.
      exists (p, b), m. split; [done|]. rewrite Hgr, Hr. simpl. simpl in Hl. congruence.
    - intros ([q b] & m & Hm & Hg). apply andb_true_iff in Hg as [Hg Hr].
      assert (q = p) as -> by (unfold grants in Hg; simpl in Hg; to_ids; done).
      destruct (access_row_total _ _ _ _ _ Hok Hm Hg) as (r & row & Hrr & Hrow & _ & Hlk & _). rewrite Hrr in Hr. simpl in Hr.
      exists (grant_of row). split; [apply in_map_iff; exists row; split; [done|]; apply list_elem_of_In, Hrows; eauto|].
      simpl. congruence. }
  destruct (HasOwnerRole AsOwner p x d); [by rewrite elem_of_list_to_set|].
  rewrite EffectivePermissions_spec. split.
  - intros (g & Hg & Hk). apply list_elem_of_fmap in Hg as (a & -> & Ha). apply Hrows in Ha as (b & m & Hm & Ha).
    apply access_row_inv in Ha as Hi. destruct Hi as [Hgr _].
    destruct (access_row_total _ _ _ _ _ Hok Hm Hgr) as (r & row & Hr & Hrow & _ & _ & Hperm). rewrite Ha in Hrow. injection Hrow as <-.
    exists p, b, m. split_and!; try done. by apply Hperm.
  - intros (q & b & m & Hm & Hg & _ & Hk). assert (q = p) as -> by (unfold grants in Hg; simpl in Hg; to_ids; done).
    destruct (access_row_total _ _ _ _ _ Hok Hm Hg) as (r & row & Hrr & Hrow & _ & _ & Hperm).
    exists (grant_of row). split; [apply list_elem_of_fmap; exists row; split; [done|]; apply Hrows; eauto|]. by apply Hperm.
Qed.

(** The access list of a business shows exactly the principals with a grant at it or above it, each once, and with
    exactly the permissions the principal holds there; reading it changes nothing. *)
Theorem ListMembers_exact viewer x d d' ms :
  tenancy_ok d -> ListMembers viewer x d = (d', Ok ms) ->
  d' = d /\ NoDup (map me_PrincipalID ms) /\
  (forall q, q ∈ map me_PrincipalID ms <->
     exists a m, t_membership d !! (q, a) = Some m /\ grants AsOwner d q x (q, a) = true) /\
  (forall m k, m ∈ ms -> k ∈ me_EffectivePermissions m <-> holds d (me_PrincipalID m) x k).
Proof.
  intros Hok Hl. apply run_tx_ok in Hl as (t & Hr & _ & ->). tx_inv. subst. simpl in *. clear Hm Hm1.
  destruct (group_grants_spec (access_list x d)) as (Hnd & Hg & Hp). rewrite List.map_map. simpl.
  split_and!; [done|done| |].
  - intros q. change (map (fun m => me_PrincipalID m)) with (map me_PrincipalID). rewrite Hp, list_elem_of_fmap. split.
    + intros (row & -> & Hrow). apply access_list_spec in Hrow as ([q b] & m & Hm & Hrow). apply access_row_inv in Hrow as [Hgr ->]. eauto.
    + intros (b & m & Hm & Hgr). destruct (access_row_total _ _ _ _ _ Hok Hm Hgr) as (r & row & _ & Hrow & Hpr & _).
      exists row. split; [done|]. apply access_list_spec. eauto.
  - intros m k Hm. apply list_elem_of_fmap in Hm as (m0 & -> & Hm0). simpl. rewrite (Hg _ Hm0). by apply listed_permissions.
Qed.
End Listing.
