(* ===== verification/TenantAccess.v ===== *)
(** * Refusals, and tenancy as the authorization of the other services

    A call on a business the caller may not see, or may not act on, is refused as
    if the business did not exist.  [tenancy_authz] gives the services of
    automations and work the authorization they ask for: the tables of tenancy
    implement the interface [Authz]. *)

From S2P Require Import Prelude GoStrings GoBase64 GoTime GoJson AutoGraph Errors AutoEngine Concrete AutoStore AutoService AutoEvents WorkFields WorkBoard WorkSync WorkTheorems.
From S2P Require Import TenantModel TenantService TenantTree TenantFacts TenantOps TenantMembers AuthTokens AccountService TenantApi TenantFootprint TenantSafety SessionFacts SessionSafety TenantDemo TenantTheorems.
#[local] Open Scope tx_scope.

(** ** Refusals *)

(** The caller and the business of an operation on a business. *)
Definition scope (o : api_op) : option (uuid * uuid) :=
  match o with
  | OpCreateSub p b _ _ _ _ | OpMove p b _ _ | OpArchive p b _ | OpRestore p b _ | OpRename p b _ _ | OpDelete p b _
  | OpGetBusiness p b | OpListMembers p b | OpChangeRole p b _ _ | OpRevokeMember p b _ | OpLeave p b | OpTransfer p b _
  | OpListRoles p b | OpCreateRole p b _ _ _ _ | OpUpdateRole p b _ _ _ | OpDeleteRole p b _ | OpInvite _ p b _ _ _ _ _
  | OpRevokeInvite p b _ | OpResendInvite _ p b _ _ _ | OpListInvites p b => Some (p, b)
  | _ => None
  end.

(** What the caller of an operation needs besides seeing the business. *)
Definition entitled `{UnicodeTables, UUIDLib, PgText} (o : api_op) (d : tdb) : Prop :=
  match o with
  | OpCreateSub p b _ _ _ _ | OpArchive p b _ | OpRestore p b _ | OpRename p b _ _ => permitted d p b "hierarchy.manage"
  | OpMove p b np _ => permitted d p b "hierarchy.manage" /\ permitted d p np "hierarchy.manage"
  | OpDelete p b _ => permitted d p b "business.delete"
  | OpChangeRole p b _ _ | OpRevokeMember p b _ | OpInvite _ p b _ _ _ _ _ | OpRevokeInvite p b _
  | OpResendInvite _ p b _ _ _ | OpListInvites p b => permitted d p b "members.manage"
  | OpListMembers p b => permitted d p b "members.manage" \/ permitted d p b "audit.read"
  | OpTransfer p b _ => owner_above d p b
  | OpListRoles p b => permitted d p b "roles.read"
  | OpCreateRole p b _ _ _ _ | OpUpdateRole p b _ _ _ | OpDeleteRole p b _ => permitted d p b "roles.manage"
  | _ => True
  end.

(** The one permission, of those that need one. *)
Definition required (o : api_op) : option string :=
  match o with
  | OpCreateSub _ _ _ _ _ _ | OpArchive _ _ _ | OpRestore _ _ _ | OpRename _ _ _ _ => Some "hierarchy.manage"
  | OpDelete _ _ _ => Some "business.delete"
  | OpChangeRole _ _ _ _ | OpRevokeMember _ _ _ | OpInvite _ _ _ _ _ _ _ _ | OpRevokeInvite _ _ _
  | OpResendInvite _ _ _ _ _ _ | OpListInvites _ _ => Some "members.manage"
  | OpListRoles _ _ => Some "roles.read"
  | OpCreateRole _ _ _ _ _ _ | OpUpdateRole _ _ _ _ _ | OpDeleteRole _ _ _ => Some "roles.manage"
  | _ => None
  end.

(** The database in which the operation looks for the business. *)
Definition looks_in (o : api_op) (d0 d : tdb) : tdb :=
  match o with
  | OpCreateSub _ _ _ _ _ _ | OpMove _ _ _ _ | OpArchive _ _ _ | OpRestore _ _ _ | OpDelete _ _ _ | OpChangeRole _ _ _ _
  | OpRevokeMember _ _ _ | OpLeave _ _ | OpTransfer _ _ _ => d0
  | _ => d
  end.

(** The business is there, and the caller is a member at it or above it. *)
Definition sees (d : tdb) (p b : uuid) : Prop :=
  p <> uuid_Nil /\ (exists row, t_business d !! b = Some row /\ bz_deleted row = None) /\
  exists a m n, t_membership d !! (p, a) = Some m /\ up (shape_of d) n b = Some a.
(** The caller sees the businesses an operation names: a move names two. *)
Definition in_view (o : api_op) (d : tdb) : Prop :=
  match o with
  | OpMove p node np _ => sees d p node /\ sees d p np
  | _ => match scope o with Some (p, b) => sees d p b | None => True end
  end.

Definition hidden (p b : uuid) (d : tdb) : bool := negb (is_ok (GetBusiness (AsApp p) b d)).

Lemma visible_spec d p b : tenancy_ok d -> hidden p b d = false <-> sees d p b.
Proof.
  intros Hok. unfold hidden, GetBusiness, sees.
  destruct (t_business d !! b) as [row|] eqn:Hb; [|simpl; split; [done|intros (_ & (row & ? & _) & _); done]].
  assert (vis (AsApp p) d b && live row = true <-> sees d p b) as Hs.
  { unfold sees, live. simpl. rewrite andb_true_iff, authorized_spec. split.
    - intros [(Hp & a & m & Hm & Hc) Hl]. split; [done|]. split; [exists row; by destruct (bz_deleted row)|].
      apply (closure_some _ _ (ok_tree _ Hok)) in Hc as [_ [n Hn]]. by exists a, m, n.
    - intros (Hp & (row' & Hr & Hl) & a & m & n & Hm & Hn). rewrite Hb in Hr. injection Hr as <-. rewrite Hl. split; [|done].
      split; [done|]. exists a, m. split; [done|]. apply (closure_some _ _ (ok_tree _ Hok)). rewrite shape_lookup, Hb. simpl. eauto. }
  unfold sees in Hs. rewrite Hb in Hs. rewrite <- Hs. destruct (vis _ _ _ && live row); simpl; done.
Qed.

Section Access.
Context `{UnicodeTables, UUIDLib, PgText, EventLib, AuthLib}.
Context (cfg : AccountConfig).

(** What is wrong with the arguments themselves. *)
Definition bad_arguments (o : api_op) : option error :=
  match o with
  | OpCreateSub _ _ name _ _ _ | OpRename _ _ name _ =>
      if String.eqb name "" then Some (invalid "name is required") else None
  | OpMove _ node np _ => if N.eqb node np then Some (conflict "a business cannot be moved under itself") else None
  | OpTransfer p _ to => if N.eqb p to then Some (conflict "cannot transfer ownership to yourself") else None
  | OpCreateRole _ _ name _ _ _ => if String.eqb (TrimSpace name) "" then Some (invalid "name is required") else None
  | OpInvite _ _ _ _ email _ _ _ =>
      if String.eqb (TrimSpace email) "" || negb (contains_at (TrimSpace email))
      then Some (invalid "a valid email is required") else None
  | _ => None
  end.

Lemma hidden_load p b d : hidden p b d = true -> loadVisible p b d = Err ErrNotFound.
Proof. unfold hidden, loadVisible. by destruct (GetBusiness _ _ _). Qed.
Lemma hidden_root p b d : hidden p b d = true -> loadTenantRoot p b d = Err ErrNotFound.
Proof. unfold hidden, loadTenantRoot. by destruct (GetBusiness _ _ _). Qed.
Lemma visible_load p b d : hidden p b d = false -> exists row, loadVisible p b d = Ok row.
Proof. unfold hidden, loadVisible. destruct (GetBusiness _ _ _); [eauto|done]. Qed.
Lemma visible_root p b d : hidden p b d = false -> exists r, loadTenantRoot p b d = Ok r.
Proof. unfold hidden, loadTenantRoot. destruct (GetBusiness _ _ _); [eauto|done]. Qed.

Lemma requirePerm_denied p b k t : k ∉ Resolve (AsApp p) p b (tx_db t) -> requirePerm p b k t = Err ErrNotFound.
Proof.
  intros Hk. unfold requirePerm, tx_bind, tx_get, Has. simpl. by rewrite bool_decide_eq_false_2.
Qed.

(** The ways the operations start. *)
Lemma refused_locked {B : Type} p b k (m : biz_row -> unit -> txm B) d0 d :
  hidden p b d0 = true \/ k ∉ Resolve (AsApp p) p b d ->
  locked_tx p (loadVisible p b) (fun row => tx_bind (requirePerm p b k) (m row)) d0 d = (d, Err ErrNotFound).
Proof.
  intros Hd. unfold locked_tx. destruct (hidden p b d0) eqn:Hh; [by rewrite hidden_load|].
  destruct (visible_load _ _ _ Hh) as [row ->]. destruct Hd as [?|Hk]; [done|].
  unfold WithPrincipal, run_tx, tx_bind at 1. by rewrite requirePerm_denied.
Qed.
Lemma hidden_locked {A B : Type} p (load : tdb -> result error A) (body : A -> txm B) d0 d :
  load d0 = Err ErrNotFound -> locked_tx p load body d0 d = (d, Err ErrNotFound).
Proof. intros Hl. unfold locked_tx. by rewrite Hl. Qed.
Lemma hidden_first {A B : Type} c (f : tdb -> result error A) (k : A -> txm B) d :
  f d = Err ErrNotFound -> run_tx c (tx_bind (tx_get f) k) d = (d, Err ErrNotFound).
Proof. intros Hf. unfold run_tx, tx_bind, tx_get. simpl. by rewrite Hf. Qed.
Lemma refused_first {A B : Type} c p b k (f : tdb -> result error A) (m : A -> unit -> txm B) d :
  (hidden p b d = true -> f d = Err ErrNotFound) -> (hidden p b d = false -> exists a, f d = Ok a) ->
  hidden p b d = true \/ k ∉ Resolve (AsApp p) p b d ->
  run_tx c (tx_bind (tx_get f) (fun a => tx_bind (requirePerm p b k) (m a))) d = (d, Err ErrNotFound).
Proof.
  intros Hh Hv Hd. destruct (hidden p b d) eqn:Hhid; [by apply hidden_first, Hh|].
  destruct (Hv eq_refl) as [a Ha]. destruct Hd as [?|Hk]; [done|].
  unfold run_tx, tx_bind at 1, tx_get at 1. simpl. rewrite Ha. unfold tx_bind at 1. by rewrite requirePerm_denied.
Qed.
Lemma refused_manage {B : Type} c p b (m : unit -> txm B) d :
  hidden p b d = true \/ "members.manage" ∉ Resolve (AsApp p) p b d ->
  run_tx c (tx_bind (requireManage p b) m) d = (d, Err ErrNotFound).
Proof.
  intros Hd. unfold run_tx, tx_bind at 1, requireManage, tx_bind at 1, tx_get. simpl.
  destruct (hidden p b d) eqn:Hh; [by rewrite hidden_load|]. destruct (visible_load _ _ _ Hh) as [row ->].
  destruct Hd as [?|Hk]; [done|]. by rewrite requirePerm_denied.
Qed.
Lemma refused_outcome {A : Type} (r : tdb * result error A) d e : r = (d, Err e) -> outcome r = (d, Some e).
Proof. by intros ->. Qed.

Lemma refused_invite ttl p b role email raw id k d :
  hidden p b d = true \/ "members.manage" ∉ Resolve (AsApp p) p b d ->
  String.eqb (TrimSpace email) "" || negb (contains_at (TrimSpace email)) = false ->
  Create_invitation ttl p b role email raw id k d = (d, Err ErrNotFound).
Proof.
  intros Hd He. unfold Create_invitation. rewrite He. destruct (hidden p b d) eqn:Hh; [by apply hidden_first, hidden_load|].
  destruct (visible_load _ _ _ Hh) as [row Hrow]. destruct Hd as [?|Hk]; [done|].
  unfold WithPrincipal, run_tx, tx_bind, tx_get, tx_guard, Has. simpl. rewrite Hrow. by rewrite bool_decide_eq_false_2.
Qed.

(** What a caller who sees the businesses is told before its authority is looked
    at: what is wrong with the arguments, and two conflicts. *)
Definition complaint (o : api_op) (d : tdb) : option error :=
  match bad_arguments o, o with
  | Some e, _ => Some e
  | None, OpMove _ node np _ =>
      match t_business d !! node, t_business d !! np with
      | Some x, Some y => if N.eqb (bz_root x) (bz_root y) then None else Some (conflict "cannot move across tenants")
      | _, _ => None
      end
  | None, OpTransfer _ b _ =>
      match t_business d !! b with
      | Some x => if N.eqb b (bz_root x) then None else Some (conflict "ownership transfer operates on the tenant root")
      | None => None
      end
  | None, _ => None
  end.

Lemma not_permitted d p b k : tenancy_ok d -> locks_ok d -> ~ permitted d p b k -> k ∉ Resolve (AsApp p) p b d.
Proof.
  intros Hok Hlk Hn Hk. destruct (decide (p = uuid_Nil)) as [->|Hp]; [rewrite Resolve_nil in Hk; set_solver|].
  by apply Hn, permitted_spec.
Qed.

Lemma not_owner d p b : tenancy_ok d -> locks_ok d -> ~ owner_above d p b -> HasOwnerRole (AsApp p) p b d = false.
Proof.
  intros Hok Hlk Hn. destruct (HasOwnerRole _ _ _ _) eqn:Ho; [|done]. exfalso. destruct (decide (p = uuid_Nil)) as [->|Hp].
  - apply mexists_true in Ho as ([q a] & m & _ & Hg). apply andb_true_iff in Hg as [Hg _]. unfold grants in Hg. simpl in Hg.
    unfold authorized_businesses in Hg. rewrite N.eqb_refl in Hg. simpl in Hg. by rewrite andb_false_r in Hg.
  - by apply Hn, owner_above_spec.
Qed.

Lemma visible_row p b d row : loadVisible p b d = Ok row -> t_business d !! b = Some row.
Proof. intros Hl. by apply loadVisible_ok in Hl as [? _]. Qed.

Lemma move_refused p node np now d0 d :
  N.eqb node np = false -> hidden p node d0 = true \/ hidden p np d0 = true -> Move p node np now d0 d = (d, Err ErrNotFound).
Proof.
  intros Hne Hh. unfold Move. rewrite Hne. apply hidden_locked. unfold move_load.
  destruct (hidden p node d0) eqn:Hn; [by rewrite hidden_load|]. destruct (visible_load _ _ _ Hn) as [row ->].
  destruct Hh as [?|Hh]; [done|]. by rewrite hidden_load.
Qed.

Lemma move_denied p node np now d0 d :
  N.eqb node np = false -> hidden p node d0 = false -> hidden p np d0 = false ->
  "hierarchy.manage" ∉ Resolve (AsApp p) p node d \/ "hierarchy.manage" ∉ Resolve (AsApp p) p np d ->
  Move p node np now d0 d = (d, Err (default ErrNotFound (complaint (OpMove p node np now) d0))).
Proof.
  intros Hne Hn Hnp Hk. unfold Move, complaint, bad_arguments. rewrite Hne. unfold locked_tx, move_load.
  destruct (visible_load _ _ _ Hn) as [row Hrow], (visible_load _ _ _ Hnp) as [row' Hrow']. rewrite Hrow, Hrow'.
  apply visible_row in Hrow as ->, Hrow' as ->. destruct (N.eqb (bz_root row) (bz_root row')); [|reflexivity]. simpl.
  unfold WithPrincipal, run_tx, move_body, tx_bind at 1.
  destruct (requirePerm p node "hierarchy.manage" _) as [[t []]|e] eqn:Hr1.
  - apply requirePerm_ok in Hr1 as [-> Hr1]. simpl in Hr1. destruct Hk as [?|Hk]; [done|].
    unfold tx_bind at 1. by rewrite requirePerm_denied.
  - unfold requirePerm, tx_bind, tx_get, tx_guard in Hr1. simpl in Hr1. destruct (Has _ _); [done|]. by injection Hr1 as <-.
Qed.

Lemma transfer_denied p b to d0 d :
  N.eqb p to = false -> hidden p b d0 = false -> HasOwnerRole (AsApp p) p b d = false ->
  TransferOwnership p b to d0 d = (d, Err (default ErrNotFound (complaint (OpTransfer p b to) d0))).
Proof.
  intros Hne Hn Ho. unfold TransferOwnership, complaint, bad_arguments. rewrite Hne. unfold locked_tx.
  destruct (visible_load _ _ _ Hn) as [row Hrow]. rewrite Hrow. apply visible_row in Hrow as ->. destruct (N.eqb b (bz_root row)); [|reflexivity].
  unfold WithPrincipal, run_tx, tx_bind at 1, tx_get at 1. simpl. rewrite Ho. done.
Qed.

Lemma list_members_denied p b d :
  hidden p b d = true \/ ("members.manage" ∉ Resolve (AsApp p) p b d /\ "audit.read" ∉ Resolve (AsApp p) p b d) ->
  ListMembers p b d = (d, Err ErrNotFound).
Proof.
  intros Hd. destruct (hidden p b d) eqn:Hh; [by apply hidden_first, hidden_load|]. destruct Hd as [?|[H1' H2']]; [done|].
  destruct (visible_load _ _ _ Hh) as [row Hrow]. unfold ListMembers, WithPrincipal, run_tx, tx_bind, tx_get, tx_guard, Has. simpl.
  rewrite Hrow. by rewrite !bool_decide_eq_false_2.
Qed.

(** Calls that start by reading the business and asking for one permission. *)
Lemma refused_call o p b d0 d :
  scope o = Some (p, b) ->
  hidden p b (looks_in o d0 d) = true \/ (exists k, required o = Some k /\ k ∉ Resolve (AsApp p) p b d) ->
  exec cfg o d0 d = (d, Some (default ErrNotFound (bad_arguments o))).
Proof.
  intros Hsc Hd.
  assert (forall k, required o = Some k -> hidden p b (looks_in o d0 d) = true \/ k ∉ Resolve (AsApp p) p b d) as Hk.
  { intros k Hk. destruct Hd as [Hd|(k' & Hk' & Hd)]; [by left|right; congruence]. }
  assert (required o = None -> hidden p b (looks_in o d0 d) = true) as Hn.
  { intros Hn. destruct Hd as [Hd|(k' & Hk' & Hd)]; [done|congruence]. }
  destruct o; try discriminate Hsc; injection Hsc as -> ->; simpl looks_in in *; simpl required in *; simpl bad_arguments;
    unfold exec; try specialize (Hn eq_refl); try specialize (Hk _ eq_refl).
  - unfold CreateSubBusiness. destruct (String.eqb name ""); [done|]. by apply refused_outcome, refused_locked.
  - unfold Move. destruct (N.eqb b newParent); [done|]. apply refused_outcome, hidden_locked. unfold move_load. by rewrite hidden_load.
  - by apply refused_outcome, refused_locked.
  - by apply refused_outcome, refused_locked.
  - unfold RenameBusiness_api. destruct (String.eqb name ""); [done|].
    apply refused_outcome, (refused_first _ p b); [apply hidden_load|apply visible_load|done].
  - by apply refused_outcome, refused_locked.
  - by apply refused_outcome, hidden_first, hidden_load.
  - by apply refused_outcome, hidden_first, hidden_load.
  - by apply refused_outcome, refused_locked.
  - by apply refused_outcome, refused_locked.
  - by apply refused_outcome, hidden_locked, hidden_load.
  - unfold TransferOwnership. destruct (N.eqb p to); [done|]. apply refused_outcome, hidden_locked. by rewrite hidden_load.
  - apply refused_outcome, (refused_first _ p b); [apply hidden_root|apply visible_root|done].
  - unfold CreateRole. destruct (String.eqb (TrimSpace name) ""); [done|].
    apply refused_outcome, (refused_first _ p b); [apply hidden_root|apply visible_root|done].
  - apply refused_outcome, (refused_first _ p b); [apply hidden_root|apply visible_root|done].
  - apply refused_outcome, (refused_first _ p b); [apply hidden_root|apply visible_root|done].
  - destruct (_ || _) eqn:He; [unfold Create_invitation; by rewrite He|]. by apply refused_outcome, refused_invite.
  - by apply refused_outcome, refused_manage.
  - by apply refused_outcome, refused_manage.
  - by apply refused_outcome, refused_manage.
Qed.

Lemma entitled_required o p b k d : scope o = Some (p, b) -> required o = Some k -> entitled o d = permitted d p b k.
Proof. destruct o; try discriminate; intros [= -> ->] [= <-]; done. Qed.

(** C38: No call tells a caller of a business it does not see, and none it is not entitled to gets further.  In the
    databases of any history: when the business does not exist, is deleted, or the caller is a member neither at it nor
    above it (for a move, of either business), the call changes nothing and answers not-found, or the complaint about
    the arguments, which does not depend on the database.  When the caller sees it but is not entitled (to move it, the
    permission at both businesses; to list members, one of two; to transfer, a membership with an all-powerful role;
    else the one permission), the answer is the same, except that a move between two tenants and a transfer of a
    business that is no tenant's root are told as conflicts first. *)
Theorem no_existence_oracle ids h o p b d0 d :
  distinct ids -> rtc (api_step cfg) [seed ids] h -> d0 ∈ h -> d ∈ h -> scope o = Some (p, b) ->
  (~ in_view o (looks_in o d0 d) -> exec cfg o d0 d = (d, Some (default ErrNotFound (bad_arguments o)))) /\
  (in_view o (looks_in o d0 d) -> ~ entitled o d ->
   exec cfg o d0 d = (d, Some (default ErrNotFound (complaint o (looks_in o d0 d))))).
Proof.
  intros Hnd Hr Hd0 Hd Hsc. destruct (history_ok cfg ids h Hnd Hr) as [Hok Hlk]. rewrite Forall_forall in Hok, Hlk.
  pose proof (Hok _ Hd0) as Hok0. specialize (Hok _ Hd). specialize (Hlk _ Hd).
  assert (forall d' q x, tenancy_ok d' -> ~ sees d' q x -> hidden q x d' = true) as Hhid.
  { intros d' q x Hd' Hs. destruct (hidden q x d') eqn:Hh; [done|]. by apply visible_spec in Hh. }
  assert (forall d' q x, tenancy_ok d' -> sees d' q x -> hidden q x d' = false) as Hvis by (intros; by apply visible_spec).
  assert (forall q x k, ~ permitted d q x k -> k ∉ Resolve (AsApp q) q x d) as Hno by (intros; by apply not_permitted).
  split.
  - intros Hview. destruct o eqn:Ho;
      try discriminate Hsc; rewrite <- Ho in *; try (eapply refused_call; [exact Hsc|left]; subst o; injection Hsc as -> ->; by apply Hhid).
    subst o. injection Hsc as -> ->. simpl in Hview. unfold exec. simpl bad_arguments.
    destruct (N.eqb b newParent) eqn:Hne; [unfold Move; by rewrite Hne|]. apply refused_outcome, move_refused; [done|].
    destruct (hidden p b d0) eqn:Hh; [by left|right]. apply Hhid; [done|]. intros Hs. apply Hview. split; [|done].
    by apply visible_spec.
  - intros Hview Hent. destruct (required o) as [k|] eqn:Hreq.
    + rewrite (entitled_required _ _ _ _ _ Hsc Hreq) in Hent.
      replace (complaint o (looks_in o d0 d)) with (bad_arguments o).
      * eapply refused_call; [exact Hsc|]. right. exists k. split; [done|]. by apply Hno.
      * destruct o; try discriminate Hreq; unfold complaint; by destruct (bad_arguments _).
    + destruct o; try discriminate Hsc; try discriminate Hreq; injection Hsc as -> ->; simpl in Hview, Hent; try (by destruct Hent);
        unfold exec; simpl looks_in.
      * destruct Hview as [Hv1 Hv2]. destruct (N.eqb b newParent) eqn:Hne.
        { unfold Move, complaint, bad_arguments. by rewrite Hne. }
        apply refused_outcome, move_denied; [done|by apply Hvis|by apply Hvis|].
        destruct (decide ("hierarchy.manage" ∈ Resolve (AsApp p) p b d)) as [Hk|Hk]; [right|by left].
        apply Hno. intros Hp2. apply Hent. split; [|done]. apply permitted_spec; [done|done| |done]. by destruct Hv1.
      * apply refused_outcome, list_members_denied. right. split; apply Hno; intros Hp2; apply Hent; [by left|by right].
      * destruct (N.eqb p to) eqn:Hne; [unfold TransferOwnership, complaint, bad_arguments; by rewrite Hne|].
        apply refused_outcome, transfer_denied; [done|by apply Hvis|by apply not_owner].
Qed.
End Access.

(** ** The authorization of the other services *)

Section Composition.
Context `{UnicodeTables, UUIDLib, PgText, TimeParser}.

(** [Authz] as the tenancy tables decide it. *)
Definition tenancy_authz (d : tdb) : Authz :=
  {| authorized := fun p b => authorized_businesses d p b;
     has_permission := fun p b k => Has (Resolve (AsApp p) p b d) k |}.

(** [target]'s only way to [x] was its membership at [b]. *)
Definition only_through (d : tdb) (target b x : uuid) : Prop :=
  forall a m, t_membership d !! (target, a) = Some m -> is_Some (t_closure d !! (a, x)) -> a = b.

Lemma removed_nothing d d' target b x k :
  tenancy_ok d -> removes target b d d' -> only_through d target b x -> ~ holds d' target x k.
Proof.
  intros Hok [Hs Hm] Honly (a & m & r & row & n & Hqa & _ & _ & _ & Hx & Hup & _).
  rewrite Hm in Hqa. apply lookup_delete_Some in Hqa as [Hne Hqa].
  rewrite (same_shape _ _ Hs) in Hup. destruct Hs as (Eb & _). rewrite Eb in Hx.
  assert (a = b) as ->; [|done]. eapply Honly; [exact Hqa|]. apply (closure_some _ _ (ok_tree _ Hok)).
  rewrite shape_lookup, fmap_is_Some. eauto.
Qed.

(** Revoking a membership takes effect at once in the services that rely on tenancy: when the revoked membership was the
    member's only way to a business, then there, after the revocation, a work token the member issued no longer syncs and
    changes no task, and no permission check of the automation service passes for the member. *)
Theorem revoked_member_locked_out actor b target x d0 d d' :
  tenancy_ok d0 -> tenancy_ok d -> evolves d0 d -> RevokeMember actor b target d0 d = (d', Ok tt) ->
  only_through d target b x ->
  (forall a req clock now w, ta_PrincipalID a = target -> ta_BusinessID a = x ->
     exists w' e, @Sync _ _ (tenancy_authz d') _ a req clock now w = (w', Err e) /\ w_tasks w' = w_tasks w) /\
  (forall root perm adb, @requirePermission (tenancy_authz d') target x root perm adb = Err ErrNotFound).
Proof.
  intros Hok0 Hok Hev Hr Honly. pose proof (RevokeMember_keeps actor b target False d0 d Hok0 Hok ltac:(done) Hev) as [Hok' _]. rewrite Hr in Hok'.
  simpl in Hok'. apply RevokeMember_effect in Hr as [Hrem _].
  assert (forall k, Has (Resolve (AsApp target) target x d') k = false) as Hno.
  { intros k. unfold Has. apply bool_decide_eq_false. intros Hk. pose proof (perm_not_nil _ _ _ _ Hk) as Hnil.
    apply (Resolve_spec (G := False)) in Hk; [|done|done]. exact (removed_nothing d d' target b x k Hok Hrem Honly Hk). }
  split.
  - intros a req clock now w Hp Hb. destruct (Sync a req clock now w) as [w' [resp|e]] eqn:Hs.
    + apply Sync_parts in Hs as [(acc & _ & _ & Hperm & _) _ _]. simpl in Hperm. rewrite Hp, Hb, Hno in Hperm. done.
    + exists w', e. split; [done|]. unfold Sync in Hs.
      destruct (_ <? _)%Z; [by injection Hs as <- _|]. destruct (_ <? _)%Z; [by injection Hs as <- _|].
      apply run_err in Hs. by rewrite Hs.
  - intros root perm adb. unfold requirePermission. destruct (negb _); [done|]. simpl. by rewrite Hno.
Qed.
End Composition.
