(* ===== verification/AccountTheorems.v ===== *)
(** * What the account and invitation services guarantee

    Rotation of refresh tokens and the end of a family, the single use of
    one-time tokens and invitations, the end of sessions on a password reset, and
    the password hash. *)

From S2P Require Import Prelude GoStrings GoBase64 GoTime GoJson AutoGraph Errors AutoEngine Concrete AutoStore AutoService AutoEvents WorkBoard.
From S2P Require Import TenantModel TenantService TenantTree TenantFacts TenantOps TenantMembers AuthTokens AccountService TenantApi TenantFootprint TenantSafety SessionFacts SessionSafety TenantDemo TenantTheorems.
#[local] Open Scope tx_scope.

Section Account.
Context `{UnicodeTables, UUIDLib, PgText, EventLib, AuthLib}.
Context (cfg : AccountConfig).

(** ** Refresh *)

(** The token a rotation adds. *)
Definition rotated (rid : uuid) (rt : refresh_row) (newRaw : string) (k : clock) : refresh_row :=
  {| rf_principal := rf_principal rt; rf_hash := HashToken newRaw; rf_family := rf_family rt; rf_parent := Some rid;
     rf_used := None; rf_revoked := None; rf_expires := GoTime.Add (go_now k) (cfg_RefreshTTL cfg); rf_created := db_now k |}.

Lemma run_plain {A : Type} (m : txm A) d t a :
  m {| tx_db := d; tx_deferred := ∅ |} = Ok (t, a) -> tx_deferred t = ∅ -> WithTx m d = (tx_db t, Ok a).
Proof. intros Hm Hd. unfold WithTx, run_tx. rewrite Hm. unfold commit. by rewrite Hd, elements_empty. Qed.

Lemma Refresh_unknown raw k e i d : token_of (t_refresh d) raw = None -> Refresh cfg raw k e i d = (d, Err ErrRefreshInvalid).
Proof.
  intros Hf. unfold Refresh, WithTx, run_tx, tx_bind, RotateRefresh, tx_bind, tx_or, tx_get, GetRefreshTokenByHashForUpdate.
  simpl. unfold token_of in Hf. by rewrite Hf.
Qed.

Lemma Refresh_stale raw k e i d rid rt :
  token_of (t_refresh d) raw = Some (rid, rt) -> stale rt k = true -> Refresh cfg raw k e i d = (d, Err ErrRefreshInvalid).
Proof.
  intros Hf Hs. unfold Refresh, WithTx, run_tx, tx_bind, RotateRefresh, tx_bind, tx_or, tx_get, GetRefreshTokenByHashForUpdate.
  simpl. unfold token_of in Hf. rewrite Hf. unfold stale in Hs. by rewrite Hs.
Qed.

Lemma Refresh_reused raw k e i d rid rt :
  token_of (t_refresh d) raw = Some (rid, rt) -> stale rt k = false -> rf_used rt <> None ->
  Refresh cfg raw k e i d =
    (set_refresh (revoke_where (fun r => N.eqb (rf_family r) (rf_family rt)) (db_now k) (t_refresh d)) d, Err ErrRefreshReuse).
Proof.
  intros Hf Hs Hu. unfold Refresh, WithTx, run_tx, tx_bind, RotateRefresh, tx_bind, tx_or, tx_get, GetRefreshTokenByHashForUpdate.
  simpl. unfold token_of in Hf. rewrite Hf. unfold stale in Hs. rewrite Hs. destruct (rf_used rt); [|done]. done.
Qed.

Lemma Refresh_rotates raw k b i d rid rt :
  token_of (t_refresh d) raw = Some (rid, rt) -> stale rt k = false -> rf_used rt = None ->
  t_refresh d !! i = None -> principal_exists d (rf_principal rt) = true ->
  (forall j s, t_refresh d !! j = Some s -> rf_hash s <> HashToken (of_bytes (base64url b))) ->
  Refresh cfg raw k (Some b) i d =
    (set_refresh (<[i := rotated rid rt (of_bytes (base64url b)) k]> (<[rid := mark_used (db_now k) rt]> (t_refresh d))) d,
     Ok {| tp_Access := Sign (cfg_Ring cfg) (rf_principal rt) (cfg_AccessTTL cfg) (go_now k);
           tp_Refresh := of_bytes (base64url b); tp_ExpiresIn := Z.quot (cfg_AccessTTL cfg) Second |}).
Proof.
  intros Hf Hs Hu Hi Hp Hh. pose proof (token_of_some _ _ _ _ Hf) as [Hrid _].
  unfold Refresh, WithTx, run_tx, tx_bind, RotateRefresh, tx_bind, tx_or, tx_get, GetRefreshTokenByHashForUpdate. simpl.
  unfold token_of in Hf. rewrite Hf. unfold stale in Hs. rewrite Hs, Hu. simpl.
  rewrite (mark_used_insert _ _ _ _ Hrid).
  assert (i <> rid) as Hne by (intros ->; congruence). unfold CreateRefreshToken, tx_put. simpl.
  rewrite lookup_insert_ne, Hi by done.
  assert (mexists (fun _ r => String.eqb (rf_hash r) (HashToken (of_bytes (base64url b))))
            (<[rid := mark_used (db_now k) rt]> (t_refresh d)) = false) as ->.
  { apply mexists_false. intros j s. destruct (decide (j = rid)) as [->|Hj];
      [rewrite lookup_insert_eq; intros [= <-]|rewrite lookup_insert_ne by done; intros Hjs]; apply String.eqb_neq; simpl; eauto. }
  unfold principal_exists in *. simpl. rewrite Hp, lookup_insert_eq. simpl. done.
Qed.

(** C40: Refreshing a session, by the state of the token presented.  An unknown, revoked or expired token is refused and
    nothing changes.  A token already used is a reuse: it is refused and every token of its family is revoked, durably.
    An unused token is marked used and replaced by a new one of its family and principal, after which no other token of
    the family is unused. *)
Theorem Refresh_correct raw k b i d :
  refresh_ok (t_refresh d) ->
  match token_of (t_refresh d) raw with
  | None => Refresh cfg raw k (Some b) i d = (d, Err ErrRefreshInvalid)
  | Some (rid, rt) =>
      if stale rt k then Refresh cfg raw k (Some b) i d = (d, Err ErrRefreshInvalid)
      else if bool_decide (is_Some (rf_used rt)) then
        exists d', Refresh cfg raw k (Some b) i d = (d', Err ErrRefreshReuse) /\
          forall j s, t_refresh d' !! j = Some s -> rf_family s = rf_family rt -> rf_revoked s <> None
      else
        t_refresh d !! i = None -> principal_exists d (rf_principal rt) = true ->
        (forall j s, t_refresh d !! j = Some s -> rf_hash s <> HashToken (of_bytes (base64url b))) ->
        exists d' tp, Refresh cfg raw k (Some b) i d = (d', Ok tp) /\ tp_Refresh tp = of_bytes (base64url b) /\
          t_refresh d' !! rid = Some (mark_used (db_now k) rt) /\ t_refresh d' !! i = Some (rotated rid rt (tp_Refresh tp) k) /\
          (forall j s, t_refresh d' !! j = Some s -> rf_family s = rf_family rt -> rf_used s = None -> j = i)
  end.
Proof.
  intros Hok. destruct (token_of (t_refresh d) raw) as [[rid rt]|] eqn:Hf; [|by apply Refresh_unknown].
  destruct (stale rt k) eqn:Hs; [by eapply Refresh_stale|]. destruct (bool_decide _) eqn:Hu.
  - apply bool_decide_eq_true in Hu as [u Hu]. eexists. split; [eapply Refresh_reused; [exact Hf|done|congruence]|]. simpl.
    intros j s Hj Hfam. apply revoke_where_lookup in Hj as (r & _ & _ & Hrf & _ & _ & Hr). apply Hr. left. apply N.eqb_eq. congruence.
  - apply bool_decide_eq_false, eq_None_not_Some in Hu. intros Hi Hp Hh. eexists _, _.
    split; [by apply Refresh_rotates|]. simpl. pose proof (token_of_some _ _ _ _ Hf) as [Hrid _].
    assert (i <> rid) as Hne by (intros ->; congruence).
    split_and!; [done|by rewrite lookup_insert_ne, lookup_insert_eq|by rewrite lookup_insert_eq|].
    assert (rf_revoked rt = None) as Hrev by (unfold stale in Hs; to_prop; by apply eq_None_not_Some).
    pose proof (rotate_step (t_refresh d) rid rt i (rotated rid rt (of_bytes (base64url b)) k) (db_now k)) as Hst.
    destruct (Hst Hrid Hu Hrev Hi eq_refl eq_refl eq_refl eq_refl Hh Hok) as [Hok' _].
    intros j s Hj Hfam Hsu. eapply (rk_live _ Hok' j i s); [exact Hj|by rewrite lookup_insert_eq|done|done|done].
Qed.

(** ** The end of a family *)

Lemma revoked_refused raw k e i d rid rt :
  refresh_ok (t_refresh d) -> t_refresh d !! rid = Some rt -> rf_hash rt = HashToken raw -> rf_revoked rt <> None ->
  Refresh cfg raw k e i d = (d, Err ErrRefreshInvalid).
Proof.
  intros Hok Hrid Hh Hrev. eapply Refresh_stale; [by apply token_of_row|]. unfold stale.
  rewrite bool_decide_eq_true_2; [done|]. destruct (rf_revoked rt); [eauto|done].
Qed.

(** The operations that end a family: presenting a used token, and logging out. *)
Inductive ends_family (d d' : tdb) (f : uuid) : Prop :=
| ends_by_reuse raw k e i rid rt : token_of (t_refresh d) raw = Some (rid, rt) -> rf_family rt = f ->
    Refresh cfg raw k e i d = (d', Err ErrRefreshReuse) -> stale rt k = false -> rf_used rt <> None -> ends_family d d' f
| ends_by_logout raw k rid rt : token_of (t_refresh d) raw = Some (rid, rt) -> rf_family rt = f ->
    Logout raw k d = (d', Ok tt) -> ends_family d d' f.

(** They revoke the tokens of the family. *)
Lemma ends_revokes d d' f :
  tokens_ok d -> ends_family d d' f ->
  tokens_ok d' /\ refresh_rel d d' /\ exists now, t_refresh d' = revoke_where (fun r => N.eqb (rf_family r) f) now (t_refresh d).
Proof.
  intros Hok [raw k e i rid rt Ht Hf Hr Hs Hu|raw k rid rt Ht Hf Hr].
  - pose proof (exec_tokens cfg (OpRefresh raw k e i) d d Hok I) as [Hok' _]. simpl in Hok'.
    pose proof (exec_refresh cfg (OpRefresh raw k e i) d d I) as Hrel. simpl in Hrel. rewrite Hr in Hok', Hrel.
    split_and!; [done|done|]. exists (db_now k). rewrite (Refresh_reused _ _ _ _ _ _ _ Ht Hs Hu) in Hr. injection Hr as <-. by rewrite Hf.
  - pose proof (exec_tokens cfg (OpLogout raw k) d d Hok I) as [Hok' _]. simpl in Hok'.
    pose proof (exec_refresh cfg (OpLogout raw k) d d I) as Hrel. simpl in Hrel. rewrite Hr in Hok', Hrel.
    split_and!; [done|done|]. exists (db_now k).
    apply run_tx_ok in Hr as (t & Hr & _ & ->). unfold RevokeRefreshByToken in Hr. tx_inv. subst. simpl in Hk.
    unfold token_of in Ht. rewrite Ht in Hk. by apply revoke_family_ok in Hk as ->.
Qed.

(** Once a family has ended, by the reuse of one of its tokens or by a logout, no later database of the history lets
    any of its tokens refresh the session that were in the snapshot [d1] of the statement that revoked them.  A token that
    a concurrent rotation inserted after that snapshot lives on. *)
Theorem ended_family_stays_dead d d1 d' f h h' d'' raw k e i rid rt :
  tokens_ok d -> ends_family d d' f -> t_refresh d !! rid = Some rt -> rf_family rt = f -> rf_hash rt = HashToken raw ->
  is_Some (t_refresh d1 !! rid) -> rtc (api_step cfg) (missed d1 d d' :: h) (d'' :: h') ->
  Refresh cfg raw k e i d'' = (d'', Err ErrRefreshInvalid).
Proof.
  intros Hok He Hrid Hf Hh [r1 Hr1] Hr. destruct (ends_revokes _ _ _ Hok He) as ((_ & Hot & Hiv) & Hrel & now & Hrf).
  assert (tokens_ok (missed d1 d d')) as Hok' by (split; [by apply (missed_step d1 d d' Hrel), Hok|done]).
  destruct (later_tokens cfg _ _ Hr _ h eq_refl Hok') as (x & rest & [= <- <-] & (Hok2 & _) & Hg & _).
  assert (exists r, t_refresh (missed d1 d d') !! rid = Some r /\ rf_hash r = HashToken raw /\ rf_revoked r <> None) as (r & Hi & Hhr & Hrev).
  { rewrite missed_lookup, Hr1, Hrf. unfold revoke_where. rewrite lookup_mupdate, Hrid. simpl. rewrite Hf, N.eqb_refl. unfold not_revoked.
    destruct (rf_revoked rt) eqn:Hrr; simpl; eexists; split_and!; try done; congruence. }
  destruct (Hg _ _ Hi) as (r' & Hi' & Hh' & _ & _ & _ & _ & Hrev').
  eapply revoked_refused; [exact Hok2|exact Hi'|congruence|by apply Hrev'].
Qed.

(** ** One-time tokens and invitations *)

(** A one-time token is good for one use: after an operation that consumed it succeeded (verifying an address, resetting
    a password, changing the address, signing in by link), every operation of any later database that presents it
    again, for whatever purpose, is refused as invalid and changes nothing. *)
Theorem one_time_single_use o o' raw d0 d d' h h' d'' d0'' :
  tokens_ok d -> fresh_draws o d -> consumes o = Some raw -> exec cfg o d0 d = (d', None) ->
  rtc (api_step cfg) (d' :: h) (d'' :: h') -> consumes o' = Some raw ->
  exists e, exec cfg o' d0'' d'' = (d'', Some e) /\ is_validation e = true.
Proof.
  intros Hok Hf Hc He Hr Hc'. pose proof (exec_tokens cfg o d0 d Hok Hf) as [Hok' _]. rewrite He in Hok'.
  destruct (later_tokens cfg _ _ Hr d' h eq_refl Hok') as (x & rest & [= <- <-] & Hg).
  apply (exec_spent cfg o' raw); [apply Hg|done|]. eapply spent_token_grows; [done|].
  eapply (exec_consumes cfg o raw d0 d); [apply Hok|done|done].
Qed.

Lemma Accept_ok p token m k d d' r :
  Accept p token m k d = (d', Ok r) -> ar_Status r = "ok" ->
  exists t id acct, GetAccountByPrincipal p d = Ok (id, acct) /\ at_verified acct <> None /\ d' = tx_db t /\
    accept_invitation (HashToken (TrimSpace token)) p (at_email acct) m (db_now k) {| tx_db := d; tx_deferred := ∅ |} =
      Ok (t, ("ok", ar_BusinessID r, ar_RoleID r)).
Proof.
  unfold Accept. cbv zeta. destruct (String.eqb _ _); [done|]. intros Hr Hst. apply run_tx_ok in Hr as (t & Hr & _ & ->).
  tx_inv. destruct a as [id acct]. destruct (at_verified acct) eqn:Hv; tx_inv; [|done].
  destruct a as [[st b] rr]. tx_inv. simpl in *. subst st. eexists _, id, acct. split_and!; [done|congruence|reflexivity|eassumption].
Qed.

(** An invitation that is accepted was pending and unexpired, is addressed to the verified address of the one who
    accepts, and leads to a business that is neither deleted nor archived; the account becomes a member with the invited
    role, unless it already was one, and no other membership changes; and in no later database can anybody accept it
    again. *)
Theorem invitation_single_use p token m k d d' r :
  tokens_ok d -> Accept p token m k d = (d', Ok r) -> ar_Status r = "ok" ->
  (exists id acct inv biz m', GetAccountByPrincipal p d = Ok (id, acct) /\ at_verified acct <> None /\
     iv_hash inv = HashToken (TrimSpace token) /\ citext_eq (iv_email inv) (at_email acct) = true /\
     iv_status inv = "pending" /\ (db_now k < iv_expires inv)%Z /\
     t_business d !! iv_business inv = Some biz /\ bz_deleted biz = None /\ bz_status biz <> "archived" /\
     t_membership d' !! (p, iv_business inv) = Some m' /\
     (t_membership d !! (p, iv_business inv) = None -> mb_role m' = iv_role inv) /\
     (forall q, q <> (p, iv_business inv) -> t_membership d' !! q = t_membership d !! q)) /\
  (forall h h' d'' p' m' k', rtc (api_step cfg) (d' :: h) (d'' :: h') ->
     fst (Accept p' token m' k' d'') = d'' /\ forall r', snd (Accept p' token m' k' d'') = Ok r' -> ar_Status r' <> "ok").
Proof.
  intros Hok Ha Hst. pose proof (exec_tokens cfg (OpAccept p token m k) d d Hok I) as [Hok' _]. simpl in Hok'. rewrite Ha in Hok'.
  destruct (Accept_ok _ _ _ _ _ _ _ Ha Hst) as (t & id & acct & Hacc & Hv & -> & Hr).
  apply accept_invitation_ok in Hr as (iid & inv & biz & Hinv & Hh & He & Hp & Hexp & Hb & Hdel & Har & _ & _ & Hnew & m' & Hm' & Hoth & Hmm).
  split.
  - exists id, acct, inv, biz, m'. split_and!; try done. intros Hnone. simpl in Hmm. rewrite Hnone in Hmm. by destruct Hmm.
  - intros h h' d'' p' m2 k' Hrtc. destruct (later_tokens cfg _ _ Hrtc _ h eq_refl Hok') as (x & rest & [= <- <-] & Hg).
    apply Accept_spent; [apply Hg|]. eapply spent_invitation_grows; [done|].
    exists iid, (with_status "accepted" (Some (db_now k)) inv). simpl in Hnew. rewrite Hnew, lookup_insert_eq. done.
Qed.

(** ** Password reset *)

Lemma ConfirmPasswordReset_ok raw pw salt k d d' :
  ConfirmPasswordReset raw pw salt k d = (d', Ok tt) ->
  exists i tok a p, t_onetime d !! i = Some tok /\ ot_hash tok = HashToken raw /\ ot_purpose tok = "password_reset" /\
    ot_account tok = Some a /\ GetPrincipalByAccount a d = Ok p /\
    t_refresh d' = revoke_where (fun r => N.eqb (rf_principal r) p) (db_now k) (t_refresh d) /\
    t_account d' = mupdate (fun x row => N.eqb x a && undeleted row)
      (fun row => {| at_email := at_email row; at_verified := at_verified row; at_password := Some (HashPassword pw salt);
                     at_name := at_name row; at_status := at_status row; at_deleted := at_deleted row |}) (t_account d).
Proof.
  unfold ConfirmPasswordReset. destruct (_ <? _)%Z; [done|]. intros Hr. apply run_tx_ok in Hr as (t & Hr & _ & ->). tx_inv.
  apply ConsumeOneTimeToken_ok in Hm as (i & o0 & Hi & Hh & Hp & _ & _ & -> & ->). simpl in *.
  destruct (ot_account o0) as [acc|] eqn:Hacc; [|done]. tx_inv. unfold UpdatePasswordHash, update_account in Hm.
  apply tx_put_ok in Hm as (d1 & Hd & ->). injection Hd as <-. simpl in *. last_step t Ha. apply revoke_all_ok in Ha as ->. simpl.
  exists i, o0, acc, a0. split_and!; try done.
Qed.

(** After a password reset the sessions that existed are over: no refresh token of the account's principal that was
    there can refresh in any later database; and the account's password is now the new one. *)
Theorem reset_ends_sessions raw pw salt k d d' :
  tokens_ok d -> ConfirmPasswordReset raw pw salt k d = (d', Ok tt) ->
  exists a p, GetPrincipalByAccount a d = Ok p /\
    (forall row, t_account d !! a = Some row -> at_deleted row = None ->
       exists row', t_account d' !! a = Some row' /\ at_password row' = Some (HashPassword pw salt)) /\
    (forall h h' d'' i rt old k' e j, t_refresh d !! i = Some rt -> rf_principal rt = p -> rf_hash rt = HashToken old ->
       rtc (api_step cfg) (d' :: h) (d'' :: h') -> Refresh cfg old k' e j d'' = (d'', Err ErrRefreshInvalid)).
Proof.
  intros Hok Hr. pose proof (exec_tokens cfg (OpConfirmReset raw pw salt k) d d Hok I) as [Hok' _]. simpl in Hok'. rewrite Hr in Hok'.
  apply ConfirmPasswordReset_ok in Hr as (ti & tok & a & p & _ & _ & _ & _ & Hp & Hrf & Hacc). exists a, p.
  split_and!; [done| |].
  - intros row Hrow Hdel. rewrite Hacc, lookup_mupdate, Hrow. simpl. unfold undeleted. rewrite N.eqb_refl, Hdel. simpl. eauto.
  - intros h h' d'' i rt old k' e j Hi Hpr Hh Hrtc.
    destruct (later_tokens cfg _ _ Hrtc _ h eq_refl Hok') as (x & rest & [= <- <-] & Hg). destruct Hg as (Hokx & Hgr & _).
    assert (exists r1, t_refresh d' !! i = Some r1 /\ rf_hash r1 = rf_hash rt /\ rf_revoked r1 <> None) as (r1 & Hr1 & Hh1 & Hrev1).
    { rewrite Hrf. unfold revoke_where. setoid_rewrite lookup_mupdate. rewrite Hi. simpl. rewrite Hpr, N.eqb_refl. unfold not_revoked.
      destruct (rf_revoked rt) eqn:Hrr; simpl; eexists; split_and!; try done; congruence. }
    destruct (Hgr _ _ Hr1) as (r2 & Hr2 & Hh2 & _ & _ & _ & _ & Hrev2).
    eapply revoked_refused; [apply Hokx|exact Hr2|congruence|by apply Hrev2].
Qed.

(** ** Passwords *)

Lemma decode_hash_of pw salt :
  decodeHash (HashPassword pw salt) =
  Ok (salt, argon2_IDKey (bytes pw) salt argonTime argonMemory argonThreads argonKeyLen, argonMemory, argonTime, argonThreads).
Proof.
  unfold decodeHash, HashPassword. rewrite !bytes_app, !bytes_of_bytes.
  set (key := argon2_IDKey _ _ _ _ _ _).
  assert (bytes "$argon2id$v=19$m=" ++ bytes (itoa argonMemory) ++ bytes ",t=" ++ bytes (itoa argonTime) ++ bytes ",p=" ++
          bytes (itoa argonThreads) ++ bytes "$" ++ base64std salt ++ bytes "$" ++ base64std key =
          [] ++ "$"%char :: bytes "argon2id" ++ "$"%char :: bytes "v=19" ++ "$"%char :: bytes "m=65536,t=3,p=1" ++
          "$"%char :: base64std salt ++ "$"%char :: base64std key) as -> by reflexivity.
  rewrite !split_sep; try apply base64std_no_dollar;
    try (intros Hin; apply list_elem_of_In in Hin; vm_compute in Hin; intuition discriminate).
  rewrite split_plain by apply base64std_no_dollar. cbn [negb].
  rewrite bool_decide_eq_true_2 by done. cbn [negb]. replace (scan_params _) with (Some (65536, 3, 1)%Z) by (vm_compute; reflexivity).
  by rewrite !base64std_roundtrip.
Qed.

(** A password verifies against its own hash, whatever its bytes and the salt; and another password verifies against it
    exactly when argon2 derives the same key from it. *)
Theorem password_roundtrip pw pw' salt :
  VerifyPassword pw (HashPassword pw salt) = Ok tt /\
  (VerifyPassword pw' (HashPassword pw salt) = Ok tt <->
   argon2_IDKey (bytes pw') salt argonTime argonMemory argonThreads argonKeyLen =
   argon2_IDKey (bytes pw) salt argonTime argonMemory argonThreads argonKeyLen).
Proof.
  assert (forall q, VerifyPassword q (HashPassword pw salt) = Ok tt <->
    argon2_IDKey (bytes q) salt argonTime argonMemory argonThreads argonKeyLen =
    argon2_IDKey (bytes pw) salt argonTime argonMemory argonThreads argonKeyLen) as Hv.
  { intros q. unfold VerifyPassword. rewrite decode_hash_of, argon2_length by (unfold argonKeyLen; lia).
    change (argonKeyLen mod 2 ^ 32)%Z with argonKeyLen. destruct (bool_decide _) eqn:Hb.
    - apply bool_decide_eq_true in Hb. done.
    - apply bool_decide_eq_false in Hb. split; [done|]. intros He. congruence. }
  split; [by apply Hv|apply Hv].
Qed.
End Account.
