(* ===== verification/TenantWitness.v ===== *)
(** * The theorems on tenancy and accounts, applied; and behaviours that differ
    from what the documentation says

    Each theorem that has hypotheses is applied to the run of [TenantDemo]; then
    come runs in which the code does something else than its comments, its
    specification or a sibling operation promise. *)

From S2P Require Import Prelude GoStrings GoBase64 GoTime GoJson AutoGraph Errors AutoEngine Concrete AutoStore AutoService AutoEvents WorkFields WorkBoard WorkSync WorkTheorems.
From S2P Require Import TenantModel TenantService TenantTree TenantFacts TenantOps TenantMembers AuthTokens AccountService TenantApi TenantFootprint TenantSafety SessionFacts SessionSafety TenantDemo TenantTheorems.
From S2P Require Import TenantListing TenantAccess AccountTheorems.
#[local] Existing Instances demo_unicode demo_uuid tenant_text tenant_events tenant_auth demo_clock.

(** A call that returned a value. *)
Lemma returned {A : Type} (r : tdb * result error A) (a : A) : snd r = Ok a -> r = (fst r, Ok a).
Proof. destruct r. simpl. by intros ->. Qed.

Lemma outcome_fst {A : Type} (r : tdb * result error A) : fst (outcome r) = fst r.
Proof. done. Qed.

Lemma outcome_ok {A : Type} (r : tdb * result error A) (a : A) : snd r = Ok a -> outcome r = (fst r, None).
Proof. unfold outcome. by intros ->. Qed.

Lemma t_demo_tokens : tokens_ok t_demo.
Proof.
  pose proof (play_steps t_ops [t_seed] ltac:(vm_compute; reflexivity)) as Hr.
  destruct (later_tokens tenant_cfg _ _ Hr t_seed [] eq_refl) as (d' & rest & He & Hg); [apply seed_tokens|].
  unfold t_demo, t_history. rewrite He. apply Hg.
Qed.

(** Alice creates an agent (90) for East, and Bob refreshes his session twice.
    Somebody presents the first token again: the call finds it used, and its
    revocation waits for the second rotation, whose token is not in its snapshot. *)
Definition agent_input : CreateAgentInput :=
  {| ca_Name := "Triage"; ca_Provider := "anthropic"; ca_Model := "m"; ca_SystemPrompt := ""; ca_AllowedTools := None;
     ca_AutonomyMode := 1; ca_Enabled := true; ca_MonthlyBudgetCents := 500; ca_AllowedMCPServers := None;
     ca_RetriageOnReply := false; ca_WebAllowedDomains := None |}.
Definition create_agent : api_op := OpCreateAgent 11 21 agent_input None (fun _ => None) 92 90 91 (20 * Second)%Z.
Definition first_rotation : list api_op := [create_agent; OpRefresh (token 3) (at_ 20) (draw 4) 72].
Definition second_rotation : api_op := OpRefresh (token 4) (at_ 21) (draw 5) 73.
Definition rotated_once : tdb := now_of (play (t_ops ++ first_rotation) [t_seed]).
Definition rotated_history : list tdb := play (t_ops ++ first_rotation ++ [second_rotation]) [t_seed].
Definition rotated_twice : tdb := now_of rotated_history.
Definition reuse : api_op := OpRefresh (token 3) (at_ 22) (draw 6) 74.
Definition stale_revocation : tdb := missed rotated_once rotated_twice (fst (exec tenant_cfg reuse rotated_twice rotated_twice)).

Lemma rotated_steps : rtc (api_step tenant_cfg) [t_seed] rotated_history.
Proof. apply play_steps. vm_compute. reflexivity. Qed.
Lemma rotated_parts : exists rest, rotated_history = rotated_twice :: rotated_once :: rest.
Proof. eexists. reflexivity. Qed.
Lemma stale_step : rtc (api_step tenant_cfg) [t_seed] (stale_revocation :: rotated_history).
Proof.
  eapply rtc_r; [exact rotated_steps|]. destruct rotated_parts as [rest ->]. constructor; [by left|by right; left|exact I].
Qed.

Lemma tenancy_invariant_witness :
  tenancy_ok stale_revocation /\ tokens_ok stale_revocation /\
  option_map pr_kind (t_principal stale_revocation !! 90%N) = Some "agent" /\
  option_map mb_role (t_membership stale_revocation !! (90%N, 21%N)) = Some 5%N.
Proof.
  pose proof (tenancy_invariant tenant_cfg t_ids (stale_revocation :: rotated_history) t_ids_distinct stale_step) as Hall.
  apply Forall_inv in Hall as [Hok Htok]. split; [exact Hok|]. split; [exact Htok|]. split; vm_compute; reflexivity.
Defined.

Definition plainb (d : tdb) : bool :=
  negb (mexists (fun k m => match t_role d !! mb_role m with Some r => rl_locked r && negb (String.eqb (rl_key r) "owner") | None => false end)
          (t_membership d)).
Lemma plainb_plain d : plainb d = true -> plain d.
Proof.
  unfold plainb. rewrite negb_true_iff, mexists_false. intros Hf p b row m r _ _ Hm Hr Hl. specialize (Hf _ _ Hm).
  rewrite Hr, Hl in Hf. simpl in Hf. by apply negb_false_iff, String.eqb_eq in Hf.
Qed.

Lemma tenants_keep_owners_witness : Forall has_owners t_history.
Proof.
  apply (tenants_keep_owners tenant_cfg t_ids t_history t_ids_distinct).
  - apply play_steps. vm_compute. reflexivity.
  - apply (Forall_impl (fun d => plainb d = true)); [|apply plainb_plain]. apply List.Forall_forall. rewrite <- forallb_forall. vm_compute. reflexivity.
Defined.

(** West goes under East. *)
Definition t_moved : tdb := fst (Move 11 22 21 (20 * Second) t_demo t_demo).
Lemma Move_correct_witness :
  in_subtree t_demo 21 22 = false /\ in_subtree t_moved 21 22 = true /\ tenancy_ok t_moved.
Proof.
  assert (Move 11 22 21 (20 * Second) t_demo t_demo = (t_moved, Ok tt)) as Hm.
  { unfold t_moved. apply returned. vm_compute. reflexivity. }
  destruct (Move_correct 11 22 21 (20 * Second) t_demo t_demo t_moved t_demo_ok t_demo_ok ltac:(reflexivity) Hm)
    as (Hok & _ & _ & _ & _ & Hsub & _).
  split; [vm_compute; reflexivity|]. split; [|exact Hok]. rewrite Hsub. vm_compute. reflexivity.
Defined.

Lemma t_demo_history : rtc (api_step tenant_cfg) [t_seed] t_history.
Proof. apply play_steps. vm_compute. reflexivity. Qed.
Lemma t_demo_last : t_demo ∈ t_history.
Proof. destruct (play_cons t_ops [t_seed]) as [rest He]; [done|]. unfold t_demo, t_history. rewrite He. by left. Qed.


Lemma businesses_with_permission_agrees_witness : businesses_with_permission t_demo 31 "roles.manage" 21 = true.
Proof.
  apply (businesses_with_permission_agrees t_demo 31 21 "roles.manage" t_demo_ok); [done| |].
  - apply (bool_decide_eq_true _). vm_compute. reflexivity.
  - apply (bool_decide_eq_true _). vm_compute. reflexivity.
Defined.

(** Alice makes Bob a viewer. *)
Definition t_viewer : tdb := fst (ChangeMemberRole 11 21 31 4 t_demo t_demo).
Lemma membership_no_escalation_witness :
  ChangeMemberRole 11 21 31 4 t_demo t_demo = (t_viewer, Ok tt) /\ (holds t_viewer 31 21 "business.read" ->
    holds t_demo 31 21 "business.read" \/
    (31%N = 31%N /\ is_Some (t_closure t_demo !! (21%N, 21%N)) /\ holds t_demo 11 21 "business.read")).
Proof.
  assert (ChangeMemberRole 11 21 31 4 t_demo t_demo = (t_viewer, Ok tt)) as Hc.
  { unfold t_viewer. apply returned. vm_compute. reflexivity. }
  split; [exact Hc|]. exact (proj1 (membership_no_escalation 11 21 31 4 t_demo t_demo t_demo_ok) t_viewer 31%N 21%N "business.read" Hc).
Defined.

Definition t_members : list Member := match snd (ListMembers 11 21 t_demo) with Ok ms => ms | Err _ => [] end.
Lemma ListMembers_exact_witness : map me_PrincipalID t_members = [11%N; 31%N] /\ NoDup (map me_PrincipalID t_members).
Proof.
  split; [vm_compute; reflexivity|].
  refine (proj1 (proj2 (ListMembers_exact 11 21 t_demo (fst (ListMembers 11 21 t_demo)) t_members t_demo_ok _))).
  apply returned. vm_compute. reflexivity.
Defined.

Lemma t_demo_locks : locks_ok t_demo.
Proof. destruct (history_ok tenant_cfg t_ids t_history t_ids_distinct t_demo_history) as [_ Hlk]. rewrite Forall_forall in Hlk. apply Hlk, t_demo_last. Qed.

(** Bob sees East and not West: to him West is not there; East, of which he is
    Admin, is for the Owner to delete. *)
Lemma no_existence_oracle_witness :
  exec tenant_cfg (OpArchive 31 22 0) t_demo t_demo = (t_demo, Some ErrNotFound) /\
  exec tenant_cfg (OpDelete 31 21 0) t_demo t_demo = (t_demo, Some ErrNotFound).
Proof.
  split.
  - refine (proj1 (no_existence_oracle tenant_cfg t_ids t_history (OpArchive 31 22 0) 31 22 t_demo t_demo t_ids_distinct t_demo_history
             t_demo_last t_demo_last eq_refl) _).
    intros Hs. apply (visible_spec t_demo 31 22 t_demo_ok) in Hs. vm_compute in Hs. discriminate Hs.
  - refine (proj2 (no_existence_oracle tenant_cfg t_ids t_history (OpDelete 31 21 0) 31 21 t_demo t_demo t_ids_distinct t_demo_history
             t_demo_last t_demo_last eq_refl) _ _).
    + apply (visible_spec t_demo 31 21 t_demo_ok). vm_compute. reflexivity.
    + intros Hp. apply (permitted_spec t_demo 31 21 "business.delete" t_demo_ok) in Hp; [|exact t_demo_locks|done].
      revert Hp. apply (bool_decide_eq_false _). vm_compute. reflexivity.
Defined.

(** Bob is removed from East, and his work tokens with him. *)
Definition t_revoked : tdb := fst (RevokeMember 11 21 31 t_demo t_demo).
Definition bob_token : TokenAuth :=
  {| ta_TokenID := 1; ta_ProjectID := 1; ta_BusinessID := 21; ta_TenantRootID := 20; ta_PrincipalID := 31 |}.
Lemma revoked_member_locked_out_witness :
  exists w' e, @Sync _ _ (tenancy_authz t_revoked) _ bob_token {| sr_Since := 0; sr_Ops := [] |} 0 0 demo_board = (w', Err e) /\
    w_tasks w' = w_tasks demo_board.
Proof.
  refine (proj1 (revoked_member_locked_out 11 21 31 21 t_demo t_demo t_revoked t_demo_ok t_demo_ok _ _ _) bob_token _ _ _ _ eq_refl eq_refl).
  - reflexivity.
  - unfold t_revoked. apply returned. vm_compute. reflexivity.
  - intros a m Hm Hc.
    assert (mexists (fun k _ => N.eqb (fst k) 31 && negb (N.eqb (snd k) 21)) (t_membership t_demo) = false) as Hn by (vm_compute; reflexivity).
    rewrite mexists_false in Hn. specialize (Hn _ _ Hm). simpl in Hn. apply negb_false_iff, N.eqb_eq in Hn. exact Hn.
Defined.

(** Bob refreshes his session. *)
Definition bob_session : refresh_row :=
  {| rf_principal := 31; rf_hash := HashToken (token 3); rf_family := 71; rf_parent := None; rf_used := None;
     rf_revoked := None; rf_expires := (10 * Second + 30 * 24 * Hour)%Z; rf_created := (10 * Second)%Z |}.
Lemma bob_session_token : token_of (t_refresh t_demo) (token 3) = Some (70%N, bob_session).
Proof. vm_compute. reflexivity. Qed.
Lemma no_such_hash n :
  mexists (fun _ r => String.eqb (rf_hash r) (HashToken (token n))) (t_refresh t_demo) = false ->
  forall j s, t_refresh t_demo !! j = Some s -> rf_hash s <> HashToken (token n).
Proof. intros Hn j s Hj He. rewrite mexists_false in Hn. specialize (Hn _ _ Hj). cbv beta in Hn.
  rewrite He, String.eqb_refl in Hn. discriminate Hn. Qed.

Lemma Refresh_correct_witness :
  exists d' tp, Refresh tenant_cfg (token 3) (at_ 20) (draw 4) 72 t_demo = (d', Ok tp) /\ tp_Refresh tp = token 4.
Proof.
  pose proof (Refresh_correct tenant_cfg (token 3) (at_ 20) (repeat (ascii_of_nat 4) 32) 72 t_demo (proj1 t_demo_tokens)) as Hr.
  rewrite bob_session_token in Hr.
  replace (stale bob_session (at_ 20)) with false in Hr by (vm_compute; reflexivity).
  replace (bool_decide (is_Some (rf_used bob_session))) with false in Hr by (vm_compute; reflexivity).
  destruct Hr as (d' & tp & Hr & Htp & _).
  - vm_compute. reflexivity.
  - vm_compute. reflexivity.
  - apply (no_such_hash 4). vm_compute. reflexivity.
  - exists d', tp. split; [exact Hr|exact Htp].
Defined.

(** The old token is presented again: the session is over, also for the new one. *)
Definition t_refreshed : tdb := fst (Refresh tenant_cfg (token 3) (at_ 20) (draw 4) 72 t_demo).
Definition t_reused : tdb := fst (Refresh tenant_cfg (token 3) (at_ 21) (draw 5) 73 t_refreshed).
Definition used_session : refresh_row := mark_used (20 * Second) bob_session.
Lemma t_refreshed_tokens : tokens_ok t_refreshed.
Proof. pose proof (proj1 (exec_tokens tenant_cfg (OpRefresh (token 3) (at_ 20) (draw 4) 72) t_demo t_demo t_demo_tokens I)) as Hx. unfold exec in Hx. rewrite outcome_fst in Hx. exact Hx. Qed.
Lemma t_reused_ends : ends_family tenant_cfg t_refreshed t_reused 71.
Proof.
  apply (ends_by_reuse _ _ _ _ (token 3) (at_ 21) (draw 5) 73 70 used_session); try (vm_compute; reflexivity).
  discriminate.
Qed.

Definition new_session : refresh_row :=
  {| rf_principal := 31; rf_hash := HashToken (token 4); rf_family := 71; rf_parent := Some 70%N; rf_used := None;
     rf_revoked := None; rf_expires := (20 * Second + 30 * 24 * Hour)%Z; rf_created := (20 * Second)%Z |}.
Lemma ended_family_stays_dead_witness :
  Refresh tenant_cfg (token 4) (at_ 22) (draw 6) 74 t_reused = (t_reused, Err ErrRefreshInvalid).
Proof.
  apply (ended_family_stays_dead tenant_cfg t_refreshed t_refreshed t_reused 71 [] [] t_reused (token 4) (at_ 22) (draw 6) 74 72 new_session
           t_refreshed_tokens t_reused_ends); [vm_compute; reflexivity|reflexivity|reflexivity|exists new_session; vm_compute; reflexivity|].
  rewrite missed_none. apply rtc_refl.
Defined.

(** Bob asks for a reset of his password and carries it out. *)
Definition t_asked : tdb := fst (RequestPasswordReset tenant_cfg "bob@example.com" (at_ 20) (draw 8) 33 t_demo).
Definition t_reset : tdb := fst (ConfirmPasswordReset (token 8) "a new password" demo_salt (at_ 21) t_asked).
Lemma t_asked_tokens : tokens_ok t_asked.
Proof. pose proof (proj1 (exec_tokens tenant_cfg (OpRequestReset "bob@example.com" (at_ 20) (draw 8) 33) t_demo t_demo t_demo_tokens I)) as Hx. unfold exec in Hx. rewrite outcome_fst in Hx. exact Hx. Qed.

Lemma one_time_single_use_witness :
  exists e, exec tenant_cfg (OpConsumeMagicLink (token 8) (at_ 22) (draw 9) 75 76) t_reset t_reset = (t_reset, Some e) /\
    is_validation e = true.
Proof.
  apply (one_time_single_use tenant_cfg (OpConfirmReset (token 8) "a new password" demo_salt (at_ 21))
           (OpConsumeMagicLink (token 8) (at_ 22) (draw 9) 75 76) (token 8) t_asked t_asked t_reset [] [] t_reset t_reset);
    [exact t_asked_tokens|exact I|reflexivity| |apply rtc_refl|reflexivity].
  unfold exec, t_reset. apply (outcome_ok _ tt). vm_compute. reflexivity.
Defined.

Lemma reset_ends_sessions_witness :
  exists a p, GetPrincipalByAccount a t_asked = Ok p /\
    (rf_principal bob_session = p -> Refresh tenant_cfg (token 3) (at_ 22) (draw 9) 75 t_reset = (t_reset, Err ErrRefreshInvalid)).
Proof.
  destruct (reset_ends_sessions tenant_cfg (token 8) "a new password" demo_salt (at_ 21) t_asked t_reset t_asked_tokens) as (a & p & Hp & _ & Hs).
  - unfold t_reset. apply returned. vm_compute. reflexivity.
  - exists a, p. split; [exact Hp|]. intros He. apply (Hs [] [] t_reset 70%N bob_session (token 3)); [vm_compute; reflexivity|exact He|reflexivity|apply rtc_refl].
Defined.

(** Alice invites Bob to Acme too. *)
Definition t_invited : tdb := fst (Create_invitation 0 11 20 3 "bob@example.com" "again" 66 (at_ 20) t_demo).
Definition t_joined : tdb := fst (Accept 31 "again" 46 (at_ 21) t_invited).
Definition joined_result : AcceptResult := {| ar_Status := "ok"; ar_BusinessID := Some 20%N; ar_RoleID := Some 3%N |}.
Lemma t_invited_tokens : tokens_ok t_invited.
Proof. pose proof (proj1 (exec_tokens tenant_cfg (OpInvite 0 11 20 3 "bob@example.com" "again" 66 (at_ 20)) t_demo t_demo t_demo_tokens I)) as Hx. unfold exec in Hx. rewrite outcome_fst in Hx. exact Hx. Qed.

Lemma invitation_single_use_witness : fst (Accept 31 "again" 47 (at_ 22) t_joined) = t_joined.
Proof.
  apply (proj2 (invitation_single_use tenant_cfg 31 "again" 46 (at_ 21) t_invited t_joined joined_result t_invited_tokens
           ltac:(unfold t_joined; apply returned; vm_compute; reflexivity) eq_refl) [] [] t_joined 31%N 47%N (at_ 22) (rtc_refl _ _)).
Defined.

(** ** Behaviours that differ from what the documentation says

    Runs of the services, from the example of [TenantDemo], in which the code
    does something else than its comments, its specification or a sibling
    operation promise. *)

(** The database after more calls, each of which succeeded. *)
Definition after (ops : list api_op) (d : tdb) : tdb := now_of (play ops [d]).
Definition all_succeed (ops : list api_op) (d : tdb) : bool :=
  forallb (fun e => match e with None => true | Some _ => false end) (errors_of ops d).
Definition can (p x : uuid) (k : string) (d : tdb) : bool := Has (Resolve (AsApp p) p x d) k.

(** ** Editing a role reaches beyond the editor's business

    Bob is Admin of East (21) and, at Acme (20), has a custom role that lets him
    read.  At East he may manage roles, and the role belongs to the tenant: he
    gives it [members.manage], which he then holds at Acme and at West (22). *)

Definition custom_setup : list api_op :=
  [OpCreateRole 11 20 "Reader" ["business.read"] 8 "abcd";
   OpInvite 0 11 20 8 "bob@example.com" "invite-2" 61 (at_ 20);
   OpAccept 31 "invite-2" 42 (at_ 21)].
Definition custom_db : tdb := after custom_setup t_demo.
Definition raise_role : api_op := OpUpdateRole 31 21 8 None (Some ["business.read"; "members.manage"]).

Theorem UpdateRole_escalates :
  all_succeed (custom_setup ++ [raise_role]) t_demo = true /\
  can 31 20 "members.manage" custom_db = false /\ can 31 22 "members.manage" custom_db = false /\
  can 31 20 "members.manage" (after [raise_role] custom_db) = true /\
  can 31 22 "members.manage" (after [raise_role] custom_db) = true.
Proof. vm_compute. done. Qed.

(** ** Inviting an Owner without being one

    A role with every permission of the Owner role is not the Owner role: its
    holder may not make a member an Owner, but may invite one. *)

Definition deputy_setup : list api_op :=
  [OpCreateRole 11 20 "Deputy" (map fst (map_to_list seed_permissions)) 6 "abcd";
   OpInvite 0 11 20 6 "bob@example.com" "invite-3" 62 (at_ 20);
   OpAccept 31 "invite-3" 43 (at_ 21)].
Definition deputy_db : tdb := after deputy_setup t_demo.

Theorem invite_owner_by_non_owner :
  all_succeed deputy_setup t_demo = true /\ HasOwnerRole (AsApp 31) 31 20 deputy_db = false /\
  snd (exec tenant_cfg (OpChangeRole 31 20 31 1) deputy_db deputy_db) =
    Some (conflict "assigning the Owner role is reserved to Owners") /\
  snd (exec tenant_cfg (OpInvite 0 31 20 1 "carol@example.com" "invite-4" 63 (at_ 22)) deputy_db deputy_db) = None.
Proof. vm_compute. done. Qed.

(** ** Both Owners of a tenant may deactivate *)

Definition second_owner : list api_op :=
  [OpInvite 0 11 20 1 "bob@example.com" "invite-5" 64 (at_ 20); OpAccept 31 "invite-5" 44 (at_ 21)].

Theorem all_owners_deactivated :
  all_succeed (second_owner ++ [OpDeactivate 31; OpDeactivate 11]) t_demo = true /\
  let d := after (second_owner ++ [OpDeactivate 31; OpDeactivate 11]) t_demo in
  map (fun km => (fst (fst km), option_map (fun a => at_status (snd a)) (principal_account d (fst (fst km)))))
    (mselect (fun k m => N.eqb (snd k) 20) (t_membership d)) = [(11%N, Some "deactivated"); (31%N, Some "deactivated")].
Proof. vm_compute. done. Qed.

(** ** A deactivated account keeps its sessions *)

Theorem deactivated_session_refreshes :
  let d := after [OpDeactivate 31] t_demo in
  all_succeed [OpDeactivate 31; OpRefresh (token 3) (at_ 30) (draw 4) 72] t_demo = true /\
  option_map (fun a => at_status (snd a)) (principal_account d 31) = Some "deactivated" /\
  is_ok (snd (Refresh tenant_cfg (token 3) (at_ 30) (draw 4) 72 d)) = true /\
  is_ok (snd (Login tenant_cfg "bob@example.com" "battery staple" (at_ 30) (draw 5) 73 74 d)) = false.
Proof. vm_compute. done. Qed.

(** ** What is read before the lock

    Alice deletes East while a call that creates a business under it waits for
    the lock, having found it: the new business has a deleted parent. *)

Definition deleted_east : tdb := after [OpDelete 11 21 (20 * Second)] t_demo.

Theorem child_of_deleted_business :
  let r := CreateSubBusiness 11 21 "Shop" 23 53 (21 * Second) t_demo deleted_east in
  is_ok (snd r) = true /\
  option_map bz_parent (t_business (fst r) !! 23%N) = Some (Some 21%N) /\
  option_map bz_deleted (t_business (fst r) !! 21%N) = Some (Some (20 * Second)%Z) /\
  is_ok (snd (CreateSubBusiness 11 21 "Shop" 23 53 (21 * Second) deleted_east deleted_east)) = false.
Proof. vm_compute. done. Qed.

(** ** The count of assignments is filtered

    Alice's role is assigned at West.  Bob, Admin of East, does not see that
    membership: his deletion passes the check and fails on the foreign key. *)

Definition hidden_assignment : tdb :=
  after [OpSignup "carol@example.com" "Carol" "purple monkey" demo_salt (draw 7) 80 81 82 (at_ 20); OpVerifyEmail (token 7) (at_ 21);
         OpCreateRole 11 20 "Reader" ["business.read"] 8 "abcd";
         OpInvite 0 11 22 8 "carol@example.com" "invite-6" 65 (at_ 22); OpAccept 81 "invite-6" 45 (at_ 23)] t_demo.

Theorem DeleteRole_unseen_assignment :
  snd (exec tenant_cfg (OpDeleteRole 31 21 8) hidden_assignment hidden_assignment) =
    Some (PgError "23503" "membership_role_id_fkey") /\
  option_map is_conflict (snd (exec tenant_cfg (OpDeleteRole 11 20 8) hidden_assignment hidden_assignment)) = Some true.
Proof. vm_compute. done. Qed.

(** ** The owner guard sees what the session sees

    At commit the trigger reads under the policies of the actor: when the actor
    has just removed its own, and the tenant's only, membership, the trigger does
    not see the business and lets the commit pass. *)

Theorem owner_guard_filtered :
  let d := set_membership (delete (11%N, 20%N) (t_membership t_demo)) t_demo in
  tenant_owner_guard (AsApp 11) d 20 = true /\ tenant_owner_guard AsOwner d 20 = false.
Proof. vm_compute. done. Qed.

(** ** A role of an agent can be raised

    The trigger that keeps administrative permissions from agents looks at
    memberships; editing the role of an agent is not checked. *)

Definition bot_setup : list api_op :=
  [create_agent; OpCreateRole 11 20 "Bot" ["business.read"] 7 "abcd"; OpChangeRole 11 21 90 7].
Definition with_agent : tdb := after bot_setup t_demo.

Theorem agent_role_raised :
  all_succeed bot_setup t_demo = true /\
  membership_agent_guard (AsApp 11) with_agent 91 90 21 2 = false /\
  is_ok (snd (UpdateRole 11 20 7 None (Some ["members.manage"]) with_agent)) = true /\
  can 90 21 "members.manage" (fst (UpdateRole 11 20 7 None (Some ["members.manage"]) with_agent)) = true.
Proof. vm_compute. done. Qed.

(** ** The role of agents is locked

    Migration 0029 gives the preset [agent_runtime] six permissions and locks it.
    The guard for agents looks at the six; the resolver takes a locked role for
    the Owner's and grants the whole catalog: the agent could delete the business. *)

Definition with_runtime_agent : tdb := after [create_agent] t_demo.

Theorem agent_runtime_unlimited :
  all_succeed [create_agent] t_demo = true /\
  forallb (fun k => negb (bool_decide (k ∈ GetRolePermissions (AsApp 90) 5 with_runtime_agent))) agent_forbidden = true /\
  forallb (fun k => can 90 21 k with_runtime_agent) agent_forbidden = true /\
  snd (exec tenant_cfg (OpDelete 90 21 (30 * Second)) with_runtime_agent with_runtime_agent) = None.
Proof. vm_compute. done. Qed.

(** ** A revocation misses a token

    The reuse is noticed and answered as such, the tokens of the snapshot are
    revoked, and the session goes on with the token the rotation inserted. *)

Theorem reuse_leaves_session :
  rtc (api_step tenant_cfg) [t_seed] (stale_revocation :: rotated_history) /\
  snd (exec tenant_cfg reuse rotated_twice rotated_twice) = Some ErrRefreshReuse /\
  option_map (fun r => bool_decide (is_Some (rf_revoked r))) (t_refresh stale_revocation !! 72%N) = Some true /\
  option_map rf_revoked (t_refresh stale_revocation !! 73%N) = Some None /\
  is_ok (snd (Refresh tenant_cfg (token 5) (at_ 23) (draw 7) 75 stale_revocation)) = true.
Proof. split; [exact stale_step|]. vm_compute. done. Qed.

(** ** The last Owner may leave

    A holder of the locked [agent_runtime] counts as an Owner in the service's
    guard, and the trigger no longer sees the tenant its only Owner has left. *)

Definition last_owner_ops : list api_op :=
  [OpInvite 0 11 20 5 "bob@example.com" "invite-8" 66 (at_ 20); OpAccept 31 "invite-8" 46 (at_ 21); OpLeave 11 20].

Theorem last_owner_leaves :
  all_succeed last_owner_ops t_demo = true /\
  let d := after last_owner_ops t_demo in
  option_map live (t_business d !! 20%N) = Some true /\
  mselect (fun k m => N.eqb (snd k) 20 && N.eqb (mb_role m) 1) (t_membership d) = [].
Proof. vm_compute. done. Qed.
