(* ===== verification/MailToken.v ===== *)
(** * Mailing tokens: [internal/mailing/token/codec.go]

    The stateless unsubscribe, open and click tokens: a version byte, a payload
    and an HMAC under a key derived for the token's purpose, in unpadded URL-safe
    base64; and the one-time confirmation tokens, of which only a hash is kept.
    HKDF, HMAC and SHA-256 are parameters; the bytes read from the random source
    are an argument.  A UUID is its sixteen bytes, most significant first. *)

From S2P Require Import Prelude GoStrings GoBase64 GoJson GoTime AutoGraph Errors.

Class MailCrypto := {
  (** [io.ReadFull(hkdf.New(sha256.New, master, nil, info), key[:])] *)
  hkdf_sha256 : list ascii -> list ascii -> list ascii;
  (** the sum of [hmac.New(sha256.New, key)] after writing a message *)
  hmac_sha256 : list ascii -> list ascii -> list ascii;
  sha256_sum : list ascii -> list ascii;
  (** a sum has [sha256.Size] bytes *)
  hmac_sha256_length : forall key message, length (hmac_sha256 key message) = 32
}.

Definition version : ascii := byte_of 1.
Definition macSize : nat := 32.
Definition uuidSize : nat := 16.
Definition confirmSize : nat := 32.
Definition maxClickURL : nat := 8 * 1024.

Definition ErrInvalid : error := NewError "mailing token: invalid token".

Inductive purpose := purposeUnsubscribe | purposeOpen | purposeClick.
#[export] Instance purpose_eq_dec : EqDecision purpose.
Proof. solve_decision. Defined.

Definition purpose_text (p : purpose) : string :=
  match p with purposeUnsubscribe => "unsub" | purposeOpen => "open" | purposeClick => "click" end.

(** [base64.RawURLEncoding.EncodedLen] *)
Definition EncodedLen (n : nat) : nat := (n * 8 + 5) / 6.

(** ** Sixteen bytes *)

Fixpoint be_bytes (n : nat) (x : N) : list ascii :=
  match n with
  | O => []
  | S n => be_bytes n (x / 256)%N ++ [byte_of (x mod 256)]
  end.
Definition be_value (l : list ascii) : N := fold_left (fun acc c => acc * 256 + N_of_ascii c)%N l 0%N.

Definition uuid_bytes (u : uuid) : list ascii := be_bytes uuidSize u.
Definition uuid_of_bytes (l : list ascii) : uuid := be_value l.
Definition is_uuid (u : uuid) : Prop := (u < 2 ^ 128)%N.
#[global] Arguments uuid_bytes : simpl never.
#[global] Arguments maxClickURL : simpl never.

Section Codec.
Context `{MailCrypto}.

(** The keys of a codec; [rand] is the argument of [NewConfirmation]. *)
Record Codec := { keys : purpose -> list ascii }.

Definition New (master : list ascii) : result error Codec :=
  if negb (Nat.eqb (length master) 32)
  then Err (NewError "mailing token: master key must be 32 bytes")
  else Ok {| keys := fun p => hkdf_sha256 master (bytes ("mf-mailing/" +:+ purpose_text p)) |}.

Definition NewConfirmation (entropy : option (list ascii)) : result error (string * list ascii) :=
  match entropy with
  | None => Err (NewError "mailing token: confirmation entropy")
  | Some b => Ok (of_bytes (base64url b), sha256_sum b)
  end.

Definition HashConfirmation (raw : string) : result error (list ascii) :=
  if negb (Nat.eqb (String.length raw) (EncodedLen confirmSize)) then Err ErrInvalid else
  match base64url_decode (bytes raw) with
  | None => Err ErrInvalid
  | Some b => if negb (Nat.eqb (length b) confirmSize) then Err ErrInvalid else Ok (sha256_sum b)
  end.

(** ** Signed payloads *)

Definition encode (c : Codec) (p : purpose) (payload : list ascii) : string :=
  let unsigned := version :: payload in
  of_bytes (base64url (unsigned ++ hmac_sha256 (keys c p) unsigned)).

Definition decode (c : Codec) (p : purpose) (raw : string) (minPayload maxPayload : nat)
  : result error (list ascii) :=
  let minEncoded := EncodedLen (1 + minPayload + macSize) in
  let maxEncoded := EncodedLen (1 + maxPayload + macSize) in
  if Nat.ltb (String.length raw) minEncoded || Nat.ltb maxEncoded (String.length raw) then Err ErrInvalid else
  match base64url_decode (bytes raw) with
  | None => Err ErrInvalid
  | Some signed =>
      if Nat.ltb (length signed) (1 + macSize) then Err ErrInvalid else
      let payloadLen := length signed - 1 - macSize in
      if negb (bool_decide (head signed = Some version)) || Nat.ltb payloadLen minPayload ||
         Nat.ltb maxPayload payloadLen then Err ErrInvalid else
      let unsigned := take (length signed - macSize) signed in
      let gotMAC := drop (length signed - macSize) signed in
      if negb (bool_decide (gotMAC = hmac_sha256 (keys c p) unsigned)) then Err ErrInvalid else
      Ok (drop 1 unsigned)
  end.

Definition EncodeUnsubscribe (c : Codec) (subscriberID campaignID : uuid) : string :=
  encode c purposeUnsubscribe (uuid_bytes subscriberID ++ uuid_bytes campaignID).

Definition DecodeUnsubscribe (c : Codec) (raw : string) : result error (uuid * uuid) :=
  match decode c purposeUnsubscribe raw (2 * uuidSize) (2 * uuidSize) with
  | Err e => Err e
  | Ok payload => Ok (uuid_of_bytes (take uuidSize payload), uuid_of_bytes (drop uuidSize payload))
  end.

Definition EncodeOpen (c : Codec) (deliveryID : uuid) : string := encode c purposeOpen (uuid_bytes deliveryID).

Definition DecodeOpen (c : Codec) (raw : string) : result error uuid :=
  match decode c purposeOpen raw uuidSize uuidSize with
  | Err e => Err e
  | Ok payload => Ok (uuid_of_bytes payload)
  end.

Definition EncodeClick (c : Codec) (deliveryID : uuid) (targetURL : string) : result error string :=
  if String.eqb targetURL "" || Nat.ltb maxClickURL (String.length targetURL) then Err ErrInvalid
  else Ok (encode c purposeClick (uuid_bytes deliveryID ++ bytes targetURL)).

Definition DecodeClick (c : Codec) (raw : string) : result error (uuid * string) :=
  match decode c purposeClick raw (uuidSize + 1) (uuidSize + maxClickURL) with
  | Err e => Err e
  | Ok payload => Ok (uuid_of_bytes (take uuidSize payload), of_bytes (drop uuidSize payload))
  end.
End Codec.
#[global] Arguments encode : simpl never.
#[global] Arguments decode : simpl never.

(** ** The sixteen bytes of a UUID *)

Lemma length_be_bytes (n : nat) (x : N) : length (be_bytes n x) = n.
Proof. revert x. induction n as [|n IH]; intros x; simpl; [done|]. rewrite length_app, IH. simpl. lia. Qed.

Lemma be_value_snoc (l : list ascii) (c : ascii) : be_value (l ++ [c]) = (be_value l * 256 + N_of_ascii c)%N.
Proof. unfold be_value. by rewrite fold_left_app. Qed.

Lemma be_value_bytes (n : nat) (x : N) : (x < 256 ^ N.of_nat n)%N -> be_value (be_bytes n x) = x.
Proof.
  revert x. induction n as [|n IH]; intros x Hx; simpl; [by apply N.lt_1_r in Hx as ->|].
  rewrite be_value_snoc, IH.
  - unfold byte_of. rewrite N_ascii_embedding by (apply N.mod_lt; lia). pose proof (N.div_mod x 256). lia.
  - apply N.Div0.div_lt_upper_bound. rewrite Nat2N.inj_succ, N.pow_succ_r' in Hx. lia.
Qed.

Lemma be_bytes_value (n : nat) (l : list ascii) : length l = n -> be_bytes n (be_value l) = l.
Proof.
  revert l. induction n as [|n IH]; intros l Hl; [by destruct l|].
  destruct l as [|c l _] using rev_ind; [done|]. rewrite length_app in Hl. simpl in Hl.
  simpl. rewrite be_value_snoc. pose proof (byte_bound c) as Hc.
  destruct (digit_split (be_value l) 256 (N_of_ascii c) Hc) as [Hd Hm]. rewrite Hd, Hm, IH by lia.
  unfold byte_of. by rewrite ascii_N_embedding.
Qed.

Lemma be_value_lt (l : list ascii) : (be_value l < 256 ^ N.of_nat (length l))%N.
Proof.
  induction l as [|c l IH] using rev_ind; [done|]. rewrite be_value_snoc, length_app, Nat2N.inj_add, N.pow_add_r.
  simpl. pose proof (byte_bound c). change (256 ^ 1)%N with 256%N. nia.
Qed.

Lemma length_uuid_bytes (u : uuid) : length (uuid_bytes u) = uuidSize.
Proof. apply length_be_bytes. Qed.

Lemma uuid_of_bytes_of (u : uuid) : is_uuid u -> uuid_of_bytes (uuid_bytes u) = u.
Proof. intros Hu. by apply be_value_bytes. Qed.

Lemma uuid_bytes_of (l : list ascii) : length l = uuidSize -> uuid_bytes (uuid_of_bytes l) = l.
Proof. apply be_bytes_value. Qed.

Lemma is_uuid_of (l : list ascii) : length l = uuidSize -> is_uuid (uuid_of_bytes l).
Proof. intros Hl. pose proof (be_value_lt l) as Hb. by rewrite Hl in Hb. Qed.

(** ** What a token proves *)

Section Tokens.
Context `{MailCrypto} (c : Codec).

Lemma EncodedLen_le (m n : nat) : m <= n -> EncodedLen m <= EncodedLen n.
Proof. intros Hmn. unfold EncodedLen. apply Nat.Div0.div_le_mono. lia. Qed.

Lemma length_encode (p : purpose) (payload : list ascii) :
  String.length (encode c p payload) = EncodedLen (1 + length payload + macSize).
Proof.
  unfold encode. rewrite <- length_bytes, bytes_of_bytes. unfold base64url. rewrite length_b64_encode.
  rewrite length_app, hmac_sha256_length. done.
Qed.

Lemma encode_signed (p : purpose) (payload : list ascii) :
  base64url_decode (bytes (encode c p payload)) =
  Some ((version :: payload) ++ hmac_sha256 (keys c p) (version :: payload)).
Proof. unfold encode. by rewrite bytes_of_bytes, base64url_roundtrip. Qed.

(** A text is accepted exactly when its size is in range and it carries the
    bytes that [encode] signs for this purpose. *)
Lemma decode_spec (p : purpose) (raw : string) (lo hi : nat) (payload : list ascii) :
  decode c p raw lo hi = Ok payload <->
  lo <= length payload <= hi /\
  EncodedLen (1 + lo + macSize) <= String.length raw <= EncodedLen (1 + hi + macSize) /\
  base64url_decode (bytes raw) = base64url_decode (bytes (encode c p payload)).
Proof.
  rewrite encode_signed. unfold decode. cbv zeta.
  destruct (Nat.ltb_spec (String.length raw) (EncodedLen (1 + lo + macSize))); [split; [done|lia]|].
  destruct (Nat.ltb_spec (EncodedLen (1 + hi + macSize)) (String.length raw)); [split; [done|lia]|].
  destruct (base64url_decode (bytes raw)) as [signed|]; [|split; [done|by intros (_ & _ & ?)]].
  destruct (Nat.ltb_spec (length signed) (1 + macSize)) as [Hs|Hs].
  { split; [done|]. intros (_ & _ & [= ->]). cbn [length app] in Hs. rewrite length_app, hmac_sha256_length in Hs.
    unfold macSize in Hs. lia. }
  split.
  - destruct (bool_decide_reflect (head signed = Some version)) as [Hv|]; [|done]. simpl.
    destruct (Nat.ltb_spec (length signed - 1 - macSize) lo); simpl; [done|].
    destruct (Nat.ltb_spec hi (length signed - 1 - macSize)); simpl; [done|].
    destruct signed as [|v signed]; [done|]. injection Hv as ->.
    destruct (bool_decide_reflect (drop (length (version :: signed) - macSize) (version :: signed) =
      hmac_sha256 (keys c p) (take (length (version :: signed) - macSize) (version :: signed)))) as [Hm|];
      [|done]. intros [= <-]. unfold macSize in *. cbn [length] in *.
    replace (S (length signed) - 32) with (S (length signed - 32)) in Hm by lia.
    replace (length signed - 31) with (S (length signed - 32)) by lia.
    rewrite firstn_cons, skipn_cons in Hm. rewrite ?firstn_cons, ?skipn_cons, ?skipn_O, length_take.
    split_and!; [lia|lia|done|done|]. by rewrite <- Hm, take_drop.
  - intros ([Hlo Hhi] & _ & [= ->]). cbn [length head app]. rewrite length_app, hmac_sha256_length.
    rewrite bool_decide_eq_true_2 by done. unfold macSize. cbn [negb orb].
    replace (S (length payload + 32) - 1 - 32) with (length payload) by lia.
    destruct (Nat.ltb_spec (length payload) lo); [lia|]. destruct (Nat.ltb_spec hi (length payload)); [lia|].
    replace (S (length payload + 32) - 32) with (S (length payload)) by lia. cbn [orb take drop].
    rewrite take_app_length, drop_app_length. by rewrite bool_decide_eq_true_2.
Qed.

Lemma decode_encode (p : purpose) (payload : list ascii) (lo hi : nat) :
  lo <= length payload <= hi -> decode c p (encode c p payload) lo hi = Ok payload.
Proof.
  intros Hl. apply decode_spec. rewrite length_encode.
  split_and!; [lia|lia|apply EncodedLen_le; lia|apply EncodedLen_le; lia|done].
Qed.

(** A token of one purpose is not one of another unless the two keys give its
    payload the same sum. *)
Lemma decode_other_purpose (p q : purpose) (payload : list ascii) (lo hi : nat) :
  hmac_sha256 (keys c q) (version :: payload) <> hmac_sha256 (keys c p) (version :: payload) ->
  decode c p (encode c q payload) lo hi = Err ErrInvalid.
Proof.
  intros Hk. destruct (decode c p (encode c q payload) lo hi) as [x|e] eqn:Hd.
  - apply decode_spec in Hd as (_ & _ & He). rewrite !encode_signed in He. injection He as He.
    assert (length payload = length x) as Hl.
    { apply (f_equal length) in He. rewrite !length_app, !hmac_sha256_length in He. lia. }
    apply app_inj_1 in He as [-> He]; [|done]. done.
  - revert Hd. unfold decode. repeat (case_match; try (by intros [= <-])).
Qed.

(** ** The three kinds of token *)

Lemma DecodeUnsubscribe_spec (raw : string) (s k : uuid) :
  DecodeUnsubscribe c raw = Ok (s, k) <->
  is_uuid s /\ is_uuid k /\ String.length raw = EncodedLen (1 + 2 * uuidSize + macSize) /\
  base64url_decode (bytes raw) = base64url_decode (bytes (EncodeUnsubscribe c s k)).
Proof.
  unfold DecodeUnsubscribe, EncodeUnsubscribe. split.
  - destruct (decode _ _ _ _ _) as [x|] eqn:Hd; [|done]. intros [= <- <-]. apply decode_spec in Hd as (Hl & Hr & He).
    assert (length (take uuidSize x) = uuidSize) as H1 by (rewrite length_take; unfold uuidSize in *; lia).
    assert (length (drop uuidSize x) = uuidSize) as H2 by (rewrite length_drop; unfold uuidSize in *; lia).
    split_and!; [by apply is_uuid_of..|lia|]. by rewrite !uuid_bytes_of, take_drop.
  - intros (Hs & Hk & Hr & He).
    assert (decode c purposeUnsubscribe raw (2 * uuidSize) (2 * uuidSize) = Ok (uuid_bytes s ++ uuid_bytes k)) as ->.
    { apply decode_spec. rewrite length_app, !length_uuid_bytes. unfold uuidSize in *. split_and!; [lia|lia|lia|lia|done]. }
    rewrite take_app_length', drop_app_length' by (symmetry; apply length_uuid_bytes). by rewrite !uuid_of_bytes_of.
Qed.

Lemma DecodeOpen_spec (raw : string) (d : uuid) :
  DecodeOpen c raw = Ok d <->
  is_uuid d /\ String.length raw = EncodedLen (1 + uuidSize + macSize) /\
  base64url_decode (bytes raw) = base64url_decode (bytes (EncodeOpen c d)).
Proof.
  unfold DecodeOpen, EncodeOpen. split.
  - destruct (decode _ _ _ _ _) as [x|] eqn:Hd; [|done]. intros [= <-]. apply decode_spec in Hd as (Hl & Hr & He).
    assert (length x = uuidSize) as Hx by lia. split_and!; [by apply is_uuid_of|lia|]. by rewrite uuid_bytes_of.
  - intros (Hd & Hr & He).
    assert (decode c purposeOpen raw uuidSize uuidSize = Ok (uuid_bytes d)) as ->.
    { apply decode_spec. rewrite length_uuid_bytes. split_and!; [lia|lia|lia|lia|done]. }
    by rewrite uuid_of_bytes_of.
Qed.

Lemma EncodeClick_ok (d : uuid) (u t : string) :
  EncodeClick c d u = Ok t <->
  1 <= String.length u <= maxClickURL /\ t = encode c purposeClick (uuid_bytes d ++ bytes u).
Proof.
  unfold EncodeClick. generalize maxClickURL. intros m.
  destruct (String.eqb_spec u "") as [->|Hu]; cbn [orb String.length];
    [split; [discriminate|intros [? _]; lia]|].
  destruct (Nat.ltb_spec m (String.length u)); [split; [discriminate|lia]|].
  generalize (encode c purposeClick (uuid_bytes d ++ bytes u)). intros x.
  split; [intros [= <-]|by intros [_ ->]]. split; [|reflexivity]. destruct u; cbn [String.length] in *; [done|lia].
Qed.

Lemma DecodeClick_spec (raw : string) (d : uuid) (u : string) :
  DecodeClick c raw = Ok (d, u) <->
  is_uuid d /\ (exists t, EncodeClick c d u = Ok t /\ base64url_decode (bytes raw) = base64url_decode (bytes t)) /\
  EncodedLen (1 + (uuidSize + 1) + macSize) <= String.length raw <= EncodedLen (1 + (uuidSize + maxClickURL) + macSize).
Proof.
  unfold DecodeClick. split.
  - destruct (decode _ _ _ _ _) as [x|] eqn:Hd; [|done]. intros [= <- <-]. apply decode_spec in Hd as (Hl & Hr & He).
    assert (length (take uuidSize x) = uuidSize) as Hx by (rewrite length_take; unfold uuidSize in *; lia).
    split_and!; [by apply is_uuid_of| |lia|lia]. eexists. rewrite EncodeClick_ok. split; [split; [|reflexivity]|].
    + rewrite <- length_bytes, bytes_of_bytes, length_drop. unfold uuidSize in *. lia.
    + by rewrite bytes_of_bytes, uuid_bytes_of, take_drop.
  - intros (Hd & (t & Ht & He) & Hr). apply EncodeClick_ok in Ht as [Hu ->].
    assert (decode c purposeClick raw (uuidSize + 1) (uuidSize + maxClickURL) = Ok (uuid_bytes d ++ bytes u)) as ->.
    { apply decode_spec. rewrite length_app, length_uuid_bytes, length_bytes. split_and!; [lia|lia|lia|lia|done]. }
    rewrite take_app_length', drop_app_length' by (symmetry; apply length_uuid_bytes). by rewrite uuid_of_bytes_of, of_bytes_bytes.
Qed.

(** C24: Each kind of token is read back as it was issued: an unsubscribe link with
    its subscriber and campaign, an open pixel with its delivery, a click link
    with its delivery and any target of 1 to 8192 bytes, and a confirmation
    token with the hash that was stored for it. *)
Theorem tokens_roundtrip (s k d : uuid) (u : string) (b : list ascii) :
  is_uuid s -> is_uuid k -> is_uuid d -> 1 <= String.length u <= maxClickURL -> length b = confirmSize ->
  DecodeUnsubscribe c (EncodeUnsubscribe c s k) = Ok (s, k) /\
  DecodeOpen c (EncodeOpen c d) = Ok d /\
  (exists t, EncodeClick c d u = Ok t /\ DecodeClick c t = Ok (d, u)) /\
  (exists raw hash, NewConfirmation (Some b) = Ok (raw, hash) /\ HashConfirmation raw = Ok hash).
Proof.
  intros Hs Hk Hd Hu Hb. split_and!.
  - apply DecodeUnsubscribe_spec. unfold EncodeUnsubscribe.
    rewrite length_encode, length_app, !length_uuid_bytes. done.
  - apply DecodeOpen_spec. unfold EncodeOpen. rewrite length_encode, length_uuid_bytes. done.
  - exists (encode c purposeClick (uuid_bytes d ++ bytes u)).
    assert (EncodeClick c d u = Ok (encode c purposeClick (uuid_bytes d ++ bytes u))) as He by (by apply EncodeClick_ok).
    split; [done|]. apply DecodeClick_spec. split_and!; [done|eauto| |]; rewrite length_encode, length_app,
      length_uuid_bytes, length_bytes; apply EncodedLen_le; lia.
  - eexists _, _. split; [reflexivity|]. unfold HashConfirmation. rewrite <- length_bytes, bytes_of_bytes, base64url_roundtrip.
    unfold base64url. rewrite length_b64_encode, Hb. done.
Qed.

(** C25: Nothing else is accepted: a text is read as a token exactly when it has the
    size of one and decodes to the very bytes that were signed, under the key of
    that purpose, for the identifiers and the target it is read as.  A token of
    another purpose is refused unless the two keys' sums agree on it. *)
Theorem tokens_authentic (raw : string) (s k d : uuid) (u : string) :
  (DecodeUnsubscribe c raw = Ok (s, k) <->
     is_uuid s /\ is_uuid k /\ String.length raw = 87 /\
     base64url_decode (bytes raw) = base64url_decode (bytes (EncodeUnsubscribe c s k))) /\
  (DecodeOpen c raw = Ok d <->
     is_uuid d /\ String.length raw = 66 /\
     base64url_decode (bytes raw) = base64url_decode (bytes (EncodeOpen c d))) /\
  (DecodeClick c raw = Ok (d, u) <->
     is_uuid d /\
     (exists t, EncodeClick c d u = Ok t /\ base64url_decode (bytes raw) = base64url_decode (bytes t)) /\
     67 <= String.length raw <= EncodedLen (1 + (uuidSize + maxClickURL) + macSize)) /\
  (forall p q payload lo hi,
     hmac_sha256 (keys c q) (version :: payload) <> hmac_sha256 (keys c p) (version :: payload) ->
     decode c p (encode c q payload) lo hi = Err ErrInvalid).
Proof.
  split_and!; [apply DecodeUnsubscribe_spec|apply DecodeOpen_spec|apply DecodeClick_spec|].
  intros p q payload lo hi. apply decode_other_purpose.
Qed.
End Tokens.

(** A stand-in for the cryptography, to evaluate the definitions with. *)
Definition demo_crypto : MailCrypto.
Proof.
  refine {| hkdf_sha256 := fun master info => be_bytes 32 (be_value master + be_value info);
            hmac_sha256 := fun key message => be_bytes 32 (be_value key * 257 + be_value message);
            sha256_sum := fun l => be_bytes 32 (be_value l) |}.
  intros key message. apply length_be_bytes.
Defined.

Definition demo_codec : Codec :=
  match @New demo_crypto (repeat "k"%char 32) with Ok c => c | Err _ => {| keys := fun _ => [] |} end.

Lemma tokens_roundtrip_witness :
  @DecodeUnsubscribe demo_crypto demo_codec (@EncodeUnsubscribe demo_crypto demo_codec 7 0) = Ok (7%N, 0%N) /\
  @DecodeClick demo_crypto demo_codec (@EncodeUnsubscribe demo_crypto demo_codec 7 0) = Err ErrInvalid.
Proof.
  split; [|vm_compute; reflexivity].
  refine (proj1 (@tokens_roundtrip demo_crypto demo_codec 7 0 9 "https://example.com/" (repeat "r"%char 32)
                   eq_refl eq_refl eq_refl _ eq_refl)).
  split; apply Nat.leb_le; vm_compute; reflexivity.
Defined.
