(* ===== verification/MailProvider.v ===== *)
(** * Delivery outcomes and provider clients: [internal/mailing/provider]

    [Classify] of [deliverer.go], which turns the error of a send into the
    outcome the worker records, and the cache of provider clients of
    [cache.go].  An error is what [errors.Is] and [errors.As] find in its chain.
    A call of [Resolve] that misses builds a client outside the lock, so it is
    two steps here, before and after the build, and other calls may run in
    between.  The provider SDKs ([BuildFunc]) are a parameter: the built client
    is an argument of the second step. *)

From S2P Require Import Prelude GoStrings GoTime GoJson AutoGraph Errors.

(** ** Classify *)

(** What the chain of a send's error holds. *)
Record send_error := {
  se_suppressed : bool;                  (* errors.Is(err, notify.ErrSuppressed) *)
  se_http : option Z;                    (* *HTTPError: StatusCode *)
  se_response : option Z;                (* *smithyhttp.ResponseError: HTTPStatusCode() *)
  se_api : option (string * bool);       (* smithy.APIError: ErrorCode(), ErrorFault() == FaultServer *)
  se_net : bool;                         (* net.Error *)
  se_rejected : bool;                    (* *types.MessageRejected *)
  se_suspended : bool;                   (* *types.AccountSuspendedException *)
  se_text : string                       (* Error() *)
}.

Record Classification := { cl_Status : string; cl_Retry : bool; cl_NotBefore : time }.

Definition terminal_codes : list string :=
  ["MessageRejected"; "AccountSuspendedException"; "BadRequestException"; "NotFoundException";
   "MailFromDomainNotVerifiedException"].

Definition http_retryable (status : Z) : bool := ((status =? 429) || (500 <=? status))%Z.
Definition http_terminal (status : Z) : bool :=
  ((400 <=? status) && (status <? 500) && negb (status =? 429))%Z.

(** [terminal] and [retryable] after the switch and the two checks below it. *)
Definition classify_kind (e : send_error) : bool * bool :=
  let '(terminal, retryable) :=
    match se_http e, se_response e, se_api e with
    | Some status, _, _ => (http_terminal status, http_retryable status)
    | None, Some status, _ => (http_terminal status, http_retryable status)
    | None, None, Some (code, server) =>
        if existsb (String.eqb code) terminal_codes then (true, false) else (false, server)
    | None, None, None => (false, se_net e)
    end in
  if se_rejected e || se_suspended e then (true, false) else (terminal, retryable).

Definition maxDelay : duration := 30 * Minute.

(** [for i := 0; i < attempts && delay < 30*time.Minute; i++ { delay *= 2 }] *)
Fixpoint double_delay (n : nat) (delay : duration) : duration :=
  match n with
  | O => delay
  | S n => if (delay <? maxDelay)%Z then double_delay n (delay * 2)%Z else delay
  end.

Definition retry_delay (attempts : Z) : duration :=
  let delay := double_delay (Z.to_nat attempts) (30 * Second)%Z in
  if (maxDelay <? delay)%Z then maxDelay else delay.

Definition terminal_outcome (status : string) : Classification :=
  {| cl_Status := status; cl_Retry := false; cl_NotBefore := 0%Z |}.

Definition Classify (err : option send_error) (attempts : Z) (now : time) : Classification :=
  match err with
  | None => terminal_outcome "sent"
  | Some e =>
      if se_suppressed e then terminal_outcome "suppressed" else
      let '(terminal, retryable) := classify_kind e in
      if terminal || (5 <=? attempts)%Z || negb retryable then terminal_outcome "failed"
      else {| cl_Status := "retry"; cl_Retry := true; cl_NotBefore := Add now (retry_delay attempts) |}
  end.

(** ** The client cache *)

Definition providerCacheCapacity : nat := 32.
Definition defaultCacheTTL : duration := 5 * Minute.

Section Cache.
Context {Deliverer : Type}.

Record cacheEntry := { ce_deliverer : Deliverer; ce_updatedAt : time; ce_expiresAt : time; ce_lastUsed : N }.

Record Cache := { ca_entries : gmap uuid cacheEntry; ca_ttl : duration; ca_generation : N; ca_clock : N }.

Definition NewCache (ttl : duration) : Cache :=
  {| ca_entries := ∅; ca_ttl := if (ttl <=? 0)%Z then defaultCacheTTL else ttl;
     ca_generation := 0; ca_clock := 0 |}.

Definition set_entries (m : gmap uuid cacheEntry) (clock : N) (c : Cache) : Cache :=
  {| ca_entries := m; ca_ttl := ca_ttl c; ca_generation := ca_generation c; ca_clock := clock |}.

Definition removeExpiredLocked (now : time) (m : gmap uuid cacheEntry) : gmap uuid cacheEntry :=
  mdelete (fun _ e => negb (Before now (ce_expiresAt e))) m.

(** The loop of [removeLeastRecentlyUsedLocked]. *)
Definition older_entry (acc : option (uuid * cacheEntry)) (x : uuid * cacheEntry) : option (uuid * cacheEntry) :=
  match acc with
  | Some y => if (ce_lastUsed (snd x) <? ce_lastUsed (snd y))%N then Some x else acc
  | None => Some x
  end.
Definition removeLeastRecentlyUsedLocked (m : gmap uuid cacheEntry) : gmap uuid cacheEntry :=
  match fold_left older_entry (map_to_list m) None with
  | Some (oldestID, _) => delete oldestID m
  | None => m
  end.

(** [for len(c.entries) >= providerCacheCapacity { ... }] *)
Fixpoint make_room (fuel : nat) (m : gmap uuid cacheEntry) : gmap uuid cacheEntry :=
  match fuel with
  | O => m
  | S fuel => if Nat.leb providerCacheCapacity (size m)
              then make_room fuel (removeLeastRecentlyUsedLocked m) else m
  end.

(** The identity of a sending profile, as the cache sees it. *)
Record profile_version := { pv_ID : uuid; pv_UpdatedAt : time }.

Definition touch (clock : N) (e : cacheEntry) : cacheEntry :=
  {| ce_deliverer := ce_deliverer e; ce_updatedAt := ce_updatedAt e; ce_expiresAt := ce_expiresAt e;
     ce_lastUsed := clock |}.

(** [Resolve] up to the build: a cached client, or the generation to remember. *)
Definition resolve_begin (now : time) (profile : profile_version) (c : Cache) : Cache * (Deliverer + N) :=
  let m := removeExpiredLocked now (ca_entries c) in
  let clock := (ca_clock c + 1)%N in
  match m !! pv_ID profile with
  | Some entry =>
      if (ce_updatedAt entry =? pv_UpdatedAt profile)%Z
      then (set_entries (<[pv_ID profile := touch clock entry]> m) clock c, inl (ce_deliverer entry))
      else (set_entries m clock c, inr (ca_generation c))
  | None => (set_entries m clock c, inr (ca_generation c))
  end.

(** [Resolve] after a successful build begun at [now] with [generation]. *)
Definition resolve_end (now now' : time) (profile : profile_version) (generation : N) (deliverer : Deliverer)
    (c : Cache) : Cache * Deliverer :=
  if negb (N.eqb generation (ca_generation c)) then (c, deliverer) else
  let m := removeExpiredLocked now' (ca_entries c) in
  let m := make_room (size m) m in
  let clock := (ca_clock c + 1)%N in
  (set_entries (<[pv_ID profile := {| ce_deliverer := deliverer; ce_updatedAt := pv_UpdatedAt profile;
                                      ce_expiresAt := Add now (ca_ttl c); ce_lastUsed := clock |}]> m) clock c,
   deliverer).

Definition Invalidate (profileID : uuid) (c : Cache) : Cache :=
  {| ca_entries := delete profileID (ca_entries c); ca_ttl := ca_ttl c;
     ca_generation := (ca_generation c + 1)%N; ca_clock := ca_clock c |}.

(** Calls that have run so far, in the order of their critical sections. *)
Inductive cache_op :=
| OpBegin (now : time) (profile : profile_version)
| OpEnd (now now' : time) (profile : profile_version) (generation : N) (deliverer : Deliverer)
| OpInvalidate (profileID : uuid).

Definition cache_step (c : Cache) (op : cache_op) : Cache :=
  match op with
  | OpBegin now profile => (resolve_begin now profile c).1
  | OpEnd now now' profile generation deliverer => (resolve_end now now' profile generation deliverer c).1
  | OpInvalidate id => Invalidate id c
  end.
Definition cache_run (ops : list cache_op) (c : Cache) : Cache := fold_left cache_step ops c.
End Cache.
#[global] Arguments cacheEntry : clear implicits.
#[global] Arguments Cache : clear implicits.
#[global] Arguments cache_op : clear implicits.

(** ** The retry schedule *)

Lemma retry_delay_small (attempts : Z) :
  (0 <= attempts < 5)%Z -> retry_delay attempts = (30 * Second * 2 ^ attempts)%Z.
Proof.
  intros Ha. assert (attempts = 0 \/ attempts = 1 \/ attempts = 2 \/ attempts = 3 \/ attempts = 4)%Z
    as [->|[->|[->|[->| ->]]]] by lia; reflexivity.
Qed.

(** C26: A failed send is tried again exactly when the provider's error is
    transient (throttling, a server fault or the network) and fewer than five
    attempts were made; the next attempt then waits 30 seconds, doubled for each
    attempt made, so between half a minute and eight minutes.  Every other
    outcome is final: sent, suppressed, or failed. *)
Theorem Classify_schedule (err : option send_error) (attempts : Z) (now : time) :
  (0 <= attempts)%Z ->
  let c := Classify err attempts now in
  (cl_Retry c = true <->
     exists e, err = Some e /\ se_suppressed e = false /\ classify_kind e = (false, true) /\ (attempts < 5)%Z) /\
  (cl_Retry c = true -> cl_Status c = "retry" /\ cl_NotBefore c = (now + 30 * Second * 2 ^ attempts)%Z /\
                        (now + 30 * Second <= cl_NotBefore c <= now + 8 * Minute)%Z) /\
  (cl_Retry c = false ->
     match err with
     | None => cl_Status c = "sent"
     | Some e => cl_Status c = if se_suppressed e then "suppressed" else "failed"
     end).
Proof.
  intros Ha. unfold Classify. destruct err as [e|]; simpl; [|split_and!; [split; [done|by intros (e & ? & _)]|done|done]].
  destruct (se_suppressed e) eqn:Hs; simpl; [split_and!; [split; [done|naive_solver congruence]|done|done]|].
  destruct (classify_kind e) as [[] []] eqn:Hk; simpl; try (split_and!; [split; [done|naive_solver congruence]|done|done]).
  - destruct (Z.leb_spec 5 attempts); simpl; [split_and!; [split; [done|naive_solver lia]|done|done]|].
    rewrite retry_delay_small by lia. split_and!; [naive_solver| |done]. intros _. split_and!; [done|done| |];
      unfold Add; pose proof (Z.pow_pos_nonneg 2 attempts ltac:(lia) ltac:(lia));
      pose proof (Z.pow_le_mono_r 2 attempts 4 ltac:(lia) ltac:(lia)); unfold Minute, Second; lia.
  - destruct (5 <=? attempts)%Z; simpl; split_and!; try done; split; try done; naive_solver congruence.
Qed.

Definition demo_throttled : send_error :=
  {| se_suppressed := false; se_http := Some 429%Z; se_response := None; se_api := None; se_net := false;
     se_rejected := false; se_suspended := false; se_text := "provider: http 429: slow down" |}.

Lemma Classify_schedule_witness :
  cl_Retry (Classify (Some demo_throttled) 2 1000) = true /\
  cl_NotBefore (Classify (Some demo_throttled) 2 1000) = (1000 + 30 * Second * 2 ^ 2)%Z /\
  cl_Status (Classify (Some demo_throttled) 5 1000) = "failed".
Proof.
  destruct (Classify_schedule (Some demo_throttled) 2 1000 ltac:(lia)) as (_ & H2 & _).
  split; [reflexivity|]. destruct H2 as (_ & Hn & _); [reflexivity|]. split; [exact Hn|reflexivity].
Defined.

(** ** The client cache *)

Section CacheFacts.
Context {D : Type}.
Implicit Types (c : Cache D) (m : gmap uuid (cacheEntry D)) (op : cache_op D) (ops : list (cache_op D)).

(** Uses are stamped with the cache's clock, so no two entries share a stamp and
    the least recently used entry is one, whatever order a map is walked in. *)
Record cache_ok c : Prop := {
  co_size : size (ca_entries c) <= providerCacheCapacity;
  co_clock : forall id e, ca_entries c !! id = Some e -> (ce_lastUsed e <= ca_clock c)%N;
  co_distinct : forall i j ei ej, ca_entries c !! i = Some ei -> ca_entries c !! j = Some ej ->
    ce_lastUsed ei = ce_lastUsed ej -> i = j
}.

Lemma older_fold (l : list (uuid * cacheEntry D)) acc x :
  fold_left older_entry l acc = Some x ->
  (acc = Some x \/ x ∈ l) /\
  (forall y, acc = Some y \/ y ∈ l -> (ce_lastUsed x.2 <= ce_lastUsed y.2)%N).
Proof.
  revert acc. induction l as [|a l IH]; intros acc; simpl.
  - intros ->. split; [by left|]. intros y [[= ->]|Hy]; [lia|by apply not_elem_of_nil in Hy].
  - intros Hf. apply IH in Hf as [Hin Hmin]. destruct acc as [b|]; simpl in *.
    + destruct (N.ltb_spec (ce_lastUsed a.2) (ce_lastUsed b.2)).
      * split; [destruct Hin as [[= ->]|?]; right; [left|by right]|].
        intros y [[= ->]|[->|Hy]%elem_of_cons]; [|by apply Hmin; left|by apply Hmin; right].
        pose proof (Hmin a (or_introl eq_refl)). lia.
      * split; [destruct Hin as [?|?]; [by left|right; by right]|].
        intros y [[= ->]|[->|Hy]%elem_of_cons]; [by apply Hmin; left| |by apply Hmin; right].
        pose proof (Hmin b (or_introl eq_refl)). lia.
    + split; [destruct Hin as [[= ->]|?]; right; [left|by right]|].
      intros y [?|[->|Hy]%elem_of_cons]; [done|by apply Hmin; left|by apply Hmin; right].
Qed.

Lemma older_fold_some (l : list (uuid * cacheEntry D)) x : exists y, fold_left older_entry l (Some x) = Some y.
Proof. revert x. induction l as [|a l IH]; intros x; simpl; [by exists x|]. destruct (_ <? _)%N; apply IH. Qed.

(** The entry evicted is one that is least recently used. *)
Lemma evict_spec m :
  m <> ∅ -> exists id e, m !! id = Some e /\ removeLeastRecentlyUsedLocked m = delete id m /\
    (forall id' e', m !! id' = Some e' -> (ce_lastUsed e <= ce_lastUsed e')%N).
Proof.
  intros Hne. unfold removeLeastRecentlyUsedLocked.
  destruct (fold_left older_entry (map_to_list m) None) as [[id e]|] eqn:Hf.
  - apply older_fold in Hf as [[?|Hin] Hmin]; [done|]. exists id, e.
    apply elem_of_map_to_list in Hin. split_and!; [done|done|].
    intros id' e' He'. apply (Hmin (id', e')). right. by apply elem_of_map_to_list.
  - exfalso. destruct (map_to_list m) as [|x l] eqn:Hl; [by apply map_to_list_empty_iff in Hl|].
    simpl in Hf. destruct (older_fold_some l x) as [y Hy]. congruence.
Qed.

Lemma make_room_subset fuel m : make_room fuel m ⊆ m.
Proof.
  revert m. induction fuel as [|fuel IH]; intros m; cbn [make_room]; [done|].
  destruct (Nat.leb providerCacheCapacity (size m)); [|done].
  etrans; [apply IH|]. unfold removeLeastRecentlyUsedLocked.
  destruct (fold_left _ _ _) as [[id e]|]; [apply delete_subseteq|done].
Qed.

(** The loop ends with room for one more. *)
Lemma make_room_size fuel m : size m <= fuel -> size (make_room fuel m) < providerCacheCapacity.
Proof.
  revert m. induction fuel as [|fuel IH]; intros m Hs; cbn [make_room]; [unfold providerCacheCapacity; lia|].
  destruct (Nat.leb_spec providerCacheCapacity (size m)) as [Hcap|]; [|done]. apply IH. unfold providerCacheCapacity in Hcap.
  destruct (evict_spec m) as (id & e & He & -> & _).
  { intros ->. rewrite map_size_empty in *. lia. }
  rewrite map_size_delete_Some by done. lia.
Qed.

Lemma expired_subset now m : removeExpiredLocked now m ⊆ m.
Proof. apply map_filter_subseteq. Qed.

Lemma cache_ok_shrink c m clock :
  cache_ok c -> m ⊆ ca_entries c -> (ca_clock c <= clock)%N -> cache_ok (set_entries m clock c).
Proof.
  intros [Hs Hc Hd] Hm Hk. split; simpl.
  - pose proof (map_subseteq_size _ _ Hm). lia.
  - intros id e He. pose proof (Hc id e (lookup_weaken _ _ _ _ He Hm)). lia.
  - intros i j ei ej Hi Hj. apply Hd; by eapply lookup_weaken.
Qed.

(** An entry is written with a new stamp. *)
Lemma cache_ok_write c m id e :
  cache_ok c -> m ⊆ ca_entries c -> ce_lastUsed e = (ca_clock c + 1)%N ->
  (size m < providerCacheCapacity \/ is_Some (m !! id)) ->
  cache_ok (set_entries (<[id := e]> m) (ca_clock c + 1) c).
Proof.
  intros Hok Hm He Hsz. destruct (cache_ok_shrink c m (ca_clock c) Hok Hm ltac:(lia)) as [Hs Hc Hd]. simpl in *.
  assert (Hold : forall k x, m !! k = Some x -> ce_lastUsed x <> ce_lastUsed e).
  { intros k x Hk. pose proof (Hc k x Hk). lia. }
  split; simpl.
  - rewrite map_size_insert. destruct (m !! id) eqn:Hl; simpl; [lia|]. destruct Hsz as [?|[? ?]]; [lia|congruence].
  - intros k x. rewrite lookup_insert. case_decide; [intros [= <-]; lia|]. intros Hk. pose proof (Hc k x Hk). lia.
  - intros i j ei ej. rewrite !lookup_insert. case_decide; case_decide; intros Hi Hj Hl; simplify_eq; [done| | |by eapply Hd].
    + exfalso. by apply (Hold j ej).
    + exfalso. by apply (Hold i ei).
Qed.

Lemma cache_step_ok c op : cache_ok c -> cache_ok (cache_step c op).
Proof.
  intros Hok. destruct op as [now p|now now' p g d|id]; simpl.
  - unfold resolve_begin. set (m := removeExpiredLocked now (ca_entries c)).
    assert (Hm : m ⊆ ca_entries c) by apply expired_subset.
    assert (Hmiss : cache_ok (set_entries m (ca_clock c + 1) c)) by (apply cache_ok_shrink; [done|done|lia]).
    destruct (m !! pv_ID p) as [e|] eqn:He; [|done]. destruct (_ =? _)%Z; [|done].
    simpl. apply cache_ok_write; [done|done|done|right; by exists e].
  - unfold resolve_end. destruct (negb _); [done|]. simpl.
    apply cache_ok_write; [done| |done|].
    + etrans; [apply make_room_subset|apply expired_subset].
    + left. by apply make_room_size.
  - destruct Hok as [Hs Hc Hd]. split; simpl.
    + pose proof (map_subseteq_size _ _ (delete_subseteq (ca_entries c) id)). lia.
    + intros k e [_ He]%lookup_delete_Some. by eapply Hc.
    + intros i j ei ej [_ Hi]%lookup_delete_Some [_ Hj]%lookup_delete_Some. by apply Hd.
Qed.

Lemma cache_run_ok ops ttl : cache_ok (cache_run ops (NewCache ttl)).
Proof.
  assert (Hinit : cache_ok (NewCache ttl : Cache D)) by by split; simpl; [rewrite map_size_empty; lia|..].
  unfold cache_run. revert Hinit. generalize (NewCache ttl : Cache D). induction ops as [|op ops IH]; intros c Hc; simpl; [done|].
  by apply IH, cache_step_ok.
Qed.

(** Where a client of the cache comes from: a completed build, for this profile,
    that no invalidation overtook, with no invalidation of the profile since. *)
Definition built (ops : list (cache_op D)) (c0 : Cache D) (id : uuid) (e : cacheEntry D) : Prop :=
  exists pre now0 now1 p generation post,
    ops = pre ++ OpEnd now0 now1 p generation (ce_deliverer e) :: post /\
    pv_ID p = id /\ pv_UpdatedAt p = ce_updatedAt e /\ ce_expiresAt e = (now0 + ca_ttl c0)%Z /\
    generation = ca_generation (cache_run pre c0) /\ OpInvalidate id ∉ post.

Lemma built_snoc ops c0 id e op : op <> OpInvalidate id -> built ops c0 id e -> built (ops ++ [op]) c0 id e.
Proof.
  intros Hop (pre & t0 & t1 & p & g & post & -> & Hp). exists pre, t0, t1, p, g, (post ++ [op]).
  rewrite <- app_assoc. split; [done|]. destruct Hp as (H1 & H2 & H3 & H4 & H5). split_and!; try done.
  rewrite elem_of_app, list_elem_of_singleton. naive_solver.
Qed.

Lemma built_touch ops c0 id e clock : built ops c0 id e -> built ops c0 id (touch clock e).
Proof. done. Qed.

Lemma cache_run_snoc ops op c : cache_run (ops ++ [op]) c = cache_step (cache_run ops c) op.
Proof. unfold cache_run. by rewrite fold_left_app. Qed.

Lemma cache_run_ttl ops c : ca_ttl (cache_run ops c) = ca_ttl c.
Proof.
  induction ops as [|op ops IH] using rev_ind; [done|]. rewrite cache_run_snoc, <- IH.
  destruct op; simpl; [|by unfold resolve_end; destruct (negb _)|done].
  unfold resolve_begin. destruct (_ !! _); [|done]. by destruct (_ =? _)%Z.
Qed.

Lemma cache_built ops c0 id e :
  ca_entries c0 = ∅ -> ca_entries (cache_run ops c0) !! id = Some e -> built ops c0 id e.
Proof.
  intros H0. revert id e. induction ops as [|op ops IH] using rev_ind; intros id e; [by simpl; rewrite H0|].
  rewrite cache_run_snoc. set (c := cache_run ops c0) in *. destruct op as [now p|now now' p g d|i]; simpl.
  - assert (Hm : forall i x, removeExpiredLocked now (ca_entries c) !! i = Some x -> built (ops ++ [OpBegin now p]) c0 i x).
    { intros i x Hx. apply built_snoc; [done|]. apply IH. eapply lookup_weaken; [done|apply expired_subset]. }
    unfold resolve_begin. destruct (_ !! pv_ID p) as [x|] eqn:Hx; [|apply Hm]. destruct (_ =? _)%Z; [|apply Hm].
    simpl. rewrite lookup_insert. case_decide as Hi; [|apply Hm]. intros [= <-]. subst id. by apply built_touch, Hm.
  - unfold resolve_end. destruct (N.eqb_spec g (ca_generation c)) as [Hg|]; simpl; [|intros He; by apply built_snoc, IH].
    rewrite lookup_insert. case_decide as Hi.
    + intros [= <-]. exists ops, now, now', p, g, []. simpl. unfold c. rewrite cache_run_ttl.
      split_and!; try done. apply not_elem_of_nil.
    + intros He. apply built_snoc; [done|]. apply IH. eapply lookup_weaken; [done|].
      etrans; [apply make_room_subset|apply expired_subset].
  - intros [Hi He]%lookup_delete_Some. apply built_snoc; [congruence|by apply IH].
Qed.

Definition is_invalidation (op : cache_op D) : bool := match op with OpInvalidate _ => true | _ => false end.

(** The generation counts the invalidations. *)
Lemma cache_generation ops c :
  ca_generation (cache_run ops c) = (ca_generation c + N.of_nat (length (List.filter is_invalidation ops)))%N.
Proof.
  induction ops as [|op ops IH] using rev_ind; [simpl; lia|]. rewrite cache_run_snoc, List.filter_app, length_app.
  destruct op as [now p|now now' p g d|i]; simpl; rewrite ?Nat.add_0_r.
  - rewrite <- IH. unfold resolve_begin. destruct (_ !! _); [|done]. by destruct (_ =? _)%Z.
  - rewrite <- IH. by unfold resolve_end; destruct (negb _).
  - rewrite IH. lia.
Qed.

Lemma resolve_begin_miss now p c c' g : resolve_begin now p c = (c', inr g) -> g = ca_generation c.
Proof. unfold resolve_begin. destruct (_ !! _); [destruct (_ =? _)%Z|]; intros [= _ <-]; done. Qed.

(** Whatever calls ran, the cache holds at most 32 clients, and a client that
    [Resolve] finds in it was built, less than the time to live ago, from this
    very version of the profile; the profile was not invalidated since the build
    was stored, and no profile was between the lookup that started the build and
    that moment. *)
Theorem provider_cache_fresh (ops : list (cache_op D)) (ttl : duration) (now : time) (p : profile_version)
    (c' : Cache D) (d : D) :
  let c0 := NewCache ttl in
  let c := cache_run ops c0 in
  resolve_begin now p c = (c', inl d) ->
  size (ca_entries c) <= providerCacheCapacity /\
  exists pre now0 now1 generation post,
    ops = pre ++ OpEnd now0 now1 p generation d :: post /\ (now < now0 + ca_ttl c0)%Z /\
    OpInvalidate (pv_ID p) ∉ post /\
    (forall pre0 mid t c1, pre = pre0 ++ mid -> resolve_begin t p (cache_run pre0 c0) = (c1, inr generation) ->
       forall id, OpInvalidate id ∉ mid).
Proof.
  intros c0 c Hr. split; [apply cache_run_ok|].
  unfold resolve_begin in Hr. destruct (removeExpiredLocked now (ca_entries c) !! pv_ID p) as [e|] eqn:He; [|done].
  destruct (Z.eqb_spec (ce_updatedAt e) (pv_UpdatedAt p)) as [Hu|]; [|done]. injection Hr as _ <-.
  apply lookup_mdelete_Some in He as [He Hlive]. apply negb_false_iff in Hlive. unfold Before in Hlive.
  apply cache_built in He as (pre & t0 & t1 & q & g & post & -> & Hid & Hup & Hexp & Hg & Hpost); [|done].
  assert (q = p) as -> by (destruct p, q; simpl in *; congruence).
  exists pre, t0, t1, g, post. split_and!; [done|lia|done|]. intros pre0 mid t c1 -> Hb id Hin.
  apply resolve_begin_miss in Hb. rewrite Hg, !cache_generation, List.filter_app, length_app in Hb.
  assert (1 <= length (List.filter is_invalidation mid)); [|lia].
  destruct (List.filter is_invalidation mid) eqn:Hf; [|simpl; lia]. exfalso.
  assert (OpInvalidate id ∈ List.filter is_invalidation mid) as Hi; [|rewrite Hf in Hi; by apply not_elem_of_nil in Hi].
  apply list_elem_of_In, List.filter_In. split; [by apply list_elem_of_In|done].
Qed.
End CacheFacts.

Definition demo_profile_version : profile_version := {| pv_ID := 5; pv_UpdatedAt := 100%Z |}.
Definition demo_cache_ops : list (cache_op string) :=
  [OpBegin 1000 demo_profile_version; OpInvalidate 6; OpBegin 1010 demo_profile_version;
   OpEnd 1000 1020 demo_profile_version 0 "overtaken"; OpEnd 1010 1030 demo_profile_version 1 "client"].

Lemma provider_cache_fresh_witness :
  (resolve_begin 2000 demo_profile_version (cache_run demo_cache_ops (NewCache 0))).2 = inl "client" /\
  exists pre now0 now1 generation post,
    demo_cache_ops = pre ++ OpEnd now0 now1 demo_profile_version generation "client" :: post.
Proof.
  split; [vm_compute; reflexivity|].
  destruct (provider_cache_fresh demo_cache_ops 0 2000 demo_profile_version
              (resolve_begin 2000 demo_profile_version (cache_run demo_cache_ops (NewCache 0))).1 "client")
    as (_ & pre & t0 & t1 & g & post & Hops & _).
  { rewrite (surjective_pairing (resolve_begin _ _ _)). f_equal. }
  by exists pre, t0, t1, g, post.
Defined.
