(* ===== verification/MailCache.v ===== *)
(** * The cache of compiled content: [compiledContentCache] of [internal/mailing/sendworker.go]

    Compiled campaign and template bodies, keyed by the versions of everything
    they were compiled from, in a map and a list in order of use, with a bound on
    the number of entries, on the bytes they hold and on their age.  An element
    of the list is identified with the entry it points to; the front of the list
    comes first.  The methods hold the lock throughout, so a run is a sequence of
    calls. *)

From S2P Require Import Prelude GoStrings GoTime GoJson.

Record Compiled := { HTML : string }.

Record compiledCacheKey := {
  contentKind : string; contentID : uuid; profileID : uuid; brandID : uuid;
  contentVersion : Z; profileVersion : Z; brandVersion : Z
}.
#[export] Instance compiledCacheKey_eq_dec : EqDecision compiledCacheKey.
Proof. solve_decision. Defined.
#[export] Instance compiledCacheKey_countable : Countable compiledCacheKey.
Proof.
  apply (inj_countable'
    (fun k => (contentKind k, contentID k, profileID k, brandID k, contentVersion k, profileVersion k, brandVersion k))
    (fun '(a, b, c, d, e, f, g) => Build_compiledCacheKey a b c d e f g)).
  by intros [].
Defined.

Record compiledCacheEntry := {
  en_key : compiledCacheKey; en_value : Compiled; en_bytes : Z; en_expiresAt : time
}.

Record compiledContentCache := {
  cc_entries : gmap compiledCacheKey compiledCacheEntry;
  cc_lru : list compiledCacheEntry;
  cc_bytes : Z;
  cc_maxEntries : Z; cc_maxBytes : Z; cc_ttl : duration
}.

Definition compiledCacheMaxEntries : Z := 128.
Definition compiledCacheMaxBytes : Z := 8 * 2 ^ 20.
Definition compiledCacheTTL : duration := 15 * Minute.

Definition newCompiledContentCache (maxEntries maxBytes : Z) (ttl : duration) : compiledContentCache :=
  {| cc_entries := ∅; cc_lru := []; cc_bytes := 0; cc_maxEntries := maxEntries; cc_maxBytes := maxBytes;
     cc_ttl := ttl |}.

Definition with_contents (m : gmap compiledCacheKey compiledCacheEntry) (l : list compiledCacheEntry) (b : Z)
    (c : compiledContentCache) : compiledContentCache :=
  {| cc_entries := m; cc_lru := l; cc_bytes := b; cc_maxEntries := cc_maxEntries c;
     cc_maxBytes := cc_maxBytes c; cc_ttl := cc_ttl c |}.

(** [lru.Remove(element)] *)
Definition unlink (e : compiledCacheEntry) (l : list compiledCacheEntry) : list compiledCacheEntry :=
  List.filter (fun x => negb (bool_decide (en_key x = en_key e))) l.

Definition remove (e : compiledCacheEntry) (c : compiledContentCache) : compiledContentCache :=
  with_contents (delete (en_key e) (cc_entries c)) (unlink e (cc_lru c)) (cc_bytes c - en_bytes e) c.

Definition expired (now : time) (e : compiledCacheEntry) : bool := negb (Before now (en_expiresAt e)).

(** Removes the elements of [l] that satisfy [f], one after the other. *)
Definition remove_if (f : compiledCacheEntry -> bool) (l : list compiledCacheEntry) (c : compiledContentCache)
  : compiledContentCache :=
  fold_left (fun c e => if f e then remove e c else c) l c.

(** From the back of the list to its front. *)
Definition evictExpired (now : time) (c : compiledContentCache) : compiledContentCache :=
  remove_if (expired now) (rev (cc_lru c)) c.

Definition cache_get (now : time) (key : compiledCacheKey) (c : compiledContentCache)
  : compiledContentCache * option Compiled :=
  match cc_entries c !! key with
  | None => (c, None)
  | Some entry =>
      if expired now entry then (remove entry c, None)
      else (with_contents (cc_entries c) (entry :: unlink entry (cc_lru c)) (cc_bytes c) c, Some (en_value entry))
  end.

(** [k] was compiled from another version of something [key] was compiled from. *)
Definition superseded (key k : compiledCacheKey) : bool :=
  (String.eqb (contentKind k) (contentKind key) && N.eqb (contentID k) (contentID key) &&
   negb (contentVersion k =? contentVersion key)%Z) ||
  (N.eqb (profileID k) (profileID key) && negb (profileVersion k =? profileVersion key)%Z) ||
  (negb (N.eqb (brandID key) uuid_Nil) && N.eqb (brandID k) (brandID key) &&
   negb (brandVersion k =? brandVersion key)%Z).
Definition outdated (key : compiledCacheKey) (e : compiledCacheEntry) : bool := superseded key (en_key e).

(** [for len(c.entries) > c.maxEntries || c.bytes > c.maxBytes { c.remove(c.lru.Back()) }] *)
Fixpoint trim (fuel : nat) (c : compiledContentCache) : compiledContentCache :=
  match fuel with
  | O => c
  | S fuel =>
      if ((cc_maxEntries c <? Z.of_nat (size (cc_entries c))) || (cc_maxBytes c <? cc_bytes c))%Z
      then trim fuel (match last (cc_lru c) with Some e => remove e c | None => c end)
      else c
  end.

(** [now'] is the clock when the new entry is made. *)
Definition cache_put (now now' : time) (key : compiledCacheKey) (value : Compiled) (c : compiledContentCache)
  : compiledContentCache :=
  let sz := len (HTML value) in
  if (cc_maxBytes c <? sz)%Z then c else
  let c := evictExpired now c in
  let c := match cc_entries c !! key with Some existing => remove existing c | None => c end in
  let c := remove_if (outdated key) (map snd (map_to_list (cc_entries c))) c in
  let entry := {| en_key := key; en_value := value; en_bytes := sz; en_expiresAt := Add now' (cc_ttl c) |} in
  let c := with_contents (<[key := entry]> (cc_entries c)) (entry :: cc_lru c) (cc_bytes c + sz) c in
  trim (length (cc_lru c)) c.

Definition invalidateContent (id : uuid) (c : compiledContentCache) : compiledContentCache :=
  remove_if (fun e => N.eqb (contentID (en_key e)) id) (map snd (map_to_list (cc_entries c))) c.

Definition stats (now : time) (c : compiledContentCache) : compiledContentCache * (nat * Z) :=
  let c := evictExpired now c in (c, (size (cc_entries c), cc_bytes c)).

Inductive content_op :=
| CGet (now : time) (key : compiledCacheKey)
| CPut (now now' : time) (key : compiledCacheKey) (value : Compiled)
| CInvalidate (id : uuid)
| CStats (now : time).

Definition content_step (c : compiledContentCache) (op : content_op) : compiledContentCache :=
  match op with
  | CGet now key => (cache_get now key c).1
  | CPut now now' key value => cache_put now now' key value c
  | CInvalidate id => invalidateContent id c
  | CStats now => (stats now c).1
  end.
Definition content_run (ops : list content_op) (c : compiledContentCache) : compiledContentCache :=
  fold_left content_step ops c.

(** ** The invariant *)

(** The map and the list hold the same entries, each under its key and once; the
    byte count is the sum of their sizes. *)
Definition total_bytes (l : list compiledCacheEntry) : Z := fold_right (fun e n => en_bytes e + n)%Z 0%Z l.

Record linked (c : compiledContentCache) : Prop := {
  ln_nodup : NoDup (map en_key (cc_lru c));
  ln_map : cc_entries c = list_to_map (map (fun e => (en_key e, e)) (cc_lru c));
  ln_bytes : cc_bytes c = total_bytes (cc_lru c);
  ln_sizes : Forall (fun e => en_bytes e = len (HTML (en_value e))) (cc_lru c)
}.

(** Within the bounds, too. *)
Record cache_inv (c : compiledContentCache) : Prop := {
  ci_linked : linked c;
  ci_entries : (Z.of_nat (size (cc_entries c)) <= cc_maxEntries c)%Z;
  ci_bytes : (cc_bytes c <= cc_maxBytes c)%Z
}.

Lemma unlink_fresh (e : compiledCacheEntry) (l : list compiledCacheEntry) :
  en_key e ∉ map en_key l -> unlink e l = l.
Proof.
  intros Hn. unfold unlink. induction l as [|x l IH]; simpl in *; [done|].
  rewrite not_elem_of_cons in Hn. destruct Hn as [Hne Hn].
  rewrite bool_decide_eq_false_2 by congruence. simpl. by rewrite IH.
Qed.

Lemma elem_of_unlink (e x : compiledCacheEntry) (l : list compiledCacheEntry) :
  x ∈ unlink e l <-> x ∈ l /\ en_key x <> en_key e.
Proof.
  unfold unlink. rewrite list_elem_of_In, List.filter_In, <- list_elem_of_In, negb_true_iff, bool_decide_eq_false. done.
Qed.

(** Taking out one entry of the list. *)
Lemma unlink_split (e : compiledCacheEntry) (l : list compiledCacheEntry) :
  NoDup (map en_key l) -> e ∈ l -> exists l1 l2, l = l1 ++ e :: l2 /\ unlink e l = l1 ++ l2.
Proof.
  intros Hnd Hin. apply list_elem_of_split in Hin as (l1 & l2 & ->). exists l1, l2. split; [done|].
  rewrite map_app in Hnd. simpl in Hnd. apply NoDup_app in Hnd as (_ & Hd & Hnd%NoDup_cons). destruct Hnd as [Hn2 _].
  assert (en_key e ∉ map en_key l1) as Hn1 by (intros Hk; apply (Hd _ Hk); left).
  pose proof (unlink_fresh e l1 Hn1) as H1. pose proof (unlink_fresh e l2 Hn2) as H2.
  unfold unlink in *. rewrite List.filter_app. simpl. rewrite bool_decide_eq_true_2 by done. simpl. by rewrite H1, H2.
Qed.

Lemma total_bytes_app (l k : list compiledCacheEntry) :
  total_bytes (l ++ k) = (total_bytes l + total_bytes k)%Z.
Proof. induction l as [|e l IH]; simpl; [done|]. rewrite IH. lia. Qed.

Section Linked.
Context (c : compiledContentCache) (Hl : linked c).

Lemma linked_lookup (key : compiledCacheKey) (e : compiledCacheEntry) :
  cc_entries c !! key = Some e <-> e ∈ cc_lru c /\ en_key e = key.
Proof using Hl.
  destruct Hl as [Hnd Hm _ _]. rewrite Hm. rewrite <- elem_of_list_to_map.
  - rewrite list_elem_of_fmap. naive_solver.
  - rewrite <- list_fmap_compose. done.
Qed.

Lemma linked_size : size (cc_entries c) = length (cc_lru c).
Proof using Hl.
  destruct Hl as [Hnd Hm _ _]. rewrite Hm, map_size_list_to_map.
  - by rewrite length_map.
  - rewrite <- list_fmap_compose. done.
Qed.

Lemma linked_bytes_pos : (0 <= cc_bytes c)%Z.
Proof using Hl.
  destruct Hl as [_ _ -> Hs]. induction Hs as [|e l He _ IH]; simpl; [lia|]. rewrite He. unfold len. lia.
Qed.

(** Removing an entry of the cache keeps it linked and shrinks it. *)
Lemma remove_linked (e : compiledCacheEntry) :
  e ∈ cc_lru c ->
  linked (remove e c) /\ length (cc_lru (remove e c)) < length (cc_lru c) /\ (cc_bytes (remove e c) <= cc_bytes c)%Z.
Proof using Hl.
  intros He. destruct (unlink_split e (cc_lru c) (ln_nodup c Hl) He) as (l1 & l2 & Hs & Hu).
  destruct Hl as [Hnd Hm Hb Hz]. unfold remove. rewrite Hs in Hnd, Hz. rewrite map_app in Hnd. simpl in Hnd.
  apply NoDup_app in Hnd as (Hn1 & Hd & [Hn Hn2]%NoDup_cons). apply Forall_app in Hz as [Hz1 Hz2%Forall_cons]. destruct Hz2 as [Hze Hz2].
  assert (0 <= en_bytes e)%Z by (rewrite Hze; unfold len; lia).
  split_and!.
  - split; simpl; rewrite Hu.
    + rewrite map_app. apply NoDup_app. split_and!; [done| |done]. intros k Hk Hk'. apply (Hd k Hk). by right.
    + rewrite Hm, Hs. rewrite !map_app. simpl. rewrite !list_to_map_app. simpl.
      rewrite delete_union, delete_insert_eq. f_equal.
      * apply delete_id. apply not_elem_of_list_to_map_1. rewrite <- list_fmap_compose.
        intros Hk. apply (Hd _ Hk). left.
      * apply delete_id. apply not_elem_of_list_to_map_1. rewrite <- list_fmap_compose. done.
    + rewrite Hb, Hs, !total_bytes_app. simpl. lia.
    + by apply Forall_app.
  - simpl. rewrite Hu, Hs, !length_app. simpl. lia.
  - simpl. lia.
Qed.
End Linked.

Definition same_limits (c c' : compiledContentCache) : Prop :=
  cc_maxEntries c' = cc_maxEntries c /\ cc_maxBytes c' = cc_maxBytes c /\ cc_ttl c' = cc_ttl c.

(** Removing the selected entries leaves exactly the others. *)
Lemma remove_if_linked (f : compiledCacheEntry -> bool) (l : list compiledCacheEntry) (c : compiledContentCache) :
  linked c -> NoDup (map en_key l) -> (forall e, e ∈ l -> e ∈ cc_lru c) ->
  linked (remove_if f l c) /\ same_limits c (remove_if f l c) /\
  (forall x, x ∈ cc_lru (remove_if f l c) <-> x ∈ cc_lru c /\ (x ∈ l -> f x = false)) /\
  length (cc_lru (remove_if f l c)) <= length (cc_lru c) /\ (cc_bytes (remove_if f l c) <= cc_bytes c)%Z.
Proof.
  revert c. induction l as [|e l IH]; intros c Hc Hnd Hin; simpl.
  { split_and!; try done. intros x. split; [|by intros []]. intros Hx. split; [done|]. intros Hn. by apply not_elem_of_nil in Hn. }
  apply NoDup_cons in Hnd as [Hn Hnd]. assert (He : e ∈ cc_lru c) by (apply Hin; left).
  destruct (f e) eqn:Hf.
  - destruct (remove_linked c Hc e He) as (Hc' & Hlen & Hb).
    destruct (IH (remove e c) Hc' Hnd) as (H1 & H2 & H3 & H4 & H5).
    { intros x Hx. simpl. apply elem_of_unlink. split; [apply Hin; by right|].
      intros Hk. apply Hn. rewrite <- Hk. by apply list_elem_of_fmap_2. }
    split_and!; [done|done| |lia|lia]. intros x. rewrite H3. simpl. rewrite elem_of_unlink, elem_of_cons.
    split; [|].
    + intros [[Hx Hk] Hl]. split; [done|]. intros [->|?]; [done|by apply Hl].
    + intros [Hx Hl]. split; [|by intros ?; apply Hl; right]. split; [done|]. intros Hk.
      assert (x = e) as -> by (apply (NoDup_map_inj en_key (cc_lru c)); [apply Hc|done..]).
      by rewrite Hl in Hf by by left.
  - destruct (IH c Hc Hnd) as (H1 & H2 & H3 & H4 & H5); [intros x Hx; apply Hin; by right|].
    split_and!; try done. intros x. rewrite H3, elem_of_cons. naive_solver.
Qed.

Lemma rev_member (x : compiledCacheEntry) (l : list compiledCacheEntry) : x ∈ rev l <-> x ∈ l.
Proof. by rewrite !list_elem_of_In, <- in_rev. Qed.

Section Steps.
Context (c : compiledContentCache) (Hc : linked c).

Lemma lru_keys_rev : NoDup (map en_key (rev (cc_lru c))).
Proof using Hc. rewrite map_rev. apply NoDup_ListNoDup, List.NoDup_rev, NoDup_ListNoDup, Hc. Qed.

Lemma entries_list (x : compiledCacheEntry) : x ∈ map snd (map_to_list (cc_entries c)) <-> x ∈ cc_lru c.
Proof using Hc.
  rewrite list_elem_of_fmap. split.
  - intros ([k y] & -> & Hk%elem_of_map_to_list). by apply (linked_lookup c Hc) in Hk as [? _].
  - intros Hx. exists (en_key x, x). split; [done|]. apply elem_of_map_to_list. by apply (linked_lookup c Hc).
Qed.

Lemma entries_keys : NoDup (map en_key (map snd (map_to_list (cc_entries c)))).
Proof using Hc.
  replace (map en_key (map snd (map_to_list (cc_entries c)))) with (map_to_list (cc_entries c)).*1;
    [apply NoDup_fst_map_to_list|].
  rewrite map_map. apply list_fmap_ext. intros i [k x] Hx. simpl.
  apply list_elem_of_lookup_2, elem_of_map_to_list, (linked_lookup c Hc) in Hx as [_ <-]. done.
Qed.

Lemma evictExpired_linked (now : time) :
  linked (evictExpired now c) /\ same_limits c (evictExpired now c) /\
  (forall x, x ∈ cc_lru (evictExpired now c) <-> x ∈ cc_lru c /\ expired now x = false) /\
  length (cc_lru (evictExpired now c)) <= length (cc_lru c) /\ (cc_bytes (evictExpired now c) <= cc_bytes c)%Z.
Proof using Hc.
  destruct (remove_if_linked (expired now) (rev (cc_lru c)) c Hc lru_keys_rev) as (H1 & H2 & H3 & H4 & H5).
  { intros e. by rewrite rev_member. }
  split_and!; try done; unfold evictExpired. intros x. rewrite H3, rev_member. naive_solver.
Qed.

Lemma remove_entries_linked (f : compiledCacheEntry -> bool) :
  let c' := remove_if f (map snd (map_to_list (cc_entries c))) c in
  linked c' /\ same_limits c c' /\ (forall x, x ∈ cc_lru c' <-> x ∈ cc_lru c /\ f x = false) /\
  length (cc_lru c') <= length (cc_lru c) /\ (cc_bytes c' <= cc_bytes c)%Z.
Proof using Hc.
  destruct (remove_if_linked f _ c Hc entries_keys) as (H1 & H2 & H3 & H4 & H5).
  { intros e. by apply entries_list. }
  simpl. split_and!; try done. intros x. rewrite H3, entries_list. naive_solver.
Qed.

(** The loop at the end of [put] stops within the bounds, and drops entries only
    from the back: the front one stays when it fits on its own. *)
Lemma trim_inv (fuel : nat) :
  length (cc_lru c) <= fuel -> (0 <= cc_maxEntries c)%Z -> (0 <= cc_maxBytes c)%Z ->
  cache_inv (trim fuel c) /\ same_limits c (trim fuel c) /\ (forall x, x ∈ cc_lru (trim fuel c) -> x ∈ cc_lru c) /\
  (forall e l, cc_lru c = e :: l -> (1 <= cc_maxEntries c)%Z -> (en_bytes e <= cc_maxBytes c)%Z -> e ∈ cc_lru (trim fuel c)).
Proof using Hc.
  clear -Hc. revert c Hc. induction fuel as [|fuel IH]; intros c Hc Hf He Hb; cbn [trim].
  - assert (cc_lru c = []) as Hn by (destruct (cc_lru c); simpl in *; [done|lia]).
    split_and!; [|done|done|by rewrite Hn]. split; [done|rewrite linked_size, Hn by done; simpl; lia|].
    rewrite (ln_bytes c Hc), Hn. simpl. lia.
  - destruct ((_ <? _)%Z || _)%Z eqn:Hover.
    + destruct (last (cc_lru c)) as [e|] eqn:Hlast.
      2:{ apply last_None in Hlast. rewrite linked_size, (ln_bytes c Hc), Hlast in Hover by done.
          apply orb_true_iff in Hover. simpl in Hover. to_prop. destruct Hover; to_prop; lia. }
      pose proof (last_Some_elem_of _ _ Hlast) as Hin.
      destruct (remove_linked c Hc e Hin) as (Hc' & Hlen & Hby).
      destruct (IH (remove e c) Hc') as (H1 & H2 & H3 & H4); [lia|done|done|].
      split_and!; [done|done| |].
      * intros x Hx. apply H3 in Hx. simpl in Hx. by apply elem_of_unlink in Hx as [? _].
      * intros e0 l Hl Hm Hsz. destruct (decide (en_key e0 = en_key e)) as [Hk|Hk].
        -- exfalso. assert (e0 = e) as ->.
           { apply (NoDup_map_inj en_key (cc_lru c)); [apply Hc| |done|done]. rewrite Hl. left. }
           assert (l = []) as ->.
           { pose proof (ln_nodup c Hc) as Hnd. rewrite Hl in Hnd, Hlast. destruct l as [|y l]; [done|].
             simpl in Hnd. apply NoDup_cons in Hnd as [Hn _]. exfalso. apply Hn.
             rewrite last_cons_cons in Hlast. change (en_key y :: map en_key l) with (map en_key (y :: l)).
             apply list_elem_of_fmap_2. by apply last_Some_elem_of. }
           rewrite linked_size, (ln_bytes c Hc), Hl in Hover by done. simpl in Hover.
           apply orb_true_iff in Hover as [Hover|Hover]; to_prop; lia.
        -- apply (H4 e0 (unlink e l)); [|done|done]. simpl. rewrite Hl. unfold unlink. simpl.
           by rewrite bool_decide_eq_false_2 by done.
    + apply orb_false_iff in Hover as [H1 H2]. to_prop. split_and!; [by split|done|done|].
      intros e l -> _ _. left.
Qed.
End Steps.

(** ** Runs *)

Lemma front_linked (c : compiledContentCache) (e : compiledCacheEntry) :
  linked c -> e ∈ cc_lru c -> linked (with_contents (cc_entries c) (e :: unlink e (cc_lru c)) (cc_bytes c) c).
Proof.
  intros Hc He. destruct (remove_linked c Hc e He) as (Hr & _). destruct Hr as [Hnd Hm Hb Hs]. simpl in *.
  assert (Hn : en_key e ∉ map en_key (unlink e (cc_lru c))).
  { intros (x & Hk & Hx)%list_elem_of_fmap. apply elem_of_unlink in Hx as [_ Hx]. congruence. }
  split; simpl.
  - by apply NoDup_cons.
  - rewrite <- Hm. rewrite insert_delete_eq. symmetry. apply insert_id. by apply (linked_lookup c Hc).
  - rewrite <- Hb. lia.
  - apply Forall_cons. split; [|done]. destruct Hc as [_ _ _ Hz]. by eapply Forall_forall in Hz.
Qed.

Lemma push_linked (c : compiledContentCache) (e : compiledCacheEntry) :
  linked c -> en_key e ∉ map en_key (cc_lru c) -> en_bytes e = len (HTML (en_value e)) ->
  linked (with_contents (<[en_key e := e]> (cc_entries c)) (e :: cc_lru c) (cc_bytes c + en_bytes e) c).
Proof.
  intros [Hnd Hm Hb Hs] Hn He. split; simpl; [by apply NoDup_cons|by rewrite Hm|rewrite Hb; lia|by apply Forall_cons].
Qed.

Lemma get_inv (now : time) (key : compiledCacheKey) (c : compiledContentCache) :
  cache_inv c ->
  cache_inv (cache_get now key c).1 /\ same_limits c (cache_get now key c).1 /\
  (forall x, x ∈ cc_lru (cache_get now key c).1 -> x ∈ cc_lru c).
Proof.
  intros [Hc He Hb]. unfold cache_get. destruct (cc_entries c !! key) as [e|] eqn:Hk; [|done].
  apply (linked_lookup c Hc) in Hk as [Hin _].
  destruct (remove_linked c Hc e Hin) as (Hr & Hlen & Hby).
  destruct (expired now e); simpl fst.
  - split_and!; [|done|intros x; simpl; rewrite elem_of_unlink; tauto]. rewrite (linked_size c Hc) in He.
    split; [done|rewrite linked_size by done; simpl in *; lia|simpl in *; lia].
  - split_and!; [|done|]; [split; [by apply front_linked|done|done]|].
    intros x. simpl. rewrite elem_of_cons, elem_of_unlink. naive_solver.
Qed.

(** What [put] leaves in the cache. *)
Lemma put_inv (now now' : time) (key : compiledCacheKey) (value : Compiled) (c : compiledContentCache) :
  cache_inv c -> (0 <= cc_maxEntries c)%Z -> (0 <= cc_maxBytes c)%Z ->
  let c' := cache_put now now' key value c in
  let entry := {| en_key := key; en_value := value; en_bytes := len (HTML value); en_expiresAt := Add now' (cc_ttl c) |} in
  cache_inv c' /\ same_limits c c' /\
  ((cc_maxBytes c < len (HTML value))%Z /\ c' = c \/
   (len (HTML value) <= cc_maxBytes c)%Z /\
   (forall x, x ∈ cc_lru c' -> x = entry \/ (x ∈ cc_lru c /\ en_key x <> key /\ superseded key (en_key x) = false)) /\
   ((1 <= cc_maxEntries c)%Z -> entry ∈ cc_lru c')).
Proof.
  intros Hc He Hb c' entry. unfold c', cache_put. destruct (Z.ltb_spec (cc_maxBytes c) (len (HTML value))); [split_and!; [done|done|by left]|].
  destruct (evictExpired_linked c (ci_linked c Hc) now) as (L1 & (E1 & E2 & E3) & M1 & _).
  set (c1 := evictExpired now c) in *. cbv zeta.
  assert (exists c2, c2 = match cc_entries c1 !! key with Some existing => remove existing c1 | None => c1 end /\
    linked c2 /\ same_limits c1 c2 /\ (forall x, x ∈ cc_lru c2 -> x ∈ cc_lru c1 /\ en_key x <> key)) as (c2 & <- & L2 & (F1 & F2 & F3) & M2).
  { eexists. split; [done|]. destruct (cc_entries c1 !! key) as [x|] eqn:Hk.
    - apply (linked_lookup c1 L1) in Hk as [Hin Hk]. destruct (remove_linked c1 L1 x Hin) as (L2 & _).
      split_and!; try done. intros y. simpl. rewrite elem_of_unlink. by rewrite Hk.
    - split_and!; try done. intros y Hy. split; [done|]. intros Hyk.
      assert (cc_entries c1 !! key = Some y) by (by apply (linked_lookup c1 L1)). congruence. }
  destruct (remove_entries_linked c2 L2 (outdated key)) as (L3 & (G1 & G2 & G3) & M3 & _). simpl in L3, G1, G2, G3, M3.
  set (c3 := remove_if (outdated key) (map snd (map_to_list (cc_entries c2))) c2) in *.
  rewrite G3, F3, E3. fold entry.
  set (c4 := with_contents (<[key := entry]> (cc_entries c3)) (entry :: cc_lru c3) (cc_bytes c3 + len (HTML value)) c3).
  assert (L4 : linked c4).
  { apply (push_linked c3 entry L3); [|done]. intros (x & Hk & Hx)%list_elem_of_fmap.
    apply M3 in Hx as [Hx _]. apply M2 in Hx as [_ Hx]. by apply Hx. }
  destruct (trim_inv c4 L4 (length (cc_lru c4))) as (Hinv & (T1 & T2 & T3) & Hsub & Hfront); [done|simpl; congruence..|].
  split_and!; [done|split_and!; simpl in *; congruence|right; split; [lia|split]].
  - intros x Hx. apply Hsub in Hx. simpl in Hx. apply elem_of_cons in Hx as [->|Hx]; [by left|right].
    apply M3 in Hx as [Hx Ho]. apply M2 in Hx as [Hx Hk]. apply M1 in Hx as [Hx _]. done.
  - intros H1. apply (Hfront entry (cc_lru c3)); [done|simpl in *; congruence|simpl in *; congruence].
Qed.

(** An entry of the cache was put there, and nothing that drops it ran since. *)
Definition drops (maxBytes : Z) (key : compiledCacheKey) (op : content_op) : bool :=
  match op with
  | CPut _ _ k v => (len (HTML v) <=? maxBytes)%Z && (bool_decide (k = key) || superseded k key)
  | CInvalidate id => N.eqb (contentID key) id
  | _ => false
  end.

Definition stored (ops : list content_op) (c0 : compiledContentCache) (e : compiledCacheEntry) : Prop :=
  exists pre now now' post,
    ops = pre ++ CPut now now' (en_key e) (en_value e) :: post /\
    en_expiresAt e = (now' + cc_ttl c0)%Z /\
    Forall (fun op => drops (cc_maxBytes c0) (en_key e) op = false) post.

Lemma stored_snoc (ops : list content_op) (c0 : compiledContentCache) (e : compiledCacheEntry) (op : content_op) :
  drops (cc_maxBytes c0) (en_key e) op = false -> stored ops c0 e -> stored (ops ++ [op]) c0 e.
Proof.
  intros Hd (pre & now & now' & post & -> & Hx & Hp). exists pre, now, now', (post ++ [op]).
  rewrite <- app_assoc. split_and!; [done|done|]. apply Forall_app. split; [done|by apply Forall_singleton].
Qed.

Lemma content_run_snoc (ops : list content_op) (op : content_op) (c : compiledContentCache) :
  content_run (ops ++ [op]) c = content_step (content_run ops c) op.
Proof. unfold content_run. by rewrite fold_left_app. Qed.

Lemma content_run_inv (maxEntries maxBytes : Z) (ttl : duration) (ops : list content_op) :
  (0 <= maxEntries)%Z -> (0 <= maxBytes)%Z ->
  let c0 := newCompiledContentCache maxEntries maxBytes ttl in
  let c := content_run ops c0 in
  cache_inv c /\ same_limits c0 c /\ (forall e, e ∈ cc_lru c -> stored ops c0 e).
Proof.
  intros He Hb c0. induction ops as [|op ops IH] using rev_ind; simpl.
  - split_and!; [|done|]; [split; [by split; simpl; [apply NoDup_nil|..]|by simpl; rewrite map_size_empty|done]|].
    intros e Hn. by apply not_elem_of_nil in Hn.
  - rewrite content_run_snoc. simpl in IH. set (c := content_run ops c0) in *. destruct IH as (Hc & (E1 & E2 & E3) & Hst).
    destruct op as [now key|now now' key v|id|now]; simpl.
    + destruct (get_inv now key c Hc) as (H1 & (G1 & G2 & G3) & H3). split_and!; [done|split_and!; congruence|].
      intros e Hin. apply stored_snoc; [done|auto].
    + destruct (put_inv now now' key v c Hc) as (H1 & (G1 & G2 & G3) & Hcase); [by rewrite E1|by rewrite E2|].
      split_and!; [done|split_and!; congruence|]. intros e Hin. rewrite E2, E3 in Hcase. simpl in Hcase.
      destruct Hcase as [[Hbig Heq]|(Hsz & Hnew & _)].
      * rewrite Heq in Hin. apply stored_snoc; [|auto]. simpl. by destruct (Z.leb_spec (len (HTML v)) maxBytes); [lia|].
      * destruct (Hnew e Hin) as [->|(Hold & Hk & Hs)].
        -- exists ops, now, now', []. split_and!; [done|done|by apply Forall_nil].
        -- apply stored_snoc; [|auto]. simpl. rewrite bool_decide_eq_false_2 by congruence. rewrite Hs. by rewrite andb_false_r.
    + destruct Hc as [Hl Hce Hcb].
      destruct (remove_entries_linked c Hl (fun e => N.eqb (contentID (en_key e)) id)) as (L & (G1 & G2 & G3) & M & Hlen & Hby).
      simpl in L, G1, G2, G3, M, Hlen, Hby. fold (invalidateContent id c) in L, G1, G2, G3, M, Hlen, Hby.
      split_and!; [split; [done|rewrite linked_size in * by done; lia|lia]|split_and!; congruence|].
      intros e Hin. apply M in Hin as [Hin Hne]. apply stored_snoc; [done|auto].
    + destruct Hc as [Hl Hce Hcb]. destruct (evictExpired_linked c Hl now) as (L & (G1 & G2 & G3) & M & Hlen & Hby).
      split_and!; [split; [done|rewrite linked_size in * by done; lia|lia]|split_and!; congruence|].
      intros e Hin. apply M in Hin as [Hin _]. apply stored_snoc; [done|auto].
Qed.

(** Whatever calls ran, the cache holds at most its number of entries and bytes;
    what it returns for a key is the value last put there, less than its time to
    live ago, and neither that content was invalidated since nor was anything put
    that was compiled from another version of the same content, profile or brand;
    and a value that fits is found right after it is put. *)
Theorem compiled_cache_correct (maxEntries maxBytes : Z) (ttl : duration) (ops : list content_op) :
  (0 <= maxEntries)%Z -> (0 <= maxBytes)%Z ->
  let c := content_run ops (newCompiledContentCache maxEntries maxBytes ttl) in
  (Z.of_nat (size (cc_entries c)) <= maxEntries)%Z /\
  (0 <= cc_bytes c <= maxBytes)%Z /\ cc_bytes c = total_bytes (cc_lru c) /\
  (forall now key v, (cache_get now key c).2 = Some v ->
     exists pre t t' post, ops = pre ++ CPut t t' key v :: post /\ (now < t' + ttl)%Z /\
       Forall (fun op => drops maxBytes key op = false) post) /\
  (forall t t' now key v, (len (HTML v) <= maxBytes)%Z -> (1 <= maxEntries)%Z -> (now < t' + ttl)%Z ->
     (cache_get now key (cache_put t t' key v c)).2 = Some v).
Proof.
  intros He Hb c. destruct (content_run_inv maxEntries maxBytes ttl ops He Hb) as (Hc & (E1 & E2 & E3) & Hst).
  fold c in Hc, E1, E2, E3, Hst. simpl in E1, E2, E3. destruct Hc as [Hl Hce Hcb].
  split_and!; [by rewrite E1 in Hce|by apply linked_bytes_pos|by rewrite E2 in Hcb|apply Hl| |].
  - intros now key v. unfold cache_get. destruct (cc_entries c !! key) as [e|] eqn:Hk; [|done].
    apply (linked_lookup c Hl) in Hk as [Hin <-]. destruct (expired now e) eqn:Hx; [done|]. intros [= <-].
    destruct (Hst e Hin) as (pre & t & t' & post & -> & Hexp & Hpost). exists pre, t, t', post.
    split_and!; [done| |done]. unfold expired, Before in Hx. rewrite Hexp in Hx. simpl in Hx. to_prop. done.
  - intros t t' now key v Hsz H1 Hnow.
    destruct (put_inv t t' key v c) as (Hinv & _ & Hcase); [by split|by rewrite E1|by rewrite E2|].
    destruct Hcase as [[? _]|(_ & _ & Hin)]; [lia|]. rewrite E1 in Hin. specialize (Hin H1).
    unfold cache_get. set (entry := {| en_key := key |}) in *.
    assert (cc_entries (cache_put t t' key v c) !! key = Some entry) as -> by (by apply (linked_lookup _ (ci_linked _ Hinv))).
    unfold expired, Before, entry. simpl. rewrite E3. unfold Add. destruct (Z.ltb_spec now (t' + ttl)); [done|lia].
Qed.

Definition demo_key (version : Z) : compiledCacheKey :=
  {| contentKind := "campaign"; contentID := 4; profileID := 5; brandID := 0; contentVersion := version;
     profileVersion := 1; brandVersion := 0 |}.

Lemma compiled_cache_correct_witness :
  let c := content_run [CPut 0 0 (demo_key 1) {| HTML := "<p>old</p>" |}; CPut 5 5 (demo_key 2) {| HTML := "<p>new</p>" |}]
             (newCompiledContentCache 2 100 60) in
  (cache_get 10 (demo_key 1) c).2 = None /\ (cache_get 10 (demo_key 2) c).2 = Some {| HTML := "<p>new</p>" |} /\
  (cc_bytes c <= 100)%Z.
Proof.
  intros c. split; [vm_compute; reflexivity|]. split; [vm_compute; reflexivity|].
  destruct (compiled_cache_correct 2 100 60
    [CPut 0 0 (demo_key 1) {| HTML := "<p>old</p>" |}; CPut 5 5 (demo_key 2) {| HTML := "<p>new</p>" |}]
    ltac:(lia) ltac:(lia)) as (_ & [_ Hb] & _).
  exact Hb.
Defined.
