(* ===== verification/MailStore.v ===== *)
(** * The mailing tables and the SQL functions of campaigns and deliveries

    The campaigns, sending profiles, suppressions, tracking events, provider
    webhooks and the rollup queue of migrations 0124 to 0136, next to the tables
    the automation subsystem shares with mailing ([AutoStore]: businesses, lists,
    subscribers, [mailing_delivery] and the automations themselves), and the SQL
    functions the send worker calls, in the versions in force after the last
    migration: 0136 ([mailing_claim_campaigns_for_fanout],
    [mailing_fanout_batch], [mailing_renew_delivery],
    [mailing_claim_deliveries], [mailing_rollup_changed_campaign]), 0132 (the
    rollup queue and its trigger) and 0126 (release, fail, cancel).  A function
    reads one clock, [now].  Writes under a tenant-merge fence fail with
    SQLSTATE TM503.  A row has the columns the modelled
    code reads or writes; a profile's credentials and provisioning, a tracking
    event's id, address and user agent and the CRM timeline ([activity_entry])
    are left out. *)

From S2P Require Import Prelude GoStrings GoTime GoJson AutoGraph Errors AutoEngine AutoStore AutoService MailToken.
From stdpp Require Import sorting.
#[local] Open Scope go_scope.

(** ** Rows *)

Inductive campaign_status := CDraft | CScheduled | CSending | CSent | CCancelled | CFailed.
Inductive track_kind := TOpen | TClick | TUnsubscribe | TDelivered | TBounce | TComplaint.
Inductive suppression_reason := RManual | RBounce | RComplaint | RUnsubscribe.

#[export] Instance campaign_status_eq_dec : EqDecision campaign_status.
Proof. solve_decision. Defined.
#[export] Instance track_kind_eq_dec : EqDecision track_kind.
Proof. solve_decision. Defined.
#[export] Instance suppression_reason_eq_dec : EqDecision suppression_reason.
Proof. solve_decision. Defined.

Record campaign_counts := {
  n_recipient : Z; n_sent : Z; n_delivered : Z; n_bounced : Z; n_complained : Z; n_opened : Z;
  n_clicked : Z; n_unsubscribed : Z; n_failed : Z
}.
#[export] Instance campaign_counts_eq_dec : EqDecision campaign_counts.
Proof. solve_decision. Defined.
Definition no_counts : campaign_counts := Build_campaign_counts 0 0 0 0 0 0 0 0 0.

Record campaign_content := {
  cn_list : uuid; cn_name : string; cn_subject : string; cn_preheader : option string; cn_body : string;
  cn_tags : list string; cn_opens : bool; cn_clicks : bool
}.
Record campaign_row := {
  cm_business : uuid; cm_root : uuid; cm_content : campaign_content; cm_profile : option uuid;
  cm_status : campaign_status; cm_scheduled_at : option time; cm_started_at : option time;
  cm_completed_at : option time; cm_cursor : option uuid; cm_fanout_done : bool;
  cm_counts : campaign_counts; cm_last_error : option string; cm_created_by : option uuid;
  cm_created_at : time; cm_updated_at : time
}.

Record profile_row := {
  pf_business : uuid; pf_root : uuid; pf_mode : string; pf_from_email : string; pf_from_name : string;
  pf_reply_to : option string; pf_postal_address : option string; pf_status : string;
  pf_feedback : string; pf_updated_at : time
}.

Record suppression_row := {
  sp_id : uuid; sp_root : uuid; sp_reason : suppression_reason; sp_source : string; sp_created_at : time
}.

Record tracking_event := {
  te_business : uuid; te_root : uuid; te_campaign : option uuid; te_delivery : uuid; te_subscriber : uuid;
  te_kind : track_kind; te_url : option string;
  te_webhook : option (uuid * uuid * string);  (* provider_payload: webhook, profile, external event *)
  te_occurred_at : time
}.

(** One normalized event of a provider's webhook. *)
Record provider_event := {
  pe_message_id : string; pe_recipient : string; pe_kind : track_kind; pe_occurred_at : option time
}.
Record webhook_row := {
  wh_root : uuid; wh_profile : uuid; wh_provider : string; wh_event : string;
  wh_events : list provider_event; wh_size : Z;  (* octets of the envelope and the events *)
  wh_applied : bool; wh_expires_at : time; wh_received_at : time
}.

Record rollup_row := {
  rq_business : uuid; rq_root : uuid; rq_changed_at : time;
  rq_claim : option (uuid * time)              (* claim_token, lease_until *)
}.

Record mdb := {
  m_db : db;
  m_campaigns : gmap uuid campaign_row;
  m_profiles : gmap uuid profile_row;
  m_suppressions : gmap (uuid * string) suppression_row;  (* business, lower-case address *)
  m_blocked : gset string;                                (* email_suppression, lower case *)
  m_events : list tracking_event;
  m_dedupe : gset (uuid * bool * list ascii);   (* delivery, is a click, fingerprint *)
  m_webhooks : gmap uuid webhook_row;
  m_rollups : gmap uuid rollup_row
}.

Definition set_db (d : db) (m : mdb) : mdb :=
  {| m_db := d; m_campaigns := m_campaigns m; m_profiles := m_profiles m; m_suppressions := m_suppressions m;
     m_blocked := m_blocked m; m_events := m_events m; m_dedupe := m_dedupe m; m_webhooks := m_webhooks m;
     m_rollups := m_rollups m |}.
Definition set_campaigns (x : gmap uuid campaign_row) (m : mdb) : mdb :=
  {| m_db := m_db m; m_campaigns := x; m_profiles := m_profiles m; m_suppressions := m_suppressions m;
     m_blocked := m_blocked m; m_events := m_events m; m_dedupe := m_dedupe m; m_webhooks := m_webhooks m;
     m_rollups := m_rollups m |}.
Definition set_suppressions (x : gmap (uuid * string) suppression_row) (m : mdb) : mdb :=
  {| m_db := m_db m; m_campaigns := m_campaigns m; m_profiles := m_profiles m; m_suppressions := x;
     m_blocked := m_blocked m; m_events := m_events m; m_dedupe := m_dedupe m; m_webhooks := m_webhooks m;
     m_rollups := m_rollups m |}.
Definition set_tracking (x : list tracking_event) (y : gset (uuid * bool * list ascii)) (m : mdb) : mdb :=
  {| m_db := m_db m; m_campaigns := m_campaigns m; m_profiles := m_profiles m; m_suppressions := m_suppressions m;
     m_blocked := m_blocked m; m_events := x; m_dedupe := y; m_webhooks := m_webhooks m;
     m_rollups := m_rollups m |}.
Definition set_webhooks (x : gmap uuid webhook_row) (m : mdb) : mdb :=
  {| m_db := m_db m; m_campaigns := m_campaigns m; m_profiles := m_profiles m; m_suppressions := m_suppressions m;
     m_blocked := m_blocked m; m_events := m_events m; m_dedupe := m_dedupe m; m_webhooks := x;
     m_rollups := m_rollups m |}.
Definition set_rollups (x : gmap uuid rollup_row) (m : mdb) : mdb :=
  {| m_db := m_db m; m_campaigns := m_campaigns m; m_profiles := m_profiles m; m_suppressions := m_suppressions m;
     m_blocked := m_blocked m; m_events := m_events m; m_dedupe := m_dedupe m; m_webhooks := m_webhooks m;
     m_rollups := x |}.

Abbreviation m_deliveries m := (db_deliveries (m_db m)).

(** The trigger [tenant_merge_write_fence]. *)
Definition fence (m : mdb) (root : uuid) : result error unit := write_fence (m_db m) root.

(** ** Writing deliveries *)

Definition with_state (st : delivery_state) (r : delivery_row) : delivery_row :=
  {| d_business := d_business r; d_root := d_root r; d_source_kind := d_source_kind r; d_source_id := d_source_id r;
     d_campaign := d_campaign r; d_template := d_template r; d_subscriber := d_subscriber r; d_email := d_email r;
     d_message_id := d_message_id r; d_track_opens := d_track_opens r; d_track_clicks := d_track_clicks r;
     d_fence := d_fence r; d_created_at := d_created_at r; d_st := st |}.

(** The trigger [mailing_queue_campaign_rollup_change], for one changed row. *)
Definition mailing_queue_campaign_rollup_change (now : time) (r : delivery_row) (m : mdb) : mdb :=
  match d_campaign r with
  | None => m
  | Some c =>
      match m_campaigns m !! c with
      | Some row =>
          if N.eqb (cm_business row) (d_business r) && N.eqb (cm_root row) (d_root r)
          then set_rollups (<[c := {| rq_business := d_business r; rq_root := d_root r; rq_changed_at := now;
                                      rq_claim := None |}]> (m_rollups m)) m
          else m
      | None => m
      end
  end.

Definition put_delivery (now : time) (id : uuid) (r : delivery_row) (m : mdb) : mdb :=
  mailing_queue_campaign_rollup_change now r
    (set_db (set_deliveries (<[id := r]> (m_deliveries m)) (m_db m)) m).

(** [UPDATE mailing_delivery SET ... WHERE id = ANY(ids)], row by row. *)
Definition put_deliveries (now : time) (rows : list (uuid * delivery_row)) (m : mdb) : mdb :=
  fold_left (fun m x => put_delivery now (fst x) (snd x) m) rows m.

Definition update_deliveries (now : time) (f : delivery_state -> delivery_state) (rows : list (uuid * delivery_row))
    (m : mdb) : mdb :=
  put_deliveries now (map (fun x => (fst x, with_state (f (d_st (snd x))) (snd x))) rows) m.

(** The states a delivery is put in. *)
Definition claimed_state (now : time) (lease : duration) (st : delivery_state) : delivery_state :=
  {| ds_status := DSending; ds_attempts := ds_attempts st + 1; ds_generation := ds_generation st + 1;
     ds_not_before := ds_not_before st; ds_lease := Some (now + Z.max lease (10 * Second))%Z;
     ds_provider_id := ds_provider_id st; ds_opened_at := ds_opened_at st;
     ds_first_clicked_at := ds_first_clicked_at st; ds_clicks := ds_clicks st;
     ds_last_error := ds_last_error st; ds_updated_at := now |}.
Definition renewed_state (now : time) (lease : duration) (st : delivery_state) : delivery_state :=
  {| ds_status := ds_status st; ds_attempts := ds_attempts st; ds_generation := ds_generation st;
     ds_not_before := ds_not_before st; ds_lease := Some (now + Z.max lease (10 * Second))%Z;
     ds_provider_id := ds_provider_id st; ds_opened_at := ds_opened_at st;
     ds_first_clicked_at := ds_first_clicked_at st; ds_clicks := ds_clicks st;
     ds_last_error := ds_last_error st; ds_updated_at := now |}.
Definition released_state (now : time) (not_before : time) (st : delivery_state) : delivery_state :=
  {| ds_status := DQueued; ds_attempts := Z.max (ds_attempts st - 1) 0; ds_generation := ds_generation st;
     ds_not_before := Z.max not_before now; ds_lease := None;
     ds_provider_id := ds_provider_id st; ds_opened_at := ds_opened_at st;
     ds_first_clicked_at := ds_first_clicked_at st; ds_clicks := ds_clicks st;
     ds_last_error := ds_last_error st; ds_updated_at := now |}.
Definition sent_state (now : time) (provider_id : string) (st : delivery_state) : delivery_state :=
  {| ds_status := DSent; ds_attempts := ds_attempts st; ds_generation := ds_generation st;
     ds_not_before := ds_not_before st; ds_lease := None;
     ds_provider_id := Some provider_id; ds_opened_at := ds_opened_at st;
     ds_first_clicked_at := ds_first_clicked_at st; ds_clicks := ds_clicks st;
     ds_last_error := None; ds_updated_at := now |}.
Definition failed_send_state (now : time) (status : delivery_status) (not_before : time) (err : string)
    (st : delivery_state) : delivery_state :=
  {| ds_status := status; ds_attempts := ds_attempts st; ds_generation := ds_generation st;
     ds_not_before := if bool_decide (status = DQueued) then Z.max not_before now else ds_not_before st;
     ds_lease := None; ds_provider_id := ds_provider_id st; ds_opened_at := ds_opened_at st;
     ds_first_clicked_at := ds_first_clicked_at st; ds_clicks := ds_clicks st;
     ds_last_error := Some (left_runes 2000 err); ds_updated_at := now |}.
(** [status = ..., lease_until = NULL, last_error = ...] *)
Definition stopped_state (now : time) (status : delivery_status) (err : string) (st : delivery_state) : delivery_state :=
  {| ds_status := status; ds_attempts := ds_attempts st; ds_generation := ds_generation st;
     ds_not_before := ds_not_before st; ds_lease := None; ds_provider_id := ds_provider_id st;
     ds_opened_at := ds_opened_at st; ds_first_clicked_at := ds_first_clicked_at st; ds_clicks := ds_clicks st;
     ds_last_error := Some err; ds_updated_at := now |}.
Definition with_status (now : time) (status : delivery_status) (st : delivery_state) : delivery_state :=
  {| ds_status := status; ds_attempts := ds_attempts st; ds_generation := ds_generation st;
     ds_not_before := ds_not_before st; ds_lease := ds_lease st; ds_provider_id := ds_provider_id st;
     ds_opened_at := ds_opened_at st; ds_first_clicked_at := ds_first_clicked_at st; ds_clicks := ds_clicks st;
     ds_last_error := ds_last_error st; ds_updated_at := now |}.

(** ** Eligibility *)

Section Eligibility.
Context `{UnicodeTables}.

Definition email_key (email : string) : string := ToLower email.

(** In [mailing_suppression] or [email_suppression]. *)
Definition suppressed (m : mdb) (business : uuid) (email : string) : bool :=
  bool_decide (m_suppressions m !! (business, email_key email) <> None) ||
  bool_decide (email_key email ∈ m_blocked m).

Definition profile_ready (m : mdb) (business root : uuid) (p : profile_row) : bool :=
  N.eqb (pf_business p) business && N.eqb (pf_root p) root &&
  String.eqb (pf_status p) "verified" && String.eqb (pf_feedback p) "ready".

(** [p.id = COALESCE(c.profile_id, p.id)] and ready. *)
Definition ready_profile (m : mdb) (business root : uuid) (pinned : option uuid) (id : uuid) (p : profile_row) : bool :=
  profile_ready m business root p && null_or pinned id.
Definition some_profile_ready (m : mdb) (business root : uuid) (pinned : option uuid) : bool :=
  mexists (ready_profile m business root pinned) (m_profiles m).

(** The campaign of a delivery, joined on its tenant root. *)
Definition campaign_of (m : mdb) (r : delivery_row) : option campaign_row :=
  match d_campaign r with
  | Some c => match m_campaigns m !! c with
              | Some row => if N.eqb (cm_root row) (d_root r) then Some row else None
              | None => None
              end
  | None => None
  end.
(** ... and on its business. *)
Definition own_campaign_of (m : mdb) (r : delivery_row) : option campaign_row :=
  match campaign_of m r with
  | Some row => if N.eqb (cm_business row) (d_business r) then Some row else None
  | None => None
  end.

Definition campaign_is (s : campaign_status) (c : option campaign_row) : bool :=
  match c with Some row => bool_decide (cm_status row = s) | None => false end.

Definition is_automation (r : delivery_row) : bool := String.eqb (d_source_kind r) "automation".
Definition is_campaign (r : delivery_row) : bool := String.eqb (d_source_kind r) "campaign".

Definition pinned_profile (c : option campaign_row) : option uuid :=
  match c with Some row => cm_profile row | None => None end.

(** [status = 'queued' AND not_before <= now OR status = 'sending' AND lease_until <= now] *)
Definition delivery_due (now : time) (st : delivery_state) : bool :=
  match ds_status st with
  | DQueued => (ds_not_before st <=? now)%Z
  | DSending => match ds_lease st with Some l => (l <=? now)%Z | None => false end
  | _ => false
  end.

(** ** Automation sources: the steps that carry the delivery *)

Definition enrollment_live (e : enrollment_row) : bool :=
  bool_decide (es_status (e_st e) = EActive) || bool_decide (es_status (e_st e) = ECompleted).

Definition automation_active (d : db) (e : enrollment_row) : bool :=
  match db_automations d !! er_automation (e_ref e) with
  | Some a => bool_decide (a_status a = AActive)
  | None => false
  end.

Definition snapshot_has (d : db) (e : enrollment_row) (template : option uuid) : bool :=
  match db_versions d !! er_version (e_ref e), template with
  | Some v, Some t => has_template v t
  | _, _ => false
  end.

(** The enrollments of the steps with this delivery. *)
Definition step_enrollments (d : db) (id : uuid) : list enrollment_row :=
  flat_map (fun x => match db_enrollments d !! (fst (fst x)) with Some e => [e] | None => [] end)
    (mselect (fun _ s => bool_decide (st_delivery s = Some id)) (db_steps d)).

Definition source_live (d : db) (id : uuid) : bool :=
  existsb (fun e => enrollment_live e && automation_active d e) (step_enrollments d id).
Definition source_sendable (d : db) (id : uuid) (r : delivery_row) : bool :=
  existsb (fun e => enrollment_live e && automation_active d e && snapshot_has d e (d_template r))
    (step_enrollments d id).
Definition source_current (d : db) (id : uuid) (r : delivery_row) : bool :=
  existsb (fun e => enrollment_live e && automation_active d e && snapshot_has d e (d_template r) &&
    match db_subscribers d !! er_subscriber (e_ref e) with
    | Some s => String.eqb (s_status s) "active" &&
                business_operational d (er_business (e_ref e)) (er_root (e_ref e)) &&
                list_operational d (s_list s) (s_business s) (s_root s)
    | None => false
    end) (step_enrollments d id).

(** ** Claiming deliveries *)

(** [ORDER BY k, id] *)
Definition by_key {A : Type} (k : A -> Z) (x y : uuid * A) : Prop :=
  (k (snd x) < k (snd y))%Z \/ (k (snd x) = k (snd y) /\ (fst x <= fst y)%N).
#[export] Instance by_key_dec {A : Type} (k : A -> Z) (x y : uuid * A) : Decision (by_key k x y).
Proof. unfold by_key. apply _. Defined.

(** [ORDER BY not_before, created_at, id] *)
Definition due_before (x y : uuid * delivery_row) : Prop :=
  (ds_not_before (d_st (snd x)) < ds_not_before (d_st (snd y)))%Z \/
  (ds_not_before (d_st (snd x)) = ds_not_before (d_st (snd y)) /\ by_key d_created_at x y).
#[export] Instance due_before_dec (x y : uuid * delivery_row) : Decision (due_before x y).
Proof. unfold due_before. apply _. Defined.

Definition batch_limit (limit lo hi : Z) : nat := Z.to_nat (Z.max lo (Z.min limit hi)).

Definition unlocked (locked : gset uuid) (id : uuid) : bool := negb (bool_decide (id ∈ locked)).

Definition open_status (s : delivery_status) : bool := bool_decide (s = DQueued) || bool_decide (s = DSending).

Definition source_gone (m : mdb) (now : time) (id : uuid) (r : delivery_row) : bool :=
  open_status (ds_status (d_st r)) &&
  (bool_decide (ds_status (d_st r) = DQueued) ||
   match ds_lease (d_st r) with Some l => (l <=? now)%Z | None => false end) &&
  ((is_campaign r && campaign_is CCancelled (campaign_of m r)) ||
   (is_automation r && negb (source_current (m_db m) id r))) &&
  root_write_allowed (m_db m) (d_root r).

(** The recipient of a delivery, joined on the tenant root. *)
Definition recipient (m : mdb) (r : delivery_row) : option subscriber_row :=
  match db_subscribers (m_db m) !! d_subscriber r with
  | Some s => if N.eqb (s_root s) (d_root r) then Some s else None
  | None => None
  end.

Definition reachable_recipient (m : mdb) (r : delivery_row) (s : subscriber_row) : bool :=
  String.eqb (s_status s) "active" && business_operational (m_db m) (d_business r) (d_root r) &&
  list_operational (m_db m) (s_list s) (s_business s) (s_root s) && negb (suppressed m (d_business r) (d_email r)).

Definition became_ineligible (m : mdb) (now : time) (id : uuid) (r : delivery_row) : bool :=
  match recipient m r with
  | Some s =>
      delivery_due now (d_st r) &&
      ((is_automation r && source_live (m_db m) id) || campaign_is CSending (campaign_of m r)) &&
      negb (reachable_recipient m r s) && root_write_allowed (m_db m) (d_root r)
  | None => false
  end.

(** The list of the recipient, joined on its tenant root. *)
Definition list_of (m : mdb) (s : subscriber_row) : option list_row :=
  match db_lists (m_db m) !! s_list s with
  | Some l => if N.eqb (l_root l) (s_root s) then Some l else None
  | None => None
  end.

Definition sendable (m : mdb) (now : time) (id : uuid) (r : delivery_row) : bool :=
  match recipient m r with
  | Some s =>
      bool_decide (list_of m s <> None) && delivery_due now (d_st r) &&
      ((is_automation r && source_sendable (m_db m) id r) || campaign_is CSending (campaign_of m r)) &&
      reachable_recipient m r s &&
      some_profile_ready m (d_business r) (d_root r) (pinned_profile (campaign_of m r)) &&
      root_write_allowed (m_db m) (d_root r)
  | None => false
  end.

(** The columns of the result the worker reads. *)
Record claimed_row := {
  cr_delivery : uuid; cr_delivery_row : delivery_row; cr_content_at : option time;
  cr_subject : option string; cr_preheader : option string; cr_body : option string;
  cr_opens : option bool; cr_clicks : option bool;
  cr_list_name : string; cr_first_name : option string; cr_last_name : option string; cr_profile : uuid
}.

Definition or_else {A : Type} (x y : option A) : option A := match x with Some _ => x | None => y end.

(** The content of a claimed delivery from its campaign or its version's snapshot. *)
Definition claimed_content (m : mdb) (id : uuid) (r : delivery_row) (s : subscriber_row) (l : list_row)
    (profile : uuid) (version : option version_row) : claimed_row :=
  let c := campaign_of m r in
  let content := option_map cm_content c in
  let tpl := match version, d_template r with
             | Some v, Some t => match v_snapshot v with Some snap => snap !! t | None => None end
             | _, _ => None
             end in
  {| cr_delivery := id; cr_delivery_row := r;
     cr_content_at := or_else (option_map cm_updated_at c)
                        (match version with Some v => v_activated_at v | None => None end);
     cr_subject := or_else (option_map cn_subject content) (option_map tpl_subject tpl);
     cr_preheader := or_else (match content with Some x => cn_preheader x | None => None end)
                       (match tpl with Some t => tpl_preheader t | None => None end);
     cr_body := or_else (option_map cn_body content) (option_map tpl_body tpl);
     cr_opens := or_else (d_track_opens r) (option_map cn_opens content);
     cr_clicks := or_else (d_track_clicks r) (option_map cn_clicks content);
     cr_list_name := l_name l; cr_first_name := s_first_name s; cr_last_name := s_last_name s;
     cr_profile := profile |}.

Definition claimed_rows_of (m : mdb) (x : uuid * delivery_row) : list claimed_row :=
  let '(id, r) := x in
  match recipient m r with
  | Some s =>
      match list_of m s with
      | Some l =>
          let profiles := mselect (ready_profile m (d_business r) (d_root r) (pinned_profile (campaign_of m r)))
                            (m_profiles m) in
          let versions := match step_enrollments (m_db m) id with
                          | [] => [None]
                          | es => map (fun e => db_versions (m_db m) !! er_version (e_ref e)) es
                          end in
          flat_map (fun p => map (claimed_content m id r s l (fst p)) versions) profiles
      | None => []
      end
  | None => []
  end.

(** The three groups of rows are chosen from the state before the statement.  A
    row is updated once: the claim runs first, and for a row in both of the other
    groups PostgreSQL makes one of the two updates, [cancel_first] says which.
    [locked] are the rows other transactions hold. *)
Definition mailing_claim_deliveries (locked : gset uuid) (cancel_first : bool) (limit : Z) (lease : duration)
    (now : time) (m : mdb) : mdb * list claimed_row :=
  let n := batch_limit limit 1 1000 in
  let free f := List.filter (fun x => unlocked locked (fst x) && f (fst x) (snd x)) (map_to_list (m_deliveries m)) in
  let lease_or_due r := default (ds_not_before (d_st r)) (ds_lease (d_st r)) in
  let cancelled := take n (merge_sort (by_key lease_or_due) (free (source_gone m now))) in
  let ineligible := take n (merge_sort due_before (free (became_ineligible m now))) in
  let candidates := take n (merge_sort due_before (free (sendable m now))) in
  let claimed := map (fun x => (fst x, with_state (claimed_state now lease (d_st (snd x))) (snd x))) candidates in
  let without (ys xs : list (uuid * delivery_row)) :=
    List.filter (fun x => negb (existsb (fun y => N.eqb (fst y) (fst x)) ys)) xs in
  let cancelled' := without claimed (if cancel_first then cancelled else without ineligible cancelled) in
  let ineligible' := without claimed (if cancel_first then without cancelled ineligible else ineligible) in
  let m1 := put_deliveries now claimed m in
  let m2 := update_deliveries now (stopped_state now DCancelled "source became inactive before delivery") cancelled' m1 in
  let m3 := update_deliveries now (stopped_state now DSuppressed "subscriber became ineligible before send") ineligible' m2 in
  (m3, flat_map (claimed_rows_of m) claimed).

(** ** Working on a claimed delivery *)

(** The guard [status = 'sending' AND claim_generation = p_generation], under the
    tenant-merge fence. *)
Definition holds_claim (m : mdb) (generation : Z) (r : delivery_row) : bool :=
  bool_decide (ds_status (d_st r) = DSending) && (ds_generation (d_st r) =? generation)%Z &&
  root_write_allowed (m_db m) (d_root r).

Definition if_claimed (m : mdb) (id : uuid) (generation : Z) : option delivery_row :=
  match m_deliveries m !! id with
  | Some r => if holds_claim m generation r then Some r else None
  | None => None
  end.

Definition mailing_release_delivery (id : uuid) (generation : Z) (not_before now : time) (m : mdb) : mdb * bool :=
  match if_claimed m id generation with
  | Some r => (put_delivery now id (with_state (released_state now not_before (d_st r)) r) m, true)
  | None => (m, false)
  end.

(** The automation enrollment a delivery was authorized by still authorizes it. *)
Definition enrollment_authorizes (d : db) (r : delivery_row) : bool :=
  match d_fence r with
  | Some (eid, vid, generation) =>
      match db_enrollments d !! eid with
      | Some e =>
          N.eqb (er_subscriber (e_ref e)) (d_subscriber r) && N.eqb (er_version (e_ref e)) vid &&
          N.eqb (er_business (e_ref e)) (d_business r) && N.eqb (er_root (e_ref e)) (d_root r) &&
          (es_generation (e_st e) =? generation)%Z && enrollment_live e &&
          match db_automations d !! er_automation (e_ref e), db_versions d !! er_version (e_ref e), d_template r with
          | Some a, Some v, Some t =>
              N.eqb (a_business a) (er_business (e_ref e)) && N.eqb (a_root a) (er_root (e_ref e)) &&
              bool_decide (a_status a = AActive) &&
              N.eqb (v_automation v) (er_automation (e_ref e)) && N.eqb (v_business v) (er_business (e_ref e)) &&
              N.eqb (v_root v) (er_root (e_ref e)) && has_template v t
          | _, _, _ => false
          end
      | None => false
      end
  | None => false
  end.

(** The recipient is active on an operational list of the delivery's business. *)
Definition renewable_recipient (m : mdb) (r : delivery_row) : bool :=
  match db_subscribers (m_db m) !! d_subscriber r with
  | Some s =>
      N.eqb (s_business s) (d_business r) && N.eqb (s_root s) (d_root r) && String.eqb (s_status s) "active" &&
      list_operational (m_db m) (s_list s) (s_business s) (s_root s)
  | None => false
  end.

Definition may_send (m : mdb) (r : delivery_row) : bool :=
  business_operational (m_db m) (d_business r) (d_root r) && renewable_recipient m r &&
  some_profile_ready m (d_business r) (d_root r) (pinned_profile (own_campaign_of m r)) &&
  ((is_automation r && enrollment_authorizes (m_db m) r) ||
   (is_campaign r && campaign_is CSending (own_campaign_of m r))) &&
  negb (suppressed m (d_business r) (d_email r)).

Definition mailing_renew_delivery (id : uuid) (generation : Z) (lease : duration) (now : time) (m : mdb) : mdb * bool :=
  match if_claimed m id generation with
  | Some r => if may_send m r then (put_delivery now id (with_state (renewed_state now lease (d_st r)) r) m, true)
              else (m, false)
  | None => (m, false)
  end.

Definition mailing_fail_delivery (id : uuid) (generation : Z) (err status : string) (not_before now : time) (m : mdb)
  : result error (mdb * bool) :=
  let write st := match if_claimed m id generation with
                  | Some r => (put_delivery now id (with_state (failed_send_state now st not_before err (d_st r)) r) m, true)
                  | None => (m, false)
                  end in
  if String.eqb status "retry" then Ok (write DQueued)
  else if String.eqb status "failed" then Ok (write DFailed)
  else if String.eqb status "suppressed" then Ok (write DSuppressed)
  else sql "22023" "invalid delivery failure status".

(** ** Campaigns *)

Definition with_campaign (status : campaign_status) (started completed : option time) (cursor : option uuid)
    (done : bool) (counts : campaign_counts) (now : time) (c : campaign_row) : campaign_row :=
  {| cm_business := cm_business c; cm_root := cm_root c; cm_content := cm_content c; cm_profile := cm_profile c;
     cm_status := status; cm_scheduled_at := cm_scheduled_at c; cm_started_at := started;
     cm_completed_at := completed; cm_cursor := cursor; cm_fanout_done := done; cm_counts := counts;
     cm_last_error := cm_last_error c; cm_created_by := cm_created_by c; cm_created_at := cm_created_at c;
     cm_updated_at := now |}.

Definition put_campaign (id : uuid) (c : campaign_row) (m : mdb) : mdb :=
  set_campaigns (<[id := c]> (m_campaigns m)) m.

(** A list of the campaign's business and root. *)
Definition own_list (m : mdb) (c : campaign_row) : bool :=
  match db_lists (m_db m) !! cn_list (cm_content c) with
  | Some l => N.eqb (l_business l) (cm_business c) && N.eqb (l_root l) (cm_root c)
  | None => false
  end.

Definition pinned_ready (m : mdb) (c : campaign_row) : bool :=
  match cm_profile c with
  | Some p => match m_profiles m !! p with
              | Some row => profile_ready m (cm_business c) (cm_root c) row
              | None => false
              end
  | None => false
  end.

Definition campaign_operational (m : mdb) (c : campaign_row) : bool :=
  root_write_allowed (m_db m) (cm_root c) && business_operational (m_db m) (cm_business c) (cm_root c) &&
  list_operational (m_db m) (cn_list (cm_content c)) (cm_business c) (cm_root c) && pinned_ready m c.

Definition fanout_due (m : mdb) (now : time) (c : campaign_row) : bool :=
  match cm_status c with
  | CScheduled => match cm_scheduled_at c with Some t => (t <=? now)%Z | None => false end
  | CSending => negb (cm_fanout_done c)
  | _ => false
  end && own_list m c && campaign_operational m c.

(** [ORDER BY updated_at, scheduled_at, id]; NULL sorts last. *)
Definition null_last (x y : option time) : Prop :=
  match x, y with Some a, Some b => (a < b)%Z | Some _, None => True | None, _ => False end.
#[export] Instance null_last_dec (x y : option time) : Decision (null_last x y).
Proof. destruct x, y; simpl; apply _. Defined.
Definition fanout_before (x y : uuid * campaign_row) : Prop :=
  (cm_updated_at (snd x) < cm_updated_at (snd y))%Z \/
  (cm_updated_at (snd x) = cm_updated_at (snd y) /\
   (null_last (cm_scheduled_at (snd x)) (cm_scheduled_at (snd y)) \/
    (cm_scheduled_at (snd x) = cm_scheduled_at (snd y) /\ (fst x <= fst y)%N))).
#[export] Instance fanout_before_dec (x y : uuid * campaign_row) : Decision (fanout_before x y).
Proof. unfold fanout_before. apply _. Defined.

Definition started_row (now : time) (c : campaign_row) : campaign_row :=
  with_campaign CSending (Some (default now (cm_started_at c))) (cm_completed_at c) (cm_cursor c)
    (cm_fanout_done c) (cm_counts c) now c.

Definition mailing_claim_campaigns_for_fanout (locked : gset uuid) (limit : Z) (now : time) (m : mdb)
  : mdb * list uuid :=
  let candidates :=
    take (batch_limit limit 1 100)
      (merge_sort fanout_before
        (List.filter (fun x => unlocked locked (fst x) && fanout_due m now (snd x)) (map_to_list (m_campaigns m)))) in
  (fold_left (fun m x => put_campaign (fst x) (started_row now (snd x)) m) candidates m, map fst candidates).

(** ** Fan-out *)

Definition has_tag (tags : list string) (s : subscriber_row) : bool :=
  bool_decide (tags = []) || existsb (fun t => existsb (String.eqb (ToLower t)) tags) (s_tags s).

(** A subscriber the campaign goes to, whatever was sent so far. *)
Definition addressable (m : mdb) (c : campaign_row) (s : subscriber_row) : bool :=
  N.eqb (s_list s) (cn_list (cm_content c)) && N.eqb (s_root s) (cm_root c) && String.eqb (s_status s) "active" &&
  has_tag (cn_tags (cm_content c)) s && negb (suppressed m (cm_business c) (s_email s)).

Definition after_cursor (cursor : option uuid) (id : uuid) : bool :=
  match cursor with Some k => (k <? id)%N | None => true end.

Definition by_id {A : Type} (x y : uuid * A) : Prop := (fst x <= fst y)%N.
#[export] Instance by_id_dec {A : Type} (x y : uuid * A) : Decision (by_id x y).
Proof. unfold by_id. apply _. Defined.

(** The next subscribers in order of their identifiers. *)
Definition fanout_eligible (m : mdb) (c : campaign_row) (cursor : option uuid) : list (uuid * subscriber_row) :=
  merge_sort by_id
    (mselect (fun id s => addressable m c s && after_cursor cursor id) (db_subscribers (m_db m))).

Definition campaign_delivery (cid : uuid) (c : campaign_row) (domain : string) (now : time) (id : uuid)
    (x : uuid * subscriber_row) `{UUIDLib} : delivery_row :=
  {| d_business := cm_business c; d_root := cm_root c; d_source_kind := "campaign"; d_source_id := cid;
     d_campaign := Some cid; d_template := None; d_subscriber := fst x; d_email := s_email (snd x);
     d_message_id := uuid_String id +:+ "@" +:+ domain; d_track_opens := None; d_track_clicks := None;
     d_fence := None; d_created_at := now; d_st := queued_state now now |}.

(** [INSERT ... ON CONFLICT (source_kind, source_id, subscriber_id) DO NOTHING], row by
    row; [newid] are the values of [gen_random_uuid()], one per subscriber. *)
Fixpoint insert_campaign_deliveries `{UUIDLib} (cid : uuid) (c : campaign_row) (domain : string) (now : time)
    (newid : uuid -> uuid) (xs : list (uuid * subscriber_row)) (m : mdb) (n : Z) : result error (mdb * Z) :=
  match xs with
  | [] => Ok (m, n)
  | x :: xs =>
      if mexists (fun _ r => same_source "campaign" cid (fst x) r) (m_deliveries m)
      then insert_campaign_deliveries cid c domain now newid xs m n
      else let id := newid (fst x) in
           if bool_decide (m_deliveries m !! id <> None) then sql "23505" "mailing_delivery_pkey"
           else insert_campaign_deliveries cid c domain now newid xs
                  (put_delivery now id (campaign_delivery cid c domain now id x) m) (n + 1)
  end.

Definition campaign_recipients (m : mdb) (cid : uuid) : Z :=
  Z.of_nat (mcount (fun _ r => bool_decide (d_campaign r = Some cid)) (m_deliveries m)).

Definition with_recipients (n : Z) (k : campaign_counts) : campaign_counts :=
  {| n_recipient := n; n_sent := n_sent k; n_delivered := n_delivered k; n_bounced := n_bounced k;
     n_complained := n_complained k; n_opened := n_opened k; n_clicked := n_clicked k;
     n_unsubscribed := n_unsubscribed k; n_failed := n_failed k |}.

Definition mailing_fanout_batch `{UUIDLib} (cid : uuid) (batch : Z) (domain : string) (newid : uuid -> uuid)
    (now : time) (m : mdb)
  : result error (mdb * (Z * bool)) :=
  if negb (message_domain_ok domain) then sql "22023" "invalid mailing message domain" else
  match m_campaigns m !! cid with
  | None => Ok (m, (0%Z, true))
  | Some c =>
      if negb (bool_decide (cm_status c = CSending)) || cm_fanout_done c then Ok (m, (0%Z, true)) else
      if negb (campaign_operational m c) then Ok (m, (0%Z, false)) else
      let eligible := take (batch_limit batch 1 5000) (fanout_eligible m c (cm_cursor c)) in
      let? (m1, n) := insert_campaign_deliveries cid c (ToLower (btrim domain)) now newid eligible m 0 in
      let v_last := option_map fst (last eligible) in
      let done := match v_last with
                  | None => true
                  | Some k => negb (mexists (fun id s => addressable m1 c s && (k <? id)%N) (db_subscribers (m_db m1)))
                  end in
      let c' := with_campaign (cm_status c) (cm_started_at c) (cm_completed_at c) (or_else v_last (cm_cursor c)) done
                  (with_recipients (campaign_recipients m1 cid) (cm_counts c)) now c in
      Ok (put_campaign cid c' m1, (n, done))
  end.

(** ** Cancelling *)

(** [c.business_id IN (SELECT business_id FROM authorized_businesses(current_principal()))] *)
Definition mailing_cancel_campaign `{Authz} (principal cid : uuid) (now : time) (m : mdb) : result error (mdb * bool) :=
  match m_campaigns m !! cid with
  | None => Ok (m, false)
  | Some c =>
      if (bool_decide (cm_status c = CScheduled) || bool_decide (cm_status c = CSending)) &&
         authorized principal (cm_business c)
      then
        let? _ := fence m (cm_root c) in
        let m := put_campaign cid (with_campaign CCancelled (cm_started_at c) (Some now) (cm_cursor c)
                                     (cm_fanout_done c) (cm_counts c) now c) m in
        Ok (update_deliveries now (with_status now DCancelled)
              (mselect (fun _ r => bool_decide (d_campaign r = Some cid) && bool_decide (ds_status (d_st r) = DQueued))
                 (m_deliveries m)) m, true)
      else Ok (m, false)
  end.

(** ** The rollup queue *)

Definition rollup_before (x y : uuid * rollup_row) : Prop := by_key rq_changed_at x y.
#[export] Instance rollup_before_dec (x y : uuid * rollup_row) : Decision (rollup_before x y).
Proof. unfold rollup_before. apply _. Defined.

Definition rollup_due (m : mdb) (now : time) (q : rollup_row) : bool :=
  match rq_claim q with Some (_, l) => (l <=? now)%Z | None => true end && root_write_allowed (m_db m) (rq_root q).

Definition claim_rollup (token : uuid) (lease : time) (q : rollup_row) : rollup_row :=
  {| rq_business := rq_business q; rq_root := rq_root q; rq_changed_at := rq_changed_at q;
     rq_claim := Some (token, lease) |}.

Definition mailing_claim_changed_campaign_rollups (locked : gset uuid) (token : uuid) (limit seconds : Z) (now : time)
    (m : mdb) : mdb * list uuid :=
  let picked :=
    take (batch_limit limit 1 100)
      (merge_sort rollup_before
        (List.filter (fun x => unlocked locked (fst x) && rollup_due m now (snd x)) (map_to_list (m_rollups m)))) in
  let lease := (now + Z.min (Z.max seconds 1) 3600 * Second)%Z in
  (set_rollups (fold_left (fun q x => <[fst x := claim_rollup token lease (snd x)]> q) picked (m_rollups m)) m,
   map fst picked).

Definition mailing_complete_changed_campaign_rollups (token : uuid) (ids : list uuid) (m : mdb) : mdb * Z :=
  let mine id (q : rollup_row) :=
    match rq_claim q with Some (t, _) => N.eqb t token | None => false end && bool_decide (id ∈ ids) in
  (set_rollups (mdelete mine (m_rollups m)) m, Z.of_nat (mcount mine (m_rollups m))).

Definition of_campaign (cid : uuid) (f : delivery_state -> bool) (_ : uuid) (r : delivery_row) : bool :=
  bool_decide (d_campaign r = Some cid) && f (d_st r).
Definition count_of (m : mdb) (cid : uuid) (f : delivery_state -> bool) : Z :=
  Z.of_nat (mcount (of_campaign cid f) (m_deliveries m)).

Definition status_in (l : list delivery_status) (st : delivery_state) : bool := bool_decide (ds_status st ∈ l).

(** No delivery of the campaign is queued or sending. *)
Definition drained (m : mdb) (cid : uuid) : bool :=
  negb (mexists (of_campaign cid (status_in [DQueued; DSending])) (m_deliveries m)).

Definition unsubscribed_count (m : mdb) (cid : uuid) : Z :=
  Z.of_nat (size (list_to_set (C := gset uuid)
    (map te_subscriber (List.filter (fun e => bool_decide (te_campaign e = Some cid) &&
                                              bool_decide (te_kind e = TUnsubscribe)) (m_events m))))).

Definition counted (m : mdb) (cid : uuid) : campaign_counts :=
  {| n_recipient := count_of m cid (fun _ => true);
     n_sent := count_of m cid (status_in [DSent; DDelivered; DBounced; DComplained]);
     n_delivered := count_of m cid (status_in [DDelivered]);
     n_bounced := count_of m cid (status_in [DBounced]);
     n_complained := count_of m cid (status_in [DComplained]);
     n_opened := count_of m cid (fun st => bool_decide (ds_opened_at st <> None));
     n_clicked := count_of m cid (fun st => bool_decide (ds_first_clicked_at st <> None));
     n_unsubscribed := unsubscribed_count m cid;
     n_failed := count_of m cid (status_in [DFailed; DSuppressed]) |}.

Definition mailing_rollup_changed_campaign (cid : uuid) (now : time) (m : mdb) : mdb * bool :=
  match m_campaigns m !! cid with
  | None => (m, false)
  | Some c =>
      if negb (root_write_allowed (m_db m) (cm_root c)) then (m, false) else
      let finished := bool_decide (cm_status c = CSending) && cm_fanout_done c && drained m cid in
      let status := if finished then CSent else cm_status c in
      if bool_decide (cm_counts c = counted m cid) && bool_decide (cm_status c = status) &&
         bool_decide (bool_decide (cm_completed_at c <> None) = finished || bool_decide (cm_completed_at c <> None))
      then (m, true)
      else (put_campaign cid
              (with_campaign status (cm_started_at c)
                 (if finished then Some (default now (cm_completed_at c)) else cm_completed_at c)
                 (cm_cursor c) (cm_fanout_done c) (counted m cid) now c) m, true)
  end.
End Eligibility.
