(* ===== verification/MailFeedback.v ===== *)
(** * Consent and feedback: the SQL functions that record them

    Unsubscribing ([mailing_unsubscribe], 0125; [mailing_record_unsubscribe],
    0126), opens and clicks ([mailing_record_track], 0133), relay bounces
    ([mailing_mark_bounced], 0126), archiving a list ([mailing_archive_list],
    0133), and provider webhooks with their reconciliation when a send completes
    (0134).  Columns of [list_subscriber] that only the confirmation flow reads
    are not modelled.  A webhook's payload is its normalized events and the
    number of octets it takes. *)

From S2P Require Import Prelude GoStrings GoTime GoJson AutoGraph Errors AutoEngine AutoStore AutoService MailToken MailStore.
From stdpp Require Import sorting.
#[local] Open Scope go_scope.

Section Feedback.
Context `{UnicodeTables, UUIDLib, MailCrypto}.

(** ** Suppressions *)

(** [INSERT ... ON CONFLICT (business_id, email) DO UPDATE]: an existing reason that
    [keep] selects stays; [restamp] also renews [created_at]. *)
Definition upsert_suppression (business root : uuid) (email : string) (reason : suppression_reason) (source : string)
    (keep : suppression_reason -> bool) (restamp : bool) (now : time) (m : mdb) : mdb :=
  let key := (business, email_key email) in
  let row := match m_suppressions m !! key with
             | None => {| sp_id := fresh (list_to_set (C := gset uuid) (map (fun x => sp_id (snd x)) (map_to_list (m_suppressions m))));
                          sp_root := root; sp_reason := reason; sp_source := source; sp_created_at := now |}
             | Some s => if keep (sp_reason s) then s
                         else {| sp_id := sp_id s; sp_root := sp_root s; sp_reason := reason; sp_source := source;
                                 sp_created_at := if restamp then now else sp_created_at s |}
             end in
  set_suppressions (<[key := row]> (m_suppressions m)) m.

Definition is_complaint (r : suppression_reason) : bool := bool_decide (r = RComplaint).
Definition is_feedback (r : suppression_reason) : bool := bool_decide (r = RBounce) || bool_decide (r = RComplaint).

(** ** Subscribers *)

Definition with_subscriber_status (status : string) (s : subscriber_row) : subscriber_row :=
  {| s_business := s_business s; s_root := s_root s; s_list := s_list s; s_email := s_email s;
     s_first_name := s_first_name s; s_last_name := s_last_name s; s_status := status; s_tags := s_tags s |}.

Definition put_subscriber (id : uuid) (s : subscriber_row) (m : mdb) : mdb :=
  set_db (set_subscribers (<[id := s]> (db_subscribers (m_db m))) (m_db m)) m.

(** [UPDATE list_subscriber SET status = ... WHERE id = ... AND status <> 'complained'] *)
Definition demote_subscriber (id : uuid) (status : string) (m : mdb) : mdb :=
  match db_subscribers (m_db m) !! id with
  | Some s => if String.eqb (s_status s) "complained" then m else put_subscriber id (with_subscriber_status status s) m
  | None => m
  end.

Definition status_changed (business root subscriber list : uuid) (email old new : string) : json :=
  JObj [("business_id", juuid business); ("tenant_root_id", juuid root); ("subscriber_id", juuid subscriber);
        ("list_id", juuid list); ("email", JStr email); ("old_status", JStr old); ("new_status", JStr new)].

Definition add_outbox (root : uuid) (topic : string) (payload : json) (now : time) (d : db) : db :=
  set_events (db_events d)
    (<[fresh (dom (db_outbox d)) := {| ob_root := root; ob_topic := topic; ob_payload := payload; ob_attempts := 0;
                                      ob_available_at := now; ob_processed_at := None |}]> (db_outbox d)) d.

Definition mailing_unsubscribe (subscriber campaign : uuid) (now : time) (m : mdb) : result error (mdb * Z) :=
  match db_subscribers (m_db m) !! subscriber with
  | None => Ok (m, 0%Z)
  | Some s =>
      let? _ := fence m (s_root s) in
      let m := if String.eqb (s_status s) "unsubscribed" then m
               else let m := put_subscriber subscriber (with_subscriber_status "unsubscribed" s) m in
                    set_db (add_outbox (s_root s) "mailing.subscriber.status_changed"
                              (status_changed (s_business s) (s_root s) subscriber (s_list s) (s_email s)
                                 (s_status s) "unsubscribed") now (m_db m)) m in
      Ok (upsert_suppression (s_business s) (s_root s) (s_email s) RUnsubscribe
            (if N.eqb campaign uuid_Nil then "list_unsubscribe" else "campaign_unsubscribe")
            is_feedback true now m, 1%Z)
  end.

(** ** Tracking events *)

Definition add_event (e : tracking_event) (m : mdb) : mdb := set_tracking (m_events m ++ [e]) (m_dedupe m) m.

Definition event_of (id : uuid) (r : delivery_row) (kind : track_kind) (url : option string)
    (webhook : option (uuid * uuid * string)) (at_ : time) : tracking_event :=
  {| te_business := d_business r; te_root := d_root r; te_campaign := d_campaign r; te_delivery := id;
     te_subscriber := d_subscriber r; te_kind := kind; te_url := url; te_webhook := webhook; te_occurred_at := at_ |}.

Definition has_event (id : uuid) (kind : track_kind) (m : mdb) : bool :=
  existsb (fun e => N.eqb (te_delivery e) id && bool_decide (te_kind e = kind)) (m_events m).

Definition mailing_record_unsubscribe (subscriber campaign : uuid) (now : time) (m : mdb) : result error (mdb * bool) :=
  match mfind (fun _ r => bool_decide (d_campaign r = Some campaign) && N.eqb (d_subscriber r) subscriber) (m_deliveries m) with
  | None => Ok (m, false)
  | Some (id, r) =>
      if has_event id TUnsubscribe m then Ok (m, true) else
      let? _ := fence m (d_root r) in
      Ok (add_event (event_of id r TUnsubscribe None None now) m, true)
  end.

Definition opened_state (now : time) (st : delivery_state) : delivery_state :=
  {| ds_status := ds_status st; ds_attempts := ds_attempts st; ds_generation := ds_generation st;
     ds_not_before := ds_not_before st; ds_lease := ds_lease st; ds_provider_id := ds_provider_id st;
     ds_opened_at := Some (Z.min (default now (ds_opened_at st)) now);
     ds_first_clicked_at := ds_first_clicked_at st; ds_clicks := ds_clicks st;
     ds_last_error := ds_last_error st; ds_updated_at := now |}.
Definition clicked_state (now : time) (url : option string) (st : delivery_state) : delivery_state :=
  {| ds_status := ds_status st; ds_attempts := ds_attempts st; ds_generation := ds_generation st;
     ds_not_before := ds_not_before st; ds_lease := ds_lease st; ds_provider_id := ds_provider_id st;
     ds_opened_at := ds_opened_at st;
     ds_first_clicked_at := Some (Z.min (default now (ds_first_clicked_at st)) now);
     ds_clicks := match url with Some u => if existsb (String.eqb u) (ds_clicks st) then ds_clicks st
                                           else ds_clicks st ++ [u] | None => ds_clicks st end;
     ds_last_error := ds_last_error st; ds_updated_at := now |}.

(** [click]: a click rather than an open. *)
Definition mailing_record_track (delivery : uuid) (click : bool) (url : option string) (now : time) (m : mdb)
  : result error (mdb * bool) :=
  match m_deliveries m !! delivery with
  | None => Ok (m, false)
  | Some r =>
      let key := (delivery, click, sha256_sum (bytes (default "" url))) in
      if bool_decide (key ∈ m_dedupe m) then Ok (m, true) else
      let? _ := fence m (d_root r) in
      let m := set_tracking (m_events m ++ [event_of delivery r (if click then TClick else TOpen) url None now])
                 ({[ key ]} ∪ m_dedupe m) m in
      let st := if click then clicked_state now url (d_st r) else opened_state now (d_st r) in
      Ok (put_delivery now delivery (with_state st r) m, true)
  end.

(** [trim(both '<>' from btrim(...))] *)
Definition trim_angles (s : string) : string :=
  let pats := [["<"%char]; [">"%char]] in
  let l := strip pats (String.length s) (bytes s) in
  of_bytes (rev (strip pats (length l) (rev l))).

Definition mailing_mark_bounced (message : string) (now : time) (m : mdb) : result error (mdb * bool) :=
  match mfind (fun _ r => String.eqb (d_message_id r) (trim_angles (btrim message))) (m_deliveries m) with
  | None => Ok (m, false)
  | Some (id, r) =>
      let? _ := fence m (d_root r) in
      let m := if status_in [DBounced; DComplained] (d_st r) then m
               else put_delivery now id (with_state (stopped_state now DBounced "relay hard bounce" (d_st r)) r) m in
      let m := upsert_suppression (d_business r) (d_root r) (d_email r) RBounce "relay" is_complaint false now m in
      let m := demote_subscriber (d_subscriber r) "bounced" m in
      Ok (if has_event id TBounce m then m else add_event (event_of id r TBounce None None now) m, true)
  end.

(** ** Archiving a list *)

Definition archived_list (l : list_row) : list_row :=
  {| l_business := l_business l; l_root := l_root l; l_name := l_name l; l_active := false |}.

Definition set_lists (x : gmap uuid list_row) (d : db) : db :=
  {| db_automations := db_automations d; db_versions := db_versions d; db_enrollments := db_enrollments d;
     db_steps := db_steps d; db_events := db_events d; db_subscribers := db_subscribers d;
     db_deliveries := db_deliveries d; db_lists := x; db_templates := db_templates d;
     db_businesses := db_businesses d; db_fenced_roots := db_fenced_roots d;
     db_list_keys := db_list_keys d; db_outbox := db_outbox d; db_audit := db_audit d |}.

Definition on_list (list business root : uuid) (c : campaign_row) : bool :=
  N.eqb (cn_list (cm_content c)) list && N.eqb (cm_business c) business && N.eqb (cm_root c) root.

Definition archived_campaign (now : time) (c : campaign_row) : campaign_row :=
  with_campaign CCancelled (cm_started_at c) (cm_completed_at c) (cm_cursor c) (cm_fanout_done c) (cm_counts c) now c.

(** [SECURITY INVOKER]: the caller's policies apply; its campaigns are the
    business's. *)
Definition mailing_archive_list (list business root : uuid) (now : time) (m : mdb) : result error (mdb * Z) :=
  match db_lists (m_db m) !! list with
  | Some l =>
      if N.eqb (l_business l) business && N.eqb (l_root l) root && l_active l then
        let? _ := fence m root in
        let m := set_db (set_lists (<[list := archived_list l]> (db_lists (m_db m))) (m_db m)) m in
        let m := set_campaigns
          (mupdate (fun _ c => on_list list business root c &&
                               bool_decide (cm_status c ∈ [CDraft; CScheduled; CSending]))
             (archived_campaign now) (m_campaigns m)) m in
        let hit r := match d_campaign r with
                     | Some c => match m_campaigns m !! c with
                                 | Some row => on_list list business root row && N.eqb (d_business r) business &&
                                               N.eqb (d_root r) root && open_status (ds_status (d_st r))
                                 | None => false
                                 end
                     | None => false
                     end in
        Ok (update_deliveries now (stopped_state now DCancelled "list archived")
              (mselect (fun _ r => hit r) (m_deliveries m)) m, 1%Z)
      else Ok (m, 0%Z)
  | None => Ok (m, 0%Z)
  end.

(** ** Provider events *)

(** The delivery a provider event of this profile is about. *)
Definition correlates (m : mdb) (profile : uuid) (message : string) (recipient : string) (r : delivery_row) : bool :=
  match m_profiles m !! profile with
  | Some p =>
      N.eqb (pf_business p) (d_business r) && N.eqb (pf_root p) (d_root r) &&
      match d_campaign r with
      | None => true
      | Some _ => match campaign_of m r with Some c => bool_decide (cm_profile c = Some profile) | None => false end
      end &&
      bool_decide (ds_provider_id (d_st r) = Some message) && citext_eq (d_email r) recipient &&
      root_write_allowed (m_db m) (d_root r)
  | None => false
  end.

Definition correlated (m : mdb) (profile : uuid) (e : provider_event) : option (uuid * delivery_row) :=
  mfind (fun _ r => correlates m profile (pe_message_id e) (pe_recipient e) r) (m_deliveries m).

Definition feedback_kind (k : track_kind) : delivery_status :=
  match k with TDelivered => DDelivered | TBounce => DBounced | _ => DComplained end.

(** A complaint outranks a bounce, which outranks a delivery. *)
Definition feedback_status (old new : delivery_status) : delivery_status :=
  if bool_decide (old = DComplained) then old
  else if bool_decide (new = DComplained) then new
  else if bool_decide (old = DBounced) then old
  else if bool_decide (new = DBounced) then new
  else if (bool_decide (old = DSent) || bool_decide (old = DDelivered)) && bool_decide (new = DDelivered) then new
  else old.

Definition is_negative (k : track_kind) : bool := bool_decide (k = TBounce) || bool_decide (k = TComplaint).

Definition provider_event_seen (id : uuid) (kind : track_kind) (m : mdb) : bool :=
  existsb (fun e => N.eqb (te_delivery e) id && bool_decide (te_kind e = kind) && bool_decide (te_webhook e <> None))
    (m_events m).

Definition mailing_apply_provider_event_internal (webhook profile : uuid) (external : string) (e : provider_event)
    (now : time) (m : mdb) : mdb * bool :=
  match correlated m profile e with
  | None => (m, false)
  | Some (id, r) =>
      if provider_event_seen id (pe_kind e) m then (m, true) else
      let m := put_delivery now id
                 (with_state (with_status now (feedback_status (ds_status (d_st r)) (feedback_kind (pe_kind e))) (d_st r)) r) m in
      let m := add_event (event_of id r (pe_kind e) None (Some (webhook, profile, external))
                            (default now (pe_occurred_at e))) m in
      (if is_negative (pe_kind e)
       then demote_subscriber (d_subscriber r) (if bool_decide (pe_kind e = TComplaint) then "complained" else "bounced")
              (upsert_suppression (d_business r) (d_root r) (d_email r)
                 (if bool_decide (pe_kind e = TComplaint) then RComplaint else RBounce) "provider_webhook"
                 is_complaint false now m)
       else m, true)
  end.

(** The loop of [mailing_apply_pending_webhook]. *)
Fixpoint apply_events (webhook profile : uuid) (external : string) (es : list provider_event) (now : time) (m : mdb)
  : result error mdb :=
  match es with
  | [] => Ok m
  | e :: es =>
      let '(m, applied) := mailing_apply_provider_event_internal webhook profile external e now m in
      if applied then apply_events webhook profile external es now m
      else Err (PgError "P0001" "provider event correlation changed during apply")
  end.

Definition mailing_apply_pending_webhook (webhook : uuid) (now : time) (m : mdb) : result error (mdb * bool) :=
  match m_webhooks m !! webhook with
  | None => Ok (m, false)
  | Some w =>
      if wh_applied w then Ok (m, true) else
      if (wh_expires_at w <=? now)%Z then Ok (set_webhooks (delete webhook (m_webhooks m)) m, false) else
      if existsb (fun e => match correlated m (wh_profile w) e with None => true | Some _ => false end) (wh_events w)
      then Ok (m, false)
      else
        let? m := apply_events webhook (wh_profile w) (wh_event w) (wh_events w) now m in
        Ok (set_webhooks (delete webhook (m_webhooks m)) m, true)
  end.

Definition mailing_prune_expired_provider_webhooks (locked : gset uuid) (limit : Z) (now : time) (m : mdb) : mdb * Z :=
  let gone := take (batch_limit limit 0 1000)
                (merge_sort (by_key wh_expires_at)
                   (List.filter (fun x => unlocked locked (fst x) && (wh_expires_at (snd x) <=? now)%Z)
                      (map_to_list (m_webhooks m)))) in
  (set_webhooks (fold_left (fun w x => delete (fst x) w) gone (m_webhooks m)) m, Z.of_nat (length gone)).

(** ** Admission of a webhook *)

Definition blank (s : string) : bool := String.eqb (btrim s) "".

Definition well_formed_event (e : provider_event) : bool :=
  negb (blank (pe_message_id e)) && (RuneCountInString (pe_message_id e) <=? 500)%Z &&
  negb (blank (pe_recipient e)) && (RuneCountInString (pe_recipient e) <=? 320)%Z &&
  bool_decide (pe_kind e ∈ [TDelivered; TBounce; TComplaint]).

Record webhook_input := {
  wi_profile : uuid; wi_provider : string; wi_event : string; wi_events : list provider_event;
  wi_envelope_octets : Z; wi_events_octets : Z
}.

Definition admissible (i : webhook_input) : bool :=
  negb (blank (wi_event i)) && (RuneCountInString (wi_event i) <=? 500)%Z &&
  (String.eqb (wi_provider i) "resend" || String.eqb (wi_provider i) "ses") &&
  (wi_envelope_octets i <=? 262144)%Z && bool_decide (1 <= length (wi_events i) <= 50) &&
  (wi_events_octets i <=? 65536)%Z && forallb well_formed_event (wi_events i).

(** Every event is already on record. *)
Definition already_applied (i : webhook_input) (m : mdb) : bool :=
  forallb (fun e =>
    mexists (fun id r => correlates m (wi_profile i) (pe_message_id e) (pe_recipient e) r &&
                         provider_event_seen id (pe_kind e) m) (m_deliveries m)) (wi_events i).

Definition day : duration := 24 * Hour.

Definition pending_of (profile : uuid) (now : time) (_ : uuid) (w : webhook_row) : bool :=
  N.eqb (wh_profile w) profile && negb (wh_applied w) && (now <? wh_expires_at w)%Z.

Definition pending_octets (l : list (uuid * webhook_row)) : Z := fold_right (fun x n => wh_size (snd x) + n)%Z 0%Z l.

Inductive webhook_outcome := WIgnored | WApplied | WPending | WFull.

Definition mailing_process_provider_webhook (locked : gset uuid) (i : webhook_input) (now : time) (m : mdb)
  : result error (mdb * webhook_outcome) :=
  if negb (admissible i) then Ok (m, WIgnored) else
  match m_profiles m !! wi_profile i with
  | None => Ok (m, WIgnored)
  | Some p =>
      if negb (String.eqb (pf_mode p) (wi_provider i) && root_write_allowed (m_db m) (pf_root p)) then Ok (m, WIgnored) else
      let expired w := N.eqb (wh_profile w) (wi_profile i) && (wh_expires_at w <=? now)%Z in
      let hooks := mdelete (fun _ w => expired w && String.eqb (wh_event w) (wi_event i)) (m_webhooks m) in
      let gone := take 256 (merge_sort (by_key wh_expires_at)
                    (List.filter (fun x => unlocked locked (fst x) && expired (snd x)) (map_to_list hooks))) in
      let m := set_webhooks (fold_left (fun w x => delete (fst x) w) gone hooks) m in
      if negb (String.eqb (pf_status p) "verified" && business_operational (m_db m) (pf_business p) (pf_root p))
      then Ok (m, WIgnored) else
      if existsb (fun e => match te_webhook e with
                           | Some (_, profile, external) => N.eqb profile (wi_profile i) && String.eqb external (wi_event i)
                           | None => false
                           end) (m_events m) then Ok (m, WApplied) else
      if already_applied i m then Ok (m, WApplied) else
      let same := mfind (fun _ w => N.eqb (wh_profile w) (wi_profile i) && String.eqb (wh_event w) (wi_event i))
                    (m_webhooks m) in
      let id := match same with Some (id, _) => id | None => fresh (dom (m_webhooks m)) end in
      let inserted := match same with Some _ => false | None => true end in
      let ttl := if String.eqb (wi_provider i) "ses" then (25 * day)%Z else (7 * day)%Z in
      let row := {| wh_root := pf_root p; wh_profile := wi_profile i; wh_provider := wi_provider i;
                    wh_event := wi_event i; wh_events := wi_events i;
                    wh_size := wi_envelope_octets i + wi_events_octets i; wh_applied := false;
                    wh_expires_at := now + ttl; wh_received_at := now |} in
      let m := if inserted then set_webhooks (<[id := row]> (m_webhooks m)) m else m in
      if match same with Some (_, w) => (wh_expires_at w <=? now)%Z | None => false end then Ok (m, WIgnored) else
      let? (m, applied) := mailing_apply_pending_webhook id now m in
      if applied then Ok (m, WApplied) else
      let pending := mselect (pending_of (wi_profile i) now) (m_webhooks m) in
      if Nat.ltb 256 (length pending) || (8388608 <? pending_octets pending)%Z
      then Ok (if inserted then set_webhooks (delete id (m_webhooks m)) m else m, WFull)
      else Ok (m, WPending)
  end.

(** ** Completing a send *)

(** The webhooks of the delivery's business. *)
Definition business_webhook (m : mdb) (r : delivery_row) (w : webhook_row) : bool :=
  match m_profiles m !! wh_profile w with
  | Some p => N.eqb (pf_business p) (d_business r) && N.eqb (pf_root p) (d_root r)
  | None => false
  end.

(** [w.normalized_events @> [{provider_message_id, recipient}]] *)
Definition mentions (message email : string) (w : webhook_row) : bool :=
  existsb (fun e => String.eqb (pe_message_id e) message && String.eqb (pe_recipient e) (ToLower email)) (wh_events w).

Fixpoint apply_webhooks (ids : list uuid) (now : time) (m : mdb) : result error mdb :=
  match ids with
  | [] => Ok m
  | id :: ids => let? (m, _) := mailing_apply_pending_webhook id now m in apply_webhooks ids now m
  end.

Definition mailing_complete_delivery (locked : gset uuid) (id : uuid) (generation : Z) (provider_id : string)
    (now : time) (m : mdb) : result error (mdb * bool) :=
  match if_claimed m id generation with
  | None => Ok (m, false)
  | Some r =>
      let m := put_delivery now id (with_state (sent_state now provider_id (d_st r)) r) m in
      let free f := List.filter (fun x => unlocked locked (fst x) && f (snd x)) (map_to_list (m_webhooks m)) in
      let gone := take 256 (merge_sort (by_key wh_expires_at)
                    (free (fun w => business_webhook m r w && (wh_expires_at w <=? now)%Z))) in
      let matching := take 100 (merge_sort (by_key wh_received_at)
                        (free (fun w => business_webhook m r w && negb (wh_applied w) &&
                                        (now <? wh_expires_at w)%Z && mentions provider_id (d_email r) w))) in
      let m := set_webhooks (fold_left (fun w x => delete (fst x) w) gone (m_webhooks m)) m in
      let? m := apply_webhooks (map fst matching) now m in
      Ok (m, true)
  end.
End Feedback.
