(* ===== verification/MailService.v ===== *)
(** * The mailing service: campaigns, suppressions, consent links

    The state-changing operations of [internal/mailing/campaigns.go],
    [suppressions.go], [track.go] and [ArchiveList] of [lists.go], with the
    helpers of [types.go] they use.  As in [AutoService], an operation is the
    body of its transaction; an error rolls it back.  Every query under
    [WithPrincipal] sees the businesses the principal is authorized for.
    Sending a test of a campaign and the statistics per link are not modelled. *)

From S2P Require Import Prelude GoStrings GoTime GoJson AutoGraph Errors AutoEngine AutoStore AutoService AutoEvents.
From S2P Require Import MailToken MailStore MailFeedback.
#[local] Open Scope go_scope.

(** ** Types of the API *)

Record CampaignInput := {
  cin_ListID : uuid; cin_Name : string; cin_Subject : string; cin_Preheader : option string;
  cin_BodyMarkdown : string; cin_TagFilter : list string; cin_TrackOpens : bool; cin_TrackClicks : bool
}.
Record CampaignUpdate := {
  cup_ListID : option uuid; cup_Name : option string; cup_Subject : option string;
  cup_Preheader : option string; cup_SetPreheader : bool; cup_BodyMarkdown : option string;
  cup_TagFilter : option (list string); cup_TrackOpens : option bool; cup_TrackClicks : option bool
}.
Record Campaign := { cpn_ID : uuid; cpn_row : campaign_row }.
Definition toCampaign (id : uuid) (row : campaign_row) : Campaign := {| cpn_ID := id; cpn_row := row |}.

Definition mail_validation {A : Type} (message : string) : result error A :=
  Err (Wrap ("mailing: " +:+ message) ErrValidation).

Definition mail_mapErr (err : error) : error :=
  if is_no_rows err || is_not_found err then Wrap "mailing: not found" ErrNotFound
  else match pg_code err with
       | Some code =>
           if String.eqb code "23505" then Wrap "mailing: duplicate" ErrConflict
           else if String.eqb code "23503" then Wrap "mailing: foreign key" ErrNotFound
           else if String.eqb code "23514" then Wrap "mailing: invalid value" ErrValidation
           else Wrap "mailing: query" err
       | None => if is_validation err || is_conflict err then err else Wrap "mailing: query" err
       end.

(** [s.DB.WithPrincipal(...)] or [WithTx(...)] followed by [mapErr]. *)
Definition run_mail {A : Type} (body : mdb -> result error (mdb * A)) (m : mdb) : mdb * result error A :=
  match body m with
  | Ok (m', a) => (m', Ok a)
  | Err e => (m, Err (mail_mapErr (mapTxError e)))
  end.

Section Service.
Context `{UnicodeTables, UUIDLib, Authz, MailCrypto}.

(** ** Helpers *)

Fixpoint normalize_tags (tags out : list string) : result error (list string) :=
  match tags with
  | [] => Ok out
  | raw :: tags =>
      let tag := ToLower (TrimSpace raw) in
      if String.eqb tag "" || (64 <? len tag)%Z then mail_validation "tags must be 1 to 64 characters"
      else normalize_tags tags (if existsb (String.eqb tag) out then out else out ++ [tag])
  end.
Definition normalizeTags (tags : list string) : result error (list string) :=
  if (50 <? Z.of_nat (length tags))%Z then mail_validation "at most 50 tags are allowed" else normalize_tags tags [].

Definition mail_normalizeEmail `{EventLib} (v : string) : result error string :=
  let v := ToLower (TrimSpace v) in
  match mail_ParseAddress v with
  | Some a => if negb (String.eqb a v) || (320 <? len v)%Z then mail_validation "invalid email" else Ok v
  | None => mail_validation "invalid email"
  end.

Definition validateCampaign (name subject body : string) (list : uuid) : result error unit :=
  if N.eqb list uuid_Nil then mail_validation "list_id is required" else
  if String.eqb (TrimSpace name) "" || (200 <? len (TrimSpace name))%Z
  then mail_validation "campaign name is required and must not exceed 200 characters" else
  if (500 <? len (TrimSpace subject))%Z then mail_validation "subject must not exceed 500 characters" else
  if (2 ^ 20 <? len body)%Z then mail_validation "body_markdown exceeds 1 MiB" else Ok tt.

Definition mail_resolveTenantRoot (principal business : uuid) (m : mdb) : result error uuid :=
  resolveTenantRoot principal business (m_db m).

Definition loadList (principal business root list : uuid) (m : mdb) : result error list_row :=
  match db_lists (m_db m) !! list with
  | Some l => if N.eqb (l_root l) root && authorized principal (l_business l) && N.eqb (l_business l) business
              then Ok l else Err ErrNoRows
  | None => Err ErrNoRows
  end.

Definition loadCampaign (principal business root campaign : uuid) (m : mdb) : result error campaign_row :=
  match m_campaigns m !! campaign with
  | Some c => if N.eqb (cm_root c) root && authorized principal (cm_business c) && N.eqb (cm_business c) business
              then Ok c else Err ErrNoRows
  | None => Err ErrNoRows
  end.

Definition auditMutation (principal business root : uuid) (action target_type : string) (target : uuid) (value : json)
    (m : mdb) : mdb :=
  set_db (audit principal business root action target_type target value (m_db m)) m.

Definition conflict {A : Type} (message : string) : result error A := Err (Wrap message ErrConflict).

(** ** Campaigns *)

Definition draft_campaign (business root : uuid) (content : campaign_content) (principal : uuid) (now : time)
  : campaign_row :=
  {| cm_business := business; cm_root := root; cm_content := content; cm_profile := None; cm_status := CDraft;
     cm_scheduled_at := None; cm_started_at := None; cm_completed_at := None; cm_cursor := None;
     cm_fanout_done := false; cm_counts := no_counts; cm_last_error := None; cm_created_by := Some principal;
     cm_created_at := now; cm_updated_at := now |}.

(** [id] is [uuid.New()]. *)
Definition CreateCampaign (principal business : uuid) (input : CampaignInput) (id : uuid) (now : time)
  : mdb -> mdb * result error Campaign :=
  let name := TrimSpace (cin_Name input) in
  let subject := TrimSpace (cin_Subject input) in
  match validateCampaign name subject (cin_BodyMarkdown input) (cin_ListID input) with
  | Err e => fun m => (m, Err e)
  | Ok _ =>
  match normalizeTags (cin_TagFilter input) with
  | Err e => fun m => (m, Err e)
  | Ok tags => run_mail (fun m =>
      let? root := mail_resolveTenantRoot principal business m in
      let? _ := loadList principal business root (cin_ListID input) m in
      let? _ := fence m root in
      if bool_decide (m_campaigns m !! id <> None) then sql "23505" "campaign_pkey" else
      let content := {| cn_list := cin_ListID input; cn_name := name; cn_subject := subject;
                        cn_preheader := cleanOptional (cin_Preheader input); cn_body := cin_BodyMarkdown input;
                        cn_tags := tags; cn_opens := cin_TrackOpens input; cn_clicks := cin_TrackClicks input |} in
      let row := draft_campaign business root content principal now in
      let m := put_campaign id row m in
      let m := auditMutation principal business root "mailing.campaign.created" "campaign" id
                 (JObj [("list_id", juuid (cin_ListID input)); ("tag_count", JInt (Z.of_nat (length tags)))]) m in
      Ok (m, toCampaign id row))
  end end.

Definition GetCampaign (principal business campaign : uuid) : mdb -> mdb * result error Campaign :=
  run_mail (fun m =>
    let? root := mail_resolveTenantRoot principal business m in
    let? row := loadCampaign principal business root campaign m in
    Ok (m, toCampaign campaign row)).

Definition with_content (content : campaign_content) (now : time) (c : campaign_row) : campaign_row :=
  {| cm_business := cm_business c; cm_root := cm_root c; cm_content := content; cm_profile := cm_profile c;
     cm_status := cm_status c; cm_scheduled_at := cm_scheduled_at c; cm_started_at := cm_started_at c;
     cm_completed_at := cm_completed_at c; cm_cursor := cm_cursor c; cm_fanout_done := cm_fanout_done c;
     cm_counts := cm_counts c; cm_last_error := cm_last_error c; cm_created_by := cm_created_by c;
     cm_created_at := cm_created_at c; cm_updated_at := now |}.

Definition UpdateCampaign (principal business campaign : uuid) (input : CampaignUpdate) (now : time)
  : mdb -> mdb * result error Campaign :=
  run_mail (fun m =>
    let? root := mail_resolveTenantRoot principal business m in
    let? current := loadCampaign principal business root campaign m in
    if negb (bool_decide (cm_status current = CDraft))
    then conflict "mailing: only draft campaigns may be edited" else
    let old := cm_content current in
    let list := default (cn_list old) (cup_ListID input) in
    let name := match cup_Name input with Some n => TrimSpace n | None => cn_name old end in
    let subject := match cup_Subject input with Some s => TrimSpace s | None => cn_subject old end in
    let preheader := if cup_SetPreheader input then cleanOptional (cup_Preheader input) else cn_preheader old in
    let body := default (cn_body old) (cup_BodyMarkdown input) in
    let? tags := match cup_TagFilter input with Some t => normalizeTags t | None => Ok (cn_tags old) end in
    let? _ := validateCampaign name subject body list in
    let? _ := loadList principal business root list m in
    let? _ := fence m root in
    let content := {| cn_list := list; cn_name := name; cn_subject := subject; cn_preheader := preheader;
                      cn_body := body; cn_tags := tags; cn_opens := default (cn_opens old) (cup_TrackOpens input);
                      cn_clicks := default (cn_clicks old) (cup_TrackClicks input) |} in
    let row := with_content content now current in
    let m := put_campaign campaign row m in
    let m := auditMutation principal business root "mailing.campaign.updated" "campaign" campaign
               (JObj [("list_id", juuid list); ("tag_count", JInt (Z.of_nat (length tags)))]) m in
    Ok (m, toCampaign campaign row)).

Definition status_text (s : campaign_status) : string :=
  match s with CDraft => "draft" | CScheduled => "scheduled" | CSending => "sending" | CSent => "sent"
             | CCancelled => "cancelled" | CFailed => "failed" end.

(** [ON DELETE CASCADE]: the campaign's deliveries, their events and fingerprints,
    and its place in the rollup queue go with it. *)
Definition delete_campaign (campaign : uuid) (m : mdb) : mdb :=
  let gone id := match m_deliveries m !! id with
                 | Some r => bool_decide (d_campaign r = Some campaign)
                 | None => false
                 end in
  let d := set_deliveries (mdelete (fun _ r => bool_decide (d_campaign r = Some campaign)) (m_deliveries m)) (m_db m) in
  let m' := set_campaigns (delete campaign (m_campaigns m)) (set_db d m) in
  let m' := set_tracking (List.filter (fun e => negb (bool_decide (te_campaign e = Some campaign) || gone (te_delivery e))) (m_events m))
              (filter (fun k => gone k.1.1 = false) (m_dedupe m)) m' in
  set_rollups (delete campaign (m_rollups m)) m'.

Definition DeleteCampaign (principal business campaign : uuid) : mdb -> mdb * result error unit :=
  run_mail (fun m =>
    let? root := mail_resolveTenantRoot principal business m in
    let? current := loadCampaign principal business root campaign m in
    if negb (bool_decide (cm_status current = CDraft) || bool_decide (cm_status current = CCancelled))
    then conflict "mailing: only draft or cancelled campaigns may be deleted" else
    let? _ := fence m root in
    let m := delete_campaign campaign m in
    Ok (auditMutation principal business root "mailing.campaign.deleted" "campaign" campaign
          (JObj [("status", JStr (status_text (cm_status current)))]) m, tt)).

(** The query [ScheduleCampaign]: the business's ready profile is pinned. *)
Definition scheduled_row (profile : uuid) (at_ now : time) (c : campaign_row) : campaign_row :=
  {| cm_business := cm_business c; cm_root := cm_root c; cm_content := cm_content c; cm_profile := Some profile;
     cm_status := CScheduled; cm_scheduled_at := Some (Z.max at_ now); cm_started_at := cm_started_at c;
     cm_completed_at := cm_completed_at c; cm_cursor := None; cm_fanout_done := false; cm_counts := cm_counts c;
     cm_last_error := None; cm_created_by := cm_created_by c; cm_created_at := cm_created_at c;
     cm_updated_at := now |}.

Definition ScheduleCampaign (principal campaign business root : uuid) (at_ now : time) (m : mdb)
  : result error (mdb * campaign_row) :=
  match m_campaigns m !! campaign with
  | Some c =>
      if N.eqb (cm_root c) root && N.eqb (cm_business c) business && authorized principal (cm_business c) &&
         bool_decide (cm_status c = CDraft) &&
         negb (String.eqb (btrim (cn_subject (cm_content c))) "") && negb (String.eqb (btrim (cn_body (cm_content c))) "") &&
         match db_lists (m_db m) !! cn_list (cm_content c) with
         | Some l => N.eqb (l_root l) (cm_root c) && N.eqb (l_business l) (cm_business c) && l_active l
         | None => false
         end
      then match mfind (fun _ p => profile_ready m (cm_business c) (cm_root c) p) (m_profiles m) with
           | Some (pid, _) =>
               let? _ := fence m root in
               let row := scheduled_row pid at_ now c in
               Ok (put_campaign campaign row m, row)
           | None => Err ErrNoRows
           end
      else Err ErrNoRows
  | None => Err ErrNoRows
  end.

Definition GetMailingSendingProfile (business root : uuid) (m : mdb) : result error (uuid * profile_row) :=
  match mfind (fun _ p => N.eqb (pf_business p) business && N.eqb (pf_root p) root) (m_profiles m) with
  | Some x => Ok x
  | None => Err ErrNoRows
  end.

(** [clock] is the service's clock, [now] the transaction's. *)
Definition SendCampaign `{EventLib} (principal business campaign : uuid) (scheduledAt : option time) (clock now : time)
  : mdb -> mdb * result error Campaign :=
  let at_ := match scheduledAt with Some t => if After t clock then t else clock | None => clock end in
  run_mail (fun m =>
    let? root := mail_resolveTenantRoot principal business m in
    let? current := loadCampaign principal business root campaign m in
    if negb (bool_decide (cm_status current = CDraft)) then conflict "mailing: campaign is not a draft" else
    if String.eqb (TrimSpace (cn_subject (cm_content current))) "" || String.eqb (TrimSpace (cn_body (cm_content current))) ""
    then mail_validation "subject and body_markdown are required before sending" else
    let? (m, row) := match ScheduleCampaign principal campaign business root at_ now m with
                     | Err e => if is_no_rows e then mail_validation "an active list and verified sending profile are required"
                                else Err e
                     | Ok x => Ok x
                     end in
    let? (_, profile) := GetMailingSendingProfile business root m in
    let warning := String.eqb (TrimSpace (default "" (pf_postal_address profile))) "" in
    let m := auditMutation principal business root "mailing.campaign.scheduled" "campaign" campaign
               (JObj [("scheduled_at", JStr (time_RFC3339 at_)); ("postal_address_warning", JBool warning)]) m in
    Ok (m, toCampaign campaign row)).

Definition CancelCampaign (principal business campaign : uuid) (now : time) : mdb -> mdb * result error Campaign :=
  run_mail (fun m =>
    let? root := mail_resolveTenantRoot principal business m in
    let? current := loadCampaign principal business root campaign m in
    if negb (bool_decide (cm_status current = CScheduled) || bool_decide (cm_status current = CSending))
    then conflict "mailing: campaign cannot be cancelled" else
    let? (m, changed) := mailing_cancel_campaign principal campaign now m in
    if negb changed then conflict "mailing: campaign could not be cancelled" else
    let? row := loadCampaign principal business root campaign m in
    let m := auditMutation principal business root "mailing.campaign.cancelled" "campaign" campaign (JObj []) m in
    Ok (m, toCampaign campaign row)).

Definition ArchiveList (principal business list : uuid) (now : time) : mdb -> mdb * result error unit :=
  run_mail (fun m =>
    let? root := mail_resolveTenantRoot principal business m in
    let? _ := loadList principal business root list m in
    let? (m, changed) := mailing_archive_list list business root now m in
    if negb (changed =? 1)%Z then Err ErrNoRows else
    Ok (auditMutation principal business root "mailing.list.archived" "mailing_list" list (JObj []) m, tt)).

(** ** Suppressions *)

Definition parse_reason (reason : string) : option suppression_reason :=
  if String.eqb reason "manual" then Some RManual else if String.eqb reason "bounce" then Some RBounce
  else if String.eqb reason "complaint" then Some RComplaint else if String.eqb reason "unsubscribe" then Some RUnsubscribe
  else None.

Definition reason_text (r : suppression_reason) : string :=
  match r with RManual => "manual" | RBounce => "bounce" | RComplaint => "complaint" | RUnsubscribe => "unsubscribe" end.

Definition suppression_ids (m : mdb) : gset uuid :=
  list_to_set (map (fun x => sp_id (snd x)) (map_to_list (m_suppressions m))).

Definition CreateSuppression `{EventLib} (principal business : uuid) (email reason : string) (now : time)
  : mdb -> mdb * result error suppression_row :=
  match mail_normalizeEmail email with
  | Err e => fun m => (m, Err e)
  | Ok email =>
      let reason := ToLower (TrimSpace reason) in
      let reason := if String.eqb reason "" then "manual" else reason in
      match parse_reason reason with
      | None => fun m => (m, mail_validation "invalid suppression reason")
      | Some r => run_mail (fun m =>
          let? root := mail_resolveTenantRoot principal business m in
          let? _ := fence m root in
          let key := (business, email_key email) in
          if bool_decide (m_suppressions m !! key <> None)
          then sql "23505" "mailing_suppression_business_id_email_key" else
          let row := {| sp_id := fresh (suppression_ids m); sp_root := root; sp_reason := r; sp_source := "manual";
                        sp_created_at := now |} in
          let m := set_suppressions (<[key := row]> (m_suppressions m)) m in
          Ok (auditMutation principal business root "mailing.suppression.created" "mailing_suppression" (sp_id row)
                (JObj [("reason", JStr reason)]) m, row))
      end
  end.

Definition DeleteSuppression (principal business suppression : uuid) : mdb -> mdb * result error unit :=
  run_mail (fun m =>
    let? root := mail_resolveTenantRoot principal business m in
    match mfind (fun k s => N.eqb (sp_id s) suppression && N.eqb (sp_root s) root && authorized principal (fst k))
                (m_suppressions m) with
    | None => Err ErrNoRows
    | Some (key, s) =>
        let? _ := fence m root in
        if negb (N.eqb (fst key) business) then Err ErrNoRows else
        Ok (auditMutation principal business root "mailing.suppression.deleted" "mailing_suppression" suppression
              (JObj [("reason", JStr (reason_text (sp_reason s)))]) (set_suppressions (delete key (m_suppressions m)) m), tt)
    end).

(** ** The links in a mail *)

Definition run_public {A : Type} (body : mdb -> result error (mdb * A)) (m : mdb) : mdb * result error A :=
  match body m with
  | Ok (m', a) => (m', Ok a)
  | Err e => (m, Err (mapTxError e))
  end.

(** An invalid token is a successful no-op. *)
Definition Unsubscribe (c : Codec) (raw : string) (now : time) : mdb -> mdb * result error unit :=
  match DecodeUnsubscribe c raw with
  | Err _ => fun m => (m, Ok tt)
  | Ok (subscriber, campaign) => run_public (fun m =>
      let? (m, _) := mailing_unsubscribe subscriber campaign now m in
      let? (m, _) := mailing_record_unsubscribe subscriber campaign now m in
      Ok (m, tt))
  end.

Definition nullIfEmpty (v : string) : option string :=
  let v := TrimSpace v in if String.eqb v "" then None else Some v.

Definition recordTrack (delivery : uuid) (click : bool) (target : string) (now : time)
  : mdb -> mdb * result error bool :=
  run_public (mailing_record_track delivery click (nullIfEmpty target) now).

(** The pixel is answered alike in every case. *)
Definition trackOpen (c : Codec) (raw : string) (now : time) (m : mdb) : mdb :=
  match DecodeOpen c raw with
  | Ok delivery => (recordTrack delivery false "" now m).1
  | Err _ => m
  end.

(** The redirect of a click; [url_ok] is [url.Parse] with an http or https scheme
    and a host. *)
Definition trackClick (c : Codec) (url_ok : string -> bool) (raw : string) (now : time) (m : mdb) : mdb * option string :=
  match DecodeClick c raw with
  | Err _ => (m, None)
  | Ok (delivery, target) =>
      if url_ok target then ((recordTrack delivery true target now m).1, Some target) else (m, None)
  end.
End Service.
