(* ===== verification/MailFacts.v ===== *)
(** * The life of deliveries and campaigns

    What an operation of mailing may do to a delivery ([d_evolved]) and to a
    campaign ([c_evolved]), the invariant of the mailing tables ([mail_ok]), and
    the primitive writes that respect both. *)

From S2P Require Import Prelude GoStrings GoTime GoJson AutoGraph Errors AutoEngine AutoStore AutoStoreFacts AutoService.
From S2P Require Import MailToken MailStore MailFeedback.
From stdpp Require Import sorting.
#[local] Open Scope go_scope.

(** ** Deliveries *)

(** Where a delivery's status can lead. *)
Definition leads (a b : delivery_status) : bool :=
  match a with
  | DQueued | DSending => true
  | DSent => bool_decide (b ∈ [DSent; DDelivered; DBounced; DComplained])
  | DDelivered => bool_decide (b ∈ [DDelivered; DBounced; DComplained])
  | DBounced => bool_decide (b ∈ [DBounced; DComplained])
  | DComplained => bool_decide (b = DComplained)
  | DFailed | DSuppressed | DCancelled => bool_decide (b = a) || bool_decide (b ∈ [DBounced; DComplained])
  end.

Lemma leads_refl a : leads a a = true.
Proof. by destruct a. Qed.
Lemma leads_trans a b c : leads a b = true -> leads b c = true -> leads a c = true.
Proof. by destruct a, b; vm_compute; destruct c. Qed.

Record d_state_evolved (st st' : delivery_state) : Prop := {
  dev_status : leads (ds_status st) (ds_status st') = true;
  dev_generation : (ds_generation st < ds_generation st')%Z \/
    (ds_generation st' = ds_generation st /\ (ds_status st' = DSending -> ds_status st = DSending));
  dev_attempts : (ds_attempts st' - ds_attempts st <= ds_generation st' - ds_generation st)%Z;
  dev_provider : forall p, ds_provider_id st = Some p -> ds_provider_id st' = Some p;
  dev_opened : ds_opened_at st <> None -> ds_opened_at st' <> None;
  dev_clicked : ds_first_clicked_at st <> None -> ds_first_clicked_at st' <> None
}.

(** Who a delivery is for and what it is about never change. *)
Definition d_evolved (r r' : delivery_row) : Prop :=
  r' = with_state (d_st r') r /\ d_state_evolved (d_st r) (d_st r').

#[export] Instance d_state_evolved_preorder : PreOrder d_state_evolved.
Proof.
  split.
  - intros st. split; auto using leads_refl; lia.
  - intros a b c [] []. split; eauto using leads_trans; [|lia].
    destruct_or!; [left; lia..|right; naive_solver lia].
Qed.

Lemma with_state_same (r : delivery_row) : with_state (d_st r) r = r.
Proof. by destruct r. Qed.

#[export] Instance d_evolved_preorder : PreOrder d_evolved.
Proof.
  split.
  - intros r. split; [by rewrite with_state_same|reflexivity].
  - intros a b c [Hb H1] [Hc H2]. split; [|by etransitivity]. rewrite Hc at 1. by rewrite Hb.
Qed.

Lemma d_evolved_state (r : delivery_row) (st : delivery_state) :
  d_state_evolved (d_st r) st -> d_evolved r (with_state st r).
Proof. done. Qed.

Record state_ok (st : delivery_state) : Prop := {
  so_lease : ds_lease st <> None <-> ds_status st = DSending;
  so_attempts : (0 <= ds_attempts st <= ds_generation st)%Z;
  so_provider : ds_provider_id st <> None -> status_in [DSent; DDelivered; DBounced; DComplained] st = true;
  so_sent : status_in [DSent; DDelivered; DComplained] st = true -> ds_provider_id st <> None
}.

Definition source_ok (r : delivery_row) : Prop :=
  (d_source_kind r = "campaign" /\ d_campaign r = Some (d_source_id r) /\ d_template r = None /\ d_fence r = None) \/
  (d_source_kind r = "automation" /\ d_campaign r = None /\ d_template r <> None /\ d_fence r <> None).

Definition delivery_ok (r : delivery_row) : Prop := source_ok r /\ state_ok (d_st r).

(** ** Campaigns *)

Definition c_rank (s : campaign_status) : nat :=
  match s with CDraft => 0 | CScheduled => 1 | CSending => 2 | CSent | CCancelled | CFailed => 3 end.
Definition c_leads (a b : campaign_status) : bool := bool_decide (a = b) || bool_decide (c_rank a < c_rank b).

Definition cursor_le (a b : option uuid) : Prop :=
  match a, b with Some x, Some y => (x <= y)%N | Some _, None => False | None, _ => True end.

Record c_evolved (x x' : campaign_row) : Prop := {
  cev_business : cm_business x' = cm_business x;
  cev_root : cm_root x' = cm_root x;
  cev_status : c_leads (cm_status x) (cm_status x') = true;
  cev_content : cm_status x <> CDraft -> cm_content x' = cm_content x /\ cm_profile x' = cm_profile x;
  cev_cursor : cursor_le (cm_cursor x) (cm_cursor x');
  cev_done : cm_fanout_done x = true -> cm_fanout_done x' = true
}.

Lemma c_leads_trans a b c : c_leads a b = true -> c_leads b c = true -> c_leads a c = true.
Proof. by destruct a, b; vm_compute; destruct c. Qed.
Lemma c_leads_refl a : c_leads a a = true.
Proof. by destruct a. Qed.
Lemma c_leads_draft a b : c_leads a b = true -> a <> CDraft -> b <> CDraft.
Proof. by destruct a, b. Qed.

#[export] Instance cursor_le_preorder : PreOrder cursor_le.
Proof. split; [intros []|intros [] [] []]; simpl; try done; lia. Qed.

#[export] Instance c_evolved_preorder : PreOrder c_evolved.
Proof.
  split.
  - intros x. split; auto using c_leads_refl. reflexivity.
  - intros a b c [] []. split; [congruence..|by eapply c_leads_trans| |by etransitivity|auto].
    intros Ha. destruct (cev_content0 Ha). destruct cev_content1; [by eapply c_leads_draft|]. split; congruence.
Qed.

(** ** The invariant *)

Definition started (s : campaign_status) : bool := bool_decide (s ∈ [CSending; CSent; CCancelled]).

(** A delivery of the campaign reached the subscriber the cursor has passed. *)
Definition from_campaign (r : delivery_row) (x : campaign_row) : Prop :=
  cm_business x = d_business r /\ cm_root x = d_root r /\ started (cm_status x) = true /\
  cursor_le (Some (d_subscriber r)) (cm_cursor x).

Record campaign_ok (m : mdb) (c : uuid) (x : campaign_row) : Prop := {
  co_failed : cm_status x <> CFailed;
  co_early : cm_status x = CDraft \/ cm_status x = CScheduled -> cm_cursor x = None /\ cm_fanout_done x = false;
  co_pinned : cm_status x ∈ [CScheduled; CSending; CSent] -> cm_profile x <> None /\ cm_scheduled_at x <> None;
  co_started : cm_status x ∈ [CSending; CSent] -> cm_started_at x <> None;
  co_sent : cm_status x = CSent -> cm_fanout_done x = true /\ cm_completed_at x <> None /\ drained m c = true
}.

Record mail_ok (m : mdb) : Prop := {
  ok_one : one_delivery (m_deliveries m);
  ok_rows : forall id r, m_deliveries m !! id = Some r -> delivery_ok r;
  ok_source : forall id r c, m_deliveries m !! id = Some r -> d_campaign r = Some c ->
    exists x, m_campaigns m !! c = Some x /\ from_campaign r x;
  ok_campaigns : forall c x, m_campaigns m !! c = Some x -> campaign_ok m c x;
  ok_rollups : forall c q, m_rollups m !! c = Some q ->
    exists x, m_campaigns m !! c = Some x /\ cm_business x = rq_business q /\ cm_root x = rq_root q
}.

(** The tables of the automations are as they were. *)
Definition same_automations (m m' : mdb) : Prop :=
  db_automations (m_db m') = db_automations (m_db m) /\ db_versions (m_db m') = db_versions (m_db m) /\
  db_enrollments (m_db m') = db_enrollments (m_db m) /\ db_steps (m_db m') = db_steps (m_db m).

#[export] Instance same_automations_preorder : PreOrder same_automations.
Proof. split; [by intros m|]. intros a b c (? & ? & ? & ?) (? & ? & ? & ?). unfold same_automations. split_and!; congruence. Qed.

(** ** Counters

    The eight counters of a campaign that its deliveries determine.  The ninth,
    of unsubscribes, is not one of them: it counts consent events, and
    [mailing_record_unsubscribe] changes what it should be without queueing a
    rollup (see [unsubscribe_count_stale]). *)

Definition counts_agree (k k' : campaign_counts) : Prop :=
  n_recipient k = n_recipient k' /\ n_sent k = n_sent k' /\ n_delivered k = n_delivered k' /\ n_bounced k = n_bounced k' /\
  n_complained k = n_complained k' /\ n_opened k = n_opened k' /\ n_clicked k = n_clicked k' /\ n_failed k = n_failed k'.

Definition clean (m : mdb) (c : uuid) (x : campaign_row) : Prop := counts_agree (cm_counts x) (counted m c).

(** Waiting for a rollup nobody has claimed. *)
Definition requeued (m : mdb) (c : uuid) : Prop := exists q, m_rollups m !! c = Some q /\ rq_claim q = None.

Definition tracked (m m' : mdb) : Prop :=
  forall c, requeued m' c \/
    (m_rollups m' !! c = m_rollups m !! c /\
     forall x', m_campaigns m' !! c = Some x' -> (forall x, m_campaigns m !! c = Some x -> clean m c x) -> clean m' c x').

Lemma tracked_refl (m : mdb) : tracked m m.
Proof. intros c. right. split; [done|]. auto. Qed.

Lemma tracked_trans (m1 m2 m3 : mdb) : tracked m1 m2 -> tracked m2 m3 -> tracked m1 m3.
Proof.
  intros H12 H23 c. destruct (H23 c) as [?|[Hr Hc]]; [by left|]. destruct (H12 c) as [(q & Hq & ?)|[Hr' Hc']].
  - left. exists q. by rewrite Hr.
  - right. split; [congruence|]. intros x' Hx' Hx. apply (Hc _ Hx'). intros y Hy. by apply (Hc' _ Hy).
Qed.

Lemma mcount_ext {A : Type} (f : uuid -> A -> bool) (m1 m2 : gmap uuid A) :
  (forall k a, f k a = true -> m1 !! k = Some a <-> m2 !! k = Some a) -> mcount f m1 = mcount f m2.
Proof.
  intros Heq. unfold mcount. apply Permutation_length, NoDup_Permutation; [apply NoDup_ListNoDup, List.NoDup_filter, NoDup_ListNoDup, NoDup_map_to_list..|].
  intros [k a]. rewrite !elem_of_mselect. naive_solver.
Qed.

Lemma mcount_ext_fun {A : Type} (f g : uuid -> A -> bool) (m : gmap uuid A) :
  (forall k a, f k a = g k a) -> mcount f m = mcount g m.
Proof. intros Heq. unfold mcount, mselect. f_equal. apply List.filter_ext. intros x. apply Heq. Qed.

(** The same deliveries of the campaign. *)
Definition same_deliveries (c : uuid) (m m' : mdb) : Prop :=
  forall id r, d_campaign r = Some c -> m_deliveries m !! id = Some r <-> m_deliveries m' !! id = Some r.

Lemma counted_same (c : uuid) (m m' : mdb) : same_deliveries c m m' -> counts_agree (counted m c) (counted m' c).
Proof.
  intros Hsame. assert (Hc : forall f, count_of m c f = count_of m' c f).
  { intros f. unfold count_of. f_equal. apply mcount_ext. intros id r Hf. apply Hsame. unfold of_campaign in Hf.
    apply andb_true_iff in Hf as [Hf _]. by apply bool_decide_eq_true in Hf. }
  unfold counts_agree. simpl. by rewrite !Hc.
Qed.

Lemma counts_agree_trans (a b c : campaign_counts) : counts_agree a b -> counts_agree b c -> counts_agree a c.
Proof. unfold counts_agree. intuition congruence. Qed.

Lemma clean_same (c : uuid) (m m' : mdb) (x x' : campaign_row) :
  same_deliveries c m m' -> cm_counts x' = cm_counts x -> clean m c x -> clean m' c x'.
Proof. intros Hsame Hk Hc. unfold clean. rewrite Hk. eapply counts_agree_trans; [exact Hc|by apply counted_same]. Qed.

(** Rows stay and evolve; others may appear. *)
Record evolve (m m' : mdb) : Prop := {
  ev_automations : same_automations m m';
  ev_tracked : tracked m m';
  ev_deliveries : forall id r, m_deliveries m !! id = Some r ->
    exists r', m_deliveries m' !! id = Some r' /\ d_evolved r r';
  ev_campaigns : forall c x, m_campaigns m !! c = Some x ->
    exists x', m_campaigns m' !! c = Some x' /\ c_evolved x x'
}.

#[export] Instance evolve_preorder : PreOrder evolve.
Proof.
  split.
  - intros m. split; [reflexivity|apply tracked_refl|intros k v Hk; exists v; split; done || reflexivity..].
  - intros a b c [H0 Ht H1 H2] [H0' Ht' H3 H4]. split; [by etransitivity|by eapply tracked_trans|intros k v Hk..].
    + destruct (H1 _ _ Hk) as (v1 & Hk1 & ?). destruct (H3 _ _ Hk1) as (v2 & Hk2 & ?). exists v2. split; [done|by etransitivity].
    + destruct (H2 _ _ Hk) as (v1 & Hk1 & ?). destruct (H4 _ _ Hk1) as (v2 & Hk2 & ?). exists v2. split; [done|by etransitivity].
Qed.

Definition good (m m' : mdb) : Prop := mail_ok m -> mail_ok m' /\ evolve m m'.

#[export] Instance good_preorder : PreOrder good.
Proof.
  split.
  - intros m Hok. split; [done|reflexivity].
  - intros a b c H1 H2 Hok. destruct (H1 Hok) as [Hb He]. destruct (H2 Hb) as [Hc He']. split; [done|by etransitivity].
Qed.

(** Writes to the other tables. *)
Lemma mail_good_frame (m m' : mdb) :
  same_automations m m' -> m_deliveries m' = m_deliveries m -> m_campaigns m' = m_campaigns m -> m_rollups m' = m_rollups m -> good m m'.
Proof.
  intros Ha Hd Hc Hr [H1 H2 H3 H4 H5]. split.
  - split; rewrite ?Hd, ?Hc, ?Hr; try done. intros c x Hx. destruct (H4 _ _ Hx) as [? ? ? ? Hs]. split; try done.
    intros Hst. destruct (Hs Hst) as (? & ? & ?). split_and!; try done. unfold drained. by rewrite Hd.
  - split; [done| |rewrite ?Hd, ?Hc; intros k v Hk; exists v; split; done || reflexivity..].
    intros c. right. rewrite Hr, Hc. split; [done|]. intros x Hx Hcl. apply (clean_same c m m' x x); [|done|by apply Hcl].
    intros id r _. by rewrite Hd.
Qed.

(** ** Updating deliveries *)

Lemma drained_true (m : mdb) (c : uuid) :
  drained m c = true <-> forall id r, m_deliveries m !! id = Some r -> d_campaign r = Some c ->
    open_status (ds_status (d_st r)) = false.
Proof.
  unfold drained. rewrite negb_true_iff, mexists_false. unfold of_campaign, status_in, open_status. split.
  - intros Hall id r Hr Hc. specialize (Hall _ _ Hr). rewrite bool_decide_eq_true_2 in Hall by done. simpl in Hall.
    by destruct (ds_status (d_st r)).
  - intros Hall id r Hr. destruct (bool_decide (d_campaign r = Some c)) eqn:Hc; [|done]. apply bool_decide_eq_true in Hc.
    specialize (Hall _ _ Hr Hc). simpl. by destruct (ds_status (d_st r)).
Qed.

Lemma leads_closed a b : leads a b = true -> open_status a = false -> open_status b = false.
Proof. by destruct a, b. Qed.

Lemma trigger_db (now : time) (r : delivery_row) (m : mdb) :
  m_db (mailing_queue_campaign_rollup_change now r m) = m_db m /\
  m_campaigns (mailing_queue_campaign_rollup_change now r m) = m_campaigns m /\
  m_profiles (mailing_queue_campaign_rollup_change now r m) = m_profiles m /\
  m_suppressions (mailing_queue_campaign_rollup_change now r m) = m_suppressions m /\
  m_blocked (mailing_queue_campaign_rollup_change now r m) = m_blocked m /\
  m_events (mailing_queue_campaign_rollup_change now r m) = m_events m /\
  m_dedupe (mailing_queue_campaign_rollup_change now r m) = m_dedupe m /\
  m_webhooks (mailing_queue_campaign_rollup_change now r m) = m_webhooks m.
Proof.
  unfold mailing_queue_campaign_rollup_change. destruct (d_campaign r); [|done]. destruct (m_campaigns m !! _); [|done].
  by destruct (_ && _).
Qed.

Lemma put_deliveries_db (now : time) (id : uuid) (r : delivery_row) (m : mdb) :
  m_deliveries (put_delivery now id r m) = <[id := r]> (m_deliveries m) /\
  m_campaigns (put_delivery now id r m) = m_campaigns m.
Proof.
  unfold put_delivery. destruct (trigger_db now r (set_db (set_deliveries (<[id:=r]> (m_deliveries m)) (m_db m)) m))
    as (-> & -> & _). done.
Qed.

(** Only deliveries and the rollup queue are written. *)
Definition delivery_write (m m' : mdb) : Prop :=
  m' = set_rollups (m_rollups m') (set_db (set_deliveries (m_deliveries m') (m_db m)) m).

#[export] Instance delivery_write_preorder : PreOrder delivery_write.
Proof.
  split.
  - intros [[] ]. done.
  - unfold delivery_write. intros a b c Hb Hc. rewrite Hc at 1. rewrite Hb. done.
Qed.

Lemma put_delivery_write (now : time) (id : uuid) (r : delivery_row) (m : mdb) :
  delivery_write m (put_delivery now id r m).
Proof.
  unfold delivery_write, put_delivery, mailing_queue_campaign_rollup_change. destruct (d_campaign r); [|by destruct m].
  destruct (m_campaigns _ !! _); [|by destruct m]. by destruct (_ && _), m.
Qed.

Lemma put_deliveries_write (now : time) (rows : list (uuid * delivery_row)) (m : mdb) :
  delivery_write m (put_deliveries now rows m).
Proof.
  revert m. induction rows as [|[id r] rows IH]; intros m; [reflexivity|]. simpl. etransitivity; [|apply IH].
  apply put_delivery_write.
Qed.

(** The trigger queues an existing campaign. *)
Lemma trigger_rollups (now : time) (r : delivery_row) (m : mdb) (c : uuid) (q : rollup_row) :
  m_rollups (mailing_queue_campaign_rollup_change now r m) !! c = Some q ->
  m_rollups m !! c = Some q \/
  exists x, m_campaigns m !! c = Some x /\ cm_business x = rq_business q /\ cm_root x = rq_root q.
Proof.
  unfold mailing_queue_campaign_rollup_change. destruct (d_campaign r) as [c'|]; [|by left].
  destruct (m_campaigns m !! c') as [x|] eqn:Hx; [|by left]. destruct (_ && _) eqn:Ht; [|by left].
  simpl. rewrite lookup_insert. case_decide as Hc; [|by left]. subst c'. intros [= <-]. right.
  apply andb_true_iff in Ht as [?%N.eqb_eq ?%N.eqb_eq]. by exists x.
Qed.

Lemma put_requeues (now : time) (id : uuid) (r : delivery_row) (m : mdb) (c : uuid) :
  d_campaign r = Some c -> (exists x, m_campaigns m !! c = Some x /\ cm_business x = d_business r /\ cm_root x = d_root r) ->
  requeued (put_delivery now id r m) c.
Proof.
  intros Hc (x & Hx & Hb & Hr). unfold requeued, put_delivery, mailing_queue_campaign_rollup_change. rewrite Hc. simpl. rewrite Hx.
  rewrite Hb, Hr, !N.eqb_refl. simpl. rewrite lookup_insert_eq. eauto.
Qed.

Lemma put_rollups_other (now : time) (id : uuid) (r : delivery_row) (m : mdb) (c : uuid) :
  d_campaign r <> Some c -> m_rollups (put_delivery now id r m) !! c = m_rollups m !! c.
Proof.
  intros Hc. unfold put_delivery, mailing_queue_campaign_rollup_change. destruct (d_campaign r) as [c'|]; [|done]. simpl.
  destruct (m_campaigns m !! c'); [|done]. destruct (_ && _); [|done]. simpl. rewrite lookup_insert_ne; [done|]. congruence.
Qed.

Lemma good_put (now : time) (id : uuid) (r : delivery_row) (st : delivery_state) (m : mdb) :
  m_deliveries m !! id = Some r -> (delivery_ok r -> d_state_evolved (d_st r) st /\ state_ok st) ->
  good m (put_delivery now id (with_state st r) m).
Proof.
  intros Hr Hstep [H1 H2 H3 H4 H5]. destruct (Hstep (H2 _ _ Hr)) as [Hev Hst].
  destruct (put_deliveries_db now id (with_state st r) m) as [Hd Hc].
  assert (Hback : forall i r', m_deliveries (put_delivery now id (with_state st r) m) !! i = Some r' ->
    exists r0, m_deliveries m !! i = Some r0 /\ d_evolved r0 r').
  { rewrite Hd. intros i r'. rewrite lookup_insert. case_decide as Hi.
    - intros [= <-]. subst i. exists r. split; [done|by apply d_evolved_state].
    - intros Hr'. exists r'. split; [done|reflexivity]. }
  assert (Hcamp : forall r0 r', d_evolved r0 r' -> d_campaign r' = d_campaign r0) by (intros r0 r' [-> _]; done).
  split.
  - split.
    + intros i j ri rj Hi Hj. destruct (Hback _ _ Hi) as (ri0 & Hi0 & [-> _]).
      destruct (Hback _ _ Hj) as (rj0 & Hj0 & [-> _]). simpl. by apply H1.
    + rewrite Hd. intros i r'. rewrite lookup_insert. case_decide as Hi; [|by apply H2]. intros [= <-].
      split; [apply (H2 _ _ Hr)|done].
    + intros i r' c Hi Hrc. destruct (Hback _ _ Hi) as (r0 & Hi0 & Hevr). rewrite (Hcamp _ _ Hevr) in Hrc.
      destruct (H3 _ _ _ Hi0 Hrc) as (x & Hx & Hfrom). exists x. rewrite Hc. split; [done|].
      destruct Hevr as [-> _]. done.
    + rewrite Hc. intros c x Hx. destruct (H4 _ _ Hx) as [? ? ? ? Hs]. split; try done. intros Hsent.
      destruct (Hs Hsent) as (Hdone & Hcp & Hdr). split_and!; [done..|]. rewrite drained_true in Hdr |- *. intros i r' Hi Hrc.
      destruct (Hback _ _ Hi) as (r0 & Hi0 & Hevr). rewrite (Hcamp _ _ Hevr) in Hrc. specialize (Hdr _ _ Hi0 Hrc).
      destruct Hevr as [_ [Hl _ _ _ _ _]]. by eapply leads_closed.
    + intros c q Hq. rewrite Hc. apply trigger_rollups in Hq as [Hq|Hq]; [by apply H5|done].
  - split.
    + rewrite (put_delivery_write now id (with_state st r) m). done.
    + intros c. destruct (decide (d_campaign r = Some c)) as [Hrc|Hrc].
      * left. apply (put_requeues now id (with_state st r) m c); [done|]. destruct (H3 _ _ _ Hr Hrc) as (x & Hx & ? & ? & _). by exists x.
      * right. split; [by apply put_rollups_other|]. rewrite Hc. intros x Hx Hcl. apply (clean_same c m _ x x); [|done|by apply Hcl].
        intros i ri Hi. rewrite Hd, lookup_insert. case_decide as Heq; [|done]. subst i. rewrite Hr. naive_solver.
    + intros i r0 Hi. rewrite Hd, lookup_insert. case_decide as Heq.
      * subst i. rewrite Hr in Hi. injection Hi as <-. eexists. split; [done|by apply d_evolved_state].
      * exists r0. split; [done|reflexivity].
    + rewrite Hc. intros c x Hx. exists x. split; [done|reflexivity].
Qed.

(** A statement that updates several rows. *)
Lemma good_put_all (now : time) (rows : list (uuid * delivery_row)) (m : mdb) :
  NoDup (map fst rows) ->
  Forall (fun x => exists r st, m_deliveries m !! fst x = Some r /\ snd x = with_state st r /\
                   (delivery_ok r -> d_state_evolved (d_st r) st /\ state_ok st)) rows ->
  good m (put_deliveries now rows m).
Proof.
  revert m. induction rows as [|[id r'] rows IH]; intros m Hnd Hall; [reflexivity|]. simpl in *.
  apply NoDup_cons in Hnd as [Hin Hnd]. apply Forall_cons in Hall as [(r & st & Hr & He & Hs) Hall]. simpl in Hr, He. subst r'.
  etransitivity; [by apply (good_put now id r st m)|]. apply IH; [done|].
  destruct (put_deliveries_db now id (with_state st r) m) as [Hd _].
  apply Forall_forall. intros [j rj] Hj. rewrite Forall_forall in Hall. destruct (Hall _ Hj) as (r2 & st2 & Hr2 & Hst2).
  exists r2, st2. simpl in *. split; [|done]. rewrite Hd, lookup_insert_ne; [done|].
  intros ->. apply Hin. apply list_elem_of_fmap. by exists (j, rj).
Qed.

Lemma good_update (now : time) (f : delivery_state -> delivery_state) (rows : list (uuid * delivery_row)) (m : mdb) :
  NoDup (map fst rows) ->
  Forall (fun x => m_deliveries m !! fst x = Some (snd x) /\
                   (delivery_ok (snd x) -> d_state_evolved (d_st (snd x)) (f (d_st (snd x))) /\ state_ok (f (d_st (snd x))))) rows ->
  good m (update_deliveries now f rows m).
Proof.
  intros Hnd Hall. apply good_put_all.
  - by rewrite List.map_map.
  - apply Forall_forall. intros x (y & -> & Hy)%list_elem_of_fmap. rewrite Forall_forall in Hall.
    destruct (Hall _ Hy) as [Hl Hs]. exists (snd y), (f (d_st (snd y))). done.
Qed.

(** ** The transitions of a delivery *)

Definition lawful (st st' : delivery_state) : Prop := state_ok st -> d_state_evolved st st' /\ state_ok st'.

Lemma open_no_provider (st : delivery_state) :
  state_ok st -> open_status (ds_status st) = true -> ds_provider_id st = None.
Proof.
  intros [_ _ Hp _] Ho. destruct (ds_provider_id st); [|done]. specialize (Hp ltac:(done)).
  unfold status_in in Hp. by destruct (ds_status st).
Qed.

Lemma law_claimed (now : time) (lease : duration) (st : delivery_state) :
  open_status (ds_status st) = true -> lawful st (claimed_state now lease st).
Proof.
  intros Ho Hok. pose proof (open_no_provider st Hok Ho) as Hn. destruct Hok as [Hl Ha Hp Hs].
  split; split; simpl; try done; try lia; rewrite ?Hn; try done. by destruct (ds_status st).
Qed.

Lemma law_renewed (now : time) (lease : duration) (st : delivery_state) :
  ds_status st = DSending -> lawful st (renewed_state now lease st).
Proof.
  intros Ho [Hl Ha Hp Hs]. split; split; simpl; try done; try lia; unfold status_in in *; rewrite ?Ho in *; auto.
Qed.

(** The claim of a delivery ends: it goes back, or to an end that was not sent. *)
Lemma law_ended (st st' : delivery_state) :
  open_status (ds_status st) = true -> ds_status st' ∈ [DQueued; DFailed; DSuppressed; DCancelled; DBounced] ->
  ds_lease st' = None -> ds_generation st' = ds_generation st ->
  (ds_attempts st' = ds_attempts st \/ ds_attempts st' = Z.max (ds_attempts st - 1) 0) ->
  ds_provider_id st' = ds_provider_id st -> ds_opened_at st' = ds_opened_at st ->
  ds_first_clicked_at st' = ds_first_clicked_at st -> lawful st st'.
Proof.
  intros Ho Hin Hle Hg Hat Hpi Hop Hcl Hok. pose proof (open_no_provider st Hok Ho) as Hn. destruct Hok as [Hl Ha Hp Hs].
  assert (ds_status st' <> DSending /\ status_in [DSent; DDelivered; DComplained] st' = false) as [Hns Hnin].
  { unfold status_in. rewrite !elem_of_cons, elem_of_nil in Hin. destruct_or! Hin; try done; by rewrite Hin. }
  split; split; rewrite ?Hle, ?Hg, ?Hpi, ?Hop, ?Hcl, ?Hn, ?Hnin; try done; try lia.
  - by destruct (ds_status st).
  - right. by split.
Qed.

Lemma law_sent (now : time) (p : string) (st : delivery_state) :
  ds_status st = DSending -> lawful st (sent_state now p st).
Proof.
  intros Ho Hok. assert (open_status (ds_status st) = true) as Ho' by by rewrite Ho.
  pose proof (open_no_provider st Hok Ho') as Hn. destruct Hok as [Hl Ha Hp Hs].
  split; split; simpl; try done; try lia; rewrite ?Ho, ?Hn; try done; by right.
Qed.

(** A bounce or provider feedback on a delivery that is no longer open. *)
Lemma law_feedback (st st' : delivery_state) :
  open_status (ds_status st) = false -> leads (ds_status st) (ds_status st') = true ->
  ds_lease st' = ds_lease st \/ ds_lease st' = None -> ds_generation st' = ds_generation st ->
  ds_attempts st' = ds_attempts st ->
  ds_provider_id st' = ds_provider_id st -> ds_opened_at st' = ds_opened_at st ->
  ds_first_clicked_at st' = ds_first_clicked_at st ->
  (ds_status st' = DComplained -> ds_provider_id st <> None) -> lawful st st'.
Proof.
  intros Ho Hle Hlease Hg Hat Hpi Hop Hcl Hc [Hl Ha Hp Hs].
  assert (ds_lease st = None) as Hnl.
  { destruct (ds_lease st); [|done]. destruct Hl as [Hl _]. specialize (Hl ltac:(done)). by rewrite Hl in Ho. }
  assert (ds_lease st' = None) as Hnl' by (destruct Hlease; congruence).
  pose proof (leads_closed _ _ Hle Ho) as Ho'. split; split; rewrite ?Hg, ?Hpi, ?Hop, ?Hcl, ?Hnl', ?Hat; try done; try lia.
  - right. split; [done|]. intros He. by rewrite He in Ho'.
  - split; [done|]. intros He. by rewrite He in Ho'.
  - intros Hx. specialize (Hp Hx). unfold status_in in *.
    destruct (ds_status st), (ds_status st'); by vm_compute in Hle, Hp |- *.
  - intros Hx. unfold status_in in *. destruct (ds_status st') eqn:He'; vm_compute in Hx; try done.
    + apply Hs. destruct (ds_status st); by vm_compute in Hle, Ho |- *.
    + apply Hs. destruct (ds_status st); by vm_compute in Hle, Ho |- *.
    + by apply Hc.
Qed.

(** Opens and clicks leave the status alone. *)
Lemma law_tracked (st st' : delivery_state) :
  ds_status st' = ds_status st -> ds_lease st' = ds_lease st -> ds_generation st' = ds_generation st ->
  ds_attempts st' = ds_attempts st -> ds_provider_id st' = ds_provider_id st ->
  (ds_opened_at st <> None -> ds_opened_at st' <> None) ->
  (ds_first_clicked_at st <> None -> ds_first_clicked_at st' <> None) -> lawful st st'.
Proof.
  intros H1 H2 H3 H4 H5 H6 H7 [Hl Ha Hp Hs].
  split; split; unfold status_in in *; rewrite ?H1, ?H2, ?H3, ?H4, ?H5; auto using leads_refl; lia.
Qed.

Lemma feedback_leads (old new : delivery_status) :
  new ∈ [DDelivered; DBounced; DComplained] -> leads old (feedback_status old new) = true.
Proof. rewrite !elem_of_cons, elem_of_nil. intros Hn. destruct_or! Hn; try done; subst; by destruct old. Qed.
