(* ===== verification/MailOps.v ===== *)
(** * Every operation of mailing respects the invariant

    The SQL functions of [MailStore] and [MailFeedback] and the requests of
    [MailService], one lemma each: the invariant is kept and rows evolve.  Deleting
    a campaign removes rows instead. *)

From S2P Require Import Prelude GoStrings GoTime GoJson AutoGraph Errors AutoEngine AutoStore AutoStoreFacts AutoService AutoEvents.
From S2P Require Import MailToken MailStore MailFeedback MailService MailFacts.
From stdpp Require Import sorting.
#[local] Open Scope go_scope.

(** ** Writing campaigns *)

Definition campaign_step (m : mdb) (c : uuid) (ox ox' : option campaign_row) : Prop :=
  match ox, ox' with
  | Some x, Some x' => (campaign_ok m c x -> c_evolved x x' /\ campaign_ok m c x') /\ (clean m c x -> clean m c x')
  | None, Some x' => campaign_ok m c x' /\ cm_counts x' = no_counts
  | None, None => True
  | Some _, None => False
  end.

Lemma started_leads a b : c_leads a b = true -> b <> CFailed -> started a = true -> started b = true.
Proof. by destruct a, b. Qed.

Lemma no_deliveries_counted (m : mdb) (c : uuid) :
  (forall id r, m_deliveries m !! id = Some r -> d_campaign r = Some c -> False) -> counts_agree no_counts (counted m c).
Proof.
  intros Hno. assert (Hz : forall f, count_of m c f = 0%Z).
  { intros f. unfold count_of. assert (mcount (of_campaign c f) (m_deliveries m) = 0) as ->; [|done].
    apply mcount_zero, mexists_false. intros id r Hr. unfold of_campaign. case_bool_decide as Hc; [|done]. exfalso. by eapply Hno. }
  unfold counts_agree. simpl. by rewrite !Hz.
Qed.

Lemma good_campaigns (m : mdb) (cs : gmap uuid campaign_row) :
  (forall c, campaign_step m c (m_campaigns m !! c) (cs !! c)) -> good m (set_campaigns cs m).
Proof.
  intros Hstep [H1 H2 H3 H4 H5].
  assert (Hfwd : forall c x, m_campaigns m !! c = Some x -> exists x', cs !! c = Some x' /\ c_evolved x x' /\ campaign_ok m c x').
  { intros c x Hx. specialize (Hstep c). rewrite Hx in Hstep. destruct (cs !! c) as [x'|]; [|done]. exists x'.
    split; [done|]. destruct Hstep as [Hstep _]. by apply Hstep, H4. }
  split.
  - split; simpl; try done.
    + intros id r c Hr Hc. destruct (H3 _ _ _ Hr Hc) as (x & Hx & Hb & Hrt & Hst & Hcu).
      destruct (Hfwd _ _ Hx) as (x' & Hx' & [] & []). exists x'. split; [done|].
      split_and!; [congruence..|by eapply started_leads|by etransitivity].
    + intros c x' Hx'. specialize (Hstep c). rewrite Hx' in Hstep. destruct (m_campaigns m !! c) as [x|] eqn:Hx; [|by destruct Hstep as [[] _]].
      destruct Hstep as [Hstep _]. destruct (Hstep (H4 _ _ Hx)) as [_ []]. by split.
    + intros c q Hq. destruct (H5 _ _ Hq) as (x & Hx & ? & ?). destruct (Hfwd _ _ Hx) as (x' & Hx' & [] & _).
      exists x'. split_and!; congruence.
  - split; simpl; [done|..].
    + intros c. right. split; [done|]. simpl. intros x' Hx' Hcl. specialize (Hstep c). rewrite Hx' in Hstep.
      destruct (m_campaigns m !! c) as [x|] eqn:Hx; [by apply Hstep, Hcl|]. destruct Hstep as [_ Hk]. unfold clean. rewrite Hk.
      apply (no_deliveries_counted m c). intros id r Hr Hrc. destruct (H3 _ _ _ Hr Hrc) as (y & Hy & _). congruence.
    + intros id r Hr. exists r. split; [done|reflexivity].
    + intros c x Hx. destruct (Hfwd _ _ Hx) as (x' & Hx' & ? & _). by exists x'.
Qed.

Lemma campaign_step_refl (m : mdb) (c : uuid) (ox : option campaign_row) : campaign_step m c ox ox.
Proof. destruct ox; simpl; [|done]. split; [|done]. intros Hok. split; [reflexivity|done]. Qed.

Lemma good_campaign (m : mdb) (c : uuid) (x x' : campaign_row) :
  m_campaigns m !! c = Some x -> (campaign_ok m c x -> c_evolved x x' /\ campaign_ok m c x') ->
  (clean m c x -> clean m c x') -> good m (put_campaign c x' m).
Proof.
  intros Hx Hstep Hcl. apply good_campaigns. intros k. rewrite lookup_insert. case_decide as Hk.
  - subst k. by rewrite Hx.
  - apply campaign_step_refl.
Qed.

Lemma good_new_campaign (m : mdb) (c : uuid) (x : campaign_row) :
  m_campaigns m !! c = None -> campaign_ok m c x -> cm_counts x = no_counts -> good m (put_campaign c x m).
Proof.
  intros Hn Hok Hcn. apply good_campaigns. intros k. rewrite lookup_insert. case_decide as Hk.
  - subst k. by rewrite Hn.
  - apply campaign_step_refl.
Qed.

(** The rollup queue only shrinks, or its claims change. *)
Definition requeue (m m' : mdb) : Prop :=
  m' = set_rollups (m_rollups m') m /\
  forall c q, m_rollups m' !! c = Some q ->
    exists q0, m_rollups m !! c = Some q0 /\ rq_business q0 = rq_business q /\ rq_root q0 = rq_root q.

Lemma requeue_ok (m m' : mdb) : requeue m m' -> mail_ok m -> mail_ok m'.
Proof.
  intros [-> Hq] [H1 H2 H3 H4 H5]. split; simpl; try done.
  - intros c x Hx. destruct (H4 _ _ Hx). by split.
  - intros c q Hc. destruct (Hq _ _ Hc) as (q0 & Hq0 & Hb & Hr). rewrite <- Hb, <- Hr. by apply H5.
Qed.

(** ** The SQL functions of the queue *)

Section Ops.
Context `{UnicodeTables, UUIDLib, MailCrypto}.

Lemma if_claimed_some (m : mdb) (id : uuid) (generation : Z) (r : delivery_row) :
  if_claimed m id generation = Some r ->
  m_deliveries m !! id = Some r /\ ds_status (d_st r) = DSending /\ ds_generation (d_st r) = generation /\
  root_write_allowed (m_db m) (d_root r) = true.
Proof.
  unfold if_claimed. destruct (m_deliveries m !! id) as [r'|]; [|done]. unfold holds_claim. destruct (_ && _) eqn:Ht; [|done].
  intros [= <-]. apply andb_true_iff in Ht as [[Hs Hg]%andb_true_iff Hw]. apply bool_decide_eq_true in Hs.
  split_and!; try done. lia.
Qed.

(** A change of a delivery whose state is lawful. *)
Lemma good_law (now : time) (id : uuid) (r : delivery_row) (st : delivery_state) (m : mdb) :
  m_deliveries m !! id = Some r -> lawful (d_st r) st -> good m (put_delivery now id (with_state st r) m).
Proof. intros Hr Hlaw. apply good_put; [done|]. intros [_ Hok]. by apply Hlaw. Qed.

Lemma good_law_all (now : time) (f : delivery_state -> delivery_state) (rows : list (uuid * delivery_row)) (m : mdb) :
  NoDup (map fst rows) ->
  Forall (fun x => m_deliveries m !! fst x = Some (snd x) /\ lawful (d_st (snd x)) (f (d_st (snd x)))) rows ->
  good m (update_deliveries now f rows m).
Proof.
  intros Hnd Hall. apply good_update; [done|]. eapply Forall_impl; [exact Hall|]. intros x [Hl Hlaw]. split; [done|].
  intros [_ Hok]. by apply Hlaw.
Qed.

Lemma release_good (id : uuid) (generation : Z) (nb now : time) (m : mdb) :
  good m (mailing_release_delivery id generation nb now m).1.
Proof.
  unfold mailing_release_delivery. destruct (if_claimed _ _ _) as [r|] eqn:Hr; [|reflexivity].
  apply if_claimed_some in Hr as (Hr & Hs & _). apply good_law; [done|].
  apply law_ended; simpl; try done; [by rewrite Hs|set_solver|by right].
Qed.

Lemma renew_good (id : uuid) (generation : Z) (lease : duration) (now : time) (m : mdb) :
  good m (mailing_renew_delivery id generation lease now m).1.
Proof.
  unfold mailing_renew_delivery. destruct (if_claimed _ _ _) as [r|] eqn:Hr; [|reflexivity].
  apply if_claimed_some in Hr as (Hr & Hs & _). destruct (may_send m r); [|reflexivity].
  apply good_law; [done|]. by apply law_renewed.
Qed.

Lemma failed_law (now : time) (st : delivery_status) (nb : time) (err : string) (s : delivery_state) :
  ds_status s = DSending -> st ∈ [DQueued; DFailed; DSuppressed] -> lawful s (failed_send_state now st nb err s).
Proof.
  intros Hs Hin. apply law_ended; simpl; try done; [by rewrite Hs|set_solver|by left].
Qed.

Lemma fail_good (id : uuid) (generation : Z) (err status : string) (nb now : time) (m m' : mdb) (b : bool) :
  mailing_fail_delivery id generation err status nb now m = Ok (m', b) -> good m m'.
Proof.
  unfold mailing_fail_delivery.
  assert (Hw : forall st, st ∈ [DQueued; DFailed; DSuppressed] ->
    good m (match if_claimed m id generation with
            | Some r => (put_delivery now id (with_state (failed_send_state now st nb err (d_st r)) r) m, true)
            | None => (m, false)
            end).1).
  { intros st Hin. destruct (if_claimed _ _ _) as [r|] eqn:Hr; [|reflexivity].
    apply if_claimed_some in Hr as (Hr & Hs & _). apply good_law; [done|]. by apply failed_law. }
  repeat (destruct (String.eqb status _)); intros He; try discriminate He; injection He as He.
  - specialize (Hw DQueued ltac:(set_solver)). rewrite He in Hw. exact Hw.
  - specialize (Hw DFailed ltac:(set_solver)). rewrite He in Hw. exact Hw.
  - specialize (Hw DSuppressed ltac:(set_solver)). rewrite He in Hw. exact Hw.
Qed.

(** ** Claiming deliveries *)

Lemma put_deliveries_other (now : time) (rows : list (uuid * delivery_row)) (m : mdb) (id : uuid) :
  id ∉ map fst rows -> m_deliveries (put_deliveries now rows m) !! id = m_deliveries m !! id.
Proof.
  revert m. induction rows as [|[k r] rows IH]; intros m Hin; [done|]. simpl in *. rewrite not_elem_of_cons in Hin.
  destruct Hin as [Hne Hin]. rewrite IH by done. destruct (put_deliveries_db now k r m) as [-> _]. by rewrite lookup_insert_ne.
Qed.

Lemma update_deliveries_other (now : time) (f : delivery_state -> delivery_state) (rows : list (uuid * delivery_row)) (m : mdb)
    (id : uuid) :
  id ∉ map fst rows -> m_deliveries (update_deliveries now f rows m) !! id = m_deliveries m !! id.
Proof. intros Hin. unfold update_deliveries. apply put_deliveries_other. by rewrite List.map_map. Qed.

Lemma nodup_fst_filter {A : Type} (p : uuid * A -> bool) (l : list (uuid * A)) :
  NoDup (map fst l) -> NoDup (map fst (List.filter p l)).
Proof.
  induction l as [|x l IH]; simpl; [done|]. rewrite NoDup_cons. intros [Hx Hl]. destruct (p x); [|by apply IH].
  simpl. constructor; [|by apply IH]. intros (y & Hy & Hin)%list_elem_of_fmap. apply Hx. apply list_elem_of_fmap.
  exists y. split; [done|]. apply list_elem_of_In, filter_In in Hin as [Hin _]. by apply list_elem_of_In.
Qed.

Definition absent (ys : list (uuid * delivery_row)) (x : uuid * delivery_row) : bool :=
  negb (existsb (fun y => N.eqb (fst y) (fst x)) ys).

Lemma absent_true ys x : absent ys x = true <-> fst x ∉ map fst ys.
Proof.
  unfold absent. rewrite negb_true_iff. split.
  - intros Hf (y & Hy & Hin)%list_elem_of_fmap. assert (existsb (fun y => N.eqb (fst y) (fst x)) ys = true) as Ht; [|congruence].
    apply existsb_exists. exists y. split; [by apply list_elem_of_In|]. rewrite Hy. apply N.eqb_refl.
  - intros Hn. destruct (existsb _ _) eqn:He; [|done]. exfalso. apply Hn. apply existsb_exists in He as (y & Hin & Heq%N.eqb_eq).
    apply list_elem_of_fmap. exists y. split; [done|by apply list_elem_of_In].
Qed.

(** Rows taken from the state before, with the ones already written left out. *)
Lemma good_stop (now : time) (status : delivery_status) (err : string) (rows : list (uuid * delivery_row)) (m : mdb) :
  status ∈ [DSuppressed; DCancelled] -> NoDup (map fst rows) ->
  (forall x, x ∈ rows -> m_deliveries m !! fst x = Some (snd x) /\ open_status (ds_status (d_st (snd x))) = true) ->
  good m (update_deliveries now (stopped_state now status err) rows m).
Proof.
  intros Hst Hnd Hall. apply good_law_all; [done|]. apply Forall_forall. intros x Hx. destruct (Hall _ Hx) as [Hl Ho].
  split; [done|]. apply law_ended; simpl; try done; [set_solver|by left].
Qed.

Lemma source_gone_open (m : mdb) (now : time) (id : uuid) (r : delivery_row) :
  source_gone m now id r = true -> open_status (ds_status (d_st r)) = true.
Proof. unfold source_gone. rewrite !andb_true_iff. tauto. Qed.

Lemma due_open (now : time) (st : delivery_state) : delivery_due now st = true -> open_status (ds_status st) = true.
Proof. unfold delivery_due. by destruct (ds_status st). Qed.

Lemma ineligible_open (m : mdb) (now : time) (id : uuid) (r : delivery_row) :
  became_ineligible m now id r = true -> open_status (ds_status (d_st r)) = true.
Proof.
  unfold became_ineligible. destruct (recipient m r); [|done]. rewrite !andb_true_iff. intros [[[Hd _] _] _].
  by eapply due_open.
Qed.

Lemma sendable_due (m : mdb) (now : time) (id : uuid) (r : delivery_row) :
  sendable m now id r = true -> delivery_due now (d_st r) = true.
Proof. unfold sendable. destruct (recipient m r); [|done]. rewrite !andb_true_iff. tauto. Qed.

Definition open_rows (m : mdb) (rows : list (uuid * delivery_row)) : Prop :=
  NoDup (map fst rows) /\
  forall x, x ∈ rows -> m_deliveries m !! fst x = Some (snd x) /\ open_status (ds_status (d_st (snd x))) = true.

Lemma open_rows_batch (m : mdb) (R : relation (uuid * delivery_row)) `{!forall x y, Decision (R x y)} (locked : gset uuid)
    (f : uuid -> delivery_row -> bool) (n : nat) :
  (forall id r, f id r = true -> open_status (ds_status (d_st r)) = true) ->
  open_rows m (batch R (fun x => unlocked locked (fst x) && f (fst x) (snd x)) n (m_deliveries m)).
Proof.
  intros Hf. split; [apply batch_nodup|]. intros [i r] Hin. apply batch_elem in Hin as [Hl [_ Hp]%andb_true_iff].
  split; [done|]. by eapply Hf.
Qed.

Lemma open_rows_absent (m : mdb) (rows ys : list (uuid * delivery_row)) :
  open_rows m rows -> open_rows m (List.filter (absent ys) rows).
Proof.
  intros [Hnd Hall]. split; [by apply nodup_fst_filter|]. intros x Hx. apply Hall.
  apply list_elem_of_In, filter_In in Hx as [Hx _]. by apply list_elem_of_In.
Qed.

Lemma absent_disjoint (ys rows : list (uuid * delivery_row)) (id : uuid) :
  id ∈ map fst (List.filter (absent ys) rows) -> id ∉ map fst ys.
Proof.
  intros (x & -> & Hx)%list_elem_of_fmap. apply list_elem_of_In, filter_In in Hx as [_ Hx]. by apply absent_true.
Qed.

Lemma filter_sub (p : uuid * delivery_row -> bool) (rows : list (uuid * delivery_row)) (id : uuid) :
  id ∈ map fst (List.filter p rows) -> id ∈ map fst rows.
Proof.
  intros (x & -> & Hx)%list_elem_of_fmap. apply list_elem_of_fmap. exists x. split; [done|].
  apply list_elem_of_In, filter_In in Hx as [Hx _]. by apply list_elem_of_In.
Qed.

(** The three groups of rows, disjoint, written one after the other. *)
Lemma good_groups (now : time) (lease : duration) (e1 e2 : string) (candidates cancelled ineligible : list (uuid * delivery_row))
    (m : mdb) :
  let claimed := map (fun x => (fst x, with_state (claimed_state now lease (d_st (snd x))) (snd x))) candidates in
  open_rows m candidates -> open_rows m cancelled -> open_rows m ineligible ->
  (forall id, id ∈ map fst cancelled -> id ∉ map fst claimed) ->
  (forall id, id ∈ map fst ineligible -> id ∉ map fst claimed /\ id ∉ map fst cancelled) ->
  good m (update_deliveries now (stopped_state now DSuppressed e2) ineligible
            (update_deliveries now (stopped_state now DCancelled e1) cancelled (put_deliveries now claimed m))).
Proof.
  intros claimed [Hn1 Ho1] [Hn2 Ho2] [Hn3 Ho3] Hd1 Hd2. etransitivity; [|etransitivity].
  - apply (good_put_all now claimed).
    + subst claimed. by rewrite List.map_map.
    + apply Forall_forall. intros x (y & -> & Hy)%list_elem_of_fmap. destruct (Ho1 _ Hy) as [Hl Ho].
      exists (snd y), (claimed_state now lease (d_st (snd y))). split; [done|]. split; [done|]. intros [_ Hst]. by apply law_claimed.
  - apply (good_stop now DCancelled e1 cancelled); [set_solver|done|]. intros x Hx. destruct (Ho2 _ Hx) as [Hl Ho].
    split; [|done]. rewrite put_deliveries_other; [done|]. apply Hd1. apply list_elem_of_fmap. by exists x.
  - apply (good_stop now DSuppressed e2 ineligible); [set_solver|done|]. intros x Hx. destruct (Ho3 _ Hx) as [Hl Ho].
    assert (fst x ∈ map fst ineligible) as Hin by (apply list_elem_of_fmap; by exists x). destruct (Hd2 _ Hin) as [Hc Hk].
    split; [|done]. by rewrite update_deliveries_other, put_deliveries_other.
Qed.

Lemma claim_deliveries_good (locked : gset uuid) (cancel_first : bool) (limit : Z) (lease : duration) (now : time) (m : mdb) :
  good m (mailing_claim_deliveries locked cancel_first limit lease now m).1.
Proof.
  unfold mailing_claim_deliveries. cbn zeta. cbn [fst].
  pose proof (open_rows_batch m due_before locked (sendable m now) (batch_limit limit 1 1000)
    (fun id r Hs => due_open _ _ (sendable_due _ _ _ _ Hs))) as H3.
  pose proof (open_rows_batch m due_before locked (became_ineligible m now) (batch_limit limit 1 1000)
    (ineligible_open m now)) as H4.
  pose proof (open_rows_batch m (by_key (fun r => default (ds_not_before (d_st r)) (ds_lease (d_st r)))) locked (source_gone m now)
    (batch_limit limit 1 1000) (source_gone_open m now)) as H5.
  unfold batch in H3, H4, H5. set (candidates := take _ (merge_sort due_before (List.filter (fun x => _ && sendable _ _ _ _) _))) in *.
  set (ineligible := take _ (merge_sort due_before (List.filter (fun x => _ && became_ineligible _ _ _ _) _))) in *.
  set (cancelled := take _ (merge_sort (by_key _) _)) in *. clearbody candidates ineligible cancelled.
  set (claimed := map _ candidates).
  apply (good_groups now lease _ _ candidates); [done|..]; destruct cancel_first;
    try (apply (open_rows_absent _ _ claimed)); try (by apply (open_rows_absent _ _ ineligible));
    try (by apply (open_rows_absent _ _ cancelled)); try done; intros id Hid;
    [apply (absent_disjoint claimed _ _ Hid)..|split; [apply (absent_disjoint claimed _ _ Hid)|]
    |split; [apply (absent_disjoint claimed _ _ Hid)|]].
  - intros Hc. apply (filter_sub (absent claimed)) in Hid, Hc. by apply (absent_disjoint cancelled _ _ Hid).
  - intros Hc. apply (filter_sub (absent claimed)) in Hid, Hc. by apply (absent_disjoint ineligible _ _ Hc).
Qed.

(** ** Campaigns and their rollups *)

Lemma good_fold_campaigns (f : campaign_row -> campaign_row) (xs : list (uuid * campaign_row)) (m : mdb) :
  NoDup (map fst xs) ->
  (forall c x, (c, x) ∈ xs -> m_campaigns m !! c = Some x) ->
  (forall c x m', (c, x) ∈ xs -> campaign_ok m' c x -> c_evolved x (f x) /\ campaign_ok m' c (f x)) ->
  (forall x, cm_counts (f x) = cm_counts x) ->
  good m (fold_left (fun m x => put_campaign (fst x) (f (snd x)) m) xs m).
Proof.
  revert m. induction xs as [|[c x] xs IH]; intros m Hnd Hl Hf Hk; [reflexivity|]. simpl in *. apply NoDup_cons in Hnd as [Hc Hnd].
  etransitivity.
  - apply (good_campaign m c x (f x)); [apply Hl; by left|apply Hf; by left|]. unfold clean. by rewrite Hk.
  - apply IH; [done|..].
    + intros c' x' Hx'. simpl. rewrite lookup_insert_ne; [apply Hl; by right|]. intros ->. apply Hc.
      apply list_elem_of_fmap. by exists (c', x').
    + intros c' x' m' Hx'. apply Hf. by right.
    + done.
Qed.

Lemma claim_campaigns_good (locked : gset uuid) (limit : Z) (now : time) (m : mdb) :
  good m (mailing_claim_campaigns_for_fanout locked limit now m).1.
Proof.
  unfold mailing_claim_campaigns_for_fanout. cbn zeta. cbn [fst].
  pose proof (batch_nodup fanout_before (fun x => unlocked locked (fst x) && fanout_due m now (snd x))
    (batch_limit limit 1 100) (m_campaigns m)) as Hnd.
  pose proof (fun c x => batch_elem fanout_before (fun x => unlocked locked (fst x) && fanout_due m now (snd x))
    (batch_limit limit 1 100) (m_campaigns m) c x) as Hel.
  unfold batch in Hnd, Hel. set (xs := take _ _) in *. clearbody xs. apply (good_fold_campaigns (started_row now)); [done|..|done].
  - intros c x Hx. by apply Hel in Hx as [? _].
  - intros c x m' Hx [Hf He Hp Hs Hsent]. apply Hel in Hx as [_ [_ Hdue]%andb_true_iff]. simpl in Hdue.
    unfold fanout_due in Hdue. apply andb_true_iff in Hdue as [[Hst _]%andb_true_iff _].
    destruct (cm_status x) eqn:Hcs; try done; (split; [split; simpl; rewrite ?Hcs; done || reflexivity|]; split; simpl; try done;
      try set_solver; intros; apply Hp; set_solver).
Qed.

Lemma rollup_good (c : uuid) (now : time) (m : mdb) : good m (mailing_rollup_changed_campaign c now m).1.
Proof.
  unfold mailing_rollup_changed_campaign. destruct (m_campaigns m !! c) as [x|] eqn:Hx; [|reflexivity].
  destruct (negb _); [reflexivity|]. cbn zeta. destruct (_ && _ && bool_decide (_ = _ || _)); [reflexivity|].
  cbn [fst]. destruct (_ && _ && drained m c) eqn:Hfin.
  - apply andb_true_iff in Hfin as [[Hst%bool_decide_eq_true Hd]%andb_true_iff Hdr].
    apply (good_campaign m c x); [done| |done]. intros [Hf He Hp Hs Hsent]. rewrite Hst in Hp, Hs.
    split; [split; simpl; rewrite ?Hst; done || reflexivity|]. split; simpl; try done; try set_solver.
  - apply (good_campaign m c x); [done| |done]. intros [Hf He Hp Hs Hsent].
    split; [split; simpl; auto using c_leads_refl; reflexivity|]. by split.
Qed.

Lemma claim_rollups_requeue (locked : gset uuid) (token : uuid) (limit seconds : Z) (now : time) (m : mdb) :
  requeue m (mailing_claim_changed_campaign_rollups locked token limit seconds now m).1.
Proof.
  unfold mailing_claim_changed_campaign_rollups. cbn zeta. cbn [fst]. split; [done|]. simpl.
  pose proof (fun c x => batch_elem rollup_before (fun x => unlocked locked (fst x) && rollup_due m now (snd x))
    (batch_limit limit 1 100) (m_rollups m) c x) as Hel.
  unfold batch in Hel. set (xs := take _ _) in *. clearbody xs. set (lease := (now + _)%Z).
  assert (Hgen : forall qs : gmap uuid rollup_row, (forall c q, qs !! c = Some q -> exists q0, m_rollups m !! c = Some q0 /\ rq_business q0 = rq_business q /\ rq_root q0 = rq_root q) ->
    forall c q, fold_left (fun q x => <[fst x := claim_rollup token lease (snd x)]> q) xs qs !! c = Some q ->
    exists q0, m_rollups m !! c = Some q0 /\ rq_business q0 = rq_business q /\ rq_root q0 = rq_root q); [|apply Hgen; eauto].
  induction xs as [|[c x] xs IH]; intros qs Hqs; [exact Hqs|]. simpl. apply IH; [intros; apply Hel; by right|].
  intros c' q. rewrite lookup_insert. case_decide as Hc; [|apply Hqs]. intros [= <-]. subst c'. exists x. split; [|done].
  apply (Hel c x). by left.
Qed.

Lemma complete_rollups_requeue (token : uuid) (ids : list uuid) (m : mdb) :
  requeue m (mailing_complete_changed_campaign_rollups token ids m).1.
Proof. split; [done|]. intros c q Hq. apply lookup_mdelete_Some in Hq as [Hq _]. eauto. Qed.

Lemma queued_cancelled_law (now : time) (st : delivery_state) :
  ds_status st = DQueued -> lawful st (with_status now DCancelled st).
Proof.
  intros Hst Hok. assert (ds_lease st = None) as Hn.
  { destruct Hok as [Hl _ _ _]. destruct (ds_lease st); [|done]. destruct Hl as [Hl _]. rewrite Hl in Hst; done. }
  revert Hok. apply law_ended; simpl; try done; [by rewrite Hst|set_solver|by left].
Qed.

(** Rows a predicate selects. *)
Lemma mselect_fst_nodup {A : Type} (f : uuid -> A -> bool) (m : gmap uuid A) : NoDup (map fst (mselect f m)).
Proof. apply nodup_fst_filter, NoDup_fst_map_to_list. Qed.

Lemma good_select (now : time) (f : delivery_state -> delivery_state) (p : uuid -> delivery_row -> bool) (m : mdb) :
  (forall id r, p id r = true -> lawful (d_st r) (f (d_st r))) ->
  good m (update_deliveries now f (mselect p (m_deliveries m)) m).
Proof.
  intros Hp. apply good_law_all; [apply mselect_fst_nodup|]. apply Forall_forall. intros [id r] [Hr Ht]%elem_of_mselect.
  split; [done|]. simpl. by eapply Hp.
Qed.

Lemma cancel_good `{Authz} (principal c : uuid) (now : time) (m m' : mdb) (b : bool) :
  mailing_cancel_campaign principal c now m = Ok (m', b) -> good m m'.
Proof.
  unfold mailing_cancel_campaign. destruct (m_campaigns m !! c) as [x|] eqn:Hx; [|intros [= <- _]; reflexivity].
  destruct (_ && _) eqn:Hst; [|intros [= <- _]; reflexivity]. destruct (fence _ _); [|done]. cbn [result_bind]. intros [= <- _].
  apply andb_true_iff in Hst as [Hst _]. etransitivity.
  - apply (good_campaign m c x (with_campaign CCancelled (cm_started_at x) (Some now) (cm_cursor x) (cm_fanout_done x) (cm_counts x) now x)); [done| |done].
    intros [Hf He Hp Hs Hsent].
    split; [split; simpl; try done; try reflexivity; by destruct (cm_status x)|]. split; simpl; try done; [naive_solver|set_solver..].
  - refine (good_select now _ _ (put_campaign c _ m) _). intros id r Ht. apply andb_true_iff in Ht as [_ Ht%bool_decide_eq_true]. by apply queued_cancelled_law.
Qed.
End Ops.
