(* ===== verification/MailFanout.v ===== *)
(** * The fan-out of a campaign

    A batch inserts one delivery for each of the next subscribers and moves the
    cursor past them; it respects the invariant, and enough batches reach every
    addressable subscriber exactly once. *)

From S2P Require Import Prelude GoStrings GoTime GoJson AutoGraph Errors AutoEngine AutoStore AutoStoreFacts AutoService.
From S2P Require Import MailToken MailStore MailFeedback MailFacts MailOps.
From stdpp Require Import sorting.
#[local] Open Scope go_scope.

Section Fanout.
Context `{UnicodeTables, UUIDLib}.

(** [m'] has the deliveries of [m] and new ones of the campaign [cid] for
    subscribers of [xs]. *)
Record inserted (cid : uuid) (c : campaign_row) (domain : string) (now : time) (newid : uuid -> uuid)
    (xs : list (uuid * subscriber_row)) (m m' : mdb) : Prop := {
  ins_write : delivery_write m m';
  ins_old : forall id r, m_deliveries m !! id = Some r -> m_deliveries m' !! id = Some r;
  ins_new : forall id r, m_deliveries m' !! id = Some r -> m_deliveries m !! id = Some r \/
    (m_deliveries m !! id = None /\ exists x, x ∈ xs /\ id = newid (fst x) /\ r = campaign_delivery cid c domain now id x);
  ins_one : one_delivery (m_deliveries m) -> one_delivery (m_deliveries m');
  ins_rollups : forall k q, m_rollups m' !! k = Some q -> m_rollups m !! k = Some q \/
    exists x, m_campaigns m !! k = Some x /\ cm_business x = rq_business q /\ cm_root x = rq_root q;
  ins_other : forall k, k <> cid -> m_rollups m' !! k = m_rollups m !! k;
  ins_track : m_campaigns m !! cid = Some c -> m' = m \/ requeued m' cid;
  ins_all : forall x, x ∈ xs -> exists id r, m_deliveries m' !! id = Some r /\ same_source "campaign" cid (fst x) r = true
}.

Lemma same_source_spec (kind : string) (source subscriber : uuid) (r : delivery_row) :
  same_source kind source subscriber r = true <->
  d_source_kind r = kind /\ d_source_id r = source /\ d_subscriber r = subscriber.
Proof.
  unfold same_source. rewrite !andb_true_iff, String.eqb_eq, !N.eqb_eq. tauto.
Qed.

Lemma one_delivery_insert (ds : gmap uuid delivery_row) (id : uuid) (r : delivery_row) :
  one_delivery ds -> ds !! id = None ->
  mexists (fun _ r' => same_source (d_source_kind r) (d_source_id r) (d_subscriber r) r') ds = false ->
  one_delivery (<[id := r]> ds).
Proof.
  intros Hone Hn Hex. rewrite mexists_false in Hex.
  assert (Hclash : forall i ri, ds !! i = Some ri -> d_source_kind ri = d_source_kind r -> d_source_id ri = d_source_id r ->
    d_subscriber ri = d_subscriber r -> False).
  { intros i ri Hi H1 H2 H3. specialize (Hex _ _ Hi). assert (same_source (d_source_kind r) (d_source_id r) (d_subscriber r) ri = true)
      by by apply same_source_spec. congruence. }
  intros i j ri rj. rewrite !lookup_insert. case_decide as Hi; case_decide as Hj; intros Hri Hrj H1 H2 H3.
  - congruence.
  - exfalso. injection Hri as <-. eapply Hclash; eauto.
  - exfalso. injection Hrj as <-. eapply Hclash; eauto.
  - by apply (Hone i j ri rj).
Qed.

Lemma insert_inserted cid c domain now newid xs m n m' n' :
  insert_campaign_deliveries cid c domain now newid xs m n = Ok (m', n') ->
  inserted cid c domain now newid xs m m'.
Proof.
  revert m n. induction xs as [|x xs IH]; intros m n; simpl.
  { intros [= <- _]. split; try done; try reflexivity; try (by left). intros x Hx. by apply elem_of_nil in Hx. }
  destruct (mexists _ _) eqn:Hex.
  - intros Hi. destruct (IH _ _ Hi) as [H1 H2 H3 H4 H5 H7 H8 H6]. split; try done.
    + intros id r Hr. destruct (H3 _ _ Hr) as [?|(? & y & Hy & ?)]; [by left|]. right. split; [done|]. exists y. split; [by right|done].
    + intros y [->|Hy]%elem_of_cons; [|by apply H6]. apply mexists_true in Hex as (id & r & Hr & Hs). exists id, r.
      split; [by apply H2|done].
  - case_bool_decide as Hid; [done|]. intros Hi. set (id := newid (fst x)) in *. set (r := campaign_delivery cid c domain now id x) in *.
    assert (m_deliveries m !! id = None) as Hn by (by destruct (m_deliveries m !! id)).
    destruct (put_deliveries_db now id r m) as [Hd Hc]. destruct (IH _ _ Hi) as [H1 H2 H3 H4 H5 H7 H8 H6]. rewrite Hd in H2, H3, H4. split.
    + etransitivity; [apply put_delivery_write|exact H1].
    + intros i ri Hri. apply H2. rewrite lookup_insert_ne; [done|]. intros <-. by rewrite Hn in Hri.
    + intros i ri Hri. destruct (H3 _ _ Hri) as [Hl|(Hl & y & Hy & ?)].
      * rewrite lookup_insert in Hl. case_decide as He; [|by left]. right. injection Hl as <-. subst i. split; [done|].
        exists x. split; [by left|done].
      * rewrite lookup_insert in Hl. case_decide; [done|]. right. split; [done|]. exists y. split; [by right|done].
    + intros Hone. apply H4. by apply one_delivery_insert.
    + intros k q Hq. destruct (H5 _ _ Hq) as [Hq'|Hq']; [|right; by rewrite Hc in Hq'].
      unfold put_delivery in Hq'. by apply trigger_rollups in Hq' as [?|?]; [left|right].
    + intros k Hk. rewrite H7 by done. apply put_rollups_other. simpl. congruence.
    + intros Hcid. right. rewrite Hc in H8. destruct (H8 Hcid) as [->|?]; [|done]. apply put_requeues; [done|]. by exists c.
    + intros y [->|Hy]%elem_of_cons; [|by apply H6]. exists id, r. split; [apply H2, lookup_insert_eq|].
      by apply same_source_spec.
Qed.

Lemma queued_ok (nb now : time) : state_ok (queued_state nb now).
Proof. by split; unfold queued_state; simpl. Qed.

(** Under the invariant the row of a subscriber beyond the cursor is new, and the
    cursor passes it. *)
Lemma inserted_good cid c x domain now newid xs m m' x' :
  m_campaigns m !! cid = Some c -> cm_status c = CSending -> cm_fanout_done c = false ->
  inserted cid c domain now newid xs m m' ->
  (forall y, y ∈ xs -> cursor_le (Some (fst y)) x) -> cursor_le (cm_cursor c) x ->
  (exists co done nw, x' = with_campaign CSending (cm_started_at c) co x done
     (with_recipients (campaign_recipients m' cid) (cm_counts c)) nw c) ->
  good m (put_campaign cid x' m').
Proof.
  intros Hc Hs Hdone Hins Hxs Hcur (co & done & nw & ->) [H1 H2 H3 H4 H5].
  destruct Hins as [Hw Hold Hnew Hone Hroll Hother Htrack _].
  assert (Hcs : m_campaigns m' = m_campaigns m) by by rewrite Hw.
  set (x' := with_campaign _ _ _ _ _ _ _ _).
  destruct (H4 _ _ Hc) as [Hf He Hp Hst Hsent]. split.
  - split; simpl.
    + by apply Hone.
    + intros id r Hr. destruct (Hnew _ _ Hr) as [Hr'|(_ & y & Hy & -> & ->)]; [by eapply H2|].
      split; [left; done|apply queued_ok].
    + intros id r k' Hr Hk'. rewrite Hcs. destruct (Hnew _ _ Hr) as [Hr'|(_ & y & Hy & -> & ->)].
      * destruct (H3 _ _ _ Hr' Hk') as (y & Hy & Hb & Hrt & Hsd & Hcu). rewrite lookup_insert. case_decide as Heq.
        -- subst k'. rewrite Hc in Hy. injection Hy as <-. exists x'. split; [done|]. split_and!; try done. change (cursor_le (Some (d_subscriber r)) x). by transitivity (cm_cursor c).
        -- exists y. done.
      * injection Hk' as <-. rewrite lookup_insert_eq. exists x'. split; [done|]. split_and!; try done. by apply Hxs.
    + rewrite Hcs. intros k' y. rewrite lookup_insert. case_decide as Heq.
      * intros [= <-]. subst k'. rewrite Hs in *. split; simpl; naive_solver.
      * intros Hy. destruct (H4 _ _ Hy) as [? ? ? ? Hsent']. split; try done. intros Hys.
        destruct (Hsent' Hys) as (? & ? & Hdr). split_and!; [done..|]. rewrite drained_true in Hdr |- *. simpl.
        intros id r Hr Hrc. destruct (Hnew _ _ Hr) as [Hr'|(_ & z & Hz & -> & ->)]; [by eapply Hdr|]. by injection Hrc as <-.
    + intros k' q Hq. rewrite Hcs. assert (exists y, m_campaigns m !! k' = Some y /\ cm_business y = rq_business q /\ cm_root y = rq_root q)
        as (y & Hy & Hb & Hrt) by (destruct (Hroll _ _ Hq) as [?|?]; [by apply H5|done]).
      rewrite lookup_insert. case_decide as Heq; [|by exists y]. subst k'. rewrite Hc in Hy. injection Hy as <-. by exists x'.
  - split; simpl.
    + by rewrite Hw.
    + intros k. destruct (decide (k = cid)) as [->|Hk].
      * destruct (Htrack Hc) as [->|?]; [|by left]. right. split; [done|]. simpl. rewrite lookup_insert_eq. intros y [= <-] Hcl.
        destruct (Hcl _ Hc) as (_ & Hcl'). split; [|exact Hcl']. simpl. unfold campaign_recipients, count_of. f_equal.
        apply mcount_ext_fun. intros id r. unfold of_campaign. by rewrite andb_true_r.
      * right. split; [by apply Hother|]. simpl. rewrite Hcs, lookup_insert_ne by done. intros y Hy Hcl.
        apply (clean_same k m _ y y); [|done|by apply Hcl]. intros id r Hrk. simpl. split; [apply Hold|]. intros Hr.
        destruct (Hnew _ _ Hr) as [?|(_ & z & _ & -> & ->)]; [done|]. by injection Hrk as <-.
    + intros id r Hr. exists r. split; [by apply Hold|reflexivity].
    + rewrite Hcs. intros k' y Hy. rewrite lookup_insert. case_decide as Heq; [|exists y; split; [done|reflexivity]].
      subst k'. rewrite Hc in Hy. injection Hy as <-. exists x'. split; [done|]. split; simpl; try done; [by rewrite Hs|congruence].
Qed.

(** ** The subscribers a batch takes *)

Definition ids_sorted (xs : list (uuid * subscriber_row)) : Prop := StronglySorted (fun x y => (fst x < fst y)%N) xs.

#[local] Instance by_id_trans {A : Type} : Transitive (@by_id A).
Proof. intros x y z. unfold by_id. lia. Qed.
#[local] Instance by_id_total {A : Type} : Total (@by_id A).
Proof. intros x y. unfold by_id. lia. Qed.

Lemma strongly_strict (xs : list (uuid * subscriber_row)) :
  StronglySorted by_id xs -> NoDup (map fst xs) -> ids_sorted xs.
Proof.
  induction xs as [|x xs IH]; intros Hs Hnd; [constructor|]. simpl in Hnd. apply NoDup_cons in Hnd as [Hx Hnd].
  apply StronglySorted_inv in Hs as [Hs Hall]. constructor; [by apply IH|]. apply Forall_forall. intros y Hy.
  rewrite Forall_forall in Hall. specialize (Hall y Hy). unfold by_id in Hall.
  assert (fst x <> fst y); [|lia]. intros He. apply Hx. rewrite He. apply list_elem_of_fmap. by exists y.
Qed.

Lemma eligible_sorted (m : mdb) (c : campaign_row) (cursor : option uuid) : ids_sorted (fanout_eligible m c cursor).
Proof.
  unfold fanout_eligible. apply strongly_strict.
  - apply Sorted_StronglySorted; [apply _|]. apply Sorted_merge_sort; apply _.
  - assert (Hp : map fst (merge_sort by_id (mselect (fun id s => addressable m c s && after_cursor cursor id) (db_subscribers (m_db m))))
      ≡ₚ map fst (mselect (fun id s => addressable m c s && after_cursor cursor id) (db_subscribers (m_db m))))
      by (apply Permutation_map, merge_sort_Permutation).
    rewrite Hp. apply mselect_fst_nodup.
Qed.

Lemma elem_of_eligible (m : mdb) (c : campaign_row) (cursor : option uuid) (s : uuid) (row : subscriber_row) :
  (s, row) ∈ fanout_eligible m c cursor <->
  db_subscribers (m_db m) !! s = Some row /\ addressable m c row = true /\ after_cursor cursor s = true.
Proof.
  unfold fanout_eligible. rewrite merge_sort_Permutation, elem_of_mselect, andb_true_iff. tauto.
Qed.

Lemma sorted_unique (xs ys : list (uuid * subscriber_row)) :
  ids_sorted xs -> ids_sorted ys -> (forall x, x ∈ xs <-> x ∈ ys) -> xs = ys.
Proof.
  revert ys. induction xs as [|x xs IH]; intros [|y ys] Hx Hy Heq; [done|..].
  - exfalso. assert (y ∈ []) as Hin by (apply Heq; by left). by apply elem_of_nil in Hin.
  - exfalso. assert (x ∈ []) as Hin by (apply Heq; by left). by apply elem_of_nil in Hin.
  - apply StronglySorted_inv in Hx as [Hxs Hax], Hy as [Hys Hay]. rewrite Forall_forall in Hax, Hay.
    assert (x = y) as ->.
    { assert (x ∈ y :: ys) as [->|H1]%elem_of_cons by (apply Heq; by left); [done|].
      assert (y ∈ x :: xs) as [->|H2]%elem_of_cons by (apply Heq; by left); [done|].
      specialize (Hax _ H2). specialize (Hay _ H1). lia. }
    f_equal. apply IH; [done..|]. intros z. split; intros Hz.
    + assert (z ∈ y :: ys) as [->|?]%elem_of_cons by (apply Heq; by right); [|done]. specialize (Hax _ Hz). lia.
    + assert (z ∈ y :: xs) as [->|?]%elem_of_cons by (apply Heq; by right); [|done]. specialize (Hay _ Hz). lia.
Qed.

Lemma ids_sorted_drop (n : nat) (xs : list (uuid * subscriber_row)) : ids_sorted xs -> ids_sorted (drop n xs).
Proof.
  revert n. induction xs as [|x xs IH]; intros n Hs; [by rewrite drop_nil|]. destruct n; [done|]. simpl. apply IH.
  by apply StronglySorted_inv in Hs as [Hs _].
Qed.

(** In a sorted list the last of the first [n] separates them from the rest. *)
Lemma take_last_split (n : nat) (xs : list (uuid * subscriber_row)) (z : uuid * subscriber_row) :
  ids_sorted xs -> last (take n xs) = Some z ->
  (forall y, y ∈ take n xs -> (fst y <= fst z)%N) /\ (forall y, y ∈ drop n xs -> (fst z < fst y)%N).
Proof.
  revert n. induction xs as [|x xs IH]; intros [|n] Hs Hl; simpl in Hl; try done.
  apply StronglySorted_inv in Hs as [Hs Hall]. rewrite Forall_forall in Hall. simpl.
  destruct (take n xs) as [|y ys] eqn:Ht.
  - injection Hl as <-. split; [intros y ->%list_elem_of_singleton; lia|]. intros y Hy. apply Hall.
    rewrite <- (take_drop n xs). apply elem_of_app. by right.
  - rewrite <- Ht in Hl |- *. assert (last (take n xs) = Some z) as Hl' by (rewrite Ht in Hl |- *; exact Hl).
    destruct (IH n Hs Hl') as [H1 H2]. split; [|done]. intros w [->|Hw]%elem_of_cons; [|by apply H1].
    assert (z ∈ take n xs) as Hz by by apply last_Some_elem_of. assert (z ∈ xs) as Hz'.
    { rewrite <- (take_drop n xs). apply elem_of_app. by left. }
    specialize (Hall _ Hz'). lia.
Qed.

(** The subscribers left after a batch. *)
Lemma eligible_next (m m' : mdb) (c c' : campaign_row) (n : nat) (z : uuid * subscriber_row) :
  db_subscribers (m_db m') = db_subscribers (m_db m) -> (forall s, addressable m' c' s = addressable m c s) ->
  last (take n (fanout_eligible m c (cm_cursor c))) = Some z ->
  fanout_eligible m' c' (Some (fst z)) = drop n (fanout_eligible m c (cm_cursor c)).
Proof.
  intros Hsub Hadr Hl. destruct (take_last_split n _ z (eligible_sorted m c (cm_cursor c)) Hl) as [H1 H2].
  assert (after_cursor (cm_cursor c) (fst z) = true) as Hz.
  { destruct z as [zi zr]. apply last_Some_elem_of in Hl. assert ((zi, zr) ∈ fanout_eligible m c (cm_cursor c)) as Hin.
    { rewrite <- (take_drop n (fanout_eligible m c (cm_cursor c))). apply elem_of_app. by left. }
    by apply elem_of_eligible in Hin as (_ & _ & ?). }
  apply sorted_unique; [apply eligible_sorted|apply ids_sorted_drop, eligible_sorted|]. intros [s row].
  rewrite elem_of_eligible, Hsub, Hadr. simpl. split.
  - intros (Hs & Ha & Hlt). assert ((s, row) ∈ fanout_eligible m c (cm_cursor c)) as Hin.
    { apply elem_of_eligible. split_and!; [done..|]. destruct (cm_cursor c); [|done]. simpl in Hz |- *. rewrite N.ltb_lt in *. lia. }
    rewrite <- (take_drop n (fanout_eligible m c (cm_cursor c))) in Hin. apply elem_of_app in Hin as [Hin|Hin]; [|done].
    specialize (H1 _ Hin). simpl in H1. apply N.ltb_lt in Hlt. lia.
  - intros Hd. specialize (H2 _ Hd). simpl in H2. assert ((s, row) ∈ fanout_eligible m c (cm_cursor c)) as Hin.
    { rewrite <- (take_drop n (fanout_eligible m c (cm_cursor c))). apply elem_of_app. by right. }
    apply elem_of_eligible in Hin as (? & ? & _). split_and!; [done..|]. by apply N.ltb_lt.
Qed.

(** ** A batch *)

Definition batch_of (m : mdb) (c : campaign_row) (batch : Z) : list (uuid * subscriber_row) :=
  take (batch_limit batch 1 5000) (fanout_eligible m c (cm_cursor c)).

Lemma write_frame (m m' : mdb) :
  delivery_write m m' ->
  db_subscribers (m_db m') = db_subscribers (m_db m) /\ m_campaigns m' = m_campaigns m /\
  (forall c s, addressable m' c s = addressable m c s) /\ (forall c, campaign_operational m' c = campaign_operational m c).
Proof. intros Hw. rewrite Hw. done. Qed.

Lemma batch_limit_pos (batch : Z) : 1 <= batch_limit batch 1 5000.
Proof. unfold batch_limit. lia. Qed.

(** The batch was the last. *)
Lemma last_batch (m m1 : mdb) (c : campaign_row) (batch : Z) :
  delivery_write m m1 ->
  match option_map fst (last (batch_of m c batch)) with
  | None => true
  | Some k => negb (mexists (fun id s => addressable m1 c s && (k <? id)%N) (db_subscribers (m_db m1)))
  end = bool_decide (drop (batch_limit batch 1 5000) (fanout_eligible m c (cm_cursor c)) = []).
Proof.
  intros (Hsub & _ & Hadr & _)%write_frame. unfold batch_of. pose proof (batch_limit_pos batch) as Hpos.
  set (n := batch_limit _ _ _) in *. destruct (last (take n _)) as [z|] eqn:Hl; simpl.
  - rewrite <- (eligible_next m m1 c c n z Hsub (Hadr c) Hl). destruct (mexists _ _) eqn:Hex; simpl; symmetry.
    + apply bool_decide_eq_false. apply mexists_true in Hex as (id & s & Hs & [Ha Hk]%andb_true_iff). intros He.
      assert ((id, s) ∈ fanout_eligible m1 c (Some (fst z))) as Hin by (apply elem_of_eligible; split_and!; [exact Hs|exact Ha|exact Hk]). rewrite He in Hin. by apply elem_of_nil in Hin.
    + apply bool_decide_eq_true. rewrite mexists_false in Hex. destruct (fanout_eligible m1 c (Some (fst z))) as [|[id s] l] eqn:He; [done|].
      exfalso. assert ((id, s) ∈ fanout_eligible m1 c (Some (fst z))) as (Hs & Ha & Hk)%elem_of_eligible by (rewrite He; by left).
      specialize (Hex _ _ Hs). rewrite Ha in Hex. simpl in Hk, Hex. congruence.
  - apply last_None in Hl. symmetry. apply bool_decide_eq_true. destruct (fanout_eligible _ _ _) as [|x l]; [by rewrite drop_nil|].
    by destruct n; [lia|].
Qed.

Lemma fanout_batch_spec cid batch domain newid now m m' n done :
  mailing_fanout_batch cid batch domain newid now m = Ok (m', (n, done)) ->
  m' = m \/ exists c m1,
    m_campaigns m !! cid = Some c /\ cm_status c = CSending /\ cm_fanout_done c = false /\ campaign_operational m c = true /\
    inserted cid c (ToLower (btrim domain)) now newid (batch_of m c batch) m m1 /\
    done = bool_decide (drop (batch_limit batch 1 5000) (fanout_eligible m c (cm_cursor c)) = []) /\
    m' = put_campaign cid (with_campaign CSending (cm_started_at c) (cm_completed_at c)
           (or_else (option_map fst (last (batch_of m c batch))) (cm_cursor c)) done
           (with_recipients (campaign_recipients m1 cid) (cm_counts c)) now c) m1.
Proof.
  unfold mailing_fanout_batch. destruct (negb _); [done|]. destruct (m_campaigns m !! cid) as [c|] eqn:Hc; [|intros [= <- _ _]; by left].
  case_bool_decide as Hst; simpl; [|intros [= <- _ _]; by left]. destruct (cm_fanout_done c) eqn:Hdone; [intros [= <- _ _]; by left|].
  destruct (campaign_operational m c) eqn:Hop; simpl; [|intros [= <- _ _]; by left].
  fold (batch_of m c batch).
  destruct (insert_campaign_deliveries _ _ _ _ _ _ _ _) as [[m1 n1]|e] eqn:Hins; simpl; [|done].
  apply insert_inserted in Hins. rewrite (last_batch m m1 c batch) by apply Hins. intros [= <- _ <-]. right.
  exists c, m1. rewrite Hst. split_and!; done.
Qed.

Lemma cursor_moves (m : mdb) (c : campaign_row) (batch : Z) :
  let cursor := or_else (option_map fst (last (batch_of m c batch))) (cm_cursor c) in
  (forall y, y ∈ batch_of m c batch -> cursor_le (Some (fst y)) cursor) /\ cursor_le (cm_cursor c) cursor.
Proof.
  unfold batch_of. set (n := batch_limit _ _ _). destruct (last (take n _)) as [z|] eqn:Hl; simpl.
  - destruct (take_last_split n _ z (eligible_sorted m c (cm_cursor c)) Hl) as [H1 H2]. split; [done|].
    destruct (cm_cursor c) as [k|] eqn:Hk; [|done]. simpl. apply last_Some_elem_of in Hl. destruct z as [zi zr].
    assert ((zi, zr) ∈ fanout_eligible m c (Some k)) as (_ & _ & Hz%N.ltb_lt)%elem_of_eligible; [|simpl; lia].
    rewrite <- (take_drop n (fanout_eligible m c (Some k))). apply elem_of_app. by left.
  - apply last_None in Hl. rewrite Hl. split; [intros y Hy; by apply elem_of_nil in Hy|reflexivity].
Qed.

Lemma fanout_batch_good cid batch domain newid now m m' x :
  mailing_fanout_batch cid batch domain newid now m = Ok (m', x) -> good m m'.
Proof.
  destruct x as [n done]. intros [->|(c & m1 & Hc & Hst & Hd & _ & Hins & _ & ->)]%fanout_batch_spec; [reflexivity|].
  destruct (cursor_moves m c batch) as [H1 H2]. eapply inserted_good; eauto 10.
Qed.

(** ** Enough batches *)

(** Batches of any sizes, one after the other. *)
Fixpoint fanout_rounds (cid : uuid) (domain : string) (newid : uuid -> uuid) (rounds : list (Z * time)) (m : mdb)
  : result error mdb :=
  match rounds with
  | [] => Ok m
  | (batch, now) :: rounds =>
      let? (m, _) := mailing_fanout_batch cid batch domain newid now m in fanout_rounds cid domain newid rounds m
  end.

Definition capacity (rounds : list (Z * time)) : nat := sum_list (map (fun x => batch_limit (fst x) 1 5000) rounds).

Definition delivered_to (m : mdb) (cid s : uuid) : bool := mexists (fun _ r => same_source "campaign" cid s r) (m_deliveries m).

(** The identifiers [gen_random_uuid()] will give are not taken. *)
Definition ids_free (cid : uuid) (newid : uuid -> uuid) (m : mdb) : Prop :=
  forall s, delivered_to m cid s = false -> m_deliveries m !! newid s = None.

Lemma insert_succeeds cid c domain now newid xs m n :
  Inj (=) (=) newid -> ids_free cid newid m ->
  exists m' n', insert_campaign_deliveries cid c domain now newid xs m n = Ok (m', n') /\ ids_free cid newid m'.
Proof.
  intros Hinj. revert m n. induction xs as [|x xs IH]; intros m n Hfree; simpl; [eauto|].
  destruct (mexists _ _) eqn:Hex; [by apply IH|]. rewrite bool_decide_eq_false_2 by (rewrite (Hfree (fst x)); [tauto|done]).
  apply IH. destruct (put_deliveries_db now (newid (fst x)) (campaign_delivery cid c domain now (newid (fst x)) x) m) as [Hd _].
  intros s. unfold delivered_to. rewrite Hd, mexists_false. intros Hall.
  assert (fst x <> s) as Hne.
  { intros <-. specialize (Hall _ _ (lookup_insert_eq _ _ _)). assert (same_source "campaign" cid (fst x)
      (campaign_delivery cid c domain now (newid (fst x)) x) = true) by by apply same_source_spec. congruence. }
  rewrite lookup_insert_ne by (intros He; by apply Hne, Hinj). apply Hfree, mexists_false. intros k r Hr. apply (Hall k).
  rewrite lookup_insert_ne; [done|]. intros <-. rewrite (Hfree (fst x) Hex) in Hr. done.
Qed.

(** A campaign whose fan-out can go on. *)
Record fanning (cid : uuid) (newid : uuid -> uuid) (m : mdb) (c : campaign_row) : Prop := {
  fan_row : m_campaigns m !! cid = Some c;
  fan_status : cm_status c = CSending;
  fan_open : cm_fanout_done c = false;
  fan_operational : campaign_operational m c = true;
  fan_free : ids_free cid newid m
}.

(** What a batch does to it. *)
Lemma fanout_batch_step cid batch domain newid now m c :
  Inj (=) (=) newid -> message_domain_ok domain = true -> fanning cid newid m c ->
  exists m1 k c' n, 
    inserted cid c (ToLower (btrim domain)) now newid (batch_of m c batch) m m1 /\ ids_free cid newid m1 /\
    c' = with_campaign CSending (cm_started_at c) (cm_completed_at c)
           (or_else (option_map fst (last (batch_of m c batch))) (cm_cursor c))
           (bool_decide (drop (batch_limit batch 1 5000) (fanout_eligible m c (cm_cursor c)) = [])) k now c /\
    mailing_fanout_batch cid batch domain newid now m = Ok (put_campaign cid c' m1, (n, cm_fanout_done c')).
Proof.
  intros Hinj Hdom [Hc Hst Hd Hop Hfree].
  destruct (insert_succeeds cid c (ToLower (btrim domain)) now newid (batch_of m c batch) m 0 Hinj Hfree) as (m1 & n & Hins & Hfree').
  pose proof (insert_inserted _ _ _ _ _ _ _ _ _ _ Hins) as Hi.
  exists m1, (with_recipients (campaign_recipients m1 cid) (cm_counts c)). eexists _, n. split; [done|]. split; [done|]. split; [done|].
  unfold mailing_fanout_batch. rewrite Hdom, Hc. simpl. rewrite bool_decide_eq_true_2 by done. rewrite Hd, Hop. simpl.
  fold (batch_of m c batch). rewrite Hins. simpl. rewrite (last_batch m m1 c batch) by apply Hi. by rewrite Hst.
Qed.

Lemma rounds_done cid domain newid rounds m c :
  message_domain_ok domain = true -> m_campaigns m !! cid = Some c -> cm_fanout_done c = true ->
  fanout_rounds cid domain newid rounds m = Ok m.
Proof.
  intros Hdom Hc Hd. induction rounds as [|[b t] rounds IH]; [done|]. simpl. unfold mailing_fanout_batch.
  rewrite Hdom, Hc, Hd, orb_true_r. simpl. exact IH.
Qed.

(** A row of the campaign for one of [xs], at some time. *)
Definition row_for (cid : uuid) (c : campaign_row) (domain : string) (newid : uuid -> uuid)
    (xs : list (uuid * subscriber_row)) (id : uuid) (r : delivery_row) : Prop :=
  exists x now, x ∈ xs /\ id = newid (fst x) /\ r = campaign_delivery cid c domain now id x.

Lemma rounds_reach cid domain newid rounds m c :
  Inj (=) (=) newid -> message_domain_ok domain = true -> rounds <> [] -> fanning cid newid m c ->
  length (fanout_eligible m c (cm_cursor c)) <= capacity rounds ->
  exists m' c', fanout_rounds cid domain newid rounds m = Ok m' /\ m_campaigns m' !! cid = Some c' /\ cm_fanout_done c' = true /\
    (forall id r, m_deliveries m !! id = Some r -> m_deliveries m' !! id = Some r) /\
    (forall id r, m_deliveries m' !! id = Some r -> m_deliveries m !! id = Some r \/
       row_for cid c (ToLower (btrim domain)) newid (fanout_eligible m c (cm_cursor c)) id r) /\
    (forall x, x ∈ fanout_eligible m c (cm_cursor c) ->
       exists id r, m_deliveries m' !! id = Some r /\ same_source "campaign" cid (fst x) r = true).
Proof.
  intros Hinj Hdom. revert m c. induction rounds as [|[b t] rounds IH]; intros m c Hne Hfan Hcap; [done|].
  destruct (fanout_batch_step cid b domain newid t m c Hinj Hdom Hfan) as (m1 & k & c' & n & [Hw Ho Hn _ _ _ _ Ha] & Hfree & Hc' & Hb).
  cbn [fanout_rounds]. rewrite Hb. cbn [result_bind]. unfold batch_of in *. set (E := fanout_eligible m c (cm_cursor c)) in *.
  set (lim := batch_limit b 1 5000) in *. change (capacity ((b, t) :: rounds)) with (lim + capacity rounds) in Hcap.
  assert (Htake : forall x, x ∈ take lim E -> x ∈ E).
  { intros x Hx. rewrite <- (take_drop lim E). apply elem_of_app. by left. }
  destruct (decide (drop lim E = [])) as [Hdrop|Hdrop].
  - assert (cm_fanout_done c' = true) as Hd by (rewrite Hc'; simpl; by apply bool_decide_eq_true).
    exists (put_campaign cid c' m1), c'. split; [by eapply rounds_done; [|apply lookup_insert_eq|]|].
    split; [apply lookup_insert_eq|]. split; [done|]. split; [done|]. split.
    + intros id r Hr. destruct (Hn _ _ Hr) as [?|(_ & x & Hx & ?)]; [by left|]. right. exists x, t. split; [by apply Htake|done].
    + intros x Hx. apply Ha. rewrite <- (take_drop lim E), Hdrop, app_nil_r in Hx. done.
  - assert (exists z, last (take lim E) = Some z) as [z Hz].
    { destruct (last (take lim E)) as [z|] eqn:Hl; [eauto|]. apply last_None in Hl. destruct E; [by rewrite drop_nil in Hdrop|].
      pose proof (batch_limit_pos b) as Hp. fold lim in Hp. by destruct lim; [lia|]. }
    rewrite Hz in Hc'. simpl in Hc'. destruct (write_frame m m1 Hw) as (Hsub & Hcs & Hadr & Hop).
    assert (HE : fanout_eligible (put_campaign cid c' m1) c' (cm_cursor c') = drop lim E).
    { replace (cm_cursor c') with (Some (fst z)) by by rewrite Hc'. apply (eligible_next m); [done| |done].
      intros s. rewrite Hc'. apply (Hadr c). }
    assert (Hfan' : fanning cid newid (put_campaign cid c' m1) c').
    { split; [apply lookup_insert_eq|by rewrite Hc'| |  |exact Hfree].
      - rewrite Hc'. simpl. by apply bool_decide_eq_false.
      - rewrite Hc'. etransitivity; [exact (Hop c)|apply Hfan]. }
    assert (rounds <> []) as Hne'.
    { intros ->. simpl in Hcap. apply Hdrop, drop_ge. unfold capacity in Hcap. simpl in Hcap. lia. }
    destruct (IH _ _ Hne' Hfan') as (m' & c2 & Hr & Hc2 & Hd & Ho' & Hn' & Ha'); [rewrite HE, length_drop; lia|].
    rewrite HE in Hn', Ha'. exists m', c2. split; [done|]. split; [done|]. split; [done|]. split; [|split].
    + intros id r Hl. by apply Ho', Ho.
    + intros id r Hl. destruct (Hn' _ _ Hl) as [Hl'|(x & now & Hx & -> & ->)].
      * destruct (Hn _ _ Hl') as [?|(_ & x & Hx & ?)]; [by left|]. right. exists x, t. split; [by apply Htake|done].
      * right. exists x, now. split; [|split; [done|by rewrite Hc']]. rewrite <- (take_drop lim E). apply elem_of_app. by right.
    + intros x Hx. rewrite <- (take_drop lim E) in Hx. apply elem_of_app in Hx as [Hx|Hx]; [|by apply Ha'].
      destruct (Ha _ Hx) as (id & r & Hl & Hs). exists id, r. split; [by apply Ho'|done].
Qed.

Lemma rounds_good cid domain newid rounds m m' : fanout_rounds cid domain newid rounds m = Ok m' -> good m m'.
Proof.
  revert m. induction rounds as [|[b t] rounds IH]; intros m; simpl; [intros [= <-]; reflexivity|].
  destruct (mailing_fanout_batch _ _ _ _ _ _) as [[m1 x]|] eqn:Hb; [|done]. cbn [result_bind]. intros Hr.
  etransitivity; [by eapply fanout_batch_good|by apply IH].
Qed.

(** Every addressable subscriber has a delivery of the campaign, to its address and
    waiting to be sent, and nobody else has one. *)
Definition reaches_exactly (m m' : mdb) (cid : uuid) (c : campaign_row) : Prop :=
  (forall s row, db_subscribers (m_db m) !! s = Some row -> addressable m c row = true ->
     exists id r, m_deliveries m' !! id = Some r /\ d_campaign r = Some cid /\ d_subscriber r = s /\
       d_email r = s_email row /\ ds_status (d_st r) = DQueued /\
       forall id' r', m_deliveries m' !! id' = Some r' -> d_campaign r' = Some cid -> d_subscriber r' = s -> id' = id) /\
  (forall id r, m_deliveries m' !! id = Some r -> d_campaign r = Some cid ->
     exists row, db_subscribers (m_db m) !! d_subscriber r = Some row /\ addressable m c row = true).

Lemma fanout_reaches cid domain newid rounds m c :
  mail_ok m -> Inj (=) (=) newid -> message_domain_ok domain = true -> rounds <> [] -> fanning cid newid m c ->
  cm_cursor c = None -> length (fanout_eligible m c None) <= capacity rounds ->
  exists m' c', fanout_rounds cid domain newid rounds m = Ok m' /\ m_campaigns m' !! cid = Some c' /\ cm_fanout_done c' = true /\
    reaches_exactly m m' cid c.
Proof.
  intros Hok Hinj Hdom Hne Hfan Hcur Hcap. rewrite <- Hcur in Hcap.
  destruct (rounds_reach cid domain newid rounds m c Hinj Hdom Hne Hfan Hcap) as (m' & c' & Hr & Hc' & Hd & _ & Hn & Ha).
  exists m', c'. split_and!; [done..|]. destruct (rounds_good _ _ _ _ _ _ Hr Hok) as [[Hone Hrows _ _ _] _]. rewrite Hcur in Hn, Ha.
  assert (Hnone : forall id r, m_deliveries m !! id = Some r -> d_campaign r = Some cid -> False).
  { intros id r Hl Hc. destruct (ok_source m Hok _ _ _ Hl Hc) as (x & Hx & _ & _ & _ & Hcu).
    rewrite (fan_row _ _ _ _ Hfan) in Hx. injection Hx as <-. by rewrite Hcur in Hcu. }
  assert (Hnew : forall id r, m_deliveries m' !! id = Some r -> d_campaign r = Some cid ->
    row_for cid c (ToLower (btrim domain)) newid (fanout_eligible m c None) id r).
  { intros id r Hl Hc. destruct (Hn _ _ Hl) as [Hl'|?]; [|done]. exfalso. by eapply Hnone. }
  split.
  - intros s row Hs Hadr. destruct (Ha (s, row)) as (id & r & Hl & Hsame); [by apply elem_of_eligible|].
    apply same_source_spec in Hsame as (Hk & Hsrc & Hsub). simpl in Hsub. subst s.
    assert (d_campaign r = Some cid) as Hrc.
    { destruct (Hrows _ _ Hl) as [[(_ & -> & _)|(Hk' & _)] _]; [by rewrite Hsrc|]. by rewrite Hk in Hk'. }
    destruct (Hnew _ _ Hl Hrc) as ([s' row'] & now & Hx & Hid & ->). simpl in Hs, Hid |- *.
    apply elem_of_eligible in Hx as (Hs' & _). rewrite Hs in Hs'. injection Hs' as <-.
    eexists _, _. split; [exact Hl|]. split_and!; try done. intros id' r' Hl' Hrc' Hs'.
    destruct (Hnew _ _ Hl' Hrc') as ([s2 row2] & now2 & _ & -> & ->). simpl in Hs'. subst s2. done.
  - intros id r Hl Hc. destruct (Hnew _ _ Hl Hc) as ([s row] & now & Hx & _ & ->). apply elem_of_eligible in Hx as (? & ? & _).
    simpl. by exists row.
Qed.
End Fanout.
