(* ===== verification/MailRequests.v ===== *)
(** * Feedback and requests respect the invariant

    Consent links, tracking, bounces, provider webhooks and the operations of the
    mailing service, one lemma each. *)

From S2P Require Import Prelude GoStrings GoTime GoJson AutoGraph Errors AutoEngine AutoStore AutoStoreFacts AutoService AutoEvents.
From S2P Require Import MailToken MailStore MailFeedback MailService MailFacts MailOps.
From stdpp Require Import sorting.
#[local] Open Scope go_scope.

Section Feedback.
Context `{UnicodeTables, UUIDLib, MailCrypto}.

(** ** Consent *)

(** The tables the invariant is about are as they were. *)
Definition same_core (m m' : mdb) : Prop :=
  same_automations m m' /\
  m_deliveries m' = m_deliveries m /\ m_campaigns m' = m_campaigns m /\ m_rollups m' = m_rollups m.

#[export] Instance same_core_preorder : PreOrder same_core.
Proof. split; [by intros m|]. intros a b c (? & ? & ? & ?) (? & ? & ? & ?). split; [by etransitivity|split_and!; congruence]. Qed.

Lemma good_same (m m' : mdb) : same_core m m' -> good m m'.
Proof. intros (? & ? & ? & ?). by apply mail_good_frame. Qed.

Lemma demote_core (id : uuid) (status : string) (m : mdb) : same_core m (demote_subscriber id status m).
Proof. unfold demote_subscriber. destruct (db_subscribers _ !! _); [|done]. by destruct (String.eqb _ _). Qed.

Lemma unsubscribe_core (s c : uuid) (now : time) (m m' : mdb) (n : Z) :
  mailing_unsubscribe s c now m = Ok (m', n) -> same_core m m'.
Proof.
  unfold mailing_unsubscribe. destruct (db_subscribers _ !! _) as [row|]; [|by intros [= <- _]].
  destruct (fence _ _); [|done]. cbn [result_bind]. intros [= <- _]. by destruct (String.eqb (s_status row) "unsubscribed").
Qed.

Lemma record_unsubscribe_core (s c : uuid) (now : time) (m m' : mdb) (b : bool) :
  mailing_record_unsubscribe s c now m = Ok (m', b) -> same_core m m'.
Proof.
  unfold mailing_record_unsubscribe. destruct (mfind _ _) as [[id r]|]; [|by intros [= <- _]].
  destruct (has_event _ _ _); [by intros [= <- _]|]. destruct (fence _ _); [|done]. by intros [= <- _].
Qed.

(** ** Tracking and bounces *)

Lemma record_track_good (id : uuid) (click : bool) (url : option string) (now : time) (m m' : mdb) (b : bool) :
  mailing_record_track id click url now m = Ok (m', b) -> good m m'.
Proof.
  unfold mailing_record_track. destruct (m_deliveries m !! id) as [r|] eqn:Hr; [|intros [= <- _]; reflexivity].
  set (key := (id, click, _)). clearbody key. case_bool_decide; [intros [= <- _]; reflexivity|].
  destruct (fence _ _); [|done]. cbn [result_bind]. intros [= <- _].
  set (m1 := set_tracking _ _ m). transitivity m1; [by apply good_same|]. apply good_law; [done|].
  destruct click; apply law_tracked; simpl; try done; by destruct (ds_opened_at _) || destruct (ds_first_clicked_at _).
Qed.

Lemma bounced_law (now : time) (err : string) (st : delivery_state) :
  status_in [DBounced; DComplained] st = false -> lawful st (stopped_state now DBounced err st).
Proof.
  unfold status_in. intros Hs. destruct (open_status (ds_status st)) eqn:Ho.
  - apply law_ended; simpl; try done; [set_solver|by left].
  - apply law_feedback; simpl; try done; [|by right]. by destruct (ds_status st).
Qed.

Lemma mark_bounced_good (message : string) (now : time) (m m' : mdb) (b : bool) :
  mailing_mark_bounced message now m = Ok (m', b) -> good m m'.
Proof.
  unfold mailing_mark_bounced. destruct (mfind _ _) as [[id r]|] eqn:Hf; [|intros [= <- _]; reflexivity].
  apply mfind_some in Hf as [Hr _]. destruct (fence _ _); [|done]. cbn [result_bind]. intros [= <- _]. cbn zeta.
  set (m1 := if status_in _ _ then m else _). transitivity m1.
  - subst m1. destruct (status_in _ _) eqn:Hs; [reflexivity|]. apply good_law; [done|]. by apply bounced_law.
  - clearbody m1. apply good_same. set (m2 := upsert_suppression _ _ _ _ _ _ _ _ _).
    transitivity m2; [repeat split|]. clearbody m2. transitivity (demote_subscriber (d_subscriber r) "bounced" m2); [apply demote_core|].
    by destruct (has_event _ _ _).
Qed.

(** ** Archiving a list *)

Lemma stopped_law (now : time) (err : string) (st : delivery_state) :
  open_status (ds_status st) = true -> lawful st (stopped_state now DCancelled err st).
Proof. intros Ho. apply law_ended; simpl; try done; [set_solver|by left]. Qed.

Lemma archive_list_good (l business root : uuid) (now : time) (m m' : mdb) (n : Z) :
  mailing_archive_list l business root now m = Ok (m', n) -> good m m'.
Proof.
  unfold mailing_archive_list. destruct (db_lists _ !! _) as [row|]; [|intros [= <- _]; reflexivity].
  destruct (_ && _); [|intros [= <- _]; reflexivity]. destruct (fence _ _); [|done]. cbn [result_bind]. cbn zeta. intros [= <- _].
  set (m1 := set_db _ m). transitivity m1; [by apply good_same|]. set (m2 := set_campaigns _ m1). transitivity m2.
  - apply good_campaigns. intros c. rewrite lookup_mupdate. change (m_campaigns m1) with (m_campaigns m).
    destruct (m_campaigns m !! c) as [x|]; [|done]. simpl.
    split; [|by destruct (_ && bool_decide _)].
    destruct (_ && bool_decide _) eqn:Ht; [|intros Hok; split; [reflexivity|done]]. apply andb_true_iff in Ht as [_ Ht%bool_decide_eq_true].
    intros [Hf He Hp Hs Hsent]. split.
    + split; simpl; try done; try reflexivity.
      rewrite !elem_of_cons, elem_of_nil in Ht. destruct_or! Ht; try done; by rewrite Ht.
    + split; simpl; try done; [naive_solver|set_solver..].
  - refine (good_select now _ _ m2 _). intros id r. cbv beta zeta. destruct (d_campaign r) as [c|]; [|discriminate].
    destruct (_ !! c); [|discriminate]. rewrite !andb_true_iff. intros [_ Ho]. by apply stopped_law.
Qed.

(** ** Provider events *)

Lemma correlated_some (m : mdb) (profile : uuid) (e : provider_event) (id : uuid) (r : delivery_row) :
  correlated m profile e = Some (id, r) ->
  m_deliveries m !! id = Some r /\ correlates m profile (pe_message_id e) (pe_recipient e) r = true /\
  ds_provider_id (d_st r) = Some (pe_message_id e).
Proof.
  unfold correlated. intros [Hr Ht]%mfind_some. split_and!; [done..|]. unfold correlates in Ht.
  destruct (m_profiles m !! profile); [|done]. rewrite !andb_true_iff in Ht. destruct Ht as [[[_ Hp] _] _].
  by apply bool_decide_eq_true in Hp.
Qed.

Lemma feedback_law (now : time) (new : delivery_status) (p : string) (st : delivery_state) :
  ds_provider_id st = Some p -> new ∈ [DDelivered; DBounced; DComplained] ->
  lawful st (with_status now (feedback_status (ds_status st) new) st).
Proof.
  intros Hp Hn Hok. destruct (open_status (ds_status st)) eqn:Ho.
  { pose proof (open_no_provider st Hok Ho). congruence. }
  revert Hok. apply law_feedback; simpl; try done; [by apply feedback_leads|by left|by rewrite Hp].
Qed.

Lemma feedback_kind_in (k : track_kind) : feedback_kind k ∈ [DDelivered; DBounced; DComplained].
Proof. destruct k; set_solver. Qed.

Lemma apply_event_good (w profile : uuid) (external : string) (e : provider_event) (now : time) (m : mdb) :
  good m (mailing_apply_provider_event_internal w profile external e now m).1.
Proof.
  unfold mailing_apply_provider_event_internal. destruct (correlated m profile e) as [[id r]|] eqn:Hc; [|reflexivity].
  apply correlated_some in Hc as (Hr & _ & Hp). destruct (provider_event_seen _ _ _); [reflexivity|]. cbn zeta. cbn [fst].
  set (m1 := put_delivery _ _ _ _). transitivity m1.
  { apply good_law; [done|]. eapply feedback_law; [done|apply feedback_kind_in]. }
  clearbody m1. apply good_same. destruct (is_negative _); [|repeat split].
  etransitivity; [|apply demote_core]. repeat split.
Qed.

Lemma apply_events_good (w profile : uuid) (external : string) (es : list provider_event) (now : time) (m m' : mdb) :
  apply_events w profile external es now m = Ok m' -> good m m'.
Proof.
  revert m. induction es as [|e es IH]; intros m; simpl; [intros [= <-]; reflexivity|].
  pose proof (apply_event_good w profile external e now m) as Hg.
  destruct (mailing_apply_provider_event_internal _ _ _ _ _ _) as [m1 [|]]; [|done]. intros Hes.
  etransitivity; [exact Hg|by apply IH].
Qed.

Lemma apply_webhook_good (w : uuid) (now : time) (m m' : mdb) (b : bool) :
  mailing_apply_pending_webhook w now m = Ok (m', b) -> good m m'.
Proof.
  unfold mailing_apply_pending_webhook. destruct (m_webhooks m !! w) as [row|]; [|intros [= <- _]; reflexivity].
  destruct (wh_applied row); [intros [= <- _]; reflexivity|]. destruct (_ <=? _)%Z; [intros [= <- _]; by apply good_same|].
  destruct (existsb _ _); [intros [= <- _]; reflexivity|].
  destruct (apply_events _ _ _ _ _ _) as [m1|] eqn:He; [|done]. cbn [result_bind]. intros [= <- _].
  etransitivity; [by eapply apply_events_good|by apply good_same].
Qed.

Lemma apply_webhooks_good (ids : list uuid) (now : time) (m m' : mdb) :
  apply_webhooks ids now m = Ok m' -> good m m'.
Proof.
  revert m. induction ids as [|w ids IH]; intros m; simpl; [intros [= <-]; reflexivity|].
  destruct (mailing_apply_pending_webhook w now m) as [[m1 b]|] eqn:Hw; [|done]. cbn [result_bind]. intros Hes.
  etransitivity; [by eapply apply_webhook_good|by apply IH].
Qed.

Lemma process_webhook_good (locked : gset uuid) (i : webhook_input) (now : time) (m m' : mdb) (o : webhook_outcome) :
  mailing_process_provider_webhook locked i now m = Ok (m', o) -> good m m'.
Proof.
  unfold mailing_process_provider_webhook. destruct (negb (admissible i)); [intros [= <- _]; reflexivity|].
  destruct (m_profiles m !! _) as [p|]; [|intros [= <- _]; reflexivity]. destruct (negb _); [intros [= <- _]; reflexivity|].
  cbn zeta. set (m1 := set_webhooks _ m). assert (Hm1 : good m m1) by by apply good_same. clearbody m1. intros Hp. transitivity m1; [done|].
  clear Hm1. revert Hp. destruct (negb _); [intros [= <- _]; reflexivity|]. destruct (existsb _ _); [intros [= <- _]; reflexivity|].
  destruct (already_applied i m1); [intros [= <- _]; reflexivity|].
  set (same := mfind _ _). clearbody same. set (m2 := if match same with Some _ => false | None => true end then _ else m1).
  set (id := match same with Some (id, _) => id | None => _ end). assert (Hm2 : good m1 m2).
  { subst m2. destruct same; [reflexivity|by apply good_same]. }
  clearbody m2. intros Hp. transitivity m2; [done|]. clear Hm2. revert Hp. destruct (match same with Some _ => _ | None => false end); [intros [= <- _]; reflexivity|].
  destruct (mailing_apply_pending_webhook id now m2) as [[m3 b]|] eqn:Hw; [|done]. cbn [result_bind]. intros Hp. transitivity m3; [by eapply apply_webhook_good|].
  revert Hp. destruct b; [intros [= <- _]; reflexivity|]. destruct (_ || _); intros [= <- _]; [|reflexivity].
  destruct same; [reflexivity|by apply good_same].
Qed.

Lemma complete_good (locked : gset uuid) (id : uuid) (generation : Z) (p : string) (now : time) (m m' : mdb) (b : bool) :
  mailing_complete_delivery locked id generation p now m = Ok (m', b) -> good m m'.
Proof.
  unfold mailing_complete_delivery. destruct (if_claimed _ _ _) as [r|] eqn:Hr; [|intros [= <- _]; reflexivity].
  apply if_claimed_some in Hr as (Hr & Hs & _). cbn zeta. set (m1 := put_delivery _ _ _ _). set (m2 := set_webhooks _ m1).
  destruct (apply_webhooks _ _ _) as [m3|] eqn:Hw; [|done]. cbn [result_bind]. intros [= <- _]. transitivity m1; [|transitivity m2].
  - apply good_law; [done|]. by apply law_sent.
  - by apply good_same.
  - by eapply apply_webhooks_good.
Qed.

(** ** Requests *)

Lemma run_mail_good {A : Type} (body : mdb -> result error (mdb * A)) (m : mdb) :
  (forall m' a, body m = Ok (m', a) -> good m m') -> good m (run_mail body m).1.
Proof. intros Hb. unfold run_mail. destruct (body m) as [[m' a]|]; [by eapply Hb|reflexivity]. Qed.

Lemma run_public_good {A : Type} (body : mdb -> result error (mdb * A)) (m : mdb) :
  (forall m' a, body m = Ok (m', a) -> good m m') -> good m (run_public body m).1.
Proof. intros Hb. unfold run_public. destruct (body m) as [[m' a]|]; [by eapply Hb|reflexivity]. Qed.

Lemma audit_core (p b r : uuid) (action ty : string) (t : uuid) (v : json) (m : mdb) : same_core m (auditMutation p b r action ty t v m).
Proof. done. Qed.
End Feedback.

(** Steps through the body of a transaction: a bind that failed leads nowhere. *)
Ltac run_bind :=
  match goal with
  | |- result_bind ?f _ = _ -> _ => let E := fresh "E" in destruct f eqn:E; cbn [result_bind]; [|discriminate]
  | |- (if ?b then _ else _) = _ -> _ => let E := fresh "E" in destruct b eqn:E; try discriminate
  end.

Section Requests.
Context `{UnicodeTables, UUIDLib, Authz, MailCrypto}.

Lemma draft_ok (m : mdb) (c business root : uuid) (content : campaign_content) (p : uuid) (now : time) :
  campaign_ok m c (draft_campaign business root content p now).
Proof. split; simpl; try done; set_solver. Qed.

Lemma CreateCampaign_good (p b : uuid) (input : CampaignInput) (id : uuid) (now : time) (m : mdb) :
  good m (CreateCampaign p b input id now m).1.
Proof.
  unfold CreateCampaign. destruct (validateCampaign _ _ _ _); [|reflexivity]. destruct (normalizeTags _) as [tags|]; [|reflexivity].
  apply run_mail_good. intros m' x. cbv beta. repeat run_bind. case_bool_decide as Hid; [done|]. intros [= <- _].
  etransitivity; [apply (good_new_campaign m id); [by destruct (m_campaigns m !! id)|apply draft_ok|done]|]. apply good_same, audit_core.
Qed.

Lemma loadCampaign_some (p b root c : uuid) (m : mdb) (x : campaign_row) :
  loadCampaign p b root c m = Ok x -> m_campaigns m !! c = Some x /\ cm_root x = root /\ cm_business x = b.
Proof.
  unfold loadCampaign. destruct (m_campaigns m !! c) as [y|]; [|done]. destruct (_ && _) eqn:Ht; [|done]. intros [= <-].
  rewrite !andb_true_iff, !N.eqb_eq in Ht. naive_solver.
Qed.

Lemma GetCampaign_same (p b c : uuid) (m : mdb) : (GetCampaign p b c m).1 = m.
Proof.
  unfold GetCampaign, run_mail. destruct (mail_resolveTenantRoot _ _ _); [|done]. cbn [result_bind].
  by destruct (loadCampaign _ _ _ _ _).
Qed.

Lemma UpdateCampaign_good (p b c : uuid) (input : CampaignUpdate) (now : time) (m : mdb) :
  good m (UpdateCampaign p b c input now m).1.
Proof.
  apply run_mail_good. intros m' x. cbv beta. repeat run_bind. intros [= <- _].
  apply loadCampaign_some in E0 as (Hx & _). case_bool_decide as Hd; [|done].
  etransitivity; [|apply good_same, audit_core]. apply (good_campaign m c a0); [done| |done]. intros [Hf He Hp Hs Hsent].
  split; [split; simpl; rewrite ?Hd; done || reflexivity|]. by split.
Qed.

Lemma ScheduleCampaign_good (p c b root : uuid) (at_ now : time) (m m' : mdb) (x : campaign_row) :
  ScheduleCampaign p c b root at_ now m = Ok (m', x) -> good m m'.
Proof.
  unfold ScheduleCampaign. destruct (m_campaigns m !! c) as [y|] eqn:Hy; [|done]. destruct (_ && _) eqn:Ht; [|done].
  destruct (mfind _ _) as [[pid pr]|]; [|done]. run_bind. intros [= <- _].
  assert (cm_status y = CDraft) as Hd.
  { rewrite !andb_true_iff in Ht. destruct Ht as [[[[_ Hd] _] _] _]. by apply bool_decide_eq_true in Hd. }
  apply (good_campaign m c y); [done| |done]. intros [Hf He Hp Hs Hsent]. destruct (He (or_introl Hd)) as [Hcu Hfd].
  split; [split; simpl; rewrite ?Hd, ?Hcu, ?Hfd; done || reflexivity|]. split; simpl; try done; set_solver.
Qed.

Lemma SendCampaign_good `{EventLib} (p b c : uuid) (at_ : option time) (clock now : time) (m : mdb) :
  good m (SendCampaign p b c at_ clock now m).1.
Proof.
  apply run_mail_good. intros m' x. cbv beta. do 4 run_bind.
  set (t := match at_ with Some _ => _ | None => _ end). clearbody t.
  destruct (ScheduleCampaign _ _ _ _ _ _ _) as [[m1 row]|e] eqn:Hs; [|by destruct (is_no_rows e)]. cbn [result_bind].
  run_bind. destruct a1 as [pid pr]. intros [= <- _]. etransitivity; [by eapply ScheduleCampaign_good|]. apply good_same, audit_core.
Qed.

Lemma CancelCampaign_good (p b c : uuid) (now : time) (m : mdb) : good m (CancelCampaign p b c now m).1.
Proof.
  apply run_mail_good. intros m' x. cbv beta. do 3 run_bind.
  destruct (mailing_cancel_campaign _ _ _ _) as [[m1 ch]|e] eqn:Hc; [|done]. cbn [result_bind]. do 2 run_bind. intros [= <- _].
  etransitivity; [by eapply cancel_good|]. apply good_same, audit_core.
Qed.

Lemma ArchiveList_good (p b l : uuid) (now : time) (m : mdb) : good m (ArchiveList p b l now m).1.
Proof.
  apply run_mail_good. intros m' x. cbv beta. do 2 run_bind.
  destruct (mailing_archive_list _ _ _ _ _) as [[m1 n]|e] eqn:Hc; [|done]. cbn [result_bind]. run_bind. intros [= <- _].
  etransitivity; [by eapply archive_list_good|]. apply good_same, audit_core.
Qed.

Lemma CreateSuppression_good `{EventLib} (p b : uuid) (email reason : string) (now : time) (m : mdb) :
  good m (CreateSuppression p b email reason now m).1.
Proof.
  unfold CreateSuppression. destruct (mail_normalizeEmail _); [|reflexivity]. destruct (parse_reason _); [|reflexivity].
  apply run_mail_good. intros m' x. cbv beta. do 2 run_bind. case_bool_decide; [done|]. intros [= <- _]. by apply good_same.
Qed.

Lemma DeleteSuppression_good (p b s : uuid) (m : mdb) : good m (DeleteSuppression p b s m).1.
Proof.
  apply run_mail_good. intros m' x. cbv beta. run_bind. destruct (mfind _ _) as [[key row]|]; [|done]. do 2 run_bind.
  intros [= <- _]. by apply good_same.
Qed.

Lemma Unsubscribe_good (c : Codec) (raw : string) (now : time) (m : mdb) : good m (Unsubscribe c raw now m).1.
Proof.
  unfold Unsubscribe. destruct (DecodeUnsubscribe c raw) as [[s k]|]; [|reflexivity]. apply run_public_good. intros m' x. cbv beta.
  destruct (mailing_unsubscribe s k now m) as [[m1 n]|] eqn:H1'; [|done]. cbn [result_bind].
  destruct (mailing_record_unsubscribe s k now m1) as [[m2 b]|] eqn:H2'; [|done]. cbn [result_bind]. intros [= <- _].
  apply good_same. etransitivity; [by eapply unsubscribe_core|by eapply record_unsubscribe_core].
Qed.

Lemma recordTrack_good (id : uuid) (click : bool) (target : string) (now : time) (m : mdb) :
  good m (recordTrack id click target now m).1.
Proof. apply run_public_good. intros m' x. apply record_track_good. Qed.

Lemma trackOpen_good (c : Codec) (raw : string) (now : time) (m : mdb) : good m (trackOpen c raw now m).
Proof. unfold trackOpen. destruct (DecodeOpen c raw); [apply recordTrack_good|reflexivity]. Qed.

Lemma trackClick_good (c : Codec) (ok : string -> bool) (raw : string) (now : time) (m : mdb) :
  good m (trackClick c ok raw now m).1.
Proof.
  unfold trackClick. destruct (DecodeClick c raw) as [[d t]|]; [|reflexivity]. destruct (ok t); [apply recordTrack_good|reflexivity].
Qed.

Lemma prune_good (locked : gset uuid) (limit : Z) (now : time) (m : mdb) :
  good m (mailing_prune_expired_provider_webhooks locked limit now m).1.
Proof. by apply good_same. Qed.

(** ** Deleting a campaign *)

(** The rows that are left are as they were. *)
Definition removal (m m' : mdb) : Prop :=
  m_deliveries m' ⊆ m_deliveries m /\ m_campaigns m' ⊆ m_campaigns m /\ same_automations m m' /\
  forall c, is_Some (m_campaigns m' !! c) -> m_rollups m' !! c = m_rollups m !! c /\ same_deliveries c m m'.

Lemma delete_campaign_ok (c : uuid) (m : mdb) : mail_ok m -> mail_ok (delete_campaign c m) /\ removal m (delete_campaign c m).
Proof.
  intros [Ho1 Ho2 Ho3 Ho4 Ho5].
  assert (Hd : forall id r, m_deliveries (delete_campaign c m) !! id = Some r <-> m_deliveries m !! id = Some r /\ d_campaign r <> Some c).
  { intros id r. unfold delete_campaign. simpl. rewrite lookup_mdelete_Some, bool_decide_eq_false. done. }
  assert (Hc : m_campaigns (delete_campaign c m) = delete c (m_campaigns m)) by done.
  assert (Hr : m_rollups (delete_campaign c m) = delete c (m_rollups m)) by done. split.
  - split.
    + intros i j ri rj [Hi _]%Hd [Hj _]%Hd. by apply Ho1.
    + intros id r [Hl _]%Hd. by eapply Ho2.
    + intros id r k [Hl Hne]%Hd Hk. destruct (Ho3 _ _ _ Hl Hk) as (x & Hx & Hf). exists x. split; [|done].
      rewrite Hc, lookup_delete_ne; [done|]. intros ->. by apply Hne.
    + intros k x. rewrite Hc. intros [Hne Hx]%lookup_delete_Some. destruct (Ho4 _ _ Hx) as [? ? ? ? Hsent]. split; try done.
      intros Hs. destruct (Hsent Hs) as (? & ? & Hdr). split_and!; [done..|]. rewrite drained_true in Hdr |- *.
      intros id r [Hl _]%Hd. by apply (Hdr id).
    + intros k q. rewrite Hr, Hc. intros [Hne Hq]%lookup_delete_Some. destruct (Ho5 _ _ Hq) as (x & Hx & ?). exists x.
      by rewrite lookup_delete_ne.
  - split.
    + apply map_subseteq_spec. intros id r [Hl _]%Hd. done.
    + split; [rewrite Hc; apply delete_subseteq|]. split; [done|]. rewrite Hc, Hr. intros k [x [Hne _]%lookup_delete_Some].
      split; [by apply lookup_delete_ne|]. intros id r Hk. rewrite Hd. split; [|by intros []]. intros Hl. split; [done|]. congruence.
Qed.

Lemma DeleteCampaign_ok (p b c : uuid) (m : mdb) :
  mail_ok m -> mail_ok (DeleteCampaign p b c m).1 /\ removal m (DeleteCampaign p b c m).1.
Proof.
  intros Hok. unfold DeleteCampaign, run_mail. 
  assert (Hsame : mail_ok m /\ removal m m) by (by split; [|split; [|split; [|split]]]).
  destruct (mail_resolveTenantRoot _ _ _); [|done]. cbn [result_bind]. destruct (loadCampaign _ _ _ _ _); [|done]. cbn [result_bind].
  destruct (negb _); [done|]. destruct (fence _ _); [|done]. cbn [result_bind fst].
  destruct (delete_campaign_ok c m Hok) as [Hok' Hrem]. split; [|exact Hrem].
  by apply (good_same _ _ (audit_core p b a "mailing.campaign.deleted" "campaign" c
     (JObj [("status", JStr (status_text (cm_status a0)))]) (delete_campaign c m))).
Qed.
End Requests.
