(* ===== verification/MailWorker.v ===== *)
(** * The send worker: [internal/mailing/sendworker.go]

    One cycle of [SendWorker]: claiming campaigns and fanning them out, claiming
    deliveries and sending them, rolling up counters.  Each call of the database
    is a transaction of its own.  What lies outside is an argument: the rate
    limiter, resolving the sending profile and its client, rendering, and the
    provider's answer; [interfere] is what other transactions do between the
    worker's, one function per gap.  A send that happened is recorded with the
    database at that moment. *)

From S2P Require Import Prelude GoStrings GoTime GoJson AutoGraph Errors AutoEngine AutoStore AutoStepper AutoService.
From S2P Require Import MailToken MailProvider MailStore MailFeedback MailService.
#[local] Open Scope go_scope.

Definition fanoutGlobalBudget : Z := 1000.
Definition fanoutPerCampaignBudget : Z := 250.
Definition rollupCampaignBudget : Z := 100.
Definition rollupLeaseSeconds : Z := 60.
Definition providerWebhookPruneBudget : Z := 256.
Definition defaultBatch : Z := 100.
Definition defaultLease : duration := 2 * Minute.

Record SendWorker := {
  w_Batch : Z; w_Lease : duration; w_FanoutGlobal : Z; w_FanoutPerCampaign : Z; w_RollupBatch : Z;
  w_MessageDomain : string
}.

Record claimedDelivery := {
  cd_ID : uuid; cd_BusinessID : uuid; cd_TenantRootID : uuid; cd_SourceID : uuid; cd_SubscriberID : uuid;
  cd_CampaignID : option uuid; cd_TemplateID : option uuid; cd_ContentUpdatedAt : time;
  cd_Email : string; cd_MessageID : string; cd_Subject : string; cd_BodyMarkdown : string; cd_ListName : string;
  cd_Preheader : option string; cd_FirstName : option string; cd_LastName : option string;
  cd_Attempts : Z; cd_ClaimGeneration : Z; cd_TrackOpens : bool; cd_TrackClicks : bool; cd_ProfileID : uuid
}.

(** Scanning a row: NULL does not fit these columns. *)
Definition scan_delivery (r : claimed_row) : result error claimedDelivery :=
  let d := cr_delivery_row r in
  match cr_content_at r, cr_subject r, cr_body r, cr_opens r, cr_clicks r with
  | Some at_, Some subject, Some body, Some opens, Some clicks =>
      Ok {| cd_ID := cr_delivery r; cd_BusinessID := d_business d; cd_TenantRootID := d_root d;
            cd_SourceID := d_source_id d; cd_SubscriberID := d_subscriber d; cd_CampaignID := d_campaign d;
            cd_TemplateID := d_template d; cd_ContentUpdatedAt := at_; cd_Email := d_email d;
            cd_MessageID := d_message_id d; cd_Subject := subject; cd_BodyMarkdown := body;
            cd_ListName := cr_list_name r; cd_Preheader := cr_preheader r; cd_FirstName := cr_first_name r;
            cd_LastName := cr_last_name r; cd_Attempts := ds_attempts (d_st d);
            cd_ClaimGeneration := ds_generation (d_st d); cd_TrackOpens := opens; cd_TrackClicks := clicks;
            cd_ProfileID := cr_profile r |}
  | _, _, _, _, _ => Err (NewError "cannot scan NULL")
  end.

Fixpoint scan_deliveries (rows : list claimed_row) : result error (list claimedDelivery) :=
  match rows with
  | [] => Ok []
  | r :: rows => let? d := scan_delivery r in let? ds := scan_deliveries rows in Ok (d :: ds)
  end.

(** What the renderer is given: [mailrender.Variables] and [mailrender.Tracking]. *)
Record Variables := {
  va_FirstName : string; va_LastName : string; va_Email : string; va_UnsubscribeURL : string; va_ListName : string
}.
Record Tracking := { tr_OpenURL : string; tr_ClickURL : option (string -> result error string) }.
Record Rendered := { rd_Text : string; rd_HTML : string }.

(** The resolved profile: whom the mail is from. *)
Record workerProfile := { wp_FromEmail : string; wp_fromName : string; wp_replyTo : option string }.

(** [notify.Mail]: a mail the worker hands to the provider.  The sender is a name
    and an address, which [net/mail] formats. *)
Record outgoing := {
  og_From : string * string; og_ReplyTo : string; og_To : string; og_Subject : string; og_BodyText : string;
  og_BodyHTML : string; og_MessageID : string; og_EnvelopeFrom : string; og_ExtraHeaders : list (string * string)
}.
Record sent_mail := { sm_mail : outgoing; sm_claim : claimedDelivery; sm_before : mdb }.

(** [safeProviderMessage] *)
Definition safeProviderMessage (err : string) : string := left_runes 500 (TrimSpace err).

Section Worker.
Context `{UnicodeTables, UUIDLib, MailCrypto}.
Context (codec : Codec) (publicBaseURL : string).

(** What the world answers while one delivery is handled. *)
Record delivery_env := {
  de_allow : bool;                                   (* limiter.Allow *)
  de_client : result send_error workerProfile;       (* resolveProfile, the dependencies, Providers.Resolve *)
  de_render : Variables -> Tracking -> result send_error Rendered;  (* compile and Render *)
  de_send : result send_error string;                (* deliverer.Send: the provider's message id *)
  de_now : time;                                     (* the worker's clock at the start *)
  de_now_fail : time;                                (* ... when a failure is classified *)
  de_db_now : time;                                  (* the database's clock *)
  de_interfere : mdb -> mdb;                         (* other transactions before the renewal *)
  de_interfere_send : mdb -> mdb;                    (* ... and during the send *)
  de_locked : gset uuid
}.

Definition worker_lease (w : SendWorker) : duration := if (w_Lease w <=? 0)%Z then defaultLease else w_Lease w.

(** A transaction that fails leaves the state; its error is only logged. *)
Definition attempt {A : Type} (f : mdb -> result error (mdb * A)) (m : mdb) : mdb :=
  match f m with Ok (m', _) => m' | Err _ => m end.

Definition fail_delivery (d : claimedDelivery) (e : send_error) (env : delivery_env) (m : mdb) : mdb :=
  let c := Classify (Some e) (cd_Attempts d) (de_now_fail env) in
  attempt (mailing_fail_delivery (cd_ID d) (cd_ClaimGeneration d) (safeProviderMessage (se_text e)) (cl_Status c)
             (cl_NotBefore c) (de_db_now env)) m.

(** [strings.TrimRight(base, "/")], and the links of a mail: base64url has no
    character that [url.PathEscape] escapes. *)
Definition trim_slashes (s : string) : string :=
  of_bytes (rev (strip [["/"%char]] (String.length s) (rev (bytes s)))).
Definition unsubscribe_url (d : claimedDelivery) : string :=
  trim_slashes publicBaseURL +:+ "/m/u/" +:+
  EncodeUnsubscribe codec (cd_SubscriberID d) (default uuid_Nil (cd_CampaignID d)).
Definition tracking_of (d : claimedDelivery) : Tracking :=
  {| tr_OpenURL := if cd_TrackOpens d then trim_slashes publicBaseURL +:+ "/m/o/" +:+ EncodeOpen codec (cd_ID d) else "";
     tr_ClickURL := if cd_TrackClicks d
                    then Some (fun destination => let? token := EncodeClick codec (cd_ID d) destination in
                                                  Ok (trim_slashes publicBaseURL +:+ "/m/c/" +:+ token))
                    else None |}.
Definition variables_of (d : claimedDelivery) : Variables :=
  {| va_FirstName := default "" (cd_FirstName d); va_LastName := default "" (cd_LastName d); va_Email := cd_Email d;
     va_UnsubscribeURL := unsubscribe_url d; va_ListName := cd_ListName d |}.

Definition mail_of (w : SendWorker) (d : claimedDelivery) (profile : workerProfile) (rendered : Rendered) : outgoing :=
  {| og_From := (wp_fromName profile, wp_FromEmail profile); og_ReplyTo := default "" (wp_replyTo profile);
     og_To := cd_Email d; og_Subject := cd_Subject d; og_BodyText := rd_Text rendered; og_BodyHTML := rd_HTML rendered;
     og_MessageID := cd_MessageID d; og_EnvelopeFrom := wp_FromEmail profile;
     og_ExtraHeaders :=
       [("List-Unsubscribe", "<" +:+ unsubscribe_url d +:+ ">");
        ("List-Unsubscribe-Post", "List-Unsubscribe=One-Click");
        ("List-Id", cd_ListName d +:+ " <" +:+ uuid_String (cd_SourceID d) +:+ "." +:+
                    safeMessageDomain (w_MessageDomain w) +:+ ">");
        ("Precedence", "bulk"); ("X-MF-Delivery", uuid_String (cd_ID d))] |}.

Definition deliver (w : SendWorker) (d : claimedDelivery) (env : delivery_env) (m : mdb) : mdb * list sent_mail :=
  if negb (de_allow env)
  then ((mailing_release_delivery (cd_ID d) (cd_ClaimGeneration d) (Add (de_now env) Second) (de_db_now env) m).1, []) else
  match de_client env with
  | Err e => (fail_delivery d e env m, [])
  | Ok profile =>
      match de_render env (variables_of d) (tracking_of d) with
      | Err e => (fail_delivery d e env m, [])
      | Ok rendered =>
          let message := mail_of w d profile rendered in
          let m := de_interfere env m in
          let '(m, renewed) := mailing_renew_delivery (cd_ID d) (cd_ClaimGeneration d) (worker_lease w) (de_db_now env) m in
          if negb renewed then (m, []) else
          let sent := [{| sm_mail := message; sm_claim := d; sm_before := m |}] in
          let m := de_interfere_send env m in
          match de_send env with
          | Err e => (fail_delivery d e env m, sent)
          | Ok provider_id =>
              (attempt (mailing_complete_delivery (de_locked env) (cd_ID d) (cd_ClaimGeneration d) provider_id
                          (de_db_now env)) m, sent)
          end
      end
  end.

Fixpoint deliver_all (w : SendWorker) (env : claimedDelivery -> delivery_env) (ds : list claimedDelivery) (m : mdb)
  : mdb * list sent_mail :=
  match ds with
  | [] => (m, [])
  | d :: ds =>
      let '(m, s1) := deliver w d (env d) m in
      let '(m, s2) := deliver_all w env ds m in
      (m, s1 ++ s2)
  end.

Definition claimDeliveries (w : SendWorker) (locked : gset uuid) (cancel_first : bool) (now : time) (m : mdb)
  : mdb * result error (list claimedDelivery) :=
  let batch := if (w_Batch w <=? 0)%Z then defaultBatch else w_Batch w in
  let '(m', rows) := mailing_claim_deliveries locked cancel_first batch (worker_lease w) now m in
  match scan_deliveries rows with
  | Ok ds => (m', Ok ds)
  | Err e => (m, Err e)
  end.

(** [campaignIDs] in turn, within the budget. *)
Fixpoint fanout_campaigns (w : SendWorker) (newid : uuid -> uuid -> uuid) (perCampaign remaining : Z) (ids : list uuid)
    (now : time) (m : mdb)
  : mdb * result error unit :=
  match ids with
  | [] => (m, Ok tt)
  | id :: ids =>
      let batch := if (remaining <? perCampaign)%Z then remaining else perCampaign in
      match mailing_fanout_batch id batch (safeMessageDomain (w_MessageDomain w)) (newid id) now m with
      | Err e => (m, Err (Wrap "fan out campaign" e))
      | Ok (m, _) =>
          let remaining := (remaining - batch)%Z in
          if (remaining =? 0)%Z then (m, Ok tt) else fanout_campaigns w newid perCampaign remaining ids now m
      end
  end.

Definition fanout_budgets (w : SendWorker) : Z * Z * Z :=
  let globalBudget := if (w_FanoutGlobal w <=? 0)%Z then fanoutGlobalBudget else w_FanoutGlobal w in
  let perCampaign := if (w_FanoutPerCampaign w <=? 0)%Z then fanoutPerCampaignBudget else w_FanoutPerCampaign w in
  let perCampaign := if (globalBudget <? perCampaign)%Z then globalBudget else perCampaign in
  (globalBudget, perCampaign, ((globalBudget + perCampaign - 1) / perCampaign)%Z).

(** One rollup per claimed campaign, each in a transaction of its own; the
    processed ones.  [others n] is what the rest of the system commits before the
    n-th of the transactions that follow the claim. *)
Fixpoint rollup_each (others : nat -> mdb -> mdb) (n : nat) (ids : list uuid) (now : time) (m : mdb) : mdb * list uuid :=
  match ids with
  | [] => (m, [])
  | id :: ids =>
      let '(m, ok) := mailing_rollup_changed_campaign id now (others n m) in
      let '(m, rest) := rollup_each others (S n) ids now m in
      (m, if ok then id :: rest else rest)
  end.

Definition rollup_limit (w : SendWorker) : Z :=
  if ((w_RollupBatch w <=? 0) || (rollupCampaignBudget <? w_RollupBatch w))%Z
  then rollupCampaignBudget else w_RollupBatch w.

Definition rollupChangedCampaigns (w : SendWorker) (locked : gset uuid) (token : uuid) (now : time)
    (others : nat -> mdb -> mdb) (m : mdb) : mdb :=
  let '(m, ids) := mailing_claim_changed_campaign_rollups locked token (rollup_limit w) rollupLeaseSeconds now m in
  let '(m, processed) := rollup_each others 0 ids now m in
  let m := others (length ids) m in
  match processed with
  | [] => m
  | _ => (mailing_complete_changed_campaign_rollups token processed m).1
  end.

(** Nobody else writes. *)
Definition undisturbed (_ : nat) (m : mdb) : mdb := m.

(** What the world does during one cycle. *)
Record tick_env := {
  tk_locked : gset uuid; tk_cancel_first : bool; tk_now : time; tk_token : uuid;
  tk_newid : uuid -> uuid -> uuid;                   (* gen_random_uuid(), per campaign and subscriber *)
  tk_deliveries : claimedDelivery -> delivery_env
}.

Definition Tick (w : SendWorker) (env : tick_env) (m : mdb) : mdb * result error (list sent_mail) :=
  let '(m, _) := mailing_prune_expired_provider_webhooks (tk_locked env) providerWebhookPruneBudget (tk_now env) m in
  let '(globalBudget, perCampaign, campaignLimit) := fanout_budgets w in
  let '(m, campaigns) := mailing_claim_campaigns_for_fanout (tk_locked env) campaignLimit (tk_now env) m in
  match fanout_campaigns w (tk_newid env) perCampaign globalBudget campaigns (tk_now env) m with
  | (m, Err e) => (m, Err e)
  | (m, Ok _) =>
      match claimDeliveries w (tk_locked env) (tk_cancel_first env) (tk_now env) m with
      | (m, Err e) => (m, Err e)
      | (m, Ok ds) =>
          let '(m, sent) := deliver_all w (tk_deliveries env) ds m in
          (rollupChangedCampaigns w (tk_locked env) (tk_token env) (tk_now env) undisturbed m, Ok sent)
      end
  end.
End Worker.
