(* ===== verification/MailSafety.v ===== *)
(** * Mailing as a system: the invariant and the life of deliveries

    A step is one transaction of mailing at some time, or a step of another
    subsystem: automations add queued deliveries, accounts and lists change, rows
    go when their subscriber goes.  Steps of several workers and requests
    interleave freely. *)

From S2P Require Import Prelude GoStrings GoTime GoJson AutoGraph Errors AutoEngine AutoStore AutoStoreFacts AutoService AutoEvents.
From S2P Require Import MailToken MailProvider MailStore MailFeedback MailService MailFacts MailOps MailFanout MailRequests MailWorker.
#[local] Open Scope go_scope.

Inductive mail_op : Type :=
| MCreate (principal business : uuid) (input : CampaignInput) (id : uuid)
| MUpdate (principal business campaign : uuid) (input : CampaignUpdate)
| MDelete (principal business campaign : uuid)
| MSend (principal business campaign : uuid) (at_ : option time) (clock : time)
| MCancel (principal business campaign : uuid)
| MArchive (principal business list : uuid)
| MSuppress (principal business : uuid) (email reason : string)
| MUnsuppress (principal business suppression : uuid)
| MUnsubscribe (raw : string)
| MOpen (raw : string)
| MClick (raw : string)
| MBounce (message : string)
| MWebhook (locked : gset uuid) (input : webhook_input)
| MPrune (locked : gset uuid) (limit : Z)
| MClaimCampaigns (locked : gset uuid) (limit : Z)
| MFanout (campaign : uuid) (batch : Z) (domain : string) (newid : uuid -> uuid)
| MClaim (locked : gset uuid) (cancel_first : bool) (limit : Z) (lease : duration)
| MRelease (delivery : uuid) (generation : Z) (not_before : time)
| MRenew (delivery : uuid) (generation : Z) (lease : duration)
| MFail (delivery : uuid) (generation : Z) (err status : string) (not_before : time)
| MComplete (locked : gset uuid) (delivery : uuid) (generation : Z) (provider_id : string)
| MClaimRollups (locked : gset uuid) (token : uuid) (limit seconds : Z)
| MRollup (campaign : uuid)
| MCompleteRollups (token : uuid) (ids : list uuid).

(** The worker's protocol with the rollup queue. *)
Definition rollup_op (op : mail_op) : bool :=
  match op with MClaimRollups _ _ _ _ | MRollup _ | MCompleteRollups _ _ => true | _ => false end.

(** What a new delivery of an automation looks like. *)
Definition automation_delivery (r : delivery_row) : Prop :=
  d_source_kind r = "automation" /\ d_campaign r = None /\ d_template r <> None /\ d_fence r <> None /\
  exists not_before now, d_st r = queued_state not_before now.

(** Deliveries are only added, by automations. *)
Definition enqueue_only (ds ds' : gmap uuid delivery_row) : Prop :=
  ds ⊆ ds' /\ forall id r, ds' !! id = Some r -> ds !! id = Some r \/ (ds !! id = None /\ automation_delivery r).

(** A step of another subsystem. *)
Record outside (m m' : mdb) : Prop := {
  out_deliveries : enqueue_only (m_deliveries m) (m_deliveries m');
  out_one : one_delivery (m_deliveries m');
  out_campaigns : m_campaigns m' = m_campaigns m;
  out_rollups : m_rollups m' = m_rollups m
}.

Section Safety.
Context `{UnicodeTables, UUIDLib, Authz, MailCrypto, EventLib} (codec : Codec) (url_ok : string -> bool).

(** The tables after an operation at the database's time [now]. *)
Definition mail_exec (op : mail_op) (now : time) (m : mdb) : mdb :=
  match op with
  | MCreate p b input id => (CreateCampaign p b input id now m).1
  | MUpdate p b c input => (UpdateCampaign p b c input now m).1
  | MDelete p b c => (DeleteCampaign p b c m).1
  | MSend p b c at_ clock => (SendCampaign p b c at_ clock now m).1
  | MCancel p b c => (CancelCampaign p b c now m).1
  | MArchive p b l => (ArchiveList p b l now m).1
  | MSuppress p b email reason => (CreateSuppression p b email reason now m).1
  | MUnsuppress p b s => (DeleteSuppression p b s m).1
  | MUnsubscribe raw => (Unsubscribe codec raw now m).1
  | MOpen raw => trackOpen codec raw now m
  | MClick raw => (trackClick codec url_ok raw now m).1
  | MBounce message => attempt (mailing_mark_bounced message now) m
  | MWebhook locked i => attempt (mailing_process_provider_webhook locked i now) m
  | MPrune locked limit => (mailing_prune_expired_provider_webhooks locked limit now m).1
  | MClaimCampaigns locked limit => (mailing_claim_campaigns_for_fanout locked limit now m).1
  | MFanout c batch domain newid => attempt (mailing_fanout_batch c batch domain newid now) m
  | MClaim locked first limit lease => (mailing_claim_deliveries locked first limit lease now m).1
  | MRelease id gen nb => (mailing_release_delivery id gen nb now m).1
  | MRenew id gen lease => (mailing_renew_delivery id gen lease now m).1
  | MFail id gen err status nb => attempt (mailing_fail_delivery id gen err status nb now) m
  | MComplete locked id gen p => attempt (mailing_complete_delivery locked id gen p now) m
  | MClaimRollups locked token limit seconds => (mailing_claim_changed_campaign_rollups locked token limit seconds now m).1
  | MRollup c => (mailing_rollup_changed_campaign c now m).1
  | MCompleteRollups token ids => (mailing_complete_changed_campaign_rollups token ids m).1
  end.

Inductive mail_step (m : mdb) : mdb -> Prop :=
| step_op op now : mail_step m (mail_exec op now m)
| step_outside m' : outside m m' -> mail_step m m'.

Lemma attempt_good {A : Type} (f : mdb -> result error (mdb * A)) (m : mdb) :
  (forall m' a, f m = Ok (m', a) -> good m m') -> good m (attempt f m).
Proof. intros Hf. unfold attempt. destruct (f m) as [[m' a]|]; [by eapply Hf|reflexivity]. Qed.

Create HintDb mail.
#[local] Hint Resolve CreateCampaign_good UpdateCampaign_good SendCampaign_good CancelCampaign_good ArchiveList_good
  CreateSuppression_good DeleteSuppression_good Unsubscribe_good trackOpen_good trackClick_good prune_good
  claim_campaigns_good claim_deliveries_good release_good renew_good claim_rollups_requeue rollup_good
  complete_rollups_requeue : mail.
(** An operation keeps every row and its rows evolve, unless it deletes a campaign. *)
Lemma mail_exec_good (op : mail_op) (now : time) (m : mdb) :
  good m (mail_exec op now m) \/ (mail_ok m -> mail_ok (mail_exec op now m) /\ removal m (mail_exec op now m)) \/
  (rollup_op op = true /\ requeue m (mail_exec op now m)).
Proof.
  destruct op; try (left; solve [cbn [mail_exec]; auto with mail]);
    try (right; right; split; [done|]; solve [cbn [mail_exec]; auto with mail]);
    [right; left; apply DeleteCampaign_ok|left; apply attempt_good; intros m' a..].
  - apply mark_bounced_good.
  - apply process_webhook_good.
  - apply fanout_batch_good.
  - apply fail_good.
  - apply complete_good.
Qed.

Lemma outside_ok (m m' : mdb) : outside m m' -> mail_ok m -> mail_ok m'.
Proof.
  intros [[_ Hd] Hone Hc Hr] [H1' H2' H3' H4' H5']. split; rewrite ?Hc, ?Hr; try done.
  - intros id r Hl. destruct (Hd _ _ Hl) as [Hl'|(_ & Ha & Hb & Ht & Hf & nb & now & Hst)]; [by eapply H2'|].
    split; [by right|]. rewrite Hst. apply queued_ok.
  - intros id r c Hl Hk. destruct (Hd _ _ Hl) as [Hl'|(_ & _ & Hb & _)]; [by eapply H3'|]. congruence.
  - intros c x Hx. destruct (H4' _ _ Hx) as [? ? ? ? Hsent]. split; try done. intros Hs.
    destruct (Hsent Hs) as (? & ? & Hdr). split_and!; [done..|]. rewrite drained_true in Hdr |- *. intros id r Hl Hk.
    destruct (Hd _ _ Hl) as [Hl'|(_ & _ & Hb & _)]; [by eapply Hdr|]. congruence.
Qed.

(** One step: the invariant, and what becomes of the rows that are still there. *)
Lemma mail_step_ok (m m' : mdb) :
  mail_step m m' -> mail_ok m ->
  mail_ok m' /\
  (forall id r r', m_deliveries m !! id = Some r -> m_deliveries m' !! id = Some r' -> d_evolved r r') /\
  (forall c x x', m_campaigns m !! c = Some x -> m_campaigns m' !! c = Some x' -> c_evolved x x').
Proof.
  intros [op now|m2 Hout] Hok.
  - destruct (mail_exec_good op now m) as [Hg|[Hg|[_ Hg]]].
    + destruct (Hg Hok) as [Hok' [_ _ Hd Hc]]. split_and!; [done|..].
      * intros id r r' Hl Hl'. destruct (Hd _ _ Hl) as (r2 & Hl2 & He). congruence.
      * intros c x x' Hl Hl'. destruct (Hc _ _ Hl) as (x2 & Hl2 & He). congruence.
    + destruct (Hg Hok) as [Hok' (Hd & Hc & _)]. split_and!; [done|..].
      * intros id r r' Hl Hl'. eapply lookup_weaken in Hl'; [|exact Hd]. rewrite Hl in Hl'. injection Hl' as <-. reflexivity.
      * intros c x x' Hl Hl'. eapply lookup_weaken in Hl'; [|exact Hc]. rewrite Hl in Hl'. injection Hl' as <-. reflexivity.
    + split_and!; [by eapply requeue_ok|..]; destruct Hg as [-> _]; simpl; intros k v v' Hl Hl'; rewrite Hl in Hl';
        injection Hl' as <-; reflexivity.
  - split_and!; [by eapply outside_ok|..].
    + intros id r r' Hl Hl'. destruct (out_deliveries _ _ Hout) as [_ Hout']. destruct (Hout' _ _ Hl') as [Hl2|[Hn _]]; [|congruence].
      rewrite Hl in Hl2. injection Hl2 as <-. reflexivity.
    + rewrite (out_campaigns _ _ Hout). intros c x x' Hl Hl'. rewrite Hl in Hl'. injection Hl' as <-. reflexivity.
Qed.

Lemma mail_reachable_ok (m m' : mdb) : rtc mail_step m m' -> mail_ok m -> mail_ok m'.
Proof. intros Hr. induction Hr as [|m m1 m' Hs _ IH]; [done|]. intros Hok. by apply IH, (mail_step_ok m m1 Hs). Qed.

(** Steps that keep a delivery, or a campaign. *)
Definition keeps_delivery (id : uuid) (m m' : mdb) : Prop := mail_step m m' /\ is_Some (m_deliveries m' !! id).
Definition keeps_campaign (c : uuid) (m m' : mdb) : Prop := mail_step m m' /\ is_Some (m_campaigns m' !! c).

Lemma delivery_history (id : uuid) (m m' : mdb) (r : delivery_row) :
  mail_ok m -> rtc (keeps_delivery id) m m' -> m_deliveries m !! id = Some r ->
  mail_ok m' /\ exists r', m_deliveries m' !! id = Some r' /\ d_evolved r r'.
Proof.
  intros Hok Hr. revert r Hok. induction Hr as [m|m m1 m' [Hs [r1 Hr1]] _ IH]; intros r Hok Hl.
  - split; [done|]. exists r. split; [done|reflexivity].
  - destruct (mail_step_ok m m1 Hs Hok) as (Hok1 & Hd & _). destruct (IH _ Hok1 Hr1) as (Hok' & r' & Hl' & He). split; [done|].
    exists r'. split; [done|]. etransitivity; [by eapply Hd|done].
Qed.

Lemma campaign_history (c : uuid) (m m' : mdb) (x : campaign_row) :
  mail_ok m -> rtc (keeps_campaign c) m m' -> m_campaigns m !! c = Some x ->
  mail_ok m' /\ exists x', m_campaigns m' !! c = Some x' /\ c_evolved x x'.
Proof.
  intros Hok Hr. revert x Hok. induction Hr as [m|m m1 m' [Hs [x1 Hx1]] _ IH]; intros x Hok Hl.
  - split; [done|]. exists x. split; [done|reflexivity].
  - destruct (mail_step_ok m m1 Hs Hok) as (Hok1 & _ & Hd). destruct (IH _ Hok1 Hx1) as (Hok' & x' & Hl' & He). split; [done|].
    exists x'. split; [done|]. etransitivity; [by eapply Hd|done].
Qed.
End Safety.
