(* ===== verification/MailRollup.v ===== *)
(** * The rollup queue: no change of a counter is lost

    Workers claim queued campaigns under a token of their own, recompute the
    counters, and remove what they have recomputed.  A delivery that changes in
    between queues its campaign again and takes the claim away, so the worker's
    removal misses it. *)

From S2P Require Import Prelude GoStrings GoTime GoJson AutoGraph Errors AutoEngine AutoStore AutoStoreFacts AutoService AutoEvents.
From S2P Require Import MailToken MailProvider MailStore MailFeedback MailService MailFacts MailOps MailFanout MailRequests MailWorker MailSafety.
From stdpp Require Import sorting.
#[local] Open Scope go_scope.

(** [rs_done]: which campaigns the worker of which token has recomputed. *)
Record rsys := { rs_db : mdb; rs_done : gset (uuid * uuid) }.

Section Rollup.
Context `{UnicodeTables, UUIDLib, Authz, MailCrypto, EventLib} (codec : Codec) (url_ok : string -> bool).

(** A worker draws a token that has not been used, and completes only what it has
    recomputed under it. *)
Inductive rollup_step (s : rsys) : rsys -> Prop :=
| rs_op op now : rollup_op op = false ->
    rollup_step s {| rs_db := mail_exec codec url_ok op now (rs_db s); rs_done := rs_done s |}
| rs_outside m' : outside (rs_db s) m' -> rollup_step s {| rs_db := m'; rs_done := rs_done s |}
| rs_claim locked token limit seconds now m' ids :
    (forall c, (token, c) ∉ rs_done s) ->
    mailing_claim_changed_campaign_rollups locked token limit seconds now (rs_db s) = (m', ids) ->
    rollup_step s {| rs_db := m'; rs_done := rs_done s |}
| rs_rollup token c now m' :
    mailing_rollup_changed_campaign c now (rs_db s) = (m', true) ->
    rollup_step s {| rs_db := m'; rs_done := {[ (token, c) ]} ∪ rs_done s |}
| rs_complete token ids m' n :
    (forall c, c ∈ ids -> (token, c) ∈ rs_done s) ->
    mailing_complete_changed_campaign_rollups token ids (rs_db s) = (m', n) ->
    rollup_step s {| rs_db := m'; rs_done := rs_done s |}.

(** Counters are right or the campaign is queued; what a worker has recomputed and
    still holds is right. *)
Record rollup_inv (s : rsys) : Prop := {
  ri_ok : mail_ok (rs_db s);
  ri_queued : forall c x, m_campaigns (rs_db s) !! c = Some x -> clean (rs_db s) c x \/ is_Some (m_rollups (rs_db s) !! c);
  ri_held : forall c x q t l, m_campaigns (rs_db s) !! c = Some x -> m_rollups (rs_db s) !! c = Some q ->
    rq_claim q = Some (t, l) -> (t, c) ∈ rs_done s -> clean (rs_db s) c x
}.

(** A campaign the step has not touched, or queued. *)
Definition tracked_at (m m' : mdb) (c : uuid) : Prop :=
  requeued m' c \/
  (m_rollups m' !! c = m_rollups m !! c /\
   forall x', m_campaigns m' !! c = Some x' -> (forall x, m_campaigns m !! c = Some x -> clean m c x) -> clean m' c x').

Lemma tracked_inv (s : rsys) (m' : mdb) :
  rollup_inv s -> mail_ok m' -> (forall c, is_Some (m_campaigns m' !! c) -> tracked_at (rs_db s) m' c) ->
  rollup_inv {| rs_db := m'; rs_done := rs_done s |}.
Proof.
  intros [Hok Hq Hh] Hok' Ht. split; simpl; [done|..].
  - intros c x' Hx'. destruct (Ht c) as [(q & Hl & _)|[Hr Hc]]; [by eexists|right; by eexists|].
    destruct (m_campaigns (rs_db s) !! c) as [x|] eqn:Hx; [|left; apply Hc; congruence].
    destruct (Hq _ _ Hx) as [Hcl|?]; [left; apply Hc; [done|]; congruence|]. right. by rewrite Hr.
  - intros c x' q t l Hx' Hl Hcl Hin. destruct (Ht c) as [(q' & Hl' & Hn)|[Hr Hc]]; [by eexists|congruence|].
    apply Hc; [done|]. intros x Hx. rewrite Hr in Hl. by eapply Hh.
Qed.

Lemma outside_tracked (m m' : mdb) : outside m m' -> mail_ok m -> tracked m m'.
Proof.
  intros [[Hsub Hd] _ Hc Hr] _ c. right. rewrite Hr, Hc. split; [done|]. intros x Hx Hcl.
  apply (clean_same c m m' x x); [|done|by apply Hcl]. intros id r Hrc. split; [intros Hl; by eapply lookup_weaken|]. intros Hl.
  destruct (Hd _ _ Hl) as [?|(_ & _ & Hn & _)]; [done|congruence].
Qed.

Lemma op_tracked (op : mail_op) (now : time) (m : mdb) :
  rollup_op op = false -> mail_ok m ->
  mail_ok (mail_exec codec url_ok op now m) /\
  forall c, is_Some (m_campaigns (mail_exec codec url_ok op now m) !! c) -> tracked_at m (mail_exec codec url_ok op now m) c.
Proof.
  intros Hop Hok. destruct (mail_exec_good codec url_ok op now m) as [Hg|[Hg|Hg]].
  - destruct (Hg Hok) as [Hok' [_ Ht _ _]]. split; [done|]. intros c _. apply Ht.
  - destruct (Hg Hok) as [Hok' (_ & Hsub & _ & Hun)]. split; [done|]. intros c Hc. destruct (Hun c Hc) as [Hr Hs]. right.
    split; [done|]. intros x Hx Hcl. apply (clean_same c m _ x x); [done..|]. apply Hcl. by eapply lookup_weaken.
  - destruct Hg as [Hg _]. congruence.
Qed.

Lemma claim_rollups_spec (locked : gset uuid) (token : uuid) (limit seconds : Z) (now : time) (m m' : mdb) (ids : list uuid) :
  mailing_claim_changed_campaign_rollups locked token limit seconds now m = (m', ids) ->
  m' = set_rollups (m_rollups m') m /\
  forall c, m_rollups m' !! c = m_rollups m !! c \/
    exists q q' l, m_rollups m !! c = Some q /\ m_rollups m' !! c = Some q' /\ rq_claim q' = Some (token, l).
Proof.
  unfold mailing_claim_changed_campaign_rollups. cbn zeta. intros [= <- _]. split; [done|]. simpl.
  pose proof (fun c x => batch_elem rollup_before (fun x => unlocked locked (fst x) && rollup_due m now (snd x))
    (batch_limit limit 1 100) (m_rollups m) c x) as Hel.
  unfold batch in Hel. set (xs := take _ _) in *. clearbody xs. set (lease := (now + _)%Z). intros c.
  assert (Hgen : forall qs : gmap uuid rollup_row,
    (qs !! c = m_rollups m !! c \/ exists q q' l, m_rollups m !! c = Some q /\ qs !! c = Some q' /\ rq_claim q' = Some (token, l)) ->
    let qs' := fold_left (fun q x => <[fst x := claim_rollup token lease (snd x)]> q) xs qs in
    qs' !! c = m_rollups m !! c \/ exists q q' l, m_rollups m !! c = Some q /\ qs' !! c = Some q' /\ rq_claim q' = Some (token, l));
    [|apply Hgen; by left].
  induction xs as [|[k x] xs IH]; intros qs Hqs; [exact Hqs|]. simpl. apply IH; [intros; apply Hel; by right|].
  rewrite lookup_insert. case_decide as Hk; [|exact Hqs]. subst k. right. exists x. eexists _, lease.
  split; [by apply (Hel c x); left|done].
Qed.

Lemma rollup_clean (c : uuid) (now : time) (m m' : mdb) :
  mailing_rollup_changed_campaign c now m = (m', true) ->
  m_rollups m' = m_rollups m /\ (forall k, k <> c -> m_campaigns m' !! k = m_campaigns m !! k) /\ m_deliveries m' = m_deliveries m /\
  exists x', m_campaigns m' !! c = Some x' /\ cm_counts x' = counted m' c.
Proof.
  unfold mailing_rollup_changed_campaign. destruct (m_campaigns m !! c) as [x|] eqn:Hx; [|done]. destruct (negb _); [done|]. cbn zeta.
  destruct (_ && _ && bool_decide (_ = _ || _)) eqn:Hsame; intros [= <-].
  - split_and!; [done..|]. exists x. split; [done|]. apply andb_true_iff in Hsame as [[Hk _]%andb_true_iff _].
    by apply bool_decide_eq_true in Hk.
  - split_and!; try done.
    + intros k Hk. simpl. by rewrite lookup_insert_ne.
    + simpl. rewrite lookup_insert_eq. by eexists.
Qed.

Lemma rollup_step_inv (s s' : rsys) : rollup_step s s' -> rollup_inv s -> rollup_inv s'.
Proof.
  intros Hs Hinv. pose proof Hinv as [Hok Hq Hh]. destruct Hs as [op now Hop|m' Hout|locked token limit seconds now m' ids Hnew Hcl
    |token c now m' Hr|token ids m' n Hids Hcp].
  - destruct (op_tracked op now _ Hop Hok) as [Hok' Ht]. by apply tracked_inv.
  - apply tracked_inv; [done|by eapply outside_ok|]. intros c _. by apply outside_tracked.
  - pose proof (claim_rollups_requeue locked token limit seconds now (rs_db s)) as Hrq. rewrite Hcl in Hrq. simpl in Hrq.
    apply claim_rollups_spec in Hcl as [Hm' Hcl]. split; simpl; [by eapply requeue_ok|..].
    + rewrite Hm'. simpl. intros c x Hx. destruct (Hq _ _ Hx) as [?|Hsome]; [by left|right].
      destruct (Hcl c) as [->|(q & q' & l & _ & -> & _)]; [done|by eexists].
    + intros c x q t l Hx Hl Hc Hin. assert (m_campaigns (rs_db s) !! c = Some x) as Hx' by by rewrite Hm' in Hx.
      cut (clean (rs_db s) c x); [by rewrite Hm'|]. destruct (Hcl c) as [He|(q0 & q' & l' & _ & Hl' & Hc')].
      * rewrite He in Hl. by eapply Hh.
      * assert (t = token) as -> by congruence. by destruct (Hnew c).
  - pose proof (rollup_good c now (rs_db s)) as Hg. rewrite Hr in Hg. destruct (Hg Hok) as [Hok' [_ Ht _ _]].
    apply rollup_clean in Hr as (Hroll & Hother & Hd & x' & Hx' & Hk).
    assert (rollup_inv {| rs_db := m'; rs_done := rs_done s |}) as [_ Hq' Hh'] by (apply tracked_inv; [done..|]; intros k _; apply Ht).
    split; simpl; [done|done|]. intros k x q t l Hx Hl Hc. rewrite elem_of_union, elem_of_singleton. intros [[= -> ->]|Hin].
    + rewrite Hx' in Hx. injection Hx as <-. unfold clean. by rewrite Hk.
    + by eapply Hh'.
  - pose proof (complete_rollups_requeue token ids (rs_db s)) as Hrq. rewrite Hcp in Hrq. simpl in Hrq.
    unfold mailing_complete_changed_campaign_rollups in Hcp. cbn zeta in Hcp. injection Hcp as <- _.
    split; simpl; [by eapply requeue_ok|..].
    + intros c x Hx. rewrite lookup_mdelete. destruct (Hq _ _ Hx) as [?|[q Hl]]; [by left|]. rewrite Hl. simpl.
      destruct (rq_claim q) as [[t l]|] eqn:Hc; simpl; [|right; by eexists]. destruct (N.eqb t token) eqn:Ht; [|right; by eexists].
      apply N.eqb_eq in Ht as ->. case_bool_decide as Hin; [|right; by eexists]. left. eapply Hh; eauto.
    + intros c x q t l Hx Hl Hc Hin. apply lookup_mdelete_Some in Hl as [Hl _]. by eapply Hh.
Qed.

Lemma rollup_reachable (s s' : rsys) : rtc rollup_step s s' -> rollup_inv s -> rollup_inv s'.
Proof. intros Hr. induction Hr as [|s s1 s' Hs _ IH]; [done|]. intros Hinv. by eapply IH, rollup_step_inv. Qed.

(** ** The worker's pass

    [rollupChangedCampaigns] with the rest of the system between its transactions. *)

Definition others_roll (others : nat -> mdb -> mdb) : Prop :=
  forall n s, exists s', rtc rollup_step s s' /\ rs_db s' = others n (rs_db s).

Lemma done_kept (s s' : rsys) : rtc rollup_step s s' -> rs_done s ⊆ rs_done s'.
Proof.
  induction 1 as [s|s s1 s' Hs _ IH]; [done|]. etrans; [|exact IH]. destruct Hs; simpl; try done. apply union_subseteq_r.
Qed.

Lemma rollup_refused (c : uuid) (now : time) (m m' : mdb) :
  mailing_rollup_changed_campaign c now m = (m', false) -> m' = m.
Proof.
  unfold mailing_rollup_changed_campaign. destruct (m_campaigns m !! c) as [x|]; [|by intros [= <-]].
  destruct (negb _); [by intros [= <-]|]. cbn zeta. by destruct (_ && _ && _).
Qed.

Lemma rollup_same_counts (c : uuid) (now : time) (m m' : mdb) (ok : bool) :
  mailing_rollup_changed_campaign c now m = (m', ok) -> m_db m' = m_db m /\ forall k, counted m' k = counted m k.
Proof.
  unfold mailing_rollup_changed_campaign. destruct (m_campaigns m !! c) as [x|]; [|by intros [= <- _]].
  destruct (negb _); [by intros [= <- _]|]. cbn zeta. by destruct (_ && _ && _); intros [= <- _].
Qed.

(** The rollups of a pass, as steps. *)
Lemma rollup_each_run (others : nat -> mdb -> mdb) (token : uuid) (now : time) (ids : list uuid) (n : nat) (s : rsys)
    (m' : mdb) (processed : list uuid) :
  others_roll others -> rollup_each others n ids now (rs_db s) = (m', processed) ->
  exists s', rtc rollup_step s s' /\ rs_db s' = m' /\ forall c, c ∈ processed -> (token, c) ∈ rs_done s'.
Proof.
  intros Hot. revert n s processed. induction ids as [|c ids IH]; intros n s processed; simpl.
  { intros [= <- <-]. exists s. split_and!; [done|done|]. intros c Hc. by apply not_elem_of_nil in Hc. }
  destruct (Hot n s) as (s1 & Hs1 & Hd1). rewrite <- Hd1.
  destruct (mailing_rollup_changed_campaign c now (rs_db s1)) as [m1 ok] eqn:Hr.
  destruct (rollup_each others (S n) ids now m1) as [m2 rest] eqn:Hrest. intros [= <- <-].
  assert (exists s2, rtc rollup_step s s2 /\ rs_db s2 = m1 /\ (ok = true -> (token, c) ∈ rs_done s2)) as (s2 & Hs2 & Hd2 & Hok).
  { destruct ok.
    - exists {| rs_db := m1; rs_done := {[ (token, c) ]} ∪ rs_done s1 |}. split_and!; [|done|set_solver].
      eapply rtc_r; [exact Hs1|]. by eapply rs_rollup.
    - exists s1. assert (m1 = rs_db s1) as -> by by eapply rollup_refused. done. }
  rewrite <- Hd2 in Hrest. destruct (IH _ _ _ Hrest) as (s3 & Hs3 & Hd3 & Hp). exists s3. split_and!; [by etrans|done|].
  intros k Hk. pose proof (done_kept _ _ Hs3) as Hkept. destruct ok; [|by apply Hp].
  apply elem_of_cons in Hk as [->|Hk]; [by apply Hkept, Hok|by apply Hp].
Qed.

Lemma pass_run (w : SendWorker) (locked : gset uuid) (token : uuid) (now : time) (others : nat -> mdb -> mdb) (s : rsys) :
  others_roll others -> (forall c, (token, c) ∉ rs_done s) ->
  exists s', rtc rollup_step s s' /\ rs_db s' = rollupChangedCampaigns w locked token now others (rs_db s).
Proof.
  intros Hot Hnew. unfold rollupChangedCampaigns.
  destruct (mailing_claim_changed_campaign_rollups _ _ _ _ _ _) as [m1 ids] eqn:Hc.
  destruct (rollup_each others 0 ids now m1) as [m2 processed] eqn:Hr.
  set (s1 := {| rs_db := m1; rs_done := rs_done s |}).
  assert (Hs1 : rollup_step s s1) by by eapply rs_claim.
  destruct (rollup_each_run others token now ids 0 s1 m2 processed Hot Hr) as (s2 & Hs2 & <- & Hp).
  destruct (Hot (length ids) s2) as (s3 & Hs3 & <-). pose proof (done_kept _ _ Hs3) as Hkept.
  assert (Hrun : rtc rollup_step s s3) by (eapply rtc_l; [exact Hs1|]; by etrans).
  destruct processed as [|c l]; [by exists s3|].
  exists {| rs_db := (mailing_complete_changed_campaign_rollups token (c :: l) (rs_db s3)).1; rs_done := rs_done s3 |}.
  split; [|done]. eapply rtc_r; [exact Hrun|]. eapply rs_complete; [|apply surjective_pairing]. intros k Hk. by apply Hkept, Hp.
Qed.

(** An undisturbed pass recomputes what it claimed and takes it off the queue. *)
Lemma rollup_each_exact (now : time) (ids : list uuid) (n : nat) (m m' : mdb) (processed : list uuid) :
  NoDup ids -> (forall c, c ∈ ids -> exists x, m_campaigns m !! c = Some x /\ root_write_allowed (m_db m) (cm_root x) = true) ->
  rollup_each undisturbed n ids now m = (m', processed) ->
  processed = ids /\ m_rollups m' = m_rollups m /\ (forall c, counted m' c = counted m c) /\
  (forall c, c ∉ ids -> m_campaigns m' !! c = m_campaigns m !! c) /\
  forall c, c ∈ ids -> exists x, m_campaigns m' !! c = Some x /\ cm_counts x = counted m c.
Proof.
  revert n m processed. induction ids as [|c ids IH]; intros n m processed; simpl.
  { intros _ _ [= <- <-]. split_and!; try done. intros c Hc. by apply not_elem_of_nil in Hc. }
  intros [Hn Hnd]%NoDup_cons Hall. unfold undisturbed at 1. destruct (Hall c) as (x & Hx & Hroot); [by left|].
  destruct (mailing_rollup_changed_campaign c now m) as [m1 ok] eqn:Hr.
  destruct (rollup_each undisturbed (S n) ids now m1) as [m2 rest] eqn:Hrest. intros [= <- <-].
  assert (ok = true) as ->.
  { unfold mailing_rollup_changed_campaign in Hr. rewrite Hx, Hroot in Hr. simpl in Hr. destruct (_ && _ && _); congruence. }
  pose proof (rollup_same_counts _ _ _ _ _ Hr) as [Hdb Hcnt].
  apply rollup_clean in Hr as (Hroll & Hother & Hd & x' & Hx' & Hk).
  apply IH in Hrest as (-> & Hroll' & Hcnt' & Hother' & Hids); [|done|].
  - split_and!; [done|congruence| | |].
    + intros k. by rewrite Hcnt', Hcnt.
    + intros k Hk'. rewrite not_elem_of_cons in Hk'. rewrite Hother', Hother; naive_solver.
    + intros k Hk'. apply elem_of_cons in Hk' as [->|Hk'].
      * exists x'. rewrite Hother' by done. split; [done|]. by rewrite Hk, Hcnt.
      * destruct (Hids k Hk') as (y & Hy & Hyc). exists y. by rewrite Hyc, Hcnt.
  - intros k Hk'. destruct (Hall k) as (y & Hy & Hyr); [by right|]. exists y. rewrite Hother by congruence. by rewrite Hdb.
Qed.

(** The campaigns a pass claims. *)
Definition pass_claims (w : SendWorker) (locked : gset uuid) (token : uuid) (now : time) (m : mdb) : list uuid :=
  (mailing_claim_changed_campaign_rollups locked token (rollup_limit w) rollupLeaseSeconds now m).2.

Lemma claimed_rollup_row (token : uuid) (lease : time) (xs : list (uuid * rollup_row)) (qs : gmap uuid rollup_row)
    (k : uuid) (q : rollup_row) :
  NoDup (map fst xs) -> (k, q) ∈ xs ->
  fold_left (fun q x => <[fst x := claim_rollup token lease (snd x)]> q) xs qs !! k = Some (claim_rollup token lease q).
Proof.
  assert (Hout : forall xs qs, k ∉ map fst xs ->
    fold_left (fun q x => <[fst x := claim_rollup token lease (snd x)]> q) xs qs !! k = (qs : gmap uuid rollup_row) !! k).
  { clear. induction xs as [|[j y] xs IH]; intros qs Hk; simpl in *; [done|]. rewrite not_elem_of_cons in Hk.
    rewrite IH by naive_solver. apply lookup_insert_ne. naive_solver. }
  revert qs. induction xs as [|[j y] xs IH]; intros qs Hnd Hk; [by apply not_elem_of_nil in Hk|]. simpl in *.
  apply NoDup_cons in Hnd as [Hn Hnd]. apply elem_of_cons in Hk as [[= -> ->]|Hk]; [|by apply IH].
  rewrite Hout by done. apply lookup_insert_eq.
Qed.

Lemma pass_claims_spec (w : SendWorker) (locked : gset uuid) (token : uuid) (now : time) (m : mdb) :
  let m1 := (mailing_claim_changed_campaign_rollups locked token (rollup_limit w) rollupLeaseSeconds now m).1 in
  NoDup (pass_claims w locked token now m) /\
  forall c, c ∈ pass_claims w locked token now m ->
    exists q q' l, m_rollups m !! c = Some q /\ rollup_due m now q = true /\
      m_rollups m1 !! c = Some q' /\ rq_claim q' = Some (token, l).
Proof.
  unfold pass_claims, mailing_claim_changed_campaign_rollups. cbn zeta. simpl.
  pose proof (fun c x => batch_elem rollup_before (fun x => unlocked locked (fst x) && rollup_due m now (snd x))
    (batch_limit (rollup_limit w) 1 100) (m_rollups m) c x) as Hel.
  pose proof (batch_nodup rollup_before (fun x => unlocked locked (fst x) && rollup_due m now (snd x))
    (batch_limit (rollup_limit w) 1 100) (m_rollups m)) as Hnd.
  unfold batch in Hel, Hnd. set (xs := take _ _) in *. clearbody xs. set (lease := (now + _)%Z). clearbody lease.
  split; [done|]. intros c Hc. apply list_elem_of_fmap in Hc as ([k q] & -> & Hc). simpl.
  destruct (Hel k q Hc) as [Hq [_ Hdue]%andb_true_iff]. exists q, (claim_rollup token lease q), lease. split_and!; try done.
  by apply claimed_rollup_row.
Qed.

Lemma pass_exact (w : SendWorker) (locked : gset uuid) (token : uuid) (now : time) (m : mdb) (c : uuid) :
  mail_ok m -> c ∈ pass_claims w locked token now m ->
  let m' := rollupChangedCampaigns w locked token now undisturbed m in
  m_rollups m' !! c = None /\ exists x, m_campaigns m' !! c = Some x /\ cm_counts x = counted m' c.
Proof.
  intros Hok Hc. cbv zeta. destruct (pass_claims_spec w locked token now m) as [Hnd Hspec].
  unfold rollupChangedCampaigns, pass_claims in *.
  destruct (mailing_claim_changed_campaign_rollups _ _ _ _ _ _) as [m1 ids] eqn:Hcl. simpl in *.
  apply claim_rollups_spec in Hcl as [Hm1 _].
  assert (Hdb : m_db m1 = m_db m) by by rewrite Hm1.
  assert (Hcs : m_campaigns m1 = m_campaigns m) by by rewrite Hm1.
  destruct (rollup_each undisturbed 0 ids now m1) as [m2 processed] eqn:Hr.
  apply rollup_each_exact in Hr as (-> & Hroll & Hcnt & _ & Hids); [|done|].
  2:{ intros k Hk. destruct (Hspec k Hk) as (q & _ & _ & Hq & Hdue & _).
      destruct (ok_rollups m Hok k q Hq) as (x & Hx & _ & Hrt). exists x. rewrite Hcs, Hdb, Hrt. split; [done|].
      by apply andb_true_iff in Hdue as [_ ?]. }
  destruct (Hids c Hc) as (x & Hx & Hk). destruct (Hspec c Hc) as (q & q' & l & _ & _ & Hq' & Hcl').
  unfold undisturbed. destruct ids as [|i ids]; [by apply not_elem_of_nil in Hc|].
  unfold mailing_complete_changed_campaign_rollups. cbn zeta. cbn [fst]. split.
  - simpl. rewrite lookup_mdelete, Hroll, Hq'. simpl. rewrite Hcl', N.eqb_refl. by rewrite bool_decide_eq_true_2.
  - exists x. split; [done|]. rewrite Hk. symmetry. exact (Hcnt c).
Qed.
End Rollup.
