(* ===== verification/MailSend.v ===== *)
(** * What the worker sends

    Every mail of a cycle is sent while the worker holds the claim of its delivery
    and the delivery may be sent; following the link in it stops the mail.  A
    campaign that has ended sends nothing more. *)

From S2P Require Import Prelude GoStrings GoTime GoJson AutoGraph Errors AutoEngine AutoStore AutoStoreFacts AutoStepper AutoService AutoEvents.
From S2P Require Import MailToken MailProvider MailStore MailFeedback MailService MailFacts MailOps MailFanout MailRequests MailWorker MailSafety.
From stdpp Require Import sorting.
#[local] Open Scope go_scope.

(** ** No operation on a claimed delivery adds rows *)

(** Every row was there before and has evolved. *)
Definition no_new (m m' : mdb) : Prop := dom (m_deliveries m') ⊆ dom (m_deliveries m).

#[local] Instance no_new_preorder : PreOrder no_new.
Proof. unfold no_new. split; [by intros m|]. intros a b c. set_solver. Qed.

Lemma no_new_put (now : time) (id : uuid) (r r' : delivery_row) (m : mdb) :
  m_deliveries m !! id = Some r -> no_new m (put_delivery now id r' m).
Proof.
  intros Hr. unfold no_new. destruct (put_deliveries_db now id r' m) as [-> _]. rewrite dom_insert.
  assert (id ∈ dom (m_deliveries m)) by by eapply elem_of_dom_2. set_solver.
Qed.

Lemma no_new_same (m m' : mdb) : same_core m m' -> no_new m m'.
Proof. intros (_ & Hd & _). unfold no_new. by rewrite Hd. Qed.

Section Claimed.
Context `{UnicodeTables, UUIDLib, MailCrypto}.

Lemma release_no_new id g nb now m : no_new m (mailing_release_delivery id g nb now m).1.
Proof.
  unfold mailing_release_delivery. destruct (if_claimed m id g) as [r|] eqn:Hr; [|reflexivity].
  apply if_claimed_some in Hr as [Hr _]. by eapply no_new_put.
Qed.

Lemma renew_no_new id g lease now m : no_new m (mailing_renew_delivery id g lease now m).1.
Proof.
  unfold mailing_renew_delivery. destruct (if_claimed m id g) as [r|] eqn:Hr; [|reflexivity].
  destruct (may_send m r); [|reflexivity]. apply if_claimed_some in Hr as [Hr _]. by eapply no_new_put.
Qed.

Lemma fail_no_new id g err status nb now m m' b :
  mailing_fail_delivery id g err status nb now m = Ok (m', b) -> no_new m m'.
Proof.
  unfold mailing_fail_delivery. destruct (if_claimed m id g) as [r|] eqn:Hr.
  - apply if_claimed_some in Hr as [Hr _]. repeat (destruct (String.eqb status _)); intros He; try discriminate He;
      injection He as <- _; by eapply no_new_put.
  - repeat (destruct (String.eqb status _)); intros He; try discriminate He; injection He as <- _; reflexivity.
Qed.

Lemma apply_event_no_new w profile external e now m :
  no_new m (mailing_apply_provider_event_internal w profile external e now m).1.
Proof.
  unfold mailing_apply_provider_event_internal. destruct (correlated m profile e) as [[id r]|] eqn:Hc; [|reflexivity].
  apply correlated_some in Hc as (Hr & _). destruct (provider_event_seen _ _ _); [reflexivity|]. cbn zeta. cbn [fst].
  set (m1 := put_delivery _ _ _ _). transitivity m1; [by eapply no_new_put|]. clearbody m1. apply no_new_same.
  destruct (is_negative _); [|repeat split]. etransitivity; [|apply demote_core]. repeat split.
Qed.

Lemma apply_events_no_new w profile external es now m m' :
  apply_events w profile external es now m = Ok m' -> no_new m m'.
Proof.
  revert m. induction es as [|e es IH]; intros m; simpl; [intros [= <-]; reflexivity|].
  pose proof (apply_event_no_new w profile external e now m) as Hg.
  destruct (mailing_apply_provider_event_internal _ _ _ _ _ _) as [m1 [|]]; [|done]. intros Hes.
  etransitivity; [exact Hg|by apply IH].
Qed.

Lemma apply_webhook_no_new w now m m' b : mailing_apply_pending_webhook w now m = Ok (m', b) -> no_new m m'.
Proof.
  unfold mailing_apply_pending_webhook. destruct (m_webhooks m !! w) as [row|]; [|intros [= <- _]; reflexivity].
  destruct (wh_applied row); [intros [= <- _]; reflexivity|]. destruct (_ <=? _)%Z; [intros [= <- _]; by apply no_new_same|].
  destruct (existsb _ _); [intros [= <- _]; reflexivity|].
  destruct (apply_events _ _ _ _ _ _) as [m1|] eqn:He; [|done]. cbn [result_bind]. intros [= <- _].
  etransitivity; [by eapply apply_events_no_new|by apply no_new_same].
Qed.

Lemma apply_webhooks_no_new ids now m m' : apply_webhooks ids now m = Ok m' -> no_new m m'.
Proof.
  revert m. induction ids as [|w ids IH]; intros m; simpl; [intros [= <-]; reflexivity|].
  destruct (mailing_apply_pending_webhook w now m) as [[m1 b]|] eqn:Hw; [|done]. cbn [result_bind]. intros Hes.
  etransitivity; [by eapply apply_webhook_no_new|by apply IH].
Qed.

Lemma complete_no_new locked id g p now m m' b :
  mailing_complete_delivery locked id g p now m = Ok (m', b) -> no_new m m'.
Proof.
  unfold mailing_complete_delivery. destruct (if_claimed _ _ _) as [r|] eqn:Hr; [|intros [= <- _]; reflexivity].
  apply if_claimed_some in Hr as (Hr & Hs & _). cbn zeta. set (m1 := put_delivery _ _ _ _). set (m2 := set_webhooks _ m1).
  destruct (apply_webhooks _ _ _) as [m3|] eqn:Hw; [|done]. cbn [result_bind]. intros [= <- _]. transitivity m1; [|transitivity m2].
  - by eapply no_new_put.
  - by apply no_new_same.
  - by eapply apply_webhooks_no_new.
Qed.

(** ** What the worker knows of a claimed delivery *)

(** Rows of [used] identifiers were there before. *)
Definition steady_change (used : uuid -> Prop) (m m' : mdb) : Prop :=
  mail_ok m -> mail_ok m' /\
  forall id r', used id -> m_deliveries m' !! id = Some r' -> exists r, m_deliveries m !! id = Some r /\ d_evolved r r'.

#[local] Instance steady_preorder (used : uuid -> Prop) : PreOrder (steady_change used).
Proof.
  split.
  - intros m Hok. split; [done|]. intros id r' _ Hl. exists r'. split; [done|reflexivity].
  - intros a b c Hab Hbc Hok. destruct (Hab Hok) as [Hok1 H1']. destruct (Hbc Hok1) as [Hok2 H2']. split; [done|].
    intros id r' Hu Hl. destruct (H2' _ _ Hu Hl) as (r1 & Hl1 & He1). destruct (H1' _ _ Hu Hl1) as (r & Hl0 & He0).
    exists r. split; [done|by etransitivity].
Qed.

Lemma steady_good (used : uuid -> Prop) (m m' : mdb) : good m m' -> no_new m m' -> steady_change used m m'.
Proof.
  intros Hg Hn Hok. destruct (Hg Hok) as [Hok' [_ _ Hd _]]. split; [done|]. intros id r' _ Hl.
  assert (id ∈ dom (m_deliveries m)) as [r Hr]%elem_of_dom by (apply Hn; by eapply elem_of_dom_2).
  destruct (Hd _ _ Hr) as (r2 & Hl2 & He). exists r. split; [done|]. congruence.
Qed.

Lemma steady_attempt {A : Type} (used : uuid -> Prop) (f : mdb -> result error (mdb * A)) (m : mdb) :
  (forall m' a, f m = Ok (m', a) -> good m m' /\ no_new m m') -> steady_change used m (attempt f m).
Proof.
  intros Hf. unfold attempt. destruct (f m) as [[m' a]|]; [|reflexivity]. destruct (Hf _ _ eq_refl). by apply steady_good.
Qed.

(** The claim describes the row. *)
Definition describes (d : claimedDelivery) (r : delivery_row) : Prop :=
  cd_Email d = d_email r /\ cd_MessageID d = d_message_id r /\ cd_SubscriberID d = d_subscriber r /\
  cd_CampaignID d = d_campaign r /\ cd_BusinessID d = d_business r /\ cd_TenantRootID d = d_root r.
Definition agrees (m : mdb) (d : claimedDelivery) : Prop :=
  forall r, m_deliveries m !! cd_ID d = Some r -> describes d r.

Lemma agrees_steady (used : uuid -> Prop) (m m' : mdb) (d : claimedDelivery) :
  mail_ok m -> steady_change used m m' -> used (cd_ID d) -> agrees m d -> agrees m' d.
Proof.
  intros Hok Hst Hu Ha r' Hl. destruct (Hst Hok) as [_ Hb]. destruct (Hb _ _ Hu Hl) as (r & Hr & [-> _]). exact (Ha _ Hr).
Qed.

(** Other transactions reuse no identifier in use. *)
Definition steady (used : uuid -> Prop) (e : delivery_env) : Prop :=
  forall m, steady_change used m (de_interfere e m) /\ steady_change used m (de_interfere_send e m).

(** ** Sending *)

Context (codec : Codec) (base : string).

Lemma may_send_write (m m' : mdb) (r : delivery_row) (st : delivery_state) :
  delivery_write m m' -> may_send m' (with_state st r) = may_send m r.
Proof. intros ->. reflexivity. Qed.

Lemma renew_true id g lease now m m' :
  mailing_renew_delivery id g lease now m = (m', true) ->
  exists r, m_deliveries m' !! id = Some r /\ ds_status (d_st r) = DSending /\ ds_generation (d_st r) = g /\ may_send m' r = true.
Proof.
  unfold mailing_renew_delivery. destruct (if_claimed m id g) as [r|] eqn:Hr; [|done]. destruct (may_send m r) eqn:Hm; [|done].
  apply if_claimed_some in Hr as (Hr & Hs & Hg & _). intros [= <-]. destruct (put_deliveries_db now id
    (with_state (renewed_state now lease (d_st r)) r) m) as [-> _]. rewrite lookup_insert_eq. eexists. split; [done|].
  split_and!; try done. rewrite (may_send_write m); [done|]. apply put_delivery_write.
Qed.

Record authorized_mail (s : sent_mail) : Prop := {
  am_ok : mail_ok (sm_before s);
  am_sent : exists r, m_deliveries (sm_before s) !! cd_ID (sm_claim s) = Some r /\ ds_status (d_st r) = DSending /\
    ds_generation (d_st r) = cd_ClaimGeneration (sm_claim s) /\ may_send (sm_before s) r = true /\
    og_To (sm_mail s) = d_email r /\ og_MessageID (sm_mail s) = d_message_id r /\
    ("X-MF-Delivery", uuid_String (cd_ID (sm_claim s))) ∈ og_ExtraHeaders (sm_mail s) /\
    ("List-Unsubscribe", "<" +:+ (trim_slashes base +:+ "/m/u/" +:+
       EncodeUnsubscribe codec (d_subscriber r) (default uuid_Nil (d_campaign r))) +:+ ">") ∈ og_ExtraHeaders (sm_mail s)
}.

Lemma fail_steady used d e env m : steady_change used m (fail_delivery d e env m).
Proof. apply steady_attempt. intros m' a Hf. split; [by eapply fail_good|by eapply fail_no_new]. Qed.

Lemma deliver_steady used w d env m m' sent :
  mail_ok m -> steady used env -> used (cd_ID d) -> agrees m d -> deliver codec base w d env m = (m', sent) ->
  steady_change used m m' /\ Forall authorized_mail sent.
Proof.
  intros Hok Hst Hu Ha. unfold deliver. destruct (de_allow env); simpl.
  2:{ intros [= <- <-]. split; [|done]. apply steady_good; [apply release_good|apply release_no_new]. }
  destruct (de_client env) as [profile|e]; [|intros [= <- <-]; split; [apply fail_steady|done]].
  destruct (de_render env _ _) as [body|e]; [|intros [= <- <-]; split; [apply fail_steady|done]].
  set (m1 := de_interfere env m). assert (Hm1 : steady_change used m m1) by apply Hst. clearbody m1.
  pose proof (steady_good used _ _ (renew_good (cd_ID d) (cd_ClaimGeneration d) (worker_lease w) (de_db_now env) m1)
    (renew_no_new _ _ _ _ m1)) as Hrn.
  destruct (mailing_renew_delivery _ _ _ _ m1) as [m2 ok] eqn:Hr. simpl in Hrn.
  assert (Hm2 : steady_change used m m2) by (by etransitivity).
  destruct ok; simpl; [|intros [= <- <-]; by split].
  assert (Hauth : authorized_mail {| sm_mail := mail_of codec base w d profile body; sm_claim := d; sm_before := m2 |}).
  { split; simpl; [by apply Hm2|]. apply renew_true in Hr as (r & Hl & Hs & Hg & Hmay). exists r.
    destruct (agrees_steady used m m2 d Hok Hm2 Hu Ha r Hl) as (He & Hmsg & Hsub & Hcmp & _).
    split_and!; try done; [set_solver|]. unfold unsubscribe_url. rewrite Hsub, Hcmp. left. }
  destruct (de_send env) as [p|e]; intros [= <- <-]; (split; [|by constructor]); transitivity m2; try done;
    (transitivity (de_interfere_send env m2); [apply Hst|]); [|apply fail_steady].
  apply steady_attempt. intros m' a Hc. split; [by eapply complete_good|by eapply complete_no_new].
Qed.

Lemma deliver_all_steady used w env ds m m' sent :
  mail_ok m -> (forall d, steady used (env d)) -> Forall (fun d => used (cd_ID d) /\ agrees m d) ds ->
  deliver_all codec base w env ds m = (m', sent) -> steady_change used m m' /\ Forall authorized_mail sent.
Proof.
  intros Hok Hst. revert m sent Hok. induction ds as [|d ds IH]; intros m sent Hok Hall; simpl.
  { intros [= <- <-]. by split; [reflexivity|]. }
  apply Forall_cons in Hall as [[Hu Ha] Hall].
  destruct (deliver codec base w d (env d) m) as [m1 s1] eqn:Hd.
  destruct (deliver_steady used w d (env d) m m1 s1 Hok (Hst d) Hu Ha Hd) as [H1' Hs1].
  destruct (deliver_all codec base w env ds m1) as [m2 s2] eqn:Hds. intros [= <- <-].
  destruct (IH m1 s2) as [H2' Hs2]; [by apply H1'| |done|].
  { eapply Forall_impl; [exact Hall|]. intros x [Hux Hax]. split; [done|]. by eapply agrees_steady. }
  split; [by etransitivity|by apply Forall_app].
Qed.

(** ** A cycle *)

Lemma fanout_batch_new cid batch domain newid now m m' x id r :
  mailing_fanout_batch cid batch domain newid now m = Ok (m', x) -> m_deliveries m' !! id = Some r ->
  is_Some (m_deliveries m !! id) \/ exists s, id = newid s.
Proof.
  destruct x as [n done]. intros [->|(c & m1 & _ & _ & _ & _ & [_ _ Hn _ _ _ _ _] & _ & ->)]%fanout_batch_spec Hl; [left; by eexists|].
  destruct (Hn _ _ Hl) as [?|(_ & y & _ & -> & _)]; [left; by eexists|right; by eexists].
Qed.

Lemma fanout_campaigns_good w newid per rem ids now m m' o :
  fanout_campaigns w newid per rem ids now m = (m', o) ->
  good m m' /\ forall id r, m_deliveries m' !! id = Some r -> is_Some (m_deliveries m !! id) \/ exists c s, id = newid c s.
Proof.
  revert rem m. induction ids as [|c ids IH]; intros rem m; simpl.
  { intros [= <- _]. split; [reflexivity|]. intros id r Hl. left. by eexists. }
  set (batch := if (rem <? per)%Z then rem else per).
  destruct (mailing_fanout_batch c batch _ (newid c) now m) as [[m1 x]|e] eqn:Hb.
  2:{ intros [= <- _]. split; [reflexivity|]. intros id r Hl. left. by eexists. }
  pose proof (fanout_batch_good _ _ _ _ _ _ _ _ Hb) as Hg.
  assert (Hnew : forall id r, m_deliveries m1 !! id = Some r -> is_Some (m_deliveries m !! id) \/ exists c s, id = newid c s).
  { intros id r Hl. destruct (fanout_batch_new _ _ _ _ _ _ _ _ _ _ Hb Hl) as [?|[s ?]]; eauto. }
  destruct (_ =? 0)%Z; [intros [= <- _]; by split|]. intros Hr. apply IH in Hr as [Hg' Hnew']. split; [by etransitivity|].
  intros id r Hl. destruct (Hnew' _ _ Hl) as [[r1 Hl1]|?]; [by eapply Hnew|by right].
Qed.

Lemma scan_describes (row : claimed_row) (d : claimedDelivery) :
  scan_delivery row = Ok d -> cd_ID d = cr_delivery row /\ describes d (cr_delivery_row row).
Proof.
  unfold scan_delivery. destruct (cr_content_at row), (cr_subject row), (cr_body row), (cr_opens row), (cr_clicks row); try done.
  intros [= <-]. done.
Qed.

Lemma scan_all (rows : list claimed_row) (ds : list claimedDelivery) :
  scan_deliveries rows = Ok ds -> forall d, d ∈ ds -> exists row, row ∈ rows /\ scan_delivery row = Ok d.
Proof.
  revert ds. induction rows as [|r rows IH]; intros ds; simpl.
  { intros [= <-] d Hd. by apply elem_of_nil in Hd. }
  destruct (scan_delivery r) as [d0|] eqn:Hr; [|done]. cbn [result_bind]. destruct (scan_deliveries rows) as [ds0|]; [|done].
  cbn [result_bind]. intros [= <-] d [->|Hd]%elem_of_cons.
  - exists r. split; [by left|done].
  - destruct (IH _ eq_refl _ Hd) as (row & Hrow & ?). exists row. split; [by right|done].
Qed.

Lemma claimed_rows_row (m : mdb) (id : uuid) (r : delivery_row) (row : claimed_row) :
  row ∈ claimed_rows_of m (id, r) -> cr_delivery row = id /\ cr_delivery_row row = r.
Proof.
  unfold claimed_rows_of. destruct (recipient m r) as [s|]; [|by intros Hin%elem_of_nil].
  destruct (list_of m s) as [l|]; [|by intros Hin%elem_of_nil]. rewrite list_elem_of_In, in_flat_map.
  intros (p & _ & Hin). apply in_map_iff in Hin as (v & <- & _). done.
Qed.

(** A claimed row is a row of the table, but for its state. *)
Lemma claim_rows_from locked first limit lease now m row :
  row ∈ (mailing_claim_deliveries locked first limit lease now m).2 ->
  exists r st, m_deliveries m !! cr_delivery row = Some r /\ cr_delivery_row row = with_state st r.
Proof.
  unfold mailing_claim_deliveries. cbn zeta. cbn [snd]. rewrite list_elem_of_In, in_flat_map. intros ([id r'] & Hin & Hrow).
  apply list_elem_of_In, claimed_rows_row in Hrow as [-> ->]. apply in_map_iff in Hin as ([i r] & [= -> <-] & Hin).
  exists r. eexists. split; [|reflexivity].
  by apply list_elem_of_In, (batch_elem due_before (fun x => unlocked locked (fst x) && sendable m now (fst x) (snd x))) in Hin as [Hl _].
Qed.

Lemma claimDeliveries_agree w locked first now m m' ds :
  mail_ok m -> claimDeliveries w locked first now m = (m', Ok ds) ->
  mail_ok m' /\ Forall (fun d => is_Some (m_deliveries m !! cd_ID d) /\ agrees m' d) ds.
Proof.
  intros Hok. unfold claimDeliveries. set (b := if (_ <=? 0)%Z then _ else _).
  pose proof (claim_deliveries_good locked first b (worker_lease w) now m) as Hg.
  pose proof (claim_rows_from locked first b (worker_lease w) now m) as Hrows.
  destruct (mailing_claim_deliveries _ _ _ _ _ _) as [m1 rows]. simpl in Hg, Hrows.
  destruct (scan_deliveries rows) as [ds0|] eqn:Hs; [|done]. intros [= <- <-]. destruct (Hg Hok) as [Hok' [_ _ Hd _]]. split; [done|].
  apply Forall_forall. intros d Hin. destruct (scan_all _ _ Hs _ Hin) as (row & Hrow & Hsc).
  apply scan_describes in Hsc as [Hid Hdesc]. destruct (Hrows _ Hrow) as (r & st & Hl & He). rewrite Hid. split; [by eexists|].
  intros r1 Hl1. destruct (Hd _ _ Hl) as (r2 & Hl2 & [Hr2 _]). rewrite Hid, Hl2 in Hl1. injection Hl1 as <-. rewrite Hr2.
  rewrite He in Hdesc. exact Hdesc.
Qed.

Lemma rollup_each_good n ids now m m' l : rollup_each undisturbed n ids now m = (m', l) -> good m m'.
Proof.
  revert n m l. induction ids as [|c ids IH]; intros n m l; simpl; [intros [= <- _]; reflexivity|]. unfold undisturbed at 1.
  pose proof (rollup_good c now m) as Hg. destruct (mailing_rollup_changed_campaign c now m) as [m1 ok].
  destruct (rollup_each undisturbed (S n) ids now m1) as [m2 rest] eqn:Hr. intros [= <- _]. etransitivity; [exact Hg|by eapply IH].
Qed.

Lemma rollups_ok w locked token now m : mail_ok m -> mail_ok (rollupChangedCampaigns w locked token now undisturbed m).
Proof.
  intros Hok. unfold rollupChangedCampaigns.
  pose proof (requeue_ok _ _ (claim_rollups_requeue locked token (rollup_limit w) rollupLeaseSeconds now m) Hok) as H1'.
  destruct (mailing_claim_changed_campaign_rollups _ _ _ _ _ _) as [m1 ids]. simpl in H1'.
  destruct (rollup_each undisturbed 0 ids now m1) as [m2 done] eqn:Hr. apply rollup_each_good in Hr. destruct (Hr H1') as [H2' _].
  unfold undisturbed. destruct done; [done|]. eapply requeue_ok; [apply complete_rollups_requeue|done].
Qed.

(** [used]: the identifiers of deliveries in the database and those the fan-out
    draws. *)
Lemma Tick_authorized (used : uuid -> Prop) w env m m' o :
  mail_ok m -> (forall id, is_Some (m_deliveries m !! id) -> used id) -> (forall c s, used (tk_newid env c s)) ->
  (forall d, steady used (tk_deliveries env d)) -> Tick codec base w env m = (m', o) ->
  mail_ok m' /\ forall sent, o = Ok sent -> Forall authorized_mail sent.
Proof.
  intros Hok Hu Hnew Hst. unfold Tick.
  pose proof (prune_good (tk_locked env) providerWebhookPruneBudget (tk_now env) m) as Hpr.
  assert (Hpd : m_deliveries (mailing_prune_expired_provider_webhooks (tk_locked env) providerWebhookPruneBudget (tk_now env) m).1
    = m_deliveries m) by done.
  destruct (mailing_prune_expired_provider_webhooks _ _ _ _) as [m1 n1]. simpl in Hpr, Hpd. destruct (Hpr Hok) as [Hok1 _].
  destruct (fanout_budgets w) as [[global per] limit].
  pose proof (claim_campaigns_good (tk_locked env) limit (tk_now env) m1) as Hcc.
  assert (Hcd : m_deliveries (mailing_claim_campaigns_for_fanout (tk_locked env) limit (tk_now env) m1).1 = m_deliveries m1).
  { unfold mailing_claim_campaigns_for_fanout. cbn zeta. cbn [fst]. set (xs := take _ _). clearbody xs. clear. revert m1.
    induction xs as [|x xs IH]; intros m1; [done|]. simpl. by rewrite IH. }
  destruct (mailing_claim_campaigns_for_fanout _ _ _ _) as [m2 cs]. simpl in Hcc, Hcd. destruct (Hcc Hok1) as [Hok2 _].
  destruct (fanout_campaigns _ _ _ _ _ _ _) as [m3 [u|e]] eqn:Hf; apply fanout_campaigns_good in Hf as [Hf Hfn];
    destruct (Hf Hok2) as [Hok3 _]; [|intros [= <- <-]; by split].
  destruct (claimDeliveries _ _ _ _ _) as [m4 [ds|e]] eqn:Hc.
  2:{ intros [= <- <-]. split; [|done]. unfold claimDeliveries in Hc.
      destruct (mailing_claim_deliveries _ _ _ _ _ _) as [m5 rows]. destruct (scan_deliveries rows); congruence. }
  apply claimDeliveries_agree in Hc as [Hok4 Hag]; [|done].
  destruct (deliver_all codec base w (tk_deliveries env) ds m4) as [m5 sent] eqn:Hds. intros [= <- <-].
  apply (deliver_all_steady used) in Hds as [Hst5 Hsent]; [|done|done|].
  - split; [apply rollups_ok, Hst5, Hok4|]. by intros s0 [= <-].
  - eapply Forall_impl; [exact Hag|]. intros d [[r Hl] Ha]. split; [|done].
    destruct (Hfn _ _ Hl) as [Hl'|(c & s & ->)]; [|apply Hnew]. apply Hu. by rewrite <- Hpd, <- Hcd.
Qed.

(** ** Claims that are lost *)

(** The claim of generation [g] has ended. *)
Definition claim_lost (r : delivery_row) (g : Z) : Prop :=
  (g < ds_generation (d_st r))%Z \/ (g = ds_generation (d_st r) /\ ds_status (d_st r) <> DSending).

Lemma claim_lost_evolved (r r' : delivery_row) (g : Z) : d_evolved r r' -> claim_lost r g -> claim_lost r' g.
Proof.
  intros [_ [_ Hgen _ _ _ _]] [Hlt|[-> Hs]]; unfold claim_lost; destruct Hgen as [Hg|[Hg Hsend]].
  - left. lia.
  - left. lia.
  - by left.
  - right. split; [done|]. intros He. by apply Hs, Hsend.
Qed.

(** Nothing the worker of a lost claim does has an effect. *)
Definition claim_inert (m : mdb) (id : uuid) (g : Z) : Prop :=
  (forall nb now, mailing_release_delivery id g nb now m = (m, false)) /\
  (forall lease now, mailing_renew_delivery id g lease now m = (m, false)) /\
  (forall err status nb now m' b, mailing_fail_delivery id g err status nb now m = Ok (m', b) -> m' = m /\ b = false) /\
  (forall locked p now, mailing_complete_delivery locked id g p now m = Ok (m, false)).

Lemma lost_inert (m : mdb) (id : uuid) (r : delivery_row) (g : Z) :
  m_deliveries m !! id = Some r -> claim_lost r g -> claim_inert m id g.
Proof.
  intros Hr Hl. assert (if_claimed m id g = None) as Hn.
  { unfold if_claimed. rewrite Hr. unfold holds_claim. destruct Hl as [Hl|[-> Hl]].
    - assert ((ds_generation (d_st r) =? g)%Z = false) as -> by lia. by rewrite andb_false_r.
    - by rewrite bool_decide_eq_false_2. }
  split_and!.
  - intros. unfold mailing_release_delivery. by rewrite Hn.
  - intros. unfold mailing_renew_delivery. by rewrite Hn.
  - intros err status nb now m' b. unfold mailing_fail_delivery. rewrite Hn.
    repeat (destruct (String.eqb status _)); intros He; try discriminate He; by injection He as <- <-.
  - intros. unfold mailing_complete_delivery. by rewrite Hn.
Qed.

(** ** Consent withdrawn *)

Lemma not_sendable_renew (m : mdb) (id : uuid) (r : delivery_row) (g : Z) (lease : duration) (now : time) :
  m_deliveries m !! id = Some r -> may_send m r = false -> mailing_renew_delivery id g lease now m = (m, false).
Proof.
  intros Hr Hm. unfold mailing_renew_delivery. destruct (if_claimed m id g) as [r'|] eqn:Hc; [|done].
  apply if_claimed_some in Hc as [Hc _]. rewrite Hr in Hc. injection Hc as <-. by rewrite Hm.
Qed.

(** Nothing is sent to the subscriber, or to its address on behalf of the business:
    neither claimed, nor renewed, nor fanned out. *)
Definition unreachable (m : mdb) (s : uuid) (row : subscriber_row) : Prop :=
  (forall id r, m_deliveries m !! id = Some r ->
     d_subscriber r = s \/ (d_business r = s_business row /\ email_key (d_email r) = email_key (s_email row)) ->
     (forall now, sendable m now id r = false) /\ (forall g lease now, mailing_renew_delivery id g lease now m = (m, false))) /\
  (forall c row', db_subscribers (m_db m) !! s = Some row' -> addressable m c row' = false) /\
  (forall c row', cm_business c = s_business row -> email_key (s_email row') = email_key (s_email row) -> addressable m c row' = false).

Lemma suppressed_key (m : mdb) (b : uuid) (e e' : string) : email_key e = email_key e' -> suppressed m b e = suppressed m b e'.
Proof. intros He. unfold suppressed. by rewrite He. Qed.

Lemma inactive_unreachable (m : mdb) (s : uuid) (row row' : subscriber_row) :
  db_subscribers (m_db m) !! s = Some row' -> s_status row' <> "active" -> suppressed m (s_business row) (s_email row) = true ->
  unreachable m s row.
Proof.
  intros Hs Hst Hsup. assert (String.eqb (s_status row') "active" = false) as Hna by by apply String.eqb_neq.
  split_and!.
  - intros id r Hr Hor.
    assert (Hboth : (forall s', recipient m r = Some s' -> reachable_recipient m r s' = false) /\ may_send m r = false).
    { destruct Hor as [Hsub|[Hb He]].
      - split.
        + intros s'. unfold recipient. rewrite Hsub, Hs. destruct (N.eqb _ _); [|done]. intros [= <-].
          unfold reachable_recipient. by rewrite Hna.
        + unfold may_send, renewable_recipient. rewrite Hsub, Hs, Hna. by rewrite andb_false_r, !andb_false_r.
      - rewrite <- Hb in Hsup. rewrite <- (suppressed_key m _ _ _ He) in Hsup. split.
        + intros s' _. unfold reachable_recipient. rewrite Hsup. by rewrite !andb_false_r.
        + unfold may_send. rewrite Hsup. by rewrite !andb_false_r. }
    destruct Hboth as [Hrec Hmay]. split.
    + intros now. unfold sendable. destruct (recipient m r) as [s'|] eqn:Hrc; [|done]. rewrite (Hrec _ eq_refl).
      by rewrite !andb_false_r.
    + intros g lease now. by eapply not_sendable_renew.
  - intros c r2 Hr2. rewrite Hs in Hr2. injection Hr2 as <-. unfold addressable. rewrite Hna. by rewrite !andb_false_r.
  - intros c r2 Hb He. unfold addressable. rewrite Hb, (suppressed_key m _ _ _ He), Hsup. by rewrite !andb_false_r.
Qed.

Lemma unsubscribe_effect (s k : uuid) (row : subscriber_row) (now : time) (m m' : mdb) (n : Z) :
  db_subscribers (m_db m) !! s = Some row -> mailing_unsubscribe s k now m = Ok (m', n) ->
  db_subscribers (m_db m') !! s = Some (with_subscriber_status "unsubscribed" row) /\
  suppressed m' (s_business row) (s_email row) = true.
Proof.
  intros Hs. unfold mailing_unsubscribe. rewrite Hs. destruct (fence _ _); [|done]. cbn [result_bind]. intros [= <- _]. cbn zeta. split.
  - destruct (String.eqb (s_status row) "unsubscribed") eqn:He; simpl; [|by rewrite lookup_insert_eq].
    apply String.eqb_eq in He. rewrite Hs. f_equal. destruct row; simpl in *; by subst.
  - unfold suppressed. apply orb_true_iff. left. apply bool_decide_eq_true. unfold upsert_suppression. simpl.
    by rewrite lookup_insert_eq.
Qed.

Lemma record_unsubscribe_effect (s k : uuid) (now : time) (m m' : mdb) (b : bool) :
  mailing_record_unsubscribe s k now m = Ok (m', b) -> m_db m' = m_db m /\ m_suppressions m' = m_suppressions m /\ m_blocked m' = m_blocked m.
Proof.
  unfold mailing_record_unsubscribe. destruct (mfind _ _) as [[id r]|]; [|by intros [= <- _]].
  destruct (has_event _ _ _); [by intros [= <- _]|]. destruct (fence _ _); [|done]. by intros [= <- _].
Qed.

Lemma unsubscribe_link (s k : uuid) (row : subscriber_row) (now : time) (m m' : mdb) :
  is_uuid s -> is_uuid k -> db_subscribers (m_db m) !! s = Some row ->
  Unsubscribe codec (EncodeUnsubscribe codec s k) now m = (m', Ok tt) ->
  db_subscribers (m_db m') !! s = Some (with_subscriber_status "unsubscribed" row) /\ unreachable m' s row.
Proof.
  intros Hs Hk Hrow. unfold Unsubscribe.
  assert (DecodeUnsubscribe codec (EncodeUnsubscribe codec s k) = Ok (s, k)) as ->.
  { apply DecodeUnsubscribe_spec. unfold EncodeUnsubscribe. rewrite length_encode, length_app, !length_uuid_bytes. done. }
  unfold run_public. destruct (mailing_unsubscribe s k now m) as [[m1 n]|] eqn:H1'; [|done]. cbn [result_bind].
  destruct (mailing_record_unsubscribe s k now m1) as [[m2 b]|] eqn:H2'; [|done]. cbn [result_bind]. intros [= <-].
  destruct (unsubscribe_effect _ _ _ _ _ _ _ Hrow H1') as [Hst Hsup].
  apply record_unsubscribe_effect in H2' as (Hdb & Hsp & Hbl). rewrite Hdb. split; [done|].
  apply (inactive_unreachable m2 s row (with_subscriber_status "unsubscribed" row)); [by rewrite Hdb|done|].
  revert Hsup. unfold suppressed. by rewrite Hsp, Hbl.
Qed.

(** ** Campaigns that have ended *)

Definition ended (s : campaign_status) : bool := bool_decide (s = CSent) || bool_decide (s = CCancelled).

Lemma ended_leads (a b : campaign_status) : ended a = true -> c_leads a b = true -> b = a.
Proof. by destruct a, b. Qed.

(** A campaign sends nothing: none of its deliveries is claimed or renewed, and
    nobody is added. *)
Definition silent (m : mdb) (c : uuid) : Prop :=
  (forall id r, m_deliveries m !! id = Some r -> d_campaign r = Some c ->
     (forall now, sendable m now id r = false) /\ (forall g lease now, mailing_renew_delivery id g lease now m = (m, false))) /\
  (forall batch domain newid now m' x, mailing_fanout_batch c batch domain newid now m = Ok (m', x) -> m' = m).

Lemma ended_silent (m : mdb) (c : uuid) (x : campaign_row) :
  mail_ok m -> m_campaigns m !! c = Some x -> ended (cm_status x) = true -> silent m c.
Proof.
  intros Hok Hx He. assert (cm_status x <> CSending) as Hns by by destruct (cm_status x). split.
  - intros id r Hr Hc. assert (is_automation r = false) as Hna.
    { unfold is_automation. destruct (ok_rows m Hok _ _ Hr) as [[(-> & _)|(_ & Hn & _)] _]; [done|congruence]. }
    assert (Hcam : campaign_of m r = None \/ campaign_of m r = Some x).
    { unfold campaign_of. rewrite Hc, Hx. destruct (N.eqb _ _); auto. }
    split.
    + intros now. unfold sendable. destruct (recipient m r); [|done]. rewrite Hna. simpl.
      assert (campaign_is CSending (campaign_of m r) = false) as ->.
      { destruct Hcam as [->| ->]; simpl; [done|]. by apply bool_decide_eq_false. }
      by rewrite !andb_false_r, !andb_false_l.
    + intros g lease now. eapply not_sendable_renew; [done|]. unfold may_send. rewrite Hna. simpl.
      assert (campaign_is CSending (own_campaign_of m r) = false) as ->.
      { unfold own_campaign_of. destruct Hcam as [->| ->]; simpl; [done|]. destruct (N.eqb _ _); simpl; [|done].
        by apply bool_decide_eq_false. }
      by rewrite !andb_false_r, !andb_false_l.
  - intros batch domain newid now m' y. unfold mailing_fanout_batch. destruct (negb _); [done|]. rewrite Hx.
    rewrite bool_decide_eq_false_2 by done. simpl. by intros [= <- _].
Qed.
End Claimed.
