(* ===== verification/MailWebhook.v ===== *)
(** * Provider webhooks: applied at most once

    A webhook that has been applied leaves an event with its identifier, or all its
    events were on record already: the provider's retries change nothing. *)

From S2P Require Import Prelude GoStrings GoTime GoJson AutoGraph Errors AutoEngine AutoStore AutoService.
From S2P Require Import MailToken MailStore MailFeedback MailFacts MailOps MailRequests.
From stdpp Require Import sorting.
#[local] Open Scope go_scope.

Section Webhook.
Context `{UnicodeTables, UUIDLib, MailCrypto}.

(** What the admission of a webhook reads besides its events. *)
Definition admission_frame (m m' : mdb) : Prop :=
  m_profiles m' = m_profiles m /\ db_businesses (m_db m') = db_businesses (m_db m) /\
  db_fenced_roots (m_db m') = db_fenced_roots (m_db m).

#[local] Instance admission_frame_preorder : PreOrder admission_frame.
Proof. split; [by intros m|]. intros a b c (? & ? & ?) (? & ? & ?). unfold admission_frame. split_and!; congruence. Qed.

Lemma put_frame (now : time) (id : uuid) (r : delivery_row) (m : mdb) :
  admission_frame m (put_delivery now id r m) /\ m_events (put_delivery now id r m) = m_events m.
Proof. rewrite (put_delivery_write now id r m). done. Qed.

Lemma demote_frame (id : uuid) (status : string) (m : mdb) :
  admission_frame m (demote_subscriber id status m) /\ m_events (demote_subscriber id status m) = m_events m.
Proof. unfold demote_subscriber. destruct (db_subscribers _ !! _); [|done]. by destruct (String.eqb _ _). Qed.

(** An event of this webhook is on record. *)
Definition recorded (profile : uuid) (external : string) (m : mdb) : bool :=
  existsb (fun e => match te_webhook e with
                    | Some (_, p, x) => N.eqb p profile && String.eqb x external
                    | None => false
                    end) (m_events m).

Lemma recorded_mono (profile : uuid) (external : string) (m m' : mdb) :
  (exists l, m_events m' = m_events m ++ l) -> recorded profile external m = true -> recorded profile external m' = true.
Proof. intros [l He]. unfold recorded. rewrite He, existsb_app, orb_true_iff. by left. Qed.

(** One event: it was seen before and nothing changes, or it is recorded. *)
Lemma apply_event_cases w profile external e now m m' :
  mailing_apply_provider_event_internal w profile external e now m = (m', true) ->
  admission_frame m m' /\ (exists l, m_events m' = m_events m ++ l) /\
  ((m' = m /\ exists id r, m_deliveries m !! id = Some r /\ correlates m profile (pe_message_id e) (pe_recipient e) r = true /\
      provider_event_seen id (pe_kind e) m = true) \/
   recorded profile external m' = true).
Proof.
  unfold mailing_apply_provider_event_internal. destruct (correlated m profile e) as [[id r]|] eqn:Hc; [|done].
  apply correlated_some in Hc as (Hr & Hcor & _). destruct (provider_event_seen id (pe_kind e) m) eqn:Hseen.
  { intros [= <-]. split; [reflexivity|]. split; [exists []; by rewrite app_nil_r|]. left. split; [done|]. by exists id, r. }
  cbn zeta. set (m1 := put_delivery _ _ _ m). set (ev := event_of _ _ _ _ _ _).
  destruct (put_frame now id (with_state (with_status now (feedback_status (ds_status (d_st r)) (feedback_kind (pe_kind e))) (d_st r)) r) m)
    as [Hf1 He1]. fold m1 in Hf1, He1. clearbody m1.
  set (m2 := add_event ev m1). assert (Hm2 : admission_frame m m2 /\ m_events m2 = m_events m ++ [ev]).
  { split; [etransitivity; [exact Hf1|done]|]. simpl. by rewrite He1. }
  intros [= <-]. set (m3 := if is_negative _ then _ else m2). assert (Hm3 : admission_frame m2 m3 /\ m_events m3 = m_events m2).
  { subst m3. destruct (is_negative _); [|done].
    set (m4 := upsert_suppression _ _ _ _ _ _ _ _ m2). assert (H4 : admission_frame m2 m4 /\ m_events m4 = m_events m2) by done.
    clearbody m4. destruct (demote_frame (d_subscriber r) (if bool_decide (pe_kind e = TComplaint) then "complained" else "bounced") m4) as [Hd1 Hd2].
    split; [etransitivity; [apply H4|done]|]. rewrite Hd2. apply H4. }
  clearbody m3. destruct Hm2 as [Hf2 He2], Hm3 as [Hf3 He3]. split; [by etransitivity|]. split; [exists [ev]; congruence|]. right.
  unfold recorded. rewrite He3, He2, existsb_app. simpl. by rewrite N.eqb_refl, String.eqb_refl, orb_true_r.
Qed.

Definition all_seen (profile : uuid) (es : list provider_event) (m : mdb) : Prop :=
  forall e, e ∈ es -> exists id r, m_deliveries m !! id = Some r /\
    correlates m profile (pe_message_id e) (pe_recipient e) r = true /\ provider_event_seen id (pe_kind e) m = true.

Lemma apply_events_cases w profile external es now m m' :
  apply_events w profile external es now m = Ok m' ->
  admission_frame m m' /\ (exists l, m_events m' = m_events m ++ l) /\
  ((m' = m /\ all_seen profile es m) \/ recorded profile external m' = true).
Proof.
  revert m. induction es as [|e es IH]; intros m; simpl.
  { intros [= <-]. split; [reflexivity|]. split; [exists []; by rewrite app_nil_r|]. left. split; [done|].
    intros e He. by apply elem_of_nil in He. }
  destruct (mailing_apply_provider_event_internal _ _ _ _ _ _) as [m1 [|]] eqn:He; [|done]. intros Hes.
  apply apply_event_cases in He as (Hf & [l Hl] & Hc). apply IH in Hes as (Hf' & [l' Hl'] & Hc').
  split; [by etransitivity|]. split; [exists (l ++ l'); by rewrite Hl', Hl, app_assoc|].
  destruct Hc as [[-> Hs]|Hrec]; [|right; eapply recorded_mono; [by eexists|done]].
  destruct Hc' as [[-> Hs']|?]; [left|by right]. split; [done|]. intros e' [->|He']%elem_of_cons; [done|by apply Hs'].
Qed.

Lemma already_applied_seen (i : webhook_input) (m : mdb) :
  already_applied i m = true <-> all_seen (wi_profile i) (wi_events i) m.
Proof.
  unfold already_applied, all_seen. rewrite forallb_forall. split.
  - intros Hall e He%list_elem_of_In. specialize (Hall e He). apply mexists_true in Hall as (id & r & Hr & [Hc Hs]%andb_true_iff). eauto.
  - intros Hall e He%list_elem_of_In. destruct (Hall e He) as (id & r & Hr & Hc & Hs). apply mexists_true. exists id, r.
    split; [done|]. by rewrite Hc, Hs.
Qed.

(** The stored webhooks: none is marked applied (applying one removes it), and a
    stored copy of this one carries the same events. *)
Definition stored_ok (i : webhook_input) (m : mdb) : Prop :=
  forall id w, m_webhooks m !! id = Some w ->
    wh_applied w = false /\ (wh_profile w = wi_profile i -> wh_event w = wi_event i -> wh_events w = wi_events i).

Lemma stored_ok_sub (i : webhook_input) (m : mdb) (hooks : gmap uuid webhook_row) :
  stored_ok i m -> hooks ⊆ m_webhooks m -> stored_ok i (set_webhooks hooks m).
Proof. intros Hok Hsub id w Hw. apply (Hok id). simpl in Hw. by eapply lookup_weaken. Qed.

Lemma fold_delete_sub {A : Type} (xs : list (uuid * A)) (m : gmap uuid A) : fold_left (fun w x => delete (fst x) w) xs m ⊆ m.
Proof.
  revert m. induction xs as [|x xs IH]; intros m; [done|]. simpl. etransitivity; [apply IH|]. apply delete_subseteq.
Qed.

Lemma mdelete_sub {A : Type} (f : uuid -> A -> bool) (m : gmap uuid A) : mdelete f m ⊆ m.
Proof. apply map_subseteq_spec. intros k a Hk. by apply lookup_mdelete_Some in Hk as [? _]. Qed.

(** Past the admission: the webhook is known, or its events are. *)
Definition known (i : webhook_input) (m : mdb) : bool := recorded (wi_profile i) (wi_event i) m || already_applied i m.

Definition admitted (i : webhook_input) (m : mdb) : bool :=
  admissible i &&
  match m_profiles m !! wi_profile i with
  | Some p => String.eqb (pf_mode p) (wi_provider i) && root_write_allowed (m_db m) (pf_root p) &&
              String.eqb (pf_status p) "verified" && business_operational (m_db m) (pf_business p) (pf_root p)
  | None => false
  end.

Lemma admitted_frame (i : webhook_input) (m m' : mdb) : admission_frame m m' -> admitted i m' = admitted i m.
Proof.
  intros (Hp & Hb & Hf). unfold admitted, root_write_allowed, business_operational. by rewrite Hp, Hb, Hf.
Qed.

Lemma known_process locked i now m :
  admitted i m = true -> known i m = true ->
  exists hooks, mailing_process_provider_webhook locked i now m = Ok (set_webhooks hooks m, WApplied).
Proof.
  unfold admitted, mailing_process_provider_webhook. intros [Ha Hp]%andb_true_iff Hk. rewrite Ha. simpl.
  destruct (m_profiles m !! wi_profile i) as [p|] eqn:Hpr; [|done].
  rewrite !andb_true_iff in Hp. destruct Hp as [[[Hmode Hroot] Hver] Hop]. rewrite Hmode, Hroot. cbn zeta. simpl.
  set (hooks := fold_left _ _ _). clearbody hooks. exists hooks.
  rewrite Hver, Hop. simpl. unfold known, recorded in Hk. apply orb_true_iff in Hk as [Hk|Hk].
  - by rewrite Hk.
  - destruct (existsb _ _); [done|]. assert (already_applied i (set_webhooks hooks m) = true) as -> by exact Hk. done.
Qed.

Lemma process_applied locked i now m m' :
  stored_ok i m -> mailing_process_provider_webhook locked i now m = Ok (m', WApplied) ->
  admitted i m' = true /\ known i m' = true.
Proof.
  intros Hsto. unfold mailing_process_provider_webhook. destruct (admissible i) eqn:Hadm; cbn [negb]; [|done].
  destruct (m_profiles m !! wi_profile i) as [p|] eqn:Hpr; [|done].
  destruct (_ && root_write_allowed _ _) eqn:Hmode; cbn [negb]; [|done]. cbn zeta.
  set (hooks := fold_left _ _ _). assert (Hsub : hooks ⊆ m_webhooks m).
  { subst hooks. etransitivity; [apply fold_delete_sub|apply mdelete_sub]. }
  set (m1 := set_webhooks hooks m). pose proof (stored_ok_sub i m hooks Hsto Hsub) as Hsto1. fold m1 in Hsto1.
  assert (Hf1 : admission_frame m m1) by done. clearbody hooks.
  destruct (String.eqb (pf_status p) "verified" && business_operational _ _ _) eqn:Hop; cbn [negb]; [|done].
  assert (Hadm1 : admitted i m1 = true) 
    by (unfold admitted; rewrite Hadm; change (m_profiles m1) with (m_profiles m); rewrite Hpr, <- andb_assoc;
        change (m_db m1) with (m_db m) in Hop |- *; by rewrite Hmode, Hop).
  destruct (existsb _ _) eqn:Hrec.
  { intros [= <-]. split; [done|]. apply orb_true_iff. left. exact Hrec. }
  destruct (already_applied i m1) eqn:Hal; [intros [= <-]; split; [done|]; unfold known; by rewrite Hal, orb_true_r|].
  clearbody m1. destruct (mfind _ _) as [[id w]|] eqn:Hsame.
  - apply mfind_some in Hsame as [Hw [Hpw%N.eqb_eq Hew%String.eqb_eq]%andb_true_iff]. destruct (Hsto1 _ _ Hw) as [Hna Hev].
    specialize (Hev Hpw Hew). destruct (_ <=? _)%Z; [done|].
    destruct (mailing_apply_pending_webhook id now m1) as [[m2 b]|] eqn:Hap; [|done]. cbn [result_bind]. destruct b; [|destruct (_ || _); discriminate].
    intros [= <-]. unfold mailing_apply_pending_webhook in Hap. rewrite Hw, Hna in Hap. revert Hap. destruct (_ <=? _)%Z; [done|].
    destruct (existsb _ (wh_events w)); [done|]. destruct (apply_events _ _ _ _ _ _) as [m3|] eqn:Hes; cbn [result_bind]; [|discriminate].
    intros [= <-]. rewrite Hpw, Hew, Hev in Hes. apply apply_events_cases in Hes as (Hf & _ & [[-> Hs]|Hr]).
    + apply already_applied_seen in Hs. congruence.
    + split; [rewrite (admitted_frame i m1); [done|exact Hf]|]. unfold known. apply orb_true_iff. by left.
  - set (id := fresh _). set (row := {| wh_root := _ |}). set (m2 := set_webhooks _ m1).
    destruct (mailing_apply_pending_webhook id now m2) as [[m3 b]|] eqn:Hap; [|done]. cbn [result_bind].
    destruct b; [|destruct (_ || _); discriminate]. intros [= <-]. unfold mailing_apply_pending_webhook in Hap.
    assert (m_webhooks m2 !! id = Some row) as Hw by apply lookup_insert_eq. rewrite Hw in Hap.
    revert Hap. change (wh_applied row) with false. cbv iota. destruct (_ <=? _)%Z; [done|]. destruct (existsb _ (wh_events row)); [done|].
    destruct (apply_events _ _ _ _ _ _) as [m4|] eqn:Hes; cbn [result_bind]; [|discriminate]. intros [= <-].
    apply apply_events_cases in Hes as (Hf & _ & [[-> Hs]|Hr]).
    + assert (already_applied i m1 = true) as Hal' by (apply (already_applied_seen i m2) in Hs; exact Hs). congruence.
    + split; [rewrite (admitted_frame i m1); [done|exact Hf]|]. unfold known. apply orb_true_iff. by left.
Qed.
End Webhook.
