(* ===== verification/MailJoint.v ===== *)
(** * Automations and mailing together

    The two subsystems share one database: the automations enqueue deliveries,
    mailing sends them and writes subscribers and lists.  Each was verified
    against an assumption about the other ([environment] of the automations,
    [outside] of mailing); here each is shown to honour what the other assumes,
    so both invariants hold of the system in which their transactions interleave. *)

From S2P Require Import Prelude GoStrings GoTime GoJson AutoGraph Errors AutoEngine Concrete AutoGraphFacts AutoEngineFacts.
From S2P Require Import AutoStore AutoStepper AutoService AutoStoreFacts AutoEvents AutoSystem AutoSafety.
From S2P Require Import MailToken MailStore MailFeedback MailService MailFacts MailOps MailFanout MailRequests MailWorker MailSafety.
From stdpp Require Import sorting.

(** ** The automations only add deliveries *)

Section Quiet.
Context `{UnicodeTables, UUIDLib, ZoneDB, URLLib, UUIDHash, Authz, EventLib}.

Definition quiet (d d' : db) : Prop := db_deliveries d' = db_deliveries d.
Definition tx_quiet (t t' : tx) : Prop := quiet (tx_db t) (tx_db t').

Lemma tx_quiet_refl (t : tx) : tx_quiet t t.
Proof. done. Qed.
Lemma tx_quiet_trans (a b c : tx) : tx_quiet a b -> tx_quiet b c -> tx_quiet a c.
Proof. unfold tx_quiet, quiet. congruence. Qed.

Lemma exec_quiet {A : Type} (f : time -> db -> result error (db * A)) (t : tx) :
  (forall n d d' a, f n d = Ok (d', a) -> quiet d d') -> tx_quiet t (exec f t).1.
Proof.
  intros Hf. unfold exec. destruct (tx_aborted t); [done|]. destruct (f (tx_now t) (tx_db t)) as [[d a]|] eqn:He; [|done].
  by eapply Hf.
Qed.

Lemma query_quiet {A : Type} (f : db -> A) (t : tx) : tx_quiet t (query f t).1.
Proof. apply exec_quiet. by intros n d d' a [= <- _]. Qed.

Lemma err_of_quiet {A : Type} (r : tx * result error A) (t : tx) : tx_quiet t r.1 -> tx_quiet t (err_of r).1.
Proof. by destruct r as [t' [a|e]]. Qed.

Lemma enroll_for_trigger_quiet b r kind ref s ev now d d' n :
  automation_enroll_for_trigger b r kind ref s ev now d = Ok (d', n) -> quiet d d'.
Proof.
  unfold automation_enroll_for_trigger. cbv zeta. destruct (negb _); [by intros [= <- _]|]. destruct (db_subscribers d !! s); [|done].
  destruct (_ && _); [|done]. by intros [= <- _].
Qed.

Lemma enrollForTrigger_quiet b r kind ref s ev now t : tx_quiet t (enrollForTrigger b r kind ref s ev now t).1.
Proof.
  unfold enrollForTrigger. apply err_of_quiet, exec_quiet. intros n d d' a. by apply enroll_for_trigger_quiet.
Qed.

(** The outbox workers' handlers leave the deliveries alone. *)
Definition quiet_bus (b : Bus) : Prop := forall topic, Forall (fun h : Handler => forall e t, tx_quiet t (h e t).1) (b topic).

Lemma Handle_quiet now e t :
  tx_quiet t (Handle {| trg_Subscribers := Some AutomationPorts_subscribers; trg_Now := now |} e t).1.
Proof.
  unfold Handle. destruct (_ || _).
  - unfold handleSubscriber. destruct (Unmarshal _ _ _) as [p|]; [|done]. destruct (_ || _); [done|].
    destruct (String.eqb _ _); [destruct (String.eqb _ _); [done|]|].
    + apply err_of_quiet, exec_quiet. intros n d d' a [= <- _]. unfold automation_exit_for_subscriber. by destruct (negb _).
    + destruct (String.eqb _ _); [|apply enrollForTrigger_quiet]. destruct (String.eqb _ _); [done|apply enrollForTrigger_quiet].
  - destruct (String.eqb _ _); [|done]. unfold handleCustomEvent. cbn [trg_Subscribers trg_Now].
    destruct (Unmarshal _ _ _) as [p|]; [|done]. destruct (_ || _); [done|].
    pose proof (query_quiet (fun d => automation_event_trigger_lists d (cep_BusinessID p) (cep_TenantRootID p) (cep_Name p) (cep_ListID p)) t) as Hq.
    destruct (query _ t) as [t1 [l|err]]; [|done]. simpl in Hq. eapply tx_quiet_trans; [exact Hq|]. clear Hq. revert t1.
    induction l as [|listID l IH]; intros t1; [done|]. simpl.
    assert (Hr : tx_quiet t1 (ports_ResolveForList (cep_BusinessID p) (cep_Email p) listID t1).1).
    { unfold ports_ResolveForList.
      pose proof (query_quiet (fun d => mailing_automation_resolve_for_list d (cep_BusinessID p) (cep_Email p) listID) t1) as Hq.
      by destruct (query _ t1) as [t' [[id|]|]]. }
    destruct (ports_ResolveForList _ _ _ t1) as [t2 [sub|er]]; simpl in Hr.
    + pose proof (enrollForTrigger_quiet (cep_BusinessID p) (cep_TenantRootID p) "event" (cep_Name p) sub (evt_ID e) now t2) as He.
      destruct (enrollForTrigger _ _ _ _ _ _ _ t2) as [t3 [er|]]; simpl in He; (eapply tx_quiet_trans; [exact Hr|]); [done|].
      eapply tx_quiet_trans; [exact He|apply IH].
    + destruct (is_invalid_reference er); [|done]. eapply tx_quiet_trans; [exact Hr|apply IH].
Qed.

Lemma run_handlers_quiet hs e t : Forall (fun h : Handler => forall e t, tx_quiet t (h e t).1) hs -> tx_quiet t (run_handlers hs e t).1.
Proof.
  intros Hall. revert t. induction Hall as [|h hs Hh Hhs IH]; intros t; simpl; [done|].
  pose proof (Hh e t) as Hg. destruct (h e t) as [t' [err|]]; [done|]. eapply tx_quiet_trans; [exact Hg|apply IH].
Qed.

Lemma drain_event_quiet w e t : quiet_bus (wrk_Bus w) -> tx_quiet t (drain_event w e t).1.
Proof.
  intros Hb. assert (Hd : tx_quiet t (dispatch w e t).1).
  { unfold dispatch. pose proof (Hb (evt_Topic e)) as Hall. destruct (wrk_Bus w (evt_Topic e)) as [|h hs]; [done|].
    destruct (tx_aborted t); [done|]. pose proof (run_handlers_quiet (h :: hs) e t Hall) as Hr.
    destruct (run_handlers (h :: hs) e t) as [sp [err|]]; [done|]. by destruct (tx_aborted sp). }
  assert (Hu : forall (f : time -> outbox_row -> outbox_row) id t',
    tx_quiet t' (err_of (exec (fun now d => Ok (update_outbox id (f now) d, tt)) t')).1).
  { intros f id t'. apply err_of_quiet, exec_quiet. by intros n d d' a [= <- _]. }
  unfold drain_event. destruct (dispatch w e t) as [t' [err|]]; simpl in Hd; (eapply tx_quiet_trans; [exact Hd|]).
  - destruct (_ <=? _)%Z; [apply (Hu processed)|apply (Hu (rescheduled (backoffSeconds (evt_Attempts e) * Second)))].
  - apply (Hu processed).
Qed.

Lemma drainOnce_quiet w locked now d : quiet_bus (wrk_Bus w) -> quiet d (drainOnce w locked now d).1.
Proof.
  intros Hb. unfold drainOnce, WithTx. set (t0 := {| tx_db := d |}).
  pose proof (query_quiet (claim_outbox_batch locked (wrk_BatchSize w) now) t0) as Hq.
  destruct (query _ _) as [t1 [rows|e]]; [|done]. simpl in Hq.
  assert (Hd : forall b t, tx_quiet t (drain_batch w b t).1).
  { induction b as [|e b IH]; intros t; simpl; [done|]. pose proof (drain_event_quiet w e t Hb) as He.
    destruct (drain_event w e t) as [t' [err|]]; [done|]. eapply tx_quiet_trans; [exact He|apply IH]. }
  specialize (Hd (map (to_event (wrk_MaxAttempts w)) rows) t1). destruct (drain_batch w _ t1) as [t2 [err|]]; [done|].
  simpl in Hd. destruct (tx_aborted t2); [done|]. by apply (tx_quiet_trans t0 t1 t2).
Qed.

(** The automations API does not write deliveries. *)
Lemma run_service_quiet {A : Type} (body : db -> result error (db * A)) d :
  (forall d' a, body d = Ok (d', a) -> quiet d d') -> quiet d (run_service body d).1.
Proof. intros Hb. unfold run_service. destruct (body d) as [[d' a]|]; [by eapply Hb|done]. Qed.

Ltac quiet_body :=
  repeat match goal with
    | |- result_bind ?f _ = Ok _ -> _ => let E := fresh "E" in destruct f eqn:E; cbn [result_bind]; [|discriminate]
    | |- (if ?b then _ else _) = Ok _ -> _ => destruct b; try discriminate
    | |- match ?x with _ => _ end = Ok _ -> _ => let E := fresh "E" in destruct x eqn:E; try discriminate
    end.

Lemma supersede_quiet a b r v now d d' : supersede a b r v now d = Ok d' -> quiet d d'.
Proof. unfold supersede. quiet_body; by intros [= <-]. Qed.

Lemma ingest_quiet b r l k f n e s o props idem now d d' x :
  automation_ingest_event b r l k f n e s o props idem now d = Ok (d', x) -> quiet d d'.
Proof. unfold automation_ingest_event. cbv zeta. quiet_body; by intros [= <- _]. Qed.

Lemma ingestTx_quiet b r l k f input props now d d' x : ingestEventTx b r l k f input props now d = Ok (d', x) -> quiet d d'.
Proof.
  unfold ingestEventTx. destruct (automation_ingest_event _ _ _ _ _ _ _ _ _ _ _ _ _) as [[d1 row]|] eqn:Hi; [|done].
  cbn [result_bind]. destruct row as [[e c]|]; [|done]. intros [= <- _]. by eapply ingest_quiet.
Qed.

Lemma api_quiet d d' : api d d' -> quiet d d'.
Proof.
  intros [p b input now|p b a input now|p b a now|p b a v g now|p b a v now|p b a now|p b a now|p b a now|
    p b a sub now|p b a e now|p b input clock now|b r l k input clock now d0 out Hin].
  - unfold Create. destruct (validateDefinition _ _); [|done]. apply run_service_quiet. intros d2 x. cbv beta zeta. quiet_body. by intros [= <- _].
  - apply run_service_quiet. intros d2 x. cbv beta zeta. quiet_body. all: by intros [= <- _].
  - apply run_service_quiet. intros d2 x. cbv beta zeta. quiet_body. all: by intros [= <- _].
  - apply run_service_quiet. intros d2 x. cbv beta zeta. quiet_body. all: by intros [= <- _].
  - apply run_service_quiet. intros d2 x. cbv beta zeta. quiet_body.
    match goal with Hs : supersede _ _ _ _ _ _ = Ok _ |- _ => apply supersede_quiet in Hs; intros [= <- _]; exact Hs end.
  - apply run_service_quiet. intros d2 x. cbv beta zeta. quiet_body. by intros [= <- _].
  - apply run_service_quiet. intros d2 x. cbv beta zeta. quiet_body. by intros [= <- _].
  - apply run_service_quiet. intros d2 x. cbv beta zeta. quiet_body. by intros [= <- _].
  - apply run_service_quiet. intros d2 x. cbv beta zeta. quiet_body. by intros [= <- _].
  - apply run_service_quiet. intros d2 x. cbv beta zeta. quiet_body. by intros [= <- _].
  - unfold CreateEvent. destruct (prepareEvent _ _) as [[inp props]|]; [|done]. apply run_service_quiet. intros d2 x. cbv beta zeta. quiet_body.
    match goal with Hs : ingestEventTx _ _ _ _ _ _ _ _ _ = Ok _ |- _ => apply ingestTx_quiet in Hs; intros [= <- _]; exact Hs end.
  - revert Hin. unfold IngestS2SEvent. cbv zeta. quiet_body.
    match goal with Hs : ingestEventTx _ _ _ _ _ _ _ _ _ = Ok _ |- _ => apply ingestTx_quiet in Hs; intros [= <- _]; exact Hs end.
Qed.

(** ** A stepper's transaction *)

Lemma enqueue_only_refl (ds : gmap uuid delivery_row) : enqueue_only ds ds.
Proof. split; [done|]. auto. Qed.

Lemma quiet_enqueue (d d' : db) : quiet d d' -> enqueue_only (db_deliveries d) (db_deliveries d').
Proof. intros ->. apply enqueue_only_refl. Qed.

Lemma enqueue_delivery_only ds (m : MessageSpec) domain now d d' o :
  mailing_enqueue_delivery m domain now d = Ok (d', o) ->
  enqueue_only ds (db_deliveries d) -> enqueue_only ds (db_deliveries d').
Proof.
  unfold mailing_enqueue_delivery. destruct (negb _); [done|]. destruct (negb _); [by intros [= <- _]|].
  destruct (db_enrollments d !! _) as [e|]; [|by intros [= <- _]]. destruct (db_subscribers d !! _) as [sub|]; [|by intros [= <- _]].
  destruct (db_versions d !! _) as [v|]; [|by intros [= <- _]]. destruct (negb _); [by intros [= <- _]|].
  destruct (List.find _ _) as [[id r]|]; [by intros [= <- _]|]. set (id := fresh _). set (r := {| d_business := _ |}).
  intros [= <- _] [Hsub Hnew]. assert (db_deliveries d !! id = None) as Hn by (apply not_elem_of_dom, is_fresh). simpl. split.
  - etransitivity; [exact Hsub|]. by apply insert_subseteq.
  - intros i ri. rewrite lookup_insert. case_decide as Hi; [|apply Hnew]. intros [= <-]. right. subst i. split.
    + destruct (ds !! id) eqn:Hl; [|done]. eapply lookup_weaken in Hl; [|exact Hsub]. congruence.
    + split_and!; try done. by eexists _, _.
Qed.

Lemma sql_enqueue_only g enrollment now domain ds :
  SqlKeeps domain g enrollment now (fun d => enqueue_only ds (db_deliveries d)).
Proof.
  split.
  - intros r d d' b _ Hr Hd. by apply record_step_cases in Hr as [->|(e & status & new & _ & _ & _ & _ & _ & ->)].
  - intros f n d _ Hd. by destruct (fail_step_cases f n d) as [->|(e & _ & _ & _ & ->)].
  - intros m n d d' o _ He. by eapply enqueue_delivery_only.
  - intros tag d Hd. unfold mailing_automation_add_tag. destruct (negb _); [done|].
    destruct (db_subscribers d !! _) as [sub|]; [|done]. destruct (_ && _); [|done]. simpl. by destruct (existsb _ _).
  - intros tag d Hd. unfold mailing_automation_remove_tag. destruct (negb _); [done|].
    destruct (db_subscribers d !! _) as [sub|]; [|done]. by destruct (N.eqb _ _).
Qed.

Lemma advance_enqueues (s : Stepper) domain (c : claimedEnrollment) now d :
  stp_Deps s = AutomationPorts domain -> db_ok d -> claim_for d (enr_ID (claimed_Enrollment c)) (claimed_Graph c) ->
  enqueue_only (db_deliveries d) (db_deliveries (advance_tx s c now d).1).
Proof.
  intros Hdeps Hok Hcl. destruct (claim_wf _ _ _ Hok Hcl) as [refs Hwf].
  set (P := fun d' => enqueue_only (db_deliveries d) (db_deliveries d')).
  apply (WithTx_keeps P); [apply enqueue_only_refl|].
  apply (Advance_keeps (stp_engine s) SQLStepStore (claimed_Graph c) (claimed_Enrollment c) now (fun t => P (tx_db t))).
  - simpl. by rewrite Hdeps.
  - apply (sql_ports_keep s domain Hdeps), sql_enqueue_only.
  - apply (wf_node_ids _ _ Hwf).
  - apply enqueue_only_refl.
Qed.

(** ** The system of both *)

(** The automations' own transactions. *)
Inductive auto_step (domain : string) (s : sys) : sys -> Prop :=
| auto_claim locked now batch lease d' cs :
    claim locked now batch lease (sys_db s) = (d', (cs, None)) ->
    auto_step domain s {| sys_db := d'; sys_claims := sys_claims s ++ cs |}
| auto_advance stp c now :
    c ∈ sys_claims s -> stp_Deps stp = AutomationPorts domain ->
    auto_step domain s {| sys_db := (advance_tx stp c now (sys_db s)).1; sys_claims := sys_claims s |}
| auto_api d' : api (sys_db s) d' -> auto_step domain s {| sys_db := d'; sys_claims := sys_claims s |}
| auto_outbox w locked now : good_bus (wrk_Bus w) -> quiet_bus (wrk_Bus w) ->
    auto_step domain s {| sys_db := (drainOnce w locked now (sys_db s)).1; sys_claims := sys_claims s |}.

Lemma auto_sys_step domain s s' : auto_step domain s s' -> sys_step domain s s'.
Proof. intros []; by econstructor. Qed.

Lemma auto_step_enqueues domain s s' :
  auto_step domain s s' -> sys_ok s -> enqueue_only (db_deliveries (sys_db s)) (db_deliveries (sys_db s')).
Proof.
  intros Hs [Hok Hheld _]. destruct Hs as [locked now batch lease d' cs Hcl|stp c now Hc Hd|d' Hapi|w locked now Hg Hq]; simpl.
  - apply claim_inv in Hcl as (-> & _). by apply quiet_enqueue.
  - apply (advance_enqueues stp domain); [done|done|]. rewrite Forall_forall in Hheld. by apply Hheld.
  - by apply quiet_enqueue, api_quiet.
  - by apply quiet_enqueue, drainOnce_quiet.
Qed.

Record jsys := { js_mail : mdb; js_claims : list claimedEnrollment }.
Definition automations_of (j : jsys) : sys := {| sys_db := m_db (js_mail j); sys_claims := js_claims j |}.

Context `{MailCrypto} (codec : Codec) (url_ok : string -> bool).

Inductive joint_step (domain : string) (j : jsys) : jsys -> Prop :=
| joint_automations s' : auto_step domain (automations_of j) s' ->
    joint_step domain j {| js_mail := set_db (sys_db s') (js_mail j); js_claims := sys_claims s' |}
| joint_mailing op now :
    joint_step domain j {| js_mail := mail_exec codec url_ok op now (js_mail j); js_claims := js_claims j |}.

Definition joint_ok (j : jsys) : Prop := sys_ok (automations_of j) /\ mail_ok (js_mail j).

Lemma mail_environment op now m : mail_ok m -> environment (m_db m) (m_db (mail_exec codec url_ok op now m)).
Proof.
  intros Hok. assert (mail_ok (mail_exec codec url_ok op now m) /\ same_automations m (mail_exec codec url_ok op now m)) as [Hok' (Ha & Hv & He & Hs)].
  { destruct (mail_exec_good codec url_ok op now m) as [Hg|[Hg|[_ Hg]]].
    - destruct (Hg Hok) as [? [? _ _ _]]. by split.
    - destruct (Hg Hok) as [? (_ & _ & ? & _)]. by split.
    - split; [by eapply requeue_ok|]. destruct Hg as [-> _]. done. }
  split_and!; try done. apply Hok'.
Qed.

Lemma automations_outside domain (m : mdb) (cs : list claimedEnrollment) s' :
  auto_step domain {| sys_db := m_db m; sys_claims := cs |} s' -> sys_ok {| sys_db := m_db m; sys_claims := cs |} ->
  outside m (set_db (sys_db s') m).
Proof.
  intros Hs Hok. split; try done.
  - by apply (auto_step_enqueues domain _ s' Hs).
  - apply (ok_deliveries (sys_db s')). by apply (sys_step_ok domain _ s' (auto_sys_step _ _ _ Hs) Hok).
Qed.

(** Each side meets what the other assumes. *)
Lemma joint_step_sides domain j j' :
  joint_step domain j j' -> joint_ok j ->
  sys_step domain (automations_of j) (automations_of j') /\ mail_step codec url_ok (js_mail j) (js_mail j').
Proof.
  intros [s' Hs|op now] [Hsys Hmail].
  - split; [by destruct s'; apply auto_sys_step|]. apply step_outside. by eapply automations_outside.
  - split; [|by constructor]. refine (step_environment domain (automations_of j) _ _). by apply mail_environment.
Qed.

Lemma joint_step_ok domain j j' : joint_step domain j j' -> joint_ok j -> joint_ok j'.
Proof.
  intros Hs Hok. destruct (joint_step_sides domain j j' Hs Hok) as [H1' H2']. destruct Hok as [Hsys Hmail]. split.
  - by eapply sys_step_ok.
  - by apply (mail_step_ok codec url_ok (js_mail j) (js_mail j')).
Qed.

Lemma joint_runs domain j j' :
  rtc (joint_step domain) j j' -> joint_ok j ->
  joint_ok j' /\ rtc (sys_step domain) (automations_of j) (automations_of j') /\ rtc (mail_step codec url_ok) (js_mail j) (js_mail j').
Proof.
  intros Hr. induction Hr as [j|j j1 j' Hs _ IH]; intros Hok; [done|].
  destruct (joint_step_sides domain j j1 Hs Hok) as [H1' H2']. destruct (IH (joint_step_ok domain j j1 Hs Hok)) as (Hok' & Ha & Hm).
  split_and!; [done|by eapply rtc_l|by eapply rtc_l].
Qed.
End Quiet.
