(* ===== verification/MailTheorems.v ===== *)
(** * Mailing: the properties *)

From S2P Require Import Prelude GoStrings GoTime GoJson AutoGraph Errors AutoEngine AutoStore AutoStoreFacts AutoStepper AutoService AutoEvents AutoSystem AutoSafety.
From S2P Require Import MailToken MailProvider MailStore MailFeedback MailService MailFacts MailOps MailFanout MailRequests.
From S2P Require Import MailWorker MailSafety MailRollup MailSend MailWebhook MailJoint.
#[local] Open Scope go_scope.

Section Theorems.
Context `{UnicodeTables, UUIDLib, Authz, MailCrypto, EventLib} (codec : Codec) (url_ok : string -> bool).

(** C9: The mailing tables keep their invariant under every interleaving of
    requests, workers, tracking links, webhooks and other subsystems: one
    delivery per source and subscriber; a lease exactly while sending, attempts
    never above the claim generation, a provider id on what is sent,
    delivered or complained of, and otherwise at most on what bounced; a
    campaign's deliveries belong to its tenant, to a campaign that has started and
    lie behind its cursor; a sent campaign has no open delivery; the rollup queue
    refers to campaigns. *)
Theorem mailing_invariant (m m' : mdb) :
  mail_ok m -> rtc (mail_step codec url_ok) m m' -> mail_ok m'.
Proof. intros Hok Hr. by apply (mail_reachable_ok codec url_ok m m'). Qed.

(** C11: The life of a delivery: whom it is for and what it is about never change; a
    delivery that was sent, failed, was suppressed or cancelled is never queued or
    sending again, and its status only moves on as provider feedback allows; a
    provider id stays; the claim generation never decreases.  Once a claim of the
    delivery is lost, nothing its worker does has any effect, ever. *)
Theorem delivery_lifecycle (id : uuid) (m m' : mdb) (r : delivery_row) :
  mail_ok m -> m_deliveries m !! id = Some r -> rtc (keeps_delivery codec url_ok id) m m' ->
  exists r', m_deliveries m' !! id = Some r' /\ r' = with_state (d_st r') r /\
    leads (ds_status (d_st r)) (ds_status (d_st r')) = true /\
    (open_status (ds_status (d_st r)) = false -> open_status (ds_status (d_st r')) = false) /\
    (forall p, ds_provider_id (d_st r) = Some p -> ds_provider_id (d_st r') = Some p) /\
    (ds_generation (d_st r) <= ds_generation (d_st r'))%Z /\
    (forall g, claim_lost r g -> claim_inert m' id g).
Proof.
  intros Hok Hr Hrun. destruct (delivery_history codec url_ok id m m' r Hok Hrun Hr) as (_ & r' & Hr' & Hev). exists r'.
  split; [done|]. pose proof Hev as [Hid [Hl Hg _ Hp _ _]]. split_and!; try done.
  - by apply leads_closed.
  - lia.
  - intros g Hlost. apply (lost_inert m' id r'); [done|]. by eapply claim_lost_evolved.
Qed.

(** C10: Every mail a worker's cycle hands to the provider was authorized when it was
    sent: the worker held the current claim of the delivery; the business and list
    were operational, the recipient active, the profile verified, the campaign
    sending or the enrollment still authorizing it, and the address not
    suppressed; it went to the delivery's address under its message id; and its
    unsubscribe link carries this subscriber.  Whatever other transactions do
    between the worker's. *)
Theorem sends_authorized (base : string) (used : uuid -> Prop) (w : SendWorker) (env : tick_env) (m m' : mdb) (sent : list sent_mail) :
  mail_ok m -> (forall id, is_Some (m_deliveries m !! id) -> used id) -> (forall c s, used (tk_newid env c s)) ->
  (forall d, steady used (tk_deliveries env d)) -> MailWorker.Tick codec base w env m = (m', Ok sent) ->
  mail_ok m' /\ Forall (authorized_mail codec base) sent.
Proof.
  intros Hok Hu Hn Hst Ht. destruct (Tick_authorized codec base used w env m m' (Ok sent) Hok Hu Hn Hst Ht) as [? Hs].
  split; [done|by apply Hs].
Qed.

(** C12: Following the unsubscribe link of a mail ends the mail: the subscriber is
    marked, and in the state this leaves no delivery to it, nor to its address on
    behalf of the business, can be claimed or renewed for sending, and no campaign
    of the business fans out to it. *)
Theorem unsubscribe_stops_mail (s k : uuid) (row : subscriber_row) (now : time) (m m' : mdb) :
  is_uuid s -> is_uuid k -> db_subscribers (m_db m) !! s = Some row ->
  Unsubscribe codec (EncodeUnsubscribe codec s k) now m = (m', Ok tt) ->
  db_subscribers (m_db m') !! s = Some (with_subscriber_status "unsubscribed" row) /\ unreachable m' s row.
Proof. apply unsubscribe_link. Qed.

(** A campaign that was cancelled or sent stays so, and sends nothing more
    whatever happens: none of its deliveries is claimed or renewed, nobody is
    added to it. *)
Theorem ended_campaign_silent (c : uuid) (m m' : mdb) (x : campaign_row) :
  mail_ok m -> m_campaigns m !! c = Some x -> ended (cm_status x) = true -> rtc (keeps_campaign codec url_ok c) m m' ->
  exists x', m_campaigns m' !! c = Some x' /\ cm_status x' = cm_status x /\ cm_content x' = cm_content x /\ silent m' c.
Proof.
  intros Hok Hx He Hr. destruct (campaign_history codec url_ok c m m' x Hok Hr Hx) as (Hok' & x' & Hx' & Hev). exists x'.
  pose proof (ended_leads _ _ He (cev_status _ _ Hev)) as Hs. split_and!; [done|done| |].
  - apply (cev_content _ _ Hev). by destruct (cm_status x).
  - apply (ended_silent m' c x' Hok' Hx'). by rewrite Hs.
Qed.

(** C13: The fan-out of a started campaign ends and is exact: batches of any sizes
    that add up to the number of addressable subscribers finish it, and then every
    addressable subscriber has exactly one delivery, to its own address and queued,
    and nobody else has one. *)
Theorem fanout_exact (cid : uuid) (domain : string) (newid : uuid -> uuid) (rounds : list (Z * time)) (m : mdb) (c : campaign_row) :
  mail_ok m -> Inj (=) (=) newid -> message_domain_ok domain = true -> rounds <> [] -> fanning cid newid m c ->
  cm_cursor c = None -> length (fanout_eligible m c None) <= capacity rounds ->
  exists m' c', fanout_rounds cid domain newid rounds m = Ok m' /\ m_campaigns m' !! cid = Some c' /\ cm_fanout_done c' = true /\
    reaches_exactly m m' cid c.
Proof. apply fanout_reaches. Qed.

(** C15: Provider webhooks are idempotent: once a webhook was applied, delivering it
    again, at any time and in any lock situation, is answered the same way and
    changes nothing but the queue of pending webhooks.  This is for tables in
    which no stored webhook is marked applied (applying one removes it; only rows
    from before 0134 were marked so) and a stored copy of this webhook carries
    the same events. *)
Theorem webhook_applied_once (locked locked' : gset uuid) (i : webhook_input) (now now' : time) (m m' : mdb) :
  stored_ok i m -> mailing_process_provider_webhook locked i now m = Ok (m', WApplied) ->
  exists hooks, mailing_process_provider_webhook locked' i now' m' = Ok (set_webhooks hooks m', WApplied).
Proof. intros Hs Hp. destruct (process_applied _ _ _ _ _ Hs Hp). by apply known_process. Qed.

End Theorems.

Section Composition.
Context `{UnicodeTables, UUIDLib, ZoneDB, URLLib, UUIDHash, Authz, EventLib, MailCrypto} (codec : Codec) (url_ok : string -> bool).

(** C16: Automations and mailing compose: in the system where the transactions of the
    steppers, the automations API, the outbox workers, the mailing API, the send
    workers and the public endpoints interleave on the shared database, both
    invariants hold throughout; every run is a run of the automations in an
    environment they allow for, and of mailing with the outside it allows for, so
    all that is proved of either holds of both together. *)
Theorem automations_mailing_compose (domain : string) (j j' : jsys) :
  joint_ok j -> rtc (joint_step codec url_ok domain) j j' ->
  joint_ok j' /\ rtc (sys_step domain) (automations_of j) (automations_of j') /\
  rtc (mail_step codec url_ok) (js_mail j) (js_mail j').
Proof. intros Hok Hr. by apply joint_runs. Qed.
End Composition.
