(* ===== verification/MailWitness.v ===== *)
(** * Mailing: a run, the properties applied to it, and where the code falls short

    A tenant with one list and three subscribers and a verified sending profile; a
    campaign is written, sent, fanned out and delivered; one subscriber opens its
    mail and unsubscribes, for another the provider reports a bounce.  Each property
    of mailing is applied to this run; then three behaviours of the send pipeline
    that its design does not intend are shown on runs. *)

From S2P Require Import Prelude GoStrings GoTime GoJson AutoGraph Errors AutoEngine Concrete AutoStore AutoStoreFacts AutoStepper AutoService AutoEvents AutoSystem AutoDemo AutoSafety.
From S2P Require Import MailToken MailProvider MailStore MailFeedback MailService MailFacts MailOps MailFanout MailRequests.
From S2P Require Import MailWorker MailSafety MailRollup MailSend MailWebhook MailJoint MailTheorems.
From stdpp Require Import sorting.
#[local] Open Scope go_scope.
#[local] Existing Instances demo_unicode demo_uuid demo_zones demo_urls demo_hash demo_authz demo_events demo_crypto.

Definition demo_subscriber (email : string) (tags : list string) : subscriber_row :=
  {| s_business := 1; s_root := 1; s_list := 1; s_email := email; s_first_name := None; s_last_name := None;
     s_status := "active"; s_tags := tags |}.

Definition demo_profile : profile_row :=
  {| pf_business := 1; pf_root := 1; pf_mode := "resend"; pf_from_email := "news@example.com"; pf_from_name := "News";
     pf_reply_to := None; pf_postal_address := Some "1 Main St"; pf_status := "verified"; pf_feedback := "ready";
     pf_updated_at := 0 |}.

Definition mail_demo : mdb :=
  {| m_db := set_subscribers (list_to_map [(21%N, demo_subscriber "ada@example.com" []);
                                           (22%N, demo_subscriber "bob@example.com" ["vip"]);
                                           (23%N, demo_subscriber "eve@example.com" [])]) demo_db;
     m_campaigns := ∅; m_profiles := {[ 30%N := demo_profile ]}; m_suppressions := ∅; m_blocked := ∅; m_events := [];
     m_dedupe := ∅; m_webhooks := ∅; m_rollups := ∅ |}.

Definition mail_run (ops : list (mail_op * time)) (m : mdb) : mdb :=
  fold_left (fun m x => mail_exec demo_codec (fun _ => true) (fst x) (snd x) m) ops m.

Definition demo_campaign : CampaignInput :=
  {| cin_ListID := 1; cin_Name := "Spring"; cin_Subject := "Hello"; cin_Preheader := None; cin_BodyMarkdown := "# Hi";
     cin_TagFilter := []; cin_TrackOpens := true; cin_TrackClicks := true |}.

Definition demo_sender : workerProfile :=
  {| wp_FromEmail := "news@example.com"; wp_fromName := "News"; wp_replyTo := None |}.

Definition demo_newid (s : uuid) : uuid := (1000 + s)%N.

(** Written and scheduled. *)
Definition mail_scheduled : mdb := mail_run [(MCreate 7 1 demo_campaign 100, 10%Z); (MSend 7 1 100 None 20, 20%Z)] mail_demo.
(** Claimed for the fan-out. *)
Definition mail_started : mdb := mail_run [(MClaimCampaigns ∅ 4, 30%Z)] mail_scheduled.
(** Fanned out in two batches. *)
Definition mail_fanned : mdb :=
  mail_run [(MFanout 100 2 "mail.example.com" demo_newid, 40%Z); (MFanout 100 2 "mail.example.com" demo_newid, 50%Z)] mail_started.
(** Claimed; the first delivery sent, the second bounced, the third put back. *)
Definition mail_claimed : mdb := mail_run [(MClaim ∅ false 10 (2 * Minute), 60%Z)] mail_fanned.
Definition mail_done : mdb :=
  mail_run [(MRenew 1021 1 (2 * Minute), 70%Z); (MComplete ∅ 1021 1 "p-1", 80%Z); (MComplete ∅ 1022 1 "p-2", 81%Z);
            (MRelease 1023 1 95, 82%Z);
            (MWebhook ∅ {| wi_profile := 30; wi_provider := "resend"; wi_event := "ev-1";
                           wi_events := [{| pe_message_id := "p-2"; pe_recipient := "bob@example.com"; pe_kind := TBounce;
                                            pe_occurred_at := None |}];
                           wi_envelope_octets := 10; wi_events_octets := 10 |}, 90%Z)] mail_claimed.

Abbreviation any_url := (fun _ : string => true).

(** ** Runs *)

Lemma mail_run_steps (ops : list (mail_op * time)) (m : mdb) : rtc (mail_step demo_codec any_url) m (mail_run ops m).
Proof.
  revert m. induction ops as [|[op now] ops IH]; intros m; [done|]. eapply rtc_l; [|apply IH]. apply (step_op _ _ m op now).
Qed.

(** Every state of the run satisfies a test. *)
Fixpoint mail_run_all (test : mdb -> bool) (ops : list (mail_op * time)) (m : mdb) : bool :=
  match ops with
  | [] => true
  | (op, now) :: ops => let m := mail_exec demo_codec any_url op now m in test m && mail_run_all test ops m
  end.

Lemma mail_run_keeps_delivery (id : uuid) (ops : list (mail_op * time)) (m : mdb) :
  mail_run_all (fun m => bool_decide (is_Some (m_deliveries m !! id))) ops m = true ->
  rtc (keeps_delivery demo_codec any_url id) m (mail_run ops m).
Proof.
  revert m. induction ops as [|[op now] ops IH]; intros m Hall; [done|]. simpl in Hall. apply andb_true_iff in Hall as [Ht Hall].
  eapply rtc_l; [|by apply IH]. split; [apply (step_op _ _ m op now)|]. by apply bool_decide_eq_true in Ht.
Qed.

Lemma mail_run_keeps_campaign (c : uuid) (ops : list (mail_op * time)) (m : mdb) :
  mail_run_all (fun m => bool_decide (is_Some (m_campaigns m !! c))) ops m = true ->
  rtc (keeps_campaign demo_codec any_url c) m (mail_run ops m).
Proof.
  revert m. induction ops as [|[op now] ops IH]; intros m Hall; [done|]. simpl in Hall. apply andb_true_iff in Hall as [Ht Hall].
  eapply rtc_l; [|by apply IH]. split; [apply (step_op _ _ m op now)|]. by apply bool_decide_eq_true in Ht.
Qed.

Lemma mail_demo_ok : mail_ok mail_demo.
Proof. by split. Qed.

Lemma mail_run_ok (ops : list (mail_op * time)) (m : mdb) : mail_ok m -> mail_ok (mail_run ops m).
Proof. apply (mail_reachable_ok demo_codec any_url), mail_run_steps. Qed.

Lemma mail_started_ok : mail_ok mail_started.
Proof. by apply mail_run_ok, mail_run_ok, mail_demo_ok. Qed.
Lemma mail_fanned_ok : mail_ok mail_fanned.
Proof. apply mail_run_ok, mail_started_ok. Qed.
Lemma mail_claimed_ok : mail_ok mail_claimed.
Proof. apply mail_run_ok, mail_fanned_ok. Qed.
Lemma mail_done_ok : mail_ok mail_done.
Proof. apply mail_run_ok, mail_claimed_ok. Qed.

(** ** Witnesses *)

Lemma mailing_invariant_witness : mail_ok mail_done.
Proof. apply (mailing_invariant demo_codec any_url mail_claimed mail_done); [apply mail_claimed_ok|apply mail_run_steps]. Defined.

Lemma delivery_lifecycle_witness :
  match m_deliveries mail_claimed !! 1022%N with
  | Some r => ds_status (d_st r) = DSending /\
              exists r', m_deliveries mail_done !! 1022%N = Some r' /\ d_email r' = d_email r /\ claim_inert mail_done 1022 0
  | None => False
  end.
Proof.
  assert (Hs : option_map (fun r => (ds_status (d_st r), ds_generation (d_st r))) (m_deliveries mail_claimed !! 1022%N) = Some (DSending, 1%Z))
    by (vm_compute; reflexivity).
  destruct (m_deliveries mail_claimed !! 1022%N) as [r|] eqn:Hr; [|discriminate Hs]. injection Hs as Hs Hg. split; [exact Hs|].
  destruct (delivery_lifecycle demo_codec any_url 1022 mail_claimed mail_done r mail_claimed_ok Hr) as (r' & Hr' & Hid & _ & _ & _ & _ & Hlost).
  { apply mail_run_keeps_delivery. vm_compute. reflexivity. }
  exists r'. split; [exact Hr'|]. split; [by rewrite Hid|]. apply Hlost. left. rewrite Hg. lia.
Defined.

Definition demo_worker_cfg : SendWorker :=
  {| w_Batch := 0; w_Lease := 0; w_FanoutGlobal := 0; w_FanoutPerCampaign := 0; w_RollupBatch := 0;
     w_MessageDomain := "mail.example.com" |}.
Definition demo_delivery_env (d : claimedDelivery) : delivery_env :=
  {| de_allow := true; de_client := Ok demo_sender;
     de_render := fun v _ => Ok {| rd_Text := va_UnsubscribeURL v; rd_HTML := "<p>Hi</p>" +:+ va_UnsubscribeURL v |}; de_send := Ok (cd_MessageID d);
     de_now := 100; de_now_fail := 100; de_db_now := 100; de_interfere := fun m => m; de_interfere_send := fun m => m; de_locked := ∅ |}.
Definition demo_tick : tick_env :=
  {| tk_locked := ∅; tk_cancel_first := false; tk_now := 100; tk_token := 5; tk_newid := fun c s => (1000 + s)%N;
     tk_deliveries := demo_delivery_env |}.

Definition demo_cycle : mdb * result error (list sent_mail) :=
  MailWorker.Tick demo_codec "https://example.com/" demo_worker_cfg demo_tick mail_scheduled.

(** One cycle fans the campaign out and sends it to all three subscribers. *)
Lemma sends_authorized_witness :
  match demo_cycle with
  | (m', Ok sent) => map (fun s => og_To (sm_mail s)) sent = ["ada@example.com"; "bob@example.com"; "eve@example.com"] /\
                     Forall (authorized_mail demo_codec "https://example.com/") sent
  | _ => False
  end.
Proof.
  assert (Hs : match demo_cycle.2 with Ok sent => Some (map (fun s => og_To (sm_mail s)) sent) | Err _ => None end =
    Some ["ada@example.com"; "bob@example.com"; "eve@example.com"]) by (vm_compute; reflexivity).
  destruct demo_cycle as [m' [sent|e]] eqn:Ht; simpl in Hs; [|discriminate Hs]. unfold demo_cycle in Ht. split; [by injection Hs|].
  refine (proj2 (sends_authorized demo_codec "https://example.com/" (fun _ => True) demo_worker_cfg demo_tick mail_scheduled m' sent
    _ (fun _ _ => I) (fun _ _ => I) _ Ht)).
  - apply mail_run_ok, mail_demo_ok.
  - intros d m. split; (intros Hok; split; [exact Hok|]; intros id r' _ Hl; exists r'; split; [exact Hl|reflexivity]).
Defined.

Lemma unsubscribe_stops_mail_witness :
  exists m', Unsubscribe demo_codec (EncodeUnsubscribe demo_codec 21 100) 200 mail_done = (m', Ok tt) /\
    unreachable m' 21 (demo_subscriber "ada@example.com" []).
Proof.
  exists (Unsubscribe demo_codec (EncodeUnsubscribe demo_codec 21 100) 200 mail_done).1.
  assert (Hu : Unsubscribe demo_codec (EncodeUnsubscribe demo_codec 21 100) 200 mail_done =
    ((Unsubscribe demo_codec (EncodeUnsubscribe demo_codec 21 100) 200 mail_done).1, Ok tt)).
  { assert (Ho : (Unsubscribe demo_codec (EncodeUnsubscribe demo_codec 21 100) 200 mail_done).2 = Ok tt) by (vm_compute; reflexivity).
    destruct (Unsubscribe _ _ _ _) as [m' o]. simpl in *. by rewrite Ho. }
  split; [exact Hu|].
  refine (proj2 (unsubscribe_stops_mail demo_codec 21 100 (demo_subscriber "ada@example.com" []) 200 mail_done _ eq_refl eq_refl _ Hu)).
  vm_compute. reflexivity.
Defined.

(** The campaign is cancelled while a delivery waits; a later claim finds nothing. *)
Definition mail_cancelled : mdb := mail_run [(MCancel 7 1 100, 300%Z)] mail_done.
Definition mail_after : mdb := mail_run [(MClaim ∅ true 10 (2 * Minute), 400%Z); (MFanout 100 9 "mail.example.com" demo_newid, 500%Z)] mail_cancelled.

Lemma ended_campaign_silent_witness :
  match m_campaigns mail_cancelled !! 100%N with
  | Some x => cm_status x = CCancelled /\ silent mail_after 100
  | None => False
  end.
Proof.
  assert (Hs : option_map cm_status (m_campaigns mail_cancelled !! 100%N) = Some CCancelled) by (vm_compute; reflexivity).
  destruct (m_campaigns mail_cancelled !! 100%N) as [x|] eqn:Hx; [|discriminate Hs]. injection Hs as Hs. split; [exact Hs|].
  destruct (ended_campaign_silent demo_codec any_url 100 mail_cancelled mail_after x) as (x' & _ & _ & _ & Hsil); [| | | |exact Hsil].
  - apply mail_run_ok, mail_done_ok.
  - exact Hx.
  - by rewrite Hs.
  - apply mail_run_keeps_campaign. vm_compute. reflexivity.
Defined.

Lemma fanout_exact_witness :
  match m_campaigns mail_started !! 100%N with
  | Some c => exists m', fanout_rounds 100 "mail.example.com" demo_newid [(2, 40); (2, 50)]%Z mail_started = Ok m' /\
                reaches_exactly mail_started m' 100 c
  | None => False
  end.
Proof.
  assert (Hs : match m_campaigns mail_started !! 100%N with
               | Some c => cm_status c = CSending /\ cm_fanout_done c = false /\ cm_cursor c = None /\
                           campaign_operational mail_started c = true /\ length (fanout_eligible mail_started c None) = 3
               | None => False
               end) by (vm_compute; repeat split).
  destruct (m_campaigns mail_started !! 100%N) as [c|] eqn:Hc; [|destruct Hs]. destruct Hs as (H1 & H2 & H3 & H4 & H5).
  destruct (fanout_exact 100 "mail.example.com" demo_newid [(2, 40); (2, 50)]%Z mail_started c) as (m' & c' & Hr & _ & _ & Hex);
    [| | | | | | |exists m'; split; [exact Hr|exact Hex]].
  - apply mail_started_ok.
  - unfold demo_newid. intros a b. lia.
  - vm_compute. reflexivity.
  - discriminate.
  - split; [exact Hc|exact H1|exact H2|exact H4|]. intros s _. assert (m_deliveries mail_started = ∅) as -> by (vm_compute; reflexivity).
    apply lookup_empty.
  - exact H3.
  - rewrite H5. apply Nat.leb_le. vm_compute. reflexivity.
Defined.

Definition demo_webhook : webhook_input :=
  {| wi_profile := 30; wi_provider := "resend"; wi_event := "ev-9";
     wi_events := [{| pe_message_id := "p-1"; pe_recipient := "ada@example.com"; pe_kind := TDelivered; pe_occurred_at := None |}];
     wi_envelope_octets := 10; wi_events_octets := 10 |}.

Lemma webhook_applied_once_witness :
  exists m' hooks, mailing_process_provider_webhook ∅ demo_webhook 600 mail_done = Ok (m', WApplied) /\
    mailing_process_provider_webhook ∅ demo_webhook 700 m' = Ok (set_webhooks hooks m', WApplied).
Proof.
  assert (Ho : match mailing_process_provider_webhook ∅ demo_webhook 600 mail_done with Ok (_, o) => Some o | Err _ => None end = Some WApplied)
    by (vm_compute; reflexivity).
  destruct (mailing_process_provider_webhook ∅ demo_webhook 600 mail_done) as [[m' o]|] eqn:Hp; [|discriminate Ho]. injection Ho as Ho. subst o.
  destruct (webhook_applied_once ∅ ∅ demo_webhook 600 700 mail_done m') as [hooks Hh]; [|exact Hp|exists m', hooks; split; [reflexivity|exact Hh]].
  assert (m_webhooks mail_done = ∅) as He by (vm_compute; reflexivity). intros id w. rewrite He, lookup_empty. discriminate.
Defined.

(** The worker with token 5 rolls the campaign up. *)
Definition rollup_sys (m : mdb) (done : gset (uuid * uuid)) : rsys := {| rs_db := m; rs_done := done |}.

Lemma mail_run_rollup (ops : list (mail_op * time)) (m : mdb) (done : gset (uuid * uuid)) :
  forallb (fun x => negb (rollup_op (fst x))) ops = true ->
  rtc (rollup_step demo_codec any_url) (rollup_sys m done) (rollup_sys (mail_run ops m) done).
Proof.
  revert m. induction ops as [|[op now] ops IH]; intros m Hall; [done|]. simpl in Hall. apply andb_true_iff in Hall as [Ht Hall].
  eapply rtc_l; [|by apply IH]. apply (rs_op _ _ (rollup_sys m done) op now). by apply negb_true_iff.
Qed.

Definition mail_rolled : mdb := rollupChangedCampaigns demo_worker_cfg ∅ 5 110 undisturbed mail_done.


(** A tenant creates an automation while mailing runs. *)
Definition joint_demo : jsys := {| js_mail := mail_demo; js_claims := [] |}.
Definition joint_created : jsys :=
  {| js_mail := set_db (Create 7 1 demo_input 0 (m_db mail_demo)).1 mail_demo; js_claims := [] |}.
Definition joint_sent : jsys :=
  {| js_mail := mail_exec demo_codec any_url (MCreate 7 1 demo_campaign 100) 10 (js_mail joint_created); js_claims := [] |}.

Lemma joint_demo_ok : joint_ok joint_demo.
Proof.
  split; [|apply mail_demo_ok]. apply sys_start_ok. split; [|done]. repeat split; simpl; intros *; by rewrite ?lookup_empty.
Qed.

Lemma automations_mailing_compose_witness :
  joint_ok joint_sent /\ map fst (map_to_list (m_campaigns (js_mail joint_sent))) = [100%N] /\
  map fst (map_to_list (db_automations (m_db (js_mail joint_sent)))) = [0%N].
Proof.
  split; [|vm_compute; by split].
  refine (proj1 (automations_mailing_compose demo_codec any_url "mail.example.com" joint_demo joint_sent joint_demo_ok _)).
  eapply rtc_l; [|apply rtc_once; apply (joint_mailing _ _ _ joint_created)].
  refine (joint_automations _ _ _ joint_demo {| sys_db := (Create 7 1 demo_input 0 (m_db mail_demo)).1; sys_claims := [] |} _).
  apply (auto_api _ (automations_of joint_demo)). apply (api_create (m_db mail_demo)).
Defined.

(** ** A campaign nobody is eligible for never completes *)

(** Nothing is left for a cycle to do. *)
Definition quiescent (m : mdb) : Prop :=
  m_webhooks m = ∅ /\ m_deliveries m = ∅ /\ m_rollups m = ∅ /\
  forall c x, m_campaigns m !! c = Some x -> cm_status x = CSending /\ cm_fanout_done x = true.

Lemma not_due (m : mdb) (now : time) (locked : gset uuid) :
  (forall c x, m_campaigns m !! c = Some x -> cm_status x = CSending /\ cm_fanout_done x = true) ->
  List.filter (fun x => unlocked locked (fst x) && fanout_due m now (snd x)) (map_to_list (m_campaigns m)) = [].
Proof.
  intros Hall. destruct (List.filter _ _) as [|[c x] l] eqn:He; [done|]. exfalso.
  assert (In (c, x) (List.filter (fun x => unlocked locked (fst x) && fanout_due m now (snd x)) (map_to_list (m_campaigns m)))) as Hin
    by (rewrite He; by left).
  apply filter_In in Hin as [Hin [_ Hd]%andb_true_iff]. apply list_elem_of_In, elem_of_map_to_list in Hin.
  destruct (Hall _ _ Hin) as [Hs Hf]. simpl in Hd. unfold fanout_due in Hd. by rewrite Hs, Hf in Hd.
Qed.

Lemma quiescent_tick (codec : Codec) (base : string) (w : SendWorker) (env : tick_env) (m : mdb) :
  quiescent m -> MailWorker.Tick codec base w env m = (m, Ok []).
Proof.
  intros (Hw & Hd & Hr & Hc). pose proof (not_due m (tk_now env) (tk_locked env) Hc) as Hnd. clear Hc. unfold MailWorker.Tick.
  assert (mailing_prune_expired_provider_webhooks (tk_locked env) providerWebhookPruneBudget (tk_now env) m = (m, 0%Z)) as ->.
  { unfold mailing_prune_expired_provider_webhooks. rewrite Hw, map_to_list_empty. destruct m; simpl in *; by subst. }
  destruct (fanout_budgets w) as [[g p] limit].
  assert (mailing_claim_campaigns_for_fanout (tk_locked env) limit (tk_now env) m = (m, [])) as ->.
  { unfold mailing_claim_campaigns_for_fanout. rewrite Hnd. cbn zeta.
    change (merge_sort ?R []) with (@nil (uuid * campaign_row)). by rewrite take_nil. }
  cbn [fanout_campaigns]. assert (forall b l, mailing_claim_deliveries (tk_locked env) (tk_cancel_first env) b l (tk_now env) m = (m, [])) as Hcl.
  { intros b l. unfold mailing_claim_deliveries. rewrite Hd, map_to_list_empty. cbn [List.filter]. cbn zeta.
    change (merge_sort ?R []) with (@nil (uuid * delivery_row)). rewrite !take_nil. simpl.
    by destruct (tk_cancel_first env). }
  unfold claimDeliveries. rewrite Hcl. cbn [scan_deliveries deliver_all].
  unfold rollupChangedCampaigns, mailing_claim_changed_campaign_rollups, undisturbed. rewrite Hr, map_to_list_empty. cbn zeta. cbn [List.filter].
  change (merge_sort ?R []) with (@nil (uuid * rollup_row)). rewrite take_nil. simpl. f_equal. rewrite <- Hr. by destruct m.
Qed.

Definition nobody_campaign : CampaignInput :=
  {| cin_ListID := 1; cin_Name := "Nobody"; cin_Subject := "Hello"; cin_Preheader := None; cin_BodyMarkdown := "# Hi";
     cin_TagFilter := ["gold"]; cin_TrackOpens := false; cin_TrackClicks := false |}.

(** Sent to a tag no subscriber has, claimed and fanned out. *)
Definition mail_nobody : mdb :=
  mail_run [(MCreate 7 1 nobody_campaign 100, 10%Z); (MSend 7 1 100 None 20, 20%Z); (MClaimCampaigns ∅ 4, 30%Z);
            (MFanout 100 250 "mail.example.com" demo_newid, 40%Z)] mail_demo.

(** The campaign is fanned out and has nothing to send, so it is done; but the
    rollup that would mark it sent is only queued by a change of a delivery, and
    every later cycle leaves it as it is: it stays "sending" for ever. *)
Theorem empty_campaign_never_completes :
  (match m_campaigns mail_nobody !! 100%N with
   | Some x => cm_status x = CSending /\ cm_fanout_done x = true /\ drained mail_nobody 100 = true
   | None => False
   end) /\
  forall codec base w env, MailWorker.Tick codec base w env mail_nobody = (mail_nobody, Ok []).
Proof.
  split; [vm_compute; repeat split|]. intros codec base w env. apply quiescent_tick.
  do 3 (split; [vm_compute; reflexivity|]).
  assert (forallb (fun x => bool_decide (cm_status (snd x) = CSending) && cm_fanout_done (snd x)) (map_to_list (m_campaigns mail_nobody)) = true)
    as Hall by (vm_compute; reflexivity).
  revert Hall. generalize (m_campaigns mail_nobody). intros cs Hall c x Hx. rewrite forallb_forall in Hall.
  specialize (Hall (c, x)). apply elem_of_map_to_list, list_elem_of_In in Hx.
  specialize (Hall Hx). apply andb_true_iff in Hall as [Hs Hf]. by apply bool_decide_eq_true in Hs.
Qed.

(** ** The count of unsubscribes goes stale *)

(** All counted and nothing queued; then a subscriber follows its link. *)
Definition mail_counted : mdb :=
  mail_run [(MClaimRollups ∅ 5 100 60, 100%Z); (MRollup 100, 100%Z); (MCompleteRollups 5 [100%N], 100%Z)] mail_done.
Definition mail_left : mdb := mail_run [(MUnsubscribe (EncodeUnsubscribe demo_codec 21 100), 200%Z)] mail_counted.

(** The unsubscribe is on record for the campaign, but the event does not queue a
    rollup as a change of a delivery would: the counter stays as it was, with
    nothing queued to correct it. *)
Theorem unsubscribe_count_stale :
  match m_campaigns mail_left !! 100%N with
  | Some x => n_unsubscribed (cm_counts x) = 0%Z /\ unsubscribed_count mail_left 100 = 1%Z /\ m_rollups mail_left = ∅
  | None => False
  end.
Proof. vm_compute. repeat split. Qed.

(** ** A delivery of an automation whose enrollment moved on *)

(** The mail a stepper enqueued was not sent before the enrollment's wait ended, and
    the enrollment is claimed for its next step. *)
Definition reclaimed : db := (claim ∅ (2 * 24 * Hour) 10 (2 * Minute) demo_advanced).1.
Definition mail_overtaken : mdb := set_db reclaimed mail_demo.

Definition overtaken_env (now : time) (d : claimedDelivery) : delivery_env :=
  {| de_allow := true; de_client := Ok demo_sender; de_render := fun v _ => Ok {| rd_Text := va_UnsubscribeURL v; rd_HTML := "" |}; de_send := Ok "p-1"; de_now := now;
     de_now_fail := now; de_db_now := now; de_interfere := fun m => m; de_interfere_send := fun m => m; de_locked := ∅ |}.
Definition overtaken_tick (now : time) : tick_env :=
  {| tk_locked := ∅; tk_cancel_first := false; tk_now := now; tk_token := 5; tk_newid := fun c s => (1000 + s)%N;
     tk_deliveries := overtaken_env now |}.
Definition overtaken_worker : SendWorker :=
  {| w_Batch := 0; w_Lease := 0; w_FanoutGlobal := 0; w_FanoutPerCampaign := 0; w_RollupBatch := 0;
     w_MessageDomain := "mail.example.com" |}.
Definition overtaken_cycle (now : time) (m : mdb) : mdb * result error (list sent_mail) :=
  MailWorker.Tick demo_codec "https://example.com" overtaken_worker (overtaken_tick now) m.
Definition attempts_of (m : mdb) : option (delivery_status * Z) :=
  option_map (fun r => (ds_status (d_st r), ds_attempts (d_st r))) (m_deliveries m !! 0%N).

(** Claiming looks at the enrollment's status only, renewing also at its claim
    generation: every cycle claims the delivery, sends nothing, and neither fails
    nor cancels it, so it is claimed again when its lease runs out. *)
Theorem overtaken_delivery_stuck :
  let m1 := (overtaken_cycle (2 * 24 * Hour + Second) mail_overtaken).1 in
  let m2 := (overtaken_cycle (2 * 24 * Hour + Hour) m1).1 in
  match m_deliveries mail_overtaken !! 0%N with
  | Some r => sendable mail_overtaken (2 * 24 * Hour + Second) 0 r = true /\ may_send mail_overtaken r = false
  | None => False
  end /\
  (overtaken_cycle (2 * 24 * Hour + Second) mail_overtaken).2 = Ok [] /\ attempts_of m1 = Some (DSending, 1%Z) /\
  (overtaken_cycle (2 * 24 * Hour + Hour) m1).2 = Ok [] /\ attempts_of m2 = Some (DSending, 2%Z).
Proof. vm_compute. repeat split. Qed.
