(* ===== verification/MailConsent.v ===== *)
(** * Consent: signing up, confirming, unsubscribing, and the lists' keys

    The public sign-up form, the signed server-to-server API and the links of
    [internal/mailing/public.go] and [track.go], with the SQL functions they call
    in the versions in force (migration 0133: [mailing_public_list],
    [mailing_unsubscribe_list], [mailing_key_subscribe], [mailing_confirm],
    [mailing_s2s_unsubscribe], [mailing_confirmation_send_context]; 0125: the two
    wrappers of [mailing_key_subscribe]).

    [MailStore]'s rows of subscribers, lists and keys hold the columns sending
    needs; the columns consent needs are the tables [c_consents], [c_lists] and
    [c_keys] here, by the same identifiers.  The recorded address and user agent
    of a sign-up and [status_reason] are left out: nothing reads them. *)

From S2P Require Import Prelude GoStrings GoTime GoJson AutoGraph Errors AutoEngine AutoStore AutoService AutoEvents.
From S2P Require Import MailToken MailStore MailFeedback MailService.
#[local] Open Scope go_scope.

(** ** Rows *)

Inductive consent_source := SPublicForm | SApi | SCsvImport | SCrm | SManual.
#[export] Instance consent_source_eq_dec : EqDecision consent_source.
Proof. solve_decision. Defined.

Record consent_row := {
  co_attributes : json; co_source : consent_source; co_attested_by : option uuid; co_at : time;
  co_confirm : option (list ascii * time);   (* confirm_token_hash, confirm_expires_at: both or neither *)
  co_confirmed_at : option time; co_unsubscribed_at : option time; co_contact : option uuid
}.
Record list_extra := { lx_slug : string; lx_description : option string; lx_double_opt_in : bool }.
Record key_extra := { kx_publishable : string; kx_sealed : option string; kx_label : option string }.

Record cdb := {
  c_mail : mdb;
  c_consents : gmap uuid consent_row;        (* list_subscriber, by id *)
  c_lists : gmap uuid list_extra;            (* mailing_list, by id *)
  c_keys : gmap uuid key_extra               (* mailing_list_key, by id *)
}.

Definition set_mail (m : mdb) (c : cdb) : cdb :=
  {| c_mail := m; c_consents := c_consents c; c_lists := c_lists c; c_keys := c_keys c |}.
Definition set_consents (x : gmap uuid consent_row) (c : cdb) : cdb :=
  {| c_mail := c_mail c; c_consents := x; c_lists := c_lists c; c_keys := c_keys c |}.
Definition set_list_extras (x : gmap uuid list_extra) (c : cdb) : cdb :=
  {| c_mail := c_mail c; c_consents := c_consents c; c_lists := x; c_keys := c_keys c |}.
Definition set_key_extras (x : gmap uuid key_extra) (c : cdb) : cdb :=
  {| c_mail := c_mail c; c_consents := c_consents c; c_lists := c_lists c; c_keys := x |}.

Abbreviation c_db c := (m_db (c_mail c)).
Abbreviation c_subscribers c := (db_subscribers (m_db (c_mail c))).

(** The column's default is true. *)
Definition double_opt_in (c : cdb) (l : uuid) : bool :=
  match c_lists c !! l with Some x => lx_double_opt_in x | None => true end.

(** [NULLIF(btrim(x), '')] *)
Definition sql_text (x : option string) : option string :=
  match x with Some v => let v := btrim v in if String.eqb v "" then None else Some v | None => None end.

Definition reactivable (status : string) : bool := String.eqb status "unsubscribed" || String.eqb status "pending".

Section Consent.
Context `{UnicodeTables, UUIDLib, MailCrypto, EventLib}.

(** ** Suppressions and events *)

Definition business_suppressed (c : cdb) (business : uuid) (email : string) : bool :=
  match m_suppressions (c_mail c) !! (business, email_key email) with Some _ => true | None => false end.
(** [... AND reason <> 'unsubscribe'] *)
Definition feedback_suppressed (c : cdb) (business : uuid) (email : string) : bool :=
  match m_suppressions (c_mail c) !! (business, email_key email) with
  | Some s => negb (bool_decide (sp_reason s = RUnsubscribe))
  | None => false
  end.
(** [DELETE FROM mailing_suppression WHERE ... AND reason = 'unsubscribe'] *)
Definition lift_unsubscribe (business : uuid) (email : string) (c : cdb) : cdb :=
  if business_suppressed c business email && negb (feedback_suppressed c business email)
  then set_mail (set_suppressions (delete (business, email_key email) (m_suppressions (c_mail c))) (c_mail c)) c
  else c.

Definition emit (root : uuid) (topic : string) (payload : json) (now : time) (c : cdb) : cdb :=
  set_mail (set_db (add_outbox root topic payload now (c_db c)) (c_mail c)) c.
Definition activated_payload (id : uuid) (s : subscriber_row) : json :=
  JObj [("business_id", juuid (s_business s)); ("tenant_root_id", juuid (s_root s)); ("subscriber_id", juuid id);
        ("list_id", juuid (s_list s)); ("email", JStr (s_email s))].
Definition emit_activated (id : uuid) (s : subscriber_row) (now : time) : cdb -> cdb :=
  emit (s_root s) "mailing.subscriber.activated" (activated_payload id s) now.
Definition emit_status (id : uuid) (s : subscriber_row) (old : string) (now : time) : cdb -> cdb :=
  emit (s_root s) "mailing.subscriber.status_changed"
    (status_changed (s_business s) (s_root s) id (s_list s) (s_email s) old (s_status s)) now.

Definition put_row (id : uuid) (s : subscriber_row) (k : consent_row) (c : cdb) : cdb :=
  set_consents (<[id := k]> (c_consents c)) (set_mail (put_subscriber id s (c_mail c)) c).

(** [UNIQUE (list_id, email)] *)
Definition find_subscriber (c : cdb) (l : uuid) (email : string) : option (uuid * subscriber_row) :=
  mfind (fun _ s => N.eqb (s_list s) l && citext_eq (s_email s) email) (c_subscribers c).

(** ** Keys *)

Record publicListContext := {
  pl_listID : uuid; pl_businessID : uuid; pl_tenantRootID : uuid; pl_keyID : uuid; pl_doubleOptIn : bool;
  pl_sealedSecret : option string
}.

Definition enabled_key (key : string) (c : cdb) : option (uuid * key_extra * list_key_row) :=
  match mfind (fun _ x => String.eqb (kx_publishable x) key) (c_keys c) with
  | Some (id, x) => match db_list_keys (c_db c) !! id with
                    | Some k => if k_revoked k then None else Some (id, x, k)
                    | None => None
                    end
  | None => None
  end.
Definition list_context (c : cdb) (x : uuid * key_extra * list_key_row) : publicListContext :=
  let '(id, extra, k) := x in
  {| pl_listID := k_list k; pl_businessID := k_business k; pl_tenantRootID := k_root k; pl_keyID := id;
     pl_doubleOptIn := double_opt_in c (k_list k); pl_sealedSecret := kx_sealed extra |}.

Definition mailing_public_list (key : string) (c : cdb) : option publicListContext :=
  match enabled_key key c with
  | Some (id, x, k) => if list_operational (c_db c) (k_list k) (k_business k) (k_root k)
                       then Some (list_context c (id, x, k)) else None
  | None => None
  end.
(** Unsubscribing does not need an operational list. *)
Definition mailing_unsubscribe_list (key : string) (c : cdb) : option publicListContext :=
  match enabled_key key c with
  | Some (id, x, k) =>
      match db_lists (c_db c) !! k_list k with
      | Some l => if N.eqb (l_business l) (k_business k) && N.eqb (l_root l) (k_root k)
                  then Some (list_context c (id, x, k)) else None
      | None => None
      end
  | None => None
  end.

(** ** Subscribing *)

Record subscribe_args := {
  sa_key : uuid; sa_list : uuid; sa_business : uuid; sa_root : uuid; sa_email : string; sa_first : option string;
  sa_last : option string; sa_attributes : json; sa_source : consent_source; sa_attested : option uuid; sa_skip : bool;
  sa_token : option (list ascii * time)      (* p_confirm_token_hash, p_confirm_expires_at *)
}.

Definition key_usable (a : subscribe_args) (c : cdb) : bool :=
  match db_list_keys (c_db c) !! sa_key a with
  | Some k => N.eqb (k_list k) (sa_list a) && N.eqb (k_business k) (sa_business a) && N.eqb (k_root k) (sa_root a) &&
              negb (k_revoked k) && list_operational (c_db c) (sa_list a) (sa_business a) (sa_root a)
  | None => false
  end.

Definition is_public (a : subscribe_args) : bool := bool_decide (sa_source a = SPublicForm).
Definition desired_status (a : subscribe_args) (c : cdb) : string :=
  if is_public a && business_suppressed c (sa_business a) (sa_email a) then "pending"
  else if sa_skip a || negb (double_opt_in c (sa_list a)) then "active" else "pending".
Definition is_pending (status : string) : bool := String.eqb status "pending".
Definition is_active (status : string) : bool := String.eqb status "active".
Definition lacks_token (a : subscribe_args) (status : string) : bool :=
  is_pending status && match sa_token a with None => true | Some _ => false end.
Definition no_token {A : Type} : result error A := sql "22023" "pending subscription requires confirmation token".

(** The row a first sign-up inserts. *)
Definition signed_up (a : subscribe_args) (status : string) (now : time) : subscriber_row * consent_row :=
  ({| s_business := sa_business a; s_root := sa_root a; s_list := sa_list a; s_email := sa_email a;
      s_first_name := sql_text (sa_first a); s_last_name := sql_text (sa_last a); s_status := status; s_tags := [] |},
   {| co_attributes := sa_attributes a; co_source := sa_source a; co_attested_by := sa_attested a; co_at := now;
      co_confirm := if is_pending status then sa_token a else None;
      co_confirmed_at := if is_active status then Some now else None; co_unsubscribed_at := None; co_contact := None |}).

(** The row a repeated sign-up leaves. *)
Definition signed_up_again (a : subscribe_args) (status : string) (now : time) (s : subscriber_row) (k : option consent_row)
  : subscriber_row * consent_row :=
  ({| s_business := s_business s; s_root := s_root s; s_list := s_list s; s_email := s_email s;
      s_first_name := or_else (sql_text (sa_first a)) (s_first_name s);
      s_last_name := or_else (sql_text (sa_last a)) (s_last_name s); s_status := status; s_tags := s_tags s |},
   {| co_attributes := sa_attributes a; co_source := sa_source a; co_attested_by := sa_attested a; co_at := now;
      co_confirm := if is_pending status then sa_token a else None;
      co_confirmed_at := if is_active status then Some now else k ≫= co_confirmed_at;
      co_unsubscribed_at := if is_active status then None else k ≫= co_unsubscribed_at; co_contact := k ≫= co_contact |}).

Definition subscribe_new (a : subscribe_args) (id : uuid) (now : time) (c : cdb)
  : result error (cdb * option (uuid * bool * string)) :=
  let status := desired_status a c in
  if bool_decide (c_subscribers c !! id <> None) then sql "23505" "list_subscriber_pkey" else
  if lacks_token a status then no_token else
  let '(s, k) := signed_up a status now in
  let c := put_row id s k c in
  Ok (if is_active status then emit_activated id s now c else c, Some (id, true, status)).

Definition subscribe_again (a : subscribe_args) (id : uuid) (s : subscriber_row) (now : time) (c : cdb)
  : result error (cdb * option (uuid * bool * string)) :=
  let status := if is_public a && reactivable (s_status s) then "pending" else desired_status a c in
  if lacks_token a status then no_token else
  if reactivable (s_status s) && negb (is_public a && feedback_suppressed c (s_business s) (s_email s)) then
    let '(s', k) := signed_up_again a status now s (c_consents c !! id) in
    let c := put_row id s' k c in
    let c := if negb (is_public a) && is_active status then lift_unsubscribe (sa_business a) (sa_email a) c else c in
    let changed := negb (String.eqb (s_status s) status) in
    let c := if changed && is_active status then emit_activated id s' now c else c in
    Ok (if changed then emit_status id s' (s_status s) now c else c, Some (id, false, status))
  else Ok (c, Some (id, false, s_status s)).

(** [id] is the default of the column, [gen_random_uuid()]. *)
Definition mailing_key_subscribe (a : subscribe_args) (id : uuid) (now : time) (c : cdb)
  : result error (cdb * option (uuid * bool * string)) :=
  if negb (key_usable a c) then Ok (c, None) else
  if negb (is_public a) && negb (bool_decide (sa_source a = SApi))
  then sql "22023" "invalid public mailing consent source" else
  if is_public a && bool_decide (sa_attested a <> None) then sql "22023" "public form cannot carry an attestor" else
  if negb (is_public a) && bool_decide (sa_attested a <> Some (sa_key a))
  then sql "22023" "api consent must be attested by the list key" else
  if negb (match sa_attributes a with JObj _ => true | _ => false end) then sql "22023" "attributes must be an object" else
  let? _ := fence (c_mail c) (sa_root a) in
  match find_subscriber c (sa_list a) (sa_email a) with
  | None => subscribe_new a id now c
  | Some (sid, s) => subscribe_again a sid s now c
  end.

Definition mailing_public_subscribe (a : subscribe_args) : uuid -> time -> cdb -> result error (cdb * option (uuid * bool * string)) :=
  mailing_key_subscribe
    {| sa_key := sa_key a; sa_list := sa_list a; sa_business := sa_business a; sa_root := sa_root a; sa_email := sa_email a;
       sa_first := sa_first a; sa_last := sa_last a; sa_attributes := sa_attributes a; sa_source := SPublicForm;
       sa_attested := None; sa_skip := false; sa_token := sa_token a |}.
Definition mailing_s2s_subscribe (a : subscribe_args) : uuid -> time -> cdb -> result error (cdb * option (uuid * bool * string)) :=
  mailing_key_subscribe
    {| sa_key := sa_key a; sa_list := sa_list a; sa_business := sa_business a; sa_root := sa_root a; sa_email := sa_email a;
       sa_first := sa_first a; sa_last := sa_last a; sa_attributes := sa_attributes a; sa_source := SApi;
       sa_attested := Some (sa_key a); sa_skip := sa_skip a; sa_token := sa_token a |}.

(** ** Confirming *)

Definition confirms (c : cdb) (hash : list ascii) (now : time) (id : uuid) (s : subscriber_row) : bool :=
  is_pending (s_status s) &&
  match c_consents c !! id ≫= co_confirm with
  | Some (h, expires) => bool_decide (h = hash) && (now <? expires)%Z
  | None => false
  end.

Definition confirmable (c : cdb) (hash : list ascii) (now : time) (id : uuid) (s : subscriber_row) : bool :=
  confirms c hash now id s && list_operational (c_db c) (s_list s) (s_business s) (s_root s) &&
  negb (feedback_suppressed c (s_business s) (s_email s)).

Definition confirmed (now : time) (k : consent_row) : consent_row :=
  {| co_attributes := co_attributes k; co_source := co_source k; co_attested_by := co_attested_by k; co_at := co_at k;
     co_confirm := None; co_confirmed_at := Some now; co_unsubscribed_at := None; co_contact := co_contact k |}.

Definition update_consent (f : consent_row -> consent_row) (id : uuid) (c : cdb) : cdb :=
  set_consents (alter f id (c_consents c)) c.

Definition mailing_confirm (hash : list ascii) (now : time) (c : cdb) : result error (cdb * Z) :=
  match mfind (confirmable c hash now) (c_subscribers c) with
  | None => Ok (c, 0%Z)
  | Some (id, s) =>
      let? _ := fence (c_mail c) (s_root s) in
      let s' := with_subscriber_status "active" s in
      let c := update_consent (confirmed now) id (set_mail (put_subscriber id s' (c_mail c)) c) in
      let c := lift_unsubscribe (s_business s) (s_email s) c in
      Ok (emit_status id s' "pending" now (emit_activated id s' now c), 1%Z)
  end.

(** ** Unsubscribing and archiving, with the columns of consent *)

Definition unsubscribed (now : time) (k : consent_row) : consent_row :=
  {| co_attributes := co_attributes k; co_source := co_source k; co_attested_by := co_attested_by k; co_at := co_at k;
     co_confirm := None; co_confirmed_at := co_confirmed_at k; co_unsubscribed_at := Some now; co_contact := co_contact k |}.

Definition consent_unsubscribe (subscriber campaign : uuid) (now : time) (c : cdb) : result error (cdb * Z) :=
  let? (m, n) := mailing_unsubscribe subscriber campaign now (c_mail c) in
  let c' := set_mail m c in
  Ok (match c_subscribers c !! subscriber with
      | Some s => if String.eqb (s_status s) "unsubscribed" then c' else update_consent (unsubscribed now) subscriber c'
      | None => c'
      end, n).

Definition mailing_s2s_unsubscribe (l : uuid) (email : string) (now : time) (c : cdb) : result error (cdb * Z) :=
  match db_lists (c_db c) !! l with
  | None => Ok (c, 0%Z)
  | Some row =>
      match mfind (fun _ s => N.eqb (s_list s) l && N.eqb (s_business s) (l_business row) && N.eqb (s_root s) (l_root row) &&
                              citext_eq (s_email s) email) (c_subscribers c) with
      | Some (id, _) => consent_unsubscribe id uuid_Nil now c
      | None => Ok (c, 0%Z)
      end
  end.

Definition unconfirm (k : consent_row) : consent_row :=
  {| co_attributes := co_attributes k; co_source := co_source k; co_attested_by := co_attested_by k; co_at := co_at k;
     co_confirm := None; co_confirmed_at := co_confirmed_at k; co_unsubscribed_at := co_unsubscribed_at k;
     co_contact := co_contact k |}.

(** The confirmation links of an archived list's pending subscribers die. *)
Definition pending_on (c : cdb) (l business root : uuid) (id : uuid) : bool :=
  match c_subscribers c !! id with
  | Some s => N.eqb (s_list s) l && N.eqb (s_business s) business && N.eqb (s_root s) root && is_pending (s_status s)
  | None => false
  end.
Definition consent_archive_list (l business root : uuid) (now : time) (c : cdb) : result error (cdb * Z) :=
  let? (m, n) := mailing_archive_list l business root now (c_mail c) in
  let c' := set_mail m c in
  Ok (if (n =? 0)%Z then c'
      else set_consents (mupdate (fun id _ => pending_on c l business root id) unconfirm (c_consents c)) c', n).

(** ** Sending the confirmation: [mailing_confirmation_send_context] *)

Definition confirmation_context (business l : uuid) (email : string) (hash : list ascii) (now : time) (c : cdb)
  : option (uuid * profile_row) :=
  match mfind (fun id s => N.eqb (s_business s) business && N.eqb (s_list s) l && citext_eq (s_email s) email &&
                           confirms c hash now id s &&
                           list_operational (c_db c) (s_list s) (s_business s) (s_root s) &&
                           negb (bool_decide (s_root s ∈ db_fenced_roots (c_db c))) &&
                           negb (bool_decide (email_key (s_email s) ∈ m_blocked (c_mail c))) &&
                           negb (feedback_suppressed c (s_business s) (s_email s))) (c_subscribers c) with
  | Some (_, s) =>
      mfind (fun _ p => N.eqb (pf_business p) (s_business s) && N.eqb (pf_root p) (s_root s) &&
                        String.eqb (pf_status p) "verified" && String.eqb (pf_feedback p) "ready") (m_profiles (c_mail c))
  | None => None
  end.

(** ** [public.go] *)

Definition confirmationTTL : duration := 48 * Hour.
Definition signatureMaxSkew : duration := 5 * Minute.
Definition errMailingRateLimited : error := NewError "mailing: rate limited".

Record PublicSubscriptionInput := {
  ps_Email : string; ps_FirstName : option string; ps_LastName : option string; ps_Attributes : option json;
  ps_SkipConfirmation : bool
}.
Record PublicSubscriptionResult := { psr_SubscriberID : uuid; psr_Created : bool; psr_Status : string }.
Definition no_subscription : PublicSubscriptionResult :=
  {| psr_SubscriberID := uuid_Nil; psr_Created := false; psr_Status := "" |}.

(** [jsonObject]: nil is the empty object. *)
Definition jsonObject (v : option json) : result error json :=
  match v with
  | None => Ok (JObj [])
  | Some v => if (64 * 1024 <? len (json_Marshal v))%Z then mail_validation "attributes exceed 64 KiB" else Ok v
  end.

(** What one sign-up draws from the world: 32 random bytes for the token, the
    server's clock, [gen_random_uuid()] and the database's clock. *)
Record draws := { dr_entropy : option (list ascii); dr_clock : time; dr_id : uuid; dr_now : time }.

Definition confirmation_token (needed : bool) (dr : draws) : result error (option (string * (list ascii * time))) :=
  if needed then
    let? (raw, hash) := NewConfirmation (dr_entropy dr) in
    Ok (Some (raw, (hash, Add (dr_clock dr) confirmationTTL)))
  else Ok None.

(** The result, the raw token ("" when there is none) and the normalized address. *)
Definition subscribeResolved (l : publicListContext) (input : PublicSubscriptionInput) (s2s : bool) (dr : draws) (c : cdb)
  : result error (cdb * (PublicSubscriptionResult * string * string)) :=
  let? email := mail_normalizeEmail (ps_Email input) in
  let? attrs := jsonObject (ps_Attributes input) in
  let? token := confirmation_token (negb s2s || (pl_doubleOptIn l && negb (ps_SkipConfirmation input))) dr in
  let args := {| sa_key := pl_keyID l; sa_list := pl_listID l; sa_business := pl_businessID l; sa_root := pl_tenantRootID l;
                 sa_email := email; sa_first := cleanOptional (ps_FirstName input);
                 sa_last := cleanOptional (ps_LastName input); sa_attributes := attrs; sa_source := SPublicForm;
                 sa_attested := None; sa_skip := ps_SkipConfirmation input; sa_token := option_map snd token |} in
  let? (c, out) := (if s2s then mailing_s2s_subscribe args else mailing_public_subscribe args) (dr_id dr) (dr_now dr) c in
  let raw := match token with Some (raw, _) => raw | None => "" end in
  Ok (c, match out with
         | Some (id, created, status) =>
             ({| psr_SubscriberID := id; psr_Created := created; psr_Status := status |}, raw, email)
         | None => (no_subscription, "", email)
         end).

(** The confirmation to send after the commit: business, list, address, token. *)
Record confirmation := { cf_business : uuid; cf_list : uuid; cf_email : string; cf_raw : string }.
Definition confirmation_of (l : publicListContext) (x : PublicSubscriptionResult * string * string) : option confirmation :=
  let '(r, raw, email) := x in
  if is_pending (psr_Status r) && negb (String.eqb raw "")
  then Some {| cf_business := pl_businessID l; cf_list := pl_listID l; cf_email := email; cf_raw := raw |} else None.

Definition run_consent {A : Type} (body : cdb -> result error (cdb * A)) (c : cdb) : cdb * result error A :=
  match body c with Ok (c', a) => (c', Ok a) | Err e => (c, Err (mapTxError e)) end.

(** An unknown key is answered like a known one.  [allow] is the limiter per key. *)
Definition subscribePublic (key : string) (input : PublicSubscriptionInput) (allow : uuid -> bool) (dr : draws)
  : cdb -> cdb * result error (PublicSubscriptionResult * option confirmation) :=
  run_consent (fun c =>
    match mailing_public_list key c with
    | None => Ok (c, (no_subscription, None))
    | Some l =>
        if negb (allow (pl_keyID l)) then Err errMailingRateLimited else
        let? (c, x) := subscribeResolved l input false dr c in
        Ok (c, (x.1.1, confirmation_of l x))
    end).

(** *** Signed requests *)

Definition hex_val (c : ascii) : option N :=
  let n := N_of_ascii c in
  if is_digit c then Some (n - 48)%N else if in_range 97 102 c then Some (n - 87)%N
  else if in_range 65 70 c then Some (n - 55)%N else None.
(** [hex.DecodeString] *)
Fixpoint hex_decode (l : list ascii) : option (list ascii) :=
  match l with
  | [] => Some []
  | a :: b :: l => match hex_val a, hex_val b, hex_decode l with
                   | Some x, Some y, Some rest => Some (byte_of (x * 16 + y) :: rest)
                   | _, _, _ => None
                   end
  | _ => None
  end.

Definition TrimPrefix (s p : string) : string :=
  if HasPrefix s p then of_bytes (drop (String.length p) (bytes s)) else s.
Definition TrimSuffix (s p : string) : string :=
  if HasSuffix s p then of_bytes (take (String.length s - String.length p) (bytes s)) else s.
(** [Time.Unix()] *)
Definition unix (t : time) : Z := (t / Second)%Z.

Definition mailingSigningString (timestamp method path : string) (body : list ascii) : list ascii :=
  bytes (timestamp +:+ "." +:+ method +:+ "." +:+ path +:+ ".") ++ body.

(** True when there is no error. *)
Definition verifyMailingSignature (timestamp signature secret method path : string) (body : list ascii) (now : time) : bool :=
  match Atoi (TrimSpace timestamp) with
  | None => false
  | Some ts =>
      if ((ts <? unix (Add now (- signatureMaxSkew))) || (unix (Add now signatureMaxSkew) <? ts))%Z then false else
      match hex_decode (bytes (TrimSpace (TrimPrefix (TrimSpace signature) "v1="))) with
      | None => false
      | Some got => bool_decide (got = hmac_sha256 (bytes secret) (mailingSigningString (itoa ts) method path body))
      end
  end.

Record signed_request := {
  rq_key : string; rq_timestamp : string; rq_signature : string; rq_method : string; rq_path : string; rq_body : list ascii
}.

(** The server: opening sealed secrets, the limiter, the clock, and
    [json.Unmarshal] of a body into the fields of a subscription. *)
Record s2s_env := {
  se_Open : string -> option string; se_Allow : uuid -> bool; se_Now : time;
  se_Decode : list ascii -> option PublicSubscriptionInput
}.

Definition signed_by (env : s2s_env) (r : signed_request) (l : publicListContext) : bool :=
  match pl_sealedSecret l ≫= se_Open env with
  | Some secret => verifyMailingSignature (rq_timestamp r) (rq_signature r) secret (rq_method r) (rq_path r) (rq_body r)
                     (se_Now env)
  | None => false
  end.

(** The key is resolved in the transaction that uses it.  [None]: not authorized. *)
Definition withVerifiedS2SResolver {A : Type} (resolve : string -> cdb -> option publicListContext) (env : s2s_env)
    (r : signed_request) (fn : publicListContext -> cdb -> result error (cdb * A)) : cdb -> cdb * result error (option A) :=
  run_consent (fun c =>
    match resolve (rq_key r) c with
    | None => Ok (c, None)
    | Some l =>
        if negb (signed_by env r l) then Ok (c, None) else
        if negb (se_Allow env (pl_keyID l)) then Err errMailingRateLimited else
        let? (c, a) := fn l c in Ok (c, Some a)
    end).

(** The input is what the signed bytes decode to; a body that does not decode is
    answered before anything else happens. *)
Definition s2sSubscribe (env : s2s_env) (r : signed_request) (dr : draws) (c : cdb)
  : cdb * result error (option (PublicSubscriptionResult * option confirmation)) :=
  match se_Decode env (rq_body r) with
  | None => (c, mail_validation "invalid request")
  | Some input =>
      withVerifiedS2SResolver mailing_public_list env r (fun l c =>
        let? (c, x) := subscribeResolved l input true dr c in
        Ok (c, (x.1.1, confirmation_of l x))) c
  end.

(** The signature of an unsubscribe covers no body. *)
Definition bodyless (r : signed_request) : signed_request :=
  {| rq_key := rq_key r; rq_timestamp := rq_timestamp r; rq_signature := rq_signature r; rq_method := rq_method r;
     rq_path := rq_path r; rq_body := [] |}.

(** [email] is the unescaped path segment, [None] when it does not unescape. *)
Definition s2sUnsubscribe (env : s2s_env) (r : signed_request) (email : option string) (now : time)
  : cdb -> cdb * result error (option Z) :=
  withVerifiedS2SResolver mailing_unsubscribe_list env (bodyless r) (fun l c =>
    match email with
    | None => mail_validation "invalid email"
    | Some raw => let? email := mail_normalizeEmail raw in mailing_s2s_unsubscribe (pl_listID l) email now c
    end).

(** *** The links *)

(** Malformed and unknown tokens are successful no-ops. *)
Definition Confirm (raw : string) (now : time) : cdb -> cdb * result error unit :=
  match HashConfirmation raw with
  | Err _ => fun c => (c, Ok tt)
  | Ok hash => run_consent (fun c => let? (c, _) := mailing_confirm hash now c in Ok (c, tt))
  end.

(** [Unsubscribe] of [MailService] with the columns of consent. *)
Definition consent_Unsubscribe (codec : Codec) (raw : string) (now : time) : cdb -> cdb * result error unit :=
  match DecodeUnsubscribe codec raw with
  | Err _ => fun c => (c, Ok tt)
  | Ok (subscriber, campaign) => run_consent (fun c =>
      let? (c, _) := consent_unsubscribe subscriber campaign now c in
      let? (m, _) := mailing_record_unsubscribe subscriber campaign now (c_mail c) in
      Ok (set_mail m c, tt))
  end.

(** *** The confirmation mail *)

Record confirmation_mail := { cfm_To : string; cfm_FromEmail : string; cfm_ReplyTo : string; cfm_Link : string }.

(** [ready]: the limiter, the provider and the renderer answered.  [url.PathEscape]
    leaves the alphabet of the token as it is. *)
Definition sendConfirmation (base : string) (ready : bool) (f : confirmation) (now : time) (c : cdb) : option confirmation_mail :=
  match HashConfirmation (cf_raw f) with
  | Err _ => None
  | Ok hash =>
      match confirmation_context (cf_business f) (cf_list f) (cf_email f) hash now c with
      | Some (_, p) =>
          if ready then Some {| cfm_To := cf_email f; cfm_FromEmail := pf_from_email p; cfm_ReplyTo := default "" (pf_reply_to p);
                                cfm_Link := TrimSuffix base "/" +:+ "/m/confirm/" +:+ cf_raw f |}
          else None
      | None => None
      end
  end.
End Consent.
