(* ===== verification/MailLists.v ===== *)
(** * Lists, their subscribers and their keys, for those who manage them

    [internal/mailing/subscribers.go], [lists.go] and [keys.go]: creating and
    changing subscribers by hand, creating, changing and archiving lists, creating
    and revoking the keys of the public form and the signed API.  Every request
    runs in one transaction under the caller's row-level security.  The contacts
    of the CRM a subscriber may refer to are an argument; reading and listing are
    left out. *)

From S2P Require Import Prelude GoStrings GoBase64 GoTime GoJson WorkFields AutoGraph Errors AutoEngine AutoStore AutoService AutoEvents.
From S2P Require Import MailToken MailStore MailFeedback MailService MailConsent.
#[local] Open Scope go_scope.

Record SubscriberInput := {
  sbi_Email : string; sbi_FirstName : option string; sbi_LastName : option string; sbi_Attributes : option json;
  sbi_Tags : list string; sbi_SkipConfirmation : bool; sbi_ContactID : option uuid; sbi_ConsentSource : string
}.
Record SubscriberUpdate := {
  sbu_FirstName : option (option string); sbu_LastName : option (option string);   (* None: not set *)
  sbu_Attributes : option (option json); sbu_Status : option string; sbu_Tags : option (list string)
}.
Record ListInput := { lin_Slug : string; lin_Name : string; lin_Description : option string; lin_DoubleOptIn : bool }.
Record ListUpdate := {
  lup_Name : option string; lup_Description : option (option string); lup_DoubleOptIn : option bool
}.

Section Lists.
Context `{UnicodeTables, UUIDLib, Authz, MailCrypto, EventLib}.

(** [s.DB.WithPrincipal(...)] followed by [mapErr]. *)
Definition run_request {A : Type} (body : cdb -> result error (cdb * A)) (c : cdb) : cdb * result error A :=
  match body c with
  | Ok (c', a) => (c', Ok a)
  | Err e => (c, Err (mail_mapErr (mapTxError e)))
  end.
(** A request refused before its transaction. *)
Definition refused {A : Type} (e : error) (c : cdb) : cdb * result error A := (c, Err e).

Definition c_root (principal business : uuid) (c : cdb) : result error uuid :=
  mail_resolveTenantRoot principal business (c_mail c).
Definition c_loadList (principal business root l : uuid) (c : cdb) : result error list_row :=
  loadList principal business root l (c_mail c).
Definition loadActiveList (principal business root l : uuid) (c : cdb) : result error list_row :=
  let? row := c_loadList principal business root l c in
  if l_active row then Ok row else Err ErrNoRows.
Definition c_audit (principal business root : uuid) (action target_type : string) (target : uuid) (value : json) (c : cdb)
  : cdb :=
  set_mail (auditMutation principal business root action target_type target value (c_mail c)) c.

(** ** Subscribers *)

Definition subscriber_statuses : list string := ["pending"; "active"; "unsubscribed"; "bounced"; "complained"].
Definition validSubscriberStatus (v : string) : bool := existsb (String.eqb v) subscriber_statuses.

Definition loadSubscriber (principal business root l id : uuid) (c : cdb) : result error subscriber_row :=
  match c_subscribers c !! id with
  | Some s => if N.eqb (s_root s) root && authorized principal (s_business s) && N.eqb (s_business s) business &&
                 N.eqb (s_list s) l
              then Ok s else Err ErrNoRows
  | None => Err ErrNoRows
  end.

Definition emit_tag (id : uuid) (s : subscriber_row) (now : time) (tag : string) : cdb -> cdb :=
  emit (s_root s) "mailing.subscriber.tag_added"
    (JObj [("business_id", juuid (s_business s)); ("tenant_root_id", juuid (s_root s)); ("subscriber_id", juuid id);
           ("list_id", juuid (s_list s)); ("email", JStr (s_email s)); ("tag", JStr tag)]) now.

(** The rows of [subscriber_tag] and an event for each tag that is not in [old]. *)
Definition replaceTags (id : uuid) (s : subscriber_row) (tags : list string) (old : list string) (now : time) (c : cdb) : cdb :=
  let c := set_mail (put_subscriber id (with_tags tags s) (c_mail c)) c in
  fold_left (fun c tag => if existsb (String.eqb tag) old then c else emit_tag id s now tag c) tags c.

Definition manual_source (v : string) : option consent_source :=
  if String.eqb v "" || String.eqb v "manual" then Some SManual
  else if String.eqb v "crm" then Some SCrm
  else if String.eqb v "csv_import" then Some SCsvImport else None.
Definition source_text (k : consent_source) : string :=
  match k with SPublicForm => "public_form" | SApi => "api" | SCsvImport => "csv_import" | SCrm => "crm" | SManual => "manual" end.

Definition InsertListSubscriber (id : uuid) (s : subscriber_row) (k : consent_row) (contacts : gset (uuid * uuid)) (c : cdb)
  : result error cdb :=
  let? _ := fence (c_mail c) (s_root s) in
  if bool_decide (c_subscribers c !! id <> None) then sql "23505" "list_subscriber_pkey" else
  if bool_decide (find_subscriber c (s_list s) (s_email s) <> None) then sql "23505" "list_subscriber_list_id_email_key" else
  if match co_contact k with Some x => negb (bool_decide ((x, s_root s) ∈ contacts)) | None => false end
  then sql "23503" "list_subscriber_contact_fk" else
  Ok (put_row id s k c).

Definition CreateSubscriber (principal business l : uuid) (input : SubscriberInput) (contacts : gset (uuid * uuid))
    (id : uuid) (now : time) : cdb -> cdb * result error (uuid * subscriber_row) :=
  match mail_normalizeEmail (sbi_Email input), normalizeTags (sbi_Tags input), jsonObject (sbi_Attributes input) with
  | Err e, _, _ | Ok _, Err e, _ | Ok _, Ok _, Err e => refused e
  | Ok email, Ok tags, Ok attrs => run_request (fun c =>
      let? root := c_root principal business c in
      let? _ := loadActiveList principal business root l c in
      let status := if sbi_SkipConfirmation input || negb (double_opt_in c l) then "active" else "pending" in
      match manual_source (sbi_ConsentSource input) with
      | None => mail_validation "invalid consent source"
      | Some source =>
          let s := {| s_business := business; s_root := root; s_list := l; s_email := email;
                      s_first_name := cleanOptional (sbi_FirstName input); s_last_name := cleanOptional (sbi_LastName input);
                      s_status := status; s_tags := [] |} in
          let k := {| co_attributes := attrs; co_source := source; co_attested_by := Some principal; co_at := now;
                      co_confirm := None; co_confirmed_at := if is_active status then Some now else None;
                      co_unsubscribed_at := None; co_contact := sbi_ContactID input |} in
          let? c := InsertListSubscriber id s k contacts c in
          let c := replaceTags id s tags [] now c in
          let c := if is_active status then emit_activated id s now c else c in
          let c := c_audit principal business root "mailing.subscriber.created" "list_subscriber" id
                     (JObj [("list_id", juuid l); ("status", JStr status); ("consent_source", JStr (source_text source));
                            ("tag_count", JInt (Z.of_nat (length tags)))]) c in
          Ok (c, (id, with_tags tags s))
      end)
  end.

(** [UpdateListSubscriber] *)
Definition updated_subscriber (u : SubscriberUpdate) (status : option string) (s : subscriber_row) : subscriber_row :=
  {| s_business := s_business s; s_root := s_root s; s_list := s_list s; s_email := s_email s;
     s_first_name := match sbu_FirstName u with Some v => cleanOptional v | None => s_first_name s end;
     s_last_name := match sbu_LastName u with Some v => cleanOptional v | None => s_last_name s end;
     s_status := default (s_status s) status; s_tags := s_tags s |}.
Definition updated_consent (attrs : option json) (status : option string) (now : time) (k : consent_row) : consent_row :=
  {| co_attributes := default (co_attributes k) attrs; co_source := co_source k; co_attested_by := co_attested_by k;
     co_at := co_at k; co_confirm := co_confirm k;
     co_confirmed_at := if bool_decide (status = Some "active") then or_else (co_confirmed_at k) (Some now)
                        else co_confirmed_at k;
     co_unsubscribed_at := if bool_decide (status = Some "unsubscribed") then Some now
                           else if bool_decide (status = Some "active") then None else co_unsubscribed_at k;
     co_contact := co_contact k |}.

Definition parse_status (v : option string) : result error (option string) :=
  match v with
  | None => Ok None
  | Some v => let v := ToLower (TrimSpace v) in
              if validSubscriberStatus v then Ok (Some v) else mail_validation "invalid status"
  end.
Definition opt_result {A B : Type} (f : A -> result error B) (x : option A) : result error (option B) :=
  match x with None => Ok None | Some a => let? b := f a in Ok (Some b) end.

Definition UpdateSubscriber (principal business l id : uuid) (u : SubscriberUpdate) (now : time)
  : cdb -> cdb * result error subscriber_row :=
  match opt_result jsonObject (sbu_Attributes u), parse_status (sbu_Status u), opt_result normalizeTags (sbu_Tags u) with
  | Err e, _, _ | Ok _, Err e, _ | Ok _, Ok _, Err e => refused e
  | Ok attrs, Ok status, Ok newTags => run_request (fun c =>
      let? root := c_root principal business c in
      let? _ := c_loadList principal business root l c in
      let? before := loadSubscriber principal business root l id c in
      let? _ := fence (c_mail c) root in
      let s := updated_subscriber u status before in
      let c := update_consent (updated_consent attrs status now) id (set_mail (put_subscriber id s (c_mail c)) c) in
      let c := match newTags with Some tags => replaceTags id s tags (s_tags s) now c | None => c end in
      let tags := default (s_tags s) newTags in
      let changed := negb (String.eqb (s_status before) (s_status s)) in
      let c := if changed then emit_status id s (s_status before) now c else c in
      let c := if changed && is_active (s_status s) then emit_activated id s now c else c in
      let c := c_audit principal business root "mailing.subscriber.updated" "list_subscriber" id
                 (JObj [("list_id", juuid l); ("status", JStr (s_status s));
                        ("tag_count", JInt (Z.of_nat (length tags)))]) c in
      Ok (c, with_tags tags s))
  end.

(** [UnsubscribeListSubscriber]: the confirmation token stays. *)
Definition unsubscribed_by_hand (now : time) (k : consent_row) : consent_row :=
  {| co_attributes := co_attributes k; co_source := co_source k; co_attested_by := co_attested_by k; co_at := co_at k;
     co_confirm := co_confirm k; co_confirmed_at := co_confirmed_at k;
     co_unsubscribed_at := or_else (co_unsubscribed_at k) (Some now); co_contact := co_contact k |}.

Definition UnsubscribeSubscriber (principal business l id : uuid) (now : time) : cdb -> cdb * result error unit :=
  run_request (fun c =>
    let? root := c_root principal business c in
    let? _ := c_loadList principal business root l c in
    let? before := loadSubscriber principal business root l id c in
    let? _ := fence (c_mail c) root in
    let s := with_subscriber_status "unsubscribed" before in
    let c := update_consent (unsubscribed_by_hand now) id (set_mail (put_subscriber id s (c_mail c)) c) in
    let c := if String.eqb (s_status before) "unsubscribed" then c else emit_status id s (s_status before) now c in
    Ok (c_audit principal business root "mailing.subscriber.unsubscribed" "list_subscriber" id
          (JObj [("list_id", juuid l)]) c, tt)).

(** ** Lists *)

Definition mail_slugify (v : string) : string :=
  of_bytes (trim_hyphens (hyphenate false (bytes (ToLower (TrimSpace v))))).

Definition name_problem (name : string) : bool := String.eqb name "" || (200 <? len name)%Z.
Definition bad_name : error := Wrap "mailing: name is required and must not exceed 200 characters" ErrValidation.

Definition put_list (id : uuid) (row : list_row) (x : list_extra) (c : cdb) : cdb :=
  set_list_extras (<[id := x]> (c_lists c))
    (set_mail (set_db (set_lists (<[id := row]> (db_lists (c_db c))) (c_db c)) (c_mail c)) c).

Definition slug_taken (c : cdb) (business : uuid) (slug : string) : bool :=
  mexists (fun id l => N.eqb (l_business l) business &&
                       match c_lists c !! id with Some x => String.eqb (lx_slug x) slug | None => false end) (db_lists (c_db c)).

Definition list_slug (input : ListInput) (name : string) : string :=
  let slug := mail_slugify (lin_Slug input) in if String.eqb slug "" then mail_slugify name else slug.

Definition CreateList (principal business : uuid) (input : ListInput) (id : uuid) : cdb -> cdb * result error uuid :=
  let name := TrimSpace (lin_Name input) in
  if name_problem name then refused bad_name else
  let slug := list_slug input name in
  if String.eqb slug "" || (100 <? len slug)%Z then refused (Wrap "mailing: slug is invalid" ErrValidation) else
  run_request (fun c =>
    let? root := c_root principal business c in
    let? _ := fence (c_mail c) root in
    if bool_decide (db_lists (c_db c) !! id <> None) then sql "23505" "mailing_list_pkey" else
    if slug_taken c business slug then sql "23505" "mailing_list_business_id_slug_key" else
    let c := put_list id {| l_business := business; l_root := root; l_name := name; l_active := true |}
               {| lx_slug := slug; lx_description := lin_Description input; lx_double_opt_in := lin_DoubleOptIn input |} c in
    Ok (c_audit principal business root "mailing.list.created" "mailing_list" id
          (JObj [("slug", JStr slug); ("double_opt_in", JBool (lin_DoubleOptIn input))]) c, id)).

(** [UpdateMailingList] *)
Definition updated_list (name : option string) (row : list_row) : list_row :=
  {| l_business := l_business row; l_root := l_root row; l_name := default (l_name row) name; l_active := l_active row |}.
Definition updated_extra (u : ListUpdate) (l : uuid) (c : cdb) : list_extra :=
  {| lx_slug := match c_lists c !! l with Some x => lx_slug x | None => "" end;
     lx_description := match lup_Description u with
                       | Some d => d
                       | None => match c_lists c !! l with Some x => lx_description x | None => None end
                       end;
     lx_double_opt_in := default (double_opt_in c l) (lup_DoubleOptIn u) |}.

Definition UpdateList (principal business l : uuid) (u : ListUpdate) : cdb -> cdb * result error uuid :=
  let name := option_map TrimSpace (lup_Name u) in
  if match name with Some n => name_problem n | None => false end then refused bad_name else
  run_request (fun c =>
    let? root := c_root principal business c in
    let? row := c_loadList principal business root l c in
    if negb (l_active row) then Err ErrNoRows else
    let? _ := fence (c_mail c) root in
    let x := updated_extra u l c in
    Ok (c_audit principal business root "mailing.list.updated" "mailing_list" l
          (JObj [("double_opt_in", JBool (lx_double_opt_in x))]) (put_list l (updated_list name row) x c), l)).

(** [ArchiveList] of [MailService] with the columns of consent. *)
Definition consent_ArchiveList (principal business l : uuid) (now : time) : cdb -> cdb * result error unit :=
  run_request (fun c =>
    let? root := c_root principal business c in
    let? _ := c_loadList principal business root l c in
    let? (c, changed) := consent_archive_list l business root now c in
    if negb (changed =? 1)%Z then Err ErrNoRows else
    Ok (c_audit principal business root "mailing.list.archived" "mailing_list" l (JObj []) c, tt)).

(** ** Keys *)

Definition randomToken (prefix : string) (entropy : option (list ascii)) : result error string :=
  match entropy with
  | Some b => Ok (prefix +:+ of_bytes (base64url b))
  | None => Err (NewError "unexpected EOF")
  end.

(** [seal] is the configured sealer, if any; the secret is returned once. *)
Definition new_secret (seal : option (string -> result error string)) (entropy : option (list ascii))
  : result error (string * option string) :=
  match seal with
  | None => Ok ("", None)
  | Some f =>
      match randomToken "mls_" entropy with
      | Err e => Err (Wrap "mailing: generate secret" e)
      | Ok secret => match f secret with Ok blob => Ok (secret, Some blob) | Err e => Err (Wrap "mailing: seal secret" e) end
      end
  end.

Definition set_list_keys (x : gmap uuid list_key_row) (d : db) : db :=
  {| db_automations := db_automations d; db_versions := db_versions d; db_enrollments := db_enrollments d;
     db_steps := db_steps d; db_events := db_events d; db_subscribers := db_subscribers d;
     db_deliveries := db_deliveries d; db_lists := db_lists d; db_templates := db_templates d;
     db_businesses := db_businesses d; db_fenced_roots := db_fenced_roots d; db_list_keys := x;
     db_outbox := db_outbox d; db_audit := db_audit d |}.
Definition put_key (id : uuid) (k : list_key_row) (c : cdb) : cdb :=
  set_mail (set_db (set_list_keys (<[id := k]> (db_list_keys (c_db c))) (c_db c)) (c_mail c)) c.

Definition CreateListKey (principal business l : uuid) (label : option string) (public_entropy secret_entropy : option (list ascii))
    (seal : option (string -> result error string)) (id : uuid) : cdb -> cdb * result error (uuid * string * string) :=
  match randomToken "mlk_" public_entropy, new_secret seal secret_entropy with
  | Err e, _ => refused (Wrap "mailing: generate publishable key" e)
  | Ok _, Err e => refused e
  | Ok public, Ok (secret, sealed) =>
      let label := cleanOptional label in
      if match label with Some v => (120 <? len v)%Z | None => false end
      then refused (Wrap "mailing: label must not exceed 120 characters" ErrValidation) else
      run_request (fun c =>
        let? root := c_root principal business c in
        let? _ := loadActiveList principal business root l c in
        let? _ := fence (c_mail c) root in
        if bool_decide (db_list_keys (c_db c) !! id <> None) || bool_decide (c_keys c !! id <> None)
        then sql "23505" "mailing_list_key_pkey" else
        if mexists (fun _ x => String.eqb (kx_publishable x) public) (c_keys c)
        then sql "23505" "mailing_list_key_publishable_key_key" else
        let c := put_key id {| k_business := business; k_root := root; k_list := l; k_revoked := false |} c in
        let c := set_key_extras (<[id := {| kx_publishable := public; kx_sealed := sealed; kx_label := label |}]> (c_keys c)) c in
        Ok (c_audit principal business root "mailing.list_key.created" "mailing_list_key" id
              (JObj [("list_id", juuid l); ("has_secret", JBool (bool_decide (sealed <> None)))]) c, (id, public, secret)))
  end.

(** [RevokeMailingListKey] *)
Definition revoked_key (k : list_key_row) : list_key_row :=
  {| k_business := k_business k; k_root := k_root k; k_list := k_list k; k_revoked := true |}.

Definition RevokeListKey (principal business l key : uuid) : cdb -> cdb * result error unit :=
  run_request (fun c =>
    let? root := c_root principal business c in
    let? _ := c_loadList principal business root l c in
    match db_list_keys (c_db c) !! key with
    | None => Err ErrNoRows
    | Some k =>
        if negb (N.eqb (k_root k) root && authorized principal (k_business k) && negb (k_revoked k)) then Err ErrNoRows else
        let? _ := fence (c_mail c) root in
        let c := put_key key (revoked_key k) c in
        if negb (N.eqb (k_business k) business && N.eqb (k_list k) l) then Err ErrNoRows else
        Ok (c_audit principal business root "mailing.list_key.revoked" "mailing_list_key" key (JObj [("list_id", juuid l)]) c, tt)
    end).
End Lists.
