(* ===== verification/MailConsentFacts.v ===== *)
(** * What the operations of consent do

    One lemma per SQL function or request says which rows of the subscribers, of
    their consent and of the keys it writes; the rest of the tables follow from
    the shape of the writes. *)

From S2P Require Import Prelude GoStrings GoTime GoJson AutoGraph Errors AutoEngine AutoStore AutoStoreFacts AutoService AutoEvents.
From S2P Require Import MailToken MailStore MailFeedback MailService MailFacts MailOps MailFanout MailRequests MailWorker MailSafety.
From S2P Require Import MailConsent MailLists.
#[local] Open Scope go_scope.

Abbreviation c_list_keys c := (db_list_keys (m_db (c_mail c))).

(** ** Frames *)

(** Subscribers, their consent and the keys are as they were. *)
Definition same_people (c c' : cdb) : Prop :=
  c_subscribers c' = c_subscribers c /\ c_consents c' = c_consents c /\ c_list_keys c' = c_list_keys c /\ c_keys c' = c_keys c.

#[export] Instance same_people_preorder : PreOrder same_people.
Proof. split; [by intros c|]. intros a b c (? & ? & ? & ?) (? & ? & ? & ?). unfold same_people. split_and!; congruence. Qed.

(** One subscriber and its consent are written. *)
Definition row_written (id : uuid) (s : subscriber_row) (k : consent_row) (c c' : cdb) : Prop :=
  c_subscribers c' = <[id := s]> (c_subscribers c) /\ c_consents c' = <[id := k]> (c_consents c) /\
  c_list_keys c' = c_list_keys c /\ c_keys c' = c_keys c.

Lemma row_written_people id s k c c1 c' : row_written id s k c c1 -> same_people c1 c' -> row_written id s k c c'.
Proof. intros (? & ? & ? & ?) (? & ? & ? & ?). unfold row_written. split_and!; congruence. Qed.

Lemma put_row_written id s k c : row_written id s k c (put_row id s k c).
Proof. done. Qed.

(** The delivery queue, its campaigns and counters are as they were. *)
Definition same_queue (c c' : cdb) : Prop :=
  m_deliveries (c_mail c') = m_deliveries (c_mail c) /\ m_campaigns (c_mail c') = m_campaigns (c_mail c) /\
  m_rollups (c_mail c') = m_rollups (c_mail c).

#[export] Instance same_queue_preorder : PreOrder same_queue.
Proof. split; [by intros c|]. intros a b c (? & ? & ?) (? & ? & ?). unfold same_queue. split_and!; congruence. Qed.

Section Facts.
Context `{UnicodeTables, UUIDLib, Authz, MailCrypto, EventLib}.

Lemma emit_people root topic payload now c : same_people c (emit root topic payload now c).
Proof. done. Qed.
Lemma emit_suppressions root topic payload now c :
  m_suppressions (c_mail (emit root topic payload now c)) = m_suppressions (c_mail c).
Proof. done. Qed.
Lemma lift_people b e c : same_people c (lift_unsubscribe b e c).
Proof. unfold lift_unsubscribe. by destruct (_ && _). Qed.
Lemma lift_queue b e c : same_queue c (lift_unsubscribe b e c).
Proof. unfold lift_unsubscribe. by destruct (_ && _). Qed.
Lemma audit_people p b r action ty target v c : same_people c (c_audit p b r action ty target v c).
Proof. done. Qed.

(** Only a suppression that records an unsubscribe is lifted. *)
Lemma lift_suppressions b e c :
  m_suppressions (c_mail (lift_unsubscribe b e c)) = m_suppressions (c_mail c) \/
  (exists r, m_suppressions (c_mail c) !! (b, email_key e) = Some r /\ sp_reason r = RUnsubscribe /\
     m_suppressions (c_mail (lift_unsubscribe b e c)) = delete (b, email_key e) (m_suppressions (c_mail c))).
Proof.
  unfold lift_unsubscribe, business_suppressed, feedback_suppressed.
  destruct (m_suppressions (c_mail c) !! (b, email_key e)) as [r|]; [|by left]. simpl. rewrite negb_involutive.
  case_bool_decide; [|by left]. right. by exists r.
Qed.

(** ** Subscribing *)

Lemma find_subscriber_some c l e id s :
  find_subscriber c l e = Some (id, s) -> c_subscribers c !! id = Some s /\ s_list s = l /\ email_key (s_email s) = email_key e.
Proof.
  intros Hf%mfind_some. destruct Hf as [Hs Hm]. apply andb_true_iff in Hm as [Hl%N.eqb_eq He%String.eqb_eq]. done.
Qed.

Lemma find_subscriber_none c l e :
  find_subscriber c l e = None <->
  forall id s, c_subscribers c !! id = Some s -> s_list s = l -> email_key (s_email s) <> email_key e.
Proof.
  unfold find_subscriber. rewrite mfind_none, mexists_false. unfold citext_eq, email_key. split.
  - intros Hall id s Hs <- He. specialize (Hall _ _ Hs). rewrite N.eqb_refl, He, String.eqb_refl in Hall. done.
  - intros Hall id s Hs. destruct (N.eqb_spec (s_list s) l) as [Hl|]; [|done]. simpl. apply String.eqb_neq. by eapply Hall.
Qed.

(** The status a repeated sign-up asks for. *)
Definition again_status (a : subscribe_args) (s : subscriber_row) (c : cdb) : string :=
  if is_public a && reactivable (s_status s) then "pending" else desired_status a c.

(** What a sign-up may do. *)
Inductive subscribed (a : subscribe_args) (now : time) (c : cdb) : cdb -> Prop :=
| subscribed_same : subscribed a now c c
| subscribed_new c' id s k :
    c_subscribers c !! id = None -> find_subscriber c (sa_list a) (sa_email a) = None ->
    lacks_token a (desired_status a c) = false -> (s, k) = signed_up a (desired_status a c) now ->
    row_written id s k c c' -> m_suppressions (c_mail c') = m_suppressions (c_mail c) -> same_queue c c' ->
    subscribed a now c c'
| subscribed_again c' id s0 s k :
    find_subscriber c (sa_list a) (sa_email a) = Some (id, s0) -> reactivable (s_status s0) = true ->
    lacks_token a (again_status a s0 c) = false ->
    (s, k) = signed_up_again a (again_status a s0 c) now s0 (c_consents c !! id) ->
    row_written id s k c c' ->
    (m_suppressions (c_mail c') = m_suppressions (c_mail c) \/
     is_public a = false /\ exists r, m_suppressions (c_mail c) !! (sa_business a, email_key (sa_email a)) = Some r /\
       sp_reason r = RUnsubscribe /\
       m_suppressions (c_mail c') = delete (sa_business a, email_key (sa_email a)) (m_suppressions (c_mail c))) ->
    same_queue c c' ->
    subscribed a now c c'.

Lemma subscribe_new_spec a id now c c' out :
  find_subscriber c (sa_list a) (sa_email a) = None -> subscribe_new a id now c = Ok (c', out) -> subscribed a now c c'.
Proof.
  intros Hf. unfold subscribe_new. case_bool_decide as Hid; [done|].
  destruct (lacks_token a (desired_status a c)) eqn:Ht; [done|].
  destruct (signed_up a (desired_status a c) now) as [s k] eqn:Hsk. intros [= <- _].
  eapply (subscribed_new a now c _ id s k); [|done..|by destruct (is_active _)|by destruct (is_active _)|by destruct (is_active _)].
  by destruct (c_subscribers c !! id).
Qed.

Lemma subscribe_again_spec a id s0 now c c' out :
  find_subscriber c (sa_list a) (sa_email a) = Some (id, s0) -> subscribe_again a id s0 now c = Ok (c', out) ->
  subscribed a now c c'.
Proof.
  intros Hf. unfold subscribe_again. fold (again_status a s0 c).
  destruct (lacks_token a (again_status a s0 c)) eqn:Ht; [done|].
  destruct (reactivable (s_status s0)) eqn:Hr; [rewrite andb_true_l|intros [= <- _]; constructor].
  destruct (negb (is_public a && _)); [|intros [= <- _]; constructor].
  destruct (signed_up_again a (again_status a s0 c) now s0 (c_consents c !! id)) as [s k] eqn:Hsk. intros [= <- _].
  set (c1 := if negb (is_public a) && _ then _ else _).
  set (c2 := if _ && is_active _ then emit_activated _ _ _ _ else c1).
  set (c3 := if negb _ then emit_status _ _ _ _ _ else c2).
  assert (Hp : same_people c1 c3 /\ m_suppressions (c_mail c3) = m_suppressions (c_mail c1) /\ same_queue c1 c3).
  { subst c3 c2. by destruct (negb (String.eqb _ _)), (is_active _). }
  destruct Hp as (Hp & Hs & Hq). clearbody c3. clear c2.
  assert (Hc1 : same_people (put_row id s k c) c1 /\ same_queue c c1 /\
    (m_suppressions (c_mail c1) = m_suppressions (c_mail c) \/
     is_public a = false /\ exists r, m_suppressions (c_mail c) !! (sa_business a, email_key (sa_email a)) = Some r /\
       sp_reason r = RUnsubscribe /\
       m_suppressions (c_mail c1) = delete (sa_business a, email_key (sa_email a)) (m_suppressions (c_mail c)))).
  { subst c1. destruct (is_public a); simpl; [split; [done|split; [done|by left]]|]. destruct (is_active _); [|split; [done|split; [done|by left]]].
    split_and!; [apply lift_people|exact (lift_queue (sa_business a) (sa_email a) (put_row id s k c))|].
    destruct (lift_suppressions (sa_business a) (sa_email a) (put_row id s k c)) as [|(r & Hr' & Hu & Hd)]; [by left|].
    right. split; [done|]. by exists r. }
  destruct Hc1 as (Hp1 & Hq1 & Hs1).
  eapply (subscribed_again a now c _ id s0 s k); try done.
  - eapply row_written_people; [apply put_row_written|]. by etransitivity.
  - by rewrite Hs.
  - by etransitivity.
Qed.

Lemma key_subscribe_spec a id now c c' out : mailing_key_subscribe a id now c = Ok (c', out) -> subscribed a now c c'.
Proof.
  unfold mailing_key_subscribe. destruct (negb (key_usable a c)); [intros [= <- _]; constructor|].
  do 4 (case_match; [done|]). destruct (fence _ _); [|done]. cbn [result_bind].
  destruct (find_subscriber c (sa_list a) (sa_email a)) as [[sid s]|] eqn:Hf.
  - by apply subscribe_again_spec.
  - by apply subscribe_new_spec.
Qed.

(** A request through a key signs up with a fresh token, or none. *)
Definition issued (a : subscribe_args) (dr : draws) : Prop :=
  sa_token a = None \/
  exists raw hash, NewConfirmation (dr_entropy dr) = Ok (raw, hash) /\ sa_token a = Some (hash, Add (dr_clock dr) confirmationTTL).

Lemma subscribeResolved_spec l input s2s dr c c' x :
  subscribeResolved l input s2s dr c = Ok (c', x) ->
  exists a, subscribed a (dr_now dr) c c' /\ is_public a = negb s2s /\ issued a dr /\ sa_list a = pl_listID l /\
    sa_business a = pl_businessID l /\ mail_normalizeEmail (ps_Email input) = Ok (sa_email a) /\
    (is_public a = true -> sa_skip a = false /\ sa_attested a = None) /\ (is_public a = false -> sa_attested a <> None).
Proof.
  unfold subscribeResolved. destruct (mail_normalizeEmail _) as [email|] eqn:He; [|done]. cbn [result_bind].
  destruct (jsonObject _) as [attrs|]; [|done]. cbn [result_bind].
  destruct (confirmation_token _ dr) as [token|] eqn:Ht; [|done]. cbn [result_bind].
  assert (Hi : forall a, sa_token a = option_map snd token -> issued a dr).
  { unfold confirmation_token in Ht. intros a Ha. unfold issued. rewrite Ha. destruct (negb s2s || _); [|injection Ht as <-; by left].
    destruct (NewConfirmation _) as [[raw hash]|] eqn:Hn; [|done]. cbn [result_bind] in Ht. injection Ht as <-. right. by exists raw, hash. }
  destruct s2s; cbn [result_bind]; [unfold mailing_s2s_subscribe|unfold mailing_public_subscribe];
    match goal with |- context [mailing_key_subscribe ?a _ _ _] => set (args := a) end;
    destruct (mailing_key_subscribe args _ _ c) as [[c1 out]|] eqn:Hk; try done; cbn [result_bind]; intros [= <- _];
    exists args; (split; [by eapply key_subscribe_spec|]); (split_and!; [done|by apply Hi|done..]).
Qed.

(** ** Confirming *)

Lemma confirm_spec hash now c c' n :
  mailing_confirm hash now c = Ok (c', n) ->
  (n = 0%Z /\ c' = c) \/
  (n = 1%Z /\ exists id s k, c_subscribers c !! id = Some s /\ c_consents c !! id = Some k /\ confirmable c hash now id s = true /\
     row_written id (with_subscriber_status "active" s) (confirmed now k) c c' /\ same_queue c c' /\
     (m_suppressions (c_mail c') = m_suppressions (c_mail c) \/
      exists r, m_suppressions (c_mail c) !! (s_business s, email_key (s_email s)) = Some r /\ sp_reason r = RUnsubscribe /\
        m_suppressions (c_mail c') = delete (s_business s, email_key (s_email s)) (m_suppressions (c_mail c)))).
Proof.
  unfold mailing_confirm. destruct (mfind _ _) as [[id s]|] eqn:Hf; [|intros [= <- <-]; by left].
  apply mfind_some in Hf as [Hs Hc]. destruct (fence _ _); [|done]. cbn [result_bind]. intros [= <- <-]. right. split; [done|].
  pose proof Hc as Hc0. unfold confirmable, confirms in Hc. destruct (c_consents c !! id) as [k|] eqn:Hk; [|by destruct (is_pending _)].
  exists id, s, k. split_and!; try done.
  - eapply row_written_people; [|apply lift_people]. unfold row_written. simpl. split_and!; try done.
    apply map_eq. intros i. destruct (decide (i = id)) as [->|Hi]; [by rewrite lookup_alter_eq, lookup_insert_eq, Hk|].
    by rewrite lookup_alter_ne, lookup_insert_ne by done.
  - match goal with |- same_queue _ (emit_status _ _ _ _ (emit_activated _ _ _ (lift_unsubscribe ?b ?e ?c1))) =>
      exact (lift_queue b e c1) end.
  - match goal with |- context [lift_unsubscribe ?b ?e ?c1] => exact (lift_suppressions b e c1) end.
Qed.

Lemma confirm_none hash now c :
  (forall id s, c_subscribers c !! id = Some s -> confirmable c hash now id s = false) -> mailing_confirm hash now c = Ok (c, 0%Z).
Proof. intros Hall. unfold mailing_confirm. apply mexists_false, mfind_none in Hall. by rewrite Hall. Qed.

(** ** The invariant, and what every operation respects *)

(** Consent that somebody vouches for names the person or key that does, and whoever
    is active was confirmed. *)
Definition recorded (s : subscriber_row) (k : consent_row) : Prop :=
  (co_source k <> SPublicForm -> co_attested_by k <> None) /\ (is_active (s_status s) = true -> co_confirmed_at k <> None).

Record consent_ok (c : cdb) : Prop := {
  ok_unique : forall i j s t, c_subscribers c !! i = Some s -> c_subscribers c !! j = Some t -> s_list s = s_list t ->
    email_key (s_email s) = email_key (s_email t) -> i = j;
  ok_recorded : forall i s, c_subscribers c !! i = Some s -> exists k, c_consents c !! i = Some k /\ recorded s k;
  ok_keys : forall i j x y, c_keys c !! i = Some x -> c_keys c !! j = Some y -> kx_publishable x = kx_publishable y -> i = j
}.

Definition same_identity (s s' : subscriber_row) : Prop :=
  s_business s' = s_business s /\ s_root s' = s_root s /\ s_list s' = s_list s /\ s_email s' = s_email s.

(** [tok] are the hashes of the confirmation tokens that may have been issued. *)
Record advances (tok : list ascii -> Prop) (c c' : cdb) : Prop := {
  ad_ok : consent_ok c';
  ad_people : forall id s, c_subscribers c !! id = Some s -> exists s', c_subscribers c' !! id = Some s' /\ same_identity s s';
  ad_tokens : forall id k' h e, c_consents c' !! id = Some k' -> co_confirm k' = Some (h, e) ->
    tok h \/ exists k, c_consents c !! id = Some k /\ co_confirm k = Some (h, e);
  ad_keys : forall id k, c_list_keys c !! id = Some k ->
    exists k', c_list_keys c' !! id = Some k' /\ (k_revoked k = true -> k_revoked k' = true);
  ad_extras : forall id x, c_keys c !! id = Some x -> c_keys c' !! id = Some x
}.
Definition fine (tok : list ascii -> Prop) (c c' : cdb) : Prop := consent_ok c -> advances tok c c'.

(** No token is issued. *)
Definition silent (_ : list ascii) : Prop := False.

Lemma same_identity_refl s : same_identity s s.
Proof. done. Qed.

#[export] Instance fine_preorder tok : PreOrder (fine tok).
Proof.
  split.
  - intros c Hok. split; try done; [|by eauto..]. intros id s Hs. by exists s.
  - intros a b c Hab Hbc Hok. destruct (Hab Hok) as [Hokb Hp1 Ht1 Hk1 He1]. destruct (Hbc Hokb) as [Hokc Hp2 Ht2 Hk2 He2].
    split; [done|..].
    + intros id s Hs. destruct (Hp1 _ _ Hs) as (s1 & Hs1 & I1). destruct (Hp2 _ _ Hs1) as (s2 & Hs2 & I2). exists s2. split; [done|].
      destruct I1 as (? & ? & ? & ?), I2 as (? & ? & ? & ?). unfold same_identity. split_and!; congruence.
    + intros id k' h e Hk' Hc. destruct (Ht2 _ _ _ _ Hk' Hc) as [|(k & Hk & Hc')]; [by left|]. by eapply Ht1.
    + intros id k Hk. destruct (Hk1 _ _ Hk) as (k1 & Hk1' & R1). destruct (Hk2 _ _ Hk1') as (k2 & Hk2' & R2). exists k2. auto.
    + auto.
Qed.

Lemma fine_people tok c c' : same_people c c' -> fine tok c c'.
Proof.
  intros (Hs & Hk & Hl & He) [Hu Hr Hkk]. split; rewrite ?Hs, ?Hk, ?Hl, ?He.
  - split; rewrite ?Hs, ?Hk, ?He; done.
  - intros id s Hid. by exists s.
  - intros id k' h e Hid Hc. right. by exists k'.
  - intros id k Hid. by exists k.
  - done.
Qed.

(** A row is written for a new address of the list, or over a row of the same identity. *)
Definition admits (c : cdb) (id : uuid) (s : subscriber_row) : Prop :=
  match c_subscribers c !! id with
  | Some s0 => same_identity s0 s
  | None => find_subscriber c (s_list s) (s_email s) = None
  end.

Lemma fine_row tok id s k c c' :
  admits c id s -> recorded s k ->
  (forall h e, co_confirm k = Some (h, e) -> tok h \/ exists k0, c_consents c !! id = Some k0 /\ co_confirm k0 = Some (h, e)) ->
  row_written id s k c c' -> fine tok c c'.
Proof.
  intros Ha Hrec Htok (Hs & Hk & Hl & He) [Hu Hr Hkk].
  assert (Hlook : forall i t, c_subscribers c !! i = Some t -> s_list t = s_list s -> email_key (s_email t) = email_key (s_email s) -> i = id).
  { intros i t Hi Hlist Hmail. unfold admits in Ha. destruct (c_subscribers c !! id) as [s0|] eqn:Hid.
    - destruct Ha as (_ & _ & Hl0 & Hm0). apply (Hu i id t s0); congruence.
    - rewrite find_subscriber_none in Ha. by destruct (Ha _ _ Hi Hlist). }
  split; rewrite ?Hs, ?Hk, ?Hl, ?He.
  - split; rewrite ?Hs, ?Hk, ?He; try done.
    + intros i j t u. rewrite !lookup_insert_Some. intros [[<- <-]|[Hi Ht]] [[<- <-]|[Hj Hv]] Hll Hmm; try done.
      * symmetry. by eapply Hlook.
      * by eapply Hlook.
      * by eapply Hu.
    + intros i t. rewrite lookup_insert_Some. intros [[<- <-]|[Hi Ht]]; [exists k; by rewrite lookup_insert_eq|].
      rewrite lookup_insert_ne by done. by apply Hr.
  - intros i t Ht. destruct (decide (i = id)) as [->|Hi]; [|exists t; by rewrite lookup_insert_ne].
    exists s. rewrite lookup_insert_eq. split; [done|]. unfold admits in Ha. by rewrite Ht in Ha.
  - intros i k' h e. rewrite lookup_insert_Some. intros [[<- <-]|[Hi Hk']] Hc; [by apply Htok|]. right. by exists k'.
  - intros i kk Hkk'. by exists kk.
  - done.
Qed.

(** A row and its consent are changed. *)
Lemma fine_update tok id s0 s (f : consent_row -> consent_row) c c' :
  c_subscribers c !! id = Some s0 -> same_identity s0 s ->
  (forall k, recorded s0 k -> recorded s (f k)) -> (forall k, co_confirm (f k) = None \/ co_confirm (f k) = co_confirm k) ->
  c_subscribers c' = <[id := s]> (c_subscribers c) -> c_consents c' = alter f id (c_consents c) ->
  c_list_keys c' = c_list_keys c -> c_keys c' = c_keys c -> fine tok c c'.
Proof.
  intros Hid Hsame Hrec Hconf Hs Hk Hl He Hok. destruct (ok_recorded _ Hok _ _ Hid) as (k & Hk0 & Hr).
  apply (fine_row tok id s (f k) c c'); try done.
  - unfold admits. by rewrite Hid.
  - by apply Hrec.
  - intros h e Hc. right. exists k. split; [done|]. destruct (Hconf k); congruence.
  - split_and!; try done. rewrite Hk. apply map_eq. intros i. destruct (decide (i = id)) as [->|Hi].
    + by rewrite lookup_alter_eq, lookup_insert_eq, Hk0.
    + by rewrite lookup_alter_ne, lookup_insert_ne by done.
Qed.

Lemma subscribed_fine a now c c' :
  (sa_source a <> SPublicForm -> sa_attested a <> None) -> subscribed a now c c' -> fine (fun h => option_map fst (sa_token a) = Some h) c c'.
Proof.
  intros Hatt Hsub. destruct Hsub as [|c' id s k Hid Hf Ht Hsk Hw _ _|c' id s0 s k Hf Hr Ht Hsk Hw _ _]; [reflexivity|..].
  - injection Hsk as -> ->. eapply fine_row; [|..|exact Hw].
    + unfold admits. by rewrite Hid.
    + split; [done|]. simpl. intros ->. done.
    + simpl. intros h e. destruct (is_pending _); [|done]. intros ->. by left.
  - injection Hsk as -> ->. apply find_subscriber_some in Hf as (Hid & _ & _). eapply fine_row; [|..|exact Hw].
    + unfold admits. by rewrite Hid.
    + split; [done|]. simpl. intros ->. done.
    + simpl. intros h e. destruct (is_pending _); [|done]. intros ->. by left.
Qed.

(** The hash a request may have issued. *)
Definition issues (dr : draws) (h : list ascii) : Prop := exists raw, NewConfirmation (dr_entropy dr) = Ok (raw, h).

Lemma fine_weaken (tok tok' : list ascii -> Prop) c c' : (forall h, tok h -> tok' h) -> fine tok c c' -> fine tok' c c'.
Proof.
  intros Hw Hf Hok. destruct (Hf Hok) as [H1' H2' H3' H4' H5']. split; try done. intros id k' h e Hk Hc.
  destruct (H3' _ _ _ _ Hk Hc) as [|]; [left; by apply Hw|by right].
Qed.

Lemma resolved_fine l input s2s dr c c' x : subscribeResolved l input s2s dr c = Ok (c', x) -> fine (issues dr) c c'.
Proof.
  intros Hr. destruct (subscribeResolved_spec _ _ _ _ _ _ _ Hr) as (a & Hsub & Hpub & Hi & _ & _ & _ & _ & Hatt).
  eapply fine_weaken; [|apply (subscribed_fine a (dr_now dr)); [|done]].
  - intros h. destruct Hi as [->|(raw & hash & Hn & ->)]; [done|]. intros [= <-]. by exists raw.
  - intros Hs. apply Hatt. unfold is_public. by apply bool_decide_eq_false_2.
Qed.

Lemma run_consent_fine {A : Type} tok (body : cdb -> result error (cdb * A)) c :
  (forall c' a, body c = Ok (c', a) -> fine tok c c') -> fine tok c (run_consent body c).1.
Proof. intros Hb. unfold run_consent. destruct (body c) as [[c' a]|] eqn:Hc; [by eapply Hb|]. simpl. reflexivity. Qed.

Lemma run_request_fine {A : Type} tok (body : cdb -> result error (cdb * A)) c :
  (forall c' a, body c = Ok (c', a) -> fine tok c c') -> fine tok c (run_request body c).1.
Proof. intros Hb. unfold run_request. destruct (body c) as [[c' a]|] eqn:Hc; [by eapply Hb|]. simpl. reflexivity. Qed.

Lemma subscribePublic_fine key input allow dr c : fine (issues dr) c (subscribePublic key input allow dr c).1.
Proof.
  apply run_consent_fine. intros c' a. destruct (mailing_public_list key c) as [l|]; [|intros [= <- _]; reflexivity].
  destruct (negb _); [done|]. destruct (subscribeResolved l input false dr c) as [[c1 x]|] eqn:Hr; [|done]. cbn [result_bind].
  intros [= <- _]. by eapply resolved_fine.
Qed.

Lemma verified_fine {A : Type} tok resolve env r (fn : publicListContext -> cdb -> result error (cdb * A)) c :
  (forall l c' a, fn l c = Ok (c', a) -> fine tok c c') -> fine tok c (withVerifiedS2SResolver resolve env r fn c).1.
Proof.
  intros Hfn. apply run_consent_fine. intros c' a. destruct (resolve _ c) as [l|]; [|intros [= <- _]; reflexivity].
  destruct (negb _); [intros [= <- _]; reflexivity|]. destruct (negb _); [done|].
  destruct (fn l c) as [[c1 x]|] eqn:Hf; [|done]. cbn [result_bind]. intros [= <- _]. by eapply Hfn.
Qed.

Lemma s2sSubscribe_fine env r dr c : fine (issues dr) c (s2sSubscribe env r dr c).1.
Proof.
  unfold s2sSubscribe. destruct (se_Decode _ _) as [input|]; [|simpl; reflexivity]. apply verified_fine. intros l c' a. destruct (subscribeResolved l input true dr c) as [[c1 x]|] eqn:Hr; [|done].
  cbn [result_bind]. intros [= <- _]. by eapply resolved_fine.
Qed.

Lemma confirm_fine hash now c c' n : mailing_confirm hash now c = Ok (c', n) -> fine silent c c'.
Proof.
  intros Hc. apply confirm_spec in Hc as [[_ ->]|(_ & id & s & k & Hs & Hk & _ & Hw & _)]; [reflexivity|].
  intros Hok. destruct (ok_recorded _ Hok _ _ Hs) as (k0 & Hk0 & Hr & _). rewrite Hk in Hk0. injection Hk0 as <-.
  eapply fine_row; [..|exact Hw|exact Hok].
  - unfold admits. by rewrite Hs.
  - by split.
  - done.
Qed.

Lemma Confirm_fine raw now c : fine silent c (Confirm raw now c).1.
Proof.
  unfold Confirm. destruct (HashConfirmation raw) as [hash|]; [|simpl; reflexivity]. apply run_consent_fine. intros c' a.
  destruct (mailing_confirm hash now c) as [[c1 n]|] eqn:Hc; [|done]. cbn [result_bind]. intros [= <- _]. by eapply confirm_fine.
Qed.

(** ** Unsubscribing *)

Lemma unsubscribe_people sub camp now m m' n :
  mailing_unsubscribe sub camp now m = Ok (m', n) ->
  db_list_keys (m_db m') = db_list_keys (m_db m) /\
  match db_subscribers (m_db m) !! sub with
  | None => m' = m
  | Some s => db_subscribers (m_db m') = if String.eqb (s_status s) "unsubscribed" then db_subscribers (m_db m)
                                         else <[sub := with_subscriber_status "unsubscribed" s]> (db_subscribers (m_db m))
  end.
Proof.
  unfold mailing_unsubscribe. destruct (db_subscribers (m_db m) !! sub) as [s|]; [|by intros [= <- _]].
  destruct (fence m _); [|done]. cbn [result_bind]. intros [= <- _]. by destruct (String.eqb (s_status s) "unsubscribed").
Qed.

Lemma consent_unsubscribe_fine sub camp now c c' n : consent_unsubscribe sub camp now c = Ok (c', n) -> fine silent c c'.
Proof.
  unfold consent_unsubscribe. destruct (mailing_unsubscribe sub camp now (c_mail c)) as [[m n']|] eqn:Hu; [|done].
  cbn [result_bind]. intros [= <- _]. apply unsubscribe_people in Hu as [Hl Hs].
  destruct (c_subscribers c !! sub) as [s|] eqn:Hsub; [|subst m; by apply fine_people].
  destruct (String.eqb (s_status s) "unsubscribed"); [by apply fine_people|].
  apply (fine_update silent sub s (with_subscriber_status "unsubscribed" s) (unsubscribed now)); try done; [|by left].
  intros k [Hr _]. by split.
Qed.

Lemma record_unsubscribe_people sub camp now m m' b :
  mailing_record_unsubscribe sub camp now m = Ok (m', b) -> m_db m' = m_db m.
Proof.
  unfold mailing_record_unsubscribe. destruct (mfind _ _) as [[id r]|]; [|by intros [= <- _]].
  destruct (has_event _ _ _); [by intros [= <- _]|]. destruct (fence _ _); [|done]. by intros [= <- _].
Qed.

Lemma consent_Unsubscribe_fine codec raw now c : fine silent c (consent_Unsubscribe codec raw now c).1.
Proof.
  unfold consent_Unsubscribe. destruct (DecodeUnsubscribe codec raw) as [[sub camp]|]; [|simpl; reflexivity].
  apply run_consent_fine. intros c' a. destruct (consent_unsubscribe sub camp now c) as [[c1 n]|] eqn:Hu; [|done]. cbn [result_bind].
  destruct (mailing_record_unsubscribe sub camp now (c_mail c1)) as [[m b]|] eqn:Hr; [|done]. cbn [result_bind]. intros [= <- _].
  transitivity c1; [by eapply consent_unsubscribe_fine|]. apply record_unsubscribe_people in Hr.
  apply fine_people. unfold same_people. simpl. by rewrite Hr.
Qed.

Lemma s2sUnsubscribe_fine env r email now c : fine silent c (s2sUnsubscribe env r email now c).1.
Proof.
  apply verified_fine. intros l c' a. destruct email as [raw|]; [|done]. destruct (mail_normalizeEmail raw) as [e|]; [|done].
  cbn [result_bind]. unfold mailing_s2s_unsubscribe. destruct (db_lists _ !! _); [|intros [= <- _]; reflexivity].
  destruct (mfind _ _) as [[id s]|]; [|intros [= <- _]; reflexivity]. by apply consent_unsubscribe_fine.
Qed.

Lemma UnsubscribeSubscriber_fine p b l id now c : fine silent c (UnsubscribeSubscriber p b l id now c).1.
Proof.
  apply run_request_fine. intros c' a. destruct (c_root p b c) as [root|]; [|done]. cbn [result_bind].
  destruct (c_loadList p b root l c); [|done]. cbn [result_bind]. unfold loadSubscriber.
  destruct (c_subscribers c !! id) as [s|] eqn:Hs; [|done]. destruct (_ && _); [|done]. cbn [result_bind].
  destruct (fence _ _); [|done]. cbn [result_bind]. intros [= <- _].
  apply (fine_update silent id s (with_subscriber_status "unsubscribed" s) (unsubscribed_by_hand now)); try done;
    try by destruct (String.eqb (s_status s) "unsubscribed").
  - intros k [Hr _]. by split.
  - by right.
Qed.

(** ** Managing subscribers *)

Lemma replaceTags_people id s tags old now c :
  c_subscribers (replaceTags id s tags old now c) = <[id := with_tags tags s]> (c_subscribers c) /\
  c_consents (replaceTags id s tags old now c) = c_consents c /\ c_list_keys (replaceTags id s tags old now c) = c_list_keys c /\
  c_keys (replaceTags id s tags old now c) = c_keys c /\ same_queue c (replaceTags id s tags old now c).
Proof.
  unfold replaceTags. set (c1 := set_mail (put_subscriber id (with_tags tags s) (c_mail c)) c).
  assert (Hf : forall ts cc, same_people cc (fold_left (fun c tag => if existsb (String.eqb tag) old then c else emit_tag id s now tag c) ts cc) /\
                             same_queue cc (fold_left (fun c tag => if existsb (String.eqb tag) old then c else emit_tag id s now tag c) ts cc)).
  { induction ts as [|t ts IH]; intros cc; simpl; [by split|]. destruct (existsb _ _); [apply IH|]. apply (IH (emit_tag id s now t cc)). }
  destruct (Hf tags c1) as ((? & ? & ? & ?) & ?). done.
Qed.

Lemma CreateSubscriber_fine p b l input contacts id now c : fine silent c (CreateSubscriber p b l input contacts id now c).1.
Proof.
  unfold CreateSubscriber. destruct (mail_normalizeEmail _) as [email|]; [|simpl; reflexivity].
  destruct (normalizeTags _) as [tags|]; [|simpl; reflexivity]. destruct (jsonObject _) as [attrs|]; [|simpl; reflexivity].
  apply run_request_fine. intros c' a. destruct (c_root p b c) as [root|]; [|done]. cbn [result_bind].
  destruct (loadActiveList p b root l c); [|done]. cbn [result_bind].
  destruct (manual_source _) as [source|]; [|done]. unfold InsertListSubscriber.
  set (status := if _ || _ then "active" else "pending"). destruct (fence _ _); [|done]. cbn [result_bind].
  case_bool_decide as Hid; [done|]. case_bool_decide as Hf; [done|]. destruct (match co_contact _ with Some _ => _ | None => _ end); [done|].
  cbn [result_bind]. intros [= <- _].
  match goal with |- context [replaceTags id ?x tags [] now (put_row id ?x ?y c)] => set (s := x); set (k := y) end.
  destruct (replaceTags_people id s tags [] now (put_row id s k c)) as (Hs & Hk & Hl & He & _).
  apply (fine_row silent id (with_tags tags s) k c).
  - unfold admits. destruct (c_subscribers c !! id) as [s0|] eqn:Hx; [done|]. exact Hf.
  - split; [done|]. simpl. intros ->. done.
  - done.
  - destruct (is_active status); split_and!; simpl; rewrite ?Hs, ?Hk, ?Hl, ?He; try done; simpl; apply insert_insert_eq.
Qed.
End Facts.
