(* ===== verification/MailConsentOps.v ===== *)
(** * The other operations and consent

    Managing lists, keys and subscribers, and the operations of mailing that are
    not about consent: none of them makes a token, brings back a revoked key or
    breaks the invariant; those of mailing make nobody active. *)

From S2P Require Import Prelude GoStrings GoTime GoJson AutoGraph Errors AutoEngine AutoStore AutoStoreFacts AutoService AutoEvents.
From S2P Require Import MailToken MailStore MailFeedback MailService MailFacts MailOps MailFanout MailRequests MailWorker MailSafety.
From S2P Require Import MailConsent MailLists MailConsentFacts.
From stdpp Require Import sorting.
#[local] Open Scope go_scope.
(** Every path of a body that ends well. *)
Ltac open_body :=
  repeat match goal with
    | |- result_bind ?x _ = Ok _ -> _ => destruct x eqn:?; cbn [result_bind]
    | |- Err _ = Ok _ -> _ => done
    | |- sql _ _ = Ok _ -> _ => done
    | |- Ok _ = Ok _ -> _ => intros ?; simplify_eq
    | |- _ = Ok _ -> _ => progress cbv zeta || case_match
    end.

Section MailOps.
Context `{UnicodeTables, UUIDLib, Authz, MailCrypto, EventLib}.

(** No row of a subscriber comes, goes, changes its identity or becomes active; keys stay. *)
Definition kept (s s' : subscriber_row) : Prop :=
  same_identity s s' /\ (is_active (s_status s') = true -> is_active (s_status s) = true).
Record demoting (m m' : mdb) : Prop := {
  dm_keys : db_list_keys (m_db m') = db_list_keys (m_db m);
  dm_rows : forall id, option_relation kept (fun _ => False) (fun _ => False)
                         (db_subscribers (m_db m) !! id) (db_subscribers (m_db m') !! id)
}.

#[export] Instance demoting_preorder : PreOrder demoting.
Proof.
  split.
  - intros m. split; [done|]. intros id. destruct (db_subscribers (m_db m) !! id); [|done]. by constructor.
  - intros a b c [K1 R1] [K2 R2]. split; [congruence|]. intros id. specialize (R1 id). specialize (R2 id).
    destruct (db_subscribers (m_db a) !! id), (db_subscribers (m_db b) !! id), (db_subscribers (m_db c) !! id); try done.
    simpl in *. destruct R1 as [(? & ? & ? & ?) I1], R2 as [(? & ? & ? & ?) I2]. split; [|auto].
    unfold same_identity. split_and!; congruence.
Qed.

Definition same_db_people (m m' : mdb) : Prop :=
  db_list_keys (m_db m') = db_list_keys (m_db m) /\ db_subscribers (m_db m') = db_subscribers (m_db m).
Lemma demoting_same m m' : same_db_people m m' -> demoting m m'.
Proof. intros [Hk Hs]. split; [done|]. intros id. rewrite Hs. destruct (db_subscribers (m_db m) !! id); [|done]. by constructor. Qed.

Lemma demoting_write m m' : delivery_write m m' -> demoting m m'.
Proof. intros Hw. apply demoting_same. rewrite Hw. done. Qed.

Lemma demoting_put now id r m : demoting m (put_delivery now id r m).
Proof. apply demoting_write, put_delivery_write. Qed.

Lemma demote_demoting id status m : is_active status = false -> demoting m (demote_subscriber id status m).
Proof.
  intros Hst. unfold demote_subscriber. destruct (db_subscribers (m_db m) !! id) as [s|] eqn:Hs; [|reflexivity].
  destruct (String.eqb _ _); [reflexivity|]. split; [done|]. intros i. simpl. destruct (decide (i = id)) as [->|Hi].
  - rewrite Hs, lookup_insert_eq. simpl. split; [done|]. simpl. by rewrite Hst.
  - rewrite lookup_insert_ne by done. destruct (db_subscribers (m_db m) !! i); [|done]. by constructor.
Qed.

Lemma demoting_run {A : Type} (body : mdb -> result error (mdb * A)) m :
  (forall m' a, body m = Ok (m', a) -> demoting m m') -> demoting m (run_mail body m).1.
Proof. intros Hb. unfold run_mail. destruct (body m) as [[m' a]|] eqn:Hm; [by eapply Hb|]. simpl. reflexivity. Qed.
Lemma demoting_attempt {A : Type} (body : mdb -> result error (mdb * A)) m :
  (forall m' a, body m = Ok (m', a) -> demoting m m') -> demoting m (attempt body m).
Proof. intros Hb. unfold attempt. destruct (body m) as [[m' a]|] eqn:Hm; [by eapply Hb|]. reflexivity. Qed.

Lemma demoting_update now f rows m : demoting m (update_deliveries now f rows m).
Proof. apply demoting_write, put_deliveries_write. Qed.

(** The paths of a body that touch neither subscribers nor keys. *)
Ltac elsewhere := open_body; try done; by apply demoting_same.

Lemma create_demoting p b input id now m : demoting m (CreateCampaign p b input id now m).1.
Proof. unfold CreateCampaign. do 2 (case_match; [|simpl; reflexivity]). apply demoting_run. intros m2 out. elsewhere. Qed.
Lemma update_demoting p b c input now m : demoting m (UpdateCampaign p b c input now m).1.
Proof. apply demoting_run. intros m2 out. cbv zeta. elsewhere. Qed.
Lemma delete_demoting p b c m : demoting m (DeleteCampaign p b c m).1.
Proof. apply demoting_run. intros m2 out. elsewhere. Qed.
Lemma schedule_demoting p c b root at_ now m m' row : ScheduleCampaign p c b root at_ now m = Ok (m', row) -> demoting m m'.
Proof. unfold ScheduleCampaign. elsewhere. Qed.
Lemma send_demoting p b c at_ clock now m : demoting m (SendCampaign p b c at_ clock now m).1.
Proof.
  apply demoting_run. intros m2 out. destruct (mail_resolveTenantRoot p b m); [|done]. cbn [result_bind].
  destruct (loadCampaign _ _ _ _ m); [|done]. cbn [result_bind]. destruct (negb _); [done|]. destruct (_ || _); [done|].
  destruct (ScheduleCampaign _ _ _ _ _ _ m) as [[m1 row]|e] eqn:Hs; [|by destruct (is_no_rows e)]. cbn [result_bind].
  apply schedule_demoting in Hs. open_body; try done. etransitivity; [exact Hs|]. by apply demoting_same.
Qed.
Lemma suppress_demoting p b email reason now m : demoting m (CreateSuppression p b email reason now m).1.
Proof. unfold CreateSuppression. do 2 (case_match; [|simpl; reflexivity]). apply demoting_run. intros m2 out. elsewhere. Qed.
Lemma unsuppress_demoting p b s m : demoting m (DeleteSuppression p b s m).1.
Proof. apply demoting_run. intros m2 out. elsewhere. Qed.

Lemma cancel_campaign_demoting p c now m m' b : mailing_cancel_campaign p c now m = Ok (m', b) -> demoting m m'.
Proof.
  unfold mailing_cancel_campaign. open_body; try done; try reflexivity.
  etransitivity; [|apply demoting_update]. by apply demoting_same.
Qed.
Lemma cancel_demoting p b c now m : demoting m (CancelCampaign p b c now m).1.
Proof.
  apply demoting_run. intros m2 out. destruct (mail_resolveTenantRoot p b m); [|done]. cbn [result_bind].
  destruct (loadCampaign _ _ _ _ m); [|done]. cbn [result_bind]. destruct (negb _); [done|].
  destruct (mailing_cancel_campaign p c now m) as [[m1 ch]|] eqn:Hc; [|done]. cbn [result_bind].
  apply cancel_campaign_demoting in Hc. destruct (negb ch); [done|]. destruct (loadCampaign _ _ _ _ m1); [|done]. cbn [result_bind].
  intros [= <- _]. etransitivity; [exact Hc|]. by apply demoting_same.
Qed.

Lemma demoting_public {A : Type} (body : mdb -> result error (mdb * A)) m :
  (forall m' a, body m = Ok (m', a) -> demoting m m') -> demoting m (run_public body m).1.
Proof. intros Hb. unfold run_public. destruct (body m) as [[m' a]|] eqn:Hm; [by eapply Hb|]. simpl. reflexivity. Qed.

Lemma track_demoting id click target now m : demoting m (recordTrack id click target now m).1.
Proof.
  apply demoting_public. intros m2 out. unfold mailing_record_track. open_body; try done; try reflexivity;
    (etransitivity; [|apply demoting_put]); by apply demoting_same.
Qed.
Lemma open_demoting codec raw now m : demoting m (trackOpen codec raw now m).
Proof. unfold trackOpen. case_match; [|reflexivity]. apply track_demoting. Qed.
Lemma click_demoting codec url_ok raw now m : demoting m (trackClick codec url_ok raw now m).1.
Proof. unfold trackClick. repeat case_match; try (simpl; reflexivity). apply track_demoting. Qed.

Lemma bounced_demoting message now m m' b : mailing_mark_bounced message now m = Ok (m', b) -> demoting m m'.
Proof.
  unfold mailing_mark_bounced. destruct (mfind _ _) as [[id r]|]; [|intros [= <- _]; reflexivity].
  destruct (fence _ _); [|done]. cbn [result_bind].
  set (m1 := if status_in _ _ then m else _). intros [= <- _].
  assert (D1 : demoting m m1) by (subst m1; destruct (status_in _ _); [reflexivity|apply demoting_put]).
  set (m2 := demote_subscriber _ _ _).
  assert (D2 : demoting m1 m2) by (subst m2; etransitivity; [|by apply demote_demoting]; by apply demoting_same).
  transitivity m2; [by etransitivity|]. destruct (has_event _ _ _); [reflexivity|by apply demoting_same].
Qed.

Lemma apply_event_demoting w p x e now m : demoting m (mailing_apply_provider_event_internal w p x e now m).1.
Proof.
  unfold mailing_apply_provider_event_internal. destruct (correlated _ _ _) as [[id r]|]; [|simpl; reflexivity].
  destruct (provider_event_seen _ _ _); [simpl; reflexivity|]. simpl.
  set (m1 := put_delivery _ _ _ _). transitivity m1; [apply demoting_put|].
  destruct (is_negative _); [|by apply demoting_same]. etransitivity; [|apply demote_demoting; by case_bool_decide].
  by apply demoting_same.
Qed.
Lemma apply_events_demoting w p x es now m m' : apply_events w p x es now m = Ok m' -> demoting m m'.
Proof.
  revert m. induction es as [|e es IH]; intros m; simpl; [intros [= <-]; reflexivity|].
  pose proof (apply_event_demoting w p x e now m) as He. destruct (mailing_apply_provider_event_internal w p x e now m) as [m1 []]; [|done].
  intros Hm%IH. by etransitivity.
Qed.
Lemma apply_pending_demoting w now m m' b : mailing_apply_pending_webhook w now m = Ok (m', b) -> demoting m m'.
Proof.
  unfold mailing_apply_pending_webhook. destruct (m_webhooks m !! w) as [wh|]; [|intros [= <- _]; reflexivity].
  destruct (wh_applied wh); [intros [= <- _]; reflexivity|]. destruct (wh_expires_at wh <=? now)%Z; [intros [= <- _]; by apply demoting_same|].
  destruct (existsb _ _); [intros [= <- _]; reflexivity|].
  destruct (apply_events w (wh_profile wh) (wh_event wh) (wh_events wh) now m) as [m1|] eqn:He; [|done]. cbn [result_bind].
  intros [= <- _]. apply apply_events_demoting in He. etransitivity; [exact He|by apply demoting_same].
Qed.
Lemma apply_webhooks_demoting ids now m m' : apply_webhooks ids now m = Ok m' -> demoting m m'.
Proof.
  revert m. induction ids as [|id ids IH]; intros m; simpl; [intros [= <-]; reflexivity|].
  destruct (mailing_apply_pending_webhook id now m) as [[m1 b]|] eqn:Hp; [|done]. cbn [result_bind].
  intros Hm%IH. apply apply_pending_demoting in Hp. by etransitivity.
Qed.
Lemma webhook_demoting locked i now m m' o : mailing_process_provider_webhook locked i now m = Ok (m', o) -> demoting m m'.
Proof.
  unfold mailing_process_provider_webhook. destruct (negb (admissible i)); [intros [= <- _]; reflexivity|].
  destruct (m_profiles m !! wi_profile i) as [p|]; [|intros [= <- _]; reflexivity].
  destruct (negb _); [intros [= <- _]; reflexivity|]. cbv zeta. set (m1 := set_webhooks _ m).
  assert (H1' : demoting m m1) by by apply demoting_same.
  destruct (negb _); [by intros [= <- _]|]. destruct (existsb _ _); [by intros [= <- _]|]. destruct (already_applied i m1); [by intros [= <- _]|].
  set (m2 := if match mfind _ _ with Some _ => false | None => true end then _ else m1).
  assert (H2' : demoting m m2) by (transitivity m1; [done|]; subst m2; by destruct (mfind _ _); apply demoting_same).
  destruct (match mfind _ _ with Some _ => _ | None => false end); [by intros [= <- _]|].
  destruct (mailing_apply_pending_webhook _ now m2) as [[m3 applied]|] eqn:Hp; [|done]. cbn [result_bind].
  apply apply_pending_demoting in Hp. assert (H3' : demoting m m3) by by transitivity m2.
  destruct applied; [by intros [= <- _]|]. destruct (_ || _); [|by intros [= <- _]]. intros [= <- _].
  transitivity m3; [done|]. destruct (mfind _ _); by apply demoting_same.
Qed.

Lemma claim_campaigns_demoting locked limit now m : demoting m (mailing_claim_campaigns_for_fanout locked limit now m).1.
Proof.
  simpl. generalize (take (batch_limit limit 1 100) (merge_sort fanout_before
    (List.filter (fun x => unlocked locked (fst x) && fanout_due m now (snd x)) (map_to_list (m_campaigns m))))).
  intros l. revert m. induction l as [|x l IH]; intros m; simpl; [reflexivity|]. etransitivity; [|apply IH]. by apply demoting_same.
Qed.
Lemma fanout_demoting c batch domain newid now m m' out : mailing_fanout_batch c batch domain newid now m = Ok (m', out) -> demoting m m'.
Proof.
  unfold mailing_fanout_batch. destruct (negb _); [done|]. destruct (m_campaigns m !! c) as [row|]; [|intros [= <- _]; reflexivity].
  destruct (_ || _); [intros [= <- _]; reflexivity|]. destruct (negb _); [intros [= <- _]; reflexivity|]. cbv zeta.
  destruct (insert_campaign_deliveries _ _ _ _ _ _ m 0) as [[m1 n]|] eqn:Hi; [|done]. cbn [result_bind]. intros [= <- _].
  apply insert_inserted in Hi. transitivity m1; [by eapply demoting_write, ins_write|]. by apply demoting_same.
Qed.
Lemma claim_demoting locked first limit lease now m : demoting m (mailing_claim_deliveries locked first limit lease now m).1.
Proof.
  unfold mailing_claim_deliveries. cbn [fst]. etransitivity; [|apply demoting_update]. etransitivity; [|apply demoting_update].
  apply demoting_write, put_deliveries_write.
Qed.
Lemma release_demoting id gen nb now m : demoting m (mailing_release_delivery id gen nb now m).1.
Proof. unfold mailing_release_delivery. repeat case_match; simpl; try reflexivity. apply demoting_put. Qed.
Lemma renew_demoting id gen lease now m : demoting m (mailing_renew_delivery id gen lease now m).1.
Proof. unfold mailing_renew_delivery. repeat case_match; simpl; try reflexivity. apply demoting_put. Qed.
Lemma fail_demoting id gen err status nb now m m' b : mailing_fail_delivery id gen err status nb now m = Ok (m', b) -> demoting m m'.
Proof. unfold mailing_fail_delivery. cbv zeta. destruct (if_claimed m id gen); open_body; try done; try reflexivity; apply demoting_put. Qed.
Lemma complete_demoting locked id gen p now m m' b : mailing_complete_delivery locked id gen p now m = Ok (m', b) -> demoting m m'.
Proof.
  unfold mailing_complete_delivery. destruct (if_claimed m id gen) as [r|]; [|intros [= <- _]; reflexivity]. cbv zeta.
  set (m1 := put_delivery _ _ _ _). set (m2 := set_webhooks _ m1).
  destruct (apply_webhooks _ now m2) as [m3|] eqn:Hw; [|done]. cbn [result_bind]. intros [= <- _].
  apply apply_webhooks_demoting in Hw. transitivity m2; [|done]. transitivity m1; [apply demoting_put|by apply demoting_same].
Qed.

(** The operations on mailing that do not concern consent. *)
Definition plain_op (op : mail_op) : bool := match op with MArchive _ _ _ | MUnsubscribe _ => false | _ => true end.

Create HintDb mailing.
#[local] Hint Resolve create_demoting update_demoting delete_demoting send_demoting suppress_demoting unsuppress_demoting
  cancel_demoting open_demoting click_demoting claim_campaigns_demoting claim_demoting release_demoting renew_demoting : mailing.
#[local] Hint Resolve bounced_demoting webhook_demoting fanout_demoting fail_demoting complete_demoting : mailing.

Lemma plain_op_demoting codec url_ok op now m : plain_op op = true -> demoting m (mail_exec codec url_ok op now m).
Proof.
  destruct op; intros Hp; try discriminate Hp; cbn [mail_exec]; try solve [auto with mailing];
    try (apply demoting_attempt; intros m2 out; eauto with mailing); try by apply demoting_same.
  unfold mailing_rollup_changed_campaign. repeat case_match; by apply demoting_same.
Qed.

Lemma fine_demoting tok m c : demoting (c_mail c) m -> fine tok c (set_mail m c).
Proof.
  intros [Hk Hr] [Hu Hrec Hkeys]. split.
  - split; simpl; [..|done].
    + intros i j s t Hi Hj Hl He. pose proof (Hr i) as Ri. pose proof (Hr j) as Rj. rewrite Hi in Ri. rewrite Hj in Rj.
      destruct (c_subscribers c !! i) as [s0|] eqn:Hi0; [|done]. destruct (c_subscribers c !! j) as [t0|] eqn:Hj0; [|done].
      destruct Ri as [(_ & _ & ? & ?) _], Rj as [(_ & _ & ? & ?) _]. apply (Hu i j s0 t0); congruence.
    + intros i s Hi. pose proof (Hr i) as Ri. rewrite Hi in Ri. destruct (c_subscribers c !! i) as [s0|] eqn:Hi0; [|done].
      destruct (Hrec _ _ Hi0) as (k & Hk0 & Ha & Hc). exists k. split; [done|]. destruct Ri as [_ Hact]. split; [done|]. auto.
  - intros i s Hi. pose proof (Hr i) as Ri. rewrite Hi in Ri. simpl. destruct (db_subscribers (m_db m) !! i) as [s'|]; [|done].
    exists s'. split; [done|]. apply Ri.
  - intros i k h e Hi Hc. right. by exists k.
  - simpl. rewrite Hk. intros i k Hi. by exists k.
  - done.
Qed.

(** ** Subscribers, lists and keys by hand *)

Lemma updated_recorded u attrs status now s k : recorded s k -> recorded (updated_subscriber u status s) (updated_consent attrs status now k).
Proof.
  intros [Ha Hc]. split; [done|]. simpl. destruct status as [st|]; simpl; [|done]. case_bool_decide as Hst; [by destruct (co_confirmed_at k)|].
  unfold is_active. intros ->%String.eqb_eq. by destruct Hst.
Qed.

Lemma UpdateSubscriber_fine p b l id u now c : fine silent c (UpdateSubscriber p b l id u now c).1.
Proof.
  unfold UpdateSubscriber. destruct (opt_result jsonObject _) as [attrs|]; [|simpl; reflexivity].
  destruct (parse_status _) as [status|]; [|simpl; reflexivity]. destruct (opt_result normalizeTags _) as [tags|]; [|simpl; reflexivity].
  apply run_request_fine. intros c' a. destruct (c_root p b c) as [root|]; [|done]. cbn [result_bind].
  destruct (c_loadList p b root l c); [|done]. cbn [result_bind]. unfold loadSubscriber.
  destruct (c_subscribers c !! id) as [s|] eqn:Hs; [|done]. destruct (_ && _); [|done]. cbn [result_bind].
  destruct (fence _ _); [|done]. cbn [result_bind]. cbv zeta. intros [= <- _].
  set (s' := updated_subscriber u status s). set (c1 := update_consent _ id _).
  set (c2 := match tags with Some _ => _ | None => c1 end).
  assert (Hc2 : c_subscribers c2 = <[id := with_tags (default (s_tags s) tags) s']> (c_subscribers c) /\ c_consents c2 = c_consents c1 /\
                c_list_keys c2 = c_list_keys c /\ c_keys c2 = c_keys c).
  { subst c2. destruct tags as [ts|].
    - destruct (replaceTags_people id s' ts (s_tags s) now c1) as (-> & -> & -> & -> & _). simpl. by rewrite insert_insert_eq.
    - by split_and!. }
  destruct Hc2 as (E1 & E2 & E3 & E4).
  apply (fine_update silent id s (with_tags (default (s_tags s) tags) s') (updated_consent attrs status now)); try done;
    try by (destruct (negb _), (is_active (default (s_status s) status))).
  - intros k Hk. exact (updated_recorded u attrs status now s k Hk).
  - by right.
Qed.

Lemma CreateList_people p b input id c : same_people c (CreateList p b input id c).1.
Proof.
  unfold CreateList. destruct (name_problem _); [done|]. destruct (_ || _); [done|]. unfold run_request.
  match goal with |- same_people c (match ?x with Ok _ => _ | Err _ => _ end).1 => destruct x as [[c' a]|] eqn:Hb end; [|done].
  revert Hb. open_body; try done.
Qed.
Lemma UpdateList_people p b l u c : same_people c (UpdateList p b l u c).1.
Proof.
  unfold UpdateList. destruct (match option_map _ _ with Some _ => _ | None => _ end); [done|]. unfold run_request.
  match goal with |- same_people c (match ?x with Ok _ => _ | Err _ => _ end).1 => destruct x as [[c' a]|] eqn:Hb end; [|done].
  revert Hb. open_body; try done.
Qed.

Lemma archive_demoting l b r now m m' n : mailing_archive_list l b r now m = Ok (m', n) -> demoting m m'.
Proof.
  unfold mailing_archive_list. open_body; try done; try reflexivity. etransitivity; [|apply demoting_update]. by apply demoting_same.
Qed.

Lemma fine_unconfirm tok p c : fine tok c (set_consents (mupdate p unconfirm (c_consents c)) c).
Proof.
  intros [Hu Hr Hk]. split; try done.
  - split; try done. simpl. intros i s Hs. destruct (Hr _ _ Hs) as (k & Hk0 & Hrec). rewrite lookup_mupdate, Hk0. simpl.
    destruct (p i k); eexists; (split; [done|]); [by destruct Hrec|done].
  - intros i s Hs. by exists s.
  - simpl. intros i k' h e. rewrite lookup_mupdate. destruct (c_consents c !! i) as [k|] eqn:Hk0; [|done]. simpl. intros [= <-].
    destruct (p i k); [done|]. intros Hc. right. by exists k.
  - intros i k Hi. by exists k.
Qed.

Lemma consent_ArchiveList_fine p b l now c : fine silent c (consent_ArchiveList p b l now c).1.
Proof.
  apply run_request_fine. intros c' a. destruct (c_root p b c) as [root|]; [|done]. cbn [result_bind].
  destruct (c_loadList p b root l c); [|done]. cbn [result_bind]. unfold consent_archive_list.
  destruct (mailing_archive_list l b root now (c_mail c)) as [[m n]|] eqn:Ha; [|done]. cbn [result_bind].
  apply archive_demoting in Ha. destruct (negb _); [done|]. intros [= <- _].
  match goal with |- fine silent c (c_audit _ _ _ _ _ _ _ ?x) => transitivity x; [|by apply fine_people] end.
  transitivity (set_mail m c); [by apply fine_demoting|]. destruct (n =? 0)%Z; [reflexivity|].
  exact (fine_unconfirm silent (fun id _ => pending_on c l b root id) (set_mail m c)).
Qed.

Lemma fine_key tok id k c :
  (forall k0, c_list_keys c !! id = Some k0 -> k_revoked k0 = true -> k_revoked k = true) -> fine tok c (put_key id k c).
Proof.
  intros Hrev [Hu Hr Hk]. split; try done.
  - intros i s Hs. by exists s.
  - intros i k' h e Hk' Hc. right. by exists k'.
  - simpl. intros i k0 Hi. destruct (decide (i = id)) as [->|Hne]; [exists k; rewrite lookup_insert_eq; eauto|].
    exists k0. by rewrite lookup_insert_ne.
Qed.

Lemma fine_extra tok id x c :
  c_keys c !! id = None -> mexists (fun _ y => String.eqb (kx_publishable y) (kx_publishable x)) (c_keys c) = false ->
  fine tok c (set_key_extras (<[id := x]> (c_keys c)) c).
Proof.
  intros Hid Hpub [Hu Hr Hk]. rewrite mexists_false in Hpub. split; try done.
  - split; try done. simpl. intros i j y z. rewrite !lookup_insert_Some. intros [[<- <-]|[Hi Hy]] [[<- <-]|[Hj Hz]] E; try done.
    + specialize (Hpub _ _ Hz). apply String.eqb_neq in Hpub. by rewrite E in Hpub.
    + specialize (Hpub _ _ Hy). apply String.eqb_neq in Hpub. by rewrite E in Hpub.
    + by eapply Hk.
  - intros i s Hs. by exists s.
  - intros i k' h e Hk' Hc. right. by exists k'.
  - intros i k Hi. by exists k.
  - simpl. intros i y Hy. by rewrite lookup_insert_ne by congruence.
Qed.

Lemma CreateListKey_fine p b l label e1 e2 seal id c : fine silent c (CreateListKey p b l label e1 e2 seal id c).1.
Proof.
  unfold CreateListKey. destruct (randomToken "mlk_" e1) as [public|]; [|simpl; reflexivity].
  destruct (new_secret seal e2) as [[secret sealed]|]; [|simpl; reflexivity]. destruct (match cleanOptional label with Some _ => _ | None => _ end); [simpl; reflexivity|].
  apply run_request_fine. intros c' a. destruct (c_root p b c) as [root|]; [|done]. cbn [result_bind].
  destruct (loadActiveList p b root l c); [|done]. cbn [result_bind]. destruct (fence _ _); [|done]. cbn [result_bind].
  destruct (_ || _) eqn:Hfree; [done|]. apply orb_false_elim in Hfree as [F1%bool_decide_eq_false F2%bool_decide_eq_false].
  destruct (mexists _ _) eqn:Hpub; [done|]. cbv zeta. intros [= <- _].
  match goal with |- fine silent c (c_audit _ _ _ _ _ _ _ ?x) => transitivity x; [|by apply fine_people] end.
  match goal with |- fine silent c (set_key_extras (<[_ := ?x]> _) ?c1) =>
    transitivity c1; [|refine (fine_extra silent id x c1 _ Hpub); by apply dec_stable] end.
  apply fine_key. intros k0 Hk0. destruct F1. by rewrite Hk0.
Qed.

Lemma RevokeListKey_fine p b l key c : fine silent c (RevokeListKey p b l key c).1.
Proof.
  apply run_request_fine. intros c' a. destruct (c_root p b c) as [root|]; [|done]. cbn [result_bind].
  destruct (c_loadList p b root l c); [|done]. cbn [result_bind]. destruct (c_list_keys c !! key) as [k|]; [|done].
  destruct (negb _); [done|]. destruct (fence _ _); [|done]. cbn [result_bind]. destruct (negb _); [done|]. intros [= <- _].
  match goal with |- fine silent c (c_audit _ _ _ _ _ _ _ ?x) => transitivity x; [|by apply fine_people] end.
  by apply fine_key.
Qed.
End MailOps.
