(* ===== verification/MailConsentSafety.v ===== *)
(** * Consent as a system, and what it guarantees

    A step is one request of the public form, the signed API, a link or a manager,
    one transaction of the rest of mailing, or a step of another subsystem that
    neither adds subscribers nor makes them active.  Importing subscribers from a
    file and merging tenants are not steps of this system. *)

From S2P Require Import Prelude GoStrings GoBase64 GoTime GoJson AutoGraph Errors AutoEngine Concrete AutoStore AutoStoreFacts AutoService AutoEvents AutoDemo.
From S2P Require Import MailToken MailStore MailFeedback MailService MailFacts MailOps MailFanout MailRequests MailWorker MailSafety.
From S2P Require Import MailConsent MailLists MailConsentFacts MailConsentOps MailWitness.
#[local] Open Scope go_scope.

Inductive consent_op : Type :=
| CSignUp (key : string) (input : PublicSubscriptionInput) (allow : uuid -> bool) (dr : draws)
| CApiSignUp (env : s2s_env) (r : signed_request) (dr : draws)
| CApiUnsubscribe (env : s2s_env) (r : signed_request) (email : option string)
| CConfirm (raw : string)
| CUnsubscribe (raw : string)
| CCreateSubscriber (principal business list : uuid) (input : SubscriberInput) (contacts : gset (uuid * uuid)) (id : uuid)
| CUpdateSubscriber (principal business list id : uuid) (u : SubscriberUpdate)
| CUnsubscribeSubscriber (principal business list id : uuid)
| CCreateList (principal business : uuid) (input : ListInput) (id : uuid)
| CUpdateList (principal business list : uuid) (u : ListUpdate)
| CArchiveList (principal business list : uuid)
| CCreateListKey (principal business l : uuid) (label : option string) (e1 e2 : option (list ascii))
    (seal : option (string -> result error string)) (id : uuid)
| CRevokeListKey (principal business list key : uuid)
| CMail (op : mail_op).

(** What anybody on the network can send: no key's secret, no session. *)
Definition stranger (op : consent_op) : bool :=
  match op with CSignUp _ _ _ _ | CConfirm _ | CUnsubscribe _ => true | _ => false end.
(** Unsubscribing and archiving change consent: they are the operations above. *)
Definition proper (op : consent_op) : bool := match op with CMail op => plain_op op | _ => true end.

Section Safety.
Context `{UnicodeTables, UUIDLib, Authz, MailCrypto, EventLib} (codec : Codec) (url_ok : string -> bool).

Definition consent_exec (op : consent_op) (now : time) (c : cdb) : cdb :=
  match op with
  | CSignUp key input allow dr => (subscribePublic key input allow dr c).1
  | CApiSignUp env r dr => (s2sSubscribe env r dr c).1
  | CApiUnsubscribe env r email => (s2sUnsubscribe env r email now c).1
  | CConfirm raw => (Confirm raw now c).1
  | CUnsubscribe raw => (consent_Unsubscribe codec raw now c).1
  | CCreateSubscriber p b l input contacts id => (CreateSubscriber p b l input contacts id now c).1
  | CUpdateSubscriber p b l id u => (UpdateSubscriber p b l id u now c).1
  | CUnsubscribeSubscriber p b l id => (UnsubscribeSubscriber p b l id now c).1
  | CCreateList p b input id => (CreateList p b input id c).1
  | CUpdateList p b l u => (UpdateList p b l u c).1
  | CArchiveList p b l => (consent_ArchiveList p b l now c).1
  | CCreateListKey p b l label e1 e2 seal id => (CreateListKey p b l label e1 e2 seal id c).1
  | CRevokeListKey p b l key => (RevokeListKey p b l key c).1
  | CMail op => set_mail (mail_exec codec url_ok op now (c_mail c)) c
  end.

(** The hashes of the tokens an operation may issue. *)
Definition op_issues (op : consent_op) : list ascii -> Prop :=
  match op with CSignUp _ _ _ dr | CApiSignUp _ _ dr => issues dr | _ => silent end.

(** [tok] bounds the tokens the step may issue. *)
Inductive consent_step (tok : list ascii -> Prop) (c : cdb) : cdb -> Prop :=
| cstep_op op now : proper op = true -> (forall h, op_issues op h -> tok h) -> consent_step tok c (consent_exec op now c)
| cstep_elsewhere m : outside (c_mail c) m -> demoting (c_mail c) m -> consent_step tok c (set_mail m c).

Lemma consent_exec_fine op now c : proper op = true -> fine (op_issues op) c (consent_exec op now c).
Proof.
  destruct op; intros Hp; cbn [consent_exec op_issues].
  - apply subscribePublic_fine.
  - apply s2sSubscribe_fine.
  - apply s2sUnsubscribe_fine.
  - apply Confirm_fine.
  - apply consent_Unsubscribe_fine.
  - apply CreateSubscriber_fine.
  - apply UpdateSubscriber_fine.
  - apply UnsubscribeSubscriber_fine.
  - apply fine_people, CreateList_people.
  - apply fine_people, UpdateList_people.
  - apply consent_ArchiveList_fine.
  - apply CreateListKey_fine.
  - apply RevokeListKey_fine.
  - by apply fine_demoting, plain_op_demoting.
Qed.

Lemma consent_step_fine tok c c' : consent_step tok c c' -> fine tok c c'.
Proof.
  intros [op now Hp Hi|m _ Hd]; [|by apply fine_demoting]. eapply fine_weaken; [exact Hi|]. by apply consent_exec_fine.
Qed.

Lemma consent_run_fine tok c c' : rtc (consent_step tok) c c' -> fine tok c c'.
Proof. induction 1 as [|c c1 c' Hs _ IH]; [reflexivity|]. etransitivity; [by apply consent_step_fine|exact IH]. Qed.

Abbreviation any_token := (fun _ : list ascii => True).

(** C17: Whatever requests, links, workers and managers do, in any order: an address
    occurs once per list, every subscriber has a record of its consent, consent
    that somebody vouches for names the key or person that does, whoever is active
    was confirmed, and publishable keys are unique.  No subscriber disappears or
    becomes another person, and a revoked key stays revoked. *)
Theorem consent_invariant c c' :
  consent_ok c -> rtc (consent_step any_token) c c' ->
  consent_ok c' /\
  (forall id s, c_subscribers c !! id = Some s -> exists s', c_subscribers c' !! id = Some s' /\ same_identity s s') /\
  (forall id k, c_list_keys c !! id = Some k -> k_revoked k = true ->
     exists k', c_list_keys c' !! id = Some k' /\ k_revoked k' = true).
Proof.
  intros Hok Hr. destruct (consent_run_fine _ _ _ Hr Hok) as [Hok' Hp _ Hk _]. split_and!; [done..|].
  intros id k Hl Hrev. destruct (Hk _ _ Hl) as (k' & Hl' & Hr'). exists k'. auto.
Qed.

(** ** What strangers can do *)

(** The subscriber is active after, and was not (or was not there) before. *)
Definition became_active (id : uuid) (c c' : cdb) : Prop :=
  (exists s', c_subscribers c' !! id = Some s' /\ s_status s' = "active") /\
  forall s, c_subscribers c !! id = Some s -> s_status s <> "active".

(** The link of this very subscriber, in time, for a list in operation; nothing but
    an unsubscribe speaks against the address. *)
Definition confirmed_by (raw : string) (now : time) (id : uuid) (c : cdb) : Prop :=
  exists hash s k expires, HashConfirmation raw = Ok hash /\ c_subscribers c !! id = Some s /\ s_status s = "pending" /\
    c_consents c !! id = Some k /\ co_confirm k = Some (hash, expires) /\ (now < expires)%Z /\
    list_operational (c_db c) (s_list s) (s_business s) (s_root s) = true /\
    feedback_suppressed c (s_business s) (s_email s) = false.

(** The first sign-up of an address, not suppressed, on a list without confirmation. *)
Definition first_sign_up (key : string) (input : PublicSubscriptionInput) (id : uuid) (c : cdb) : Prop :=
  exists l email, mailing_public_list key c = Some l /\ pl_doubleOptIn l = false /\
    mail_normalizeEmail (ps_Email input) = Ok email /\ c_subscribers c !! id = None /\
    find_subscriber c (pl_listID l) email = None /\ business_suppressed c (pl_businessID l) email = false.

(** What a request does to activity and to what bounces and complaints recorded. *)
Definition kept_feedback (c c' : cdb) : Prop :=
  forall key r, m_suppressions (c_mail c) !! key = Some r -> is_feedback (sp_reason r) = true ->
    m_suppressions (c_mail c') !! key = Some r.

Lemma kept_feedback_same c c' : m_suppressions (c_mail c') = m_suppressions (c_mail c) -> kept_feedback c c'.
Proof. intros E key r. by rewrite E. Qed.
Lemma kept_feedback_delete key r c c' :
  m_suppressions (c_mail c) !! key = Some r -> sp_reason r = RUnsubscribe ->
  m_suppressions (c_mail c') = delete key (m_suppressions (c_mail c)) -> kept_feedback c c'.
Proof.
  intros Hr Hu E key' r' Hr' Hf. rewrite E. rewrite lookup_delete_ne; [done|]. intros <-. rewrite Hr in Hr'. injection Hr' as <-.
  by rewrite Hu in Hf.
Qed.

Lemma not_became_same id c c' : c_subscribers c' = c_subscribers c -> ~ became_active id c c'.
Proof. intros E [(s & Hs & Ha) Hn]. rewrite E in Hs. by apply (Hn s). Qed.

(** A written row that is not active makes nobody active. *)
Lemma became_row id i s k c c' : row_written i s k c c' -> became_active id c c' -> id = i /\ s_status s = "active".
Proof.
  intros (E & _) [(s' & Hs & Ha) Hn]. rewrite E in Hs. apply lookup_insert_Some in Hs as [[<- <-]|[_ Hs]]; [done|].
  by destruct (Hn _ Hs).
Qed.

Lemma pending_not_active : is_active "pending" = false.
Proof. done. Qed.

Lemma public_list_context key c l : mailing_public_list key c = Some l -> pl_doubleOptIn l = double_opt_in c (pl_listID l).
Proof.
  unfold mailing_public_list. destruct (enabled_key key c) as [[[id x] k]|]; [|done]. destruct (list_operational _ _ _ _); [|done].
  by intros [= <-].
Qed.

Lemma sign_up_strangers key input allow dr id c :
  let c' := (subscribePublic key input allow dr c).1 in
  (became_active id c c' -> first_sign_up key input id c) /\ kept_feedback c c'.
Proof.
  unfold subscribePublic, run_consent. destruct (mailing_public_list key c) as [l|] eqn:Hl; simpl;
    [|split; [intros Hb; by apply not_became_same in Hb|by apply kept_feedback_same]].
  destruct (negb (allow _)); simpl; [split; [intros Hb; by apply not_became_same in Hb|by apply kept_feedback_same]|].
  destruct (subscribeResolved l input false dr c) as [[c1 x]|] eqn:Hr; simpl;
    [|split; [intros Hb; by apply not_became_same in Hb|by apply kept_feedback_same]].
  destruct (subscribeResolved_spec _ _ _ _ _ _ _ Hr) as (a & Hsub & Hpub & _ & Hlist & Hbus & Hemail & Hskip & _).
  simpl in Hpub. destruct (Hskip Hpub) as [Hs _]. destruct Hsub as [|c' i s k Hi Hf _ Hsk Hw Hsup _|c' i s0 s k Hf Hre _ Hsk Hw Hsup _].
  - split; [intros Hb; by apply not_became_same in Hb|by apply kept_feedback_same].
  - split; [|by apply kept_feedback_same]. intros Hb. destruct (became_row _ _ _ _ _ _ Hw Hb) as [-> Hact].
    exists l, (sa_email a). injection Hsk as -> ->. simpl in Hact. unfold desired_status in Hact. rewrite Hpub, Hs, andb_true_l in Hact.
    rewrite <- Hlist, <- Hbus. destruct (business_suppressed c (sa_business a) (sa_email a)) eqn:Hbs; [done|].
    destruct (double_opt_in c (sa_list a)) eqn:Hd; [done|]. split_and!; try done.
    by rewrite (public_list_context _ _ _ Hl), <- Hlist.
  - split.
    + intros Hb. destruct (became_row _ _ _ _ _ _ Hw Hb) as [_ Hact]. injection Hsk as -> ->. simpl in Hact.
      unfold again_status in Hact. by rewrite Hpub, Hre in Hact.
    + destruct Hsup as [E|[E _]]; [by apply kept_feedback_same|congruence].
Qed.

Lemma confirm_strangers raw now id c :
  let c' := (Confirm raw now c).1 in
  (became_active id c c' -> confirmed_by raw now id c) /\ kept_feedback c c'.
Proof.
  unfold Confirm, run_consent. destruct (HashConfirmation raw) as [hash|] eqn:Hh; simpl;
    [|split; [intros Hb; by apply not_became_same in Hb|by apply kept_feedback_same]].
  destruct (mailing_confirm hash now c) as [[c1 n]|] eqn:Hc; simpl;
    [|split; [intros Hb; by apply not_became_same in Hb|by apply kept_feedback_same]].
  apply confirm_spec in Hc as [[_ ->]|(_ & i & s & k & Hs & Hk & Hc & Hw & _ & Hsup)];
    [split; [intros Hb; by apply not_became_same in Hb|by apply kept_feedback_same]|].
  split.
  - intros Hb. destruct (became_row _ _ _ _ _ _ Hw Hb) as [-> _]. unfold confirmable, confirms in Hc. rewrite Hk in Hc. simpl in Hc.
    destruct (co_confirm k) as [[h e]|] eqn:Hco; [|by destruct (is_pending _)].
    apply andb_true_iff in Hc as [Hc Hfb%negb_true_iff]. apply andb_true_iff in Hc as [Hc Hop].
    apply andb_true_iff in Hc as [Hp%String.eqb_eq Hc]. apply andb_true_iff in Hc as [<-%bool_decide_eq_true He%Z.ltb_lt].
    by exists h, s, k, e.
  - destruct Hsup as [E|(r & Hr & Hu & E)]; [by apply kept_feedback_same|by eapply kept_feedback_delete].
Qed.

Lemma unsubscribe_strangers raw now id c :
  let c' := (consent_Unsubscribe codec raw now c).1 in
  ~ became_active id c c' /\ kept_feedback c c'.
Proof.
  unfold consent_Unsubscribe, run_consent. destruct (DecodeUnsubscribe codec raw) as [[sub camp]|]; simpl;
    [|split; [by apply not_became_same|by apply kept_feedback_same]].
  destruct (consent_unsubscribe sub camp now c) as [[c1 n]|] eqn:Hu; simpl; [|split; [by apply not_became_same|by apply kept_feedback_same]].
  destruct (mailing_record_unsubscribe sub camp now (c_mail c1)) as [[m b]|] eqn:Hr; simpl;
    [|split; [by apply not_became_same|by apply kept_feedback_same]].
  assert (E : m_db m = m_db (c_mail c1) /\ m_suppressions m = m_suppressions (c_mail c1)).
  { revert Hr. unfold mailing_record_unsubscribe. repeat case_match; try done; try (intros [= <- _]; done).
    destruct (fence _ _); [|done]. by intros [= <- _]. }
  destruct E as [E1 E2]. revert Hu. unfold consent_unsubscribe. destruct (mailing_unsubscribe sub camp now (c_mail c)) as [[m1 n']|] eqn:Hu; [|done].
  cbn [result_bind]. intros [= <- _].
  set (c1' := match c_subscribers c !! sub with Some _ => _ | None => _ end) in *.
  assert (Ec : c_mail c1' = m1) by (subst c1'; repeat case_match; done). rewrite Ec in E1, E2. split.
  - intros [(s' & Hs & Ha) Hn]. simpl in Hs. rewrite E1 in Hs. apply unsubscribe_people in Hu as [_ Hp].
    destruct (c_subscribers c !! sub) as [s|] eqn:Hsub; [|subst m1; by apply (Hn s')].
    destruct (String.eqb (s_status s) "unsubscribed"); rewrite Hp in Hs; [by apply (Hn s')|].
    apply lookup_insert_Some in Hs as [[<- <-]|[_ Hs]]; [done|by apply (Hn s')].
  - intros key r Hk Hf. simpl. rewrite E2. revert Hu. unfold mailing_unsubscribe. destruct (c_subscribers c !! sub) as [s|]; [|by intros [= <- _]].
    destruct (fence _ _); [|done]. cbn [result_bind]. intros [= <- _]. unfold upsert_suppression.
    set (m2 := if String.eqb (s_status s) "unsubscribed" then _ else _).
    assert (E3 : m_suppressions m2 = m_suppressions (c_mail c)) by (subst m2; by destruct (String.eqb _ _)). simpl. rewrite E3.
    destruct (decide (key = (s_business s, email_key (s_email s)))) as [->|Hne]; [|by rewrite lookup_insert_ne].
    rewrite lookup_insert_eq, Hk. by rewrite Hf.
Qed.

(** C18: A request anybody can send makes a subscriber active only by the unexpired
    confirmation link issued for that very subscriber while nothing but an earlier
    unsubscribe speaks against the address, or by the first sign-up of an address
    that is not suppressed on a list that asks for no confirmation.  Suppressions
    from bounces and complaints survive every such request. *)
Theorem strangers_cannot_subscribe op now id c :
  stranger op = true ->
  let c' := consent_exec op now c in
  (became_active id c c' ->
     (exists raw, op = CConfirm raw /\ confirmed_by raw now id c) \/
     (exists key input allow dr, op = CSignUp key input allow dr /\ first_sign_up key input id c)) /\
  kept_feedback c c'.
Proof.
  destruct op; try done; intros _; cbn [consent_exec].
  - destruct (sign_up_strangers key input allow dr id c) as [Hb Hk]. split; [|done]. intros Ha. right. exists key, input, allow, dr. auto.
  - destruct (confirm_strangers raw now id c) as [Hb Hk]. split; [|done]. intros Ha. left. exists raw. auto.
  - destruct (unsubscribe_strangers raw now id c) as [Hb Hk]. by split.
Qed.

(** ** Confirmation links *)

(** [id] holds the token. *)
Definition holds (hash : list ascii) (c : cdb) (id : uuid) : Prop :=
  exists k expires, c_consents c !! id = Some k /\ co_confirm k = Some (hash, expires).

Lemma confirmable_holds c hash now id s : confirmable c hash now id s = true -> holds hash c id.
Proof.
  unfold confirmable, confirms, holds. destruct (c_consents c !! id) as [k|]; [|by destruct (is_pending _)]. simpl.
  destruct (co_confirm k) as [[h e]|] eqn:Hc; [|by destruct (is_pending _)]. destruct (is_pending _); [|done]. simpl.
  case_bool_decide as Hh; [|done]. subst h. intros _. by exists k, e.
Qed.

Lemma Confirm_dead raw hash now c : HashConfirmation raw = Ok hash -> (forall id, ~ holds hash c id) -> Confirm raw now c = (c, Ok tt).
Proof.
  intros Hh Hno. unfold Confirm, run_consent. rewrite Hh, confirm_none; [done|]. intros id s _.
  destruct (confirmable c hash now id s) eqn:Hc; [|done]. apply confirmable_holds in Hc. by destruct (Hno id).
Qed.

(** C20: A confirmation link works once: when the only holder of its token has been
    confirmed, following the link again does nothing, at any time and whatever
    happened in between, as long as the token is not drawn a second time. *)
Theorem confirmation_single_use raw hash now c c1 c2 now' :
  consent_ok c -> HashConfirmation raw = Ok hash ->
  (forall i j, holds hash c i -> holds hash c j -> i = j) ->
  mailing_confirm hash now c = Ok (c1, 1%Z) ->
  rtc (consent_step (fun h => h <> hash)) c1 c2 ->
  Confirm raw now' c2 = (c2, Ok tt).
Proof.
  intros Hok Hh Hsole Hc Hr. apply (Confirm_dead raw hash); [done|]. pose proof (confirm_fine _ _ _ _ _ Hc Hok) as [Hok1 _ _ _ _].
  apply confirm_spec in Hc as [[? _]|(_ & id & s & k & Hs & Hk & Hc & (_ & Ec & _) & _)]; [done|]. apply confirmable_holds in Hc.
  intros i (k2 & e & Hk2 & Hco2). destruct (ad_tokens _ _ _ (consent_run_fine _ _ _ Hr Hok1) _ _ _ _ Hk2 Hco2) as [|(k1 & Hk1 & Hco1)]; [done|].
  rewrite Ec in Hk1. apply lookup_insert_Some in Hk1 as [[<- <-]|[Hne Hk1]]; [done|]. destruct Hne. apply Hsole; [done|]. by exists k1, e.
Qed.

(** *** Signing up and confirming *)

(** The row of a public sign-up that awaits its confirmation. *)
Record awaiting (a : subscribe_args) (token : list ascii * time) (c c1 : cdb) (id : uuid) (s : subscriber_row) (k : consent_row) : Prop := {
  aw_written : row_written id s k c c1;
  aw_status : s_status s = "pending";
  aw_token : co_confirm k = Some token;
  aw_list : s_list s = sa_list a;
  aw_business : s_business s = sa_business a;
  aw_root : s_root s = sa_root a;
  aw_email : email_key (s_email s) = email_key (sa_email a);
  aw_suppressions : m_suppressions (c_mail c1) = m_suppressions (c_mail c);
  aw_operational : forall l b r, list_operational (c_db c1) l b r = list_operational (c_db c) l b r;
  aw_fence : forall r, fence (c_mail c1) r = fence (c_mail c) r;
  aw_profiles : m_profiles (c_mail c1) = m_profiles (c_mail c);
  aw_blocked : m_blocked (c_mail c1) = m_blocked (c_mail c)
}.

(** A sign-up that needs a confirmation: the address is new to the list, and the list
    asks for a double opt-in or the address has unsubscribed from the business; or
    its subscriber left the list or never confirmed. *)
Definition may_sign_up (l business root : uuid) (email : string) (id : uuid) (c : cdb) : Prop :=
  match find_subscriber c l email with
  | None => c_subscribers c !! id = None /\ (double_opt_in c l = true \/ business_suppressed c business email = true)
  | Some (_, s) => reactivable (s_status s) = true /\ s_business s = business /\ s_root s = root
  end.

Lemma public_awaits a token o id now c :
  key_usable a c = true -> sa_source a = SPublicForm -> sa_attested a = None -> sa_skip a = false -> sa_attributes a = JObj o ->
  sa_token a = Some token -> fence (c_mail c) (sa_root a) = Ok tt -> feedback_suppressed c (sa_business a) (sa_email a) = false ->
  may_sign_up (sa_list a) (sa_business a) (sa_root a) (sa_email a) id c ->
  exists c1 sid s k created, mailing_key_subscribe a id now c = Ok (c1, Some (sid, created, "pending")) /\ awaiting a token c c1 sid s k.
Proof.
  intros Hk Hsrc Hatt Hskip Hattr Htok Hfence Hfb Hmay. unfold mailing_key_subscribe.
  assert (Hpub : is_public a = true) by (unfold is_public; rewrite Hsrc; done).
  assert (Hno : bool_decide (sa_attested a <> None) = false) by (apply bool_decide_eq_false_2; tauto).
  assert (Hobj : match sa_attributes a with JObj _ => true | _ => false end = true) by by rewrite Hattr.
  assert (Hlt : forall st, lacks_token a st = false) by (intros st; unfold lacks_token; rewrite Htok; apply andb_false_r).
  rewrite Hk, Hpub, Hno, Hobj, Hfence. simpl. unfold may_sign_up in Hmay.
  destruct (find_subscriber c (sa_list a) (sa_email a)) as [[sid s0]|] eqn:Hf.
  - destruct Hmay as (Hre & Hb & Hr). apply find_subscriber_some in Hf as (Hs0 & Hl & He).
    unfold subscribe_again. rewrite Hpub, Hre. rewrite Hlt. simpl.
    assert (Hfb' : feedback_suppressed c (s_business s0) (s_email s0) = false) by (unfold feedback_suppressed in *; by rewrite Hb, He).
    rewrite Hfb'. simpl. set (row := signed_up_again a "pending" now s0 (c_consents c !! sid)).
    destruct (String.eqb (s_status s0) "pending"); eexists _, sid, row.1, row.2, false; (split; [reflexivity|]); split; try done;
      exact (put_row_written sid row.1 row.2 c).
  - destruct Hmay as [Hid Hd]. unfold subscribe_new. rewrite bool_decide_eq_false_2 by (rewrite Hid; tauto).
    assert (Hst : desired_status a c = "pending").
    { unfold desired_status. rewrite Hpub, Hskip. destruct Hd as [-> | ->]; [by destruct (business_suppressed _ _ _)|done]. }
    rewrite Hst, Hlt. simpl.
    eexists _, id, (signed_up a "pending" now).1, (signed_up a "pending" now).2, true. split; [reflexivity|]. by split.
Qed.

(** The sole holder confirms in time. *)
Lemma confirms_in_time hash expires id s k t c :
  c_subscribers c !! id = Some s -> c_consents c !! id = Some k -> s_status s = "pending" -> co_confirm k = Some (hash, expires) ->
  (forall i, holds hash c i -> i = id) -> list_operational (c_db c) (s_list s) (s_business s) (s_root s) = true ->
  feedback_suppressed c (s_business s) (s_email s) = false -> fence (c_mail c) (s_root s) = Ok tt -> (t < expires)%Z ->
  exists c2, mailing_confirm hash t c = Ok (c2, 1%Z) /\ row_written id (with_subscriber_status "active" s) (confirmed t k) c c2 /\
    business_suppressed c2 (s_business s) (s_email s) = false.
Proof.
  intros Hs Hk Hst Hco Hsole Hop Hfb Hfence Ht.
  assert (Hme : confirmable c hash t id s = true).
  { unfold confirmable, confirms. rewrite Hk, Hop, Hfb. simpl. rewrite Hco, Hst. simpl. rewrite bool_decide_eq_true_2 by done.
    simpl. rewrite !andb_true_r. by apply Z.ltb_lt. }
  assert (Hfind : mfind (confirmable c hash t) (c_subscribers c) = Some (id, s)).
  { destruct (mfind (confirmable c hash t) (c_subscribers c)) as [[i s']|] eqn:Hf.
    - apply mfind_some in Hf as [Hi Hc]. apply confirmable_holds, Hsole in Hc. subst i. rewrite Hs in Hi. by injection Hi as <-.
    - apply mfind_none in Hf. rewrite mexists_false in Hf. by rewrite (Hf _ _ Hs) in Hme. }
  destruct (mailing_confirm hash t c) as [[c2 n]|e] eqn:Hc; cycle 1.
  { unfold mailing_confirm in Hc. by rewrite Hfind, Hfence in Hc. }
  exists c2. pose proof Hc as Hspec. apply confirm_spec in Hspec as [[-> _]|(-> & i & s' & k' & Hi & Hk' & Hcon & Hw & _ & Hsup)].
  { unfold mailing_confirm in Hc. by rewrite Hfind, Hfence in Hc. }
  apply confirmable_holds, Hsole in Hcon. subst i. rewrite Hs in Hi. injection Hi as <-. rewrite Hk in Hk'. injection Hk' as <-.
  split_and!; [done..|]. revert Hc. unfold mailing_confirm. rewrite Hfind, Hfence. cbn [result_bind]. intros [= <-].
  unfold business_suppressed at 1. unfold emit_status, emit_activated. rewrite !emit_suppressions. unfold lift_unsubscribe.
  match goal with |- context [feedback_suppressed ?c1 _ _] =>
    assert (Hfb1 : feedback_suppressed c1 (s_business s) (s_email s) = false) by exact Hfb; rewrite Hfb1; simpl;
    destruct (business_suppressed c1 (s_business s) (s_email s)) eqn:Hbs end; simpl.
  - by rewrite lookup_delete_eq.
  - revert Hbs. unfold business_suppressed. simpl. by destruct (m_suppressions (c_mail c) !! _).
Qed.

Lemma public_list_usable key c l a :
  mailing_public_list key c = Some l -> sa_key a = pl_keyID l -> sa_list a = pl_listID l -> sa_business a = pl_businessID l ->
  sa_root a = pl_tenantRootID l -> key_usable a c = true.
Proof.
  unfold mailing_public_list, enabled_key, key_usable. destruct (mfind _ (c_keys c)) as [[id x]|]; [|done].
  destruct (c_list_keys c !! id) as [k|] eqn:Hk; [|done]. destruct (k_revoked k) eqn:Hrev; [done|].
  destruct (list_operational _ _ _ _) eqn:Hop; [|done]. intros [= <-]. simpl. intros -> -> -> ->.
  by rewrite Hk, !N.eqb_refl, Hrev, Hop.
Qed.

Lemma public_list_operational key c l :
  mailing_public_list key c = Some l -> list_operational (c_db c) (pl_listID l) (pl_businessID l) (pl_tenantRootID l) = true.
Proof.
  unfold mailing_public_list. destruct (enabled_key key c) as [[[id x] k]|]; [|done].
  destruct (list_operational _ _ _ _) eqn:Hop; [|done]. by intros [= <-].
Qed.

(** The confirmation of a pending sign-up goes out while its link lives, once the
    business has a profile that may send and the address is not blocked. *)
Lemma confirmation_goes_out base f hash expires sid s k t c1 pid p :
  c_subscribers c1 !! sid = Some s -> c_consents c1 !! sid = Some k -> s_status s = "pending" ->
  co_confirm k = Some (hash, expires) -> HashConfirmation (cf_raw f) = Ok hash ->
  (forall i, holds hash c1 i -> i = sid) -> (t < expires)%Z ->
  list_operational (c_db c1) (s_list s) (s_business s) (s_root s) = true -> fence (c_mail c1) (s_root s) = Ok tt ->
  feedback_suppressed c1 (s_business s) (s_email s) = false -> email_key (s_email s) ∉ m_blocked (c_mail c1) ->
  s_business s = cf_business f -> s_list s = cf_list f -> email_key (s_email s) = email_key (cf_email f) ->
  m_profiles (c_mail c1) !! pid = Some p -> pf_business p = s_business s -> pf_root p = s_root s ->
  pf_status p = "verified" -> pf_feedback p = "ready" ->
  exists mail, sendConfirmation base true f t c1 = Some mail /\ cfm_To mail = cf_email f /\
    cfm_Link mail = TrimSuffix base "/" +:+ "/m/confirm/" +:+ cf_raw f.
Proof.
  intros Hs Hk Hst Hco Hh Hsole Ht Hop Hfence Hfb Hbl Hb Hl He Hp Hpb Hpr Hps Hpf. unfold sendConfirmation. rewrite Hh.
  assert (exists q, confirmation_context (cf_business f) (cf_list f) (cf_email f) hash t c1 = Some q) as [[qid q] ->];
    [|by eexists]. unfold confirmation_context.
  assert (Hroot : bool_decide (s_root s ∈ db_fenced_roots (c_db c1)) = false).
  { unfold fence, write_fence, root_write_allowed in Hfence. by destruct (bool_decide _). }
  destruct (mfind _ (c_subscribers c1)) as [[i s']|] eqn:Hf; cycle 1.
  { apply mfind_none in Hf. rewrite mexists_false in Hf. specialize (Hf _ _ Hs). revert Hf. simpl. unfold confirms, citext_eq.
    unfold email_key in He. rewrite Hb, Hl, !N.eqb_refl, He, String.eqb_refl, Hst, Hk. simpl. rewrite Hco.
    rewrite <- Hb, <- Hl, Hop, Hroot, Hfb. rewrite (bool_decide_eq_true_2 (hash = hash)) by done.
    rewrite (bool_decide_eq_false_2 (_ ∈ m_blocked _)) by done. by rewrite (proj2 (Z.ltb_lt t expires) Ht). }
  apply mfind_some in Hf as [Hi Hm]. rewrite !andb_true_iff in Hm. destruct Hm as [[[[[[_ _] Hc] Hop'] _] _] Hfb'].
  assert (i = sid) as ->. { apply Hsole, (confirmable_holds _ _ t i s'). unfold confirmable. by rewrite Hc, Hop', Hfb'. }
  rewrite Hs in Hi. injection Hi as <-.
  destruct (mfind _ (m_profiles _)) as [q|] eqn:Hq; [by exists q|].
  apply mfind_none in Hq. rewrite mexists_false in Hq. specialize (Hq _ _ Hp). by rewrite Hpb, Hpr, Hps, Hpf, !N.eqb_refl in Hq.
Qed.

(** What a pending sign-up comes to: the mail, and the link. *)
Definition link_works (base : string) (l : publicListContext) (clock : time) (c1 : cdb) (f : confirmation) (sid : uuid)
    (s : subscriber_row) : Prop :=
  (forall t pid p, (t < clock + 48 * Hour)%Z -> m_profiles (c_mail c1) !! pid = Some p ->
     pf_business p = pl_businessID l -> pf_root p = pl_tenantRootID l -> pf_status p = "verified" -> pf_feedback p = "ready" ->
     email_key (cf_email f) ∉ m_blocked (c_mail c1) ->
     exists mail, sendConfirmation base true f t c1 = Some mail /\ cfm_To mail = cf_email f /\
       cfm_Link mail = TrimSuffix base "/" +:+ "/m/confirm/" +:+ cf_raw f) /\
  forall t,
    if (t <? clock + 48 * Hour)%Z
    then exists c2 k, Confirm (cf_raw f) t c1 = (c2, Ok tt) /\
           c_subscribers c2 = <[sid := with_subscriber_status "active" s]> (c_subscribers c1) /\
           c_consents c2 !! sid = Some k /\ co_confirmed_at k = Some t /\
           business_suppressed c2 (pl_businessID l) (cf_email f) = false
    else Confirm (cf_raw f) t c1 = (c1, Ok tt).

Section SignUp.
Variables (key : string) (input : PublicSubscriptionInput) (allow : uuid -> bool) (entropy : list ascii) (clock : time)
  (id : uuid) (now : time) (o : list (string * json)) (c : cdb) (l : publicListContext) (email : string).
Context (Hl : mailing_public_list key c = Some l) (Hallow : allow (pl_keyID l) = true)
  (Hlen : length entropy = confirmSize) (Hemail : mail_normalizeEmail (ps_Email input) = Ok email)
  (Hattr : jsonObject (ps_Attributes input) = Ok (JObj o)) (Hfence : fence (c_mail c) (pl_tenantRootID l) = Ok tt).

Let form : cdb * result error (PublicSubscriptionResult * option confirmation) :=
  subscribePublic key input allow {| dr_entropy := Some entropy; dr_clock := clock; dr_id := id; dr_now := now |} c.

Let args : subscribe_args :=
  {| sa_key := pl_keyID l; sa_list := pl_listID l; sa_business := pl_businessID l; sa_root := pl_tenantRootID l;
     sa_email := email; sa_first := cleanOptional (ps_FirstName input); sa_last := cleanOptional (ps_LastName input);
     sa_attributes := JObj o; sa_source := SPublicForm; sa_attested := None; sa_skip := false;
     sa_token := Some (sha256_sum entropy, Add clock confirmationTTL) |}.

(** The form comes down to one call of the database. *)
Lemma form_call :
  form = match mailing_key_subscribe args id now c with
         | Ok (c1, Some (sid, created, status)) =>
             (c1, Ok ({| psr_SubscriberID := sid; psr_Created := created; psr_Status := status |},
                      if is_pending status
                      then Some {| cf_business := pl_businessID l; cf_list := pl_listID l; cf_email := email;
                                   cf_raw := of_bytes (base64url entropy) |} else None))
         | Ok (c1, None) => (c1, Ok (no_subscription, None))
         | Err e => (c, Err (mapTxError e))
         end.
Proof.
  unfold form, subscribePublic, run_consent. rewrite Hl, Hallow. simpl. unfold subscribeResolved. rewrite Hemail, Hattr.
  cbn [result_bind]. unfold confirmation_token. simpl. unfold mailing_public_subscribe. simpl. fold args.
  destruct (mailing_key_subscribe args id now c) as [[c1 [[[sid created] status]|]]|e]; cbn [result_bind]; try done.
  simpl. assert (Hne : String.eqb (of_bytes (base64url entropy)) "" = false).
  { apply String.eqb_neq. intros E. assert (Hb : length (bytes (of_bytes (base64url entropy))) = 0) by by rewrite E.
    rewrite bytes_of_bytes in Hb. unfold base64url in Hb. rewrite length_b64_encode, Hlen in Hb. done. }
  rewrite Hne. by destruct (is_pending status).
Qed.

Lemma entropy_hash : HashConfirmation (of_bytes (base64url entropy)) = Ok (sha256_sum entropy).
Proof.
  unfold HashConfirmation. rewrite <- length_bytes, bytes_of_bytes, base64url_roundtrip.
  unfold base64url. by rewrite length_b64_encode, Hlen.
Qed.

Lemma signup_pending base :
  feedback_suppressed c (pl_businessID l) email = false -> (forall i, ~ holds (sha256_sum entropy) c i) ->
  may_sign_up (pl_listID l) (pl_businessID l) (pl_tenantRootID l) email id c ->
  exists c1 result f sid s,
    form = (c1, Ok (result, Some f)) /\ psr_Status result = "pending" /\ psr_SubscriberID result = sid /\ cf_email f = email /\
    c_subscribers c1 !! sid = Some s /\ s_list s = pl_listID l /\ email_key (s_email s) = email_key email /\
    link_works base l clock c1 f sid s.
Proof.
  intros Hfb Hfresh Hmay. set (hash := sha256_sum entropy) in *.
  destruct (public_awaits args (hash, Add clock confirmationTTL) o id now c) as (c1 & sid & s & k & created & Hsub & Haw); try done.
  { by apply (public_list_usable key c l). }
  rewrite form_call, Hsub. assert (Hraw : HashConfirmation (of_bytes (base64url entropy)) = Ok hash) by exact entropy_hash.
  destruct Haw as [(Ws & Wc & _) Hst Htok Hlist Hbus Hroot Hmail Hsup Hopn Hfn Hpr Hbl]. simpl in Hlist, Hbus, Hroot, Hmail.
  assert (Hs : c_subscribers c1 !! sid = Some s) by by rewrite Ws, lookup_insert_eq.
  assert (Hk : c_consents c1 !! sid = Some k) by by rewrite Wc, lookup_insert_eq.
  assert (Hsole : forall i, holds hash c1 i -> i = sid).
  { intros i (k' & e & Hk' & Hc). rewrite Wc in Hk'. apply lookup_insert_Some in Hk' as [[<- _]|[_ Hk']]; [done|].
    destruct (Hfresh i). by exists k', e. }
  assert (Hop1 : list_operational (c_db c1) (s_list s) (s_business s) (s_root s) = true)
    by (rewrite Hopn, Hlist, Hbus, Hroot; by apply (public_list_operational key)).
  assert (Hfb1 : feedback_suppressed c1 (s_business s) (s_email s) = false)
    by (unfold feedback_suppressed in *; by rewrite Hsup, Hbus, Hmail).
  assert (Hfn1 : fence (c_mail c1) (s_root s) = Ok tt) by by rewrite Hfn, Hroot.
  eexists c1, _, _, sid, s. split; [reflexivity|]. split_and!; try done. split.
  - intros t pid p Ht Hp Hpb Hproot Hps Hpf Hblocked. apply (confirmation_goes_out _ _ hash (Add clock confirmationTTL) sid s k t c1 pid p);
      try done; [by rewrite Hmail|congruence|congruence].
  - intros t. unfold Confirm, run_consent. cbn [cf_raw]. rewrite Hraw. destruct (Z.ltb_spec t (clock + 48 * Hour)) as [Ht|Ht].
    + destruct (confirms_in_time hash (Add clock confirmationTTL) sid s k t c1) as (c2 & Hc & (Ws2 & Wc2 & _) & Hbs); try done.
      rewrite Hc. simpl. exists c2, (confirmed t k). split_and!; try done; [by rewrite Wc2, lookup_insert_eq|].
      unfold business_suppressed in *. by rewrite Hbus, Hmail in Hbs.
    + rewrite confirm_none; [done|]. intros i s' Hs'. destruct (confirmable c1 hash t i s') eqn:Hc; [|done].
      pose proof (confirmable_holds _ _ _ _ _ Hc) as ->%Hsole. unfold confirmable, confirms in Hc.
      rewrite Hk in Hc. simpl in Hc. rewrite Htok in Hc. simpl in Hc.
      destruct (Z.ltb_spec t (Add clock confirmationTTL)) as [Ht'|_]; [unfold Add, confirmationTTL in Ht'; lia|].
      by rewrite !andb_false_r in Hc.
Qed.

(** The database accepts the call of the form. *)
Lemma form_accepted :
  mailing_key_subscribe args id now c =
  match find_subscriber c (pl_listID l) email with
  | None => subscribe_new args id now c
  | Some (sid, s) => subscribe_again args sid s now c
  end.
Proof.
  assert (Hu : key_usable args c = true) by by apply (public_list_usable key c l).
  unfold mailing_key_subscribe. rewrite Hu. simpl. rewrite Hfence. done.
Qed.

Lemma signup_at_once :
  find_subscriber c (pl_listID l) email = None -> c_subscribers c !! id = None -> double_opt_in c (pl_listID l) = false ->
  business_suppressed c (pl_businessID l) email = false ->
  exists c1 s k, form = (c1, Ok ({| psr_SubscriberID := id; psr_Created := true; psr_Status := "active" |}, None)) /\
    row_written id s k c c1 /\ s_status s = "active" /\ s_email s = email /\ s_list s = pl_listID l /\
    co_source k = SPublicForm /\ co_confirmed_at k = Some now.
Proof.
  intros Hf Hid Hd Hbs. rewrite form_call, form_accepted, Hf. unfold subscribe_new.
  assert (Hst : desired_status args c = "active") by (unfold desired_status; simpl; by rewrite Hbs, Hd).
  rewrite bool_decide_eq_false_2 by (intros Hne; exact (Hne Hid)). rewrite Hst. simpl.
  eexists _, (signed_up args "active" now).1, (signed_up args "active" now).2. split; [reflexivity|]. split; [|repeat split; reflexivity].
  eapply row_written_people; [apply put_row_written|apply emit_people].
Qed.

Lemma signup_settled sid s :
  find_subscriber c (pl_listID l) email = Some (sid, s) -> reactivable (s_status s) = false ->
  form = (c, Ok ({| psr_SubscriberID := sid; psr_Created := false; psr_Status := s_status s |}, None)).
Proof.
  intros Hf Hr. rewrite form_call, form_accepted, Hf. unfold subscribe_again. rewrite Hr. simpl.
  assert (Hlt : forall st, lacks_token args st = false) by (intros st; apply andb_false_r). rewrite Hlt.
  assert (is_pending (s_status s) = false) as ->; [|done].
  unfold reactivable in Hr. by apply orb_false_elim in Hr as [_ ?].
Qed.
End SignUp.


(** A confirmation mail is sent only with a link that works: it makes the holder of
    the token active. *)
Lemma confirmation_mail_works base ready f hash now c mail :
  sendConfirmation base ready f now c = Some mail -> HashConfirmation (cf_raw f) = Ok hash ->
  (forall i j, holds hash c i -> holds hash c j -> i = j) ->
  cfm_To mail = cf_email f /\ exists c', mailing_confirm hash now c = Ok (c', 1%Z).
Proof.
  unfold sendConfirmation. intros Hsend Hh Hsole. rewrite Hh in Hsend. unfold confirmation_context in Hsend.
  destruct (mfind _ (c_subscribers c)) as [[id s]|] eqn:Hf; [|done]. destruct (mfind _ (m_profiles _)) as [[pid p]|]; [|done].
  destruct ready; [|done]. injection Hsend as <-. split; [done|]. apply mfind_some in Hf as [Hs Hm].
  rewrite !andb_true_iff, !negb_true_iff in Hm. destruct Hm as [[[[[_ Hc] Hop] Hfence%bool_decide_eq_false] _] Hfb].
  assert (Hok : confirmable c hash now id s = true) by (unfold confirmable; by rewrite Hc, Hop, Hfb).
  pose proof (confirmable_holds _ _ _ _ _ Hok) as Hid.
  unfold mailing_confirm. destruct (mfind (confirmable c hash now) (c_subscribers c)) as [[i s']|] eqn:Hf.
  - apply mfind_some in Hf as [Hi Hc']. apply confirmable_holds in Hc'. rewrite (Hsole i id Hc' Hid), Hs in Hi. injection Hi as <-.
    unfold fence, write_fence, root_write_allowed. rewrite bool_decide_eq_false_2 by done. cbn [result_bind]. by eexists.
  - apply mfind_none in Hf. rewrite mexists_false in Hf. by rewrite (Hf _ _ Hs) in Hok.
Qed.

(** ** Signed requests and keys *)

(** The request was made less than five minutes from now, and signed with the secret. *)
Definition authentic (r : signed_request) (secret : string) (now : time) : Prop :=
  exists ts, Atoi (TrimSpace (rq_timestamp r)) = Some ts /\ (unix now - 300 <= ts <= unix now + 300)%Z /\
    hex_decode (bytes (TrimSpace (TrimPrefix (TrimSpace (rq_signature r)) "v1="))) =
      Some (hmac_sha256 (bytes secret) (bytes (itoa ts +:+ "." +:+ rq_method r +:+ "." +:+ rq_path r +:+ ".") ++ rq_body r)).

Lemma unix_shift now d : unix (Add now (d * Second)) = (unix now + d)%Z.
Proof. unfold unix, Add. rewrite Z.div_add; [done|]. done. Qed.

Lemma verify_authentic r secret now :
  verifyMailingSignature (rq_timestamp r) (rq_signature r) secret (rq_method r) (rq_path r) (rq_body r) now = true <->
  authentic r secret now.
Proof.
  unfold verifyMailingSignature, authentic, mailingSigningString.
  assert (E1 : unix (Add now (- signatureMaxSkew)) = (unix now - 300)%Z) by exact (unix_shift now (-300)).
  assert (E2 : unix (Add now signatureMaxSkew) = (unix now + 300)%Z) by exact (unix_shift now 300).
  rewrite E1, E2. destruct (Atoi _) as [ts|]; [|split; [done|by intros (? & ? & _)]].
  destruct ((ts <? unix now - 300) || (unix now + 300 <? ts))%Z eqn:Hw.
  { split; [done|]. intros (? & [= <-] & Hwin & _). apply orb_true_iff in Hw as [Hw%Z.ltb_lt|Hw%Z.ltb_lt]; lia. }
  apply orb_false_elim in Hw as [W1%Z.ltb_ge W2%Z.ltb_ge].
  destruct (hex_decode _) as [got|]; [|split; [done|by intros (? & _ & _ & ?)]]. rewrite bool_decide_eq_true. split.
  - intros ->. exists ts. split_and!; try done; lia.
  - intros (? & [= <-] & _ & [= ->]). done.
Qed.

(** The key is enabled for the request, and the request is authentic. *)
Definition vouched (resolve : string -> cdb -> option publicListContext) (env : s2s_env) (r : signed_request) (c : cdb) : Prop :=
  exists l sealed secret, resolve (rq_key r) c = Some l /\ pl_sealedSecret l = Some sealed /\ se_Open env sealed = Some secret /\
    authentic r secret (se_Now env).

Lemma verified_vouched {A : Type} resolve env r (fn : publicListContext -> cdb -> result error (cdb * A)) c :
  vouched resolve env r c \/ withVerifiedS2SResolver resolve env r fn c = (c, Ok None).
Proof.
  unfold withVerifiedS2SResolver, run_consent. destruct (resolve (rq_key r) c) as [l|] eqn:Hl; [|by right].
  destruct (signed_by env r l) eqn:Hs; [left|by right]. unfold signed_by in Hs.
  destruct (pl_sealedSecret l) as [sealed|] eqn:Hsl; [|done]. simpl in Hs. destruct (se_Open env sealed) as [secret|] eqn:Ho; [|done].
  exists l, sealed, secret. split_and!; try done. by apply verify_authentic.
Qed.

(** The answer to a signed sign-up that has no effect: unauthorized, or a bad
    request when the body does not even decode. *)
Definition s2s_refusal (env : s2s_env) (r : signed_request) : result error (option (PublicSubscriptionResult * option confirmation)) :=
  match se_Decode env (rq_body r) with Some _ => Ok None | None => mail_validation "invalid request" end.


Lemma revoked_not_enabled key id x k c :
  consent_ok c -> c_keys c !! id = Some x -> kx_publishable x = key -> c_list_keys c !! id = Some k -> k_revoked k = true ->
  enabled_key key c = None.
Proof.
  intros Hok Hx <- Hk Hr. unfold enabled_key. destruct (mfind _ (c_keys c)) as [[i y]|] eqn:Hf; [|done].
  apply mfind_some in Hf as [Hy E%String.eqb_eq]. rewrite (ok_keys _ Hok i id y x Hy Hx E). by rewrite Hk, Hr.
Qed.

(** C22: Revoking is for ever: from then on, whatever happens in between, no sign-up, no
    signed request and no signed unsubscribe through the key has an effect, however
    it is signed, and the answer is the one for a key that never existed. *)
Theorem revoked_key_dead id x k c c' :
  consent_ok c -> c_keys c !! id = Some x -> c_list_keys c !! id = Some k -> k_revoked k = true ->
  rtc (consent_step any_token) c c' ->
  (forall input allow dr, subscribePublic (kx_publishable x) input allow dr c' = (c', Ok (no_subscription, None))) /\
  (forall env r dr, rq_key r = kx_publishable x -> s2sSubscribe env r dr c' = (c', s2s_refusal env r)) /\
  (forall env r email now, rq_key r = kx_publishable x -> s2sUnsubscribe env r email now c' = (c', Ok None)).
Proof.
  intros Hok Hx Hk Hrev Hr. destruct (consent_run_fine _ _ _ Hr Hok) as [Hok' _ _ Hkeys Hex].
  destruct (Hkeys _ _ Hk) as (k' & Hk' & Hrev'). specialize (Hex _ _ Hx).
  pose proof (revoked_not_enabled _ id x k' c' Hok' Hex eq_refl Hk' (Hrev' Hrev)) as Hno.
  unfold subscribePublic, s2sSubscribe, s2s_refusal, s2sUnsubscribe, withVerifiedS2SResolver, run_consent, mailing_public_list, mailing_unsubscribe_list.
  split_and!; [intros input allow dr; by rewrite Hno|intros env r dr ->; rewrite Hno; by destruct (se_Decode _ _)|intros env r email now Hk2; simpl; by rewrite Hk2, Hno].
Qed.

(** ** Consent and the delivery queue *)

Lemma queue_outside c c' : mail_ok (c_mail c) -> same_queue c c' -> outside (c_mail c) (c_mail c').
Proof.
  intros Hok (Hd & Hc & Hr). split; [|by rewrite Hd; apply Hok|done..]. rewrite Hd. split; [done|]. intros id r Hl. by left.
Qed.

Lemma run_consent_queue {A : Type} (body : cdb -> result error (cdb * A)) c :
  (forall c' a, body c = Ok (c', a) -> same_queue c c') -> same_queue c (run_consent body c).1.
Proof. intros Hb. unfold run_consent. destruct (body c) as [[c' a]|] eqn:Hc; [by eapply Hb|]. simpl. reflexivity. Qed.
Lemma run_request_queue {A : Type} (body : cdb -> result error (cdb * A)) c :
  (forall c' a, body c = Ok (c', a) -> same_queue c c') -> same_queue c (run_request body c).1.
Proof. intros Hb. unfold run_request. destruct (body c) as [[c' a]|] eqn:Hc; [by eapply Hb|]. simpl. reflexivity. Qed.

Lemma resolved_queue l input s2s dr c c' x : subscribeResolved l input s2s dr c = Ok (c', x) -> same_queue c c'.
Proof. intros Hr. destruct (subscribeResolved_spec _ _ _ _ _ _ _ Hr) as (a & Hsub & _). by destruct Hsub. Qed.

Lemma subscribePublic_queue key input allow dr c : same_queue c (subscribePublic key input allow dr c).1.
Proof.
  apply run_consent_queue. intros c' a. destruct (mailing_public_list key c) as [l|]; [|intros [= <- _]; reflexivity].
  destruct (negb _); [done|]. destruct (subscribeResolved l input false dr c) as [[c1 x]|] eqn:Hr; [|done]. cbn [result_bind].
  intros [= <- _]. by eapply resolved_queue.
Qed.

Lemma verified_queue {A : Type} resolve env r (fn : publicListContext -> cdb -> result error (cdb * A)) c :
  (forall l c' a, fn l c = Ok (c', a) -> same_queue c c') -> same_queue c (withVerifiedS2SResolver resolve env r fn c).1.
Proof.
  intros Hfn. apply run_consent_queue. intros c' a. destruct (resolve _ c) as [l|]; [|intros [= <- _]; reflexivity].
  destruct (negb _); [intros [= <- _]; reflexivity|]. destruct (negb _); [done|].
  destruct (fn l c) as [[c1 x]|] eqn:Hf; [|done]. cbn [result_bind]. intros [= <- _]. by eapply Hfn.
Qed.

Lemma s2sSubscribe_queue env r dr c : same_queue c (s2sSubscribe env r dr c).1.
Proof.
  unfold s2sSubscribe. destruct (se_Decode _ _) as [input|]; [|simpl; reflexivity]. apply verified_queue. intros l c' a. destruct (subscribeResolved l input true dr c) as [[c1 x]|] eqn:Hr; [|done].
  cbn [result_bind]. intros [= <- _]. by eapply resolved_queue.
Qed.

Lemma Confirm_queue raw now c : same_queue c (Confirm raw now c).1.
Proof.
  unfold Confirm. destruct (HashConfirmation raw) as [hash|]; [|simpl; reflexivity]. apply run_consent_queue. intros c' a.
  destruct (mailing_confirm hash now c) as [[c1 n]|] eqn:Hc; [|done]. cbn [result_bind]. intros [= <- _].
  apply confirm_spec in Hc as [[_ ->]|(_ & ? & ? & ? & _ & _ & _ & _ & Hq & _)]; [reflexivity|done].
Qed.

Lemma consent_unsubscribe_queue sub camp now c c' n : consent_unsubscribe sub camp now c = Ok (c', n) -> same_queue c c'.
Proof.
  unfold consent_unsubscribe, mailing_unsubscribe. destruct (c_subscribers c !! sub) as [s|]; cbn [result_bind]; [|by intros [= <- _]].
  destruct (fence _ _); [|done]. cbn [result_bind]. intros [= <- _]. by destruct (String.eqb (s_status s) "unsubscribed").
Qed.

Lemma s2sUnsubscribe_queue env r email now c : same_queue c (s2sUnsubscribe env r email now c).1.
Proof.
  apply verified_queue. intros l c' a. destruct email as [raw|]; [|done]. destruct (mail_normalizeEmail raw) as [e|]; [|done].
  cbn [result_bind]. unfold mailing_s2s_unsubscribe. destruct (db_lists _ !! _); [|intros [= <- _]; reflexivity].
  destruct (mfind _ _) as [[id s]|]; [|intros [= <- _]; reflexivity]. by apply consent_unsubscribe_queue.
Qed.

(** The links and the archive do to the queue what they do in [MailService]. *)
Lemma consent_Unsubscribe_mail raw now c : c_mail (consent_Unsubscribe codec raw now c).1 = (Unsubscribe codec raw now (c_mail c)).1.
Proof.
  unfold consent_Unsubscribe, Unsubscribe. destruct (DecodeUnsubscribe codec raw) as [[sub camp]|]; [|done].
  unfold run_consent, run_public, consent_unsubscribe. destruct (mailing_unsubscribe sub camp now (c_mail c)) as [[m n]|]; [|done].
  cbn [result_bind]. set (c1 := match c_subscribers c !! sub with Some _ => _ | None => _ end).
  assert (E : c_mail c1 = m) by (subst c1; repeat case_match; done). rewrite E.
  destruct (mailing_record_unsubscribe sub camp now m) as [[m' b]|]; done.
Qed.

Lemma consent_ArchiveList_mail p b l now c : c_mail (consent_ArchiveList p b l now c).1 = (ArchiveList p b l now (c_mail c)).1.
Proof.
  unfold consent_ArchiveList, ArchiveList, run_request, run_mail, c_root, c_loadList, consent_archive_list.
  destruct (mail_resolveTenantRoot p b (c_mail c)) as [root|]; [|done]. cbn [result_bind].
  destruct (loadList p b root l (c_mail c)); [|done]. cbn [result_bind].
  destruct (mailing_archive_list l b root now (c_mail c)) as [[m n]|]; [|done]. cbn [result_bind].
  destruct (negb _); [done|]. by destruct (n =? 0)%Z.
Qed.

Lemma replaceTags_queue id s tags old now c : same_queue c (replaceTags id s tags old now c).
Proof. apply replaceTags_people. Qed.

Lemma CreateSubscriber_queue p b l input contacts id now c : same_queue c (CreateSubscriber p b l input contacts id now c).1.
Proof.
  unfold CreateSubscriber. destruct (mail_normalizeEmail _); [|simpl; reflexivity]. destruct (normalizeTags _) as [tags|]; [|simpl; reflexivity].
  destruct (jsonObject _); [|simpl; reflexivity]. apply run_request_queue. intros c' out. unfold InsertListSubscriber.
  destruct (c_root p b c); [|done]. cbn [result_bind]. destruct (loadActiveList _ _ _ _ c); [|done]. cbn [result_bind].
  destruct (manual_source _); [|done]. destruct (fence _ _); [|done]. cbn [result_bind]. case_bool_decide; [done|].
  case_bool_decide; [done|]. destruct (match co_contact _ with Some _ => _ | None => _ end); [done|]. cbn [result_bind]. intros [= <- _].
  match goal with |- context [replaceTags id ?s tags [] now ?c1] => pose proof (replaceTags_queue id s tags [] now c1) as Hq end.
  by case_match.
Qed.

Lemma UpdateSubscriber_queue p b l id u now c : same_queue c (UpdateSubscriber p b l id u now c).1.
Proof.
  unfold UpdateSubscriber. destruct (opt_result jsonObject _) as [attrs|]; [|simpl; reflexivity].
  destruct (parse_status _) as [status|]; [|simpl; reflexivity]. destruct (opt_result normalizeTags _) as [tags|]; [|simpl; reflexivity].
  apply run_request_queue. intros c' out. destruct (c_root p b c); [|done]. cbn [result_bind].
  destruct (c_loadList _ _ _ _ c); [|done]. cbn [result_bind]. destruct (loadSubscriber _ _ _ _ _ c) as [s|]; [|done]. cbn [result_bind].
  destruct (fence _ _); [|done]. cbn [result_bind]. cbv zeta. intros [= <- _].
  set (c2 := match tags with Some _ => _ | None => _ end).
  assert (Hq : same_queue c c2).
  { subst c2. destruct tags as [ts|]; [|done]. etransitivity; [|apply replaceTags_queue]. done. }
  by destruct (negb _), (is_active _).
Qed.

(** The paths of a body that do not touch the queue. *)
Ltac off_queue := unfold run_request; match goal with |- same_queue ?c (match ?x with Ok _ => _ | Err _ => _ end).1 =>
    destruct x as [[? ?]|] eqn:Hb; [revert Hb; open_body; try done; repeat case_match; done|done] end.

Lemma UnsubscribeSubscriber_queue p b l id now c : same_queue c (UnsubscribeSubscriber p b l id now c).1.
Proof. unfold UnsubscribeSubscriber. off_queue. Qed.
Lemma CreateList_queue p b input id c : same_queue c (CreateList p b input id c).1.
Proof. unfold CreateList. destruct (name_problem _); [done|]. destruct (_ || _); [done|]. off_queue. Qed.
Lemma UpdateList_queue p b l u c : same_queue c (UpdateList p b l u c).1.
Proof. unfold UpdateList. destruct (match option_map _ _ with Some _ => _ | None => _ end); [done|]. off_queue. Qed.
Lemma CreateListKey_queue p b l label e1 e2 seal id c : same_queue c (CreateListKey p b l label e1 e2 seal id c).1.
Proof.
  unfold CreateListKey. destruct (randomToken _ e1); [|done]. destruct (new_secret seal e2) as [[]|]; [|done].
  destruct (match cleanOptional label with Some _ => _ | None => _ end); [done|]. off_queue.
Qed.
Lemma RevokeListKey_queue p b l key c : same_queue c (RevokeListKey p b l key c).1.
Proof. unfold RevokeListKey. off_queue. Qed.

Lemma consent_step_mail tok c c' : mail_ok (c_mail c) -> consent_step tok c c' -> mail_step codec url_ok (c_mail c) (c_mail c').
Proof.
  intros Hok [op now _ _|m Hout _]; [|by apply step_outside].
  destruct op; cbn [consent_exec];
    try (apply step_outside, queue_outside; [done|];
         first [apply subscribePublic_queue|apply s2sSubscribe_queue|apply s2sUnsubscribe_queue|apply Confirm_queue
               |apply CreateSubscriber_queue|apply UpdateSubscriber_queue|apply UnsubscribeSubscriber_queue|apply CreateList_queue
               |apply UpdateList_queue|apply CreateListKey_queue|apply RevokeListKey_queue]).
  - rewrite consent_Unsubscribe_mail. apply (step_op codec url_ok _ (MUnsubscribe raw) now).
  - rewrite consent_ArchiveList_mail. apply (step_op codec url_ok _ (MArchive principal business list) now).
  - apply (step_op codec url_ok _ op now).
Qed.

(** Seen from the delivery queue, consent is part of mailing: every run of sign-ups,
    links, managers and workers is a run of the mailing system on its tables, where
    unsubscribing and archiving are its own operations; so the mailing invariant
    and what follows from it hold along every run. *)
Theorem consent_refines_mailing tok c c' :
  mail_ok (c_mail c) -> rtc (consent_step tok) c c' ->
  rtc (mail_step codec url_ok) (c_mail c) (c_mail c') /\ mail_ok (c_mail c').
Proof.
  intros Hok Hr. assert (Hrun : rtc (mail_step codec url_ok) (c_mail c) (c_mail c')).
  { revert Hok. induction Hr as [|c c1 c' Hs _ IH]; intros Hok; [done|]. pose proof (consent_step_mail _ _ _ Hok Hs) as Hm.
    eapply rtc_l; [exact Hm|]. apply IH. by eapply mail_reachable_ok; [apply rtc_once|]. }
  split; [done|]. by eapply mail_reachable_ok.
Qed.

(** ** Whoever is mailed has consented *)

Definition active_in (id : uuid) (c : cdb) : Prop := exists s, c_subscribers c !! id = Some s /\ s_status s = "active".

(** The signed request names the subscriber's address, for the list of the key. *)
Definition attested_sign_up (env : s2s_env) (r : signed_request) (id : uuid) (c c' : cdb) : Prop :=
  vouched mailing_public_list env r c /\
  exists l input email s, mailing_public_list (rq_key r) c = Some l /\ se_Decode env (rq_body r) = Some input /\
    mail_normalizeEmail (ps_Email input) = Ok email /\
    c_subscribers c' !! id = Some s /\ s_list s = pl_listID l /\ email_key (s_email s) = email_key email.

(** The ways a subscriber may become active. *)
Definition activated_by (op : consent_op) (now : time) (id : uuid) (c : cdb) : Prop :=
  match op with
  | CConfirm raw => confirmed_by raw now id c
  | CSignUp key input _ _ => first_sign_up key input id c
  | CApiSignUp env r _ => attested_sign_up env r id c (consent_exec op now c)
  | CCreateSubscriber p b l input _ id' =>
      id' = id /\ authorized p b = true /\ c_subscribers c !! id = None /\
      (sbi_SkipConfirmation input = true \/ double_opt_in c l = false)
  | CUpdateSubscriber p b l id' u =>
      id' = id /\ authorized p b = true /\ parse_status (sbu_Status u) = Ok (Some "active") /\
      exists s, c_subscribers c !! id = Some s /\ s_business s = b /\ s_list s = l
  | _ => False
  end.

Lemma not_became_demoting id m c : demoting (c_mail c) m -> ~ became_active id c (set_mail m c).
Proof.
  intros [_ Hd] [(s' & Hs & Ha) Hn]. specialize (Hd id). simpl in Hs. rewrite Hs in Hd.
  destruct (c_subscribers c !! id) as [s|] eqn:Hs0; [|done]. destruct Hd as [_ Hact].
  apply (Hn s eq_refl). apply String.eqb_eq, Hact. by apply String.eqb_eq.
Qed.

Lemma not_became_row id i s k c c' : row_written i s k c c' -> s_status s <> "active" -> ~ became_active id c c'.
Proof. intros Hw Hs Hb. by destruct (became_row _ _ _ _ _ _ Hw Hb). Qed.

Lemma not_became_put id i s c c' :
  c_subscribers c' = <[i := s]> (c_subscribers c) -> s_status s <> "active" -> ~ became_active id c c'.
Proof.
  intros E Hs [(s' & Hs' & Ha) Hn]. rewrite E in Hs'. apply lookup_insert_Some in Hs' as [[_ <-]|[_ Hs']]; [done|].
  by destruct (Hn _ Hs').
Qed.

Lemma consent_unsubscribe_calm sub camp now c c' n id :
  consent_unsubscribe sub camp now c = Ok (c', n) -> ~ became_active id c c'.
Proof.
  unfold consent_unsubscribe. destruct (mailing_unsubscribe sub camp now (c_mail c)) as [[m n']|] eqn:Hu; [|done].
  cbn [result_bind]. intros [= <- _]. apply unsubscribe_people in Hu as [_ Hp].
  destruct (c_subscribers c !! sub) as [s|] eqn:Hsub.
  - destruct (String.eqb (s_status s) "unsubscribed"); [by apply not_became_same|].
    by apply (not_became_put _ sub (with_subscriber_status "unsubscribed" s)).
  - subst m. by apply not_became_same.
Qed.

Lemma run_consent_calm {A : Type} (body : cdb -> result error (cdb * A)) c id :
  (forall c' a, body c = Ok (c', a) -> ~ became_active id c c') -> ~ became_active id c (run_consent body c).1.
Proof. intros Hb. unfold run_consent. destruct (body c) as [[c' a]|] eqn:Hc; [by eapply Hb|]. by apply not_became_same. Qed.
Lemma run_request_calm {A : Type} (body : cdb -> result error (cdb * A)) c id :
  (forall c' a, body c = Ok (c', a) -> ~ became_active id c c') -> ~ became_active id c (run_request body c).1.
Proof. intros Hb. unfold run_request. destruct (body c) as [[c' a]|] eqn:Hc; [by eapply Hb|]. by apply not_became_same. Qed.

Lemma s2sUnsubscribe_calm env r email now c id : ~ became_active id c (s2sUnsubscribe env r email now c).1.
Proof.
  apply run_consent_calm. intros c' a. destruct (mailing_unsubscribe_list _ c) as [l|]; [|intros [= <- _]; by apply not_became_same].
  destruct (negb _); [intros [= <- _]; by apply not_became_same|]. destruct (negb _); [done|]. destruct email as [raw|]; [|done].
  destruct (mail_normalizeEmail raw) as [e|]; [|done]. cbn [result_bind]. unfold mailing_s2s_unsubscribe.
  destruct (db_lists _ !! _); [|intros [= <- _]; by apply not_became_same].
  destruct (mfind _ _) as [[i s]|]; [|intros [= <- _]; by apply not_became_same].
  destruct (consent_unsubscribe i uuid_Nil now c) as [[c1 n]|] eqn:Hu; [|done]. cbn [result_bind]. intros [= <- _].
  by eapply consent_unsubscribe_calm.
Qed.

Lemma UnsubscribeSubscriber_calm p b l i now c id : ~ became_active id c (UnsubscribeSubscriber p b l i now c).1.
Proof.
  apply run_request_calm. intros c' a. destruct (c_root p b c) as [root|]; [|done]. cbn [result_bind].
  destruct (c_loadList p b root l c); [|done]. cbn [result_bind]. destruct (loadSubscriber _ _ _ _ _ c) as [s|]; [|done]. cbn [result_bind].
  destruct (fence _ _); [|done]. cbn [result_bind]. intros [= <- _].
  apply (not_became_put _ i (with_subscriber_status "unsubscribed" s)); [by destruct (String.eqb (s_status s) "unsubscribed")|done].
Qed.

Lemma consent_ArchiveList_calm p b l now c id : ~ became_active id c (consent_ArchiveList p b l now c).1.
Proof.
  apply run_request_calm. intros c' a. destruct (c_root p b c) as [root|]; [|done]. cbn [result_bind].
  destruct (c_loadList p b root l c); [|done]. cbn [result_bind]. unfold consent_archive_list.
  destruct (mailing_archive_list l b root now (c_mail c)) as [[m n]|] eqn:Ha; [|done]. cbn [result_bind].
  apply archive_demoting in Ha. destruct (negb _); [done|]. intros [= <- _] Hb. apply (not_became_demoting id m c Ha).
  revert Hb. unfold became_active. by destruct (n =? 0)%Z.
Qed.

Lemma keys_calm p b l label e1 e2 seal i key c id :
  ~ became_active id c (CreateListKey p b l label e1 e2 seal i c).1 /\ ~ became_active id c (RevokeListKey p b l key c).1.
Proof.
  split; apply not_became_same.
  - unfold CreateListKey. destruct (randomToken "mlk_" e1) as [public|]; [|done]. destruct (new_secret seal e2) as [[secret sealed]|]; [|done].
    destruct (match cleanOptional label with Some _ => _ | None => _ end); [done|]. unfold run_request.
    match goal with |- c_subscribers (match ?x with Ok _ => _ | Err _ => _ end).1 = _ => destruct x as [[c' a]|] eqn:Hb end; [|done].
    revert Hb. open_body; try done.
  - unfold RevokeListKey, run_request.
    match goal with |- c_subscribers (match ?x with Ok _ => _ | Err _ => _ end).1 = _ => destruct x as [[c' a]|] eqn:Hb end; [|done].
    revert Hb. open_body; try done.
Qed.

(** A sign-up that makes somebody active is about the address it names. *)
Lemma subscribed_about a now c c' id :
  subscribed a now c c' -> became_active id c c' ->
  exists s, c_subscribers c' !! id = Some s /\ s_list s = sa_list a /\ email_key (s_email s) = email_key (sa_email a).
Proof.
  intros [|c1 i s k _ _ _ Hsk Hw _ _|c1 i s0 s k Hf _ _ Hsk Hw _ _] Hb.
  - by apply not_became_same in Hb.
  - destruct (became_row _ _ _ _ _ _ Hw Hb) as [-> _]. destruct Hw as (E & _). injection Hsk as -> ->.
    exists (signed_up a (desired_status a c) now).1. rewrite E, lookup_insert_eq. done.
  - destruct (became_row _ _ _ _ _ _ Hw Hb) as [-> _]. destruct Hw as (E & _). injection Hsk as -> ->.
    apply find_subscriber_some in Hf as (_ & Hl & He). eexists. rewrite E, lookup_insert_eq. by split_and!.
Qed.

Lemma s2sSubscribe_lawful env r dr id c :
  became_active id c (s2sSubscribe env r dr c).1 -> attested_sign_up env r id c (s2sSubscribe env r dr c).1.
Proof.
  unfold s2sSubscribe. destruct (se_Decode env (rq_body r)) as [input|] eqn:Hd; [|intros Hb; by apply not_became_same in Hb].
  match goal with |- context [withVerifiedS2SResolver ?f ?e ?q ?g c] => destruct (verified_vouched f e q g c) as [Hv|Hn];
    [|rewrite Hn; intros Hb; by apply not_became_same in Hb] end.
  intros Hb. split; [done|]. revert Hb. unfold withVerifiedS2SResolver, run_consent.
  destruct (mailing_public_list (rq_key r) c) as [l|]; [|intros Hb; by apply not_became_same in Hb].
  destruct (negb _); [intros Hb; by apply not_became_same in Hb|]. destruct (negb _); [intros Hb; by apply not_became_same in Hb|].
  destruct (subscribeResolved l input true dr c) as [[c1 x]|] eqn:Hr; [|intros Hb; by apply not_became_same in Hb]. simpl.
  destruct (subscribeResolved_spec _ _ _ _ _ _ _ Hr) as (a & Hsub & _ & _ & Hlist & _ & Hemail & _). intros Hb.
  destruct (subscribed_about _ _ _ _ _ Hsub Hb) as (s & Hs & Hls & He). exists l, input, (sa_email a), s.
  split_and!; try done. congruence.
Qed.

Lemma manager_allowed p b c root : c_root p b c = Ok root -> authorized p b = true.
Proof.
  unfold c_root, mail_resolveTenantRoot, resolveTenantRoot. destruct (db_businesses _ !! b) as [x|]; [|done].
  by destruct (authorized p b).
Qed.

Lemma CreateSubscriber_lawful p b l input contacts i now id c :
  became_active id c (CreateSubscriber p b l input contacts i now c).1 ->
  i = id /\ authorized p b = true /\ c_subscribers c !! id = None /\
  (sbi_SkipConfirmation input = true \/ double_opt_in c l = false).
Proof.
  unfold CreateSubscriber. destruct (mail_normalizeEmail _) as [email|]; [|intros Hb; by apply not_became_same in Hb].
  destruct (normalizeTags _) as [tags|]; [|intros Hb; by apply not_became_same in Hb].
  destruct (jsonObject _) as [attrs|]; [|intros Hb; by apply not_became_same in Hb]. unfold run_request.
  match goal with |- became_active id c (match ?x with Ok _ => _ | Err _ => _ end).1 -> _ =>
    destruct x as [[c' a]|] eqn:Hx; [|intros Hb; by apply not_became_same in Hb] end.
  revert Hx. destruct (c_root p b c) as [root|] eqn:Hroot; [|done]. cbn [result_bind].
  destruct (loadActiveList p b root l c); [|done]. cbn [result_bind]. cbv zeta.
  destruct (manual_source _) as [source|]; [|done]. unfold InsertListSubscriber.
  set (status := if _ || _ then "active" else "pending"). destruct (fence _ _); [|done]. cbn [result_bind].
  case_bool_decide as Hid; [done|]. case_bool_decide as Hf; [done|]. destruct (match co_contact _ with Some _ => _ | None => _ end); [done|].
  cbn [result_bind]. intros [= <- _]. simpl.
  match goal with |- context [replaceTags i ?x tags [] now (put_row i ?x ?y c)] => set (s := x); set (k := y) end.
  destruct (replaceTags_people i s tags [] now (put_row i s k c)) as (Hs & _). intros Hb.
  assert (E : c_subscribers (if is_active status then emit_activated i s now (replaceTags i s tags [] now (put_row i s k c))
    else replaceTags i s tags [] now (put_row i s k c)) = <[i := with_tags tags s]> (c_subscribers c)).
  { destruct (is_active status); simpl; rewrite Hs; simpl; apply insert_insert_eq. }
  assert (Hst : id = i /\ status = "active").
  { destruct Hb as [(s' & Hs' & Ha) Hn]. simpl in Hs'. rewrite E in Hs'.
    apply lookup_insert_Some in Hs' as [[<- <-]|[_ Hs']]; [done|]. by destruct (Hn _ Hs'). }
  destruct Hst as [-> Hst]. split_and!; [done|by eapply manager_allowed|by destruct (c_subscribers c !! i); [destruct Hid|]|]. subst status.
  destruct (sbi_SkipConfirmation input); [by left|]. right. by destruct (double_opt_in c l).
Qed.

Lemma UpdateSubscriber_lawful p b l i u now id c :
  became_active id c (UpdateSubscriber p b l i u now c).1 ->
  i = id /\ authorized p b = true /\ parse_status (sbu_Status u) = Ok (Some "active") /\
  exists s, c_subscribers c !! id = Some s /\ s_business s = b /\ s_list s = l.
Proof.
  unfold UpdateSubscriber. destruct (opt_result jsonObject _) as [attrs|]; [|intros Hb; by apply not_became_same in Hb].
  destruct (parse_status _) as [status|]; [|intros Hb; by apply not_became_same in Hb].
  destruct (opt_result normalizeTags _) as [tags|]; [|intros Hb; by apply not_became_same in Hb]. unfold run_request.
  match goal with |- became_active id c (match ?x with Ok _ => _ | Err _ => _ end).1 -> _ =>
    destruct x as [[c' a]|] eqn:Hx; [|intros Hb; by apply not_became_same in Hb] end.
  revert Hx. destruct (c_root p b c) as [root|] eqn:Hroot; [|done]. cbn [result_bind].
  destruct (c_loadList p b root l c); [|done]. cbn [result_bind]. unfold loadSubscriber.
  destruct (c_subscribers c !! i) as [s|] eqn:Hs; [|done].
  destruct (_ && N.eqb (s_list s) l) eqn:Hm; [|done]. apply andb_true_iff in Hm as [Hm Hls%N.eqb_eq].
  apply andb_true_iff in Hm as [_ Hbs%N.eqb_eq]. cbn [result_bind].
  destruct (fence _ _); [|done]. cbn [result_bind]. cbv zeta. intros [= <- _]. simpl.
  set (s' := updated_subscriber u status s). set (c1 := update_consent _ i _).
  set (c2 := match tags with Some _ => _ | None => c1 end).
  assert (Hc2 : c_subscribers c2 = <[i := with_tags (default (s_tags s) tags) s']> (c_subscribers c)).
  { subst c2. destruct tags as [ts|]; [|done]. destruct (replaceTags_people i s' ts (s_tags s) now c1) as (-> & _). simpl.
    by rewrite insert_insert_eq. }
  intros [(s2 & Hs2 & Ha) Hn].
  assert (Hs2' : c_subscribers c2 !! id = Some s2)
    by (revert Hs2; simpl; by destruct (negb _), (is_active (default (s_status s) status))).
  rewrite Hc2 in Hs2'. apply lookup_insert_Some in Hs2' as [[<- <-]|[_ Hs2']]; [|by destruct (Hn _ Hs2')].
  simpl in Ha. assert (status = Some "active") as ->.
  { destruct status as [st|]; simpl in Ha; [by subst st|]. by destruct (Hn _ Hs). }
  split_and!; [done|by eapply manager_allowed|done|]. by exists s.
Qed.

Lemma activation_lawful op now id c :
  proper op = true -> became_active id c (consent_exec op now c) -> activated_by op now id c.
Proof.
  intros Hp Hb. destruct op; cbn [consent_exec activated_by] in *.
  - by eapply sign_up_strangers.
  - by apply s2sSubscribe_lawful.
  - by apply s2sUnsubscribe_calm in Hb.
  - by apply confirm_strangers.
  - by apply unsubscribe_strangers in Hb.
  - by eapply CreateSubscriber_lawful.
  - by eapply UpdateSubscriber_lawful.
  - by apply UnsubscribeSubscriber_calm in Hb.
  - apply not_became_same in Hb; [done|]. apply CreateList_people.
  - apply not_became_same in Hb; [done|]. apply UpdateList_people.
  - by apply consent_ArchiveList_calm in Hb.
  - by apply (proj1 (keys_calm principal business l label e1 e2 seal id0 uuid_Nil c id)) in Hb.
  - by apply (proj2 (keys_calm principal business list None None None None uuid_Nil key c id)) in Hb.
  - apply not_became_demoting in Hb; [done|]. by apply plain_op_demoting.
Qed.

Lemma active_decide id c : active_in id c \/ forall s, c_subscribers c !! id = Some s -> s_status s <> "active".
Proof.
  destruct (c_subscribers c !! id) as [s|] eqn:Hs; [|by right; intros s Hs'].
  destruct (String.eqb_spec (s_status s) "active") as [Ha|Hn]; [left; by exists s|]. right. intros s' [= <-]. exact Hn.
Qed.

(** Steps through which the subscriber stays active. *)
Definition active_step (tok : list ascii -> Prop) (id : uuid) (c c' : cdb) : Prop :=
  consent_step tok c c' /\ active_in id c /\ active_in id c'.

(** Whoever is active at the end of a run and was not before was activated for a last time. *)
Lemma last_activation tok id c c' :
  (forall s, c_subscribers c !! id = Some s -> s_status s <> "active") -> rtc (consent_step tok) c c' -> active_in id c' ->
  exists c1 c2, rtc (consent_step tok) c c1 /\ consent_step tok c1 c2 /\ became_active id c1 c2 /\ rtc (active_step tok id) c2 c'.
Proof.
  intros Hn. revert c'. refine (rtc_ind_r _ _ _ _); [intros Ha|intros c1 c' Hr Hs IH Ha].
  - destruct Ha as (s & Hs & Hact). by destruct (Hn s).
  - destruct (active_decide id c1) as [Ha1|Hn1].
    + destruct (IH Ha1) as (d1 & d2 & Hr1 & Hs1 & Hb1 & Hk1). exists d1, d2. split_and!; try done. eapply rtc_r; [exact Hk1|done].
    + exists c1, c'. split_and!; [done|done|by split|done].
Qed.

Lemma renewed_active did g lease now c m r :
  mailing_renew_delivery did g lease now (c_mail c) = (m, true) -> m_deliveries (c_mail c) !! did = Some r ->
  active_in (d_subscriber r) c.
Proof.
  unfold mailing_renew_delivery. destruct (if_claimed (c_mail c) did g) as [r'|] eqn:Hr; [|done].
  apply if_claimed_some in Hr as (Hr & _). destruct (may_send (c_mail c) r') eqn:Hm; [|done]. intros _ Hr2.
  rewrite Hr in Hr2. injection Hr2 as ->. unfold may_send, renewable_recipient in Hm.
  destruct (c_subscribers c !! d_subscriber r) as [s|] eqn:Hs; [|by rewrite andb_false_r in Hm].
  exists s. split; [done|]. destruct (String.eqb_spec (s_status s) "active") as [|]; [done|].
  by rewrite !andb_false_r in Hm.
Qed.

(** C23: Whoever is mailed has consented, and has not left since.  When a worker is
    allowed to send a delivery at the end of a run of sign-ups, links, signed
    requests, managers, workers and other subsystems, and the recipient was not an
    active subscriber at its beginning, the run has a last step that made the
    recipient active, after which it stayed active: its own confirmation link, in
    time, while nothing but an unsubscribe spoke against the address; the first
    sign-up of an address that is not suppressed, on a list without double opt-in;
    a request of the list's key, authentic under its secret, whose body names the
    address; or a manager allowed to act for the business, who creates the
    subscriber as confirmed or sets its status. *)
Theorem mail_needs_consent tok c c' did g lease now m r :
  (forall s, c_subscribers c !! d_subscriber r = Some s -> s_status s <> "active") ->
  rtc (consent_step tok) c c' ->
  m_deliveries (c_mail c') !! did = Some r -> mailing_renew_delivery did g lease now (c_mail c') = (m, true) ->
  exists c1 op t, rtc (consent_step tok) c c1 /\ proper op = true /\ activated_by op t (d_subscriber r) c1 /\
    rtc (active_step tok (d_subscriber r)) (consent_exec op t c1) c'.
Proof.
  intros Hn Hr Hd Hrenew. pose proof (renewed_active _ _ _ _ _ _ _ Hrenew Hd) as Ha.
  destruct (last_activation _ _ _ _ Hn Hr Ha) as (c1 & c2 & Hr1 & [op t Hp Hi|m' Hout Hdem] & Hb & Hk1).
  - exists c1, op, t. split_and!; try done. by apply activation_lawful.
  - by apply not_became_demoting in Hb.
Qed.
End Safety.

(** ** A run

    A manager creates a list with double opt-in and a key; Ada signs up and
    confirms; the manager revokes the key. *)

#[local] Existing Instances demo_unicode demo_uuid demo_zones demo_urls demo_hash demo_authz demo_events demo_crypto.

Definition consent_start : cdb :=
  {| c_mail := set_db (set_list_keys ∅ (set_subscribers ∅ demo_db)) mail_demo;
     c_consents := ∅; c_lists := ∅; c_keys := ∅ |}.
Definition consent_run (ops : list (consent_op * time)) (c : cdb) : cdb :=
  fold_left (fun c x => consent_exec demo_codec any_url (fst x) (snd x) c) ops c.

Definition demo_list : ListInput := {| lin_Slug := ""; lin_Name := "Our News"; lin_Description := None; lin_DoubleOptIn := true |}.
Definition demo_entropy (n : N) : list ascii := be_bytes 32 n.
Definition demo_key : string := "mlk_" +:+ of_bytes (base64url (demo_entropy 5)).
Definition demo_raw (n : N) : string := of_bytes (base64url (demo_entropy n)).
Definition demo_sign_up : PublicSubscriptionInput :=
  {| ps_Email := " Ada@Example.com "; ps_FirstName := Some "Ada"; ps_LastName := None; ps_Attributes := None;
     ps_SkipConfirmation := true |}.
Definition demo_draws (n : N) (t : time) : draws :=
  {| dr_entropy := Some (demo_entropy n); dr_clock := t; dr_id := 60; dr_now := t |}.
Definition sign_up (n : N) (t : time) : consent_op := CSignUp demo_key demo_sign_up (fun _ => true) (demo_draws n t).
Definition minutes (n : Z) : time := (n * Minute)%Z.

Definition demo_setup : list (consent_op * time) :=
  [(CCreateList 7 1 demo_list 50, minutes 1);
   (CCreateListKey 7 1 50 None (Some (demo_entropy 5)) (Some (demo_entropy 6)) (Some (fun s => Ok s)) 40, minutes 2)].
Definition consent_ready : cdb := consent_run demo_setup consent_start.
Definition consent_pending : cdb := consent_run [(sign_up 9 (minutes 3), minutes 3)] consent_ready.
Definition consent_active : cdb := consent_run [(CConfirm (demo_raw 9), minutes 4)] consent_pending.
Definition consent_revoked : cdb := consent_run [(CRevokeListKey 7 1 50 40, minutes 5)] consent_active.

Definition status_of (id : uuid) (c : cdb) : option string := option_map s_status (c_subscribers c !! id).

Example consent_story :
  map (status_of 60) [consent_ready; consent_pending; consent_active] = [None; Some "pending"; Some "active"].
Proof. vm_compute. reflexivity. Qed.

(** A run of proper operations that draws tokens of [tok] only. *)
Lemma consent_run_steps (tok : list ascii -> Prop) (ops : list (consent_op * time)) (c : cdb) :
  Forall (fun x => proper (fst x) = true /\ forall h, op_issues (fst x) h -> tok h) ops ->
  rtc (consent_step demo_codec any_url tok) c (consent_run ops c).
Proof.
  intros Hall. revert c. induction Hall as [|[op now] ops [Hp Hi] _ IH]; intros c; [done|].
  eapply rtc_l; [|apply IH]. by apply (cstep_op demo_codec any_url tok c op now).
Qed.

Lemma consent_start_ok : consent_ok consent_start.
Proof. by split; simpl; intros *; rewrite ?lookup_empty. Qed.
Lemma consent_start_mail : mail_ok (c_mail consent_start).
Proof. destruct mail_demo_ok as [H1 H2 H3 H4 H5]. by split. Qed.

Lemma consent_ready_run : rtc (consent_step demo_codec any_url (fun _ => True)) consent_start consent_ready.
Proof. apply consent_run_steps. by repeat constructor. Qed.
Lemma consent_pending_run : rtc (consent_step demo_codec any_url (fun _ => True)) consent_start consent_pending.
Proof. etransitivity; [apply consent_ready_run|]. apply consent_run_steps. by repeat constructor. Qed.
Lemma consent_revoked_run : rtc (consent_step demo_codec any_url (fun _ => True)) consent_start consent_revoked.
Proof. etransitivity; [apply consent_pending_run|]. etransitivity; apply consent_run_steps; by repeat constructor. Qed.
Lemma consent_pending_ok : consent_ok consent_pending.
Proof. exact (ad_ok _ _ _ (consent_run_fine _ _ _ _ _ consent_pending_run consent_start_ok)). Qed.

Lemma consent_invariant_witness : consent_ok consent_revoked /\ status_of 60 consent_revoked = Some "active".
Proof.
  split; [|vm_compute; reflexivity].
  apply (consent_invariant demo_codec any_url consent_start consent_revoked); [exact consent_start_ok|exact consent_revoked_run].
Defined.

Lemma strangers_cannot_subscribe_witness :
  became_active 60 consent_pending consent_active /\
  ((exists raw, CConfirm (demo_raw 9) = CConfirm raw /\ confirmed_by raw (minutes 4) 60 consent_pending) \/
   (exists key input allow dr, CConfirm (demo_raw 9) = CSignUp key input allow dr /\ first_sign_up key input 60 consent_pending)).
Proof.
  assert (Hb : became_active 60 consent_pending consent_active).
  { split; [eexists; split; vm_compute; reflexivity|]. intros s Hs.
    assert (E : status_of 60 consent_pending = Some "pending") by (vm_compute; reflexivity).
    unfold status_of in E. rewrite Hs in E. injection E as ->. done. }
  split; [exact Hb|].
  apply (strangers_cannot_subscribe demo_codec any_url (CConfirm (demo_raw 9)) (minutes 4) 60 consent_pending eq_refl). exact Hb.
Defined.

(** Only Ada's record exists. *)
Lemma pending_sole hash i : holds hash consent_pending i -> i = 60%N.
Proof.
  assert (E : exists k, c_consents consent_pending = {[ 60%N := k ]}) by (eexists; vm_compute; reflexivity).
  destruct E as [k E]. intros (k' & e & Hk & _). rewrite E in Hk. by apply lookup_singleton_Some in Hk as [<- _].
Qed.
Lemma ready_none hash i : ~ holds hash consent_ready i.
Proof.
  assert (E : c_consents consent_ready = ∅) by (vm_compute; reflexivity).
  intros (k & e & Hk & _). by rewrite E, lookup_empty in Hk.
Qed.

Definition confirmed_state : cdb :=
  match mailing_confirm (demo_entropy 9) (minutes 4) consent_pending with Ok (c, _) => c | Err _ => consent_pending end.
Definition consent_later : cdb := consent_run [(sign_up 10 (minutes 6), minutes 6); (CArchiveList 7 1 50, minutes 7)] confirmed_state.

(** Ada's link, followed again after another sign-up with her address and the
    archiving of the list. *)
Lemma confirmation_single_use_witness : Confirm (demo_raw 9) (minutes 8) consent_later = (consent_later, Ok tt).
Proof.
  apply (confirmation_single_use demo_codec any_url (demo_raw 9) (demo_entropy 9) (minutes 4) consent_pending confirmed_state).
  - exact consent_pending_ok.
  - vm_compute. reflexivity.
  - intros i j Hi%pending_sole Hj%pending_sole. congruence.
  - vm_compute. reflexivity.
  - apply consent_run_steps. repeat constructor; simpl; try done. intros h (raw & Hh) ->. injection Hh as _ Hh. done.
Defined.


Lemma revoked_key_dead_witness :
  subscribePublic demo_key demo_sign_up (fun _ => true) (demo_draws 9 (minutes 9)) consent_revoked =
  (consent_revoked, Ok (no_subscription, None)).
Proof.
  destruct (c_keys consent_revoked !! 40%N) as [x|] eqn:Hx; [|vm_compute in Hx; discriminate Hx].
  destruct (c_list_keys consent_revoked !! 40%N) as [k|] eqn:Hk; [|vm_compute in Hk; discriminate Hk].
  assert (Ex : kx_publishable x = demo_key) by (vm_compute in Hx; injection Hx as <-; vm_compute; reflexivity).
  assert (Ek : k_revoked k = true) by (vm_compute in Hk; by injection Hk as <-).
  rewrite <- Ex.
  apply (revoked_key_dead demo_codec any_url 40 x k consent_revoked consent_revoked); [|exact Hx|exact Hk|exact Ek|apply rtc_refl].
  exact (ad_ok _ _ _ (consent_run_fine _ _ _ _ _ consent_revoked_run consent_start_ok)).
Defined.

Lemma consent_refines_mailing_witness : mail_ok (c_mail consent_revoked).
Proof.
  apply (consent_refines_mailing demo_codec any_url (fun _ => True) consent_start consent_revoked); [exact consent_start_mail|].
  exact consent_revoked_run.
Defined.

(** A campaign to the list reaches Ada. *)
Definition ada_campaign : CampaignInput :=
  {| cin_ListID := 50; cin_Name := "Spring"; cin_Subject := "Hello"; cin_Preheader := None; cin_BodyMarkdown := "# Hi";
     cin_TagFilter := []; cin_TrackOpens := true; cin_TrackClicks := true |}.
Definition consent_mailed : cdb :=
  consent_run [(CMail (MCreate 7 1 ada_campaign 100), minutes 5); (CMail (MSend 7 1 100 None (minutes 6)), minutes 6);
               (CMail (MClaimCampaigns ∅ 4), minutes 7); (CMail (MFanout 100 10 "mail.example.com" demo_newid), minutes 8);
               (CMail (MClaim ∅ false 10 (2 * Minute)), minutes 9)] consent_active.

Lemma mail_needs_consent_witness :
  exists r c1 op t, m_deliveries (c_mail consent_mailed) !! 1060%N = Some r /\ d_email r = "ada@example.com" /\
    (mailing_renew_delivery 1060 1 (2 * Minute) (minutes 9) (c_mail consent_mailed)).2 = true /\
    activated_by demo_codec any_url op t 60 c1.
Proof.
  assert (Hs : option_map (fun r => (d_subscriber r, d_email r)) (m_deliveries (c_mail consent_mailed) !! 1060%N) = Some (60%N, "ada@example.com"))
    by (vm_compute; reflexivity).
  destruct (m_deliveries (c_mail consent_mailed) !! 1060%N) as [r|] eqn:Hr; [|discriminate Hs]. injection Hs as Hs He.
  assert (Hn : (mailing_renew_delivery 1060 1 (2 * Minute) (minutes 9) (c_mail consent_mailed)).2 = true) by (vm_compute; reflexivity).
  destruct (mail_needs_consent demo_codec any_url (fun _ => True) consent_start consent_mailed 1060 1 (2 * Minute) (minutes 9)
    (mailing_renew_delivery 1060 1 (2 * Minute) (minutes 9) (c_mail consent_mailed)).1 r) as (c1 & op & t & _ & _ & Hact & _).
  - intros s Hs0. vm_compute in Hs0. discriminate Hs0.
  - etransitivity; [exact consent_pending_run|]. etransitivity; apply consent_run_steps; by repeat constructor.
  - exact Hr.
  - rewrite <- Hn. apply surjective_pairing.
  - rewrite Hs in Hact. exists r, c1, op, t. split; [reflexivity|]. split; [exact He|]. split; [exact Hn|exact Hact].
Defined.

(** ** A suppression an operator made does not outlive an unsubscribe

    [mailing_unsubscribe] turns the reason of a manual suppression into
    'unsubscribe'; the next sign-up and confirmation then lift it, although both
    honour manual suppressions. *)
Definition ada_leaves : string := EncodeUnsubscribe demo_codec 60 uuid_Nil.
Definition suppressed_by_hand : cdb :=
  consent_run [(CMail (MSuppress 7 1 "ada@example.com" "manual"), minutes 10)] consent_active.
Definition back_again : list (consent_op * time) := [(sign_up 11 (minutes 12), minutes 12); (CConfirm (demo_raw 11), minutes 13)].
Definition after_unsubscribe : cdb := consent_run ((CUnsubscribe ada_leaves, minutes 11) :: back_again) suppressed_by_hand.

Example manual_suppression_lifted :
  feedback_suppressed suppressed_by_hand 1 "ada@example.com" = true /\
  business_suppressed after_unsubscribe 1 "ada@example.com" = false /\ status_of 60 after_unsubscribe = Some "active".
Proof. vm_compute. split_and!; reflexivity. Qed.
